(* ===== verification/_CoqProject ===== *)
-Q . S2P
Prelude.v
Bytes.v
Monad.v
Ondisk.v
State.v
Checksum.v
Utf.v
Bitmap.v
Geometry.v
Cluster.v
FileIO.v
Chain.v
Truncate.v
Content.v
ReadWrite.v
Utils.v
ExfatTime.v
Entries.v
EntriesSpec.v
DirTerm.v
NodeTerm.v
NodeTree.v
TreeSpec.v
TreeReset.v
Lookup.v
LookupSpec.v
TreeSafe.v
TreeMove.v
FlushSpec.v
Dir.v
DirSafe.v
CreateSpec.v
MoveSpec.v
Mount.v
MountSpec.v
MountSafe.v
Fuse.v
FuseSpec.v
Fsck.v
Dump.v
Tools.v
DevIo.v
DevIoSpec.v
DevIoOpen.v
PartTable.v
MbrScan.v
Small.v
Amigaos.v
Log.v
Uctc.v
Mkfs.v
Posix.v
MkfsSpec.v
Format.v
Handler.v
Resident.v
HandlerLocks.v
HandlerSpec.v
HandlerReply.v
HandlerMount.v
HandlerSession.v
HandlerLife.v
Control.v
