(* ===== verification/Prelude.v ===== *)
(** * exFAT: a verification library for libexfat and its tools

    The repository is an implementation of the exFAT file system: a library
    (src/libexfat), a FUSE file system and the usual tools on top of it (src/fuse,
    src/mkfs, src/fsck, src/dump, src/label, src/attrib), and a port to AmigaOS
    (src/amiga).  The files of this library translate the C code function by function,
    under the names of the source, and prove what the code promises.

    ** How C is modelled

    - An integer is a [Z]; arithmetic of an unsigned type wraps through [u8] ... [u64]
      (this file), a conversion to a signed type is [i32] or [i64].  The sizes that depend
      on the platform are those of the class [Platform] (Bytes.v): bitmap_t, and time_t,
      a 64-bit type on a host and a 32-bit one with the Amiga toolchain; a time is cut off
      to it at every assignment ([time_t]).
    - A buffer is a list of bytes, a medium is a function from addresses to bytes, and
      a packed structure is a record with the functions that overlay it on its bytes
      (Bytes.v, Ondisk.v).
    - A function with effects is [S -> outcome S A] (Monad.v): it returns, it stops the
      process ([Halt ExfatBug], the exfat_bug of log.c; [Halt OutOfBounds], a store or a
      load outside of an object, or [Halt BadPointer], a null pointer or freed memory), or
      it runs out of fuel.  [wp f Q] says that [f] returns and its result satisfies [Q];
      [wpt] also allows exfat_bug, for code that meets arbitrary media; [wps] moreover
      allows [OutOfBounds], for code that has such defects.  None of the three allows a
      function to run out of fuel, so each of them includes termination.  Where the input
      that leads to a stop is known, the theorem names it instead
      ([scan_partitions_sound], [mbrscan_balanced]).
    - The state of a function is the part of the program that it can reach (State.v): a
      volume ([vol]), a volume with one node ([nstate]), or the heap of all nodes with
      their pointers ([world]).  The device, the allocator, the clock and the answers of
      the user are the record [env]: any of them may fail at any call.
    - A loop is a [Fixpoint] over the rest of a list where the code has one, and over
      fuel otherwise.  The fuel is part of the definition and enough by theorem: a turn
      per byte for reads and writes ([pread_loop], [pwrite_loop]), a turn per cluster for
      walks of chains, the size of the directory for [readdir], the number of nodes for
      recursions over the tree, 2^16 units for the up-case table.  The depth of [dirck]
      (Fsck.v) is an argument, because the code has no bound for it.

    ** The files and what they model

    - Prelude.v, Bytes.v, Monad.v: integers, lists, tactics; bytes and media
      (byteorder.h); the monad.
    - Ondisk.v (exfatfs.h), State.v (exfat.h, platform parts of io.c).
    - Checksum.v, Utils.v (utils.c), Utf.v (utf.c), ExfatTime.v (time.c).
    - Bitmap.v, Geometry.v, Cluster.v: bitmap operations of exfat.h and all of cluster.c;
      Chain.v, Truncate.v, Content.v: their theorems.
    - FileIO.v: the content of files (io.c); ReadWrite.v: its theorems.  Posix.v: opening
      and closing a device with the table of descriptors (io.c) and mkexfatfs
      (mkfs/main.c).  Log.v: what the messages write (log.c).
    - Entries.v, NodeTree.v, Dir.v: node.c and repair.c, from entries on the medium over
      the tree of nodes to creating, removing and renaming; EntriesSpec.v, DirTerm.v,
      NodeTerm.v, TreeSpec.v, TreeReset.v, TreeSafe.v, TreeMove.v, FlushSpec.v,
      DirSafe.v, CreateSpec.v, MoveSpec.v: their theorems.
    - Lookup.v, LookupSpec.v: lookup.c.  Mount.v, MountSpec.v, MountSafe.v: mount.c.
    - Fuse.v (fuse/main.c) and its theorem FuseSpec.v, Fsck.v (fsck/main.c), Dump.v (dump/main.c), Tools.v
      (attrib/main.c, label/main.c), Uctc.v, Mkfs.v, MkfsSpec.v (mkfs/*.c).
    - DevIo.v, DevIoSpec.v, DevIoOpen.v: amiga/dev_io.c, which replaces io.c there.
      PartTable.v: amiga/parttable.c, against the interface [BlockDevice].
      MbrScan.v: amiga/mbrscan.c.  Small.v (small.c), Amigaos.v (amigaos.c): the C run
      time of the handler.  Format.v: format.c, the mkfs of the handler.
    - Handler.v: amiga/handler.c.  A packet is a constructor of [packet]; the function
      that serves it takes a [handler], the struct ExfatHandler with the locks, files and
      names that were allocated; what it does to the rest of the system is appended to
      the trace of [effect]s.  [packet_loop] is the loop of the process.  Its theorems:
      HandlerLocks.v (the tables of locks and files against the references of the
      nodes), HandlerSpec.v (each packet), HandlerMount.v (mounting, inhibiting,
      releasing, formatting), HandlerReply.v (replies), HandlerSession.v (any sequence
      and the life of the process), HandlerLife.v (processes on a small volume).
    - Resident.v: amiga/romtag.c and exfatres.c, on FileSystem.resource; the processes
      that install the handler are a step relation.  Control.v: amiga/exfatctl.c, which
      runs on the handler of Handler.v.

    ** What the theorems show

    - Data: a name whose surrogates are paired converts to UTF-8 and back, and any other
      is refused; no conversion leaves its buffer; a checksum notices every change of a
      byte; a time that the writer's time_t holds is read back to the second, cut off to
      the reader's time_t, the same one until 2038;
      the entries written for a node or a new file are read back as that node; a run of
      entries is accepted exactly when it forms a file; the up-case table is total on
      any medium.
    - Clusters and content: [exfat_truncate], [exfat_generic_pread] and
      [exfat_generic_pwrite] do to the bytes of a file what they are called for, change
      no other file, and leave the file alone when the volume is full.  These are stated
      on a volume whose device works and whose chains are disjoint.
    - Nodes: reading a directory ends on every medium and builds the doubly linked list
      of children or frees what it read; moving a node between directories and
      forgetting the tree keep the lists and free every node once; a path that is looked
      up is followed from the root through matching names, with one reference more on
      the node it returns and on no other, and none when there is no such node; a flush that reports success leaves nothing
      dirty below the root.  What was created is found under its path
      ([created_is_found]), what was renamed under its new path ([renamed_is_found]), and
      what was removed under none, while the other paths lead where they led
      ([removed_is_gone]).
    - Volumes: mounting anything and unmounting it again frees every node; the boot
      record that mkfs writes passes the checks of mount when its clusters are of 32 MB
      or less, and is refused when a user asked for larger ones ([vbr_write_verified]);
      the areas of a new volume do not overlap, and the FAT has an entry for every
      cluster but perhaps the last ([new_volume_layout]), for the last too with the
      clusters that mkfs chooses ([default_fat_holds_clusters]); state changes of the
      super block keep its checksum.
    - Devices: opening one on POSIX is what the other components take it for, and leaves
      nothing behind when it fails.
    - Tools: [nodeck] of fsck reports exactly the broken files; the fragments that dump
      lists are the file; a device name reaches libfuse as one option.
    - Sessions: any sequence of requests of FUSE ([fuse_session_safe]) keeps the tree of
      nodes and its references; any sequence of packets of AmigaDOS does as long as
      neither of the two outcomes that [outcome_ok] names has occurred
      ([handler_session_safe]), and HandlerLife.v shows that what follows them can use a
      freed node.  Every packet is answered exactly once, and the process goes on or ends
      under the same conditions ([every_packet_answered]); without memory for its own
      structure it does not answer its startup packet.
    - AmigaOS: the block device refines the flat device of State.v on any driver with the
      laws [ExecDeviceLaws], for reads to addresses that the driver accepts (the others
      are [bounced_read_poisons_cache]), and fails only when the driver does; opening it
      is all or nothing; a partition that is reported holds an exFAT volume; mbrscan gives
      back what it got, its arguments included, up to two defects that the theorem names;
      the ROM tag registers an
      entry that starts the handler or leaves no trace; interleaved installations
      account for what they load; "exfatctl die" reports success only when nothing is
      open and everything is written.
    - Defects that the proofs met are theorems where they could be stated on a concrete
      input, and are listed with the properties.

    ** Interfaces

    [Platform] is the machine: the sizes of bitmap_t and time_t; [ExecDevice] with [ExecDeviceLaws]
    is the driver of an Exec device and [BlockDevice] with [BlockDeviceLaws] what the
    partition scan needs of a device.  DevIoOpen.v and PartTable.v hold instances.  What
    the operating system, the C library, getopt and libfuse answer are arguments of the
    definitions that ask for it.

    ** Not modelled

    - Outside of Log.v, the text of messages; what printf() of the C library renders, and
      debug output; the branches for Android, macOS, the BSDs and ublio.
    - amiga/entry.S, the tag of the ROM module, which is data, and the caches of the
      processor.
    - hosttest: tests.  The parsing of options by getopt: its result is an argument.
    - Threads: libexfat has none; FUSE runs it single-threaded (-s).  The handler is one
      process; what other processes do between two packets is the argument
      [system_view]. *)

From Stdlib Require Import ZArith Lia.
From stdpp Require Import base numbers list gmap strings.

#[global] Open Scope Z_scope.

Declare Scope exfat_scope.
Delimit Scope exfat_scope with exfat.

(** ** Machine integers

    A C integer is a [Z]; arithmetic on an unsigned type wraps through the
    functions below.  Signed overflow is undefined in C and is not given a
    meaning: signed values are plain [Z].  A time is the exception: an assignment to
    a time_t converts ([time_t] in Bytes.v). *)

Definition u8 (x : Z) : Z := x mod 2 ^ 8.
Definition u16 (x : Z) : Z := x mod 2 ^ 16.
Definition u32 (x : Z) : Z := x mod 2 ^ 32.
Definition u64 (x : Z) : Z := x mod 2 ^ 64.

(** Conversion to a signed type of [w] bits (two's complement). *)
Definition to_signed (w x : Z) : Z := (x + 2 ^ (w - 1)) mod 2 ^ w - 2 ^ (w - 1).
Definition i8 (x : Z) : Z := to_signed 8 x.
Definition i32 (x : Z) : Z := to_signed 32 x.
Definition i64 (x : Z) : Z := to_signed 64 x.

(** [in_u w x]: [x] is a value of an unsigned type of [w] bits. *)
Definition in_u (w x : Z) : Prop := 0 <= x < 2 ^ w.

#[global] Instance in_u_dec w x : Decision (in_u w x).
Proof. unfold in_u. apply _. Defined.

(** [to_equations] turns every quotient and remainder of the goal and the
    hypotheses into its defining inequalities, for [lia] and [nia]. *)
Ltac to_equations := Z.div_mod_to_equations.

Ltac unfold_ints := unfold u8, u16, u32, u64, i8, i32, i64, to_signed, in_u in *.

Ltac int_lia := unfold_ints; to_equations; lia.

Lemma u8_range x : in_u 8 (u8 x).
Proof. apply Z.mod_pos_bound; lia. Qed.

Lemma u16_range x : in_u 16 (u16 x).
Proof. apply Z.mod_pos_bound; lia. Qed.

Lemma u32_range x : in_u 32 (u32 x).
Proof. apply Z.mod_pos_bound; lia. Qed.

Lemma u64_range x : in_u 64 (u64 x).
Proof. apply Z.mod_pos_bound; lia. Qed.

Lemma u8_small x : in_u 8 x -> u8 x = x.
Proof. apply Z.mod_small. Qed.

Lemma u16_small x : in_u 16 x -> u16 x = x.
Proof. apply Z.mod_small. Qed.

Lemma u32_small x : in_u 32 x -> u32 x = x.
Proof. apply Z.mod_small. Qed.

Lemma u64_small x : in_u 64 x -> u64 x = x.
Proof. apply Z.mod_small. Qed.

(** Congruent values less than the modulus apart are equal. *)
Lemma mod_close a b m : Z.abs (a - b) < m -> a mod m = b mod m -> a = b.
Proof.
  intros Hd H.
  pose proof (Z.div_mod a m ltac:(lia)). pose proof (Z.div_mod b m ltac:(lia)).
  assert (a / m - b / m = 0) by nia. nia.
Qed.

(** A shifted value or'ed with one that fits below it is their sum. *)
Lemma lor_shift_add y k x :
  0 <= k -> 0 <= x < 2 ^ k -> Z.lor (Z.shiftl y k) x = y * 2 ^ k + x.
Proof.
  intros Hk Hx. rewrite <- Z.shiftl_mul_pow2 by lia.
  assert (H : Z.land (Z.shiftl y k) x = 0).
  { rewrite <- (Z.mod_small x (2 ^ k)) by done. rewrite <- Z.land_ones by done.
    apply Z.bits_inj'. intros n Hn. rewrite !Z.land_spec, Z.bits_0.
    destruct (Z.lt_ge_cases n k).
    - by rewrite Z.shiftl_spec_low by lia.
    - rewrite Z.ones_spec_high by lia. by rewrite !andb_false_r. }
  rewrite Z.add_nocarry_lxor by done. by rewrite Z.lxor_lor.
Qed.

(** Masking low bits is a remainder. *)
Lemma land_low x k : 0 <= k -> Z.land x (2 ^ k - 1) = x mod 2 ^ k.
Proof.
  intros. rewrite <- Z.land_ones by done. f_equal. rewrite Z.ones_equiv. lia.
Qed.

(** The C macros of exfat.h. *)
Definition DIV_ROUND_UP (x d : Z) : Z := (x + d - 1) / d.
Definition ROUND_UP (x d : Z) : Z := DIV_ROUND_UP x d * d.

Lemma DIV_ROUND_UP_spec x d :
  0 < d -> d * (DIV_ROUND_UP x d - 1) < x <= d * DIV_ROUND_UP x d.
Proof.
  intros Hd. unfold DIV_ROUND_UP.
  pose proof (Z.div_mod (x + d - 1) d ltac:(lia)).
  pose proof (Z.mod_pos_bound (x + d - 1) d Hd). nia.
Qed.

Lemma ROUND_UP_spec x d :
  0 < d -> x <= ROUND_UP x d < x + d /\ (d | ROUND_UP x d).
Proof.
  intros Hd. unfold ROUND_UP.
  pose proof (DIV_ROUND_UP_spec x d Hd). split; [nia | apply Z.divide_factor_r].
Qed.

Lemma DIV_ROUND_UP_nonneg x d : 0 < d -> 0 <= x -> 0 <= DIV_ROUND_UP x d.
Proof. intros. unfold DIV_ROUND_UP. apply Z.div_pos; lia. Qed.

Create HintDb exfat.
Create Rewrite HintDb exfat.
#[export] Hint Resolve u8_range u16_range u32_range u64_range : exfat.
#[export] Hint Resolve DIV_ROUND_UP_nonneg : exfat.

(** ** errno.h *)

Definition EPERM : Z := 1.
Definition ENOENT : Z := 2.
Definition EIO : Z := 5.
Definition ENOMEM : Z := 12.
Definition EACCES : Z := 13.
Definition EEXIST : Z := 17.
Definition ENODEV : Z := 19.
Definition ENOTDIR : Z := 20.
Definition EISDIR : Z := 21.
Definition EINVAL : Z := 22.
Definition ENOSPC : Z := 28.
Definition EROFS : Z := 30.
Definition ENAMETOOLONG : Z := 36.
Definition ENOTEMPTY : Z := 39.
Definition EILSEQ : Z := 84.

(** ** Lists indexed by [Z] *)

(** [zlen l] is the number of elements. *)
Definition zlen {A} (l : list A) : Z := Z.of_nat (length l).

(** [znth l i]: element [i] of an array of integers; 0 outside of it. *)
Definition znth (l : list Z) (i : Z) : Z :=
  if i <? 0 then 0 else nth (Z.to_nat i) l 0.

(** [sub l off n]: the [n] elements that start at [off]. *)
Definition sub {A} (l : list A) (off n : Z) : list A :=
  take (Z.to_nat n) (drop (Z.to_nat off) l).

(** [splice l off bs]: [memcpy] of [bs] into [l] at [off]. *)
Definition splice {A} (l : list A) (off : Z) (bs : list A) : list A :=
  take (Z.to_nat off) l ++ bs ++ drop (Z.to_nat off + length bs) l.

(** [zset l i v]: the assignment [l[i] = v]. *)
Definition zset {A} (l : list A) (i : Z) (v : A) : list A := splice l i [v].

(** [zseq a n]: the [n] integers from [a]. *)
Fixpoint count_up (n : nat) (a : Z) : list Z :=
  match n with O => [] | S n => a :: count_up n (a + 1) end.

Definition zseq (a n : Z) : list Z := count_up (Z.to_nat n) a.

Definition zrepeat {A} (x : A) (n : Z) : list A := replicate (Z.to_nat n) x.

Lemma zlen_nonneg {A} (l : list A) : 0 <= zlen l.
Proof. unfold zlen. lia. Qed.

Lemma zlen_app {A} (l k : list A) : zlen (l ++ k) = zlen l + zlen k.
Proof. unfold zlen. rewrite length_app. lia. Qed.

Lemma zlen_cons {A} (x : A) l : zlen (x :: l) = 1 + zlen l.
Proof. unfold zlen. simpl. lia. Qed.

Lemma zlen_nil {A} : zlen (@nil A) = 0.
Proof. done. Qed.

Lemma zlen_pos {A} (l : list A) : l <> [] -> 0 < zlen l.
Proof. destruct l; [done |]. unfold zlen. simpl. lia. Qed.

Lemma zlen_nonempty {A} (l : list A) : 0 < zlen l -> l <> [].
Proof. intros H ->. unfold zlen in H. simpl in H. lia. Qed.

Lemma zlen_map {A B} (f : A -> B) l : zlen (map f l) = zlen l.
Proof. unfold zlen. by rewrite length_map. Qed.

Lemma zlen_zrepeat {A} (x : A) n : 0 <= n -> zlen (zrepeat x n) = n.
Proof. intros. unfold zlen, zrepeat. rewrite length_replicate. lia. Qed.

Lemma zseq_seq a n : zseq a n = map (fun k => a + Z.of_nat k) (seq 0 (Z.to_nat n)).
Proof.
  unfold zseq. generalize (Z.to_nat n). intros k. revert a. induction k as [| k IH]; intros a; cbn [count_up seq map]; [done |].
  rewrite IH, <- seq_shift, map_map, Z.add_0_r. f_equal. apply map_ext. intros i. lia.
Qed.

Lemma zlen_zseq a n : 0 <= n -> zlen (zseq a n) = n.
Proof. intros. rewrite zseq_seq, zlen_map. unfold zlen. rewrite length_seq. lia. Qed.

Lemma zlen_sub {A} (l : list A) off n :
  0 <= off -> 0 <= n -> off + n <= zlen l -> zlen (sub l off n) = n.
Proof. intros. unfold zlen, sub in *. rewrite length_take, length_drop. lia. Qed.

Lemma zlen_drop {A} (l : list A) n : 0 <= n <= zlen l -> zlen (drop (Z.to_nat n) l) = zlen l - n.
Proof. intros. unfold zlen in *. rewrite length_drop. lia. Qed.

Lemma zlen_splice {A} (l : list A) off bs :
  0 <= off -> off + zlen bs <= zlen l -> zlen (splice l off bs) = zlen l.
Proof.
  intros. unfold zlen, splice in *.
  rewrite !length_app, length_take, length_drop. lia.
Qed.

Lemma zlen_zset {A} (l : list A) i v : 0 <= i < zlen l -> zlen (zset l i v) = zlen l.
Proof. intros. apply zlen_splice; unfold zlen in *; simpl; lia. Qed.

#[export] Hint Rewrite @zlen_app @zlen_cons @zlen_map @zlen_nil : exfat.
#[export] Hint Resolve zlen_nonneg : exfat.

Lemma znth_lookup l i x : 0 <= i -> l !! Z.to_nat i = Some x -> znth l i = x.
Proof.
  intros Hi Hl. unfold znth. destruct (Z.ltb_spec i 0); [lia |].
  by apply nth_lookup_Some.
Qed.

Lemma znth_nth l i : 0 <= i -> znth l i = nth (Z.to_nat i) l 0.
Proof. intros. unfold znth. destruct (Z.ltb_spec i 0); [lia | done]. Qed.

Lemma znth_app_l l k i : 0 <= i < zlen l -> znth (l ++ k) i = znth l i.
Proof. intros. rewrite !znth_nth by lia. apply app_nth1. unfold zlen in *. lia. Qed.

Lemma znth_app_r l k i : zlen l <= i -> znth (l ++ k) i = znth k (i - zlen l).
Proof.
  intros. pose proof (zlen_nonneg l). rewrite !znth_nth by lia.
  rewrite app_nth2 by (unfold zlen in *; lia). f_equal. unfold zlen. lia.
Qed.

Lemma znth_overflow l i : zlen l <= i -> znth l i = 0.
Proof.
  intros. pose proof (zlen_nonneg l). rewrite znth_nth by lia.
  apply nth_overflow. unfold zlen in *. lia.
Qed.

Lemma znth_take l n i : 0 <= i < n -> znth (take (Z.to_nat n) l) i = znth l i.
Proof.
  intros. rewrite !znth_nth by lia. rewrite !nth_lookup.
  by rewrite lookup_take_lt by lia.
Qed.

Lemma znth_drop l n i : 0 <= n -> 0 <= i -> znth (drop (Z.to_nat n) l) i = znth l (n + i).
Proof.
  intros. rewrite !znth_nth by lia. rewrite !nth_lookup.
  rewrite lookup_drop. by replace (Z.to_nat n + Z.to_nat i)%nat with (Z.to_nat (n + i)) by lia.
Qed.

Lemma znth_sub l off n i :
  0 <= off -> 0 <= i < n -> znth (sub l off n) i = znth l (off + i).
Proof. intros. unfold sub. rewrite znth_take by lia. by apply znth_drop; lia. Qed.

Lemma znth_splice l off bs i :
  0 <= off -> off + zlen bs <= zlen l ->
  znth (splice l off bs) i =
    if (off <=? i) && (i <? off + zlen bs) then znth bs (i - off) else znth l i.
Proof.
  intros Hoff Hlen. unfold splice.
  destruct (Z.ltb_spec i 0) as [Hneg | Hi].
  { unfold znth. destruct (Z.ltb_spec i 0); [| lia].
    destruct (Z.leb_spec off i); [lia | done]. }
  assert (Hp : zlen (take (Z.to_nat off) l) = off).
  { pose proof (zlen_nonneg bs). unfold zlen in *. rewrite length_take. lia. }
  destruct (Z.leb_spec off i) as [Hle | Hgt]; simpl.
  - rewrite znth_app_r by lia. rewrite Hp.
    destruct (Z.ltb_spec i (off + zlen bs)).
    + by rewrite znth_app_l by lia.
    + rewrite znth_app_r by lia.
      replace (Z.to_nat off + length bs)%nat with (Z.to_nat (off + zlen bs))
        by (unfold zlen; lia).
      pose proof (zlen_nonneg bs). rewrite znth_drop by lia. f_equal. lia.
  - rewrite znth_app_l by lia. apply znth_take. lia.
Qed.

Lemma znth_zset l i v j :
  0 <= i < zlen l -> znth (zset l i v) j = if decide (i = j) then v else znth l j.
Proof.
  intros. unfold zset. rewrite znth_splice by (autorewrite with exfat; lia).
  autorewrite with exfat.
  destruct (Z.leb_spec i j), (Z.ltb_spec j (i + (1 + 0))); simpl; case_decide; try lia; try done.
  subst. by rewrite Z.sub_diag.
Qed.

Lemma znth_ext (l k : list Z) :
  zlen l = zlen k -> (forall i, 0 <= i < zlen l -> znth l i = znth k i) -> l = k.
Proof.
  intros Hlen H. apply (nth_ext l k 0 0); [unfold zlen in *; lia |].
  intros n Hn. specialize (H (Z.of_nat n)). unfold zlen in *.
  rewrite !znth_nth, !Nat2Z.id in H by lia. apply H. lia.
Qed.

Lemma znth_zseq a n i : 0 <= i < n -> znth (zseq a n) i = a + i.
Proof.
  intros. rewrite znth_nth by lia. rewrite zseq_seq.
  rewrite nth_lookup, list_lookup_fmap, lookup_seq_lt by lia. simpl. lia.
Qed.

Lemma znth_zrepeat x n i : 0 <= i < n -> znth (zrepeat x n) i = x.
Proof.
  intros. rewrite znth_nth by lia. unfold zrepeat.
  rewrite nth_lookup, lookup_replicate_2 by lia. done.
Qed.

Lemma elem_of_zseq a n x : x ∈ zseq a n <-> a <= x < a + n.
Proof.
  rewrite zseq_seq, list_elem_of_fmap. split.
  - intros (k & -> & Hk). apply elem_of_seq in Hk. lia.
  - intros Hx. exists (Z.to_nat (x - a)). split; [lia |]. apply elem_of_seq. lia.
Qed.

Lemma zseq_app a n m : 0 <= n -> 0 <= m -> zseq a (n + m) = zseq a n ++ zseq (a + n) m.
Proof.
  intros. apply znth_ext.
  - rewrite zlen_app, !zlen_zseq by lia. lia.
  - intros i Hi. rewrite zlen_zseq in Hi by lia. rewrite znth_zseq by lia.
    destruct (Z.lt_ge_cases i n).
    + rewrite znth_app_l by (rewrite zlen_zseq; lia). by rewrite znth_zseq by lia.
    + rewrite znth_app_r by (rewrite zlen_zseq; lia). rewrite zlen_zseq by lia.
      rewrite znth_zseq by lia. lia.
Qed.

Lemma zseq_cons a n : 0 < n -> zseq a n = a :: zseq (a + 1) (n - 1).
Proof.
  intros. replace n with (1 + (n - 1)) at 1 by lia. rewrite zseq_app by lia.
  done.
Qed.

Lemma znth_elem (cs : list Z) i : 0 <= i < zlen cs -> znth cs i ∈ cs.
Proof.
  intros Hi. rewrite znth_nth by lia. apply list_elem_of_In, nth_In. unfold zlen in Hi. lia.
Qed.

Lemma znth_Forall (P : Z -> Prop) cs i : Forall P cs -> 0 <= i < zlen cs -> P (znth cs i).
Proof. intros HP Hi. rewrite Forall_forall in HP. apply HP. by apply znth_elem. Qed.

(** A decidable property of a bounded integer, checked by enumeration. *)
Lemma zseq_forallb (P : Z -> bool) a n :
  forallb P (zseq a n) = true -> forall x, a <= x < a + n -> P x = true.
Proof.
  rewrite forallb_forall. intros H x Hx. apply H, list_elem_of_In, elem_of_zseq. lia.
Qed.

(** Evaluate the length of explicit lists. *)
Ltac zlen_lit :=
  repeat match goal with
  | |- context [zlen ?l] =>
      let n := eval cbn in (length l) in is_ground n;
      let v := eval vm_compute in (Z.of_nat n) in
      progress change (zlen l) with v
  end.

(** Decide every comparison of the goal by a case split that [lia] prunes. *)
Ltac zcases :=
  repeat match goal with
  | |- context [?a <? ?b] => destruct (Z.ltb_spec a b); try lia
  | |- context [?a <=? ?b] => destruct (Z.leb_spec a b); try lia
  | |- context [?a =? ?b] => destruct (Z.eqb_spec a b); try lia
  end; cbn [andb orb negb].

(** Reduce the comparisons of the goal that [lia] decides, without splitting. *)
Ltac zdec :=
  repeat (match goal with
  | |- context [?a <? ?b] =>
      first [ replace (a <? b) with true by (symmetry; apply Z.ltb_lt; lia)
            | replace (a <? b) with false by (symmetry; apply Z.ltb_ge; lia) ]
  | |- context [?a <=? ?b] =>
      first [ replace (a <=? b) with true by (symmetry; apply Z.leb_le; lia)
            | replace (a <=? b) with false by (symmetry; apply Z.leb_gt; lia) ]
  | |- context [?a =? ?b] =>
      first [ replace (a =? b) with true by (symmetry; apply Z.eqb_eq; lia)
            | replace (a =? b) with false by (symmetry; apply Z.eqb_neq; lia)
            | is_ground a; is_ground b; let v := eval vm_compute in (a =? b) in
              change (a =? b) with v ]
  end; cbn [andb orb negb]).
