(* ===== verification/Bytes.v ===== *)
(** * Bytes: little-endian fields and byte-addressed media

    A byte is a [Z] in [0, 256); a buffer is a list of bytes.  The first part
    is the conversion between integers and little-endian byte strings
    (byteorder.h: [le16_t], [le32_t], [le64_t] hold the bytes of an on-disk
    field in their on-disk order on both byte orders, so reading a field is
    [le_val] of its bytes whatever the host).  The second part is the medium:
    a function from byte addresses to bytes, with reads and writes of ranges
    and the lemmas that relate them. *)

From Stdlib Require Import ZArith Lia Setoid Morphisms.
From stdpp Require Import base numbers list.
From S2P Require Import Prelude.

#[local] Open Scope Z_scope.

Definition is_byte (b : Z) : Prop := 0 <= b < 256.

#[global] Instance is_byte_dec b : Decision (is_byte b).
Proof. unfold is_byte. apply _. Defined.

Definition bytes_ok (l : list Z) : Prop := Forall is_byte l.

Lemma bytes_ok_app l k : bytes_ok (l ++ k) <-> bytes_ok l /\ bytes_ok k.
Proof. apply Forall_app. Qed.

(** ** Little-endian integers *)

Fixpoint le_val (bs : list Z) : Z :=
  match bs with
  | [] => 0
  | b :: bs => u8 b + 256 * le_val bs
  end.

Fixpoint le_bytes (n : nat) (v : Z) : list Z :=
  match n with
  | O => []
  | S n => v mod 256 :: le_bytes n (v / 256)
  end.

Lemma length_le_bytes n v : length (le_bytes n v) = n.
Proof. revert v. induction n; intros; simpl; auto. Qed.

Lemma zlen_le_bytes n v : zlen (le_bytes n v) = Z.of_nat n.
Proof. unfold zlen. by rewrite length_le_bytes. Qed.

Lemma le_bytes_ok n v : bytes_ok (le_bytes n v).
Proof.
  revert v. induction n as [| n IH]; intros v; simpl; constructor; [| apply IH].
  unfold is_byte. apply Z.mod_pos_bound. lia.
Qed.

(** The bytes of a medium are 8 bits wide whatever the numbers that stand for them. *)
Lemma le_val_range bs : 0 <= le_val bs < 256 ^ zlen bs.
Proof.
  induction bs as [| b bs IH]; [done |].
  rewrite zlen_cons. pose proof (zlen_nonneg bs). pose proof (u8_range b).
  unfold in_u in *. change (2 ^ 8) with 256 in *. rewrite Z.pow_add_r by lia. cbn [le_val]. lia.
Qed.

Lemma le_val_le_bytes n v : le_val (le_bytes n v) = v mod 256 ^ Z.of_nat n.
Proof.
  revert v. induction n as [| n IH]; intros v; [by rewrite Z.mod_1_r |].
  simpl le_bytes. simpl le_val. rewrite u8_small, IH by (apply Z.mod_pos_bound; lia).
  rewrite Nat2Z.inj_succ, Z.pow_succ_r by lia.
  pose proof (Z.pow_pos_nonneg 256 (Z.of_nat n) ltac:(lia) ltac:(lia)).
  rewrite Z.rem_mul_r by lia. lia.
Qed.

Lemma le_bytes_le_val bs : bytes_ok bs -> le_bytes (length bs) (le_val bs) = bs.
Proof.
  induction 1 as [| b bs Hb _ IH]; [done |]. simpl.
  unfold is_byte in Hb. rewrite (Z.mul_comm 256).
  rewrite u8_small by done.
  rewrite Z.mod_add, Z.div_add, Z.mod_small, Z.div_small by lia.
  by rewrite Z.add_0_l, IH.
Qed.

Lemma le_bytes_mod n v : le_bytes n (v mod 256 ^ Z.of_nat n) = le_bytes n v.
Proof.
  pose proof (le_bytes_le_val (le_bytes n v) (le_bytes_ok n v)) as H.
  by rewrite length_le_bytes, le_val_le_bytes in H.
Qed.

(** Fields of a structure that overlays a buffer. *)
Definition le16_at (bs : list Z) (off : Z) : Z := le_val (sub bs off 2).
Definition le32_at (bs : list Z) (off : Z) : Z := le_val (sub bs off 4).
Definition le64_at (bs : list Z) (off : Z) : Z := le_val (sub bs off 8).

(** An array of [n] little-endian 16-bit units, and back. *)
Fixpoint le16_array (bs : list Z) : list Z :=
  match bs with
  | a :: b :: bs => a + 256 * b :: le16_array bs
  | _ => []
  end.

Definition le16_bytes (us : list Z) : list Z := us ≫= le_bytes 2.

Lemma zlen_le16_bytes us : zlen (le16_bytes us) = 2 * zlen us.
Proof.
  induction us as [| u us IH]; [done |].
  unfold le16_bytes in *. rewrite bind_cons, zlen_app, IH, zlen_cons.
  rewrite zlen_le_bytes. lia.
Qed.

Lemma le16_bytes_ok us : bytes_ok (le16_bytes us).
Proof.
  induction us as [| u us IH]; [constructor |].
  unfold le16_bytes in *. rewrite bind_cons. apply Forall_app. split; [| done].
  apply le_bytes_ok.
Qed.

Lemma le16_array_bytes us : Forall (in_u 16) us -> le16_array (le16_bytes us) = us.
Proof.
  induction 1 as [| u us Hu _ IH]; [done |].
  assert (Hc : le16_bytes (u :: us) = le_bytes 2 u ++ le16_bytes us)
    by (unfold le16_bytes; by rewrite bind_cons).
  rewrite Hc. cbn [le_bytes app le16_array]. rewrite IH. f_equal. unfold in_u in Hu. rewrite (Z.mod_small (u / 256)); [| to_equations; lia].
  to_equations. lia.
Qed.

Lemma le16_bytes_array bs :
  bytes_ok bs -> Z.even (zlen bs) = true -> le16_bytes (le16_array bs) = bs.
Proof.
  remember (length bs) as n eqn:Hn. revert bs Hn.
  induction n as [n IH] using lt_wf_ind. intros bs -> Hok Heven.
  destruct bs as [| a [| b bs]]; [done | done |].
  inversion Hok as [| ? ? Ha Hok']; subst. inversion Hok' as [| ? ? Hb Hok'']; subst.
  cbn [le16_array]. unfold le16_bytes in *. rewrite bind_cons. cbn [le_bytes app].
  unfold is_byte in *. rewrite (Z.mul_comm 256).
  rewrite Z.mod_add, Z.div_add, (Z.mod_small a), (Z.div_small a), Z.add_0_l by lia.
  rewrite Z.mod_small by lia. do 2 f_equal.
  apply (IH (length bs)); [simpl; lia | done | done |].
  rewrite !zlen_cons in Heven. rewrite <- Heven.
  replace (1 + (1 + zlen bs)) with (zlen bs + 2 * 1) by lia.
  by rewrite Z.even_add_mul_2.
Qed.

(** ** Sub-lists that cover a buffer *)

Lemma sub_app {A} (l : list A) off n m :
  0 <= off -> 0 <= n -> 0 <= m -> sub l off n ++ sub l (off + n) m = sub l off (n + m).
Proof.
  intros. unfold sub.
  replace (Z.to_nat (off + n)) with (Z.to_nat off + Z.to_nat n)%nat by lia.
  rewrite <- drop_drop. replace (Z.to_nat (n + m)) with (Z.to_nat n + Z.to_nat m)%nat by lia.
  generalize (drop (Z.to_nat off) l) as k. intros k.
  rewrite <- (take_drop (Z.to_nat n) k) at 3.
  destruct (Nat.le_ge_cases (Z.to_nat n) (length k)).
  - rewrite take_app, length_take, Nat.min_l by done.
    rewrite (take_ge (take _ k)) by (rewrite length_take; lia).
    do 2 f_equal. lia.
  - rewrite (drop_ge k) by done. rewrite app_nil_r.
    rewrite (take_ge k), take_nil, app_nil_r by done.
    by rewrite take_ge by lia.
Qed.

Lemma sub_0_app {A} (l : list A) n : sub l 0 n ++ drop (Z.to_nat n) l = l.
Proof. unfold sub. rewrite drop_0. apply take_drop. Qed.

Lemma sub_all {A} (l : list A) : sub l 0 (zlen l) = l.
Proof. unfold sub, zlen. rewrite Nat2Z.id. simpl. apply firstn_all. Qed.

Lemma sub_app_l {A} (l k : list A) off n :
  0 <= off -> 0 <= n -> off + n <= zlen l -> sub (l ++ k) off n = sub l off n.
Proof.
  intros. unfold sub, zlen in *. rewrite drop_app_le by lia.
  rewrite take_app_le by (rewrite length_drop; lia). done.
Qed.

Lemma sub_app_r {A} (l k : list A) off n :
  zlen l <= off -> sub (l ++ k) off n = sub k (off - zlen l) n.
Proof.
  intros. unfold sub, zlen in *. rewrite drop_app_ge by lia. do 2 f_equal. lia.
Qed.

Lemma sub_bytes_ok l off n : bytes_ok l -> bytes_ok (sub l off n).
Proof. intros H. unfold sub. by apply Forall_take, Forall_drop. Qed.

#[export] Hint Resolve le_bytes_ok le16_bytes_ok sub_bytes_ok : exfat.

(** ** Media *)

(** A medium maps a byte address to the byte stored there. *)
Definition mem : Type := Z -> Z.

(** [mread m off n]: the [n] bytes from address [off]. *)
Definition mread (m : mem) (off n : Z) : list Z := map m (zseq off n).

(** [mwrite m off bs]: [m] after the bytes [bs] are stored from [off]. *)
Definition mwrite (m : mem) (off : Z) (bs : list Z) : mem :=
  fun a => if (off <=? a) && (a <? off + zlen bs) then znth bs (a - off) else m a.

(** Two media are equal when they hold the same bytes. *)
#[global] Instance mem_equiv : Equiv mem := fun m1 m2 => forall a, m1 a = m2 a.

#[global] Instance mem_equivalence : Equivalence (≡@{mem}).
Proof.
  split; unfold equiv, mem_equiv.
  - done.
  - intros m1 m2 H a. by rewrite H.
  - intros m1 m2 m3 H1 H2 a. by rewrite H1.
Qed.

#[global] Instance mread_proper : Proper ((≡) ==> (=) ==> (=) ==> (=)) mread.
Proof.
  intros m1 m2 Hm off ? <- n ? <-. unfold mread. apply map_ext. apply Hm.
Qed.

#[global] Instance mwrite_proper : Proper ((≡) ==> (=) ==> (=) ==> (≡)) mwrite.
Proof.
  intros m1 m2 Hm off ? <- bs ? <- a. unfold mwrite. by rewrite (Hm a).
Qed.

Lemma zlen_mread m off n : 0 <= n -> zlen (mread m off n) = n.
Proof. intros. unfold mread. by rewrite zlen_map, zlen_zseq. Qed.

Lemma znth_mread m off n i : 0 <= i < n -> znth (mread m off n) i = m (off + i).
Proof.
  intros. unfold mread. rewrite znth_nth by lia.
  rewrite nth_lookup, list_lookup_fmap, zseq_seq.
  rewrite list_lookup_fmap, lookup_seq_lt by lia. simpl. f_equal. lia.
Qed.

Lemma mread_app m off a b :
  0 <= a -> 0 <= b -> mread m off (a + b) = mread m off a ++ mread m (off + a) b.
Proof. intros. unfold mread. by rewrite zseq_app, map_app by done. Qed.

Lemma mread_nil m off n : n <= 0 -> mread m off n = [].
Proof. intros. unfold mread, zseq. by replace (Z.to_nat n) with 0%nat by lia. Qed.

Lemma mread_sub m off n a k :
  0 <= a -> 0 <= k -> a + k <= n -> sub (mread m off n) a k = mread m (off + a) k.
Proof.
  intros. apply znth_ext.
  - rewrite zlen_sub, zlen_mread; rewrite ?zlen_mread; lia.
  - intros i Hi. rewrite zlen_sub in Hi by (rewrite ?zlen_mread; lia).
    rewrite znth_sub, !znth_mread by lia. f_equal. lia.
Qed.

Lemma mread_ext m1 m2 off n :
  (forall a, off <= a < off + n -> m1 a = m2 a) -> mread m1 off n = mread m2 off n.
Proof.
  intros H. unfold mread. apply map_ext_in. intros a Ha.
  apply list_elem_of_In, elem_of_zseq in Ha. auto.
Qed.

Lemma mwrite_out m off bs a : a < off \/ off + zlen bs <= a -> mwrite m off bs a = m a.
Proof.
  intros. unfold mwrite.
  destruct (Z.leb_spec off a), (Z.ltb_spec a (off + zlen bs)); simpl; lia || done.
Qed.

Lemma mwrite_in m off bs a :
  off <= a < off + zlen bs -> mwrite m off bs a = znth bs (a - off).
Proof.
  intros. unfold mwrite.
  destruct (Z.leb_spec off a), (Z.ltb_spec a (off + zlen bs)); simpl; lia || done.
Qed.

(** Reading back what was written. *)
Lemma mread_mwrite_same m off bs : mread (mwrite m off bs) off (zlen bs) = bs.
Proof.
  pose proof (zlen_nonneg bs). apply znth_ext; [by rewrite zlen_mread by lia |].
  intros i Hi. rewrite zlen_mread in Hi by lia. rewrite znth_mread by lia.
  rewrite mwrite_in by lia. f_equal. lia.
Qed.

(** A write elsewhere does not change what is read. *)
Lemma mread_mwrite_disj m off bs o n :
  o + n <= off \/ off + zlen bs <= o -> mread (mwrite m off bs) o n = mread m o n.
Proof. intros. apply mread_ext. intros a Ha. apply mwrite_out. lia. Qed.

(** A write inside the range that is read. *)
Lemma mread_mwrite_inside m off bs o n :
  0 <= n -> o <= off -> off + zlen bs <= o + n ->
  mread (mwrite m off bs) o n = splice (mread m o n) (off - o) bs.
Proof.
  intros. pose proof (zlen_nonneg bs).
  assert (off - o + zlen bs <= zlen (mread m o n)) by (rewrite zlen_mread; lia).
  apply znth_ext; [rewrite zlen_splice, !zlen_mread; lia |].
  intros i Hi. rewrite zlen_mread in Hi by lia.
  rewrite znth_splice, !znth_mread by lia. unfold mwrite.
  replace (o + i - off) with (i - (off - o)) by lia.
  destruct (Z.leb_spec (off - o) i), (Z.leb_spec off (o + i)),
    (Z.ltb_spec i (off - o + zlen bs)), (Z.ltb_spec (o + i) (off + zlen bs));
    simpl; lia || done.
Qed.

Lemma mwrite_nil m off : mwrite m off [] ≡ m.
Proof. intros a. apply mwrite_out. autorewrite with exfat. lia. Qed.

(** Two writes that follow each other are one. *)
Lemma mwrite_app m off bs1 bs2 :
  mwrite (mwrite m off bs1) (off + zlen bs1) bs2 ≡ mwrite m off (bs1 ++ bs2).
Proof.
  intros a. unfold mwrite. rewrite zlen_app.
  pose proof (zlen_nonneg bs1). pose proof (zlen_nonneg bs2).
  destruct (Z.leb_spec (off + zlen bs1) a), (Z.ltb_spec a (off + zlen bs1 + zlen bs2)),
    (Z.leb_spec off a), (Z.ltb_spec a (off + zlen bs1)),
    (Z.ltb_spec a (off + (zlen bs1 + zlen bs2))); simpl; try lia; try done.
  - rewrite znth_app_r by lia. f_equal. lia.
  - by rewrite znth_app_l by lia.
Qed.

(** ** Overlay of a structure on a buffer: tactics

    [overlay_get] reads a field out of the concatenation of the fields of a
    structure; [overlay_put] folds consecutive sub-lists back together. *)

Lemma sub_skip {A} (a b : list A) off n k :
  zlen a = k -> k <= off -> sub (a ++ b) off n = sub b (off - k) n.
Proof. intros <- H. by apply sub_app_r. Qed.

Lemma sub_here {A} (a b : list A) n : zlen a = n -> sub (a ++ b) 0 n = a.
Proof.
  intros <-. rewrite sub_app_l by (pose proof (zlen_nonneg a); lia). apply sub_all.
Qed.

Lemma sub_last {A} (a : list A) n : zlen a = n -> sub a 0 n = a.
Proof. intros <-. apply sub_all. Qed.

Lemma sub_join {A} (l : list A) off off' n m :
  0 <= off -> 0 <= n -> 0 <= m -> off' = off + n ->
  sub l off n ++ sub l off' m = sub l off (n + m).
Proof. intros ? ? ? ->. by apply sub_app. Qed.

Lemma le_val_field n v : in_u (8 * Z.of_nat n) v -> le_val (le_bytes n v) = v.
Proof.
  intros H. rewrite le_val_le_bytes. apply Z.mod_small. unfold in_u in H.
  by rewrite Z.pow_mul_r in H by lia.
Qed.

Lemma le_bytes_field bs n :
  bytes_ok bs -> zlen bs = Z.of_nat n -> le_bytes n (le_val bs) = bs.
Proof.
  intros Hok Hn. unfold zlen in Hn. apply Nat2Z.inj in Hn. subst n.
  by apply le_bytes_le_val.
Qed.

Lemma le_val_sub_range bs off n :
  0 <= off -> 0 <= n -> off + n <= zlen bs ->
  in_u (8 * n) (le_val (sub bs off n)).
Proof.
  intros ? ? ?. unfold in_u. rewrite Z.pow_mul_r by lia. change (2 ^ 8) with 256.
  pose proof (le_val_range (sub bs off n)) as Hr.
  by rewrite zlen_sub in Hr by lia.
Qed.

Lemma le16_array_range bs : bytes_ok bs -> Forall (in_u 16) (le16_array bs).
Proof.
  remember (length bs) as n eqn:Hn. revert bs Hn.
  induction n as [n IH] using lt_wf_ind. intros bs -> Hok.
  destruct bs as [| a [| b bs]]; [constructor | constructor |].
  inversion Hok as [| ? ? Ha Hok']; subst. inversion Hok' as [| ? ? Hb Hok'']; subst.
  cbn [le16_array]. constructor.
  - unfold is_byte, in_u in *. lia.
  - apply (IH (length bs)); [simpl; lia | done | done].
Qed.

Lemma zlen_le16_array bs k : zlen bs = 2 * k -> zlen (le16_array bs) = k.
Proof.
  remember (length bs) as n eqn:Hn. revert bs k Hn.
  induction n as [n IH] using lt_wf_ind. intros bs k -> Hk.
  destruct bs as [| a [| b bs]]; cbn [le16_array]; autorewrite with exfat in *; [lia | lia |].
  rewrite (IH (length bs) ltac:(simpl; lia) bs (k - 1) eq_refl) by lia. lia.
Qed.

#[global] Arguments le_bytes : simpl never.
#[global] Arguments le_val : simpl never.
#[global] Arguments le16_bytes : simpl never.
#[global] Arguments le16_array : simpl never.
#[global] Arguments sub : simpl never.
#[global] Arguments splice : simpl never.
#[global] Arguments mread : simpl never.
#[global] Arguments mwrite : simpl never.
#[global] Arguments zlen : simpl never.
#[global] Arguments znth : simpl never.

(** The length of a field: of a fixed-width integer, of an array of units, or
    known from a hypothesis. *)
Ltac field_len :=
  lazymatch goal with
  | |- zlen (le_bytes ?n _) = _ => rewrite zlen_le_bytes; reflexivity
  | |- zlen (le16_bytes _) = _ =>
      rewrite zlen_le16_bytes;
      match goal with H : zlen _ = _ |- _ => rewrite H; reflexivity end
  | _ => eassumption
  end.

(** Evaluate the constant offset of a sub-list. *)
Ltac norm_off :=
  match goal with
  | |- context [sub _ ?z _] => let v := eval vm_compute in z in progress change z with v
  end.

Ltac overlay_get :=
  repeat (erewrite sub_skip; [| field_len | lia]; norm_off);
  first [ erewrite sub_here by field_len | erewrite sub_last by field_len ];
  first [ done
        | apply le_val_field; assumption
        | apply le16_array_bytes; assumption ].

Ltac overlay_put :=
  repeat rewrite le_bytes_field by
    (first [ apply sub_bytes_ok; assumption | rewrite zlen_sub; lia ]);
  repeat rewrite le16_bytes_array by
    (first [ apply sub_bytes_ok; assumption | rewrite zlen_sub by lia; reflexivity ]);
  repeat rewrite sub_join by lia;
  match goal with
  | H : zlen ?bs = _ |- sub ?bs 0 ?n = ?bs => replace n with (zlen bs) by lia
  end;
  apply sub_all.

(** [fields_ok]: every field of an overlaid buffer is a value of its type. *)
Ltac fields_ok :=
  repeat match goal with |- _ /\ _ => split end;
  first [ apply le_val_sub_range; (assumption || lia)
        | rewrite zlen_sub; lia
        | apply sub_bytes_ok; assumption
        | apply zlen_le16_array; rewrite zlen_sub; lia
        | apply le16_array_range, sub_bytes_ok; assumption ].

(** ** The platform

    What differs between the builds: the size of [bitmap_t] in bytes (byteorder.h), and
    the size of [time_t] in bits, which is 32 with the toolchain of the Amiga. *)
Class Platform := {
  bitmap_t : Z;
  time_t_bits : Z;
  bitmap_t_pos : 0 < bitmap_t;
  time_t_width : time_t_bits = 32 \/ time_t_bits = 64
}.

(** A 64-bit little-endian host, and the Amiga, which is big-endian. *)
Definition word_le64 : Platform :=
  {| bitmap_t := 8; time_t_bits := 64; bitmap_t_pos := ltac:(lia); time_t_width := ltac:(lia) |}.
Definition word_be : Platform :=
  {| bitmap_t := 1; time_t_bits := 32; bitmap_t_pos := ltac:(lia); time_t_width := ltac:(lia) |}.

Section Time.
Context `{Platform}.

(** A conversion to [time_t], and the values of that type. *)
Definition time_t (x : Z) : Z := to_signed time_t_bits x.
Definition in_time_t (x : Z) : Prop := - 2 ^ (time_t_bits - 1) <= x < 2 ^ (time_t_bits - 1).

Lemma time_t_small x : in_time_t x -> time_t x = x.
Proof. unfold in_time_t, time_t. intros Hx. destruct time_t_width as [E | E]; rewrite E in *; unfold to_signed, in_u in *; int_lia. Qed.

Lemma time_t_range x : in_time_t (time_t x).
Proof. unfold in_time_t, time_t. destruct time_t_width as [E | E]; rewrite E; unfold to_signed; int_lia. Qed.

Lemma time_t_add x y : time_t (time_t x + y) = time_t (x + y).
Proof. unfold time_t. destruct time_t_width as [E | E]; rewrite E; unfold to_signed; int_lia. Qed.

Lemma time_t_sub x y : time_t (time_t x - y) = time_t (x - y).
Proof. rewrite <- !Z.add_opp_r. apply time_t_add. Qed.
End Time.
