(* ===== verification/Monad.v ===== *)
(** * Monad: stateful code that can halt

    A C function that reads and changes state is a function from the state to
    an [outcome]: it returns, it halts the process, or it needs more turns of
    a loop than it was given.  [wp] is the total-correctness reading of such a
    function: it returns, and what it returns satisfies the postcondition. *)

From Stdlib Require Import ZArith Lia.
From stdpp Require Import base numbers list gmap.
From S2P Require Import Prelude.

#[local] Open Scope Z_scope.

(** Why a process stops: a call of [exfat_bug], the use of a null or dangling
    node pointer, or a store past the end of an array: what C leaves undefined is
    never given a result. *)
Inductive halt_reason := ExfatBug | BadPointer | OutOfBounds.

Inductive outcome (S A : Type) :=
| Ok (a : A) (s : S)
| Halt (r : halt_reason) (s : S)
| Diverge.
Arguments Ok {S A}.
Arguments Halt {S A}.
Arguments Diverge {S A}.

Definition M (S A : Type) : Type := S -> outcome S A.

Section Operations.
Context {S : Type}.

Definition ret {A} (a : A) : M S A := fun s => Ok a s.

Definition bind {A B} (m : M S A) (f : A -> M S B) : M S B := fun s =>
  match m s with
  | Ok a s => f a s
  | Halt r s => Halt r s
  | Diverge => Diverge
  end.

(** [exfat_bug] does not return. *)
Definition exfat_bug {A} : M S A := fun s => Halt ExfatBug s.
Definition bad_pointer {A} : M S A := fun s => Halt BadPointer s.
Definition diverge {A} : M S A := fun _ => Diverge.

Definition get_state : M S S := fun s => Ok s s.
Definition gets {A} (f : S -> A) : M S A := fun s => Ok (f s) s.
Definition modify (f : S -> S) : M S unit := fun s => Ok tt (f s).
End Operations.

Declare Scope monad_scope.
Delimit Scope monad_scope with monad.
Notation "'let!' x := m 'in' k" := (bind m (fun x => k))
  (at level 10, x pattern, m at level 100, k at level 200) : monad_scope.
Notation "m ';;' k" := (bind m (fun _ => k))
  (at level 100, k at level 200, right associativity) : monad_scope.
#[global] Open Scope monad_scope.

(** [when b m]: [if (b) m;]. *)
Definition when {S} (b : bool) (m : M S unit) : M S unit := if b then m else ret tt.

(** [m ;;= k]: go on only when [m] returned 0, else return its code. *)
Definition and_then {S} (m : M S Z) (k : M S Z) : M S Z :=
  let! rc := m in if negb (rc =? 0) then ret rc else k.

Lemma bind_inv {S A B} (m : M S A) (f : A -> M S B) s b s2 : bind m f s = Ok b s2 ->
  exists a s1, m s = Ok a s1 /\ f a s1 = Ok b s2.
Proof. unfold bind. destruct (m s) as [a s1 | |]; [eauto | done..]. Qed.

(** ** A part of a state *)

(** A function on a part [T] of the state runs on the whole state [S]. *)
Class Part (S T : Type) := {
  part : S -> T;
  set_part : T -> S -> S;
  part_set t s : part (set_part t s) = t;
  set_part_part s : set_part (part s) s = s;
  set_part_set t t' s : set_part t (set_part t' s) = set_part t s
}.

Definition on_part {S T A} `{Part S T} (m : M T A) : M S A := fun s =>
  match m (part s) with
  | Ok a t => Ok a (set_part t s)
  | Halt r t => Halt r (set_part t s)
  | Diverge => Diverge
  end.

(** ** Weakest preconditions *)

Definition wp {S A} (m : M S A) (Q : A -> S -> Prop) (s : S) : Prop :=
  match m s with
  | Ok a s => Q a s
  | _ => False
  end.

Section Wp.
Context {S : Type}.
Implicit Types s : S.

Lemma wp_ret {A} (a : A) (Q : A -> S -> Prop) s : Q a s -> wp (ret a) Q s.
Proof. done. Qed.

Lemma wp_bind {A B} (m : M S A) (f : A -> M S B) Q s :
  wp m (fun a => wp (f a) Q) s -> wp (bind m f) Q s.
Proof. unfold wp, bind. by destruct (m s). Qed.

Lemma wp_gets {A} (f : S -> A) (Q : A -> S -> Prop) s : Q (f s) s -> wp (gets f) Q s.
Proof. done. Qed.

Lemma wp_get (Q : S -> S -> Prop) s : Q s s -> wp get_state Q s.
Proof. done. Qed.

Lemma wp_modify (f : S -> S) (Q : unit -> S -> Prop) s : Q tt (f s) -> wp (modify f) Q s.
Proof. done. Qed.

Lemma wp_mono {A} (m : M S A) (Q Q' : A -> S -> Prop) s :
  wp m Q s -> (forall a s', Q a s' -> Q' a s') -> wp m Q' s.
Proof. unfold wp. destruct (m s); auto. Qed.

Lemma wp_ok {A} (m : M S A) Q s : wp m Q s <-> exists a s', m s = Ok a s' /\ Q a s'.
Proof.
  unfold wp. destruct (m s) as [a s' | |]; split; try done.
  - eauto.
  - by intros (? & ? & [= -> ->] & ?).
  - by intros (? & ? & ? & ?).
  - by intros (? & ? & ? & ?).
Qed.

Lemma wp_conj {A} (m : M S A) (Q Q' : A -> S -> Prop) s :
  wp m Q s -> wp m Q' s -> wp m (fun a s' => Q a s' /\ Q' a s') s.
Proof. unfold wp. destruct (m s); auto. Qed.

Lemma wp_eq {A} (m : M S A) Q s a s' : m s = Ok a s' -> wp m Q s <-> Q a s'.
Proof. unfold wp. by intros ->. Qed.
End Wp.

Lemma bind_ok {S A B} (m : M S A) (f : A -> M S B) s a s' :
  m s = Ok a s' -> bind m f s = f a s'.
Proof. unfold bind. by intros ->. Qed.

Lemma wp_on_part {S T A} `{Part S T} (m : M T A) (Q : A -> S -> Prop) s :
  wp m (fun a t => Q a (set_part t s)) (part s) -> wp (on_part m) Q s.
Proof. unfold wp, on_part. by destruct (m (part s)). Qed.

(** One step of a proof about straight-line code. *)
Ltac wp_step :=
  lazymatch goal with
  | |- wp (bind _ _) _ _ => apply wp_bind
  | |- wp (ret _) _ _ => apply wp_ret
  | |- wp get_state _ _ => apply wp_get
  | |- wp (gets _) _ _ => apply wp_gets
  | |- wp (modify _) _ _ => apply wp_modify
  | |- wp (when _ _) _ _ => unfold when
  | |- wp (and_then _ _) _ _ => unfold and_then
  | |- wp (on_part _) _ _ => apply wp_on_part
  end.

(** Chain a proved triple [H : wp m Q s]. *)
Ltac wp_apply H := eapply wp_mono; [eapply H |].

(** ** Termination

    [wpt m Q s]: from [s], [m] ends: it returns with [Q], or it stops the process with
    [exfat_bug].  It uses no null or dangling pointer and stores nothing past the end
    of an array.  It is the reading of code that must be safe on any medium. *)

Definition wpt {S A} (m : M S A) (Q : A -> S -> Prop) (s : S) : Prop :=
  match m s with
  | Ok a s => Q a s
  | Halt ExfatBug _ => True
  | _ => False
  end.

Definition terminates {S A} (m : M S A) (s : S) : Prop := wpt m (fun _ _ => True) s.

Section Wpt.
Context {S : Type}.
Implicit Types s : S.

Lemma wpt_ret {A} (a : A) (Q : A -> S -> Prop) s : Q a s -> wpt (ret a) Q s.
Proof. done. Qed.

Lemma wpt_bind {A B} (m : M S A) (f : A -> M S B) Q s :
  wpt m (fun a => wpt (f a) Q) s -> wpt (bind m f) Q s.
Proof. unfold wpt, bind. by destruct (m s) as [| [] |]. Qed.

Lemma wpt_get (Q : S -> S -> Prop) s : Q s s -> wpt get_state Q s.
Proof. done. Qed.

Lemma wpt_gets {A} (f : S -> A) (Q : A -> S -> Prop) s : Q (f s) s -> wpt (gets f) Q s.
Proof. done. Qed.

Lemma wpt_modify (f : S -> S) (Q : unit -> S -> Prop) s : Q tt (f s) -> wpt (modify f) Q s.
Proof. done. Qed.

Lemma wpt_halt {A} (Q : A -> S -> Prop) s : wpt exfat_bug Q s.
Proof. done. Qed.

Lemma wpt_mono {A} (m : M S A) (Q Q' : A -> S -> Prop) s :
  wpt m Q s -> (forall a s', Q a s' -> Q' a s') -> wpt m Q' s.
Proof. unfold wpt. destruct (m s) as [| [] |]; auto. Qed.

Lemma wpt_if {A} (b : bool) (m k : M S A) Q s :
  (b = true -> wpt m Q s) -> (b = false -> wpt k Q s) -> wpt (if b then m else k) Q s.
Proof. destruct b; auto. Qed.

Lemma wpt_when (b : bool) (m : M S unit) Q s :
  (b = true -> wpt m Q s) -> (b = false -> Q tt s) -> wpt (when b m) Q s.
Proof. intros Ht Hf. destruct b; [by apply Ht | by apply wpt_ret, Hf]. Qed.

Lemma wpt_and_then (m k : M S Z) Q s :
  wpt m (fun rc s' => if negb (rc =? 0) then Q rc s' else wpt k Q s') s -> wpt (and_then m k) Q s.
Proof.
  intros Hm. apply wpt_bind. eapply wpt_mono; [exact Hm |]. intros rc s'. cbn beta.
  destruct (negb (rc =? 0)); intros Hq; exact Hq.
Qed.

Lemma wpt_terminates {A} (m : M S A) Q s : wpt m Q s -> m s <> Diverge.
Proof. unfold wpt. by destruct (m s) as [| [] |]. Qed.
End Wpt.

Lemma wpt_on_part {S T A} `{Part S T} (m : M T A) (Q : A -> S -> Prop) s :
  wpt m (fun a t => Q a (set_part t s)) (part s) -> wpt (on_part m) Q s.
Proof. unfold wpt, on_part. by destruct (m (part s)) as [| [] |]. Qed.

(** One step of a proof that straight-line code ends. *)
Ltac wpt_step :=
  lazymatch goal with
  | |- wpt (bind _ _) _ _ => apply wpt_bind
  | |- wpt (ret _) _ _ => apply wpt_ret
  | |- wpt get_state _ _ => apply wpt_get
  | |- wpt (gets _) _ _ => apply wpt_gets
  | |- wpt (modify _) _ _ => apply wpt_modify
  | |- wpt exfat_bug _ _ => apply wpt_halt
  | |- wpt (when _ _) _ _ => apply wpt_when; intros ?
  | |- wpt (and_then _ _) _ _ => apply wpt_and_then
  | |- wpt (if _ then _ else _) _ _ => apply wpt_if; intros ?
  end.

(** [wps m Q s]: as [wpt], but [m] may also be stopped by a store past the end of an
    array.  It is the reading of code that uses no null or dangling pointer. *)
Definition wps {S A} (m : M S A) (Q : A -> S -> Prop) (s : S) : Prop :=
  match m s with
  | Ok a s => Q a s
  | Halt BadPointer _ => False
  | Halt _ _ => True
  | Diverge => False
  end.

Section Wps.
Context {S : Type}.
Implicit Types s : S.

Lemma wps_wpt {A} (m : M S A) Q s : wpt m Q s -> wps m Q s.
Proof. unfold wps, wpt. by destruct (m s) as [| [] |]. Qed.

Lemma wps_ret {A} (a : A) (Q : A -> S -> Prop) s : Q a s -> wps (ret a) Q s.
Proof. done. Qed.

Lemma wps_get (Q : S -> S -> Prop) s : Q s s -> wps get_state Q s.
Proof. done. Qed.

Lemma wps_bind {A B} (m : M S A) (f : A -> M S B) Q s :
  wps m (fun a => wps (f a) Q) s -> wps (bind m f) Q s.
Proof. unfold wps, bind. by destruct (m s) as [| [] |]. Qed.

Lemma wps_mono {A} (m : M S A) (Q Q' : A -> S -> Prop) s :
  wps m Q s -> (forall a s', Q a s' -> Q' a s') -> wps m Q' s.
Proof. unfold wps. destruct (m s) as [| [] |]; auto. Qed.

Lemma wps_step {A B} (m : M S A) (f : A -> M S B) Q R s :
  wps m Q s -> (forall a s', Q a s' -> wps (f a) R s') -> wps (bind m f) R s.
Proof. intros Hm Hf. apply wps_bind. eapply wps_mono; [exact Hm | exact Hf]. Qed.

Lemma wps_if {A} (b : bool) (m k : M S A) Q s :
  (b = true -> wps m Q s) -> (b = false -> wps k Q s) -> wps (if b then m else k) Q s.
Proof. destruct b; auto. Qed.

Lemma wps_and_then (m k : M S Z) Q s :
  wps m (fun rc s' => if negb (rc =? 0) then Q rc s' else wps k Q s') s -> wps (and_then m k) Q s.
Proof.
  intros Hm. apply wps_bind. eapply wps_mono; [exact Hm |]. intros rc s'. cbn beta.
  destruct (negb (rc =? 0)); intros Hq; exact Hq.
Qed.

Lemma wps_gets {A} (f : S -> A) (Q : A -> S -> Prop) s : Q (f s) s -> wps (gets f) Q s.
Proof. done. Qed.

Lemma wps_modify (f : S -> S) (Q : unit -> S -> Prop) s : Q tt (f s) -> wps (modify f) Q s.
Proof. done. Qed.
End Wps.

Lemma wps_on_part {S T A} `{Part S T} (m : M T A) (Q : A -> S -> Prop) s :
  wps m (fun a t => Q a (set_part t s)) (part s) -> wps (on_part m) Q s.
Proof. unfold wps, on_part. destruct (m (part s)) as [| [] |]; done. Qed.

(** Two postconditions, and a postcondition with a fact about the results. *)
Section Both.
Context {S A : Type} (m : M S A) (Q R : A -> S -> Prop) (s : S).

Lemma wpt_conj : wpt m Q s -> wpt m R s -> wpt m (fun a s' => Q a s' /\ R a s') s.
Proof. unfold wpt. by destruct (m s) as [| [] |]. Qed.

Lemma wps_conj : wps m Q s -> wps m R s -> wps m (fun a s' => Q a s' /\ R a s') s.
Proof. unfold wps. by destruct (m s) as [| [] |]. Qed.

Lemma wpt_fact : wpt m Q s -> (forall a s', m s = Ok a s' -> R a s') -> wpt m (fun a s' => Q a s' /\ R a s') s.
Proof. unfold wpt. destruct (m s) as [| [] |]; auto. Qed.

Lemma wps_fact : wps m Q s -> (forall a s', m s = Ok a s' -> R a s') -> wps m (fun a s' => Q a s' /\ R a s') s.
Proof. unfold wps. destruct (m s) as [| [] |]; auto. Qed.
End Both.

(** ** Ending

    [ends m]: from every state [m] ends and uses no null or dangling pointer.  For
    code without such loops or pointers it is read off the syntax by [ends]. *)

Definition ends {S A} (m : M S A) : Prop := forall s, wps m (fun _ _ => True) s.

Section Ends.
Context {S : Type}.

Lemma ends_ret {A} (a : A) : ends (ret a : M S A).
Proof. by intros s. Qed.

Lemma ends_bind {A B} (m : M S A) (f : A -> M S B) : ends m -> (forall a, ends (f a)) -> ends (bind m f).
Proof. intros Hm Hf s. eapply wps_step; [apply Hm |]. intros a s' _. apply Hf. Qed.

Lemma ends_get : ends (get_state : M S S).
Proof. by intros s. Qed.

Lemma ends_gets {A} (f : S -> A) : ends (gets f).
Proof. by intros s. Qed.

Lemma ends_modify (f : S -> S) : ends (modify f).
Proof. by intros s. Qed.

Lemma ends_bug {A} : ends (exfat_bug : M S A).
Proof. by intros s. Qed.
End Ends.

Lemma ends_on_part {S T A} `{Part S T} (m : M T A) : ends m -> ends (on_part m).
Proof. intros Hm s. apply wps_on_part. eapply wps_mono; [apply Hm |]. done. Qed.

Create HintDb ends.
#[export] Hint Resolve ends_ret ends_get ends_gets ends_modify ends_bug : ends.

Ltac ends :=
  repeat (cbn beta iota zeta; lazymatch goal with
  | |- ends (bind _ _) => apply ends_bind; [| intros]
  | |- ends (on_part _) => first [solve [auto with ends] | apply ends_on_part]
  | |- ends (match ?x with _ => _ end) => destruct x
  | |- ends _ => solve [auto with ends]
  end).
