(* ===== verification/Ondisk.v ===== *)
(** * Ondisk: the on-disk structures (libexfat/exfatfs.h)

    Every packed structure is a record of field values with the function that
    overlays it on a buffer ([*_of]), the bytes it has in memory ([*_bytes])
    and the ranges of its fields ([*_ok]).  The round trips between the two
    views are the lemmas [*_of_bytes] and [*_bytes_of]. *)

From Stdlib Require Import ZArith Lia.
From stdpp Require Import base numbers list.
From S2P Require Import Prelude Bytes.

#[local] Open Scope Z_scope.

(** ** Constants *)

Definition EXFAT_FIRST_DATA_CLUSTER : Z := 2.
Definition EXFAT_LAST_DATA_CLUSTER : Z := 0xfffffff6.
Definition EXFAT_CLUSTER_FREE : Z := 0.
Definition EXFAT_CLUSTER_BAD : Z := 0xfffffff7.
Definition EXFAT_CLUSTER_END : Z := 0xffffffff.
Definition EXFAT_STATE_MOUNTED : Z := 2.

Definition EXFAT_ENTRY_VALID : Z := 0x80.
Definition EXFAT_ENTRY_CONTINUED : Z := 0x40.
Definition EXFAT_ENTRY_OPTIONAL : Z := 0x20.
Definition EXFAT_ENTRY_BITMAP : Z := Z.lor 0x01 EXFAT_ENTRY_VALID.
Definition EXFAT_ENTRY_UPCASE : Z := Z.lor 0x02 EXFAT_ENTRY_VALID.
Definition EXFAT_ENTRY_LABEL : Z := Z.lor 0x03 EXFAT_ENTRY_VALID.
Definition EXFAT_ENTRY_FILE : Z := Z.lor 0x05 EXFAT_ENTRY_VALID.
Definition EXFAT_ENTRY_FILE_INFO : Z :=
  Z.lor 0x00 (Z.lor EXFAT_ENTRY_VALID EXFAT_ENTRY_CONTINUED).
Definition EXFAT_ENTRY_FILE_NAME : Z :=
  Z.lor 0x01 (Z.lor EXFAT_ENTRY_VALID EXFAT_ENTRY_CONTINUED).
Definition EXFAT_ENTRY_FILE_TAIL : Z :=
  Z.lor 0x00 (Z.lor EXFAT_ENTRY_VALID (Z.lor EXFAT_ENTRY_CONTINUED EXFAT_ENTRY_OPTIONAL)).

Definition EXFAT_ENAME_MAX : Z := 15.
Definition EXFAT_UPCASE_CHARS : Z := 0x10000.

Definition EXFAT_ATTRIB_RO : Z := 0x01.
Definition EXFAT_ATTRIB_HIDDEN : Z := 0x02.
Definition EXFAT_ATTRIB_SYSTEM : Z := 0x04.
Definition EXFAT_ATTRIB_VOLUME : Z := 0x08.
Definition EXFAT_ATTRIB_DIR : Z := 0x10.
Definition EXFAT_ATTRIB_ARCH : Z := 0x20.

Definition EXFAT_FLAG_ALWAYS1 : Z := Z.shiftl 1 0.
Definition EXFAT_FLAG_CONTIGUOUS : Z := Z.shiftl 1 1.

(** [sizeof(struct exfat_entry)] *)
Definition ENTRY_SIZE : Z := 32.

(** ** [struct exfat_entry]: the common container, 32 raw bytes *)

Abbreviation exfat_entry := (list Z) (only parsing).

Definition entry_type (e : exfat_entry) : Z := znth e 0.
Definition entry_set_type (e : exfat_entry) (t : Z) : exfat_entry := zset e 0 t.

(** ** The structures *)

(** *** [struct exfat_super_block]: 512 bytes *)

Record super_block : Type := mk_super_block {
  sb_jump : list Z;
  sb_oem_name : list Z;
  sb___unused1 : list Z;
  sb_sector_start : Z;
  sb_sector_count : Z;
  sb_fat_sector_start : Z;
  sb_fat_sector_count : Z;
  sb_cluster_sector_start : Z;
  sb_cluster_count : Z;
  sb_rootdir_cluster : Z;
  sb_volume_serial : Z;
  sb_version_minor : Z;
  sb_version_major : Z;
  sb_volume_state : Z;
  sb_sector_bits : Z;
  sb_spc_bits : Z;
  sb_fat_count : Z;
  sb_drive_no : Z;
  sb_allocated_percent : Z;
  sb___unused2 : list Z;
  sb_boot_signature : Z
}.

(** The structure that overlays a buffer. *)
Definition super_block_of (bs : list Z) : super_block := {|
  sb_jump := sub bs 0 3;
  sb_oem_name := sub bs 3 8;
  sb___unused1 := sub bs 11 53;
  sb_sector_start := le_val (sub bs 64 8);
  sb_sector_count := le_val (sub bs 72 8);
  sb_fat_sector_start := le_val (sub bs 80 4);
  sb_fat_sector_count := le_val (sub bs 84 4);
  sb_cluster_sector_start := le_val (sub bs 88 4);
  sb_cluster_count := le_val (sub bs 92 4);
  sb_rootdir_cluster := le_val (sub bs 96 4);
  sb_volume_serial := le_val (sub bs 100 4);
  sb_version_minor := le_val (sub bs 104 1);
  sb_version_major := le_val (sub bs 105 1);
  sb_volume_state := le_val (sub bs 106 2);
  sb_sector_bits := le_val (sub bs 108 1);
  sb_spc_bits := le_val (sub bs 109 1);
  sb_fat_count := le_val (sub bs 110 1);
  sb_drive_no := le_val (sub bs 111 1);
  sb_allocated_percent := le_val (sub bs 112 1);
  sb___unused2 := sub bs 113 397;
  sb_boot_signature := le_val (sub bs 510 2) |}.

(** Its bytes in memory. *)
Definition super_block_bytes (x : super_block) : list Z :=
  sb_jump x ++
  sb_oem_name x ++
  sb___unused1 x ++
  le_bytes 8 (sb_sector_start x) ++
  le_bytes 8 (sb_sector_count x) ++
  le_bytes 4 (sb_fat_sector_start x) ++
  le_bytes 4 (sb_fat_sector_count x) ++
  le_bytes 4 (sb_cluster_sector_start x) ++
  le_bytes 4 (sb_cluster_count x) ++
  le_bytes 4 (sb_rootdir_cluster x) ++
  le_bytes 4 (sb_volume_serial x) ++
  le_bytes 1 (sb_version_minor x) ++
  le_bytes 1 (sb_version_major x) ++
  le_bytes 2 (sb_volume_state x) ++
  le_bytes 1 (sb_sector_bits x) ++
  le_bytes 1 (sb_spc_bits x) ++
  le_bytes 1 (sb_fat_count x) ++
  le_bytes 1 (sb_drive_no x) ++
  le_bytes 1 (sb_allocated_percent x) ++
  sb___unused2 x ++
  le_bytes 2 (sb_boot_signature x).

(** Every field holds a value of its type. *)
Definition super_block_ok (x : super_block) : Prop :=
  (zlen (sb_jump x) = 3 /\ bytes_ok (sb_jump x)) /\
  (zlen (sb_oem_name x) = 8 /\ bytes_ok (sb_oem_name x)) /\
  (zlen (sb___unused1 x) = 53 /\ bytes_ok (sb___unused1 x)) /\
  in_u 64 (sb_sector_start x) /\
  in_u 64 (sb_sector_count x) /\
  in_u 32 (sb_fat_sector_start x) /\
  in_u 32 (sb_fat_sector_count x) /\
  in_u 32 (sb_cluster_sector_start x) /\
  in_u 32 (sb_cluster_count x) /\
  in_u 32 (sb_rootdir_cluster x) /\
  in_u 32 (sb_volume_serial x) /\
  in_u 8 (sb_version_minor x) /\
  in_u 8 (sb_version_major x) /\
  in_u 16 (sb_volume_state x) /\
  in_u 8 (sb_sector_bits x) /\
  in_u 8 (sb_spc_bits x) /\
  in_u 8 (sb_fat_count x) /\
  in_u 8 (sb_drive_no x) /\
  in_u 8 (sb_allocated_percent x) /\
  (zlen (sb___unused2 x) = 397 /\ bytes_ok (sb___unused2 x)) /\
  in_u 16 (sb_boot_signature x).

(** *** [struct exfat_entry_bitmap]: 32 bytes *)

Record entry_bitmap : Type := mk_entry_bitmap {
  eb_type : Z;
  eb___unknown1 : list Z;
  eb_start_cluster : Z;
  eb_size : Z
}.

(** The structure that overlays a buffer. *)
Definition entry_bitmap_of (bs : list Z) : entry_bitmap := {|
  eb_type := le_val (sub bs 0 1);
  eb___unknown1 := sub bs 1 19;
  eb_start_cluster := le_val (sub bs 20 4);
  eb_size := le_val (sub bs 24 8) |}.

(** Its bytes in memory. *)
Definition entry_bitmap_bytes (x : entry_bitmap) : list Z :=
  le_bytes 1 (eb_type x) ++
  eb___unknown1 x ++
  le_bytes 4 (eb_start_cluster x) ++
  le_bytes 8 (eb_size x).

(** Every field holds a value of its type. *)
Definition entry_bitmap_ok (x : entry_bitmap) : Prop :=
  in_u 8 (eb_type x) /\
  (zlen (eb___unknown1 x) = 19 /\ bytes_ok (eb___unknown1 x)) /\
  in_u 32 (eb_start_cluster x) /\
  in_u 64 (eb_size x).

(** *** [struct exfat_entry_upcase]: 32 bytes *)

Record entry_upcase : Type := mk_entry_upcase {
  eu_type : Z;
  eu___unknown1 : list Z;
  eu_checksum : Z;
  eu___unknown2 : list Z;
  eu_start_cluster : Z;
  eu_size : Z
}.

(** The structure that overlays a buffer. *)
Definition entry_upcase_of (bs : list Z) : entry_upcase := {|
  eu_type := le_val (sub bs 0 1);
  eu___unknown1 := sub bs 1 3;
  eu_checksum := le_val (sub bs 4 4);
  eu___unknown2 := sub bs 8 12;
  eu_start_cluster := le_val (sub bs 20 4);
  eu_size := le_val (sub bs 24 8) |}.

(** Its bytes in memory. *)
Definition entry_upcase_bytes (x : entry_upcase) : list Z :=
  le_bytes 1 (eu_type x) ++
  eu___unknown1 x ++
  le_bytes 4 (eu_checksum x) ++
  eu___unknown2 x ++
  le_bytes 4 (eu_start_cluster x) ++
  le_bytes 8 (eu_size x).

(** Every field holds a value of its type. *)
Definition entry_upcase_ok (x : entry_upcase) : Prop :=
  in_u 8 (eu_type x) /\
  (zlen (eu___unknown1 x) = 3 /\ bytes_ok (eu___unknown1 x)) /\
  in_u 32 (eu_checksum x) /\
  (zlen (eu___unknown2 x) = 12 /\ bytes_ok (eu___unknown2 x)) /\
  in_u 32 (eu_start_cluster x) /\
  in_u 64 (eu_size x).

(** *** [struct exfat_entry_label]: 32 bytes *)

Record entry_label : Type := mk_entry_label {
  el_type : Z;
  el_length : Z;
  el_name : list Z
}.

(** The structure that overlays a buffer. *)
Definition entry_label_of (bs : list Z) : entry_label := {|
  el_type := le_val (sub bs 0 1);
  el_length := le_val (sub bs 1 1);
  el_name := le16_array (sub bs 2 30) |}.

(** Its bytes in memory. *)
Definition entry_label_bytes (x : entry_label) : list Z :=
  le_bytes 1 (el_type x) ++
  le_bytes 1 (el_length x) ++
  le16_bytes (el_name x).

(** Every field holds a value of its type. *)
Definition entry_label_ok (x : entry_label) : Prop :=
  in_u 8 (el_type x) /\
  in_u 8 (el_length x) /\
  (zlen (el_name x) = 15 /\ Forall (in_u 16) (el_name x)).

(** *** [struct exfat_entry_meta1]: 32 bytes *)

Record entry_meta1 : Type := mk_entry_meta1 {
  m1_type : Z;
  m1_continuations : Z;
  m1_checksum : Z;
  m1_attrib : Z;
  m1___unknown1 : list Z;
  m1_crtime : Z;
  m1_crdate : Z;
  m1_mtime : Z;
  m1_mdate : Z;
  m1_atime : Z;
  m1_adate : Z;
  m1_crtime_cs : Z;
  m1_mtime_cs : Z;
  m1_crtime_tzo : Z;
  m1_mtime_tzo : Z;
  m1_atime_tzo : Z;
  m1___unknown2 : list Z
}.

(** The structure that overlays a buffer. *)
Definition entry_meta1_of (bs : list Z) : entry_meta1 := {|
  m1_type := le_val (sub bs 0 1);
  m1_continuations := le_val (sub bs 1 1);
  m1_checksum := le_val (sub bs 2 2);
  m1_attrib := le_val (sub bs 4 2);
  m1___unknown1 := sub bs 6 2;
  m1_crtime := le_val (sub bs 8 2);
  m1_crdate := le_val (sub bs 10 2);
  m1_mtime := le_val (sub bs 12 2);
  m1_mdate := le_val (sub bs 14 2);
  m1_atime := le_val (sub bs 16 2);
  m1_adate := le_val (sub bs 18 2);
  m1_crtime_cs := le_val (sub bs 20 1);
  m1_mtime_cs := le_val (sub bs 21 1);
  m1_crtime_tzo := le_val (sub bs 22 1);
  m1_mtime_tzo := le_val (sub bs 23 1);
  m1_atime_tzo := le_val (sub bs 24 1);
  m1___unknown2 := sub bs 25 7 |}.

(** Its bytes in memory. *)
Definition entry_meta1_bytes (x : entry_meta1) : list Z :=
  le_bytes 1 (m1_type x) ++
  le_bytes 1 (m1_continuations x) ++
  le_bytes 2 (m1_checksum x) ++
  le_bytes 2 (m1_attrib x) ++
  m1___unknown1 x ++
  le_bytes 2 (m1_crtime x) ++
  le_bytes 2 (m1_crdate x) ++
  le_bytes 2 (m1_mtime x) ++
  le_bytes 2 (m1_mdate x) ++
  le_bytes 2 (m1_atime x) ++
  le_bytes 2 (m1_adate x) ++
  le_bytes 1 (m1_crtime_cs x) ++
  le_bytes 1 (m1_mtime_cs x) ++
  le_bytes 1 (m1_crtime_tzo x) ++
  le_bytes 1 (m1_mtime_tzo x) ++
  le_bytes 1 (m1_atime_tzo x) ++
  m1___unknown2 x.

(** Every field holds a value of its type. *)
Definition entry_meta1_ok (x : entry_meta1) : Prop :=
  in_u 8 (m1_type x) /\
  in_u 8 (m1_continuations x) /\
  in_u 16 (m1_checksum x) /\
  in_u 16 (m1_attrib x) /\
  (zlen (m1___unknown1 x) = 2 /\ bytes_ok (m1___unknown1 x)) /\
  in_u 16 (m1_crtime x) /\
  in_u 16 (m1_crdate x) /\
  in_u 16 (m1_mtime x) /\
  in_u 16 (m1_mdate x) /\
  in_u 16 (m1_atime x) /\
  in_u 16 (m1_adate x) /\
  in_u 8 (m1_crtime_cs x) /\
  in_u 8 (m1_mtime_cs x) /\
  in_u 8 (m1_crtime_tzo x) /\
  in_u 8 (m1_mtime_tzo x) /\
  in_u 8 (m1_atime_tzo x) /\
  (zlen (m1___unknown2 x) = 7 /\ bytes_ok (m1___unknown2 x)).

(** *** [struct exfat_entry_meta2]: 32 bytes *)

Record entry_meta2 : Type := mk_entry_meta2 {
  m2_type : Z;
  m2_flags : Z;
  m2___unknown1 : list Z;
  m2_name_length : Z;
  m2_name_hash : Z;
  m2___unknown2 : list Z;
  m2_valid_size : Z;
  m2___unknown3 : list Z;
  m2_start_cluster : Z;
  m2_size : Z
}.

(** The structure that overlays a buffer. *)
Definition entry_meta2_of (bs : list Z) : entry_meta2 := {|
  m2_type := le_val (sub bs 0 1);
  m2_flags := le_val (sub bs 1 1);
  m2___unknown1 := sub bs 2 1;
  m2_name_length := le_val (sub bs 3 1);
  m2_name_hash := le_val (sub bs 4 2);
  m2___unknown2 := sub bs 6 2;
  m2_valid_size := le_val (sub bs 8 8);
  m2___unknown3 := sub bs 16 4;
  m2_start_cluster := le_val (sub bs 20 4);
  m2_size := le_val (sub bs 24 8) |}.

(** Its bytes in memory. *)
Definition entry_meta2_bytes (x : entry_meta2) : list Z :=
  le_bytes 1 (m2_type x) ++
  le_bytes 1 (m2_flags x) ++
  m2___unknown1 x ++
  le_bytes 1 (m2_name_length x) ++
  le_bytes 2 (m2_name_hash x) ++
  m2___unknown2 x ++
  le_bytes 8 (m2_valid_size x) ++
  m2___unknown3 x ++
  le_bytes 4 (m2_start_cluster x) ++
  le_bytes 8 (m2_size x).

(** Every field holds a value of its type. *)
Definition entry_meta2_ok (x : entry_meta2) : Prop :=
  in_u 8 (m2_type x) /\
  in_u 8 (m2_flags x) /\
  (zlen (m2___unknown1 x) = 1 /\ bytes_ok (m2___unknown1 x)) /\
  in_u 8 (m2_name_length x) /\
  in_u 16 (m2_name_hash x) /\
  (zlen (m2___unknown2 x) = 2 /\ bytes_ok (m2___unknown2 x)) /\
  in_u 64 (m2_valid_size x) /\
  (zlen (m2___unknown3 x) = 4 /\ bytes_ok (m2___unknown3 x)) /\
  in_u 32 (m2_start_cluster x) /\
  in_u 64 (m2_size x).

(** *** [struct exfat_entry_name]: 32 bytes *)

Record entry_name : Type := mk_entry_name {
  en_type : Z;
  en___unknown : list Z;
  en_name : list Z
}.

(** The structure that overlays a buffer. *)
Definition entry_name_of (bs : list Z) : entry_name := {|
  en_type := le_val (sub bs 0 1);
  en___unknown := sub bs 1 1;
  en_name := le16_array (sub bs 2 30) |}.

(** Its bytes in memory. *)
Definition entry_name_bytes (x : entry_name) : list Z :=
  le_bytes 1 (en_type x) ++
  en___unknown x ++
  le16_bytes (en_name x).

(** Every field holds a value of its type. *)
Definition entry_name_ok (x : entry_name) : Prop :=
  in_u 8 (en_type x) /\
  (zlen (en___unknown x) = 1 /\ bytes_ok (en___unknown x)) /\
  (zlen (en_name x) = 15 /\ Forall (in_u 16) (en_name x)).

(** ** Round trips *)

Lemma super_block_of_bytes x : super_block_ok x -> super_block_of (super_block_bytes x) = x.
Proof.
  intros H. unfold super_block_ok in H. destruct_and!.
  destruct x. cbn [sb_jump sb_oem_name sb___unused1 sb_sector_start sb_sector_count sb_fat_sector_start sb_fat_sector_count sb_cluster_sector_start sb_cluster_count sb_rootdir_cluster sb_volume_serial sb_version_minor sb_version_major sb_volume_state sb_sector_bits sb_spc_bits sb_fat_count sb_drive_no sb_allocated_percent sb___unused2 sb_boot_signature] in *.
  unfold super_block_of, super_block_bytes.
  cbn [sb_jump sb_oem_name sb___unused1 sb_sector_start sb_sector_count sb_fat_sector_start sb_fat_sector_count sb_cluster_sector_start sb_cluster_count sb_rootdir_cluster sb_volume_serial sb_version_minor sb_version_major sb_volume_state sb_sector_bits sb_spc_bits sb_fat_count sb_drive_no sb_allocated_percent sb___unused2 sb_boot_signature].
  f_equal; overlay_get.
Qed.

Lemma super_block_bytes_of bs :
  bytes_ok bs -> zlen bs = 512 -> super_block_bytes (super_block_of bs) = bs.
Proof. intros Hok Hlen. unfold super_block_of, super_block_bytes.
  cbn [sb_jump sb_oem_name sb___unused1 sb_sector_start sb_sector_count sb_fat_sector_start sb_fat_sector_count sb_cluster_sector_start sb_cluster_count sb_rootdir_cluster sb_volume_serial sb_version_minor sb_version_major sb_volume_state sb_sector_bits sb_spc_bits sb_fat_count sb_drive_no sb_allocated_percent sb___unused2 sb_boot_signature]. overlay_put. Qed.

Lemma super_block_of_ok bs : bytes_ok bs -> zlen bs = 512 -> super_block_ok (super_block_of bs).
Proof. intros Hok Hlen. unfold super_block_of, super_block_ok. simpl. fields_ok. Qed.

Lemma zlen_super_block_bytes x : super_block_ok x -> zlen (super_block_bytes x) = 512.
Proof.
  intros H. unfold super_block_ok in H. destruct_and!. unfold super_block_bytes.
  rewrite ?zlen_app, ?zlen_le_bytes, ?zlen_le16_bytes. lia.
Qed.

Lemma super_block_bytes_ok x : super_block_ok x -> bytes_ok (super_block_bytes x).
Proof.
  intros H. unfold super_block_ok in H. destruct_and!. unfold super_block_bytes.
  rewrite ?bytes_ok_app. repeat split; auto with exfat.
Qed.

Lemma entry_bitmap_of_bytes x : entry_bitmap_ok x -> entry_bitmap_of (entry_bitmap_bytes x) = x.
Proof.
  intros H. unfold entry_bitmap_ok in H. destruct_and!.
  destruct x. cbn [eb_type eb___unknown1 eb_start_cluster eb_size] in *.
  unfold entry_bitmap_of, entry_bitmap_bytes.
  cbn [eb_type eb___unknown1 eb_start_cluster eb_size].
  f_equal; overlay_get.
Qed.

Lemma entry_bitmap_bytes_of bs :
  bytes_ok bs -> zlen bs = 32 -> entry_bitmap_bytes (entry_bitmap_of bs) = bs.
Proof. intros Hok Hlen. unfold entry_bitmap_of, entry_bitmap_bytes.
  cbn [eb_type eb___unknown1 eb_start_cluster eb_size]. overlay_put. Qed.

Lemma entry_bitmap_of_ok bs : bytes_ok bs -> zlen bs = 32 -> entry_bitmap_ok (entry_bitmap_of bs).
Proof. intros Hok Hlen. unfold entry_bitmap_of, entry_bitmap_ok. simpl. fields_ok. Qed.

Lemma zlen_entry_bitmap_bytes x : entry_bitmap_ok x -> zlen (entry_bitmap_bytes x) = 32.
Proof.
  intros H. unfold entry_bitmap_ok in H. destruct_and!. unfold entry_bitmap_bytes.
  rewrite ?zlen_app, ?zlen_le_bytes, ?zlen_le16_bytes. lia.
Qed.

Lemma entry_bitmap_bytes_ok x : entry_bitmap_ok x -> bytes_ok (entry_bitmap_bytes x).
Proof.
  intros H. unfold entry_bitmap_ok in H. destruct_and!. unfold entry_bitmap_bytes.
  rewrite ?bytes_ok_app. repeat split; auto with exfat.
Qed.

Lemma entry_upcase_of_bytes x : entry_upcase_ok x -> entry_upcase_of (entry_upcase_bytes x) = x.
Proof.
  intros H. unfold entry_upcase_ok in H. destruct_and!.
  destruct x. cbn [eu_type eu___unknown1 eu_checksum eu___unknown2 eu_start_cluster eu_size] in *.
  unfold entry_upcase_of, entry_upcase_bytes.
  cbn [eu_type eu___unknown1 eu_checksum eu___unknown2 eu_start_cluster eu_size].
  f_equal; overlay_get.
Qed.

Lemma entry_upcase_bytes_of bs :
  bytes_ok bs -> zlen bs = 32 -> entry_upcase_bytes (entry_upcase_of bs) = bs.
Proof. intros Hok Hlen. unfold entry_upcase_of, entry_upcase_bytes.
  cbn [eu_type eu___unknown1 eu_checksum eu___unknown2 eu_start_cluster eu_size]. overlay_put. Qed.

Lemma entry_upcase_of_ok bs : bytes_ok bs -> zlen bs = 32 -> entry_upcase_ok (entry_upcase_of bs).
Proof. intros Hok Hlen. unfold entry_upcase_of, entry_upcase_ok. simpl. fields_ok. Qed.

Lemma zlen_entry_upcase_bytes x : entry_upcase_ok x -> zlen (entry_upcase_bytes x) = 32.
Proof.
  intros H. unfold entry_upcase_ok in H. destruct_and!. unfold entry_upcase_bytes.
  rewrite ?zlen_app, ?zlen_le_bytes, ?zlen_le16_bytes. lia.
Qed.

Lemma entry_upcase_bytes_ok x : entry_upcase_ok x -> bytes_ok (entry_upcase_bytes x).
Proof.
  intros H. unfold entry_upcase_ok in H. destruct_and!. unfold entry_upcase_bytes.
  rewrite ?bytes_ok_app. repeat split; auto with exfat.
Qed.

Lemma entry_label_of_bytes x : entry_label_ok x -> entry_label_of (entry_label_bytes x) = x.
Proof.
  intros H. unfold entry_label_ok in H. destruct_and!.
  destruct x. cbn [el_type el_length el_name] in *.
  unfold entry_label_of, entry_label_bytes.
  cbn [el_type el_length el_name].
  f_equal; overlay_get.
Qed.

Lemma entry_label_bytes_of bs :
  bytes_ok bs -> zlen bs = 32 -> entry_label_bytes (entry_label_of bs) = bs.
Proof. intros Hok Hlen. unfold entry_label_of, entry_label_bytes.
  cbn [el_type el_length el_name]. overlay_put. Qed.

Lemma entry_label_of_ok bs : bytes_ok bs -> zlen bs = 32 -> entry_label_ok (entry_label_of bs).
Proof. intros Hok Hlen. unfold entry_label_of, entry_label_ok. simpl. fields_ok. Qed.

Lemma zlen_entry_label_bytes x : entry_label_ok x -> zlen (entry_label_bytes x) = 32.
Proof.
  intros H. unfold entry_label_ok in H. destruct_and!. unfold entry_label_bytes.
  rewrite ?zlen_app, ?zlen_le_bytes, ?zlen_le16_bytes. lia.
Qed.

Lemma entry_label_bytes_ok x : entry_label_ok x -> bytes_ok (entry_label_bytes x).
Proof.
  intros H. unfold entry_label_ok in H. destruct_and!. unfold entry_label_bytes.
  rewrite ?bytes_ok_app. repeat split; auto with exfat.
Qed.

Lemma entry_meta1_of_bytes x : entry_meta1_ok x -> entry_meta1_of (entry_meta1_bytes x) = x.
Proof.
  intros H. unfold entry_meta1_ok in H. destruct_and!.
  destruct x. cbn [m1_type m1_continuations m1_checksum m1_attrib m1___unknown1 m1_crtime m1_crdate m1_mtime m1_mdate m1_atime m1_adate m1_crtime_cs m1_mtime_cs m1_crtime_tzo m1_mtime_tzo m1_atime_tzo m1___unknown2] in *.
  unfold entry_meta1_of, entry_meta1_bytes.
  cbn [m1_type m1_continuations m1_checksum m1_attrib m1___unknown1 m1_crtime m1_crdate m1_mtime m1_mdate m1_atime m1_adate m1_crtime_cs m1_mtime_cs m1_crtime_tzo m1_mtime_tzo m1_atime_tzo m1___unknown2].
  f_equal; overlay_get.
Qed.

Lemma entry_meta1_bytes_of bs :
  bytes_ok bs -> zlen bs = 32 -> entry_meta1_bytes (entry_meta1_of bs) = bs.
Proof. intros Hok Hlen. unfold entry_meta1_of, entry_meta1_bytes.
  cbn [m1_type m1_continuations m1_checksum m1_attrib m1___unknown1 m1_crtime m1_crdate m1_mtime m1_mdate m1_atime m1_adate m1_crtime_cs m1_mtime_cs m1_crtime_tzo m1_mtime_tzo m1_atime_tzo m1___unknown2]. overlay_put. Qed.

Lemma entry_meta1_of_ok bs : bytes_ok bs -> zlen bs = 32 -> entry_meta1_ok (entry_meta1_of bs).
Proof. intros Hok Hlen. unfold entry_meta1_of, entry_meta1_ok. simpl. fields_ok. Qed.

Lemma zlen_entry_meta1_bytes x : entry_meta1_ok x -> zlen (entry_meta1_bytes x) = 32.
Proof.
  intros H. unfold entry_meta1_ok in H. destruct_and!. unfold entry_meta1_bytes.
  rewrite ?zlen_app, ?zlen_le_bytes, ?zlen_le16_bytes. lia.
Qed.

Lemma entry_meta1_bytes_ok x : entry_meta1_ok x -> bytes_ok (entry_meta1_bytes x).
Proof.
  intros H. unfold entry_meta1_ok in H. destruct_and!. unfold entry_meta1_bytes.
  rewrite ?bytes_ok_app. repeat split; auto with exfat.
Qed.

Lemma entry_meta2_of_bytes x : entry_meta2_ok x -> entry_meta2_of (entry_meta2_bytes x) = x.
Proof.
  intros H. unfold entry_meta2_ok in H. destruct_and!.
  destruct x. cbn [m2_type m2_flags m2___unknown1 m2_name_length m2_name_hash m2___unknown2 m2_valid_size m2___unknown3 m2_start_cluster m2_size] in *.
  unfold entry_meta2_of, entry_meta2_bytes.
  cbn [m2_type m2_flags m2___unknown1 m2_name_length m2_name_hash m2___unknown2 m2_valid_size m2___unknown3 m2_start_cluster m2_size].
  f_equal; overlay_get.
Qed.

Lemma entry_meta2_bytes_of bs :
  bytes_ok bs -> zlen bs = 32 -> entry_meta2_bytes (entry_meta2_of bs) = bs.
Proof. intros Hok Hlen. unfold entry_meta2_of, entry_meta2_bytes.
  cbn [m2_type m2_flags m2___unknown1 m2_name_length m2_name_hash m2___unknown2 m2_valid_size m2___unknown3 m2_start_cluster m2_size]. overlay_put. Qed.

Lemma entry_meta2_of_ok bs : bytes_ok bs -> zlen bs = 32 -> entry_meta2_ok (entry_meta2_of bs).
Proof. intros Hok Hlen. unfold entry_meta2_of, entry_meta2_ok. simpl. fields_ok. Qed.

Lemma zlen_entry_meta2_bytes x : entry_meta2_ok x -> zlen (entry_meta2_bytes x) = 32.
Proof.
  intros H. unfold entry_meta2_ok in H. destruct_and!. unfold entry_meta2_bytes.
  rewrite ?zlen_app, ?zlen_le_bytes, ?zlen_le16_bytes. lia.
Qed.

Lemma entry_meta2_bytes_ok x : entry_meta2_ok x -> bytes_ok (entry_meta2_bytes x).
Proof.
  intros H. unfold entry_meta2_ok in H. destruct_and!. unfold entry_meta2_bytes.
  rewrite ?bytes_ok_app. repeat split; auto with exfat.
Qed.

Lemma entry_name_of_bytes x : entry_name_ok x -> entry_name_of (entry_name_bytes x) = x.
Proof.
  intros H. unfold entry_name_ok in H. destruct_and!.
  destruct x. cbn [en_type en___unknown en_name] in *.
  unfold entry_name_of, entry_name_bytes.
  cbn [en_type en___unknown en_name].
  f_equal; overlay_get.
Qed.

Lemma entry_name_bytes_of bs :
  bytes_ok bs -> zlen bs = 32 -> entry_name_bytes (entry_name_of bs) = bs.
Proof. intros Hok Hlen. unfold entry_name_of, entry_name_bytes.
  cbn [en_type en___unknown en_name]. overlay_put. Qed.

Lemma entry_name_of_ok bs : bytes_ok bs -> zlen bs = 32 -> entry_name_ok (entry_name_of bs).
Proof. intros Hok Hlen. unfold entry_name_of, entry_name_ok. simpl. fields_ok. Qed.

Lemma zlen_entry_name_bytes x : entry_name_ok x -> zlen (entry_name_bytes x) = 32.
Proof.
  intros H. unfold entry_name_ok in H. destruct_and!. unfold entry_name_bytes.
  rewrite ?zlen_app, ?zlen_le_bytes, ?zlen_le16_bytes. lia.
Qed.

Lemma entry_name_bytes_ok x : entry_name_ok x -> bytes_ok (entry_name_bytes x).
Proof.
  intros H. unfold entry_name_ok in H. destruct_and!. unfold entry_name_bytes.
  rewrite ?bytes_ok_app. repeat split; auto with exfat.
Qed.

#[export] Hint Resolve super_block_of_bytes super_block_bytes_of super_block_of_ok super_block_bytes_ok entry_bitmap_of_bytes entry_bitmap_bytes_of entry_bitmap_of_ok entry_bitmap_bytes_ok entry_upcase_of_bytes entry_upcase_bytes_of entry_upcase_of_ok entry_upcase_bytes_ok entry_label_of_bytes entry_label_bytes_of entry_label_of_ok entry_label_bytes_ok entry_meta1_of_bytes entry_meta1_bytes_of entry_meta1_of_ok entry_meta1_bytes_ok entry_meta2_of_bytes entry_meta2_bytes_of entry_meta2_of_ok entry_meta2_bytes_ok entry_name_of_bytes entry_name_bytes_of entry_name_of_ok entry_name_bytes_ok : exfat.
