(* ===== verification/State.v ===== *)
(** * State: the data that libexfat keeps (libexfat/exfat.h)

    [env] is what the library does not own: the device it reads and writes, the
    clock, the allocator, the answers of the user to repair questions and the
    two counters of log.c and repair.c.  [exfat] and [exfat_node] are the two
    structures of exfat.h.  A function that works on one node has the state
    [nstate]; one that works on the tree of nodes has the state [world].

    The device: a read or a write of [len] bytes at [off] fails as a whole when
    [os_rfail off len] or [os_wfail off len], and leaves the medium as it was;
    otherwise it transfers every byte.  (io.c treats a short transfer as a
    success, so a short transfer is not distinguished from a full one.)

    The up-case table and the bitmap chunk are null pointers until the root
    directory is read: then they are the empty list, which neither is later. *)

From Stdlib Require Import ZArith Lia.
From stdpp Require Import base numbers list gmap.
From S2P Require Import Prelude Bytes Monad Ondisk.

#[local] Open Scope Z_scope.

Inductive exfat_mode := EXFAT_MODE_RO | EXFAT_MODE_RW | EXFAT_MODE_ANY.

#[global] Instance exfat_mode_eq_dec : EqDecision exfat_mode.
Proof. solve_decision. Defined.

Inductive repair_mode := EXFAT_REPAIR_NO | EXFAT_REPAIR_ASK | EXFAT_REPAIR_YES.

#[global] Instance repair_mode_eq_dec : EqDecision repair_mode.
Proof. solve_decision. Defined.

(** A pointer to a node; a null pointer is [None] of type [option ptr]. *)
Definition ptr : Type := N.

(** The device and the operating system. *)
Record env : Type := mk_env {
  os_medium : mem;
  os_size : Z;
  os_mode : exfat_mode;
  os_rfail : Z -> Z -> bool;
  os_wfail : Z -> Z -> bool;
  os_fsync_fails : bool;
  os_clock : nat -> Z;
  os_ticks : nat;
  os_malloc_fails : nat -> bool;
  os_mallocs : nat;
  os_stdin : list (list Z);
  os_timezone : Z;
  os_errors : Z;
  os_errors_fixed : Z
}.

Definition set_os_medium (v : mem) (x : env) : env :=
  mk_env
    v (os_size x) (os_mode x) (os_rfail x) (os_wfail x) (os_fsync_fails x) (os_clock x)
    (os_ticks x) (os_malloc_fails x) (os_mallocs x) (os_stdin x) (os_timezone x)
    (os_errors x) (os_errors_fixed x).
Definition set_os_size (v : Z) (x : env) : env :=
  mk_env
    (os_medium x) v (os_mode x) (os_rfail x) (os_wfail x) (os_fsync_fails x) (os_clock x)
    (os_ticks x) (os_malloc_fails x) (os_mallocs x) (os_stdin x) (os_timezone x)
    (os_errors x) (os_errors_fixed x).
Definition set_os_mode (v : exfat_mode) (x : env) : env :=
  mk_env
    (os_medium x) (os_size x) v (os_rfail x) (os_wfail x) (os_fsync_fails x) (os_clock x)
    (os_ticks x) (os_malloc_fails x) (os_mallocs x) (os_stdin x) (os_timezone x)
    (os_errors x) (os_errors_fixed x).
Definition set_os_ticks (v : nat) (x : env) : env :=
  mk_env
    (os_medium x) (os_size x) (os_mode x) (os_rfail x) (os_wfail x) (os_fsync_fails x)
    (os_clock x) v (os_malloc_fails x) (os_mallocs x) (os_stdin x) (os_timezone x)
    (os_errors x) (os_errors_fixed x).
Definition set_os_mallocs (v : nat) (x : env) : env :=
  mk_env
    (os_medium x) (os_size x) (os_mode x) (os_rfail x) (os_wfail x) (os_fsync_fails x)
    (os_clock x) (os_ticks x) (os_malloc_fails x) v (os_stdin x) (os_timezone x)
    (os_errors x) (os_errors_fixed x).
Definition set_os_stdin (v : list (list Z)) (x : env) : env :=
  mk_env
    (os_medium x) (os_size x) (os_mode x) (os_rfail x) (os_wfail x) (os_fsync_fails x)
    (os_clock x) (os_ticks x) (os_malloc_fails x) (os_mallocs x) v (os_timezone x)
    (os_errors x) (os_errors_fixed x).
Definition set_os_timezone (v : Z) (x : env) : env :=
  mk_env
    (os_medium x) (os_size x) (os_mode x) (os_rfail x) (os_wfail x) (os_fsync_fails x)
    (os_clock x) (os_ticks x) (os_malloc_fails x) (os_mallocs x) (os_stdin x) v
    (os_errors x) (os_errors_fixed x).
Definition set_os_errors (v : Z) (x : env) : env :=
  mk_env
    (os_medium x) (os_size x) (os_mode x) (os_rfail x) (os_wfail x) (os_fsync_fails x)
    (os_clock x) (os_ticks x) (os_malloc_fails x) (os_mallocs x) (os_stdin x)
    (os_timezone x) v (os_errors_fixed x).
Definition set_os_errors_fixed (v : Z) (x : env) : env :=
  mk_env
    (os_medium x) (os_size x) (os_mode x) (os_rfail x) (os_wfail x) (os_fsync_fails x)
    (os_clock x) (os_ticks x) (os_malloc_fails x) (os_mallocs x) (os_stdin x)
    (os_timezone x) (os_errors x) v.

(** [struct exfat], less its device and its root node. *)
Record exfat : Type := mk_exfat {
  ef_sb : super_block;
  ef_upcase : list Z;
  ef_cmap_start_cluster : Z;
  ef_cmap_size : Z;
  ef_cmap_chunk : list Z;
  ef_cmap_chunk_size : Z;
  ef_cmap_dirty : bool;
  ef_label : list Z;
  ef_dmask : Z;
  ef_fmask : Z;
  ef_uid : Z;
  ef_gid : Z;
  ef_ro : Z;
  ef_noatime : bool;
  ef_repair : repair_mode
}.

Definition set_ef_sb (v : super_block) (x : exfat) : exfat :=
  mk_exfat
    v (ef_upcase x) (ef_cmap_start_cluster x) (ef_cmap_size x) (ef_cmap_chunk x)
    (ef_cmap_chunk_size x) (ef_cmap_dirty x) (ef_label x) (ef_dmask x) (ef_fmask x)
    (ef_uid x) (ef_gid x) (ef_ro x) (ef_noatime x) (ef_repair x).
Definition set_ef_upcase (v : list Z) (x : exfat) : exfat :=
  mk_exfat
    (ef_sb x) v (ef_cmap_start_cluster x) (ef_cmap_size x) (ef_cmap_chunk x)
    (ef_cmap_chunk_size x) (ef_cmap_dirty x) (ef_label x) (ef_dmask x) (ef_fmask x)
    (ef_uid x) (ef_gid x) (ef_ro x) (ef_noatime x) (ef_repair x).
Definition set_ef_cmap_start_cluster (v : Z) (x : exfat) : exfat :=
  mk_exfat
    (ef_sb x) (ef_upcase x) v (ef_cmap_size x) (ef_cmap_chunk x) (ef_cmap_chunk_size x)
    (ef_cmap_dirty x) (ef_label x) (ef_dmask x) (ef_fmask x) (ef_uid x) (ef_gid x) (ef_ro x)
    (ef_noatime x) (ef_repair x).
Definition set_ef_cmap_size (v : Z) (x : exfat) : exfat :=
  mk_exfat
    (ef_sb x) (ef_upcase x) (ef_cmap_start_cluster x) v (ef_cmap_chunk x)
    (ef_cmap_chunk_size x) (ef_cmap_dirty x) (ef_label x) (ef_dmask x) (ef_fmask x)
    (ef_uid x) (ef_gid x) (ef_ro x) (ef_noatime x) (ef_repair x).
Definition set_ef_cmap_chunk (v : list Z) (x : exfat) : exfat :=
  mk_exfat
    (ef_sb x) (ef_upcase x) (ef_cmap_start_cluster x) (ef_cmap_size x) v
    (ef_cmap_chunk_size x) (ef_cmap_dirty x) (ef_label x) (ef_dmask x) (ef_fmask x)
    (ef_uid x) (ef_gid x) (ef_ro x) (ef_noatime x) (ef_repair x).
Definition set_ef_cmap_chunk_size (v : Z) (x : exfat) : exfat :=
  mk_exfat
    (ef_sb x) (ef_upcase x) (ef_cmap_start_cluster x) (ef_cmap_size x) (ef_cmap_chunk x) v
    (ef_cmap_dirty x) (ef_label x) (ef_dmask x) (ef_fmask x) (ef_uid x) (ef_gid x) (ef_ro x)
    (ef_noatime x) (ef_repair x).
Definition set_ef_cmap_dirty (v : bool) (x : exfat) : exfat :=
  mk_exfat
    (ef_sb x) (ef_upcase x) (ef_cmap_start_cluster x) (ef_cmap_size x) (ef_cmap_chunk x)
    (ef_cmap_chunk_size x) v (ef_label x) (ef_dmask x) (ef_fmask x) (ef_uid x) (ef_gid x)
    (ef_ro x) (ef_noatime x) (ef_repair x).
Definition set_ef_label (v : list Z) (x : exfat) : exfat :=
  mk_exfat
    (ef_sb x) (ef_upcase x) (ef_cmap_start_cluster x) (ef_cmap_size x) (ef_cmap_chunk x)
    (ef_cmap_chunk_size x) (ef_cmap_dirty x) v (ef_dmask x) (ef_fmask x) (ef_uid x)
    (ef_gid x) (ef_ro x) (ef_noatime x) (ef_repair x).
Definition set_ef_dmask (v : Z) (x : exfat) : exfat :=
  mk_exfat
    (ef_sb x) (ef_upcase x) (ef_cmap_start_cluster x) (ef_cmap_size x) (ef_cmap_chunk x)
    (ef_cmap_chunk_size x) (ef_cmap_dirty x) (ef_label x) v (ef_fmask x) (ef_uid x)
    (ef_gid x) (ef_ro x) (ef_noatime x) (ef_repair x).
Definition set_ef_fmask (v : Z) (x : exfat) : exfat :=
  mk_exfat
    (ef_sb x) (ef_upcase x) (ef_cmap_start_cluster x) (ef_cmap_size x) (ef_cmap_chunk x)
    (ef_cmap_chunk_size x) (ef_cmap_dirty x) (ef_label x) (ef_dmask x) v (ef_uid x)
    (ef_gid x) (ef_ro x) (ef_noatime x) (ef_repair x).
Definition set_ef_uid (v : Z) (x : exfat) : exfat :=
  mk_exfat
    (ef_sb x) (ef_upcase x) (ef_cmap_start_cluster x) (ef_cmap_size x) (ef_cmap_chunk x)
    (ef_cmap_chunk_size x) (ef_cmap_dirty x) (ef_label x) (ef_dmask x) (ef_fmask x) v
    (ef_gid x) (ef_ro x) (ef_noatime x) (ef_repair x).
Definition set_ef_gid (v : Z) (x : exfat) : exfat :=
  mk_exfat
    (ef_sb x) (ef_upcase x) (ef_cmap_start_cluster x) (ef_cmap_size x) (ef_cmap_chunk x)
    (ef_cmap_chunk_size x) (ef_cmap_dirty x) (ef_label x) (ef_dmask x) (ef_fmask x)
    (ef_uid x) v (ef_ro x) (ef_noatime x) (ef_repair x).
Definition set_ef_ro (v : Z) (x : exfat) : exfat :=
  mk_exfat
    (ef_sb x) (ef_upcase x) (ef_cmap_start_cluster x) (ef_cmap_size x) (ef_cmap_chunk x)
    (ef_cmap_chunk_size x) (ef_cmap_dirty x) (ef_label x) (ef_dmask x) (ef_fmask x)
    (ef_uid x) (ef_gid x) v (ef_noatime x) (ef_repair x).
Definition set_ef_noatime (v : bool) (x : exfat) : exfat :=
  mk_exfat
    (ef_sb x) (ef_upcase x) (ef_cmap_start_cluster x) (ef_cmap_size x) (ef_cmap_chunk x)
    (ef_cmap_chunk_size x) (ef_cmap_dirty x) (ef_label x) (ef_dmask x) (ef_fmask x)
    (ef_uid x) (ef_gid x) (ef_ro x) v (ef_repair x).
Definition set_ef_repair (v : repair_mode) (x : exfat) : exfat :=
  mk_exfat
    (ef_sb x) (ef_upcase x) (ef_cmap_start_cluster x) (ef_cmap_size x) (ef_cmap_chunk x)
    (ef_cmap_chunk_size x) (ef_cmap_dirty x) (ef_label x) (ef_dmask x) (ef_fmask x)
    (ef_uid x) (ef_gid x) (ef_ro x) (ef_noatime x) v.

(** [struct exfat_node] *)
Record exfat_node : Type := mk_exfat_node {
  n_parent : option ptr;
  n_child : option ptr;
  n_next : option ptr;
  n_prev : option ptr;
  n_references : Z;
  n_fptr_index : Z;
  n_fptr_cluster : Z;
  n_entry_offset : Z;
  n_start_cluster : Z;
  n_attrib : Z;
  n_continuations : Z;
  n_is_contiguous : bool;
  n_is_cached : bool;
  n_is_dirty : bool;
  n_is_unlinked : bool;
  n_valid_size : Z;
  n_size : Z;
  n_mtime : Z;
  n_atime : Z;
  n_name : list Z
}.

Definition set_n_parent (v : option ptr) (x : exfat_node) : exfat_node :=
  mk_exfat_node
    v (n_child x) (n_next x) (n_prev x) (n_references x) (n_fptr_index x) (n_fptr_cluster x)
    (n_entry_offset x) (n_start_cluster x) (n_attrib x) (n_continuations x)
    (n_is_contiguous x) (n_is_cached x) (n_is_dirty x) (n_is_unlinked x) (n_valid_size x)
    (n_size x) (n_mtime x) (n_atime x) (n_name x).
Definition set_n_child (v : option ptr) (x : exfat_node) : exfat_node :=
  mk_exfat_node
    (n_parent x) v (n_next x) (n_prev x) (n_references x) (n_fptr_index x)
    (n_fptr_cluster x) (n_entry_offset x) (n_start_cluster x) (n_attrib x)
    (n_continuations x) (n_is_contiguous x) (n_is_cached x) (n_is_dirty x) (n_is_unlinked x)
    (n_valid_size x) (n_size x) (n_mtime x) (n_atime x) (n_name x).
Definition set_n_next (v : option ptr) (x : exfat_node) : exfat_node :=
  mk_exfat_node
    (n_parent x) (n_child x) v (n_prev x) (n_references x) (n_fptr_index x)
    (n_fptr_cluster x) (n_entry_offset x) (n_start_cluster x) (n_attrib x)
    (n_continuations x) (n_is_contiguous x) (n_is_cached x) (n_is_dirty x) (n_is_unlinked x)
    (n_valid_size x) (n_size x) (n_mtime x) (n_atime x) (n_name x).
Definition set_n_prev (v : option ptr) (x : exfat_node) : exfat_node :=
  mk_exfat_node
    (n_parent x) (n_child x) (n_next x) v (n_references x) (n_fptr_index x)
    (n_fptr_cluster x) (n_entry_offset x) (n_start_cluster x) (n_attrib x)
    (n_continuations x) (n_is_contiguous x) (n_is_cached x) (n_is_dirty x) (n_is_unlinked x)
    (n_valid_size x) (n_size x) (n_mtime x) (n_atime x) (n_name x).
Definition set_n_references (v : Z) (x : exfat_node) : exfat_node :=
  mk_exfat_node
    (n_parent x) (n_child x) (n_next x) (n_prev x) v (n_fptr_index x) (n_fptr_cluster x)
    (n_entry_offset x) (n_start_cluster x) (n_attrib x) (n_continuations x)
    (n_is_contiguous x) (n_is_cached x) (n_is_dirty x) (n_is_unlinked x) (n_valid_size x)
    (n_size x) (n_mtime x) (n_atime x) (n_name x).
Definition set_n_fptr_index (v : Z) (x : exfat_node) : exfat_node :=
  mk_exfat_node
    (n_parent x) (n_child x) (n_next x) (n_prev x) (n_references x) v (n_fptr_cluster x)
    (n_entry_offset x) (n_start_cluster x) (n_attrib x) (n_continuations x)
    (n_is_contiguous x) (n_is_cached x) (n_is_dirty x) (n_is_unlinked x) (n_valid_size x)
    (n_size x) (n_mtime x) (n_atime x) (n_name x).
Definition set_n_fptr_cluster (v : Z) (x : exfat_node) : exfat_node :=
  mk_exfat_node
    (n_parent x) (n_child x) (n_next x) (n_prev x) (n_references x) (n_fptr_index x) v
    (n_entry_offset x) (n_start_cluster x) (n_attrib x) (n_continuations x)
    (n_is_contiguous x) (n_is_cached x) (n_is_dirty x) (n_is_unlinked x) (n_valid_size x)
    (n_size x) (n_mtime x) (n_atime x) (n_name x).
Definition set_n_entry_offset (v : Z) (x : exfat_node) : exfat_node :=
  mk_exfat_node
    (n_parent x) (n_child x) (n_next x) (n_prev x) (n_references x) (n_fptr_index x)
    (n_fptr_cluster x) v (n_start_cluster x) (n_attrib x) (n_continuations x)
    (n_is_contiguous x) (n_is_cached x) (n_is_dirty x) (n_is_unlinked x) (n_valid_size x)
    (n_size x) (n_mtime x) (n_atime x) (n_name x).
Definition set_n_start_cluster (v : Z) (x : exfat_node) : exfat_node :=
  mk_exfat_node
    (n_parent x) (n_child x) (n_next x) (n_prev x) (n_references x) (n_fptr_index x)
    (n_fptr_cluster x) (n_entry_offset x) v (n_attrib x) (n_continuations x)
    (n_is_contiguous x) (n_is_cached x) (n_is_dirty x) (n_is_unlinked x) (n_valid_size x)
    (n_size x) (n_mtime x) (n_atime x) (n_name x).
Definition set_n_attrib (v : Z) (x : exfat_node) : exfat_node :=
  mk_exfat_node
    (n_parent x) (n_child x) (n_next x) (n_prev x) (n_references x) (n_fptr_index x)
    (n_fptr_cluster x) (n_entry_offset x) (n_start_cluster x) v (n_continuations x)
    (n_is_contiguous x) (n_is_cached x) (n_is_dirty x) (n_is_unlinked x) (n_valid_size x)
    (n_size x) (n_mtime x) (n_atime x) (n_name x).
Definition set_n_continuations (v : Z) (x : exfat_node) : exfat_node :=
  mk_exfat_node
    (n_parent x) (n_child x) (n_next x) (n_prev x) (n_references x) (n_fptr_index x)
    (n_fptr_cluster x) (n_entry_offset x) (n_start_cluster x) (n_attrib x) v
    (n_is_contiguous x) (n_is_cached x) (n_is_dirty x) (n_is_unlinked x) (n_valid_size x)
    (n_size x) (n_mtime x) (n_atime x) (n_name x).
Definition set_n_is_contiguous (v : bool) (x : exfat_node) : exfat_node :=
  mk_exfat_node
    (n_parent x) (n_child x) (n_next x) (n_prev x) (n_references x) (n_fptr_index x)
    (n_fptr_cluster x) (n_entry_offset x) (n_start_cluster x) (n_attrib x)
    (n_continuations x) v (n_is_cached x) (n_is_dirty x) (n_is_unlinked x) (n_valid_size x)
    (n_size x) (n_mtime x) (n_atime x) (n_name x).
Definition set_n_is_cached (v : bool) (x : exfat_node) : exfat_node :=
  mk_exfat_node
    (n_parent x) (n_child x) (n_next x) (n_prev x) (n_references x) (n_fptr_index x)
    (n_fptr_cluster x) (n_entry_offset x) (n_start_cluster x) (n_attrib x)
    (n_continuations x) (n_is_contiguous x) v (n_is_dirty x) (n_is_unlinked x)
    (n_valid_size x) (n_size x) (n_mtime x) (n_atime x) (n_name x).
Definition set_n_is_dirty (v : bool) (x : exfat_node) : exfat_node :=
  mk_exfat_node
    (n_parent x) (n_child x) (n_next x) (n_prev x) (n_references x) (n_fptr_index x)
    (n_fptr_cluster x) (n_entry_offset x) (n_start_cluster x) (n_attrib x)
    (n_continuations x) (n_is_contiguous x) (n_is_cached x) v (n_is_unlinked x)
    (n_valid_size x) (n_size x) (n_mtime x) (n_atime x) (n_name x).
Definition set_n_is_unlinked (v : bool) (x : exfat_node) : exfat_node :=
  mk_exfat_node
    (n_parent x) (n_child x) (n_next x) (n_prev x) (n_references x) (n_fptr_index x)
    (n_fptr_cluster x) (n_entry_offset x) (n_start_cluster x) (n_attrib x)
    (n_continuations x) (n_is_contiguous x) (n_is_cached x) (n_is_dirty x) v
    (n_valid_size x) (n_size x) (n_mtime x) (n_atime x) (n_name x).
Definition set_n_valid_size (v : Z) (x : exfat_node) : exfat_node :=
  mk_exfat_node
    (n_parent x) (n_child x) (n_next x) (n_prev x) (n_references x) (n_fptr_index x)
    (n_fptr_cluster x) (n_entry_offset x) (n_start_cluster x) (n_attrib x)
    (n_continuations x) (n_is_contiguous x) (n_is_cached x) (n_is_dirty x) (n_is_unlinked x)
    v (n_size x) (n_mtime x) (n_atime x) (n_name x).
Definition set_n_size (v : Z) (x : exfat_node) : exfat_node :=
  mk_exfat_node
    (n_parent x) (n_child x) (n_next x) (n_prev x) (n_references x) (n_fptr_index x)
    (n_fptr_cluster x) (n_entry_offset x) (n_start_cluster x) (n_attrib x)
    (n_continuations x) (n_is_contiguous x) (n_is_cached x) (n_is_dirty x) (n_is_unlinked x)
    (n_valid_size x) v (n_mtime x) (n_atime x) (n_name x).
Definition set_n_mtime (v : Z) (x : exfat_node) : exfat_node :=
  mk_exfat_node
    (n_parent x) (n_child x) (n_next x) (n_prev x) (n_references x) (n_fptr_index x)
    (n_fptr_cluster x) (n_entry_offset x) (n_start_cluster x) (n_attrib x)
    (n_continuations x) (n_is_contiguous x) (n_is_cached x) (n_is_dirty x) (n_is_unlinked x)
    (n_valid_size x) (n_size x) v (n_atime x) (n_name x).
Definition set_n_atime (v : Z) (x : exfat_node) : exfat_node :=
  mk_exfat_node
    (n_parent x) (n_child x) (n_next x) (n_prev x) (n_references x) (n_fptr_index x)
    (n_fptr_cluster x) (n_entry_offset x) (n_start_cluster x) (n_attrib x)
    (n_continuations x) (n_is_contiguous x) (n_is_cached x) (n_is_dirty x) (n_is_unlinked x)
    (n_valid_size x) (n_size x) (n_mtime x) v (n_name x).
Definition set_n_name (v : list Z) (x : exfat_node) : exfat_node :=
  mk_exfat_node
    (n_parent x) (n_child x) (n_next x) (n_prev x) (n_references x) (n_fptr_index x)
    (n_fptr_cluster x) (n_entry_offset x) (n_start_cluster x) (n_attrib x)
    (n_continuations x) (n_is_contiguous x) (n_is_cached x) (n_is_dirty x) (n_is_unlinked x)
    (n_valid_size x) (n_size x) (n_mtime x) (n_atime x) v.

(** The volume. *)
Record vol : Type := mk_vol {
  v_ef : exfat;
  v_os : env
}.

Definition set_v_ef (v : exfat) (x : vol) : vol :=
  mk_vol
    v (v_os x).
Definition set_v_os (v : env) (x : vol) : vol :=
  mk_vol
    (v_ef x) v.

(** A volume and one node of it. *)
Record nstate : Type := mk_nstate {
  s_vol : vol;
  s_node : exfat_node
}.

Definition set_s_vol (v : vol) (x : nstate) : nstate :=
  mk_nstate
    v (s_node x).
Definition set_s_node (v : exfat_node) (x : nstate) : nstate :=
  mk_nstate
    (s_vol x) v.

(** A volume and all of its nodes; the allocator takes its next address from [w_fresh]. *)
Record world : Type := mk_world {
  w_vol : vol;
  w_heap : gmap ptr exfat_node;
  w_root : option ptr;
  w_fresh : ptr
}.

Definition set_w_vol (v : vol) (x : world) : world :=
  mk_world
    v (w_heap x) (w_root x) (w_fresh x).
Definition set_w_heap (v : gmap ptr exfat_node) (x : world) : world :=
  mk_world
    (w_vol x) v (w_root x) (w_fresh x).
Definition set_w_root (v : option ptr) (x : world) : world :=
  mk_world
    (w_vol x) (w_heap x) v (w_fresh x).
Definition set_w_fresh (v : ptr) (x : world) : world :=
  mk_world
    (w_vol x) (w_heap x) (w_root x) v.

#[export] Instance vol_env : Part vol env.
Proof. refine {| part := v_os; set_part := set_v_os |}; [done | by intros [] | done]. Defined.
#[export] Instance vol_exfat : Part vol exfat.
Proof. refine {| part := v_ef; set_part := set_v_ef |}; [done | by intros [] | done]. Defined.
#[export] Instance nstate_vol : Part nstate vol.
Proof. refine {| part := s_vol; set_part := set_s_vol |}; [done | by intros [] | done]. Defined.
#[export] Instance nstate_node : Part nstate exfat_node.
Proof. refine {| part := s_node; set_part := set_s_node |}; [done | by intros [] | done]. Defined.
#[export] Instance world_vol : Part world vol.
Proof. refine {| part := w_vol; set_part := set_w_vol |}; [done | by intros [] | done]. Defined.

(** Shorthands for the parts of a node state. *)
Definition s_ef (s : nstate) : exfat := v_ef (s_vol s).
Definition s_os (s : nstate) : env := v_os (s_vol s).

(** ** Calls of the operating system *)

Definition exfat_pread (size offset : Z) : M env (option (list Z)) :=
  gets (fun e => if os_rfail e offset size then None else Some (mread (os_medium e) offset size)).

(** [true] stands for a result that is not negative. *)
Definition exfat_pwrite (data : list Z) (offset : Z) : M env bool := fun e =>
  if os_wfail e offset (zlen data) then Ok false e
  else Ok true (set_os_medium (mwrite (os_medium e) offset data) e).


(** [time(NULL)] *)
Definition time_now : M env Z := fun e =>
  Ok (os_clock e (os_ticks e)) (set_os_ticks (S (os_ticks e)) e).

(** Whether the next [malloc] succeeds. *)
Definition malloc_ok : M env bool := fun e =>
  Ok (negb (os_malloc_fails e (os_mallocs e))) (set_os_mallocs (S (os_mallocs e)) e).

Definition exfat_error : M env unit := modify (fun e => set_os_errors (os_errors e + 1) e).

Definition exfat_fsync : M env Z :=
  let! e := get_state in
  if os_fsync_fails e then exfat_error;; ret (- EIO) else ret 0.

Definition exfat_errors_fixed_bump : M env unit :=
  modify (fun e => set_os_errors_fixed (os_errors_fixed e + 1) e).

(** Run on the volume, or on the node, of a node state. *)
Definition on_os {A} (m : M env A) : M nstate A := on_part (on_part (S := vol) m).
Definition on_vol {A} (m : M vol A) : M nstate A := on_part m.
Definition set_node (f : exfat_node -> exfat_node) : M nstate unit :=
  modify (fun s => set_s_node (f (s_node s)) s).

Lemma on_os_ok {A} (m : M env A) s a e :
  m (s_os s) = Ok a e -> on_os m s = Ok a (set_s_vol (set_v_os e (s_vol s)) s).
Proof. unfold on_os, on_part, s_os. simpl. by intros ->. Qed.

Lemma on_os_same {A} (m : M env A) s a : m (s_os s) = Ok a (s_os s) -> on_os m s = Ok a s.
Proof. intros E. rewrite (on_os_ok _ _ _ _ E). by destruct s as [[]]. Qed.

Lemma on_vol_ok {A} (m : M vol A) s a v :
  m (s_vol s) = Ok a v -> on_vol m s = Ok a (set_s_vol v s).
Proof. unfold on_vol, on_part. simpl. by intros ->. Qed.

Lemma on_env_ok {A} (m : M env A) v a e :
  m (v_os v) = Ok a e -> on_part (S := vol) m v = Ok a (set_v_os e v).
Proof. unfold on_part. simpl. by intros ->. Qed.

(** Compute the parts of an updated node state. *)
Ltac nst :=
  repeat match goal with
  | |- context [s_vol (set_s_vol ?v ?s)] => change (s_vol (set_s_vol v s)) with v
  | |- context [s_node (set_s_vol ?v ?s)] => change (s_node (set_s_vol v s)) with (s_node s)
  | |- context [s_vol (set_s_node ?n ?s)] => change (s_vol (set_s_node n s)) with (s_vol s)
  | |- context [s_node (set_s_node ?n ?s)] => change (s_node (set_s_node n s)) with n
  end.

(** ** Time stamps of a node (libexfat/node.c) *)

Definition exfat_update_atime : M nstate unit :=
  let! now := on_os time_now in
  set_node (fun n => set_n_is_dirty true (set_n_atime now n)).

Definition exfat_update_mtime : M nstate unit :=
  let! now := on_os time_now in
  set_node (fun n => set_n_is_dirty true (set_n_mtime now n)).

Definition exfat_utimes (atime mtime : Z) : M nstate unit :=
  set_node (fun n => set_n_is_dirty true (set_n_mtime mtime (set_n_atime atime n))).

(** ** Nodes of the tree *)

(** [p->field]: the node at [p]; a null pointer, or one that was freed, stops
    the process. *)
Definition deref (p : option ptr) : M world exfat_node := fun w =>
  match p with
  | None => Halt BadPointer w
  | Some p =>
      match w_heap w !! p with
      | None => Halt BadPointer w
      | Some n => Ok n w
      end
  end.

Definition store (p : option ptr) (n : exfat_node) : M world unit := fun w =>
  match p with
  | None => Halt BadPointer w
  | Some p =>
      match w_heap w !! p with
      | None => Halt BadPointer w
      | Some _ => Ok tt (set_w_heap (<[p := n]> (w_heap w)) w)
      end
  end.

(** [p->field = ...] *)
Definition assign (p : option ptr) (f : exfat_node -> exfat_node) : M world unit :=
  let! n := deref p in store p (f n).

(** Run a function that works on one node on the node at [p]. *)
Definition with_node {A} (p : option ptr) (m : M nstate A) : M world A := fun w =>
  match deref p w with
  | Ok n w =>
      match m (mk_nstate (w_vol w) n) with
      | Ok a s =>
          match store p (s_node s) (set_w_vol (s_vol s) w) with
          | Ok _ w => Ok a w
          | Halt r w => Halt r w
          | Diverge => Diverge
          end
      | Halt r s => Halt r (set_w_vol (s_vol s) w)
      | Diverge => Diverge
      end
  | Halt r w => Halt r w
  | Diverge => Diverge
  end.
