(* ===== verification/Checksum.v ===== *)
(** * Checksum: the three rolling checksums of exFAT (libexfat/utils.c)

    A 16-bit checksum over the entries of a file, a 32-bit checksum over the
    volume boot record, and the 16-bit hash of a file name.  All three rotate
    the running sum right by one bit and add a byte.  The theorems say what
    the format needs of them: the bytes that are excluded do not matter, and
    a change of any other single byte is always noticed. *)

From Stdlib Require Import ZArith Lia.
From stdpp Require Import base numbers list.
From S2P Require Import Prelude Bytes Ondisk.

#[local] Open Scope Z_scope.

(** ** Definitions *)

Definition add_checksum_byte (sum byte : Z) : Z :=
  u16 (Z.lor (Z.shiftl sum 15) (Z.shiftr sum 1) + byte).

Fixpoint add_checksum_bytes (sum : Z) (buffer : list Z) : Z :=
  match buffer with
  | [] => sum
  | b :: buffer => add_checksum_bytes (add_checksum_byte sum b) buffer
  end.

(** The loop of [exfat_start_checksum] from index [i]. *)
Fixpoint start_checksum_loop (sum i : Z) (entry : list Z) : Z :=
  match entry with
  | [] => sum
  | b :: entry =>
      let sum := if negb (i =? 2) && negb (i =? 3) then add_checksum_byte sum b else sum in
      start_checksum_loop sum (i + 1) entry
  end.

Definition exfat_start_checksum (entry : exfat_entry) : Z := start_checksum_loop 0 0 entry.

Definition exfat_add_checksum (entry : exfat_entry) (sum : Z) : Z :=
  add_checksum_bytes sum entry.

(** [entries] is never empty where the code calls it. *)
Definition exfat_calc_checksum (entries : list exfat_entry) : Z :=
  match entries with
  | [] => 0
  | e0 :: entries =>
      foldl (fun checksum e => exfat_add_checksum e checksum) (exfat_start_checksum e0) entries
  end.

(** One step of the 32-bit checksums. *)
Definition vbr_step (sum byte : Z) : Z :=
  u32 (Z.lor (u32 (Z.shiftl sum 31)) (Z.shiftr sum 1) + byte).

(** The loop of [exfat_vbr_start_checksum] from index [i]. *)
Fixpoint vbr_start_loop (sum i : Z) (sector : list Z) : Z :=
  match sector with
  | [] => sum
  | b :: sector =>
      let sum :=
        if negb (i =? 0x6a) && negb (i =? 0x6b) && negb (i =? 0x70)
        then vbr_step sum b else sum in
      vbr_start_loop sum (i + 1) sector
  end.

Definition exfat_vbr_start_checksum (sector : list Z) : Z := vbr_start_loop 0 0 sector.

Definition exfat_vbr_add_checksum (sector : list Z) (sum : Z) : Z := foldl vbr_step sum sector.

Definition hash_step (hash x : Z) : Z :=
  u16 (Z.lor (Z.shiftl hash 15) (Z.shiftr hash 1) + x).

(** [exfat_calc_name_hash] over the first [length] units of [name]. *)
Definition exfat_calc_name_hash (upcase : list Z) (name : list Z) (length : Z) : Z :=
  foldl (fun hash c =>
           let c := znth upcase c in
           hash_step (hash_step hash (Z.land c 0xff)) (Z.shiftr c 8))
        0 (sub name 0 length).

(** ** A rotation and an addition *)

(** Rotation right by one bit of a [w]-bit value. *)
Definition ror (w x : Z) : Z := x / 2 + (x mod 2) * 2 ^ (w - 1).

Lemma pow2_double w : 1 <= w -> 2 ^ w = 2 * 2 ^ (w - 1).
Proof. intros. rewrite <- Z.pow_succ_r by lia. f_equal. lia. Qed.

Lemma ror_range w x : 1 <= w -> in_u w x -> in_u w (ror w x).
Proof.
  unfold in_u, ror. intros Hw Hx. rewrite (pow2_double w Hw) in *.
  destruct (Z.mod_pos_bound x 2) as [? ?]; [lia |].
  assert (x mod 2 = 0 \/ x mod 2 = 1) as [-> | ->] by lia; to_equations; lia.
Qed.

Lemma ror_inj w x y : 1 <= w -> in_u w x -> in_u w y -> ror w x = ror w y -> x = y.
Proof.
  unfold in_u, ror. intros Hw Hx Hy. rewrite (pow2_double w Hw) in *.
  generalize dependent (2 ^ (w - 1)). intros P Hx Hy.
  pose proof (Z.div_mod x 2). pose proof (Z.div_mod y 2).
  destruct (Z.mod_pos_bound x 2) as [? ?]; [lia |].
  destruct (Z.mod_pos_bound y 2) as [? ?]; [lia |].
  assert (x mod 2 = 0 \/ x mod 2 = 1) as [Ex | Ex] by lia;
  assert (y mod 2 = 0 \/ y mod 2 = 1) as [Ey | Ey] by lia; rewrite Ex, Ey in *; lia.
Qed.

Lemma add_checksum_byte_ror sum b :
  in_u 16 sum -> add_checksum_byte sum b = u16 (ror 16 sum + b).
Proof.
  unfold in_u, add_checksum_byte, ror, u16. intros Hs.
  rewrite Z.shiftr_div_pow2, lor_shift_add by (to_equations; lia).
  change (2 ^ 1) with 2. change (16 - 1) with 15.
  replace (sum * 2 ^ 15 + sum / 2 + b)
    with (sum / 2 + sum mod 2 * 2 ^ 15 + b + (sum / 2) * 2 ^ 16)
    by (to_equations; lia).
  by rewrite Z.mod_add.
Qed.

Lemma vbr_step_ror sum b : in_u 32 sum -> vbr_step sum b = u32 (ror 32 sum + b).
Proof.
  unfold in_u, vbr_step, ror, u32. intros Hs.
  rewrite Z.shiftr_div_pow2, (Z.shiftl_mul_pow2 sum) by lia.
  change (2 ^ 1) with 2. change (32 - 1) with 31.
  replace (sum * 2 ^ 31 mod 2 ^ 32) with (Z.shiftl (sum mod 2) 31)
    by (rewrite Z.shiftl_mul_pow2 by lia; to_equations; lia).
  rewrite lor_shift_add by (to_equations; lia). f_equal. lia.
Qed.

Lemma add_checksum_byte_range sum b : in_u 16 (add_checksum_byte sum b).
Proof. apply u16_range. Qed.

Lemma vbr_step_range sum b : in_u 32 (vbr_step sum b).
Proof. apply u32_range. Qed.

(** A step separates two sums and two bytes. *)
Section injective_step.
Context (w : Z) (step : Z -> Z -> Z).
Hypothesis w_range : 8 <= w.
Hypothesis step_ror :
  forall sum b, in_u w sum -> step sum b = (ror w sum + b) mod 2 ^ w.

Lemma pow2_w_ge : 256 <= 2 ^ w.
Proof using w_range. change 256 with (2 ^ 8). apply Z.pow_le_mono_r; lia. Qed.

Lemma step_inj_sum s1 s2 b :
  in_u w s1 -> in_u w s2 -> step s1 b = step s2 b -> s1 = s2.
Proof using w_range step_ror.
  intros H1 H2. rewrite !step_ror by done. intros H.
  pose proof (ror_range w s1 ltac:(lia) H1) as R1.
  pose proof (ror_range w s2 ltac:(lia) H2) as R2.
  pose proof pow2_w_ge. unfold in_u in R1, R2.
  apply (ror_inj w); [lia | done | done |].
  apply mod_close in H; lia.
Qed.

Lemma step_inj_byte s b1 b2 :
  in_u w s -> is_byte b1 -> is_byte b2 -> step s b1 = step s b2 -> b1 = b2.
Proof using w_range step_ror.
  intros Hs H1 H2. rewrite !step_ror by done. intros H.
  pose proof pow2_w_ge. unfold is_byte in *. apply mod_close in H; lia.
Qed.

Lemma foldl_step_range s bs :
  (forall s b, in_u w (step s b)) -> in_u w s -> in_u w (foldl step s bs).
Proof using. intros Hr. revert s. induction bs; simpl; auto. Qed.

Lemma foldl_step_inj s1 s2 bs :
  (forall s b, in_u w (step s b)) ->
  in_u w s1 -> in_u w s2 -> foldl step s1 bs = foldl step s2 bs -> s1 = s2.
Proof using w_range step_ror.
  intros Hr. revert s1 s2. induction bs as [| b bs IH]; simpl; intros s1 s2 H1 H2 H; [done |].
  apply (step_inj_sum _ _ b); auto.
Qed.

(** One changed byte changes the sum. *)
Lemma foldl_step_detects s l b1 b2 r :
  (forall s b, in_u w (step s b)) ->
  in_u w s -> is_byte b1 -> is_byte b2 ->
  foldl step s (l ++ b1 :: r) = foldl step s (l ++ b2 :: r) -> b1 = b2.
Proof using w_range step_ror.
  intros Hr Hs H1 H2. rewrite !foldl_app. simpl. intros H.
  apply foldl_step_inj in H; auto.
  apply (step_inj_byte (foldl step s l)); auto. by apply foldl_step_range.
Qed.
End injective_step.

Lemma add_checksum_bytes_foldl sum bs :
  add_checksum_bytes sum bs = foldl add_checksum_byte sum bs.
Proof. revert sum. induction bs; simpl; auto. Qed.

(** ** Skipping the excluded bytes

    Both start functions are a fold over the bytes that are not excluded. *)

(** The bytes of [l] whose index, counted from [i], is kept. *)
Fixpoint kept (keep : Z -> bool) (i : Z) (l : list Z) : list Z :=
  match l with
  | [] => []
  | b :: l => if keep i then b :: kept keep (i + 1) l else kept keep (i + 1) l
  end.

Definition entry_keep (i : Z) : bool := negb (i =? 2) && negb (i =? 3).
Definition vbr_keep (i : Z) : bool :=
  negb (i =? 0x6a) && negb (i =? 0x6b) && negb (i =? 0x70).

Lemma start_checksum_loop_kept sum i e :
  start_checksum_loop sum i e = foldl add_checksum_byte sum (kept entry_keep i e).
Proof.
  revert sum i. induction e as [| b e IH]; intros sum i; [done |]. simpl.
  unfold entry_keep at 1. destruct (negb (i =? 2) && negb (i =? 3)); simpl; apply IH.
Qed.

Lemma vbr_start_loop_kept sum i s :
  vbr_start_loop sum i s = foldl vbr_step sum (kept vbr_keep i s).
Proof.
  revert sum i. induction s as [| b s IH]; intros sum i; [done |]. simpl.
  unfold vbr_keep at 1.
  destruct (negb (i =? 0x6a) && negb (i =? 0x6b) && negb (i =? 0x70)); simpl; apply IH.
Qed.

Lemma kept_app keep i l k : kept keep i (l ++ k) = kept keep i l ++ kept keep (i + zlen l) k.
Proof.
  revert i. induction l as [| b l IH]; intros i; simpl.
  - by rewrite zlen_nil, Z.add_0_r.
  - rewrite zlen_cons, IH. rewrite Z.add_assoc. by destruct (keep i).
Qed.

(** Buffers that agree on the kept indices have the same kept bytes. *)
Lemma kept_ext keep i l k :
  length l = length k ->
  (forall j, 0 <= j < zlen l -> keep (i + j) = true -> znth l j = znth k j) ->
  kept keep i l = kept keep i k.
Proof.
  revert i k. induction l as [| b l IH]; intros i [| c k] Hlen H; try done. simpl in *.
  assert (Ht : kept keep (i + 1) l = kept keep (i + 1) k).
  { apply IH; [lia |]. intros j Hj Hk. specialize (H (1 + j)).
    rewrite zlen_cons in H. unfold znth in *. destruct (Z.ltb_spec (1 + j) 0), (Z.ltb_spec j 0); try lia.
    replace (Z.to_nat (1 + j)) with (S (Z.to_nat j)) in H by lia. simpl in H.
    apply H; [lia |]. by replace (i + (1 + j)) with (i + 1 + j) by lia. }
  rewrite Ht. destruct (keep i) eqn:E; [| done]. f_equal.
  specialize (H 0). rewrite zlen_cons, Z.add_0_r in H. apply H; [| done].
  pose proof (zlen_nonneg l). lia.
Qed.

(** ** The checksum of an entry set *)

Definition entries_ok (entries : list exfat_entry) : Prop :=
  Forall (fun e => zlen e = ENTRY_SIZE /\ bytes_ok e) entries.

Lemma kept_all keep i l :
  (forall j, i <= j -> keep j = true) -> kept keep i l = l.
Proof.
  intros H. revert i H. induction l as [| b l IH]; intros i H; [done |]. simpl.
  rewrite (H i), IH by (lia || (intros; apply H; lia)). done.
Qed.

Lemma entry_keep_ge j : 4 <= j -> entry_keep j = true.
Proof.
  intros. unfold entry_keep. destruct (Z.eqb_spec j 2), (Z.eqb_spec j 3); simpl; lia || done.
Qed.

(** The checksum folds the kept bytes of the whole entry set. *)
Lemma calc_checksum_kept entries :
  entries_ok entries ->
  exfat_calc_checksum entries = foldl add_checksum_byte 0 (kept entry_keep 0 (concat entries)).
Proof.
  intros H. destruct H as [| e0 es [He0 _] Hes]; [done |]. simpl.
  unfold exfat_start_checksum. rewrite start_checksum_loop_kept, kept_app.
  rewrite (kept_all _ (0 + zlen e0)); cycle 1.
  { rewrite He0. intros j Hj. apply entry_keep_ge. unfold ENTRY_SIZE in *. lia. }
  rewrite foldl_app. generalize (foldl add_checksum_byte 0 (kept entry_keep 0 e0)) as s.
  clear. intros s. revert s. induction es as [| e es IH]; intros s; [done |]. simpl.
  unfold exfat_add_checksum at 2. rewrite add_checksum_bytes_foldl, foldl_app. apply IH.
Qed.

(** The checksum of an entry set catches the corruption of any single byte
    of it other than the two bytes of the checksum field itself: two entry
    sets whose bytes differ in exactly one such place have different
    checksums (exfat_calc_checksum, utils.c). *)
Theorem calc_checksum_detects es1 es2 l b1 b2 r :
  entries_ok es1 -> entries_ok es2 ->
  concat es1 = l ++ b1 :: r -> concat es2 = l ++ b2 :: r ->
  zlen l <> 2 -> zlen l <> 3 -> is_byte b1 -> is_byte b2 -> b1 <> b2 ->
  exfat_calc_checksum es1 <> exfat_calc_checksum es2.
Proof.
  intros H1 H2 E1 E2 N2 N3 B1 B2 Hne Heq. apply Hne.
  rewrite !calc_checksum_kept, E1, E2, !kept_app in Heq by done.
  rewrite !Z.add_0_l in Heq. simpl in Heq.
  assert (Hk : entry_keep (zlen l) = true).
  { unfold entry_keep. by destruct (Z.eqb_spec (zlen l) 2), (Z.eqb_spec (zlen l) 3). }
  rewrite Hk in Heq.
  refine (foldl_step_detects 16 add_checksum_byte ltac:(lia) add_checksum_byte_ror
            0 _ b1 b2 _ add_checksum_byte_range _ B1 B2 Heq).
  unfold in_u; lia.
Qed.

(** A file entry of 32 bytes whose checksum field is 0, its last byte [x]. *)
Definition sample_entry (x : Z) : exfat_entry := [0x85; 2; 0; 0] ++ zrepeat 7 27 ++ [x].

Lemma calc_checksum_detects_witness :
  exfat_calc_checksum [sample_entry 1] <> exfat_calc_checksum [sample_entry 2].
Proof.
  apply (calc_checksum_detects [sample_entry 1] [sample_entry 2]
           ([0x85; 2; 0; 0] ++ zrepeat 7 27) 1 2 []);
    try (repeat constructor; vm_compute; congruence || intuition congruence);
    try reflexivity; try (vm_compute; congruence);
    try (unfold is_byte; lia).
Defined.

(** The checksum field may hold anything: it does not enter the sum. *)
Lemma calc_checksum_skips_field e0 e0' es :
  zlen e0 = ENTRY_SIZE -> zlen e0' = ENTRY_SIZE ->
  (forall j, 0 <= j < ENTRY_SIZE -> j <> 2 -> j <> 3 -> znth e0 j = znth e0' j) ->
  exfat_calc_checksum (e0 :: es) = exfat_calc_checksum (e0' :: es).
Proof.
  intros H H' Hj. simpl. unfold exfat_start_checksum.
  rewrite !start_checksum_loop_kept. do 2 f_equal.
  apply kept_ext; [unfold zlen in *; lia |].
  intros j Hr Hk. apply Hj; [lia | |]; intros ->; discriminate.
Qed.

(** ** The checksum of the volume boot record *)

(** [verify_vbr_checksum] and [vbr_write] accumulate it over sectors. *)
Definition vbr_checksum (sectors : list (list Z)) : Z :=
  match sectors with
  | [] => 0
  | s0 :: sectors =>
      foldl (fun sum s => exfat_vbr_add_checksum s sum) (exfat_vbr_start_checksum s0) sectors
  end.

Lemma vbr_checksum_kept s0 ss :
  0x71 <= zlen s0 ->
  vbr_checksum (s0 :: ss) = foldl vbr_step 0 (kept vbr_keep 0 (concat (s0 :: ss))).
Proof.
  intros Hs. simpl. unfold exfat_vbr_start_checksum.
  rewrite vbr_start_loop_kept, kept_app, (kept_all _ (0 + zlen s0)); cycle 1.
  { intros j Hj. unfold vbr_keep.
    destruct (Z.eqb_spec j 0x6a), (Z.eqb_spec j 0x6b), (Z.eqb_spec j 0x70); simpl; lia || done. }
  rewrite foldl_app. generalize (foldl vbr_step 0 (kept vbr_keep 0 s0)) as s.
  clear. intros s. revert s. induction ss as [| e ss IH]; intros s; [done |]. simpl.
  unfold exfat_vbr_add_checksum at 2. rewrite foldl_app. apply IH.
Qed.

(** The volume boot record checksum does not depend on the volume state
    and allocated percent fields (bytes 0x6a, 0x6b and 0x70), which change
    while the volume is mounted: super blocks that differ only there have the
    same checksum (exfat_vbr_start_checksum, exfat_vbr_add_checksum). *)
Theorem vbr_checksum_skips_state s0 s0' ss :
  zlen s0 = zlen s0' -> 0x71 <= zlen s0 ->
  (forall j, 0 <= j < zlen s0 -> vbr_keep j = true -> znth s0 j = znth s0' j) ->
  vbr_checksum (s0 :: ss) = vbr_checksum (s0' :: ss).
Proof.
  intros Hl Hs Hj. rewrite !vbr_checksum_kept by lia. simpl. rewrite !kept_app, Hl.
  by rewrite (kept_ext vbr_keep 0 s0 s0') by (unfold zlen in *; auto; lia).
Qed.

Lemma vbr_checksum_skips_state_witness :
  vbr_checksum [zrepeat 5 512; zrepeat 9 512] =
  vbr_checksum [zset (zset (zrepeat 5 512) 0x6a 2) 0x70 50; zrepeat 9 512].
Proof.
  apply (vbr_checksum_skips_state (zrepeat 5 512)); [reflexivity | vm_compute; congruence |].
  intros j Hj Hk. change (zlen (zrepeat 5 512)) with 512 in Hj.
  rewrite !znth_zset by (rewrite ?zlen_zset, zlen_zrepeat; rewrite ?zlen_zrepeat; lia).
  case_decide; [subst; discriminate |]. case_decide; [subst; discriminate | done].
Defined.

(** a change of any single byte of the eleven boot sectors other than those
    three changes the checksum, so a mount notices it. *)
Theorem vbr_checksum_detects s0 ss s0' ss' l b1 b2 r :
  0x71 <= zlen s0 -> 0x71 <= zlen s0' ->
  concat (s0 :: ss) = l ++ b1 :: r -> concat (s0' :: ss') = l ++ b2 :: r ->
  vbr_keep (zlen l) = true -> is_byte b1 -> is_byte b2 -> b1 <> b2 ->
  vbr_checksum (s0 :: ss) <> vbr_checksum (s0' :: ss').
Proof.
  intros L1 L2 E1 E2 Hk B1 B2 Hne Heq. apply Hne.
  rewrite !vbr_checksum_kept, E1, E2, !kept_app in Heq by done.
  rewrite !Z.add_0_l in Heq. simpl in Heq.
  rewrite Hk in Heq.
  refine (foldl_step_detects 32 vbr_step ltac:(lia) vbr_step_ror
            0 _ b1 b2 _ vbr_step_range _ B1 B2 Heq).
  unfold in_u; lia.
Qed.

Lemma vbr_checksum_detects_witness :
  vbr_checksum [zrepeat 5 512; [1]] <> vbr_checksum [zrepeat 5 512; [2]].
Proof.
  apply (vbr_checksum_detects (zrepeat 5 512) [[1]] (zrepeat 5 512) [[2]]
           (zrepeat 5 512) 1 2 []);
    first [reflexivity | vm_compute; congruence | unfold is_byte; lia].
Defined.
