(* ===== verification/Utf.v ===== *)
(** * Utf: UTF-8 and UTF-16 conversion (libexfat/utf.c)

    A [wchar_t] is a [Z]; a pointer that advances over a buffer is the list of
    what is left of it; a conversion returns its return code and the units it
    stored.  [None] is the null pointer. *)

From Stdlib Require Import ZArith Lia.
From stdpp Require Import base numbers list.
From S2P Require Import Prelude Bytes.

#[local] Open Scope Z_scope.

(** ** Definitions *)

Definition EXFAT_NAME_MAX : Z := 255.
Definition EXFAT_UTF8_NAME_BUFFER_MAX : Z := EXFAT_NAME_MAX * 3 + 1.
Definition EXFAT_UTF8_ENAME_BUFFER_MAX : Z := 15 * 3 + 1.

(** The bytes stored for [wc], or null when they do not fit in [outsize]. *)
Definition wchar_to_utf8 (wc outsize : Z) : option (list Z) :=
  if wc <=? 0x7f then
    if outsize <? 1 then None else Some [u8 wc]
  else if wc <=? 0x7ff then
    if outsize <? 2 then None
    else Some [u8 (Z.lor 0xc0 (Z.shiftr wc 6)); u8 (Z.lor 0x80 (Z.land wc 0x3f))]
  else if wc <=? 0xffff then
    if outsize <? 3 then None
    else Some [u8 (Z.lor 0xe0 (Z.shiftr wc 12));
               u8 (Z.lor 0x80 (Z.land (Z.shiftr wc 6) 0x3f));
               u8 (Z.lor 0x80 (Z.land wc 0x3f))]
  else if wc <=? 0x1fffff then
    if outsize <? 4 then None
    else Some [u8 (Z.lor 0xf0 (Z.shiftr wc 18));
               u8 (Z.lor 0x80 (Z.land (Z.shiftr wc 12) 0x3f));
               u8 (Z.lor 0x80 (Z.land (Z.shiftr wc 6) 0x3f));
               u8 (Z.lor 0x80 (Z.land wc 0x3f))]
  else if wc <=? 0x3ffffff then
    if outsize <? 5 then None
    else Some [u8 (Z.lor 0xf8 (Z.shiftr wc 24));
               u8 (Z.lor 0x80 (Z.land (Z.shiftr wc 18) 0x3f));
               u8 (Z.lor 0x80 (Z.land (Z.shiftr wc 12) 0x3f));
               u8 (Z.lor 0x80 (Z.land (Z.shiftr wc 6) 0x3f));
               u8 (Z.lor 0x80 (Z.land wc 0x3f))]
  else if wc <=? 0x7fffffff then
    if outsize <? 6 then None
    else Some [u8 (Z.lor 0xfc (Z.shiftr wc 30));
               u8 (Z.lor 0x80 (Z.land (Z.shiftr wc 24) 0x3f));
               u8 (Z.lor 0x80 (Z.land (Z.shiftr wc 18) 0x3f));
               u8 (Z.lor 0x80 (Z.land (Z.shiftr wc 12) 0x3f));
               u8 (Z.lor 0x80 (Z.land (Z.shiftr wc 6) 0x3f));
               u8 (Z.lor 0x80 (Z.land wc 0x3f))]
  else None.

(** The code point at the head of [input] and the rest of it. *)
Definition utf16_to_wchar (input : list Z) : option (Z * list Z) :=
  match input with
  | [] => None
  | u0 :: rest =>
      if Z.land u0 0xfc00 =? 0xd800 then
        match rest with
        | [] => None
        | u1 :: rest =>
            if negb (Z.land u1 0xfc00 =? 0xdc00) then None
            else Some (Z.lor (Z.shiftl (Z.land u0 0x3ff) 10) (Z.land u1 0x3ff) + 0x10000, rest)
        end
      else Some (u0, rest)
  end.

(** The loop of [exfat_utf16_to_utf8]; [fuel] bounds its turns, [room] is
    [oend - optr], [stored] what was stored.  A turn consumes a unit, so one
    turn per unit is enough. *)
Fixpoint utf16_to_utf8_loop (fuel : nat) (iptr : list Z) (room : Z) (stored : list Z)
  : Z * list Z :=
  match iptr with
  | [] =>
      if room <=? 0 then (- ENAMETOOLONG, stored) else (0, stored ++ [0])
  | _ :: _ =>
      match fuel with
      | O => (- EILSEQ, stored)
      | S fuel =>
          match utf16_to_wchar iptr with
          | None => (- EILSEQ, stored)
          | Some (wc, iptr) =>
              match wchar_to_utf8 wc room with
              | None => (- ENAMETOOLONG, stored)
              | Some bs =>
                  if wc =? 0 then (0, stored ++ bs)
                  else utf16_to_utf8_loop fuel iptr (room - zlen bs) (stored ++ bs)
              end
          end
      end
  end.

Definition exfat_utf16_to_utf8 (input : list Z) (outsize insize : Z) : Z * list Z :=
  let iptr := sub input 0 insize in
  utf16_to_utf8_loop (length iptr) iptr outsize [].

(** The continuation bytes of a sequence: the loop of [utf8_to_wchar] over
    [i], [n = size - i] bytes being left. *)
Fixpoint utf8_continuation (wc : Z) (n : nat) (input : list Z) : option (Z * list Z) :=
  match n with
  | O => Some (wc, input)
  | S n =>
      match input with
      | [] => None
      | b :: input =>
          if negb (Z.land b 0xc0 =? 0x80) then None
          else utf8_continuation
                 (Z.lor wc (Z.shiftl (Z.land b 0x3f) (Z.of_nat n * 6))) n input
      end
  end.

(** [None] also stands for [insize = 0], which the caller excludes. *)
Definition utf8_to_wchar (input : list Z) : option (Z * list Z) :=
  match input with
  | [] => None
  | b :: rest =>
      let more wc size :=
        if zlen input <? Z.of_nat size then None
        else utf8_continuation wc (size - 1) rest in
      if Z.land b 0x80 =? 0 then Some (b, rest)
      else if Z.land b 0xe0 =? 0xc0 then more (Z.shiftl (Z.land b 0x1f) 6) 2%nat
      else if Z.land b 0xf0 =? 0xe0 then more (Z.shiftl (Z.land b 0x0f) 12) 3%nat
      else if Z.land b 0xf8 =? 0xf0 then more (Z.shiftl (Z.land b 0x07) 18) 4%nat
      else if Z.land b 0xfc =? 0xf8 then more (Z.shiftl (Z.land b 0x03) 24) 5%nat
      else if Z.land b 0xfe =? 0xfc then more (Z.shiftl (Z.land b 0x01) 30) 6%nat
      else None
  end.

Definition wchar_to_utf16 (wc outsize : Z) : option (list Z) :=
  if wc <=? 0xffff then
    if outsize =? 0 then None else Some [u16 wc]
  else if outsize <? 2 then None
  else
    let wc := wc - 0x10000 in
    Some [u16 (Z.lor 0xd800 (Z.land (Z.shiftr wc 10) 0x3ff));
          u16 (Z.lor 0xdc00 (Z.land wc 0x3ff))].

Fixpoint utf8_to_utf16_loop (fuel : nat) (iptr : list Z) (room : Z) (stored : list Z)
  : Z * list Z :=
  let finish room stored :=
    if room <=? 0 then (- ENAMETOOLONG, stored) else (0, stored ++ [0]) in
  match iptr with
  | [] => finish room stored
  | _ :: _ =>
      match fuel with
      | O => (- EILSEQ, stored)
      | S fuel =>
          match utf8_to_wchar iptr with
          | None => (- EILSEQ, stored)
          | Some (wc, iptr) =>
              match wchar_to_utf16 wc room with
              | None => (- ENAMETOOLONG, stored)
              | Some us =>
                  if wc =? 0 then finish (room - zlen us) (stored ++ us)
                  else utf8_to_utf16_loop fuel iptr (room - zlen us) (stored ++ us)
              end
          end
      end
  end.

Definition exfat_utf8_to_utf16 (input : list Z) (outsize insize : Z) : Z * list Z :=
  let iptr := sub input 0 insize in
  utf8_to_utf16_loop (length iptr) iptr outsize [].

Fixpoint exfat_utf16_length (str : list Z) : Z :=
  match str with
  | [] => 0
  | u :: str => if u =? 0 then 0 else 1 + exfat_utf16_length str
  end.

(** ** Well-formed names

    A name is a sequence of code points; [name_units] is its UTF-16 form and
    [name_bytes] its UTF-8 form. *)

(** All but the lead surrogates, which need a trail behind them; a trail that no lead
    goes before is a code point of its own for the conversions. *)
Definition code_point (c : Z) : Prop :=
  0 < c <= 0x10ffff /\ ~ 0xd800 <= c < 0xdc00.

Definition units_of (c : Z) : list Z :=
  if c <=? 0xffff then [c]
  else [0xd800 + (c - 0x10000) / 1024; 0xdc00 + (c - 0x10000) mod 1024].

Definition utf8_of (c : Z) : list Z :=
  if c <=? 0x7f then [c]
  else if c <=? 0x7ff then [0xc0 + c / 64; 0x80 + c mod 64]
  else if c <=? 0xffff then [0xe0 + c / 4096; 0x80 + c / 64 mod 64; 0x80 + c mod 64]
  else [0xf0 + c / 262144; 0x80 + c / 4096 mod 64; 0x80 + c / 64 mod 64; 0x80 + c mod 64].

Definition name_units (cs : list Z) : list Z := cs ≫= units_of.
Definition name_bytes (cs : list Z) : list Z := cs ≫= utf8_of.

(** The code points of a name; [None] when a lead surrogate has no trail. *)
Fixpoint code_points (units : list Z) : option (list Z) :=
  match units with
  | [] => Some []
  | u :: units =>
      if (0xd800 <=? u) && (u <? 0xdc00) then
        match units with
        | [] => None
        | t :: units =>
            if (0xdc00 <=? t) && (t <? 0xe000)
            then cons (0x10000 + (u - 0xd800) * 1024 + (t - 0xdc00)) <$> code_points units
            else None
        end
      else cons u <$> code_points units
  end.

(** A unit of a name: 16 bits, and not the terminator. *)
Definition name_unit (u : Z) : Prop := 0 < u < 2 ^ 16.

(** ** One code point *)

(** Facts about single bytes, by enumeration of the [n] values from [lo]. *)
Ltac by_enumeration lo n :=
  match goal with
  | |- forall x, _ -> @?L x = true =>
      apply (zseq_forallb L lo n); vm_compute; reflexivity
  | |- forall x, _ -> @?L x = @?R x =>
      let H := fresh in
      intros x H; first [apply Z.eqb_eq | apply eqb_prop]; revert x H;
      apply (zseq_forallb _ lo n); vm_compute; reflexivity
  end.

Lemma lor_head_c0 : forall x, 0 <= x < 32 -> Z.lor 0xc0 x = 0xc0 + x.
Proof. by_enumeration 0 32. Qed.

Lemma lor_head_e0 : forall x, 0 <= x < 16 -> Z.lor 0xe0 x = 0xe0 + x.
Proof. by_enumeration 0 16. Qed.

Lemma lor_head_f0 : forall x, 0 <= x < 8 -> Z.lor 0xf0 x = 0xf0 + x.
Proof. by_enumeration 0 8. Qed.

Lemma lor_tail_80 : forall x, 0 <= x < 64 -> Z.lor 0x80 x = 0x80 + x.
Proof. by_enumeration 0 64. Qed.

Lemma land_3f x : Z.land x 0x3f = x mod 64.
Proof. exact (land_low x 6 ltac:(lia)). Qed.

Lemma mask_80 : forall b, 0 <= b < 0 + 256 -> (Z.land b 0x80 =? 0) = (b <? 0x80).
Proof. by_enumeration 0 256. Qed.

Lemma mask_e0 : forall b, 0 <= b < 0 + 256 -> (Z.land b 0xe0 =? 0xc0) = (0xc0 <=? b) && (b <? 0xe0).
Proof. by_enumeration 0 256. Qed.

Lemma mask_f0 : forall b, 0 <= b < 0 + 256 -> (Z.land b 0xf0 =? 0xe0) = (0xe0 <=? b) && (b <? 0xf0).
Proof. by_enumeration 0 256. Qed.

Lemma mask_f8 : forall b, 0 <= b < 0 + 256 -> (Z.land b 0xf8 =? 0xf0) = (0xf0 <=? b) && (b <? 0xf8).
Proof. by_enumeration 0 256. Qed.

Lemma mask_c0 : forall b, 0 <= b < 0 + 256 -> (Z.land b 0xc0 =? 0x80) = (0x80 <=? b) && (b <? 0xc0).
Proof. by_enumeration 0 256. Qed.

Lemma low_1f : forall x, 0 <= x < 32 -> Z.land (0xc0 + x) 0x1f = x.
Proof. by_enumeration 0 32. Qed.

Lemma low_0f : forall x, 0 <= x < 16 -> Z.land (0xe0 + x) 0x0f = x.
Proof. by_enumeration 0 16. Qed.

Lemma low_07 : forall x, 0 <= x < 8 -> Z.land (0xf0 + x) 0x07 = x.
Proof. by_enumeration 0 8. Qed.

Lemma low_3f : forall x, 0 <= x < 64 -> Z.land (0x80 + x) 0x3f = x.
Proof. by_enumeration 0 64. Qed.

Lemma utf8_of_len c : 1 <= zlen (utf8_of c) <= 4.
Proof. unfold utf8_of. repeat case_match; unfold zlen; simpl; lia. Qed.

Lemma wchar_to_utf8_spec c room :
  0 <= c <= 0x10ffff ->
  wchar_to_utf8 c room = if room <? zlen (utf8_of c) then None else Some (utf8_of c).
Proof.
  intros Hc. unfold wchar_to_utf8, utf8_of.
  rewrite !Z.shiftr_div_pow2, !land_3f by lia.
  change (2 ^ 6) with 64. change (2 ^ 12) with 4096. change (2 ^ 18) with 262144.
  repeat match goal with |- context [c <=? ?k] => destruct (Z.leb_spec c k); [| try lia] end;
    zlen_lit;
    match goal with |- context [room <? ?k] => destruct (Z.ltb_spec room k); [done |] end;
    rewrite ?lor_head_c0, ?lor_head_e0, ?lor_head_f0, ?lor_tail_80 by (to_equations; lia);
    rewrite !u8_small by (unfold in_u; to_equations; lia); done.
Qed.

Lemma lor_add a k x : 0 <= k -> 0 <= x < 2 ^ k -> Z.lor (a * 2 ^ k) x = a * 2 ^ k + x.
Proof. intros. rewrite <- (Z.shiftl_mul_pow2 a) at 1 by done. by apply lor_shift_add. Qed.

(** A continuation byte. *)
Lemma utf8_continuation_step wc n y rest :
  0 <= y < 64 ->
  utf8_continuation wc (S n) (0x80 + y :: rest) =
  utf8_continuation (Z.lor wc (Z.shiftl y (Z.of_nat n * 6))) n rest.
Proof.
  intros Hy. cbn [utf8_continuation]. rewrite mask_c0, low_3f by lia.
  destruct (Z.leb_spec 0x80 (0x80 + y)), (Z.ltb_spec (0x80 + y) 0xc0); simpl; lia || done.
Qed.

(** The three shapes of accumulated continuation bytes. *)
Lemma utf8_tail1 a y rest :
  0 <= y < 64 ->
  utf8_continuation (a * 2 ^ 6) 1 (0x80 + y :: rest) = Some (a * 64 + y, rest).
Proof.
  intros. rewrite utf8_continuation_step by done. simpl.
  by rewrite Z.shiftl_0_r, lor_add by lia.
Qed.

Lemma utf8_tail2 a x y rest :
  0 <= x < 64 -> 0 <= y < 64 ->
  utf8_continuation (a * 2 ^ 12) 2 (0x80 + x :: 0x80 + y :: rest) =
  Some (a * 4096 + x * 64 + y, rest).
Proof.
  intros. rewrite utf8_continuation_step by done.
  rewrite Z.shiftl_mul_pow2, lor_add by lia.
  replace (a * 2 ^ 12 + x * 2 ^ (Z.of_nat 1 * 6)) with ((a * 64 + x) * 2 ^ 6) by lia.
  rewrite utf8_tail1 by done. do 2 f_equal. lia.
Qed.

Lemma utf8_tail3 a w x y rest :
  0 <= w < 64 -> 0 <= x < 64 -> 0 <= y < 64 ->
  utf8_continuation (a * 2 ^ 18) 3 (0x80 + w :: 0x80 + x :: 0x80 + y :: rest) =
  Some (a * 262144 + w * 4096 + x * 64 + y, rest).
Proof.
  intros. rewrite utf8_continuation_step by done.
  rewrite Z.shiftl_mul_pow2, lor_add by lia.
  replace (a * 2 ^ 18 + w * 2 ^ (Z.of_nat 2 * 6)) with ((a * 64 + w) * 2 ^ 12) by lia.
  rewrite utf8_tail2 by done. do 2 f_equal. lia.
Qed.

(** Decoding undoes encoding. *)
Lemma utf8_to_wchar_utf8_of c rest :
  0 <= c <= 0x10ffff -> utf8_to_wchar (utf8_of c ++ rest) = Some (c, rest).
Proof.
  intros Hc. pose proof (zlen_nonneg rest). unfold utf8_of.
  destruct (Z.leb_spec c 0x7f); [| destruct (Z.leb_spec c 0x7ff); [| destruct (Z.leb_spec c 0xffff)]];
    cbn [app utf8_to_wchar];
    rewrite ?mask_80, ?mask_e0, ?mask_f0, ?mask_f8, ?zlen_cons by (to_equations; lia).
  - by zdec.
  - assert (0 <= c / 64 < 32) by (to_equations; lia). zdec.
    rewrite low_1f, Z.shiftl_mul_pow2 by lia. cbn [Nat.sub].
    rewrite utf8_tail1 by (to_equations; lia). do 2 f_equal. to_equations; lia.
  - assert (0 <= c / 4096 < 16) by (to_equations; lia). zdec.
    rewrite low_0f, Z.shiftl_mul_pow2 by lia. cbn [Nat.sub].
    rewrite utf8_tail2 by (to_equations; lia). do 2 f_equal. to_equations; lia.
  - assert (0 <= c / 262144 < 8) by (to_equations; lia). zdec.
    rewrite low_07, Z.shiftl_mul_pow2 by lia. cbn [Nat.sub].
    rewrite utf8_tail3 by (to_equations; lia). do 2 f_equal. to_equations; lia.
Qed.

Lemma units_of_len c : 1 <= zlen (units_of c) <= 2.
Proof. unfold units_of. case_match; unfold zlen; simpl; lia. Qed.

Lemma lead_mask : forall y, 0 <= y < 1024 -> (Z.land (0xd800 + y) 0xfc00 =? 0xd800) = true.
Proof. by_enumeration 0 1024. Qed.

Lemma trail_mask : forall y, 0 <= y < 1024 -> (Z.land (0xdc00 + y) 0xfc00 =? 0xdc00) = true.
Proof. by_enumeration 0 1024. Qed.

Lemma lead_low : forall y, 0 <= y < 1024 -> Z.land (0xd800 + y) 0x3ff = y.
Proof. by_enumeration 0 1024. Qed.

Lemma trail_low : forall y, 0 <= y < 1024 -> Z.land (0xdc00 + y) 0x3ff = y.
Proof. by_enumeration 0 1024. Qed.

Lemma lead_or : forall y, 0 <= y < 1024 -> Z.lor 0xd800 y = 0xd800 + y.
Proof. by_enumeration 0 1024. Qed.

Lemma trail_or : forall y, 0 <= y < 1024 -> Z.lor 0xdc00 y = 0xdc00 + y.
Proof. by_enumeration 0 1024. Qed.

Lemma land_3ff x : Z.land x 0x3ff = x mod 1024.
Proof. exact (land_low x 10 ltac:(lia)). Qed.

Lemma low_not_fc00 : forall x, 0 <= x < 1024 -> Z.land x 0xfc00 = 0.
Proof. by_enumeration 0 1024. Qed.

(** The six high bits of a unit. *)
Lemma land_fc00 u : 0 <= u < 2 ^ 16 -> Z.land u 0xfc00 = u / 1024 * 1024.
Proof.
  intros Hu. pose proof (Z.div_mod u 1024 ltac:(lia)). pose proof (Z.mod_pos_bound u 1024 ltac:(lia)).
  replace u with (Z.lor (Z.shiftl (u / 1024) 10) (u mod 1024)) at 1
    by (rewrite lor_shift_add by lia; change (2 ^ 10) with 1024; lia).
  rewrite Z.land_lor_distr_l, (low_not_fc00 (u mod 1024)), Z.lor_0_r by lia.
  change 0xfc00 with (Z.shiftl 63 10). rewrite <- Z.shiftl_land, (land_low _ 6) by lia. change (2 ^ 6) with 64.
  rewrite Z.shiftl_mul_pow2, Z.mod_small by (to_equations; lia). done.
Qed.

(** A unit of 16 bits is a lead surrogate exactly from D800 to DBFF. *)
Lemma lead_surrogate_mask u :
  in_u 16 u -> (Z.land u 0xfc00 =? 0xd800) = (0xd800 <=? u) && (u <? 0xdc00).
Proof.
  intros Hu. unfold in_u in Hu. rewrite land_fc00 by done.
  destruct (Z.leb_spec 0xd800 u), (Z.ltb_spec u 0xdc00); cbn [andb];
    [apply Z.eqb_eq | apply Z.eqb_neq ..]; to_equations; lia.
Qed.

Lemma wchar_to_utf16_spec c room :
  0 <= c <= 0x10ffff -> 0 <= room ->
  wchar_to_utf16 c room = if room <? zlen (units_of c) then None else Some (units_of c).
Proof.
  intros Hc Hr. unfold wchar_to_utf16, units_of. destruct (Z.leb_spec c 0xffff); zlen_lit.
  - destruct (Z.eqb_spec room 0); zdec; [done |]. by rewrite u16_small by (unfold in_u; lia).
  - destruct (Z.ltb_spec room 2); [done |]. cbv zeta.
    rewrite Z.shiftr_div_pow2 by lia.
    rewrite !land_3ff.
    change (2 ^ 10) with 1024.
    rewrite lead_or, trail_or by (to_equations; lia).
    rewrite (Z.mod_small ((c - 65536) / 1024)) by (to_equations; lia).
    rewrite !u16_small by (unfold in_u; to_equations; lia). done.
Qed.

Lemma utf16_to_wchar_units_of c rest :
  0 <= c <= 0x10ffff -> ~ 0xd800 <= c < 0xdc00 ->
  utf16_to_wchar (units_of c ++ rest) = Some (c, rest).
Proof.
  intros Hc Hs. unfold units_of. destruct (Z.leb_spec c 0xffff); cbn [app utf16_to_wchar].
  - rewrite lead_surrogate_mask by (unfold in_u; lia). by destruct (Z.leb_spec 0xd800 c); zdec.
  - rewrite lead_mask, trail_mask by (to_equations; lia). cbn [negb].
    rewrite lead_low, trail_low by (to_equations; lia).
    rewrite lor_shift_add by (to_equations; lia).
    do 2 f_equal. to_equations; lia.
Qed.

(** ** Whole names *)

(** What is left of the input after the name: the end of the buffer or a
    terminator. *)
Definition at_end (rest : list Z) : Prop := rest = [] \/ exists tl, rest = 0 :: tl.

Lemma name_units_cons c cs : name_units (c :: cs) = units_of c ++ name_units cs.
Proof. done. Qed.

Lemma name_bytes_cons c cs : name_bytes (c :: cs) = utf8_of c ++ name_bytes cs.
Proof. done. Qed.

Lemma length_zlen {A} (l : list A) (n : nat) : zlen l <= Z.of_nat n -> (length l <= n)%nat.
Proof. unfold zlen. lia. Qed.

(** A turn of each loop on an encoded code point. *)
Lemma utf16_to_utf8_loop_turn f c rest room acc :
  code_point c -> zlen (utf8_of c) <= room ->
  utf16_to_utf8_loop (S f) (units_of c ++ rest) room acc =
  utf16_to_utf8_loop f rest (room - zlen (utf8_of c)) (acc ++ utf8_of c).
Proof.
  intros [Hc Hs] Hroom. pose proof (utf16_to_wchar_units_of c rest ltac:(lia) ltac:(lia)) as E.
  pose proof (units_of_len c). cbn [utf16_to_utf8_loop].
  destruct (units_of c ++ rest) eqn:Hu.
  { apply (f_equal zlen) in Hu. rewrite zlen_app, zlen_nil in Hu. pose proof (zlen_nonneg rest). lia. }
  rewrite E, wchar_to_utf8_spec by lia. by zdec.
Qed.

Lemma utf8_to_utf16_loop_turn f c rest room acc :
  code_point c -> zlen (units_of c) <= room ->
  utf8_to_utf16_loop (S f) (utf8_of c ++ rest) room acc =
  utf8_to_utf16_loop f rest (room - zlen (units_of c)) (acc ++ units_of c).
Proof.
  intros [Hc Hs] Hroom. pose proof (utf8_to_wchar_utf8_of c rest ltac:(lia)) as E.
  pose proof (units_of_len c). pose proof (utf8_of_len c). cbn [utf8_to_utf16_loop].
  destruct (utf8_of c ++ rest) eqn:Hu.
  { apply (f_equal zlen) in Hu. rewrite zlen_app, zlen_nil in Hu. pose proof (zlen_nonneg rest). lia. }
  rewrite E, wchar_to_utf16_spec by lia. by zdec.
Qed.

Lemma utf16_to_utf8_loop_end f rest room acc :
  at_end rest -> 1 <= room -> (length rest <= f)%nat ->
  utf16_to_utf8_loop f rest room acc = (0, acc ++ [0]).
Proof.
  intros [-> | [tl ->]] Hroom Hf; destruct f; simpl in Hf; try lia;
    cbn [utf16_to_utf8_loop]; try (by zdec).
  cbn. unfold wchar_to_utf8. zdec. done.
Qed.

Lemma utf16_to_utf8_loop_name cs : forall f rest room acc,
  Forall code_point cs -> at_end rest -> (length (name_units cs ++ rest) <= f)%nat ->
  zlen (name_bytes cs) < room ->
  utf16_to_utf8_loop f (name_units cs ++ rest) room acc = (0, acc ++ name_bytes cs ++ [0]).
Proof.
  induction cs as [| c cs IH]; intros f rest room acc Hcs Hend Hf Hroom.
  - change (zlen (name_bytes [])) with 0 in Hroom. change (name_units [] ++ rest) with rest in *.
    by rewrite utf16_to_utf8_loop_end by (done || lia).
  - apply Forall_cons in Hcs as [Hc Hcs]. rewrite name_units_cons in *.
    rewrite name_bytes_cons, zlen_app in *. rewrite <- app_assoc in *.
    rewrite length_app in Hf. pose proof (units_of_len c). pose proof (zlen_nonneg (name_bytes cs)).
    destruct f as [| f]; [unfold zlen in *; lia |].
    rewrite utf16_to_utf8_loop_turn by (done || lia).
    rewrite IH; [by rewrite <- !app_assoc | done | done | unfold zlen in *; lia | lia].
Qed.

Lemma utf8_to_utf16_loop_name cs : forall f room acc,
  Forall code_point cs -> (length (name_bytes cs) <= f)%nat -> zlen (name_units cs) < room ->
  utf8_to_utf16_loop f (name_bytes cs) room acc = (0, acc ++ name_units cs ++ [0]).
Proof.
  induction cs as [| c cs IH]; intros f room acc Hcs Hf Hroom.
  - change (zlen (name_units [])) with 0 in Hroom. destruct f; cbn; by zdec.
  - apply Forall_cons in Hcs as [Hc Hcs]. rewrite name_bytes_cons in *.
    rewrite name_units_cons, zlen_app in *.
    rewrite length_app in Hf. pose proof (utf8_of_len c). pose proof (zlen_nonneg (name_units cs)).
    destruct f as [| f]; [unfold zlen in *; lia |].
    rewrite utf8_to_utf16_loop_turn by (done || lia).
    rewrite IH; [by rewrite <- !app_assoc | done | unfold zlen in *; lia | lia].
Qed.

(** A code point takes at most three bytes for each of its units. *)
Lemma utf8_of_le_units c : 0 <= c -> zlen (utf8_of c) <= 3 * zlen (units_of c).
Proof.
  intros. unfold utf8_of, units_of.
  repeat match goal with |- context [c <=? ?k] => destruct (Z.leb_spec c k); [| try lia] end;
    zlen_lit; lia.
Qed.

Lemma name_bytes_le_units cs :
  Forall code_point cs -> zlen (name_bytes cs) <= 3 * zlen (name_units cs).
Proof.
  induction 1 as [| c cs [Hc _] _ IH]; [done |].
  rewrite name_bytes_cons, name_units_cons, !zlen_app.
  pose proof (utf8_of_le_units c ltac:(lia)). lia.
Qed.

(** Whatever the input, the loops stay inside their buffer. *)
Lemma wchar_to_utf8_len wc room bs : wchar_to_utf8 wc room = Some bs -> zlen bs <= room.
Proof.
  unfold wchar_to_utf8. intros H.
  repeat match type of H with
  | (if ?c then _ else _) = _ => destruct c eqn:?
  end; try discriminate H; apply (inj Some) in H; rewrite <- H;
    zlen_lit; rewrite ?Z.ltb_ge in *; lia.
Qed.

Lemma wchar_to_utf16_len wc room us :
  0 <= room -> wchar_to_utf16 wc room = Some us -> zlen us <= room.
Proof.
  unfold wchar_to_utf16. intros Hr H.
  repeat match type of H with
  | (if ?c then _ else _) = _ => destruct c eqn:?
  end; try discriminate H; apply (inj Some) in H; rewrite <- H;
    zlen_lit; rewrite ?Z.ltb_ge, ?Z.eqb_neq in *; lia.
Qed.

(** What a conversion promises about the [room] units it was given: it stays
    inside them, and on success they hold a terminated string. *)
Definition stays_in (room : Z) (r : Z * list Z) : Prop :=
  zlen (snd r) <= room /\ (fst r = 0 -> exists s, snd r = s ++ [0]).

Lemma stays_in_error e acc room : 0 <= room -> e <> 0 -> stays_in (zlen acc + room) (e, acc).
Proof. split; cbn; [lia | done]. Qed.

Lemma stays_in_finish acc room :
  0 <= room ->
  stays_in (zlen acc + room) (if room <=? 0 then (- ENAMETOOLONG, acc) else (0, acc ++ [0])).
Proof.
  intros. destruct (Z.leb_spec room 0); [by apply stays_in_error |].
  split; cbn [fst snd]; [rewrite zlen_app; zlen_lit; lia | eauto].
Qed.

Lemma utf16_to_utf8_loop_stays f : forall iptr room acc,
  0 <= room -> stays_in (zlen acc + room) (utf16_to_utf8_loop f iptr room acc).
Proof.
  induction f as [| f IH]; intros [| u iptr] room acc Hr; cbn [utf16_to_utf8_loop];
    [by apply stays_in_finish | by apply stays_in_error | by apply stays_in_finish |].
  destruct (utf16_to_wchar (u :: iptr)) as [[wc rest] |]; [| by apply stays_in_error].
  destruct (wchar_to_utf8 wc room) as [bs |] eqn:E; [| by apply stays_in_error].
  pose proof (wchar_to_utf8_len _ _ _ E). destruct (Z.eqb_spec wc 0) as [-> |].
  - unfold stays_in. cbn [fst snd]. rewrite zlen_app. split; [lia |]. intros _. exists acc. f_equal.
    unfold wchar_to_utf8 in E. cbn in E. by destruct (room <? 1); simplify_eq.
  - specialize (IH rest (room - zlen bs) (acc ++ bs) ltac:(lia)). rewrite zlen_app in IH.
      by replace (zlen acc + room) with (zlen acc + zlen bs + (room - zlen bs)) by lia.
Qed.

Lemma utf8_to_utf16_loop_stays f : forall iptr room acc,
  0 <= room -> stays_in (zlen acc + room) (utf8_to_utf16_loop f iptr room acc).
Proof.
  induction f as [| f IH]; intros [| u iptr] room acc Hr; cbn [utf8_to_utf16_loop];
    [by apply stays_in_finish | by apply stays_in_error | by apply stays_in_finish |].
  destruct (utf8_to_wchar (u :: iptr)) as [[wc rest] |]; [| by apply stays_in_error].
  destruct (wchar_to_utf16 wc room) as [us |] eqn:E; [| by apply stays_in_error].
  pose proof (wchar_to_utf16_len _ _ _ Hr E). destruct (Z.eqb_spec wc 0) as [-> |].
  - replace (zlen acc + room) with (zlen (acc ++ us) + (room - zlen us)) by (rewrite zlen_app; lia).
    apply stays_in_finish. lia.
  - specialize (IH rest (room - zlen us) (acc ++ us) ltac:(lia)). rewrite zlen_app in IH.
      by replace (zlen acc + room) with (zlen acc + zlen us + (room - zlen us)) by lia.
Qed.

(** The lead surrogates are checked for their trails. *)
Lemma trail_surrogate_mask u :
  in_u 16 u -> (Z.land u 0xfc00 =? 0xdc00) = (0xdc00 <=? u) && (u <? 0xe000).
Proof.
  intros Hu. unfold in_u in Hu. rewrite land_fc00 by done.
  destruct (Z.leb_spec 0xdc00 u), (Z.ltb_spec u 0xe000); cbn [andb];
    [apply Z.eqb_eq | apply Z.eqb_neq ..]; to_equations; lia.
Qed.

(** A name that has code points is made of them. *)
Lemma code_points_units n : forall units cs, (length units <= n)%nat -> Forall name_unit units ->
  code_points units = Some cs -> Forall code_point cs /\ name_units cs = units.
Proof.
  induction n as [| n IH]; intros [| u units] cs Hn Hu; cbn [length] in Hn; try lia; cbn [code_points].
  1, 2: intros [= <-]; split; [constructor | done].
  apply Forall_cons in Hu as [Hu1 Hu]. unfold name_unit in Hu1.
  destruct (Z.leb_spec 0xd800 u), (Z.ltb_spec u 0xdc00); cbn [andb].
  1: destruct units as [| t units]; [done |]; cbn [length] in Hn; apply Forall_cons in Hu as [_ Hu];
    destruct (Z.leb_spec 0xdc00 t), (Z.ltb_spec t 0xe000); cbn [andb]; [| done ..].
  all: intros (cs' & E & ->)%fmap_Some; destruct (IH units cs' ltac:(lia) Hu E) as [Hc <-];
    (split; [constructor; [unfold code_point; lia | done] |]); rewrite name_units_cons; unfold units_of.
  2-4: by rewrite (proj2 (Z.leb_le u 0xffff)) by lia.
  rewrite (proj2 (Z.leb_gt _ 0xffff)) by lia. cbn [app]. f_equal; [| f_equal]; to_equations; lia.
Qed.

(** A name with a lead surrogate that has no trail is refused. *)
Lemma utf16_to_utf8_loop_stray n : forall units tl f room acc, (length units <= n)%nat -> Forall name_unit units ->
  code_points units = None -> (length units <= f)%nat -> 3 * zlen units <= room ->
  (utf16_to_utf8_loop f (units ++ 0 :: tl) room acc).1 = - EILSEQ.
Proof.
  induction n as [| n IH]; intros [| u units] tl f room acc Hn Hu; cbn [length] in Hn; try lia; try done.
  apply Forall_cons in Hu as [Hu1 Hu]. unfold name_unit in Hu1. intros E Hf Hr. cbn [length] in Hf. destruct f as [| f]; [lia |].
  cbn [app utf16_to_utf8_loop utf16_to_wchar]. rewrite lead_surrogate_mask by (unfold in_u; lia). cbn [code_points] in E.
  rewrite zlen_cons in Hr.
  assert (Hstep : forall c rest, 0 < c <= 0x10ffff -> (length rest <= n)%nat -> (length rest <= f)%nat ->
    Forall name_unit rest -> code_points rest = None -> zlen (utf8_of c) + 3 * zlen rest <= room ->
    (match wchar_to_utf8 c room with
     | None => (- ENAMETOOLONG, acc)
     | Some bs => if c =? 0 then (0, acc ++ bs) else utf16_to_utf8_loop f (rest ++ 0 :: tl) (room - zlen bs) (acc ++ bs)
     end).1 = - EILSEQ).
  { intros c rest Hc H1 H2 H3 H4 H5. pose proof (zlen_nonneg rest). rewrite wchar_to_utf8_spec by lia.
    destruct (Z.ltb_spec room (zlen (utf8_of c))); [lia |]. destruct (Z.eqb_spec c 0); [lia |]. apply IH; done || lia. }
  assert (Hlen : forall c, 0 <= c -> zlen (utf8_of c) <= 3 * zlen (units_of c)) by apply utf8_of_le_units.
  destruct ((0xd800 <=? u) && (u <? 0xdc00)) eqn:El.
  - destruct units as [| t units]; [done |]. cbn [app]. apply Forall_cons in Hu as [Ht Hu]. unfold name_unit in Ht.
    rewrite trail_surrogate_mask by (unfold in_u; lia). destruct ((0xdc00 <=? t) && (t <? 0xe000)) eqn:Et; cbn [negb]; [| done].
    apply fmap_None in E. apply andb_true_iff in El as [L1 L2], Et as [T1 T2].
    apply Z.leb_le in L1, T1. apply Z.ltb_lt in L2, T2. cbn [length] in *. rewrite zlen_cons in Hr.
    pose proof (lead_low (u - 0xd800) ltac:(lia)) as E1. pose proof (trail_low (t - 0xdc00) ltac:(lia)) as E2.
    rewrite Zplus_minus in E1, E2. rewrite E1, E2, lor_shift_add by lia. apply Hstep; try done; try lia.
    match goal with |- zlen (utf8_of ?c) + _ <= _ => pose proof (Hlen c ltac:(lia)); pose proof (units_of_len c) end. lia.
  - apply fmap_None in E. apply Hstep; try done; try lia. pose proof (Hlen u ltac:(lia)) as H3.
    unfold units_of in H3. rewrite (proj2 (Z.leb_le u 0xffff)) in H3 by lia. cbn iota in H3. rewrite zlen_cons, zlen_nil in H3. lia.
Qed.

(** The first 256 units of a name and what lies behind it. *)
Lemma name_prefix units rest : zlen units <= EXFAT_NAME_MAX ->
  exists tl, sub (units ++ 0 :: rest) 0 (EXFAT_NAME_MAX + 1) = units ++ 0 :: tl.
Proof.
  intros Hlen. unfold EXFAT_NAME_MAX in *. unfold sub. rewrite drop_0, take_app. unfold zlen in *.
  rewrite take_ge by lia. destruct (Z.to_nat (255 + 1) - length units)%nat eqn:E; [lia |]. cbn. by eexists.
Qed.

(** ** Properties *)

(** C16: Names survive a round trip, or are refused.  Any name of at most 255 units of
    16 bits, as it is stored in a node, with a terminator behind it: if every lead
    surrogate of it has its trail, it becomes its UTF-8 form in the 766 bytes that every
    caller reserves, and that form becomes the same units again in the 256 units of a
    node's name; if not, the conversion fails with EILSEQ. *)
Theorem name_roundtrip units rest (Hu : Forall name_unit units) (Hlen : zlen units <= EXFAT_NAME_MAX) :
  match code_points units with
  | Some cs =>
      exfat_utf16_to_utf8 (units ++ 0 :: rest) EXFAT_UTF8_NAME_BUFFER_MAX (EXFAT_NAME_MAX + 1) = (0, name_bytes cs ++ [0]) /\
      exfat_utf8_to_utf16 (name_bytes cs) (EXFAT_NAME_MAX + 1) (zlen (name_bytes cs)) = (0, units ++ [0]) /\
      units = name_units cs
  | None => (exfat_utf16_to_utf8 (units ++ 0 :: rest) EXFAT_UTF8_NAME_BUFFER_MAX (EXFAT_NAME_MAX + 1)).1 = - EILSEQ
  end.
Proof.
  unfold exfat_utf16_to_utf8, exfat_utf8_to_utf16. destruct (name_prefix units rest Hlen) as [tl ->].
  unfold EXFAT_UTF8_NAME_BUFFER_MAX, EXFAT_NAME_MAX in *. destruct (code_points units) as [cs |] eqn:E.
  - destruct (code_points_units _ units cs (le_n _) Hu E) as [Hcs <-]. pose proof (name_bytes_le_units cs Hcs). split_and!.
    + apply (utf16_to_utf8_loop_name cs); [done | right; eauto | done | lia].
    + rewrite sub_all. apply (utf8_to_utf16_loop_name cs); [done | done | lia].
    + done.
  - apply (utf16_to_utf8_loop_stray _ _ _ _ _ _ (le_n _)); [done | done | rewrite length_app; lia | lia].
Qed.

(** The name of an A, an e with an accent, a euro sign and a face. *)
Lemma name_roundtrip_witness :
  exfat_utf16_to_utf8 ([0x41; 0xe9; 0x20ac; 0xd83d; 0xde00] ++ 0 :: [7]) EXFAT_UTF8_NAME_BUFFER_MAX (EXFAT_NAME_MAX + 1) =
    (0, name_bytes [0x41; 0xe9; 0x20ac; 0x1f600] ++ [0]) /\
  exfat_utf8_to_utf16 (name_bytes [0x41; 0xe9; 0x20ac; 0x1f600]) (EXFAT_NAME_MAX + 1) 10 =
    (0, [0x41; 0xe9; 0x20ac; 0xd83d; 0xde00] ++ [0]) /\
  [0x41; 0xe9; 0x20ac; 0xd83d; 0xde00] = name_units [0x41; 0xe9; 0x20ac; 0x1f600].
Proof.
  apply (name_roundtrip [0x41; 0xe9; 0x20ac; 0xd83d; 0xde00] [7]).
  - repeat constructor; lia.
  - vm_compute. discriminate.
Defined.

(** C17: The conversions are memory safe on every input: whatever the units or
    bytes, nothing is stored past [outsize], and success means that what was
    stored is terminated. *)
Theorem conversion_stays_in input outsize insize (Hout : 0 <= outsize) :
  stays_in outsize (exfat_utf16_to_utf8 input outsize insize) /\
  stays_in outsize (exfat_utf8_to_utf16 input outsize insize).
Proof.
  split; [apply (utf16_to_utf8_loop_stays _ _ outsize []) | apply (utf8_to_utf16_loop_stays _ _ outsize [])];
    done.
Qed.

Lemma conversion_stays_in_witness :
  stays_in 3 (exfat_utf16_to_utf8 [0x20ac; 0x20ac] 3 2) /\
  stays_in 3 (exfat_utf8_to_utf16 [0x20ac; 0x20ac] 3 2).
Proof. apply (conversion_stays_in [0x20ac; 0x20ac] 3 2). lia. Defined.

(** A surrogate code point encoded in UTF-8 is accepted and stored as a lone
    surrogate, which the opposite conversion then refuses: for each of the 1024
    lead surrogates the name that was created cannot be read back. *)
Theorem surrogate_not_reversible s (Hs : 0xd800 <= s < 0xdc00) :
  exfat_utf8_to_utf16 (utf8_of s) (EXFAT_NAME_MAX + 1) 3 = (0, [s; 0]) /\
  exfat_utf16_to_utf8 [s; 0] EXFAT_UTF8_NAME_BUFFER_MAX (EXFAT_NAME_MAX + 1) = (- EILSEQ, []).
Proof.
  assert (E : length (utf8_of s) = 3%nat /\ units_of s = [s]).
  { unfold utf8_of, units_of. by zdec. }
  destruct E as [E1 E2]. split.
  - unfold exfat_utf8_to_utf16, sub. rewrite drop_0, take_ge, E1 by (rewrite E1; lia).
    rewrite <- (app_nil_r (utf8_of s)).
    pose proof (utf8_to_wchar_utf8_of s [] ltac:(lia)) as D. rewrite app_nil_r in *.
    cbn [utf8_to_utf16_loop]. destruct (utf8_of s) eqn:Hu; [done |].
    rewrite D, wchar_to_utf16_spec, E2 by (unfold EXFAT_NAME_MAX; lia).
    zlen_lit. unfold EXFAT_NAME_MAX. by zdec.
  - unfold exfat_utf16_to_utf8. cbv zeta.
    change (sub [s; 0] 0 (EXFAT_NAME_MAX + 1)) with [s; 0].
    cbn [length utf16_to_utf8_loop utf16_to_wchar].
    rewrite lead_surrogate_mask by (unfold in_u; lia). by zdec.
Qed.

Lemma surrogate_not_reversible_witness :
  exfat_utf8_to_utf16 (utf8_of 0xd83d) (EXFAT_NAME_MAX + 1) 3 = (0, [0xd83d; 0]) /\
  exfat_utf16_to_utf8 [0xd83d; 0] EXFAT_UTF8_NAME_BUFFER_MAX (EXFAT_NAME_MAX + 1) = (- EILSEQ, []).
Proof. apply (surrogate_not_reversible 0xd83d). lia. Defined.
