(* ===== verification/Bitmap.v ===== *)
(** * Bitmap: the map of allocated clusters in memory (libexfat/exfat.h, cluster.c)

    [bitmap_t] is the host's word: [size_t] on a little-endian host, a byte on
    a big-endian one (byteorder.h), so its size is a parameter ([Platform]).
    The chunk is the list of its bytes, in the order of the medium, and a word
    is read from and written to these bytes.  [bit chunk i] is what the word
    operations implement, whatever the size of a word. *)

From Stdlib Require Import ZArith Lia.
From stdpp Require Import base numbers list.
From S2P Require Import Prelude Bytes Ondisk.

#[local] Open Scope Z_scope.

(** ** Definitions *)

Section Definitions.
Context `{Platform}.

Definition BMAP_SIZE (count : Z) : Z := ROUND_UP count (bitmap_t * 8) / 8.
Definition BMAP_BLOCK (index : Z) : Z := index / bitmap_t / 8.
Definition BMAP_MASK (index : Z) : Z := Z.shiftl 1 (index mod (bitmap_t * 8)).

(** [bitmap[i]] and [bitmap[i] = w] *)
Definition bmap_word (bitmap : list Z) (i : Z) : Z :=
  le_val (sub bitmap (i * bitmap_t) bitmap_t).
Definition bmap_store (bitmap : list Z) (i w : Z) : list Z :=
  splice bitmap (i * bitmap_t) (le_bytes (Z.to_nat bitmap_t) w).

Definition BMAP_GET (bitmap : list Z) (index : Z) : bool :=
  negb (Z.land (bmap_word bitmap (BMAP_BLOCK index)) (BMAP_MASK index) =? 0).
Definition BMAP_SET (bitmap : list Z) (index : Z) : list Z :=
  bmap_store bitmap (BMAP_BLOCK index)
    (Z.lor (bmap_word bitmap (BMAP_BLOCK index)) (BMAP_MASK index)).
Definition BMAP_CLR (bitmap : list Z) (index : Z) : list Z :=
  bmap_store bitmap (BMAP_BLOCK index)
    (Z.land (bmap_word bitmap (BMAP_BLOCK index)) (Z.lnot (BMAP_MASK index))).

(** The inner loop of [find_bit_and_set]: [n] bits from [c]. *)
Fixpoint find_clear (bitmap : list Z) (n : nat) (c : Z) : option Z :=
  match n with
  | O => None
  | S n => if negb (BMAP_GET bitmap c) then Some c else find_clear bitmap n (c + 1)
  end.

(** The outer loop: [n] words from [i]. *)
Fixpoint find_word (bitmap : list Z) (start end_ : Z) (n : nat) (i : Z) : option Z :=
  match n with
  | O => None
  | S n =>
      if bmap_word bitmap i =? 2 ^ (8 * bitmap_t) - 1 then
        find_word bitmap start end_ n (i + 1)
      else
        let start_bitindex := Z.max (i * bitmap_t * 8) start in
        let end_bitindex := Z.min ((i + 1) * bitmap_t * 8) end_ in
        match find_clear bitmap (Z.to_nat (end_bitindex - start_bitindex)) start_bitindex with
        | Some c => Some c
        | None => find_word bitmap start end_ n (i + 1)
        end
  end.

Definition find_bit_and_set (bitmap : list Z) (start end_ : Z) : Z * list Z :=
  let start_index := start / bitmap_t / 8 in
  let end_index := DIV_ROUND_UP end_ (bitmap_t * 8) in
  match find_word bitmap start end_ (Z.to_nat (end_index - start_index)) start_index with
  | Some c => (u32 (c + EXFAT_FIRST_DATA_CLUSTER), BMAP_SET bitmap c)
  | None => (EXFAT_CLUSTER_END, bitmap)
  end.
End Definitions.

(** Bit [i] of a bitmap, on the medium and in memory. *)
Definition bit (bitmap : list Z) (i : Z) : bool := Z.testbit (znth bitmap (i / 8)) (i mod 8).

(** ** Little-endian values bit by bit *)

Lemma le_val_testbit l j :
  bytes_ok l -> 0 <= j -> Z.testbit (le_val l) j = bit l j.
Proof.
  intros Hl. revert j. unfold bit. induction Hl as [| b l Hb Hl IH]; intros j Hj.
  - unfold znth. simpl. destruct (j / 8 <? 0); [by rewrite !Z.bits_0 |].
    destruct (Z.to_nat (j / 8)); by rewrite !Z.bits_0.
  - unfold is_byte in Hb. change (le_val (b :: l)) with (u8 b + 256 * le_val l). rewrite u8_small by done.
    replace (b + 256 * le_val l) with (Z.lor (Z.shiftl (le_val l) 8) b)
      by (rewrite lor_shift_add; lia).
    rewrite Z.lor_spec. destruct (Z.lt_ge_cases j 8).
    + rewrite Z.shiftl_spec_low, Z.div_small, Z.mod_small by lia. done.
    + rewrite Z.shiftl_spec by lia. rewrite IH by lia.
      rewrite (Z.bits_above_log2 b j); [| lia |].
      2: { destruct (Z.eq_dec b 0) as [-> |]; [simpl; lia |]. apply Z.log2_lt_pow2; [lia |].
           apply Z.lt_le_trans with (2 ^ 8); [lia |]. apply Z.pow_le_mono_r; lia. }
      rewrite orb_false_r.
      replace (j mod 8) with ((j - 8) mod 8)
        by (replace j with (j - 8 + 1 * 8) at 2 by ring; by rewrite Z.mod_add by lia).
      f_equal. replace (j / 8) with ((j - 8) / 8 + 1)
        by (replace j with (j - 8 + 1 * 8) at 2 by ring; by rewrite Z.div_add by lia).
      assert (0 <= (j - 8) / 8) by (apply Z.div_pos; lia).
      rewrite !znth_nth by lia. replace (Z.to_nat ((j - 8) / 8 + 1)) with (S (Z.to_nat ((j - 8) / 8))) by lia.
      done.
Qed.

Lemma bit_splice l off bs j :
  0 <= off -> off + zlen bs <= zlen l -> 0 <= j ->
  bit (splice l off bs) j =
  if (off * 8 <=? j) && (j <? (off + zlen bs) * 8) then bit bs (j - off * 8) else bit l j.
Proof.
  intros. unfold bit. rewrite znth_splice by done.
  replace (j - off * 8) with (j + - off * 8) by ring.
  rewrite Z.mod_add, Z.div_add by lia.
  destruct (Z.leb_spec off (j / 8)), (Z.ltb_spec (j / 8) (off + zlen bs)),
    (Z.leb_spec (off * 8) j), (Z.ltb_spec j ((off + zlen bs) * 8)); cbn [andb]; try done;
    try (to_equations; lia).
Qed.

Lemma bit_sub l off n j :
  0 <= off -> 0 <= j < n * 8 -> bit (sub l off n) j = bit l (off * 8 + j).
Proof.
  intros. unfold bit. rewrite znth_sub by (to_equations; lia).
  rewrite (Z.add_comm (off * 8)), Z.mod_add, Z.div_add by lia. f_equal. f_equal. lia.
Qed.

Lemma bytes_ok_sub l off n : bytes_ok l -> bytes_ok (sub l off n).
Proof. intros. unfold sub. by apply Forall_take, Forall_drop. Qed.

Lemma bytes_ok_splice l off bs : bytes_ok l -> bytes_ok bs -> bytes_ok (splice l off bs).
Proof.
  intros. unfold splice. apply bytes_ok_app. split; [by apply Forall_take |].
  apply bytes_ok_app. split; [done | by apply Forall_drop].
Qed.

(** ** Words *)

Section Words.
Context `{Platform}.
#[local] Abbreviation W := bitmap_t.

Lemma word_bits_pos : 0 < W * 8.
Proof. pose proof bitmap_t_pos. lia. Qed.

Lemma word_bits_neq : W * 8 <> 0.
Proof. pose proof bitmap_t_pos. lia. Qed.

(** The chunk covers [n] bits. *)
Definition bitmap_ok (bitmap : list Z) (n : Z) : Prop :=
  bytes_ok bitmap /\ BMAP_SIZE n <= zlen bitmap.

Lemma BMAP_SIZE_spec n : exists k, BMAP_SIZE n = k * W /\ k = DIV_ROUND_UP n (W * 8).
Proof.
  pose proof bitmap_t_pos. unfold BMAP_SIZE, ROUND_UP. eexists. split; [| done].
  rewrite Z.mul_assoc, Z.div_mul by lia. done.
Qed.

Lemma BMAP_SIZE_bound n : n <= 8 * BMAP_SIZE n.
Proof.
  pose proof bitmap_t_pos. unfold BMAP_SIZE, ROUND_UP.
  pose proof (DIV_ROUND_UP_spec n _ word_bits_pos). rewrite Z.mul_assoc, Z.div_mul by lia; nia.
Qed.

(** A bit of the map lies in a word that the chunk holds. *)
Lemma block_in bitmap n i :
  bitmap_ok bitmap n -> 0 <= i < n ->
  0 <= BMAP_BLOCK i /\ BMAP_BLOCK i * W + W <= zlen bitmap /\
  BMAP_BLOCK i * (W * 8) <= i < (BMAP_BLOCK i + 1) * (W * 8).
Proof.
  intros [_ Hlen] Hi. pose proof bitmap_t_pos. unfold BMAP_BLOCK.
  rewrite Z.div_div by lia.
  destruct (BMAP_SIZE_spec n) as [k [Hk Hn]].
  pose proof (DIV_ROUND_UP_spec n _ word_bits_pos).
  assert (0 <= i / (W * 8)) by (apply Z.div_pos; lia).
  assert (i / (W * 8) < k) by (apply Z.div_lt_upper_bound; nia).
  pose proof (Z.div_mod i _ word_bits_neq). pose proof (Z.mod_pos_bound i _ word_bits_pos).
  split_and!; nia.
Qed.

Lemma bmap_word_testbit bitmap i j :
  bytes_ok bitmap -> 0 <= i -> 0 <= j < W * 8 ->
  Z.testbit (bmap_word bitmap i) j = bit bitmap (i * (W * 8) + j).
Proof.
  intros. pose proof bitmap_t_pos. unfold bmap_word.
  rewrite le_val_testbit by (lia || by apply bytes_ok_sub).
  rewrite bit_sub by nia. f_equal. ring.
Qed.

Lemma BMAP_MASK_testbit i j :
  0 <= j -> Z.testbit (BMAP_MASK i) j = bool_decide (j = i mod (W * 8)).
Proof.
  intros. pose proof bitmap_t_pos. unfold BMAP_MASK.
  pose proof (Z.mod_pos_bound i _ word_bits_pos).
  rewrite Z.shiftl_1_l, Z.pow2_bits_eqb by lia.
  case_bool_decide; [apply Z.eqb_eq | apply Z.eqb_neq]; lia.
Qed.

Lemma BMAP_MASK_pow i : BMAP_MASK i = 2 ^ (i mod (W * 8)).
Proof. unfold BMAP_MASK. apply Z.shiftl_1_l. Qed.

Lemma BMAP_BLOCK_mod i :
  0 <= i -> i = BMAP_BLOCK i * (W * 8) + i mod (W * 8) /\ 0 <= i mod (W * 8) < W * 8.
Proof.
  intros. pose proof bitmap_t_pos. unfold BMAP_BLOCK. rewrite Z.div_div by lia.
  split; [pose proof (Z.div_mod i (W * 8)); lia | apply Z.mod_pos_bound; lia].
Qed.

Lemma land_pow2 w k : 0 <= k -> Z.land w (2 ^ k) = if Z.testbit w k then 2 ^ k else 0.
Proof.
  intros. apply Z.bits_inj'. intros j Hj. rewrite Z.land_spec, Z.pow2_bits_eqb by done.
  destruct (Z.eqb_spec k j) as [-> |].
  - destruct (Z.testbit w j) eqn:?; simpl; [by rewrite Z.pow2_bits_true | by rewrite Z.bits_0].
  - rewrite andb_false_r. destruct (Z.testbit w k); [by rewrite Z.pow2_bits_false | by rewrite Z.bits_0].
Qed.

Lemma BMAP_GET_bit bitmap i :
  bytes_ok bitmap -> 0 <= i -> BMAP_GET bitmap i = bit bitmap i.
Proof.
  intros Hok Hi. pose proof bitmap_t_pos. unfold BMAP_GET.
  pose proof (BMAP_BLOCK_mod i Hi) as [Hi' Hm].
  rewrite BMAP_MASK_pow, land_pow2 by lia.
  rewrite bmap_word_testbit; [| done | | done].
  2: { unfold BMAP_BLOCK. repeat apply Z.div_pos; lia. }
  rewrite <- Hi'. destruct (bit bitmap i); [| done].
  pose proof (Z.pow_pos_nonneg 2 (i mod (W * 8))). by zdec.
Qed.

(** Storing a word changes its bits only. *)
Lemma bit_bmap_store bitmap n i w j :
  bitmap_ok bitmap n -> 0 <= i < n -> 0 <= j ->
  bit (bmap_store bitmap (BMAP_BLOCK i) w) j =
  if bool_decide (BMAP_BLOCK i * (W * 8) <= j < (BMAP_BLOCK i + 1) * (W * 8)) then
    Z.testbit w (j - BMAP_BLOCK i * (W * 8))
  else bit bitmap j.
Proof.
  intros Hok Hi Hj. pose proof bitmap_t_pos.
  pose proof (block_in _ _ _ Hok Hi) as (? & ? & _).
  unfold bmap_store. rewrite bit_splice; rewrite ?zlen_le_bytes; try nia.
  rewrite Z2Nat.id by lia.
  replace (BMAP_BLOCK i * W * 8) with (BMAP_BLOCK i * (W * 8)) by ring.
  replace ((BMAP_BLOCK i * W + W) * 8) with ((BMAP_BLOCK i + 1) * (W * 8)) by ring.
  case_bool_decide; [zdec | destruct (Z.leb_spec (BMAP_BLOCK i * (W * 8)) j),
    (Z.ltb_spec j ((BMAP_BLOCK i + 1) * (W * 8))); simpl; lia || done].
  rewrite <- le_val_testbit by (lia || apply le_bytes_ok).
  rewrite le_val_le_bytes, Z2Nat.id by lia. change 256 with (2 ^ 8).
  rewrite <- Z.pow_mul_r by lia. apply Z.mod_pow2_bits_low. lia.
Qed.

Lemma bitmap_ok_store bitmap n i w :
  bitmap_ok bitmap n -> 0 <= i < n -> bitmap_ok (bmap_store bitmap (BMAP_BLOCK i) w) n.
Proof.
  intros Hok Hi. pose proof (block_in _ _ _ Hok Hi) as (? & ? & _). destruct Hok as [Hb Hl].
  pose proof bitmap_t_pos. unfold bmap_store. split.
  - apply bytes_ok_splice; [done | apply le_bytes_ok].
  - rewrite zlen_splice; [done | nia |]. rewrite zlen_le_bytes. lia.
Qed.

Lemma zlen_bmap_store bitmap n i w :
  bitmap_ok bitmap n -> 0 <= i < n -> zlen (bmap_store bitmap (BMAP_BLOCK i) w) = zlen bitmap.
Proof.
  intros Hok Hi. pose proof (block_in _ _ _ Hok Hi) as (? & ? & _). pose proof bitmap_t_pos.
  unfold bmap_store. rewrite zlen_splice; rewrite ?zlen_le_bytes; nia.
Qed.
End Words.

(** ** Bits *)

Section Bits.
Context `{Platform}.
#[local] Abbreviation W := bitmap_t.

Lemma bit_BMAP_SET bitmap n i j :
  bitmap_ok bitmap n -> 0 <= i < n -> 0 <= j ->
  bit (BMAP_SET bitmap i) j = bool_decide (j = i) || bit bitmap j.
Proof.
  intros Hok Hi Hj. unfold BMAP_SET. rewrite (bit_bmap_store _ n) by done.
  pose proof (block_in _ _ _ Hok Hi) as (Hb & _ & Hr). destruct Hok as [Hok _].
  pose proof (BMAP_BLOCK_mod i ltac:(lia)) as [Hi' Hm].
  case_bool_decide as Hc.
  - rewrite Z.lor_spec, BMAP_MASK_testbit, bmap_word_testbit by (done || lia).
    replace (_ + (j - _)) with j by ring. rewrite orb_comm. f_equal.
    apply bool_decide_ext. lia.
  - rewrite bool_decide_false by lia. done.
Qed.

Lemma bit_BMAP_CLR bitmap n i j :
  bitmap_ok bitmap n -> 0 <= i < n -> 0 <= j ->
  bit (BMAP_CLR bitmap i) j = negb (bool_decide (j = i)) && bit bitmap j.
Proof.
  intros Hok Hi Hj. unfold BMAP_CLR. rewrite (bit_bmap_store _ n) by done.
  pose proof (block_in _ _ _ Hok Hi) as (Hb & _ & Hr). destruct Hok as [Hok _].
  pose proof (BMAP_BLOCK_mod i ltac:(lia)) as [Hi' Hm].
  case_bool_decide as Hc.
  - rewrite Z.land_spec, Z.lnot_spec, BMAP_MASK_testbit, bmap_word_testbit by (done || lia).
    replace (_ + (j - _)) with j by ring. rewrite andb_comm. do 2 f_equal.
    apply bool_decide_ext. lia.
  - rewrite bool_decide_false by lia. done.
Qed.

Lemma BMAP_SET_ok bitmap n i :
  bitmap_ok bitmap n -> 0 <= i < n -> bitmap_ok (BMAP_SET bitmap i) n.
Proof. apply bitmap_ok_store. Qed.

Lemma BMAP_CLR_ok bitmap n i :
  bitmap_ok bitmap n -> 0 <= i < n -> bitmap_ok (BMAP_CLR bitmap i) n.
Proof. apply bitmap_ok_store. Qed.

Lemma zlen_BMAP_SET bitmap n i :
  bitmap_ok bitmap n -> 0 <= i < n -> zlen (BMAP_SET bitmap i) = zlen bitmap.
Proof. apply zlen_bmap_store. Qed.

Lemma zlen_BMAP_CLR bitmap n i :
  bitmap_ok bitmap n -> 0 <= i < n -> zlen (BMAP_CLR bitmap i) = zlen bitmap.
Proof. apply zlen_bmap_store. Qed.
End Bits.

(** ** Searching

    What [find_bit_and_set] promises: the first clear bit of a range. *)

Definition first_clear (bitmap : list Z) (start end_ : Z) : option Z :=
  List.find (fun c => negb (bit bitmap c)) (zseq start (end_ - start)).

Lemma zseq_nil a n : n <= 0 -> zseq a n = [].
Proof. intros. unfold zseq. by replace (Z.to_nat n) with O by lia. Qed.

Lemma find_app {A} (f : A -> bool) l k :
  List.find f (l ++ k) = match List.find f l with Some x => Some x | None => List.find f k end.
Proof. induction l as [| x l IH]; [done |]. simpl. by destruct (f x). Qed.

Lemma first_clear_split bitmap s m e :
  s <= m -> m <= e ->
  first_clear bitmap s e =
  match first_clear bitmap s m with Some c => Some c | None => first_clear bitmap m e end.
Proof.
  intros. unfold first_clear. replace (e - s) with ((m - s) + (e - m)) by lia.
  rewrite zseq_app by lia. replace (s + (m - s)) with m by lia. apply find_app.
Qed.

Lemma first_clear_Some bitmap s e c :
  first_clear bitmap s e = Some c ->
  s <= c < e /\ bit bitmap c = false /\ forall d, s <= d < c -> bit bitmap d = true.
Proof.
  unfold first_clear. intros Hf. destruct (Z.le_gt_cases e s).
  { by rewrite zseq_nil in Hf by lia. }
  pose proof Hf as Hf'. apply find_some in Hf' as [Hin Hc].
  apply list_elem_of_In, elem_of_zseq in Hin. apply negb_true_iff in Hc.
  split_and!; [lia | lia | done |]. intros d Hd.
  destruct (bit bitmap d) eqn:Hb; [done | exfalso].
  replace (e - s) with ((d - s) + (e - d)) in Hf by lia.
  rewrite zseq_app, find_app in Hf by lia.
  destruct (List.find _ (zseq s (d - s))) as [x |] eqn:E.
  - apply find_some in E as [E _]. apply list_elem_of_In, elem_of_zseq in E. simplify_eq. lia.
  - rewrite zseq_cons in Hf by lia. cbn [List.find] in Hf.
    replace (s + (d - s)) with d in Hf by lia. rewrite Hb in Hf. simpl in Hf. simplify_eq. lia.
Qed.

Lemma first_clear_None bitmap s e :
  first_clear bitmap s e = None <-> forall d, s <= d < e -> bit bitmap d = true.
Proof.
  unfold first_clear. split.
  - intros Hf d Hd. pose proof (find_none _ _ Hf d) as Hn. simpl in Hn.
    apply negb_false_iff, Hn, list_elem_of_In, elem_of_zseq. lia.
  - intros Hall. destruct (List.find _ _) as [c |] eqn:E; [| done].
    apply find_some in E as [Hin Hc]. apply list_elem_of_In, elem_of_zseq in Hin.
    rewrite Hall in Hc by lia. done.
Qed.

Section Search.
Context `{Platform}.
#[local] Abbreviation W := bitmap_t.

Lemma find_clear_spec bitmap n c :
  bytes_ok bitmap -> 0 <= c ->
  find_clear bitmap n c = first_clear bitmap c (c + Z.of_nat n).
Proof.
  intros Hok. revert c. induction n as [| n IH]; intros c Hc.
  - unfold first_clear. by rewrite zseq_nil by lia.
  - cbn [find_clear]. rewrite BMAP_GET_bit by done. unfold first_clear in *.
    rewrite zseq_cons by lia. cbn [List.find].
    destruct (negb (bit bitmap c)); [done |]. rewrite IH by lia. do 2 f_equal. lia.
Qed.

(** A word of ones has no clear bit. *)
Lemma word_ones bitmap i j :
  bytes_ok bitmap -> 0 <= i -> bmap_word bitmap i = 2 ^ (8 * W) - 1 ->
  i * (W * 8) <= j < (i + 1) * (W * 8) -> bit bitmap j = true.
Proof.
  intros Hok Hi Hw Hj. pose proof bitmap_t_pos.
  replace j with (i * (W * 8) + (j - i * (W * 8))) by ring.
  rewrite <- bmap_word_testbit by (done || lia). rewrite Hw. replace (2 ^ (8 * W) - 1) with (Z.ones (8 * W)) by (rewrite Z.ones_equiv; lia).
  apply Z.ones_spec_low. lia.
Qed.

Lemma find_word_spec bitmap start end_ n : forall i,
  bitmap_ok bitmap end_ -> 0 <= start -> start < (i + 1) * (W * 8) -> 0 <= i ->
  i + Z.of_nat n = Z.max i (DIV_ROUND_UP end_ (W * 8)) ->
  find_word bitmap start end_ n i = first_clear bitmap (Z.max (i * (W * 8)) start) end_.
Proof.
  induction n as [| n IH]; intros i Hok Hs Hsi Hi Hn; pose proof bitmap_t_pos;
    pose proof (DIV_ROUND_UP_spec end_ _ word_bits_pos).
  - unfold first_clear. rewrite zseq_nil by nia. done.
  - cbn [find_word]. destruct Hok as [Hb Hl].
    assert (Hrec : find_word bitmap start end_ n (i + 1) =
                   first_clear bitmap (Z.max ((i + 1) * (W * 8)) start) end_).
    { apply IH; [done | lia | nia | lia | lia]. }
    assert (Hend : i * (W * 8) < end_) by nia.
    set (s := Z.max (i * (W * 8)) start). set (m := Z.min ((i + 1) * (W * 8)) end_).
    assert (Hsplit : first_clear bitmap s end_ =
              match first_clear bitmap s m with
              | Some c => Some c
              | None => first_clear bitmap (Z.max ((i + 1) * (W * 8)) start) end_
              end).
    { destruct (Z.le_gt_cases s m).
      - rewrite (first_clear_split _ s m) by lia. destruct (first_clear bitmap s m); [done |].
        destruct (Z.le_gt_cases end_ ((i + 1) * (W * 8))).
        + unfold first_clear. by rewrite !zseq_nil by lia.
        + do 2 f_equal; lia.
      - unfold first_clear. by rewrite !zseq_nil by nia. }
    rewrite Hsplit, Hrec. destruct (Z.eqb_spec (bmap_word bitmap i) (2 ^ (8 * W) - 1)) as [Hw | Hw].
    + replace (first_clear bitmap s m) with (@None Z); [done |]. symmetry.
      apply first_clear_None. intros d Hd. apply (word_ones _ i); [done | done | done | nia].
    + cbv zeta. replace (i * W * 8) with (i * (W * 8)) by ring.
      replace ((i + 1) * W * 8) with ((i + 1) * (W * 8)) by ring. fold s m.
      rewrite find_clear_spec by (done || lia).
      destruct (Z.le_gt_cases s m).
      * by replace (s + Z.of_nat (Z.to_nat (m - s))) with m by lia.
      * unfold first_clear. by rewrite !zseq_nil by lia.
Qed.

(** [find_bit_and_set] finds the first clear bit and sets it. *)
Lemma find_bit_and_set_spec bitmap start end_ :
  bitmap_ok bitmap end_ -> 0 <= start ->
  find_bit_and_set bitmap start end_ =
  match first_clear bitmap start end_ with
  | Some c => (u32 (c + EXFAT_FIRST_DATA_CLUSTER), BMAP_SET bitmap c)
  | None => (EXFAT_CLUSTER_END, bitmap)
  end.
Proof.
  intros Hok Hs. pose proof bitmap_t_pos. unfold find_bit_and_set.
  rewrite Z.div_div by lia.
  pose proof (Z.div_mod start _ word_bits_neq). pose proof (Z.mod_pos_bound start _ word_bits_pos).
  assert (0 <= start / (W * 8)) by (apply Z.div_pos; lia).
  rewrite find_word_spec; [| done | done | nia | done | lia].
  replace (Z.max (start / (W * 8) * (W * 8)) start) with start by nia. done.
Qed.
End Search.

(** ** Counting *)

Definition count_used (bitmap : list Z) (n : Z) : Z :=
  zlen (List.filter (bit bitmap) (zseq 0 n)).

Definition count_free (bitmap : list Z) (n : Z) : Z :=
  zlen (List.filter (fun i => negb (bit bitmap i)) (zseq 0 n)).

Lemma count_used_free bitmap n : 0 <= n -> count_used bitmap n + count_free bitmap n = n.
Proof.
  intros. unfold count_used, count_free. rewrite <- (zlen_zseq 0 n) at 3 by done.
  induction (zseq 0 n) as [| x l IH]; [done |]. cbn [List.filter].
  destruct (bit bitmap x); cbn [negb]; rewrite !zlen_cons; lia.
Qed.

Lemma zlen_filter_le {A} (f : A -> bool) l : 0 <= zlen (List.filter f l) <= zlen l.
Proof.
  unfold zlen. pose proof (List.filter_length_le f l). lia.
Qed.

Lemma count_used_step bitmap n m :
  0 <= n -> 0 <= m ->
  count_used bitmap (n + m) = count_used bitmap n + zlen (List.filter (bit bitmap) (zseq n m)).
Proof.
  intros. unfold count_used. by rewrite zseq_app, List.filter_app, zlen_app by lia.
Qed.
