(* ===== verification/Geometry.v ===== *)
(** * Geometry: sectors, clusters and offsets (libexfat/cluster.c, exfat.h)

    The arithmetic between byte offsets, sectors and clusters, at the widths
    of the source: clusters are [uint32_t], offsets are 64 bits wide. *)

From Stdlib Require Import ZArith Lia.
From stdpp Require Import base numbers list gmap.
From S2P Require Import Prelude Bytes Monad Ondisk State.

#[local] Open Scope Z_scope.

(** ** Definitions *)

Definition SECTOR_SIZE (sb : super_block) : Z := Z.shiftl 1 (sb_sector_bits sb).
Definition CLUSTER_SIZE (sb : super_block) : Z := Z.shiftl (SECTOR_SIZE sb) (sb_spc_bits sb).

Definition CLUSTER_INVALID (sb : super_block) (c : Z) : bool :=
  (c <? EXFAT_FIRST_DATA_CLUSTER) ||
  (sb_cluster_count sb <=? u32 (c - EXFAT_FIRST_DATA_CLUSTER)).

Definition s2o (ef : exfat) (sector : Z) : Z := Z.shiftl sector (sb_sector_bits (ef_sb ef)).

Definition c2s {S} (ef : exfat) (cluster : Z) : M S Z :=
  if cluster <? EXFAT_FIRST_DATA_CLUSTER then exfat_bug
  else ret (sb_cluster_sector_start (ef_sb ef) +
            Z.shiftl (cluster - EXFAT_FIRST_DATA_CLUSTER) (sb_spc_bits (ef_sb ef))).

Definition exfat_c2o {S} (ef : exfat) (cluster : Z) : M S Z :=
  let! sector := c2s ef cluster in ret (s2o ef sector).

Definition s2c (ef : exfat) (sector : Z) : Z :=
  u32 (Z.shiftr (sector - sb_cluster_sector_start (ef_sb ef)) (sb_spc_bits (ef_sb ef)) +
       EXFAT_FIRST_DATA_CLUSTER).

Definition bytes2clusters (ef : exfat) (bytes : Z) : Z :=
  let cluster_size := CLUSTER_SIZE (ef_sb ef) in
  u32 (u64 (bytes + cluster_size - 1) / cluster_size).

(** ** Well-formed geometry *)

(** The layout that the format prescribes: the table of clusters and the
    clusters do not overlap, and every cluster has a place in the table.
    ([exfat_mount] checks the sector and cluster sizes and the device size.) *)
Record geometry_ok (sb : super_block) : Prop := {
  go_sector_bits : 9 <= sb_sector_bits sb <= 12;
  go_cluster_bits : sb_sector_bits sb + sb_spc_bits sb <= 25;
  go_spc_bits : 0 <= sb_spc_bits sb;
  go_fat_start : 0 <= sb_fat_sector_start sb;
  go_cluster_start : sb_fat_sector_start sb + sb_fat_sector_count sb <= sb_cluster_sector_start sb;
  go_cluster_start32 : in_u 32 (sb_cluster_sector_start sb);
  go_cluster_count : 0 <= sb_cluster_count sb <= EXFAT_LAST_DATA_CLUSTER - 1;
  go_fat : 4 * (sb_cluster_count sb + 2) <= sb_fat_sector_count sb * SECTOR_SIZE sb
}.

(** A cluster that exists. *)
Definition valid_cluster (sb : super_block) (c : Z) : Prop :=
  2 <= c < sb_cluster_count sb + 2.

#[global] Instance valid_cluster_dec sb c : Decision (valid_cluster sb c).
Proof. unfold valid_cluster. apply _. Defined.

(** The byte offsets of a cluster and of its entry in the FAT. *)
Definition cluster_off (sb : super_block) (c : Z) : Z :=
  sb_cluster_sector_start sb * SECTOR_SIZE sb + (c - 2) * CLUSTER_SIZE sb.
Definition fat_off (sb : super_block) (c : Z) : Z :=
  sb_fat_sector_start sb * SECTOR_SIZE sb + c * 4.

Section Geometry.
Context (sb : super_block) (Hg : geometry_ok sb).

Lemma SECTOR_SIZE_pow : SECTOR_SIZE sb = 2 ^ sb_sector_bits sb.
Proof.
  unfold SECTOR_SIZE. destruct Hg. rewrite Z.shiftl_mul_pow2 by lia. lia.
Qed.

Lemma CLUSTER_SIZE_pow : CLUSTER_SIZE sb = 2 ^ (sb_sector_bits sb + sb_spc_bits sb).
Proof.
  unfold CLUSTER_SIZE. destruct Hg. rewrite Z.shiftl_mul_pow2, SECTOR_SIZE_pow by lia.
  by rewrite Z.pow_add_r by lia.
Qed.

Lemma CLUSTER_SIZE_mul : CLUSTER_SIZE sb = SECTOR_SIZE sb * 2 ^ sb_spc_bits sb.
Proof. unfold CLUSTER_SIZE. destruct Hg. by rewrite Z.shiftl_mul_pow2 by lia. Qed.

Lemma SECTOR_SIZE_range : 512 <= SECTOR_SIZE sb <= 4096.
Proof.
  rewrite SECTOR_SIZE_pow. destruct Hg. change 512 with (2 ^ 9). change 4096 with (2 ^ 12).
  split; apply Z.pow_le_mono_r; lia.
Qed.

Lemma CLUSTER_SIZE_range : 512 <= CLUSTER_SIZE sb <= 2 ^ 25.
Proof.
  rewrite CLUSTER_SIZE_pow. destruct Hg. change 512 with (2 ^ 9).
  split; apply Z.pow_le_mono_r; lia.
Qed.

Lemma CLUSTER_INVALID_spec c :
  in_u 32 c -> CLUSTER_INVALID sb c = negb (bool_decide (valid_cluster sb c)).
Proof.
  intros Hc. destruct Hg. unfold CLUSTER_INVALID, EXFAT_FIRST_DATA_CLUSTER, in_u in *.
  case_bool_decide as Hv; unfold valid_cluster in Hv.
  - rewrite u32_small by (unfold in_u; lia). by zdec.
  - destruct (Z.ltb_spec c 2); [done |]. rewrite u32_small by (unfold in_u; lia). by zdec.
Qed.

Lemma CLUSTER_INVALID_valid c : valid_cluster sb c -> CLUSTER_INVALID sb c = false.
Proof.
  intros Hv. rewrite CLUSTER_INVALID_spec by
    (destruct Hg; unfold valid_cluster, in_u, EXFAT_LAST_DATA_CLUSTER in *; lia).
  by rewrite bool_decide_true.
Qed.

Lemma CLUSTER_INVALID_END : CLUSTER_INVALID sb EXFAT_CLUSTER_END = true.
Proof.
  rewrite CLUSTER_INVALID_spec by (unfold in_u, EXFAT_CLUSTER_END; lia).
  rewrite bool_decide_false; [done |].
  destruct Hg. unfold valid_cluster, EXFAT_CLUSTER_END, EXFAT_LAST_DATA_CLUSTER in *. lia.
Qed.

Lemma valid_cluster_u32 c : valid_cluster sb c -> in_u 32 c.
Proof. destruct Hg. unfold valid_cluster, in_u, EXFAT_LAST_DATA_CLUSTER in *. lia. Qed.

(** The FAT ends before the clusters begin, and clusters do not overlap. *)
Lemma fat_before_clusters c d :
  valid_cluster sb c -> 2 <= d -> fat_off sb c + 4 <= cluster_off sb d.
Proof.
  intros Hc Hd. pose proof SECTOR_SIZE_range. pose proof CLUSTER_SIZE_range.
  destruct Hg. unfold fat_off, cluster_off, valid_cluster in *. nia.
Qed.

Lemma clusters_disjoint c d :
  c < d -> cluster_off sb c + CLUSTER_SIZE sb <= cluster_off sb d.
Proof. intros. pose proof CLUSTER_SIZE_range. unfold cluster_off. nia. Qed.

End Geometry.

Section Offsets.
Context (ef : exfat) (Hg : geometry_ok (ef_sb ef)).
#[local] Abbreviation sb := (ef_sb ef).

Lemma exfat_c2o_valid {S} c (s : S) :
  2 <= c -> exfat_c2o ef c s = Ok (cluster_off sb c) s.
Proof.
  intros. unfold exfat_c2o, c2s, s2o, cluster_off, bind, ret, EXFAT_FIRST_DATA_CLUSTER.
  zdec. rewrite (CLUSTER_SIZE_mul sb Hg), (SECTOR_SIZE_pow sb Hg). destruct Hg.
  rewrite !Z.shiftl_mul_pow2 by lia. f_equal. ring.
Qed.

Lemma s2o_mul sector : s2o ef sector = sector * SECTOR_SIZE sb.
Proof. unfold s2o. rewrite (SECTOR_SIZE_pow sb Hg). destruct Hg. by rewrite Z.shiftl_mul_pow2 by lia. Qed.

Lemma bytes2clusters_small bytes :
  0 <= bytes < 2 ^ 32 * CLUSTER_SIZE sb - CLUSTER_SIZE sb ->
  bytes2clusters ef bytes = DIV_ROUND_UP bytes (CLUSTER_SIZE sb).
Proof.
  intros Hb. pose proof (CLUSTER_SIZE_range sb Hg). unfold bytes2clusters, DIV_ROUND_UP.
  cbv zeta. rewrite (u64_small (bytes + _ - 1)) by (unfold in_u; lia).
  apply u32_small. unfold in_u. split; [apply Z.div_pos; lia |].
  apply Z.div_lt_upper_bound; lia.
Qed.
End Offsets.

(** Sectors and clusters convert into each other: a sector of a cluster
    that exists leads back to the cluster, for every volume that mounts. *)
Theorem s2c_c2s ef c k (Hg : geometry_ok (ef_sb ef)) (Hc : valid_cluster (ef_sb ef) c)
  (Hk : 0 <= k < 2 ^ sb_spc_bits (ef_sb ef)) :
  (let! sector := c2s ef c in ret (s2c ef (sector + k))) tt = Ok c tt.
Proof.
  pose proof (valid_cluster_u32 _ Hg c Hc) as Hc32. destruct Hg.
  unfold valid_cluster in Hc. unfold c2s, bind, ret, s2c, EXFAT_FIRST_DATA_CLUSTER. zdec.
  f_equal. rewrite Z.shiftl_mul_pow2, Z.shiftr_div_pow2 by lia.
  replace (_ + _ + k - _) with (k + (c - 2) * 2 ^ sb_spc_bits (ef_sb ef)) by ring.
  rewrite Z.div_add, Z.div_small by lia.
  rewrite u32_small; [ring | by replace (0 + (c - 2) + 2) with c by ring].
Qed.

(** A small volume on which theorems are tried out: 512-byte clusters, 8 of
    them, a FAT of one sector. *)
Definition demo_sb : super_block := {|
  sb_jump := [0xeb; 0x76; 0x90]; sb_oem_name := [0x45; 0x58; 0x46; 0x41; 0x54; 0x20; 0x20; 0x20];
  sb___unused1 := zrepeat 0 53;
  sb_sector_start := 0; sb_sector_count := 10; sb_fat_sector_start := 1; sb_fat_sector_count := 1;
  sb_cluster_sector_start := 2; sb_cluster_count := 8; sb_rootdir_cluster := 4;
  sb_volume_serial := 0; sb_version_minor := 0; sb_version_major := 1; sb_volume_state := 0;
  sb_sector_bits := 9; sb_spc_bits := 0; sb_fat_count := 1; sb_drive_no := 0x80;
  sb_allocated_percent := 0; sb___unused2 := zrepeat 0 397; sb_boot_signature := 0xAA55
|}.

Definition demo_ef : exfat := {|
  ef_sb := demo_sb; ef_upcase := []; ef_cmap_start_cluster := 2; ef_cmap_size := 8;
  ef_cmap_chunk := [0x0f; 0; 0; 0; 0; 0; 0; 0]; ef_cmap_chunk_size := 8; ef_cmap_dirty := false;
  ef_label := []; ef_dmask := 0; ef_fmask := 0; ef_uid := 0; ef_gid := 0; ef_ro := 0;
  ef_noatime := false; ef_repair := EXFAT_REPAIR_NO
|}.

Lemma demo_geometry : geometry_ok demo_sb.
Proof. split; vm_compute; repeat split; discriminate. Qed.

Lemma s2c_c2s_witness :
  (let! sector := c2s (S := unit) demo_ef 9 in ret (s2c demo_ef (sector + 0))) tt = Ok 9 tt.
Proof.
  apply (s2c_c2s demo_ef 9 0); [exact demo_geometry | |]; vm_compute; split; discriminate || done.
Defined.

Definition demo_os : env := {|
  os_medium := fun a => a mod 251; os_size := 5120; os_mode := EXFAT_MODE_RW;
  os_rfail := fun _ _ => false; os_wfail := fun _ _ => false; os_fsync_fails := false;
  os_clock := fun n => 1700000000 + Z.of_nat n; os_ticks := O; os_malloc_fails := fun _ => false;
  os_mallocs := O; os_stdin := []; os_timezone := 0; os_errors := 0; os_errors_fixed := 0
|}.

(** A file of 600 bytes in the clusters 4 and 5. *)
Definition demo_node : exfat_node := {|
  n_parent := None; n_child := None; n_next := None; n_prev := None; n_references := 1;
  n_fptr_index := 0; n_fptr_cluster := 4; n_entry_offset := 0; n_start_cluster := 4;
  n_attrib := EXFAT_ATTRIB_ARCH; n_continuations := 2; n_is_contiguous := true;
  n_is_cached := false; n_is_dirty := false; n_is_unlinked := false; n_valid_size := 550;
  n_size := 600; n_mtime := 0; n_atime := 0; n_name := []
|}.

Definition demo_vol : vol := mk_vol demo_ef demo_os.
Definition demo_state : nstate := mk_nstate demo_vol demo_node.
