(* ===== verification/Cluster.v ===== *)
(** * Cluster: chains of clusters, allocation and truncation (libexfat/cluster.c)

    The operations of cluster.c on a volume ([vol]) or on one node of it
    ([nstate]), in the order of the source. *)

From Stdlib Require Import ZArith Lia.
From stdpp Require Import base numbers list gmap.
From S2P Require Import Prelude Bytes Monad Ondisk State Bitmap Geometry.

#[local] Open Scope Z_scope.

Section Cluster.
Context `{Platform}.

(** ** Following a chain *)

Definition exfat_next_cluster (cluster : Z) : M nstate Z :=
  let! s := get_state in
  let ef := s_ef s in
  if cluster <? EXFAT_FIRST_DATA_CLUSTER then exfat_bug
  else if n_is_contiguous (s_node s) then ret (u32 (cluster + 1))
  else
    let fat_offset := s2o ef (sb_fat_sector_start (ef_sb ef)) + cluster * 4 in
    let! next := on_os (exfat_pread 4 fat_offset) in
    match next with
    | None => ret EXFAT_CLUSTER_BAD
    | Some next => ret (le_val next)
    end.

(** The loop of [exfat_advance_cluster]: [n] turns are left. *)
Fixpoint advance_loop (n : nat) : M nstate unit :=
  match n with
  | O => ret tt
  | S n =>
      let! s := get_state in
      let! next := exfat_next_cluster (n_fptr_cluster (s_node s)) in
      set_node (set_n_fptr_cluster next);;
      if CLUSTER_INVALID (ef_sb (s_ef s)) next then ret tt else advance_loop n
  end.

Definition exfat_advance_cluster (count : Z) : M nstate Z :=
  let! s := get_state in
  when (count <? n_fptr_index (s_node s))
    (set_node (fun n => set_n_fptr_cluster (n_start_cluster n) (set_n_fptr_index 0 n)));;
  let! s := get_state in
  advance_loop (Z.to_nat (count - n_fptr_index (s_node s)));;
  set_node (set_n_fptr_index count);;
  gets (fun s => n_fptr_cluster (s_node s)).

(** ** The bitmap and the FAT *)

Definition exfat_flush : M vol Z :=
  let! v := get_state in
  let ef := v_ef v in
  if ef_cmap_dirty ef then
    let! off := exfat_c2o ef (ef_cmap_start_cluster ef) in
    let! ok := on_part (exfat_pwrite (sub (ef_cmap_chunk ef) 0 (BMAP_SIZE (ef_cmap_chunk_size ef))) off) in
    if negb ok then on_part exfat_error;; ret (- EIO)
    else
      modify (fun v => set_v_ef (set_ef_cmap_dirty false (v_ef v)) v);;
      ret 0
  else ret 0.

(** [true]: the link is written, or needs not to be. *)
Definition set_next_cluster (contiguous : bool) (current next : Z) : M vol bool :=
  let! v := get_state in
  let ef := v_ef v in
  if contiguous then ret true
  else
    let fat_offset := s2o ef (sb_fat_sector_start (ef_sb ef)) + current * 4 in
    let! ok := on_part (exfat_pwrite (le_bytes 4 next) fat_offset) in
    if negb ok then on_part exfat_error;; ret false
    else ret true.

Definition allocate_cluster (hint : Z) : M vol Z :=
  let! v := get_state in
  let ef := v_ef v in
  let hint := u32 (hint - EXFAT_FIRST_DATA_CLUSTER) in
  let hint := if ef_cmap_chunk_size ef <=? hint then 0 else hint in
  let (cluster, chunk) := find_bit_and_set (ef_cmap_chunk ef) hint (ef_cmap_chunk_size ef) in
  let (cluster, chunk) :=
    if cluster =? EXFAT_CLUSTER_END then find_bit_and_set chunk 0 hint else (cluster, chunk) in
  if cluster =? EXFAT_CLUSTER_END then
    on_part exfat_error;; ret EXFAT_CLUSTER_END
  else
    modify (fun v => set_v_ef (set_ef_cmap_dirty true (set_ef_cmap_chunk chunk (v_ef v))) v);;
    ret cluster.

Definition free_cluster (cluster : Z) : M vol unit :=
  let! v := get_state in
  let ef := v_ef v in
  if ef_cmap_size ef <=? u32 (cluster - EXFAT_FIRST_DATA_CLUSTER) then exfat_bug
  else
    modify (fun v =>
      set_v_ef (set_ef_cmap_dirty true
        (set_ef_cmap_chunk
           (BMAP_CLR (ef_cmap_chunk ef) (u32 (cluster - EXFAT_FIRST_DATA_CLUSTER))) (v_ef v))) v).

(** The loop of [make_noncontiguous]: [n] clusters from [c]. *)
Fixpoint make_noncontiguous_loop (n : nat) (c : Z) : M vol bool :=
  match n with
  | O => ret true
  | S n =>
      let! ok := set_next_cluster false c (u32 (c + 1)) in
      if negb ok then ret false else make_noncontiguous_loop n (c + 1)
  end.

Definition make_noncontiguous (first last : Z) : M vol bool :=
  make_noncontiguous_loop (Z.to_nat (last - first)) first.

(** ** Shrinking and growing a file *)

(** The loop of [shrink_file] that frees [n] clusters from [previous]. *)
Fixpoint free_loop (n : nat) (previous : Z) : M nstate Z :=
  match n with
  | O => ret 0
  | S n =>
      let! s := get_state in
      if CLUSTER_INVALID (ef_sb (s_ef s)) previous then on_os exfat_error;; ret (- EIO)
      else
        let! next := exfat_next_cluster previous in
        let! ok := on_vol (set_next_cluster (n_is_contiguous (s_node s)) previous EXFAT_CLUSTER_FREE) in
        if negb ok then ret (- EIO)
        else
          on_vol (free_cluster previous);;
          free_loop n next
  end.

Definition shrink_file (current difference : Z) : M nstate Z :=
  let! s := get_state in
  if difference =? 0 then exfat_bug
  else if n_start_cluster (s_node s) =? EXFAT_CLUSTER_FREE then exfat_bug
  else if current <? difference then exfat_bug
  else
    (* the first cluster to free, or the code of an early return *)
    let! crop :=
      if difference <? current then
        let! last := exfat_advance_cluster (current - difference - 1) in
        if CLUSTER_INVALID (ef_sb (s_ef s)) last then on_os exfat_error;; ret (inr (- EIO))
        else
          let! previous := exfat_next_cluster last in
          let! ok := on_vol (set_next_cluster (n_is_contiguous (s_node s)) last EXFAT_CLUSTER_END) in
          if negb ok then ret (inr (- EIO)) else ret (inl previous)
      else
        set_node (fun n => set_n_is_dirty true (set_n_start_cluster EXFAT_CLUSTER_FREE n));;
        ret (inl (n_start_cluster (s_node s))) in
    match crop with
    | inr rc => ret rc
    | inl previous =>
        set_node (fun n => set_n_fptr_cluster (n_start_cluster n) (set_n_fptr_index 0 n));;
        free_loop (Z.to_nat difference) previous
    end.

(** The loop of [grow_file] that allocates [n] clusters after [previous],
    [allocated] being allocated, and its end. *)
Fixpoint grow_loop (n : nat) (current previous allocated : Z) : M nstate Z :=
  let! s := get_state in
  match n with
  | O =>
      let! ok := on_vol (set_next_cluster (n_is_contiguous (s_node s)) previous EXFAT_CLUSTER_END) in
      ret (if negb ok then - EIO else 0)
  | S n =>
      let! next := on_vol (allocate_cluster (u32 (previous + 1))) in
      if CLUSTER_INVALID (ef_sb (s_ef s)) next then
        (if negb (allocated =? 0) then
           shrink_file (u32 (current + allocated)) allocated;; ret tt
         else ret tt);;
        ret (- ENOSPC)
      else
        let! ok :=
          if negb (next =? u32 (previous + 1)) && n_is_contiguous (s_node s) then
            let! ok := on_vol (make_noncontiguous (n_start_cluster (s_node s)) previous) in
            if negb ok then ret false
            else
              set_node (fun n => set_n_is_dirty true (set_n_is_contiguous false n));;
              ret true
          else ret true in
        if negb ok then ret (- EIO)
        else
          let! s := get_state in
          let! ok := on_vol (set_next_cluster (n_is_contiguous (s_node s)) previous next) in
          if negb ok then ret (- EIO)
          else grow_loop n current next (allocated + 1)
  end.

Definition grow_file (current difference : Z) : M nstate Z :=
  if difference =? 0 then exfat_bug
  else
    let! s := get_state in
    if negb (n_start_cluster (s_node s) =? EXFAT_CLUSTER_FREE) then
      let! previous := exfat_advance_cluster (u32 (current - 1)) in
      if CLUSTER_INVALID (ef_sb (s_ef s)) previous then on_os exfat_error;; ret (- EIO)
      else grow_loop (Z.to_nat difference) current previous 0
    else if negb (n_fptr_index (s_node s) =? 0) then exfat_bug
    else
      let! previous := on_vol (allocate_cluster 0) in
      if CLUSTER_INVALID (ef_sb (s_ef s)) previous then ret (- ENOSPC)
      else
        set_node (fun n =>
          set_n_is_contiguous true (set_n_start_cluster previous (set_n_fptr_cluster previous n)));;
        grow_loop (Z.to_nat (difference - 1)) current previous 1.

(** ** Erasing *)

(** [ef->zero_cluster] holds one cluster of zeros; [size] is at most that. *)
Definition erase_raw (size offset : Z) : M vol bool :=
  let! ok := on_part (exfat_pwrite (zrepeat 0 size) offset) in
  if negb ok then on_part exfat_error;; ret false else ret true.

(** The loop of [erase_range] over whole clusters; [n] turns are left. *)
Fixpoint erase_loop (n : nat) (cluster : Z) : M nstate Z :=
  match n with
  | O => ret 0
  | S n =>
      let! cluster := exfat_next_cluster cluster in
      let! s := get_state in
      let ef := s_ef s in
      if CLUSTER_INVALID (ef_sb ef) cluster then exfat_bug
      else
        let! off := exfat_c2o ef cluster in
        let! ok := on_vol (erase_raw (CLUSTER_SIZE (ef_sb ef)) off) in
        if negb ok then ret (- EIO) else erase_loop n cluster
  end.

Definition erase_range (begin end_ : Z) : M nstate Z :=
  if end_ <=? begin then ret 0
  else
    let! s := get_state in
    let ef := s_ef s in
    let cs := CLUSTER_SIZE (ef_sb ef) in
    let cluster_boundary := u64 (Z.lor begin (cs - 1) + 1) in
    let! cluster := exfat_advance_cluster (u32 (begin / cs)) in
    if CLUSTER_INVALID (ef_sb ef) cluster then on_os exfat_error;; ret (- EIO)
    else
      let! off := exfat_c2o ef cluster in
      let! ok := on_vol (erase_raw (Z.min cluster_boundary end_ - begin) (off + begin mod cs)) in
      if negb ok then ret (- EIO)
      else erase_loop (Z.to_nat (DIV_ROUND_UP (end_ - cluster_boundary) cs)) cluster.

Definition exfat_truncate (size : Z) (erase : bool) : M nstate Z :=
  let! s := get_state in
  let ef := s_ef s in
  let node := s_node s in
  let c1 := bytes2clusters ef (n_size node) in
  let c2 := bytes2clusters ef size in
  if (n_references node =? 0) && bool_decide (is_Some (n_parent node)) then exfat_bug
  else if n_size node =? size then ret 0
  else
    and_then
      (if c1 <? c2 then grow_file c1 (c2 - c1)
       else if c2 <? c1 then shrink_file c1 (c1 - c2)
       else ret 0)
      (and_then
         (if erase then
            let! s := get_state in
            and_then (erase_range (n_valid_size (s_node s)) size)
              (set_node (set_n_valid_size size);; ret 0)
          else
            set_node (fun n => set_n_valid_size (Z.min (n_valid_size n) size) n);; ret 0)
         (exfat_update_mtime;;
          set_node (fun n => set_n_is_dirty true (set_n_size size n));;
          ret 0)).

(** ** Counting and finding clusters *)

Definition nibble_bits (x : Z) : Z :=
  znth [0; 1; 1; 2; 1; 2; 2; 3; 1; 2; 2; 3; 2; 3; 3; 4] x.

Definition exfat_count_free_clusters (ef : exfat) : Z :=
  let bytes := ef_cmap_chunk ef in
  let whole := ef_cmap_size ef / 8 in
  let used :=
    fold_left (fun used i =>
        u32 (used + (nibble_bits (Z.land (znth bytes i) 0xf) + nibble_bits (Z.shiftr (znth bytes i) 4))))
      (zseq 0 whole) 0 in
  let used :=
    fold_left (fun used i => if BMAP_GET bytes i then u32 (used + 1) else used)
      (zseq (whole * 8) (ef_cmap_size ef - whole * 8)) used in
  u32 (ef_cmap_size ef - used).

(** The first cluster from [a], among [n], that is used. *)
Fixpoint find_used (chunk : list Z) (n : nat) (a : Z) : Z :=
  match n with
  | O => a
  | S n =>
      if BMAP_GET chunk (u32 (a - EXFAT_FIRST_DATA_CLUSTER)) then a
      else find_used chunk n (a + 1)
  end.

(** The cluster before the first one that is free; [end] when there is none. *)
Fixpoint find_last_used (chunk : list Z) (n : nat) (b : Z) : Z :=
  match n with
  | O => b
  | S n =>
      if negb (BMAP_GET chunk (u32 (b - EXFAT_FIRST_DATA_CLUSTER))) then u32 (b - 1)
      else find_last_used chunk n (b + 1)
  end.

(** [None]: no more used clusters (the source returns 1). *)
Definition find_used_clusters (ef : exfat) (b : Z) : option (Z * Z) :=
  let end_ := sb_cluster_count (ef_sb ef) in
  let a0 := u32 (b + 1) in
  let a := find_used (ef_cmap_chunk ef) (Z.to_nat (end_ - a0)) a0 in
  if end_ <=? a then None
  else Some (a, find_last_used (ef_cmap_chunk ef) (Z.to_nat (end_ - a)) a).

(** The pair [(a, b)] after the call, or [None] when it returns 1. *)
Definition exfat_find_used_sectors {S} (ef : exfat) (a b : Z) : M S (option (Z * Z)) :=
  let cb :=
    if (a =? 0) && (b =? 0) then EXFAT_FIRST_DATA_CLUSTER - 1 else s2c ef b in
  match find_used_clusters ef cb with
  | None => ret None
  | Some (ca, cb) =>
      let! a :=
        if negb (a =? 0) || negb (b =? 0) then c2s ef ca else ret a in
      let! sector := c2s ef cb in
      ret (Some (a, sector + (CLUSTER_SIZE (ef_sb ef) - 1) / SECTOR_SIZE (ef_sb ef)))
  end.
End Cluster.
