(* ===== verification/FileIO.v ===== *)
(** * FileIO: reading and writing the content of a node (libexfat/io.c)

    [exfat_generic_pread] and [exfat_generic_pwrite].  The caller's buffer is a
    list of bytes; [memcpy] and [memset] into it are [splice].  A loop takes
    at most one turn per byte, which is the fuel it is given. *)

From Stdlib Require Import ZArith Lia.
From stdpp Require Import base numbers list gmap.
From S2P Require Import Prelude Bytes Monad Ondisk State Bitmap Geometry Cluster.

#[local] Open Scope Z_scope.

Section FileIO.
Context `{Platform}.

Definition is_dir (n : exfat_node) : bool := negb (Z.land (n_attrib n) EXFAT_ATTRIB_DIR =? 0).

(** ** Definitions *)

(** The loop of [exfat_generic_pread]: [buf] has been filled up to [pos], and
    [remainder] bytes are to be read from [cluster] on.  [Some rc] is an early
    return; the other results are the final [remainder] and the buffer. *)
Fixpoint pread_loop (fuel : nat) (cluster loffset pos remainder : Z) (buf : list Z)
  : M nstate (option Z * Z * list Z) :=
  if remainder <=? 0 then ret (None, remainder, buf)
  else
    match fuel with
    | O => diverge
    | S fuel =>
        let! s := get_state in
        let ef := s_ef s in
        if CLUSTER_INVALID (ef_sb ef) cluster then on_os exfat_error;; ret (Some (- EIO), remainder, buf)
        else
          let lsize := Z.min (CLUSTER_SIZE (ef_sb ef) - loffset) remainder in
          let! off := exfat_c2o ef cluster in
          let! r := on_os (exfat_pread lsize (off + loffset)) in
          match r with
          | None => on_os exfat_error;; ret (Some (- EIO), remainder, buf)
          | Some bytes =>
              let! cluster := exfat_next_cluster cluster in
              pread_loop fuel cluster 0 (pos + lsize) (remainder - lsize) (splice buf pos bytes)
          end
    end.

(** The body of [exfat_generic_pread]; [again] is the call of itself. *)
Definition pread_body (again : list Z -> Z -> Z -> M nstate (Z * list Z))
  (buffer : list Z) (size offset : Z) : M nstate (Z * list Z) :=
  let! s := get_state in
  let node := s_node s in
  let ef := s_ef s in
  if offset <? 0 then ret (- EINVAL, buffer)
  else if n_size node <=? offset then ret (0, buffer)
  else if size =? 0 then ret (0, buffer)
  else if n_valid_size node <? u64 (offset + size) then
    let! r :=
      if offset <? n_valid_size node then
        let! (bytes, buf) := again buffer (n_valid_size node - offset) offset in
        if (bytes <? 0) || (bytes <? n_valid_size node - offset) then ret (inl (bytes, buf))
        else ret (inr (bytes, buf))
      else ret (inr (0, buffer)) in
    match r with
    | inl r => ret r
    | inr (bytes, buf) =>
        let! s := get_state in
        let node := s_node s in
        let zeros := zrepeat 0 (Z.min (size - bytes) (n_size node - n_valid_size node)) in
        ret (Z.min size (n_size node - offset), splice buf bytes zeros)
    end
  else
    let cs := CLUSTER_SIZE (ef_sb ef) in
    let! cluster := exfat_advance_cluster (u32 (offset / cs)) in
    if CLUSTER_INVALID (ef_sb ef) cluster then on_os exfat_error;; ret (- EIO, buffer)
    else
      let remainder := Z.min size (n_size node - offset) in
      let! (early, remainder, buf) :=
        pread_loop (Z.to_nat remainder) cluster (offset mod cs) 0 remainder buffer in
      match early with
      | Some rc => ret (rc, buf)
      | None =>
          when (negb (is_dir node) && (ef_ro ef =? 0) && negb (ef_noatime ef)) exfat_update_atime;;
          ret (Z.min size (n_size node - offset) - remainder, buf)
      end.

(** The source calls itself at most once, for the valid part of the request:
    [depth] is that bound. *)
Fixpoint generic_pread (depth : nat) (buffer : list Z) (size offset : Z) : M nstate (Z * list Z) :=
  match depth with
  | O => diverge
  | S depth => pread_body (generic_pread depth) buffer size offset
  end.

Definition exfat_generic_pread : list Z -> Z -> Z -> M nstate (Z * list Z) := generic_pread 2.

(** The loop of [exfat_generic_pwrite]: [data] is what is left to write, and
    [done] bytes of [size] at [offset] have been written. *)
Fixpoint pwrite_loop (fuel : nat) (cluster loffset offset size : Z) (data : list Z) (remainder : Z)
  : M nstate (Z + Z) :=
  if remainder <=? 0 then ret (inr remainder)
  else
    match fuel with
    | O => diverge
    | S fuel =>
        let! s := get_state in
        let ef := s_ef s in
        if CLUSTER_INVALID (ef_sb ef) cluster then on_os exfat_error;; ret (inl (- EIO))
        else
          let lsize := Z.min (CLUSTER_SIZE (ef_sb ef) - loffset) remainder in
          let! off := exfat_c2o ef cluster in
          let! ok := on_os (exfat_pwrite (sub data 0 lsize) (off + loffset)) in
          if negb ok then on_os exfat_error;; ret (inl (- EIO))
          else
            let remainder := remainder - lsize in
            set_node (fun n => set_n_valid_size (Z.max (n_valid_size n) (u64 (offset + size - remainder))) n);;
            let! cluster := exfat_next_cluster cluster in
            pwrite_loop fuel cluster 0 offset size (drop (Z.to_nat lsize) data) remainder
    end.

(** The part of [exfat_generic_pwrite] after the file is long enough. *)
Definition pwrite_body (data : list Z) (size offset : Z) : M nstate Z :=
  let! s := get_state in
  let ef := s_ef s in
  let cs := CLUSTER_SIZE (ef_sb ef) in
  if size =? 0 then ret 0
  else
    let! cluster := exfat_advance_cluster (u32 (offset / cs)) in
    if CLUSTER_INVALID (ef_sb ef) cluster then on_os exfat_error;; ret (- EIO)
    else
      let! r := pwrite_loop (Z.to_nat size) cluster (offset mod cs) offset size data size in
      match r with
      | inl rc => ret rc
      | inr remainder =>
          let! s := get_state in
          when (negb (is_dir (s_node s))) exfat_update_mtime;;
          ret (size - remainder)
      end.

Definition exfat_generic_pwrite (data : list Z) (size offset : Z) : M nstate Z :=
  if offset <? 0 then ret (- EINVAL)
  else
    let! s := get_state in
    and_then
      (if n_size (s_node s) <? offset then exfat_truncate offset true else ret 0)
      (let! s := get_state in
       and_then
         (if n_size (s_node s) <? u64 (offset + size) then exfat_truncate (u64 (offset + size)) false
          else ret 0)
         (pwrite_body data size offset)).
End FileIO.
