(* ===== verification/Chain.v ===== *)
(** * Chain: what a chain of clusters is

    The abstraction of cluster.c.  [fat_next] is the successor of a cluster in
    the FAT, [used] the bit of a cluster in the bitmap; [open_chain] relates
    the fields of a node to the list of its clusters.  The lemmas here give
    each elementary operation of Cluster.v its effect on these. *)

From Stdlib Require Import ZArith Lia.
From stdpp Require Import base numbers list gmap.
From S2P Require Import Prelude Bytes Monad Ondisk State Bitmap Geometry Cluster.

#[local] Open Scope Z_scope.

(** ** Projections of a volume *)

Definition v_sb (v : vol) : super_block := ef_sb (v_ef v).
Definition v_medium (v : vol) : mem := os_medium (v_os v).
Definition v_chunk (v : vol) : list Z := ef_cmap_chunk (v_ef v).

(** The device serves every request. *)
Definition no_faults (e : env) : Prop :=
  (forall off len, os_rfail e off len = false) /\ (forall off len, os_wfail e off len = false).

(** [vset v m chunk d er]: [v] with another medium, bitmap and error count. *)
Definition vset (v : vol) (m : mem) (chunk : list Z) (d : bool) (er : Z) : vol :=
  mk_vol (set_ef_cmap_dirty d (set_ef_cmap_chunk chunk (v_ef v)))
         (set_os_errors er (set_os_medium m (v_os v))).

(** [v'] differs from [v] in these only. *)
Definition vframe (v v' : vol) : Prop := exists m chunk d er, v' = vset v m chunk d er.

Lemma vset_self v : vset v (v_medium v) (v_chunk v) (ef_cmap_dirty (v_ef v)) (os_errors (v_os v)) = v.
Proof. by destruct v as [[] []]. Qed.

Lemma vset_errors v e :
  set_v_os (set_os_errors e (v_os v)) v = vset v (v_medium v) (v_chunk v) (ef_cmap_dirty (v_ef v)) e.
Proof. by destruct v as [[] []]. Qed.

Lemma vset_chunk v ch :
  set_v_ef (set_ef_cmap_dirty true (set_ef_cmap_chunk ch (v_ef v))) v =
  vset v (v_medium v) ch true (os_errors (v_os v)).
Proof. by destruct v as [[] []]. Qed.

Lemma vset_vset v m c d e m' c' d' e' : vset (vset v m c d e) m' c' d' e' = vset v m' c' d' e'.
Proof. done. Qed.

#[export] Instance vframe_preorder : PreOrder vframe.
Proof.
  split.
  - intros v. do 4 eexists. symmetry. apply vset_self.
  - intros v1 v2 v3 (m & c & d & e & ->) (m' & c' & d' & e' & ->).
    do 4 eexists. apply vset_vset.
Qed.

Lemma vframe_sb v v' : vframe v v' -> v_sb v' = v_sb v.
Proof. by intros (? & ? & ? & ? & ->). Qed.

(** The fields of a node that the operations on clusters do not touch. *)
Definition nset (n : exfat_node) (fi fc st : Z) (ct d : bool) : exfat_node :=
  set_n_is_dirty d (set_n_is_contiguous ct (set_n_start_cluster st
    (set_n_fptr_cluster fc (set_n_fptr_index fi n)))).

Definition nframe (n n' : exfat_node) : Prop := exists fi fc st ct d, n' = nset n fi fc st ct d.

#[export] Instance nframe_preorder : PreOrder nframe.
Proof.
  split.
  - intros n. exists (n_fptr_index n), (n_fptr_cluster n), (n_start_cluster n),
      (n_is_contiguous n), (n_is_dirty n). by destruct n.
  - intros n1 n2 n3 (a & b & c & d & e & ->) (a' & b' & c' & d' & e' & ->).
    by exists a', b', c', d', e'.
Qed.

(** ** Well-formed volumes *)

Section Chain.
Context `{Platform}.

Record vol_ok (v : vol) : Prop := {
  vo_geometry : geometry_ok (v_sb v);
  vo_size : ef_cmap_size (v_ef v) = sb_cluster_count (v_sb v);
  vo_chunk_size : ef_cmap_chunk_size (v_ef v) = sb_cluster_count (v_sb v);
  vo_bitmap : bitmap_ok (v_chunk v) (sb_cluster_count (v_sb v));
  vo_faults : no_faults (v_os v)
}.

Lemma vol_ok_vset v m chunk d er :
  vol_ok v -> bitmap_ok chunk (sb_cluster_count (v_sb v)) -> vol_ok (vset v m chunk d er).
Proof. by intros [] ?; split. Qed.

(** Whether a cluster is allocated. *)
Definition used (v : vol) (c : Z) : bool := bit (v_chunk v) (c - 2).

(** The entry of a cluster in the FAT. *)
Definition fat_next (sb : super_block) (m : mem) (c : Z) : Z := le_val (mread m (fat_off sb c) 4).

(** Each cluster of [cs] leads to the next. *)
Definition links (sb : super_block) (m : mem) (contiguous : bool) (cs : list Z) : Prop :=
  forall i, 0 <= i -> i + 1 < zlen cs ->
    (if contiguous then znth cs i + 1 else fat_next sb m (znth cs i)) = znth cs (i + 1).

(** The last cluster of [cs] ends the chain. *)
Definition terminated (sb : super_block) (m : mem) (contiguous : bool) (cs : list Z) : Prop :=
  contiguous = false -> cs <> [] -> fat_next sb m (znth cs (zlen cs - 1)) = EXFAT_CLUSTER_END.

(** The cached position of a node is a position of its chain. *)
Definition fptr_ok (n : exfat_node) (cs : list Z) : Prop :=
  match cs with
  | [] => n_fptr_index n = 0
  | _ => 0 <= n_fptr_index n < zlen cs /\ n_fptr_cluster n = znth cs (n_fptr_index n)
  end.

(** [cs] are the clusters of the node; its last one may lack a terminator. *)
Record open_chain (s : nstate) (cs : list Z) : Prop := {
  oc_valid : Forall (valid_cluster (v_sb (s_vol s))) cs;
  oc_used : Forall (fun c => used (s_vol s) c = true) cs;
  oc_nodup : NoDup cs;
  oc_links : links (v_sb (s_vol s)) (v_medium (s_vol s)) (n_is_contiguous (s_node s)) cs;
  oc_start : n_start_cluster (s_node s) = znth cs 0;
  oc_fptr : fptr_ok (s_node s) cs
}.

Definition chain (s : nstate) (cs : list Z) : Prop :=
  open_chain s cs /\
  terminated (v_sb (s_vol s)) (v_medium (s_vol s)) (n_is_contiguous (s_node s)) cs.

(** [m'] differs from [m] in the FAT entries of [cs] only. *)
Definition fat_frame (sb : super_block) (m m' : mem) (cs : list Z) : Prop :=
  forall a, (forall c, c ∈ cs -> ~ fat_off sb c <= a < fat_off sb c + 4) -> m' a = m a.

Lemma fat_frame_refl sb m cs : fat_frame sb m m cs.
Proof. by intros a _. Qed.

Lemma fat_frame_trans sb m m' m'' cs :
  fat_frame sb m m' cs -> fat_frame sb m' m'' cs -> fat_frame sb m m'' cs.
Proof. intros H1 H2 a Ha. rewrite H2 by done. by apply H1. Qed.

Lemma fat_frame_mono sb m m' cs ds :
  (forall c, c ∈ cs -> c ∈ ds) -> fat_frame sb m m' cs -> fat_frame sb m m' ds.
Proof. intros Hs Hf a Ha. apply Hf. auto. Qed.

Lemma fat_frame_write sb m c v : fat_frame sb m (mwrite m (fat_off sb c) (le_bytes 4 v)) [c].
Proof.
  intros a Ha. specialize (Ha c ltac:(left)). apply mwrite_out. rewrite zlen_le_bytes. lia.
Qed.

Lemma fat_next_frame sb m m' cs c :
  fat_frame sb m m' cs -> c ∉ cs -> fat_next sb m' c = fat_next sb m c.
Proof.
  intros Hf Hc. unfold fat_next. f_equal. apply mread_ext. intros a Ha. apply Hf.
  intros d Hd Had. unfold fat_off in *. assert (c = d) by lia. by subst.
Qed.

Lemma fat_next_write sb m c v : in_u 32 v ->
  fat_next sb (mwrite m (fat_off sb c) (le_bytes 4 v)) c = v.
Proof.
  intros Hv. unfold fat_next.
  pose proof (mread_mwrite_same m (fat_off sb c) (le_bytes 4 v)) as E.
  rewrite zlen_le_bytes in E. change (Z.of_nat 4) with 4 in E. rewrite E. by apply le_val_field.
Qed.

Lemma fat_next_write_other sb m c d v : c <> d ->
  fat_next sb (mwrite m (fat_off sb c) (le_bytes 4 v)) d = fat_next sb m d.
Proof.
  intros Hcd. apply (fat_next_frame _ _ _ [c]); [apply fat_frame_write |].
  rewrite list_elem_of_singleton. congruence.
Qed.

(** ** Positions of a chain *)

Lemma znth_inj cs i j :
  NoDup cs -> 0 <= i < zlen cs -> 0 <= j < zlen cs -> znth cs i = znth cs j -> i = j.
Proof.
  intros Hn Hi Hj E. rewrite !znth_nth in E by lia.
  apply NoDup_ListNoDup in Hn. rewrite (NoDup_nth cs 0) in Hn. unfold zlen in *.
  specialize (Hn (Z.to_nat i) (Z.to_nat j) ltac:(lia) ltac:(lia) E). lia.
Qed.

Lemma links_contiguous sb m cs i : links sb m true cs -> 0 <= i < zlen cs -> znth cs i = znth cs 0 + i.
Proof.
  intros Hl [Hi Hi']. revert Hi'. pattern i. apply natlike_ind; [lia | | done].
  intros n Hn IH Hn'. specialize (Hl n Hn ltac:(lia)). cbn in Hl.
  unfold Z.succ. rewrite <- Hl, IH by lia. lia.
Qed.

Lemma links_take sb m ct cs n : 0 <= n <= zlen cs -> links sb m ct cs -> links sb m ct (sub cs 0 n).
Proof.
  intros Hn Hl i Hi Hi'. rewrite zlen_sub in Hi' by lia.
  rewrite !znth_sub by lia. apply Hl; lia.
Qed.

(** The links of a list depend on the entries of all but its last cluster. *)
Lemma links_frame sb m m' ct cs ds :
  fat_frame sb m m' ds ->
  (forall i, 0 <= i -> i + 1 < zlen cs -> znth cs i ∉ ds) ->
  links sb m ct cs -> links sb m' ct cs.
Proof.
  intros Hf Hd Hl i Hi Hi'. rewrite <- (Hl i Hi Hi'). destruct ct; [done |].
  apply (fat_next_frame _ _ _ ds); auto.
Qed.

(** ** Elementary operations *)

Lemma exfat_pread_ok (e : env) n off :
  no_faults e -> exfat_pread n off e = Ok (Some (mread (os_medium e) off n)) e.
Proof. intros [Hr _]. unfold exfat_pread, gets. by rewrite Hr. Qed.

Lemma exfat_pwrite_ok (e : env) data off :
  no_faults e ->
  exfat_pwrite data off e = Ok true (set_os_medium (mwrite (os_medium e) off data) e).
Proof. intros [_ Hw]. unfold exfat_pwrite. by rewrite Hw. Qed.

Section Op.
Context (s : nstate) (Hv : vol_ok (s_vol s)).
#[local] Abbreviation sb := (v_sb (s_vol s)).

Lemma next_cluster_spec c :
  2 <= c ->
  exfat_next_cluster c s =
  Ok (if n_is_contiguous (s_node s) then u32 (c + 1) else fat_next sb (v_medium (s_vol s)) c) s.
Proof.
  intros Hc. unfold exfat_next_cluster. rewrite (bind_ok _ _ _ s s) by done.
  unfold EXFAT_FIRST_DATA_CLUSTER. zdec. destruct (n_is_contiguous (s_node s)); [done |].
  erewrite bind_ok by apply on_os_ok, exfat_pread_ok, Hv. unfold ret.
  unfold fat_next, fat_off, v_medium, s_ef, s_os. rewrite s2o_mul by apply Hv.
  f_equal. by destruct s as [[] ?].
Qed.

Lemma next_cluster_link cs i :
  Forall (valid_cluster sb) cs -> links sb (v_medium (s_vol s)) (n_is_contiguous (s_node s)) cs ->
  0 <= i -> i + 1 < zlen cs ->
  exfat_next_cluster (znth cs i) s = Ok (znth cs (i + 1)) s.
Proof.
  intros Hval Hl Hi Hi'.
  pose proof (znth_Forall _ _ i Hval ltac:(lia)) as V1.
  pose proof (znth_Forall _ _ (i + 1) Hval ltac:(lia)) as V2.
  rewrite next_cluster_spec by (unfold valid_cluster in V1; lia). f_equal.
  specialize (Hl i Hi Hi'). destruct (n_is_contiguous (s_node s)); [| done].
  rewrite Hl. apply u32_small, (valid_cluster_u32 (v_sb (s_vol s))); [apply Hv | done].
Qed.
End Op.

(** Moving the cached position along a chain. *)
Lemma advance_loop_spec cs n : forall s i,
  vol_ok (s_vol s) -> Forall (valid_cluster (v_sb (s_vol s))) cs ->
  links (v_sb (s_vol s)) (v_medium (s_vol s)) (n_is_contiguous (s_node s)) cs ->
  0 <= i -> i + Z.of_nat n < zlen cs -> n_fptr_cluster (s_node s) = znth cs i ->
  advance_loop n s = Ok tt (set_s_node (set_n_fptr_cluster (znth cs (i + Z.of_nat n)) (s_node s)) s).
Proof.
  induction n as [| n IH]; intros s i Hv Hval Hl Hi Hn Hf; cbn [advance_loop].
  - rewrite Z.add_0_r, <- Hf. by destruct s as [? []].
  - rewrite (bind_ok _ _ _ s s) by done. rewrite Hf.
    erewrite bind_ok by (apply (next_cluster_link s Hv cs i); (done || lia)).
    erewrite bind_ok by done. cbn [s_ef s_vol set_s_node v_ef].
    pose proof (znth_Forall _ _ (i + 1) Hval ltac:(lia)) as V.
    unfold s_ef. rewrite CLUSTER_INVALID_valid; [| apply Hv | done].
    rewrite (IH _ (i + 1)); [| done | done | done | lia | lia | done].
    unfold set_s_node, set_n_fptr_cluster. cbn. do 3 f_equal. f_equal. lia.
Qed.

Definition set_fptr (i c : Z) (n : exfat_node) : exfat_node :=
  set_n_fptr_cluster c (set_n_fptr_index i n).

Lemma advance_cluster_spec s cs count :
  vol_ok (s_vol s) -> open_chain s cs -> 0 <= count < zlen cs ->
  exfat_advance_cluster count s =
  Ok (znth cs count) (set_s_node (set_fptr count (znth cs count) (s_node s)) s).
Proof.
  intros Hv [Hval Hu Hnd Hl Hst Hf] Hc. unfold exfat_advance_cluster.
  assert (Hf' : 0 <= n_fptr_index (s_node s) < zlen cs /\
                n_fptr_cluster (s_node s) = znth cs (n_fptr_index (s_node s))).
  { destruct cs; [unfold zlen in Hc; simpl in Hc; lia | done]. }
  destruct Hf' as [Hi Hfc]. rewrite (bind_ok _ _ _ s s) by done.
  destruct (Z.ltb_spec count (n_fptr_index (s_node s))) as [Hlt | Hge]; unfold when.
  - erewrite bind_ok by done. erewrite bind_ok by done. cbn [s_node set_s_node set_n_fptr_cluster n_fptr_index set_n_fptr_index].
    erewrite bind_ok by (apply (advance_loop_spec cs _ _ 0); [done | done | done | lia | lia | exact Hst]).
    rewrite Z2Nat.id by lia. cbn. unfold bind, set_node, modify, gets. cbn.
    by replace (count - 0) with count by lia.
  - rewrite (bind_ok _ _ _ tt s) by done. rewrite (bind_ok _ _ _ s s) by done.
    erewrite bind_ok by (apply (advance_loop_spec cs _ _ (n_fptr_index (s_node s))); (done || lia)).
    rewrite Z2Nat.id by lia. unfold bind, set_node, modify, gets. cbn.
    by replace (n_fptr_index (s_node s) + (count - n_fptr_index (s_node s))) with count by lia.
Qed.

(** Only the cached position of the node changes. *)
Lemma open_chain_fptr s cs i :
  open_chain s cs -> 0 <= i < zlen cs ->
  open_chain (set_s_node (set_fptr i (znth cs i) (s_node s)) s) cs.
Proof. intros [] Hi. split; try done. destruct cs; [change (zlen (@nil Z)) with 0 in Hi; lia | done]. Qed.

Section VolOp.
Context (v : vol) (Hv : vol_ok v).

Definition write_fat (c next : Z) : vol :=
  vset v (mwrite (v_medium v) (fat_off (v_sb v) c) (le_bytes 4 next)) (v_chunk v)
    (ef_cmap_dirty (v_ef v)) (os_errors (v_os v)).

Lemma set_next_cluster_spec contiguous c next :
  set_next_cluster contiguous c next v =
  Ok true (if contiguous then v else write_fat c next).
Proof.
  unfold set_next_cluster. rewrite (bind_ok _ _ _ v v) by done. destruct contiguous; [done |].
  erewrite bind_ok by apply on_env_ok, exfat_pwrite_ok, Hv. cbn [negb]. unfold ret.
  rewrite s2o_mul by apply Hv. f_equal. unfold write_fat, vset, v_medium, v_chunk, fat_off, v_sb.
  by destruct v as [[] []].
Qed.

(** The cluster that is allocated for a hint, counted from 0. *)
Definition next_free (hint : Z) : option Z :=
  let n := sb_cluster_count (v_sb v) in
  let hint := if n <=? hint then 0 else hint in
  match first_clear (v_chunk v) hint n with
  | Some c => Some c
  | None => first_clear (v_chunk v) 0 hint
  end.

Lemma next_free_Some hint c :
  0 <= hint -> next_free hint = Some c ->
  0 <= c < sb_cluster_count (v_sb v) /\ bit (v_chunk v) c = false.
Proof.
  unfold next_free. intros Hh. destruct (Z.leb_spec (sb_cluster_count (v_sb v)) hint);
    (destruct (first_clear _ _ _) as [d |] eqn:E1; [intros [= <-] | intros E2]).
  all: try (apply first_clear_Some in E1 as (? & ? & ?); split; [lia | done]).
  all: apply first_clear_Some in E2 as (? & ? & ?); split; [lia | done].
Qed.

Lemma next_free_None hint :
  0 <= hint ->
  next_free hint = None <->
  forall c, 0 <= c < sb_cluster_count (v_sb v) -> bit (v_chunk v) c = true.
Proof.
  unfold next_free. intros Hh.
  destruct (Z.leb_spec (sb_cluster_count (v_sb v)) hint);
    (destruct (first_clear (v_chunk v) _ (sb_cluster_count (v_sb v))) as [d |] eqn:E1; split; intros H1).
  all: try done.
  all: try (apply first_clear_Some in E1 as (? & Hb & ?); by rewrite H1 in Hb by lia).
  all: try (apply first_clear_None; intros; apply H1; lia).
  all: intros c Hc; rewrite first_clear_None in E1; try (apply E1; lia).
  destruct (Z.le_gt_cases hint c); [apply E1; lia |].
  rewrite first_clear_None in H1. apply H1. lia.
Qed.

Lemma cluster_count_bound : 0 <= sb_cluster_count (v_sb v) <= 0xfffffff5.
Proof. destruct (vo_geometry _ Hv). unfold EXFAT_LAST_DATA_CLUSTER in *. lia. Qed.

Definition take_cluster (c : Z) : vol :=
  vset v (v_medium v) (BMAP_SET (v_chunk v) c) true (os_errors (v_os v)).

Lemma allocate_cluster_spec hint :
  in_u 32 hint ->
  allocate_cluster hint v =
  match next_free (u32 (hint - 2)) with
  | Some c => Ok (c + 2) (take_cluster c)
  | None => Ok EXFAT_CLUSTER_END
              (vset v (v_medium v) (v_chunk v) (ef_cmap_dirty (v_ef v)) (os_errors (v_os v) + 1))
  end.
Proof.
  intros Hh. pose proof cluster_count_bound as Hcc. pose proof (u32_range (hint - 2)) as Hu.
  unfold in_u in Hu. unfold allocate_cluster. rewrite (bind_ok _ _ _ v v) by done.
  rewrite (vo_chunk_size _ Hv). fold (v_chunk v). cbv zeta. unfold EXFAT_FIRST_DATA_CLUSTER.
  unfold next_free. set (n := sb_cluster_count (v_sb v)) in *.
  set (h := if n <=? u32 (hint - 2) then 0 else u32 (hint - 2)).
  assert (Hh' : 0 <= h <= n). { unfold h. destruct (Z.leb_spec n (u32 (hint - 2))); lia. }
  pose proof (vo_bitmap _ Hv) as Hb. fold n in Hb.
  assert (Hfit : forall c, 0 <= c < n -> u32 (c + 2) = c + 2 /\ (c + 2 =? EXFAT_CLUSTER_END) = false).
  { intros c Hc. unfold EXFAT_CLUSTER_END. rewrite u32_small by (unfold in_u; lia). split; [done |].
    apply Z.eqb_neq. lia. }
  rewrite (find_bit_and_set_spec _ h n) by (done || lia). unfold EXFAT_FIRST_DATA_CLUSTER.
  destruct (first_clear (v_chunk v) h n) as [c |] eqn:E1.
  - apply first_clear_Some in E1 as (Hc & _). destruct (Hfit c ltac:(lia)) as [E2 E3].
    unfold take_cluster. by rewrite E2, !E3, <- vset_chunk.
  - rewrite Z.eqb_refl.
    assert (Hb' : bitmap_ok (v_chunk v) h).
    { destruct Hb as [Hb1 Hb2]. split; [done |]. etrans; [| exact Hb2].
      unfold BMAP_SIZE, ROUND_UP. apply Z.div_le_mono; [lia |].
      apply Z.mul_le_mono_nonneg_r; [pose proof word_bits_pos; lia |].
      unfold DIV_ROUND_UP. apply Z.div_le_mono; [apply word_bits_pos | lia]. }
    rewrite (find_bit_and_set_spec _ 0 h) by (done || lia).
    destruct (first_clear (v_chunk v) 0 h) as [c |] eqn:E2.
    + apply first_clear_Some in E2 as (Hc & _). unfold EXFAT_FIRST_DATA_CLUSTER.
      destruct (Hfit c ltac:(lia)) as [E3 E4]. unfold take_cluster.
      by rewrite E3, !E4, <- vset_chunk.
    + by rewrite Z.eqb_refl, <- vset_errors.
Qed.

Definition drop_cluster (c : Z) : vol :=
  vset v (v_medium v) (BMAP_CLR (v_chunk v) (c - 2)) true (os_errors (v_os v)).

Lemma free_cluster_spec c :
  valid_cluster (v_sb v) c -> free_cluster c v = Ok tt (drop_cluster c).
Proof.
  intros Hc. pose proof cluster_count_bound. unfold valid_cluster in Hc.
  unfold free_cluster. rewrite (bind_ok _ _ _ v v) by done.
  rewrite (vo_size _ Hv). unfold EXFAT_FIRST_DATA_CLUSTER.
  rewrite u32_small by (unfold in_u; lia). zdec. unfold modify. f_equal.
  unfold drop_cluster, vset, v_chunk. by destruct v as [[] []].
Qed.
End VolOp.
End Chain.
