(* ===== verification/Truncate.v ===== *)
(** * Truncate: growing, shrinking and truncating a file

    The theorems about [grow_file], [shrink_file] and [exfat_truncate] of
    cluster.c: on a volume whose device works, they turn the chain of a node
    into the chain that was asked for, or leave it as it was when the volume
    is full, and no other cluster is touched. *)

From Stdlib Require Import ZArith Lia.
From stdpp Require Import base numbers list gmap.
From S2P Require Import Prelude Bytes Monad Ondisk State Bitmap Geometry Cluster Chain.

#[local] Open Scope Z_scope.

(** ** Counting free clusters *)

Lemma filter_remove_one {A} `{EqDecision A} (p q : A -> bool) (l : list A) c :
  NoDup l -> c ∈ l -> p c = true -> q c = false -> (forall x, x <> c -> q x = p x) ->
  zlen (List.filter p l) = zlen (List.filter q l) + 1.
Proof.
  intros Hn Hc Hp Hq Hx.
  assert (Hsame : forall k, c ∉ k -> List.filter q k = List.filter p k).
  { induction k as [| x k IH]; [done |]. intros Hk. apply not_elem_of_cons in Hk as [H1 H2].
    cbn [List.filter]. rewrite (Hx x) by congruence. by rewrite IH. }
  induction Hn as [| x l Hxl Hn IH]; [by apply not_elem_of_nil in Hc |].
  cbn [List.filter]. destruct (decide (x = c)) as [-> | Hne].
  - rewrite Hp, Hq, zlen_cons, Hsame by done. lia.
  - apply elem_of_cons in Hc as [| Hc]; [congruence |]. rewrite (Hx x) by done.
    specialize (IH Hc). destruct (p x); rewrite ?zlen_cons; lia.
Qed.

Lemma NoDup_zseq a n : NoDup (zseq a n).
Proof.
  rewrite zseq_seq. apply NoDup_fmap_2; [| apply NoDup_seq]. intros x y E. lia.
Qed.

Section Truncate.
Context `{Platform}.

(** The number of free clusters of a volume. *)
Definition free_count (v : vol) : Z := count_free (v_chunk v) (sb_cluster_count (v_sb v)).

Lemma free_count_take v c :
  vol_ok v -> 0 <= c < sb_cluster_count (v_sb v) -> bit (v_chunk v) c = false ->
  free_count v = free_count (take_cluster v c) + 1.
Proof.
  intros Hv Hc Hb. unfold free_count, count_free.
  assert (E : forall l, Forall (fun x => 0 <= x < sb_cluster_count (v_sb v)) l ->
    List.filter (fun i => negb (bit (v_chunk (take_cluster v c)) i)) l =
    List.filter (fun i => negb (bool_decide (i = c) || bit (v_chunk v) i)) l).
  { intros l Hl. apply filter_ext_in. intros x Hx. rewrite Forall_forall in Hl.
    specialize (Hl x ltac:(by apply list_elem_of_In)). cbn beta in Hl.
    change (v_chunk (take_cluster v c)) with (BMAP_SET (v_chunk v) c).
    by rewrite (bit_BMAP_SET _ (sb_cluster_count (v_sb v))) by (apply Hv || lia). }
  rewrite E.
  2: { apply Forall_forall. intros x Hx. apply elem_of_zseq in Hx.
       change (v_sb (take_cluster v c)) with (v_sb v) in Hx. cbn beta. lia. }
  apply (filter_remove_one _ _ _ c).
  - apply NoDup_zseq.
  - apply elem_of_zseq. lia.
  - by rewrite Hb.
  - by rewrite bool_decide_true.
  - intros x Hx. by rewrite bool_decide_false.
Qed.

Lemma free_count_zero v :
  (forall c, 0 <= c < sb_cluster_count (v_sb v) -> bit (v_chunk v) c = true) -> free_count v = 0.
Proof.
  intros Hall. unfold free_count, count_free.
  replace (List.filter _ _) with (@nil Z); [done |].
  symmetry. apply List.length_zero_iff_nil.
  destruct (List.filter _ _) as [| x l] eqn:E; [done | exfalso].
  assert (Hx : In x (x :: l)) by (left; done). rewrite <- E in Hx. apply filter_In in Hx as [Hin Hx].
  apply list_elem_of_In, elem_of_zseq in Hin. rewrite Hall in Hx by lia. done.
Qed.

(** ** What an operation on a chain did to the volume *)

(** From [v] to [v'] the clusters [add] were allocated and [del] freed, and
    the FAT entries of [touched] may have changed; nothing else did. *)
Record moved (v v' : vol) (touched add del : list Z) : Prop := {
  mv_frame : vframe v v';
  mv_ok : vol_ok v';
  mv_fat : fat_frame (v_sb v) (v_medium v) (v_medium v') touched;
  mv_used : forall c, valid_cluster (v_sb v) c ->
    used v' c = (used v c || bool_decide (c ∈ add)) && bool_decide (c ∉ del)
}.

Lemma moved_refl v l : vol_ok v -> moved v v l [] [].
Proof.
  intros Hv. split; [done | done | apply fat_frame_refl |]. intros c _.
  rewrite (bool_decide_false (c ∈ [])), (bool_decide_true (c ∉ [])) by set_solver.
  by rewrite orb_false_r, andb_true_r.
Qed.

Lemma moved_sb v v' t a d : moved v v' t a d -> v_sb v' = v_sb v.
Proof. intros []. by apply vframe_sb. Qed.

Lemma moved_add v v' v'' t a1 a2 :
  moved v v' t a1 [] -> moved v' v'' t a2 [] -> moved v v'' t (a1 ++ a2) [].
Proof.
  intros M1 M2. pose proof (moved_sb _ _ _ _ _ M1) as Hsb.
  destruct M1 as [F1 O1 T1 U1], M2 as [F2 O2 T2 U2]. split.
  - by etrans.
  - done.
  - rewrite Hsb in T2. by eapply fat_frame_trans.
  - intros c Hc. rewrite U2, U1 by (rewrite ?Hsb; done).
    rewrite (bool_decide_true (c ∉ [])) by set_solver. rewrite !andb_true_r, <- orb_assoc. f_equal.
    repeat case_bool_decide; set_solver.
Qed.

Lemma moved_del v v' v'' t d1 d2 :
  moved v v' t [] d1 -> moved v' v'' t [] d2 -> moved v v'' t [] (d1 ++ d2).
Proof.
  intros M1 M2. pose proof (moved_sb _ _ _ _ _ M1) as Hsb.
  destruct M1 as [F1 O1 T1 U1], M2 as [F2 O2 T2 U2]. split.
  - by etrans.
  - done.
  - rewrite Hsb in T2. by eapply fat_frame_trans.
  - intros c Hc. rewrite U2, U1 by (rewrite ?Hsb; done).
    rewrite !(bool_decide_false (c ∈ [])) by set_solver. rewrite !orb_false_r, <- andb_assoc. f_equal.
    repeat case_bool_decide; set_solver.
Qed.

Lemma moved_mono v v' t t' a d :
  (forall c, c ∈ t -> c ∈ t') -> moved v v' t a d -> moved v v' t' a d.
Proof. intros Ht []. split; try done. by eapply fat_frame_mono. Qed.

Lemma moved_write v c next : vol_ok v -> moved v (write_fat v c next) [c] [] [].
Proof.
  intros Hv. pose proof (moved_refl v [c] Hv) as [_ _ _ U]. split.
  - by do 4 eexists.
  - apply vol_ok_vset; [done | apply Hv].
  - apply fat_frame_write.
  - exact U.
Qed.

Lemma moved_drop v c : vol_ok v -> valid_cluster (v_sb v) c -> moved v (drop_cluster v c) [] [] [c].
Proof.
  intros Hv Hc. unfold valid_cluster in Hc. split.
  - by do 4 eexists.
  - apply vol_ok_vset; [done |]. apply BMAP_CLR_ok; [apply Hv | lia].
  - apply fat_frame_refl.
  - intros d Hd. unfold valid_cluster in Hd. unfold used.
    change (v_chunk (drop_cluster v c)) with (BMAP_CLR (v_chunk v) (c - 2)).
    rewrite (bit_BMAP_CLR _ (sb_cluster_count (v_sb v))) by (apply Hv || lia).
    rewrite (bool_decide_false (d ∈ [])), orb_false_r, andb_comm by set_solver. f_equal.
    rewrite <- bool_decide_not. apply bool_decide_ext. rewrite list_elem_of_singleton. lia.
Qed.

Lemma moved_take v c :
  vol_ok v -> 0 <= c < sb_cluster_count (v_sb v) -> moved v (take_cluster v c) [] [c + 2] [].
Proof.
  intros Hv Hc. split.
  - by do 4 eexists.
  - apply vol_ok_vset; [done |]. apply BMAP_SET_ok; [apply Hv | lia].
  - apply fat_frame_refl.
  - intros d Hd. unfold valid_cluster in Hd. unfold used.
    change (v_chunk (take_cluster v c)) with (BMAP_SET (v_chunk v) c).
    rewrite (bit_BMAP_SET _ (sb_cluster_count (v_sb v))) by (apply Hv || lia).
    rewrite (bool_decide_true (d ∉ [])), andb_true_r, orb_comm by set_solver. f_equal.
    apply bool_decide_ext. rewrite list_elem_of_singleton. lia.
Qed.

(** ** Freeing *)

Lemma links_tail sb m ct c ds : links sb m ct (c :: ds) -> links sb m ct ds.
Proof.
  intros Hl i Hi Hi'. specialize (Hl (i + 1) ltac:(lia)). rewrite zlen_cons in Hl.
  specialize (Hl ltac:(lia)). rewrite !znth_nth in * by lia.
  replace (Z.to_nat (i + 1)) with (S (Z.to_nat i)) in * by lia.
  replace (Z.to_nat (i + 1 + 1)) with (S (S (Z.to_nat i))) in Hl by lia. exact Hl.
Qed.

Lemma free_loop_spec ds : forall s,
  vol_ok (s_vol s) -> Forall (valid_cluster (v_sb (s_vol s))) ds -> NoDup ds ->
  links (v_sb (s_vol s)) (v_medium (s_vol s)) (n_is_contiguous (s_node s)) ds ->
  exists v', free_loop (length ds) (znth ds 0) s = Ok 0 (set_s_vol v' s) /\
             moved (s_vol s) v' ds [] ds.
Proof.
  induction ds as [| c ds IH]; intros s Hv Hval Hnd Hl.
  { exists (s_vol s). split; [by destruct s | by apply moved_refl]. }
  apply Forall_cons in Hval as [Hc Hval]. apply NoDup_cons in Hnd as [Hcd Hnd].
  change (znth (c :: ds) 0) with c. cbn [length free_loop].
  set (v := s_vol s) in *. set (ct := n_is_contiguous (s_node s)) in *.
  set (v1 := if ct then v else write_fat v c EXFAT_CLUSTER_FREE).
  assert (M1 : moved v v1 (c :: ds) [] []).
  { apply (moved_mono _ _ [c]); [set_solver |]. unfold v1.
    destruct ct; [by apply moved_refl | by apply moved_write]. }
  assert (Hsb : v_sb v1 = v_sb v) by (eapply moved_sb; eauto).
  assert (M2 : moved v1 (drop_cluster v1 c) (c :: ds) [] [c]).
  { apply (moved_mono _ _ []); [set_solver |]. apply moved_drop; [apply M1 | by rewrite Hsb]. }
  destruct (IH (set_s_vol (drop_cluster v1 c) s)) as (v' & E & M3).
  { apply M2. }
  { nst. by rewrite (moved_sb _ _ _ _ _ M2), Hsb. }
  { done. }
  { nst. fold ct. rewrite (moved_sb _ _ _ _ _ M2), Hsb.
    change (v_medium (drop_cluster v1 c)) with (v_medium v1). apply links_tail in Hl.
    unfold v1. destruct ct; [done |].
    eapply links_frame; [apply fat_frame_write | | exact Hl].
    intros i Hi Hi'. rewrite list_elem_of_singleton. intros Ei. apply Hcd. rewrite <- Ei.
    apply znth_elem. lia. }
  exists v'. split.
  - rewrite (bind_ok _ _ _ s s) by done. unfold s_ef. fold v. change (ef_sb (v_ef v)) with (v_sb v).
    rewrite (CLUSTER_INVALID_valid (v_sb v)) by (apply Hv || done).
    assert (En : exists x, exfat_next_cluster c s = Ok x s /\ (ds <> [] -> x = znth ds 0)).
    { destruct ds as [| d ds].
      - eexists. split; [apply next_cluster_spec; [done | unfold valid_cluster in Hc; lia] | done].
      - exists d. split; [| done]. apply (next_cluster_link s Hv (c :: d :: ds) 0); try done; [by constructor |].
        rewrite !zlen_cons. pose proof (zlen_nonneg ds). lia. }
    destruct En as (x & En & Ex). rewrite (bind_ok _ _ _ _ _ En).
    erewrite bind_ok by (apply on_vol_ok, set_next_cluster_spec, Hv). cbn [negb]. fold ct v v1.
    erewrite bind_ok by (apply on_vol_ok, free_cluster_spec; [apply M1 | nst; by rewrite Hsb]).
    destruct ds as [| d ds]; [exact E | by rewrite Ex by done].
  - change (c :: ds) with ([c] ++ ds). apply (moved_del _ (drop_cluster v1 c)).
    + pose proof (moved_del _ _ _ _ [] [c] M1 M2) as M. exact M.
    + apply (moved_mono _ _ ds); [set_solver | exact M3].
Qed.

(** ** Shrinking *)

Lemma links_app sb m ct a b :
  links sb m ct (a ++ b) <->
  links sb m ct a /\ links sb m ct b /\
  (a <> [] -> b <> [] ->
   (if ct then znth a (zlen a - 1) + 1 else fat_next sb m (znth a (zlen a - 1))) = znth b 0).
Proof.
  pose proof (zlen_nonneg a). pose proof (zlen_nonneg b). unfold links. rewrite zlen_app. split.
  - intros Hl. split_and!.
    + intros i Hi Hi'. specialize (Hl i Hi ltac:(lia)). by rewrite !znth_app_l in Hl by lia.
    + intros i Hi Hi'. specialize (Hl (zlen a + i) ltac:(lia) ltac:(lia)).
      rewrite !znth_app_r in Hl by lia.
      replace (zlen a + i - zlen a) with i in Hl by lia.
      by replace (zlen a + i + 1 - zlen a) with (i + 1) in Hl by lia.
    + intros Ha Hb.
      pose proof (zlen_pos _ Ha). pose proof (zlen_pos _ Hb).
      specialize (Hl (zlen a - 1) ltac:(lia) ltac:(lia)).
      rewrite znth_app_l, (znth_app_r _ _ (zlen a - 1 + 1)) in Hl by lia.
      by replace (zlen a - 1 + 1 - zlen a) with 0 in Hl by lia.
  - intros (Hla & Hlb & Hj) i Hi Hi'. destruct (Z.lt_trichotomy (i + 1) (zlen a)) as [Hc | [Hc | Hc]].
    + rewrite !znth_app_l by lia. by apply Hla.
    + rewrite znth_app_l, (znth_app_r _ _ (i + 1)) by lia.
      replace i with (zlen a - 1) by lia. replace (zlen a - 1 + 1 - zlen a) with 0 by lia.
      apply Hj; apply zlen_nonempty; lia.
    + rewrite !znth_app_r by lia. replace (i + 1 - zlen a) with (i - zlen a + 1) by lia.
      apply Hlb; lia.
Qed.

Lemma terminated_frame sb m m' ct cs ds :
  fat_frame sb m m' ds -> (forall x, x ∈ cs -> x ∉ ds) ->
  terminated sb m ct cs -> terminated sb m' ct cs.
Proof.
  intros Hf Hd Ht Hct Hcs. rewrite <- (Ht Hct Hcs). apply (fat_next_frame _ _ _ ds); [done |].
  apply Hd, znth_elem. pose proof (zlen_pos _ Hcs). lia.
Qed.

Lemma links_frame_disj sb m m' ct cs ds :
  fat_frame sb m m' ds -> (forall x, x ∈ cs -> x ∉ ds) -> links sb m ct cs -> links sb m' ct cs.
Proof. intros Hf Hd. apply (links_frame _ _ _ _ _ ds Hf). intros. apply Hd, znth_elem. lia. Qed.

(** The fields of a node after its chain was cropped. *)
Definition cropped (n : exfat_node) (kept : list Z) : exfat_node :=
  let n := if decide (kept = []) then set_n_is_dirty true (set_n_start_cluster 0 n) else n in
  set_fptr 0 (n_start_cluster n) n.

Lemma cropped_contiguous n kept : n_is_contiguous (cropped n kept) = n_is_contiguous n.
Proof. unfold cropped. by case_decide. Qed.

Lemma cropped_start n kept cs :
  n_start_cluster n = znth (kept ++ cs) 0 ->
  n_start_cluster (cropped n kept) = znth kept 0 /\ fptr_ok (cropped n kept) kept.
Proof.
  intros Hst. unfold cropped. case_decide as E; [subst; split; done |].
  pose proof (zlen_pos _ E). rewrite znth_app_l in Hst by lia. split; [done |].
  destruct kept; [done |]. split; [cbn; lia | exact Hst].
Qed.

(** The first half of [shrink_file]: cropping. *)
Lemma shrink_crop s kept gone :
  vol_ok (s_vol s) -> open_chain s (kept ++ gone) -> gone <> [] ->
  exists v1,
    moved (s_vol s) v1 kept [] [] /\
    links (v_sb v1) (v_medium v1) (n_is_contiguous (s_node s)) kept /\
    links (v_sb v1) (v_medium v1) (n_is_contiguous (s_node s)) gone /\
    terminated (v_sb v1) (v_medium v1) (n_is_contiguous (s_node s)) kept /\
    shrink_file (zlen kept + zlen gone) (zlen gone) s =
    free_loop (length gone) (znth gone 0) (mk_nstate v1 (cropped (s_node s) kept)).
Proof.
  intros Hv Hch Hgone. pose proof Hch as [Hval _ Hnd Hl Hst _].
  set (v := s_vol s) in *. set (ct := n_is_contiguous (s_node s)) in *.
  pose proof (zlen_pos _ Hgone) as Hg. pose proof (zlen_nonneg kept) as Hk.
  pose proof (znth_Forall _ _ 0 Hval ltac:(rewrite zlen_app; lia)) as V0.
  apply links_app in Hl as (Hl1 & Hl2 & Hj). apply NoDup_app in Hnd as (Hn1 & Hd & Hn2).
  assert (Hred : forall k, (if zlen gone =? 0 then exfat_bug
                 else if n_start_cluster (s_node s) =? EXFAT_CLUSTER_FREE then exfat_bug
                 else if zlen kept + zlen gone <? zlen gone then exfat_bug else k : M nstate Z) = k).
  { intros k. rewrite Hst. unfold valid_cluster, EXFAT_CLUSTER_FREE in *. by zdec. }
  unfold shrink_file. rewrite (bind_ok _ _ _ s s) by done. rewrite Hred.
  replace (Z.to_nat (zlen gone)) with (length gone) by (unfold zlen; lia).
  destruct (decide (kept = [])) as [-> | Hkept].
  - exists v. rewrite zlen_nil. zdec.
    split_and!; [by apply moved_refl | exact Hl1 | exact Hl2 | by intros _ [] |].
    erewrite bind_ok by done. unfold cropped. rewrite decide_True by done. cbn [app] in Hst.
    rewrite Hst. by destruct s.
  - pose proof (zlen_pos _ Hkept). exists (if ct then v else write_fat v (znth kept (zlen kept - 1)) EXFAT_CLUSTER_END).
    set (last := znth kept (zlen kept - 1)) in *.
    assert (Hlast : last ∈ kept) by (apply znth_elem; lia).
    assert (Hfr : fat_frame (v_sb v) (v_medium v)
              (v_medium (if ct then v else write_fat v last EXFAT_CLUSTER_END)) [last]).
    { destruct ct; [apply fat_frame_refl | apply fat_frame_write]. }
    assert (Hsb : v_sb (if ct then v else write_fat v last EXFAT_CLUSTER_END) = v_sb v) by by destruct ct.
    rewrite Hsb. split_and!.
    + destruct ct; [by apply moved_refl |].
      apply (moved_mono _ _ [last]); [set_solver | by apply moved_write].
    + eapply links_frame; [exact Hfr | | exact Hl1]. intros i Hi Hi'. rewrite list_elem_of_singleton.
      intros E. apply znth_inj in E; [lia | done | lia | lia].
    + eapply links_frame_disj; [exact Hfr | | exact Hl2]. intros x Hx. rewrite list_elem_of_singleton.
      intros ->. by apply (Hd last).
    + intros -> _. apply fat_next_write. done.
    + assert (Elast : znth (kept ++ gone) (zlen kept - 1) = last) by (by rewrite znth_app_l by lia).
      set (s2 := set_s_node (set_fptr (zlen kept - 1) last (s_node s)) s).
      assert (En : exfat_next_cluster last s2 = Ok (znth gone 0) s2).
      { rewrite <- Elast, (next_cluster_link s2 Hv (kept ++ gone)); [| done | | lia | rewrite zlen_app; lia].
        - rewrite znth_app_r by lia. by replace (zlen kept - 1 + 1 - zlen kept) with 0 by lia.
        - by apply links_app. }
      zdec. replace (zlen kept + zlen gone - zlen gone - 1) with (zlen kept - 1) by lia.
      unfold bind at 1 2.
      rewrite (advance_cluster_spec _ _ _ Hv Hch), Elast by (rewrite zlen_app; lia). fold s2.
      unfold s_ef. fold v. change (ef_sb (v_ef v)) with (v_sb v).
      rewrite (CLUSTER_INVALID_valid (v_sb v)).
      2: apply Hv.
      2: { rewrite <- Elast. apply (znth_Forall _ _ _ Hval). rewrite zlen_app. lia. }
      erewrite bind_ok by apply En.
      erewrite bind_ok by (apply on_vol_ok, set_next_cluster_spec, Hv). cbn [negb].
      unfold ret at 1. erewrite bind_ok by done.
      unfold cropped. rewrite decide_False by done. by destruct s.
Qed.

Lemma used_moved v v' t a d c :
  moved v v' t a d -> valid_cluster (v_sb v) c -> c ∉ d -> used v c = true -> used v' c = true.
Proof.
  intros [_ _ _ U] Hc Hd Hu. by rewrite U, Hu, (bool_decide_true (c ∉ d)) by done.
Qed.

(** [shrink_file] keeps the first clusters of a chain, terminates them, and
    frees the others. *)
Lemma shrink_file_spec s kept gone :
  vol_ok (s_vol s) -> open_chain s (kept ++ gone) -> gone <> [] ->
  exists v', let s' := mk_nstate v' (cropped (s_node s) kept) in
    shrink_file (zlen kept + zlen gone) (zlen gone) s = Ok 0 s' /\
    moved (s_vol s) v' (kept ++ gone) [] gone /\ chain s' kept.
Proof.
  intros Hv Hch Hgone. destruct (shrink_crop s kept gone Hv Hch Hgone) as (v1 & M1 & L1 & L2 & T1 & E).
  pose proof Hch as [Hval Hus Hnd _ Hst _].
  apply Forall_app in Hval as [Hv1 Hv2]. apply Forall_app in Hus as [Hu1 _].
  apply NoDup_app in Hnd as (Hn1 & Hd & Hn2).
  pose proof (moved_sb _ _ _ _ _ M1) as Hsb.
  pose proof (cropped_contiguous (s_node s) kept) as Hct.
  destruct (free_loop_spec gone (mk_nstate v1 (cropped (s_node s) kept))) as (v' & E2 & M2).
  { apply M1. } { cbn [s_vol]. by rewrite Hsb. } { done. } { cbn [s_vol s_node]. by rewrite Hct. }
  cbn [s_vol] in M2. pose proof (moved_sb _ _ _ _ _ M2) as Hsb2.
  destruct (cropped_start (s_node s) kept gone Hst) as [Hs1 Hs2].
  exists v'. cbv zeta. split_and!.
  - by rewrite E, E2.
  - apply (moved_del _ v1 _ _ [] gone); (eapply moved_mono; [| eassumption]); set_solver.
  - split; [split |]; cbn [s_vol s_node]; rewrite ?Hsb2, ?Hct; try done.
    + by rewrite Hsb.
    + rewrite Forall_forall in *. intros c Hc.
      eapply (used_moved v1); [exact M2 | rewrite Hsb; auto | auto |].
      eapply used_moved; [exact M1 | auto | set_solver | auto].
    + eapply links_frame_disj; [apply M2 | exact Hd | exact L1].
    + eapply terminated_frame; [apply M2 | exact Hd | exact T1].
Qed.

(** ** Growing *)

(** [make_noncontiguous] writes into the FAT the links that a contiguous
    chain has implicitly. *)
Lemma make_noncontiguous_loop_spec n : forall v c,
  vol_ok v -> 2 <= c -> c + Z.of_nat n < 2 ^ 32 ->
  exists v', make_noncontiguous_loop n c v = Ok true v' /\
    moved v v' (zseq c (Z.of_nat n)) [] [] /\
    forall d, c <= d < c + Z.of_nat n -> fat_next (v_sb v) (v_medium v') d = d + 1.
Proof.
  induction n as [| n IH]; intros v c Hv Hc Hn.
  { exists v. split; [done |]. split; [by apply moved_refl | lia]. }
  cbn [make_noncontiguous_loop].
  erewrite bind_ok by apply set_next_cluster_spec, Hv. cbn [negb].
  set (v1 := write_fat v c (u32 (c + 1))).
  assert (M1 : moved v v1 [c] [] []) by (by apply moved_write).
  destruct (IH v1 (c + 1)) as (v' & E & M2 & Hf); [apply M1 | lia | lia |].
  exists v'. split; [exact E |]. rewrite zseq_cons by lia.
  replace (Z.of_nat (S n) - 1) with (Z.of_nat n) by lia. split.
  - apply (moved_add _ v1 _ _ [] []); (eapply moved_mono; [| eassumption]); set_solver.
  - intros d Hd. destruct (Z.eq_dec d c) as [-> |]; [| apply Hf; lia].
    change (v_sb v) with (v_sb v1). rewrite (fat_next_frame _ (v_medium v1) _ (zseq (c + 1) (Z.of_nat n))).
    + unfold v1. change (v_sb (write_fat _ _ _)) with (v_sb v).
      change (v_medium (write_fat ?v ?c ?x)) with (mwrite (v_medium v) (fat_off (v_sb v) c) (le_bytes 4 x)).
      rewrite fat_next_write by apply u32_range. apply u32_small. unfold in_u. lia.
    + apply M2.
    + rewrite elem_of_zseq. lia.
Qed.

Lemma make_noncontiguous_spec v cs :
  vol_ok v -> Forall (valid_cluster (v_sb v)) cs -> cs <> [] ->
  links (v_sb v) (v_medium v) true cs ->
  exists v', make_noncontiguous (znth cs 0) (znth cs (zlen cs - 1)) v = Ok true v' /\
    moved v v' cs [] [] /\ links (v_sb v) (v_medium v') false cs.
Proof.
  intros Hv Hval Hcs Hl. pose proof (zlen_pos _ Hcs) as Hp.
  pose proof (links_contiguous _ _ _ (zlen cs - 1) Hl ltac:(lia)) as Elast.
  pose proof (znth_Forall _ _ 0 Hval ltac:(lia)) as V0.
  pose proof (znth_Forall _ _ (zlen cs - 1) Hval ltac:(lia)) as V1.
  pose proof (cluster_count_bound v Hv) as Hb. unfold valid_cluster in V0, V1.
  unfold make_noncontiguous. rewrite Elast.
  replace (znth cs 0 + (zlen cs - 1) - znth cs 0) with (zlen cs - 1) by lia.
  destruct (make_noncontiguous_loop_spec (Z.to_nat (zlen cs - 1)) v (znth cs 0)) as (v' & E & M & Hf);
    [done | lia | lia |].
  rewrite Z2Nat.id in * by lia. exists v'. split; [exact E |]. split.
  - eapply moved_mono; [| exact M]. intros c Hc. apply elem_of_zseq in Hc.
    replace c with (znth cs (c - znth cs 0)); [apply znth_elem; lia |].
    rewrite (links_contiguous _ _ _ _ Hl) by lia. lia.
  - intros i Hi Hi'. cbn. rewrite Hf; rewrite (links_contiguous _ _ _ i Hl) by lia; [| lia].
    rewrite (links_contiguous _ _ _ (i + 1) Hl) by lia. lia.
Qed.

Lemma chain_length v cs :
  Forall (valid_cluster (v_sb v)) cs -> NoDup cs -> vol_ok v -> zlen cs <= sb_cluster_count (v_sb v).
Proof.
  intros Hval Hnd Hv. pose proof (cluster_count_bound v Hv).
  rewrite <- (zlen_zseq 2 (sb_cluster_count (v_sb v))) by lia. unfold zlen.
  apply Nat2Z.inj_le, NoDup_incl_length; [by apply NoDup_ListNoDup |].
  intros c Hc. apply list_elem_of_In in Hc. rewrite Forall_forall in Hval.
  specialize (Hval c Hc). unfold valid_cluster in Hval.
  apply list_elem_of_In, elem_of_zseq. lia.
Qed.

Lemma open_chain_moved s v' cs t a :
  moved (s_vol s) v' t a [] -> (forall c, c ∈ cs -> c ∉ t) ->
  open_chain s cs -> open_chain (set_s_vol v' s) cs.
Proof.
  intros M Ht [Hval Hus Hnd Hl Hst Hf]. pose proof (moved_sb _ _ _ _ _ M) as Hsb.
  split; nst; rewrite ?Hsb; try done.
  - rewrite Forall_forall in *. intros c Hc. eapply used_moved; [exact M | auto | set_solver | auto].
  - eapply links_frame_disj; [apply M | exact Ht | exact Hl].
Qed.

Lemma fptr_ok_app n cs ds : cs <> [] -> fptr_ok n cs -> fptr_ok n (cs ++ ds).
Proof.
  intros Hne Hf. destruct cs as [| c cs]; [done |]. cbn [app]. destruct Hf as [Hi Hc].
  change (c :: cs ++ ds) with ((c :: cs) ++ ds).
  split; [rewrite zlen_app; pose proof (zlen_nonneg ds); lia |].
  by rewrite znth_app_l by lia.
Qed.

(** The state before [set_next_cluster]: a file that was contiguous and is not any more has
    its links in the FAT. *)
Lemma grow_links s cs next : vol_ok (s_vol s) -> open_chain s cs -> cs <> [] ->
  let previous := znth cs (zlen cs - 1) in
  exists s1, nframe (s_node s) (s_node s1) /\ moved (s_vol s) (s_vol s1) cs [] [] /\
    links (v_sb (s_vol s)) (v_medium (s_vol s1)) (n_is_contiguous (s_node s1)) cs /\
    (n_is_contiguous (s_node s1) = true -> next = previous + 1) /\
    n_start_cluster (s_node s1) = n_start_cluster (s_node s) /\
    fptr_ok (s_node s1) cs /\
    (if negb (next =? previous + 1) && n_is_contiguous (s_node s) then
       let! ok := on_vol (make_noncontiguous (n_start_cluster (s_node s)) previous) in
       if negb ok then ret false
       else
         set_node (fun n => set_n_is_dirty true (set_n_is_contiguous false n));;
         ret true
     else ret true) s = Ok true s1.
Proof.
  intros Hv Hch Hcs previous. pose proof Hch as [Hval Hus Hnd Hl Hst Hf].
  destruct (Z.eqb_spec next (previous + 1)) as [E | E]; cbn [negb andb].
  { exists s. split_and!; try done. by apply moved_refl. }
  destruct (n_is_contiguous (s_node s)) eqn:Hct.
  - destruct (make_noncontiguous_spec _ _ Hv Hval Hcs Hl) as (v1 & E1 & M1 & L1).
    exists (set_s_node (set_n_is_dirty true (set_n_is_contiguous false (s_node s))) (set_s_vol v1 s)).
    nst. split_and!; try done.
    + exists (n_fptr_index (s_node s)), (n_fptr_cluster (s_node s)), (n_start_cluster (s_node s)), false, true.
      by destruct (s_node s).
    + rewrite Hst. erewrite bind_ok by (apply on_vol_ok; exact E1). done.
  - exists s. rewrite Hct. split_and!; try done. by apply moved_refl.
Qed.

(** Linking the cluster [next], just allocated, to the end of a chain: the
    part of [grow_loop] after the allocation, before the next turn [k]. *)
Lemma grow_extend s cs next (k : M nstate Z) :
  vol_ok (s_vol s) -> open_chain s cs -> cs <> [] ->
  valid_cluster (v_sb (s_vol s)) next -> used (s_vol s) next = true -> next ∉ cs ->
  let previous := znth cs (zlen cs - 1) in
  exists s', nframe (s_node s) (s_node s') /\ moved (s_vol s) (s_vol s') cs [] [] /\
    open_chain s' (cs ++ [next]) /\
    (let! ok :=
       if negb (next =? u32 (previous + 1)) && n_is_contiguous (s_node s) then
         let! ok := on_vol (make_noncontiguous (n_start_cluster (s_node s)) previous) in
         if negb ok then ret false
         else
           set_node (fun n => set_n_is_dirty true (set_n_is_contiguous false n));;
           ret true
       else ret true in
     if negb ok then ret (- EIO)
     else
       let! s := get_state in
       let! ok := on_vol (set_next_cluster (n_is_contiguous (s_node s)) previous next) in
       if negb ok then ret (- EIO) else k) s = k s'.
Proof.
  intros Hv Hch Hcs Hnext Hun Hnin previous. pose proof Hch as [Hval Hus Hnd Hl Hst Hf].
  pose proof (zlen_pos _ Hcs) as Hp. pose proof (cluster_count_bound _ Hv) as Hcc.
  assert (Hprev : previous ∈ cs) by (apply znth_elem; lia).
  assert (Vprev : valid_cluster (v_sb (s_vol s)) previous) by (apply (znth_Forall _ _ _ Hval); lia).
  assert (Hu32 : u32 (previous + 1) = previous + 1).
  { apply u32_small. unfold in_u. unfold valid_cluster in Vprev. lia. }
  rewrite Hu32.
  destruct (grow_links s cs next Hv Hch Hcs) as (s1 & N1 & M1 & L1 & Hc1 & Hst1 & Hf1 & E1).
  pose proof (moved_sb _ _ _ _ _ M1) as Hsb1.
  set (v2 := if n_is_contiguous (s_node s1) then s_vol s1 else write_fat (s_vol s1) previous next).
  assert (M2 : moved (s_vol s1) v2 cs [] []).
  { unfold v2. destruct (n_is_contiguous (s_node s1)); [apply moved_refl, M1 |].
    apply (moved_mono _ _ [previous]); [set_solver | apply moved_write, M1]. }
  pose proof (moved_sb _ _ _ _ _ M2) as Hsb2.
  assert (M : moved (s_vol s) v2 cs [] []) by (by apply (moved_add _ (s_vol s1) _ _ [] [])).
  exists (set_s_vol v2 s1). nst. split_and!; [done | done | |].
  - split; nst; rewrite ?Hsb2, ?Hsb1.
    + apply Forall_app. by split; [| constructor].
    + apply Forall_app. split; [| constructor; [| done]].
      * rewrite Forall_forall in *. intros c Hc. eapply used_moved; [exact M | auto | set_solver | auto].
      * eapply used_moved; [exact M | done | set_solver | done].
    + apply NoDup_app. split_and!; [done | set_solver | apply NoDup_singleton].
    + apply links_app. split_and!.
      * unfold v2. destruct (n_is_contiguous (s_node s1)); [done |].
        eapply links_frame; [rewrite <- Hsb1; apply fat_frame_write | | exact L1].
        intros i Hi Hi'. rewrite list_elem_of_singleton. intros E.
        apply znth_inj in E; [lia | done | lia | lia].
      * intros i Hi. change (zlen [next]) with 1. lia.
      * intros _ _. change (znth [next] 0) with next. fold previous. unfold v2.
        destruct (n_is_contiguous (s_node s1)); [symmetry; by apply Hc1 |].
        rewrite <- Hsb1. apply fat_next_write.
        apply (valid_cluster_u32 (v_sb (s_vol s))); [apply Hv | done].
    + rewrite Hst1, Hst. by rewrite znth_app_l by lia.
    + by apply fptr_ok_app.
  - erewrite bind_ok by exact E1. cbn [negb]. rewrite (bind_ok _ _ _ s1 s1) by done.
    erewrite bind_ok by (apply on_vol_ok, set_next_cluster_spec, M1). done.
Qed.

Definition free_cluster_of (v : vol) (c : Z) : Prop :=
  valid_cluster (v_sb v) c /\ used v c = false.

(** What growing a chain [cs] by [n] clusters comes to.  [more] are clusters
    that were free: they join the chain, or, when there are fewer than [n],
    some of them were tried and [gone], the clusters that the caller had
    already added, are given back with them. *)
Inductive grown (v : vol) (cs gone : list Z) (n : Z) (s' : nstate) : Z -> Prop :=
| grown_ok more :
    n <= free_count v -> zlen more = n ->
    Forall (free_cluster_of v) more ->
    moved v (s_vol s') (cs ++ gone ++ more) more [] ->
    chain s' (cs ++ gone ++ more) -> grown v cs gone n s' 0
| grown_nospace more :
    free_count v < n ->
    Forall (free_cluster_of v) more ->
    moved v (s_vol s') (cs ++ gone ++ more) [] gone ->
    chain s' cs -> grown v cs gone n s' (- ENOSPC).

Lemma moved_add_del v v1 v' t c d :
  moved v v1 t [c] [] -> moved v1 v' t [] (d ++ [c]) -> used v c = false -> moved v v' t [] d.
Proof.
  intros M1 M2 Hc. pose proof (moved_sb _ _ _ _ _ M1) as Hsb.
  destruct M1 as [F1 O1 T1 U1], M2 as [F2 O2 T2 U2]. split.
  - by etrans.
  - done.
  - rewrite Hsb in T2. by eapply fat_frame_trans.
  - intros x Hx. rewrite U2, U1 by (rewrite ?Hsb; done).
    rewrite !(bool_decide_false (x ∈ [])), !(bool_decide_true (x ∉ [])) by set_solver.
    rewrite !orb_false_r, andb_true_r.
    destruct (decide (x = c)) as [-> |].
    + rewrite Hc, (bool_decide_false (c ∉ d ++ [c])) by set_solver. by rewrite andb_false_r.
    + rewrite (bool_decide_false (x ∈ [c])), orb_false_r by set_solver. f_equal.
      apply bool_decide_ext. set_solver.
Qed.

Lemma moved_error v e t :
  vol_ok v -> moved v (vset v (v_medium v) (v_chunk v) (ef_cmap_dirty (v_ef v)) e) t [] [].
Proof.
  intros Hv. pose proof (moved_refl v t Hv) as [_ _ _ U]. split; [by do 4 eexists | | | exact U].
  - apply vol_ok_vset; [done | apply Hv].
  - apply fat_frame_refl.
Qed.

Lemma nframe_cropped n kept : nframe n (cropped n kept).
Proof.
  unfold cropped. case_decide.
  - exists 0, 0, 0, (n_is_contiguous n), true. by destruct n.
  - exists 0, (n_start_cluster n), (n_start_cluster n), (n_is_contiguous n), (n_is_dirty n). by destruct n.
Qed.

Lemma last_app cs c : znth (cs ++ [c]) (zlen (cs ++ [c]) - 1) = c.
Proof.
  rewrite zlen_app. change (zlen [c]) with 1. rewrite znth_app_r by lia.
  by replace (zlen cs + 1 - 1 - zlen cs) with 0 by lia.
Qed.

(** The end of the loop: terminating the chain. *)
Lemma grow_finish s cs :
  vol_ok (s_vol s) -> open_chain s cs -> cs <> [] ->
  exists s', s_node s' = s_node s /\ moved (s_vol s) (s_vol s') cs [] [] /\ chain s' cs /\
    forall current allocated,
      grow_loop 0 current (znth cs (zlen cs - 1)) allocated s = Ok 0 s'.
Proof.
  intros Hv Hch Hcs. pose proof Hch as [Hval Hus Hnd Hl Hst Hf]. pose proof (zlen_pos _ Hcs).
  set (previous := znth cs (zlen cs - 1)).
  assert (Hprev : previous ∈ cs) by (apply znth_elem; lia).
  set (v' := if n_is_contiguous (s_node s) then s_vol s
             else write_fat (s_vol s) previous EXFAT_CLUSTER_END).
  assert (M : moved (s_vol s) v' cs [] []).
  { unfold v'. destruct (n_is_contiguous (s_node s)); [by apply moved_refl |].
    apply (moved_mono _ _ [previous]); [set_solver | by apply moved_write]. }
  pose proof (moved_sb _ _ _ _ _ M) as Hsb.
  exists (set_s_vol v' s). nst. split_and!; [done | done | split; [split |] |]; nst; rewrite ?Hsb; try done.
  - rewrite Forall_forall in *. intros c Hc. eapply used_moved; [exact M | auto | set_solver | auto].
  - unfold v'. destruct (n_is_contiguous (s_node s)) eqn:Hct; [exact Hl |].
    eapply links_frame; [apply fat_frame_write | | exact Hl]. intros i Hi Hi'.
    rewrite list_elem_of_singleton. intros E. apply znth_inj in E; [lia | done | lia | lia].
  - intros Hct _. unfold v'. rewrite Hct. by apply fat_next_write.
  - intros current allocated. cbn [grow_loop]. rewrite (bind_ok _ _ _ s s) by done.
    erewrite bind_ok by (apply on_vol_ok, set_next_cluster_spec, Hv). done.
Qed.

(** The failure of the loop: giving back what was added. *)
Lemma grow_giveup s cs gone n :
  vol_ok (s_vol s) -> open_chain s (cs ++ gone) ->
  (gone = [] -> terminated (v_sb (s_vol s)) (v_medium (s_vol s)) (n_is_contiguous (s_node s)) cs) ->
  free_count (s_vol s) < n ->
  exists s', nframe (s_node s) (s_node s') /\ grown (s_vol s) cs gone n s' (- ENOSPC) /\
    ((if negb (zlen gone =? 0) then
        shrink_file (u32 (zlen cs + zlen gone)) (zlen gone);; ret tt
      else ret tt);; ret (- ENOSPC)) s = Ok (- ENOSPC) s'.
Proof.
  intros Hv Hch Ht Hfree. pose proof Hch as [Hval _ Hnd _ _ _].
  destruct (decide (gone = [])) as [-> | Hg].
  - exists s. rewrite app_nil_r in Hch. split_and!; [done | | done].
    apply (grown_nospace _ _ _ _ _ []); [done | done | by apply moved_refl | split; auto].
  - pose proof (zlen_pos _ Hg). pose proof (zlen_nonneg cs).
    pose proof (chain_length _ _ Hval Hnd Hv) as Hlen. rewrite zlen_app in Hlen.
    pose proof (cluster_count_bound _ Hv).
    destruct (shrink_file_spec s cs gone Hv Hch Hg) as (v' & E & M & Hc).
    eexists. split_and!; [| | zdec; rewrite u32_small by (unfold in_u; lia);
      erewrite bind_ok; [done | erewrite bind_ok by exact E; done]].
    + apply nframe_cropped.
    + apply (grown_nospace _ _ _ _ _ []); [done | done | by rewrite app_nil_r | exact Hc].
Qed.

(** One allocation: the chain can be extended, or nothing is free. *)
Lemma grow_allocate s cs hint :
  vol_ok (s_vol s) -> open_chain s cs -> in_u 32 hint ->
  (exists c, valid_cluster (v_sb (s_vol s)) c /\ used (s_vol s) c = false /\ c ∉ cs /\
     exists v1, moved (s_vol s) v1 [] [c] [] /\ free_count (s_vol s) = free_count v1 + 1 /\
       open_chain (set_s_vol v1 s) cs /\ v_medium v1 = v_medium (s_vol s) /\ used v1 c = true /\
       on_vol (allocate_cluster hint) s = Ok c (set_s_vol v1 s)) \/
  (free_count (s_vol s) = 0 /\
     exists v1, moved (s_vol s) v1 [] [] [] /\ v_medium v1 = v_medium (s_vol s) /\
       free_count v1 = 0 /\ open_chain (set_s_vol v1 s) cs /\
       on_vol (allocate_cluster hint) s = Ok EXFAT_CLUSTER_END (set_s_vol v1 s)).
Proof.
  intros Hv Hch Hh.
  pose proof (allocate_cluster_spec _ Hv _ Hh) as E.
  pose proof (u32_range (hint - 2)) as Hh2. unfold in_u in Hh2.
  destruct (next_free (s_vol s) (u32 (hint - 2))) as [c |] eqn:En.
  - left. apply next_free_Some in En as [Hc Hb]; [| lia].
    assert (Hu : used (s_vol s) (c + 2) = false) by (unfold used; by replace (c + 2 - 2) with c by lia).
    assert (M : moved (s_vol s) (take_cluster (s_vol s) c) [] [c + 2] []) by (by apply moved_take).
    assert (Hval : valid_cluster (v_sb (s_vol s)) (c + 2)) by (unfold valid_cluster; lia).
    exists (c + 2). split_and!; [exact Hval | exact Hu | |].
    { intros Hin. destruct Hch as [_ Hus _ _ _ _]. rewrite Forall_forall in Hus.
      specialize (Hus _ Hin). congruence. }
    exists (take_cluster (s_vol s) c). split_and!; [exact M | by apply free_count_take | | done | |].
    + eapply open_chain_moved; [exact M | set_solver | done].
    + destruct M as [_ _ _ U]. rewrite U, Hu by done.
      by rewrite (bool_decide_true (c + 2 ∈ [c + 2])), (bool_decide_true (c + 2 ∉ [])) by set_solver.
    + by apply on_vol_ok.
  - right. rewrite next_free_None in En by lia. apply free_count_zero in En as Hz.
    split; [done |]. eexists. split_and!; [by apply moved_error | done | exact Hz | | by apply on_vol_ok].
    eapply open_chain_moved; [by apply (moved_error _ _ []) | set_solver | done].
Qed.

Lemma free_count_moved v v' t : moved v v' t [] [] -> free_count v' = free_count v.
Proof.
  intros M. pose proof (moved_sb _ _ _ _ _ M) as Hsb. unfold free_count, count_free. rewrite Hsb.
  f_equal. apply filter_ext_in. intros c Hc. apply list_elem_of_In, elem_of_zseq in Hc.
  destruct M as [_ _ _ U]. specialize (U (c + 2) ltac:(unfold valid_cluster; lia)).
  unfold used in U. replace (c + 2 - 2) with c in U by lia. rewrite U.
  by rewrite orb_false_r, andb_true_r.
Qed.

Lemma grown_step s s2 cs gone c n s' rc :
  moved (s_vol s) (s_vol s2) (cs ++ gone) [c] [] -> valid_cluster (v_sb (s_vol s)) c ->
  used (s_vol s) c = false -> free_count (s_vol s) = free_count (s_vol s2) + 1 ->
  grown (s_vol s2) cs (gone ++ [c]) n s' rc -> grown (s_vol s) cs gone (n + 1) s' rc.
Proof.
  intros M Vc Uc Hfc G. pose proof (moved_sb _ _ _ _ _ M) as Hsb.
  assert (Hfree : forall more, Forall (free_cluster_of (s_vol s2)) more ->
            Forall (free_cluster_of (s_vol s)) (c :: more)).
  { intros more Hm. constructor; [done |]. eapply Forall_impl; [exact Hm |].
    intros x [Hx Hu]. rewrite Hsb in Hx. split; [done |]. destruct M as [_ _ _ U].
    rewrite U in Hu by done. rewrite (bool_decide_true (x ∉ [])), andb_true_r in Hu by set_solver.
    by apply orb_false_iff in Hu as [? _]. }
  assert (E : forall more, cs ++ (gone ++ [c]) ++ more = cs ++ gone ++ c :: more).
  { intros. by rewrite <- !app_assoc. }
  assert (M' : forall more, moved (s_vol s) (s_vol s2) (cs ++ gone ++ c :: more) [c] []).
  { intros. eapply moved_mono; [| exact M]. set_solver. }
  destruct G as [more Hn Hlen Hm M3 Hc3 | more Hn Hm M3 Hc3]; rewrite ?E in *.
  - apply (grown_ok _ _ _ _ _ (c :: more)); [lia | rewrite zlen_cons; lia | auto | | done].
    by apply (moved_add _ (s_vol s2) _ _ [c] more).
  - apply (grown_nospace _ _ _ _ _ (c :: more)); [lia | auto | | done].
    by apply (moved_add_del _ (s_vol s2) _ _ c).
Qed.

Lemma grown_same s v1 cs gone n s' rc :
  moved (s_vol s) v1 [] [] [] -> grown v1 cs gone n s' rc -> grown (s_vol s) cs gone n s' rc.
Proof.
  intros M G. pose proof (moved_sb _ _ _ _ _ M) as Hsb. pose proof (free_count_moved _ _ _ M) as Hfc.
  assert (Hfree : forall more, Forall (free_cluster_of v1) more -> Forall (free_cluster_of (s_vol s)) more).
  { intros more Hm. eapply Forall_impl; [exact Hm |]. intros x [Hx Hu]. rewrite Hsb in Hx.
    split; [done |]. destruct M as [_ _ _ U]. rewrite U in Hu by done.
    by rewrite orb_false_r, andb_true_r in Hu. }
  assert (M' : forall t, moved (s_vol s) v1 t [] []).
  { intros. eapply moved_mono; [| exact M]. set_solver. }
  destruct G as [more Hn Hlen Hm M3 Hc3 | more Hn Hm M3 Hc3]; nst; revert Hn Hm M3; nst; intros.
  - apply (grown_ok _ _ _ _ _ more); [lia | done | auto | by apply (moved_add _ v1 _ _ [] more) | done].
  - apply (grown_nospace _ _ _ _ _ more); [lia | auto | by apply (moved_del _ v1 _ _ [] gone) | done].
Qed.

Lemma grow_loop_spec n : forall s cs gone,
  vol_ok (s_vol s) -> open_chain s (cs ++ gone) -> cs ++ gone <> [] ->
  (gone = [] -> terminated (v_sb (s_vol s)) (v_medium (s_vol s)) (n_is_contiguous (s_node s)) cs) ->
  exists s' rc,
    grow_loop n (zlen cs) (znth (cs ++ gone) (zlen (cs ++ gone) - 1)) (zlen gone) s = Ok rc s' /\
    nframe (s_node s) (s_node s') /\ grown (s_vol s) cs gone (Z.of_nat n) s' rc.
Proof.
  induction n as [| n IH]; intros s cs gone Hv Hch Hne Ht.
  { destruct (grow_finish s _ Hv Hch Hne) as (s' & Hn & M & Hc & E).
    exists s', 0. rewrite E, Hn. split_and!; [done | done |].
    assert (0 <= free_count (s_vol s)) by apply zlen_nonneg.
    apply (grown_ok _ _ _ _ _ []); rewrite ?app_nil_r; try done. }
  set (L := cs ++ gone) in *. pose proof (zlen_pos _ Hne). pose proof Hch as [Hval Hus Hnd _ _ _].
  pose proof (znth_Forall _ _ (zlen L - 1) Hval ltac:(lia)) as Vp. cbn beta in Vp.
  cbn [grow_loop]. rewrite (bind_ok _ _ _ s s) by done. unfold s_ef.
  change (ef_sb (v_ef (s_vol s))) with (v_sb (s_vol s)).
  destruct (grow_allocate s L _ Hv Hch (u32_range (znth L (zlen L - 1) + 1)))
    as [(c & Vc & Uc & Hcin & v1 & M1 & Hfc & Hch1 & Hmed & Hu1 & E1) | (Hfc & v1 & M1 & Hmed & Hfc1 & Hch1 & E1)].
  - rewrite (bind_ok _ _ _ _ _ E1), (CLUSTER_INVALID_valid (v_sb (s_vol s))) by (apply Hv || done).
    pose proof (moved_sb _ _ _ _ _ M1) as Hsb1.
    destruct (grow_extend (set_s_vol v1 s) L c (grow_loop n (zlen cs) c (zlen gone + 1)))
      as (s2 & N2 & M2 & Hch2 & E2); try (nst; rewrite ?Hsb1; done); [apply M1 |].
    cbv zeta in E2. nst. revert M2 E2. nst. intros M2 E2. rewrite E2.
    pose proof (moved_sb _ _ _ _ _ M2) as Hsb2.
    destruct (IH s2 cs (gone ++ [c])) as (s' & rc & E3 & N3 & G).
    + apply M2.
    + by rewrite app_assoc.
    + rewrite app_assoc. apply zlen_nonempty. rewrite zlen_app. change (zlen [c]) with 1.
      fold L. lia.
    + by destruct gone.
    + exists s', rc. rewrite app_assoc in E3. fold L in E3. rewrite last_app, zlen_app in E3.
      split_and!; [exact E3 | by etrans |].
      replace (Z.of_nat (S n)) with (Z.of_nat n + 1) by lia.
      eapply (grown_step _ s2 _ _ c); [ | done | done | | exact G].
      * apply (moved_add _ v1 _ _ [c] []); [| exact M2]. eapply moved_mono; [| exact M1]. set_solver.
      * rewrite Hfc. f_equal. symmetry. by eapply free_count_moved.
  - rewrite (bind_ok _ _ _ _ _ E1).
    pose proof (CLUSTER_INVALID_END (v_sb (s_vol s)) ltac:(apply Hv)) as Hend.
    change (ef_sb (v_ef (s_vol s))) with (v_sb (s_vol s)) in Hend. rewrite Hend.
    destruct (grow_giveup (set_s_vol v1 s) cs gone (Z.of_nat (S n))) as (s' & N & G & E).
    + apply M1.
    + exact Hch1.
    + nst. rewrite (moved_sb _ _ _ _ _ M1), Hmed. exact Ht.
    + nst. lia.
    + exists s', (- ENOSPC). split_and!; [exact E | exact N |]. by eapply grown_same.
Qed.

Lemma grow_file_spec s cs d :
  vol_ok (s_vol s) -> chain s cs -> 0 < d ->
  exists s' rc, grow_file (zlen cs) d s = Ok rc s' /\
    nframe (s_node s) (s_node s') /\ grown (s_vol s) cs [] d s' rc.
Proof.
  intros Hv [Hch Ht] Hd. pose proof Hch as [Hval _ Hnd _ Hst Hf].
  pose proof (chain_length _ _ Hval Hnd Hv) as Hlen. pose proof (cluster_count_bound _ Hv) as Hcc.
  unfold grow_file. zdec. rewrite (bind_ok _ _ _ s s) by done.
  unfold s_ef. change (ef_sb (v_ef (s_vol s))) with (v_sb (s_vol s)).
  destruct (decide (cs = [])) as [-> | Hcs].
  - (* the first cluster of an empty file *)
    cbn [fptr_ok] in Hf. change (znth [] 0) with 0 in Hst. rewrite Hst, Hf.
    unfold EXFAT_CLUSTER_FREE. cbn [Z.eqb negb].
    destruct (grow_allocate s [] 0 Hv Hch ltac:(done))
      as [(c & Vc & Uc & _ & v1 & M1 & Hfc & Hch1 & Hmed & Hu1 & E1) | (Hfc & v1 & M1 & Hmed & Hfc1 & Hch1 & E1)].
    + rewrite (bind_ok _ _ _ _ _ E1), (CLUSTER_INVALID_valid (v_sb (s_vol s))) by (apply Hv || done).
      pose proof (moved_sb _ _ _ _ _ M1) as Hsb1. erewrite bind_ok by done. nst.
      set (s1 := set_s_node _ _).
      destruct (grow_loop_spec (Z.to_nat (d - 1)) s1 [] [c]) as (s' & rc & E & N & G).
      * apply M1.
      * split; cbn [app s_vol s_node s1 set_s_node set_s_vol]; rewrite ?Hsb1.
        -- by constructor.
        -- by constructor.
        -- apply NoDup_singleton.
        -- intros i Hi. change (zlen [c]) with 1. lia.
        -- done.
        -- cbn. rewrite Hf. by split.
      * done.
      * done.
      * exists s', rc. change (zlen []) with 0 in *. split_and!; [exact E | |].
        -- etrans; [| exact N]. exists (n_fptr_index (s_node s)), c, c, true, (n_is_dirty (s_node s)).
           by destruct (s_node s).
        -- rewrite Z2Nat.id in G by lia. replace d with (d - 1 + 1) by lia.
           eapply (grown_step s s1); [| done | done | exact Hfc | exact G].
           eapply moved_mono; [| exact M1]. set_solver.
    + rewrite (bind_ok _ _ _ _ _ E1).
      pose proof (CLUSTER_INVALID_END (v_sb (s_vol s)) ltac:(apply Hv)) as Hend.
      change (ef_sb (v_ef (s_vol s))) with (v_sb (s_vol s)) in Hend. rewrite Hend.
      exists (set_s_vol v1 s), (- ENOSPC). nst. split_and!; [done | done |].
      apply (grown_nospace _ _ _ _ _ []); [lia | done | nst; exact M1 |].
      split; [exact Hch1 | by intros _ []].
  - pose proof (zlen_pos _ Hcs).
    pose proof (znth_Forall _ _ 0 Hval ltac:(lia)) as V0.
    replace (n_start_cluster (s_node s) =? EXFAT_CLUSTER_FREE) with false.
    2: { rewrite Hst. unfold valid_cluster, EXFAT_CLUSTER_FREE in *. symmetry. apply Z.eqb_neq. lia. }
    cbn [negb]. rewrite u32_small by (unfold in_u; lia).
    erewrite bind_ok by (apply (advance_cluster_spec _ _ _ Hv Hch); lia).
    rewrite (CLUSTER_INVALID_valid (v_sb (s_vol s)));
      [| apply Hv | apply (znth_Forall _ _ _ Hval); lia].
    set (s1 := set_s_node _ _).
    destruct (grow_loop_spec (Z.to_nat d) s1 cs []) as (s' & rc & E & N & G).
    + exact Hv.
    + rewrite app_nil_r. apply open_chain_fptr; [done | lia].
    + by rewrite app_nil_r.
    + intros _. exact Ht.
    + exists s', rc. rewrite app_nil_r, Z2Nat.id in * by lia. split_and!; [exact E | | exact G].
      etrans; [| exact N].
      exists (zlen cs - 1), (znth cs (zlen cs - 1)), (n_start_cluster (s_node s)),
        (n_is_contiguous (s_node s)), (n_is_dirty (s_node s)). by destruct (s_node s).
Qed.
End Truncate.
