(* ===== verification/Content.v ===== *)
(** * Content: the bytes of a file, and the theorem about truncation

    [file_byte] is byte [p] of the file whose clusters are [cs].  The first
    part relates it to the medium; the second proves that [erase_range] clears
    the bytes it is asked to and no others; the last combines this with
    Truncate.v into the contract of [exfat_truncate]. *)

From Stdlib Require Import ZArith Lia.
From stdpp Require Import base numbers list gmap.
From S2P Require Import Prelude Bytes Monad Ondisk State Bitmap Geometry Cluster Chain Truncate.

#[local] Open Scope Z_scope.

(** The address of byte [p] of a file. *)
Definition file_addr (sb : super_block) (cs : list Z) (p : Z) : Z :=
  cluster_off sb (znth cs (p / CLUSTER_SIZE sb)) + p mod CLUSTER_SIZE sb.

Definition file_byte (sb : super_block) (m : mem) (cs : list Z) (p : Z) : Z :=
  m (file_addr sb cs p).

(** [a] is not an address of the clusters [cs]. *)
Definition outside (sb : super_block) (cs : list Z) (a : Z) : Prop :=
  forall c, c ∈ cs -> ~ cluster_off sb c <= a < cluster_off sb c + CLUSTER_SIZE sb.

(** [m'] differs from [m] in the clusters [cs] only. *)
Definition data_frame (sb : super_block) (m m' : mem) (cs : list Z) : Prop :=
  forall a, outside sb cs a -> m' a = m a.

Section Content.
Context (sb : super_block) (Hg : geometry_ok sb).
#[local] Abbreviation CS := (CLUSTER_SIZE sb).

Lemma CS_pos : 0 < CS.
Proof. pose proof (CLUSTER_SIZE_range sb Hg). lia. Qed.

(** Different bytes of a file have different addresses. *)
Lemma file_addr_cluster cs p k :
  NoDup cs -> 0 <= p < zlen cs * CS -> 0 <= k < zlen cs ->
  cluster_off sb (znth cs k) <= file_addr sb cs p < cluster_off sb (znth cs k) + CS ->
  p / CS = k.
Proof.
  intros Hnd Hp Hk Ha. pose proof CS_pos as Hcs. unfold file_addr in Ha.
  pose proof (Z.mod_pos_bound p CS Hcs).
  assert (Hq : 0 <= p / CS < zlen cs).
  { split; [apply Z.div_pos; lia | apply Z.div_lt_upper_bound; lia]. }
  destruct (Z.lt_trichotomy (znth cs (p / CS)) (znth cs k)) as [Hlt | [Heq | Hlt]].
  - pose proof (clusters_disjoint sb Hg _ _ Hlt). lia.
  - by apply (znth_inj cs).
  - pose proof (clusters_disjoint sb Hg _ _ Hlt). lia.
Qed.

Lemma file_addr_in cs p :
  0 <= p < zlen cs * CS ->
  znth cs (p / CS) ∈ cs /\
  cluster_off sb (znth cs (p / CS)) <= file_addr sb cs p < cluster_off sb (znth cs (p / CS)) + CS.
Proof.
  intros Hp. pose proof CS_pos as Hcs. pose proof (Z.mod_pos_bound p CS Hcs). split.
  - apply znth_elem. split; [apply Z.div_pos; lia | apply Z.div_lt_upper_bound; lia].
  - unfold file_addr. lia.
Qed.

(** A write inside one cluster, seen as a write to the file. *)
Lemma file_byte_write cs m p bs q :
  NoDup cs -> 0 <= p -> p mod CS + zlen bs <= CS -> p / CS < zlen cs -> 0 <= q < zlen cs * CS ->
  file_byte sb (mwrite m (file_addr sb cs p) bs) cs q =
  if (p <=? q) && (q <? p + zlen bs) then znth bs (q - p) else file_byte sb m cs q.
Proof.
  intros Hnd Hp Hfit Hk Hq. pose proof CS_pos as Hcs. unfold file_byte, mwrite.
  pose proof (zlen_nonneg bs). pose proof (Z.mod_pos_bound p CS Hcs) as Hm.
  pose proof (Z.mod_pos_bound q CS Hcs) as Hmq.
  assert (Hpk : 0 <= p / CS) by (apply Z.div_pos; lia).
  pose proof (Z.div_mod p CS ltac:(lia)). pose proof (Z.div_mod q CS ltac:(lia)) as Hqm.
  destruct (decide (q / CS = p / CS)) as [E | E].
  - unfold file_addr. rewrite E in Hqm |- *.
    replace (cluster_off sb (znth cs (p / CS)) + q mod CS - (cluster_off sb (znth cs (p / CS)) + p mod CS))
      with (q - p) by lia.
    destruct (Z.leb_spec p q), (Z.ltb_spec q (p + zlen bs)); cbn [andb]; try lia; by zdec.
  - assert (Hout : ~ (file_addr sb cs p <= file_addr sb cs q < file_addr sb cs p + zlen bs)).
    { intros Ha. apply E. apply (file_addr_cluster cs); [done | done | lia |].
      unfold file_addr at 1 2 in Ha. unfold file_addr at 1 2. unfold file_addr in Ha. lia. }
    replace ((p <=? q) && (q <? p + zlen bs)) with false.
    2: { symmetry. apply andb_false_iff. rewrite Z.leb_gt, Z.ltb_ge. nia. }
    destruct (Z.leb_spec (file_addr sb cs p) (file_addr sb cs q)),
      (Z.ltb_spec (file_addr sb cs q) (file_addr sb cs p + zlen bs)); cbn [andb]; try done; lia.
Qed.

Lemma data_frame_write cs m p bs :
  0 <= p < zlen cs * CS -> p mod CS + zlen bs <= CS ->
  data_frame sb m (mwrite m (file_addr sb cs p) bs) cs.
Proof.
  intros Hp Hfit a Ha. apply mwrite_out. destruct (file_addr_in cs p Hp) as [Hin Hr].
  specialize (Ha _ Hin). pose proof CS_pos as Hcs. pose proof (Z.mod_pos_bound p CS Hcs).
  unfold file_addr in *. lia.
Qed.

Lemma data_frame_refl m cs : data_frame sb m m cs.
Proof. by intros a _. Qed.

Lemma data_frame_trans m m' m'' cs :
  data_frame sb m m' cs -> data_frame sb m' m'' cs -> data_frame sb m m'' cs.
Proof. intros H1 H2 a Ha. by rewrite H2, H1. Qed.

(** Clusters lie above the FAT: writing to one leaves the other as it was. *)
Lemma fat_outside cs c a :
  Forall (valid_cluster sb) cs -> valid_cluster sb c ->
  fat_off sb c <= a < fat_off sb c + 4 -> outside sb cs a.
Proof.
  intros Hval Hc Ha d Hd. rewrite Forall_forall in Hval. specialize (Hval d Hd).
  pose proof (fat_before_clusters sb Hg c d Hc ltac:(unfold valid_cluster in Hval; lia)). lia.
Qed.

Lemma fat_next_data m m' cs c :
  Forall (valid_cluster sb) cs -> valid_cluster sb c -> data_frame sb m m' cs ->
  fat_next sb m' c = fat_next sb m c.
Proof.
  intros Hval Hc Hd. unfold fat_next. f_equal. apply mread_ext. intros a Ha.
  apply Hd. by eapply fat_outside.
Qed.

Lemma links_data m m' ct cs ds :
  Forall (valid_cluster sb) cs -> Forall (valid_cluster sb) ds -> data_frame sb m m' ds ->
  links sb m ct cs -> links sb m' ct cs.
Proof.
  intros Hc Hds Hd Hl i Hi Hi'. rewrite <- (Hl i Hi Hi'). destruct ct; [done |].
  eapply fat_next_data; [exact Hds | apply (znth_Forall _ _ _ Hc); lia | exact Hd].
Qed.

Lemma terminated_data m m' ct cs ds :
  Forall (valid_cluster sb) cs -> Forall (valid_cluster sb) ds -> data_frame sb m m' ds ->
  terminated sb m ct cs -> terminated sb m' ct cs.
Proof.
  intros Hc Hds Hd Ht Hct Hcs. rewrite <- (Ht Hct Hcs). pose proof (zlen_pos _ Hcs).
  eapply fat_next_data; [exact Hds | apply (znth_Forall _ _ _ Hc); lia | exact Hd].
Qed.

Lemma file_byte_fat m m' cs ds p :
  Forall (valid_cluster sb) cs -> Forall (valid_cluster sb) ds -> fat_frame sb m m' ds ->
  0 <= p < zlen cs * CS -> file_byte sb m' cs p = file_byte sb m cs p.
Proof.
  intros Hc Hds Hf Hp. unfold file_byte. apply Hf. intros d Hd Ha.
  rewrite Forall_forall in Hds. destruct (file_addr_in cs p Hp) as [Hin Hr].
  rewrite Forall_forall in Hc. specialize (Hc _ Hin).
  pose proof (fat_before_clusters sb Hg d (znth cs (p / CS)) (Hds _ Hd)
    ltac:(unfold valid_cluster in Hc; lia)). lia.
Qed.
End Content.

(** Only the medium of [v'] differs from [v]. *)
Definition set_medium (m : mem) (v : vol) : vol :=
  vset v m (v_chunk v) (ef_cmap_dirty (v_ef v)) (os_errors (v_os v)).

Section Erase.
Context `{Platform}.

Lemma vol_ok_medium v m : vol_ok v -> vol_ok (set_medium m v).
Proof. intros Hv. apply vol_ok_vset; [done | apply Hv]. Qed.

(** Writing to the clusters of a chain leaves the chain as it was. *)
Lemma chain_data s m cs :
  vol_ok (s_vol s) -> data_frame (v_sb (s_vol s)) (v_medium (s_vol s)) m cs ->
  chain s cs -> chain (set_s_vol (set_medium m (s_vol s)) s) cs.
Proof.
  intros Hv Hd [[Hval Hus Hnd Hl Hst Hf] Ht].
  pose proof (vo_geometry _ Hv) as Hg.
  split; [split |]; nst; try done.
  - by apply (links_data _ Hg _ _ _ _ cs Hval Hval Hd).
  - by apply (terminated_data _ Hg _ _ _ _ cs Hval Hval Hd).
Qed.

Lemma erase_raw_spec v n off :
  vol_ok v -> 0 <= n ->
  erase_raw n off v = Ok true (set_medium (mwrite (v_medium v) off (zrepeat 0 n)) v).
Proof.
  intros Hv Hn. unfold erase_raw. erewrite bind_ok by apply on_env_ok, exfat_pwrite_ok, Hv.
  cbn [negb]. unfold ret. f_equal. by destruct v as [[] []].
Qed.

(** What erasing the bytes from [b] to [e] of a file did. *)
Record erased (sb : super_block) (m m' : mem) (cs : list Z) (b e : Z) : Prop := {
  er_frame : data_frame sb m m' cs;
  er_zero : forall p, b <= p < e -> file_byte sb m' cs p = 0;
  er_below : forall p, 0 <= p < b -> file_byte sb m' cs p = file_byte sb m cs p
}.

Lemma erase_loop_spec n : forall s cs k,
  vol_ok (s_vol s) -> chain s cs -> 0 <= k -> k + Z.of_nat n < zlen cs ->
  let sb := v_sb (s_vol s) in
  exists m', erase_loop n (znth cs k) s = Ok 0 (set_s_vol (set_medium m' (s_vol s)) s) /\
    erased sb (v_medium (s_vol s)) m' cs ((k + 1) * CLUSTER_SIZE sb) ((k + 1 + Z.of_nat n) * CLUSTER_SIZE sb).
Proof.
  induction n as [| n IH]; intros s cs k Hv Hch Hk Hn sb.
  { exists (v_medium (s_vol s)). split.
    - unfold set_medium. rewrite vset_self. by destruct s.
    - split; [by intros a _ | | done]. intros p Hp. lia. }
  pose proof (vo_geometry _ Hv) as Hg. pose proof Hch as [[Hval Hus Hnd Hl Hst Hf] Ht].
  fold sb in Hg. pose proof (CS_pos sb Hg) as Hcs.
  pose proof (znth_Forall _ _ (k + 1) Hval ltac:(lia)) as V1.
  set (m1 := mwrite (v_medium (s_vol s)) (cluster_off sb (znth cs (k + 1))) (zrepeat 0 (CLUSTER_SIZE sb))).
  set (s1 := set_s_vol (set_medium m1 (s_vol s)) s).
  assert (Eaddr : cluster_off sb (znth cs (k + 1)) = file_addr sb cs ((k + 1) * CLUSTER_SIZE sb)).
  { unfold file_addr. rewrite Z.div_mul, Z.mod_mul by lia. lia. }
  assert (Hd1 : data_frame sb (v_medium (s_vol s)) m1 cs).
  { unfold m1. rewrite Eaddr. apply (data_frame_write _ Hg); [nia |].
    rewrite Z.mod_mul, zlen_zrepeat by lia. lia. }
  assert (Hch1 : chain s1 cs) by (by apply chain_data).
  destruct (IH s1 cs (k + 1)) as (m' & E & [Hd Hz Hb]); [by apply vol_ok_medium | done | lia | lia |].
  change (v_sb (s_vol s1)) with sb in *. change (v_medium (s_vol s1)) with m1 in *.
  exists m'. split.
  - cbn [erase_loop]. erewrite bind_ok by (apply (next_cluster_link s Hv cs); (done || lia)).
    rewrite (bind_ok _ _ _ s s) by done. unfold s_ef.
    change (ef_sb (v_ef (s_vol s))) with sb. rewrite (CLUSTER_INVALID_valid sb Hg _ V1).
    erewrite bind_ok by (apply (exfat_c2o_valid (v_ef (s_vol s)) Hg); unfold valid_cluster in V1; lia).
    erewrite bind_ok by (apply on_vol_ok, erase_raw_spec; [exact Hv | fold (v_sb (s_vol s)); fold sb; lia]).
    cbn [negb]. exact E.
  - replace (k + 1 + Z.of_nat (S n)) with (k + 1 + 1 + Z.of_nat n) by lia. split.
    + eapply data_frame_trans; eauto.
    + intros p Hp. destruct (Z.lt_ge_cases p ((k + 1 + 1) * CLUSTER_SIZE sb)) as [Hlt | Hge].
      * rewrite Hb by lia. unfold m1. rewrite Eaddr.
        assert (Hlz : zlen (zrepeat 0 (CLUSTER_SIZE sb)) = CLUSTER_SIZE sb) by (apply zlen_zrepeat; lia).
        pose proof (file_byte_write _ Hg cs (v_medium (s_vol s))
          ((k + 1) * CLUSTER_SIZE sb) (zrepeat 0 (CLUSTER_SIZE sb)) p) as W.
        rewrite Hlz in W.
        rewrite W; [| done | nia | rewrite Z.mod_mul by lia; lia | rewrite Z.div_mul by lia; lia | nia].
        zdec. apply znth_zrepeat. lia.
      * apply Hz. lia.
    + intros p Hp. rewrite Hb by lia. unfold m1. rewrite Eaddr.
      assert (Hlz : zlen (zrepeat 0 (CLUSTER_SIZE sb)) = CLUSTER_SIZE sb) by (apply zlen_zrepeat; lia).
      pose proof (file_byte_write _ Hg cs (v_medium (s_vol s))
        ((k + 1) * CLUSTER_SIZE sb) (zrepeat 0 (CLUSTER_SIZE sb)) p) as W.
      rewrite Hlz in W.
      rewrite W; [| done | nia | rewrite Z.mod_mul by lia; lia | rewrite Z.div_mul by lia; lia | nia].
      by zdec.
Qed.

Lemma lor_ones b k : 0 <= b -> 0 < k -> Z.lor b (2 ^ k - 1) + 1 = (b / 2 ^ k + 1) * 2 ^ k.
Proof.
  intros Hb Hk. pose proof (Z.pow_pos_nonneg 2 k ltac:(lia) ltac:(lia)).
  pose proof (Z.mod_pos_bound b (2 ^ k) ltac:(lia)).
  replace (2 ^ k - 1) with (Z.ones k) by (rewrite Z.ones_equiv; lia).
  replace b with (Z.lor (Z.shiftl (b / 2 ^ k) k) (b mod 2 ^ k)) at 1.
  2: { rewrite lor_shift_add by lia. pose proof (Z.div_mod b (2 ^ k)). lia. }
  rewrite <- Z.lor_assoc, Z.lor_ones_low; [| lia |].
  - rewrite Z.ones_equiv, lor_shift_add by lia. lia.
  - destruct (Z.eq_dec (b mod 2 ^ k) 0) as [-> |]; [simpl; lia | apply Z.log2_lt_pow2; lia].
Qed.

Lemma erase_one sb m cs b n :
  geometry_ok sb -> NoDup cs -> 0 <= b -> 0 <= n -> b mod CLUSTER_SIZE sb + n <= CLUSTER_SIZE sb ->
  b / CLUSTER_SIZE sb < zlen cs ->
  erased sb m (mwrite m (file_addr sb cs b) (zrepeat 0 n)) cs b (b + n).
Proof.
  intros Hg Hnd Hb Hn Hfit Hk. pose proof (CS_pos sb Hg).
  pose proof (zlen_zrepeat 0 n Hn) as Hlz. pose proof (Z.div_mod b (CLUSTER_SIZE sb) ltac:(lia)).
  pose proof (Z.mod_pos_bound b (CLUSTER_SIZE sb) ltac:(lia)).
  split.
  - apply data_frame_write; [done | nia | lia].
  - intros p Hp. rewrite file_byte_write by (rewrite ?Hlz; try done; nia). rewrite Hlz. zdec.
    apply znth_zrepeat. lia.
  - intros p Hp. rewrite file_byte_write by (rewrite ?Hlz; try done; nia). rewrite Hlz. by zdec.
Qed.

Lemma erase_range_spec s cs b e :
  vol_ok (s_vol s) -> chain s cs -> let sb := v_sb (s_vol s) in
  0 <= b < e -> e <= zlen cs * CLUSTER_SIZE sb -> zlen cs * CLUSTER_SIZE sb < 2 ^ 64 ->
  exists m' k, erase_range b e s =
      Ok 0 (mk_nstate (set_medium m' (s_vol s)) (set_fptr k (znth cs k) (s_node s))) /\
    erased sb (v_medium (s_vol s)) m' cs b e /\
    chain (mk_nstate (set_medium m' (s_vol s)) (set_fptr k (znth cs k) (s_node s))) cs.
Proof.
  intros Hv Hch sb Hb He Hlim. pose proof (vo_geometry _ Hv) as Hg. fold sb in Hg.
  pose proof Hch as [Hop _]. pose proof Hop as [Hval Hus Hnd Hl Hst Hf].
  pose proof (CS_pos sb Hg) as Hcs. pose proof (chain_length _ _ Hval Hnd Hv) as Hlen.
  pose proof (cluster_count_bound _ Hv) as Hcc.
  set (CS := CLUSTER_SIZE sb) in *. set (k := b / CS).
  assert (Hk : 0 <= k < zlen cs).
  { split; [apply Z.div_pos; lia | apply Z.div_lt_upper_bound; lia]. }
  pose proof (znth_Forall _ _ k Hval Hk) as Vk.
  pose proof (Z.div_mod b CS ltac:(lia)) as Hbm. fold k in Hbm.
  pose proof (Z.mod_pos_bound b CS Hcs).
  assert (Hbound : u64 (Z.lor b (CS - 1) + 1) = (k + 1) * CS).
  { pose proof (CLUSTER_SIZE_pow sb Hg) as Hpow. fold CS in Hpow. rewrite Hpow.
    rewrite lor_ones by (destruct Hg; lia). rewrite <- Hpow. apply u64_small. unfold in_u. fold k. nia. }
  set (n := Z.min ((k + 1) * CS) e - b).
  set (m1 := mwrite (v_medium (s_vol s)) (file_addr sb cs b) (zrepeat 0 n)).
  assert (E1 : erased sb (v_medium (s_vol s)) m1 cs b (b + n)).
  { apply erase_one; [done | done | lia | lia | fold CS; lia | fold CS k; lia]. }
  set (s1 := mk_nstate (set_medium m1 (s_vol s)) (set_fptr k (znth cs k) (s_node s))).
  assert (Hfp : forall m, data_frame sb (v_medium (s_vol s)) m cs ->
            chain (mk_nstate (set_medium m (s_vol s)) (set_fptr k (znth cs k) (s_node s))) cs).
  { intros m Hm. destruct (chain_data s m cs Hv Hm Hch) as [O1 T1]. split; [| exact T1].
    apply (open_chain_fptr _ cs k) in O1; [exact O1 | done]. }
  assert (Hch1 : chain s1 cs) by (apply Hfp, E1).
  assert (Hrun : erase_range b e s = erase_loop (Z.to_nat (DIV_ROUND_UP (e - (k + 1) * CS) CS)) (znth cs k) s1).
  { unfold erase_range. zdec. rewrite (bind_ok _ _ _ s s) by done. unfold s_ef.
    change (ef_sb (v_ef (s_vol s))) with sb. fold CS. rewrite Hbound. fold k.
    rewrite u32_small by (unfold in_u; lia).
    erewrite bind_ok by (apply (advance_cluster_spec _ _ _ Hv Hop); lia).
    rewrite (CLUSTER_INVALID_valid sb Hg _ Vk).
    erewrite bind_ok by (apply (exfat_c2o_valid (v_ef (s_vol s)) Hg); unfold valid_cluster in Vk; lia).
    fold n. erewrite bind_ok by (apply on_vol_ok, erase_raw_spec; [exact Hv | lia]). done. }
  set (n2 := Z.to_nat (DIV_ROUND_UP (e - (k + 1) * CS) CS)) in *.
  pose proof (DIV_ROUND_UP_spec (e - (k + 1) * CS) CS Hcs) as Hdiv.
  assert (Hn2 : k + Z.of_nat n2 < zlen cs).
  { unfold n2. destruct (Z.le_gt_cases (DIV_ROUND_UP (e - (k + 1) * CS) CS) 0); [lia |].
    rewrite Z2Nat.id by lia. nia. }
  destruct (erase_loop_spec n2 s1 cs k) as (m' & E & [F2 Z2 B2]); [by apply vol_ok_medium | done | lia | done |].
  change (v_sb (s_vol s1)) with sb in *. change (v_medium (s_vol s1)) with m1 in *. fold CS in Z2, B2.
  destruct E1 as [F1 Z1 B1].
  assert (F : data_frame sb (v_medium (s_vol s)) m' cs) by (intros a Ha; by rewrite F2, F1).
  exists m', k. split_and!; [rewrite Hrun; exact E | | by apply Hfp].
  split; [done | |].
  - intros p Hp. destruct (Z.lt_ge_cases p ((k + 1) * CS)).
    + rewrite B2 by lia. apply Z1. lia.
    + apply Z2. unfold n2. split; [lia |]. rewrite Z2Nat.id by nia. nia.
  - intros p Hp. rewrite B2 by nia. by apply B1.
Qed.
End Erase.

(** ** Changing the number of clusters of a file *)

Section Resize.
Context `{Platform}.

(** The volume after the chain [cs] of a file became [cs']: the clusters of
    [cs'] that were not in [cs] were free, those of [cs] that are not in
    [cs'] are free, every other cluster keeps its bit, and only FAT entries
    of the file or of free clusters were written. *)
Record reshaped (v v' : vol) (cs cs' : list Z) : Prop := {
  re_frame : vframe v v';
  re_ok : vol_ok v';
  re_fat : exists t, fat_frame (v_sb v) (v_medium v) (v_medium v') t /\
    forall c, c ∈ t -> valid_cluster (v_sb v) c /\ (c ∈ cs \/ used v c = false);
  re_new : forall c, c ∈ cs' -> c ∈ cs \/ free_cluster_of v c;
  re_used : forall c, valid_cluster (v_sb v) c ->
    used v' c = bool_decide (c ∈ cs') || (used v c && bool_decide (c ∉ cs))
}.

Lemma reshaped_sb v v' cs cs' : reshaped v v' cs cs' -> v_sb v' = v_sb v.
Proof. intros []. by apply vframe_sb. Qed.

Lemma reshaped_of_moved v v' cs cs' t a d :
  moved v v' t a d -> Forall (fun c => used v c = true) cs ->
  (forall c, c ∈ t -> valid_cluster (v_sb v) c /\ (c ∈ cs \/ used v c = false)) ->
  (forall c, c ∈ cs' -> c ∈ cs \/ free_cluster_of v c) ->
  (forall c, c ∈ cs' <-> (c ∈ cs \/ c ∈ a) /\ c ∉ d) -> (forall c, c ∈ d -> c ∈ cs) ->
  reshaped v v' cs cs'.
Proof.
  intros [F O T U] Hus Ht Hn Hcs Hd. split; [done | done | by exists t | done |].
  intros c Hc. rewrite U by done. rewrite Forall_forall in Hus. specialize (Hus c). specialize (Hcs c).
  specialize (Hd c).
  destruct (decide (c ∈ cs)) as [Hin | Hin].
  - rewrite Hus by done. rewrite (bool_decide_false (c ∉ cs)), andb_false_r, orb_false_r by tauto.
    cbn [orb andb]. apply bool_decide_ext. tauto.
  - rewrite (bool_decide_true (c ∉ cs)), (bool_decide_true (c ∉ d)), !andb_true_r by tauto.
    rewrite orb_comm. f_equal. apply bool_decide_ext. tauto.
Qed.

(** The first or the last part of [exfat_truncate]: growing, shrinking, or
    neither. *)
Inductive resized (v : vol) (cs : list Z) (n : Z) (s' : nstate) : Z -> Prop :=
| resized_ok cs' :
    zlen cs' = n -> cs' `prefix_of` cs \/ cs `prefix_of` cs' -> chain s' cs' ->
    reshaped v (s_vol s') cs cs' -> resized v cs n s' 0
| resized_nospace :
    free_count v < n - zlen cs -> chain s' cs -> reshaped v (s_vol s') cs cs ->
    resized v cs n s' (- ENOSPC).

Definition resize_file (c1 c2 : Z) : M nstate Z :=
  if c1 <? c2 then grow_file c1 (c2 - c1)
  else if c2 <? c1 then shrink_file c1 (c1 - c2)
  else ret 0.

Lemma resize_file_spec s cs n :
  vol_ok (s_vol s) -> chain s cs -> 0 <= n ->
  exists s' rc, resize_file (zlen cs) n s = Ok rc s' /\
    nframe (s_node s) (s_node s') /\ resized (s_vol s) cs n s' rc.
Proof.
  intros Hv Hch Hn. pose proof Hch as [[Hval Hus Hnd _ _ _] _].
  assert (Hcs : forall c, c ∈ cs -> valid_cluster (v_sb (s_vol s)) c /\ (c ∈ cs \/ used (s_vol s) c = false)).
  { rewrite Forall_forall in Hval. auto. }
  unfold resize_file. destruct (Z.ltb_spec (zlen cs) n); [| destruct (Z.ltb_spec n (zlen cs))].
  - destruct (grow_file_spec s cs (n - zlen cs) Hv Hch ltac:(lia)) as (s' & rc & E & N & G).
    exists s', rc. split_and!; [done | done |].
    assert (Hall : forall more c, Forall (free_cluster_of (s_vol s)) more -> c ∈ cs ++ [] ++ more ->
              valid_cluster (v_sb (s_vol s)) c /\ (c ∈ cs \/ used (s_vol s) c = false)).
    { intros more c Hm. rewrite Forall_forall in Hm. cbn [app]. rewrite elem_of_app.
      intros [Hc | Hc]; [auto |]. destruct (Hm _ Hc). auto. }
    destruct G as [more _ Hlen Hm M Hc | more Hf Hm M Hc].
    + apply (resized_ok _ _ _ _ (cs ++ more)).
      * rewrite zlen_app. lia.
      * right. by apply prefix_app_r.
      * exact Hc.
      * eapply reshaped_of_moved; [exact M | done | by intros; eapply Hall | | set_solver | set_solver].
        intros c. rewrite elem_of_app. rewrite Forall_forall in Hm. intros [?|?]; auto.
    + apply resized_nospace; [lia | done |].
      eapply reshaped_of_moved; [exact M | done | by intros; eapply Hall | auto | set_solver | set_solver].
  - set (kept := take (Z.to_nat n) cs). set (gone := drop (Z.to_nat n) cs).
    assert (Ecs : kept ++ gone = cs) by apply take_drop.
    assert (Hk : zlen kept = n) by (unfold zlen, kept in *; rewrite length_take; lia).
    assert (Hgl : zlen gone = zlen cs - n) by (rewrite <- Ecs, zlen_app; lia).
    destruct (shrink_file_spec s kept gone Hv) as (v' & E & M & Hc).
    + rewrite Ecs. apply Hch.
    + apply zlen_nonempty. lia.
    + rewrite Ecs in M. rewrite Hk, Hgl in E. replace (n + (zlen cs - n)) with (zlen cs) in E by lia.
      eexists _, 0. split_and!; [exact E | apply nframe_cropped |].
      assert (Hnd' : NoDup (kept ++ gone)) by (by rewrite Ecs).
      apply NoDup_app in Hnd' as (_ & Hd & _).
      assert (Hsplit : forall c, c ∈ cs <-> c ∈ kept \/ c ∈ gone) by (intros; by rewrite <- Ecs, elem_of_app).
      apply (resized_ok _ _ _ _ kept); [done | left; exists gone; done | exact Hc |].
      eapply reshaped_of_moved; [exact M | done | done | | |]; intros c; specialize (Hsplit c);
        specialize (Hd c); set_unfold; tauto.
  - exists s, 0. split_and!; [done | done |]. apply (resized_ok _ _ _ _ cs); [lia | auto | done |].
    eapply reshaped_of_moved; [by apply (moved_refl _ cs) | done | done | auto | set_solver | set_solver].
Qed.
End Resize.

(** ** Truncation *)

Section TruncateSpec.
Context `{Platform}.

(** A node that describes a file of the clusters [cs]. *)
Record file_ok (s : nstate) (cs : list Z) : Prop := {
  fo_vol : vol_ok (s_vol s);
  fo_chain : chain s cs;
  fo_size : zlen cs = DIV_ROUND_UP (n_size (s_node s)) (CLUSTER_SIZE (v_sb (s_vol s)));
  fo_valid : 0 <= n_valid_size (s_node s) <= n_size (s_node s)
}.

(** The clusters of other files, the bitmap and the other structures outside
    of the FAT: what an operation on the file [cs] leaves alone. *)
Definition others_kept (v v' : vol) (cs cs' : list Z) : Prop :=
  (forall a, cluster_off (v_sb v) 2 <= a -> outside (v_sb v) cs' a -> v_medium v' a = v_medium v a) /\
  (forall c, valid_cluster (v_sb v) c -> used v c = true -> c ∉ cs ->
     fat_next (v_sb v) (v_medium v') c = fat_next (v_sb v) (v_medium v) c) /\
  (forall c, valid_cluster (v_sb v) c ->
     used v' c = bool_decide (c ∈ cs') || (used v c && bool_decide (c ∉ cs))).

(** The file [cs] of [s] has become the file [cs'] of [s'], of [size] bytes. *)
Record truncated (s s' : nstate) (cs cs' : list Z) (size : Z) (erase : bool) : Prop := {
  tr_file : file_ok s' cs';
  tr_size : n_size (s_node s') = size;
  tr_refs : n_parent (s_node s') = n_parent (s_node s) /\
            n_references (s_node s') = n_references (s_node s);
  tr_valid : n_valid_size (s_node s') =
    if erase then size else Z.min (n_valid_size (s_node s)) size;
  tr_prefix : cs' `prefix_of` cs \/ cs `prefix_of` cs';
  tr_new : forall c, c ∈ cs' -> c ∈ cs \/ free_cluster_of (s_vol s) c;
  tr_data : forall p, 0 <= p < Z.min (n_valid_size (s_node s)) size ->
    file_byte (v_sb (s_vol s)) (v_medium (s_vol s')) cs' p =
    file_byte (v_sb (s_vol s)) (v_medium (s_vol s)) cs p;
  tr_zero : erase = true -> forall p, n_valid_size (s_node s) <= p < size ->
    file_byte (v_sb (s_vol s)) (v_medium (s_vol s')) cs' p = 0;
  tr_others : others_kept (s_vol s) (s_vol s') cs cs';
  tr_sb : v_sb (s_vol s') = v_sb (s_vol s)
}.

Lemma nframe_size n n' : nframe n n' ->
  n_size n' = n_size n /\ n_valid_size n' = n_valid_size n /\
  n_parent n' = n_parent n /\ n_references n' = n_references n.
Proof. by intros (? & ? & ? & ? & ? & ->). Qed.

(** The part of the medium above the FAT is not written by a resize. *)
Lemma reshaped_data v v' cs cs' a :
  geometry_ok (v_sb v) -> reshaped v v' cs cs' -> cluster_off (v_sb v) 2 <= a ->
  v_medium v' a = v_medium v a.
Proof.
  intros Hg [_ _ (t & Ht & Hin) _ _] Ha. apply Ht. intros c Hc Hac.
  destruct (Hin c Hc) as [Hval _]. pose proof (fat_before_clusters (v_sb v) Hg c 2 Hval ltac:(lia)). lia.
Qed.

Lemma reshaped_others v v' cs cs' :
  geometry_ok (v_sb v) -> reshaped v v' cs cs' -> others_kept v v' cs cs'.
Proof.
  intros Hg Hr. split_and!.
  - intros a Ha _. by eapply reshaped_data.
  - intros c Hc Hu Hcs. destruct Hr as [_ _ (t & Ht & Hin) _ _].
    apply (fat_next_frame _ _ _ t); [done |]. intros Hct. destruct (Hin c Hct) as [_ [? | ?]]; congruence.
  - apply Hr.
Qed.

Lemma cluster_above sb c : geometry_ok sb -> valid_cluster sb c -> cluster_off sb 2 <= cluster_off sb c.
Proof.
  intros Hg Hc. unfold valid_cluster in Hc. destruct (Z.eq_dec c 2) as [-> |]; [lia |].
  pose proof (clusters_disjoint sb Hg 2 c ltac:(lia)). pose proof (CS_pos sb Hg). lia.
Qed.

Lemma reshaped_file_byte v v' cs cs' p :
  geometry_ok (v_sb v) -> reshaped v v' cs cs' -> Forall (valid_cluster (v_sb v)) cs' ->
  0 <= p < zlen cs' * CLUSTER_SIZE (v_sb v) ->
  file_byte (v_sb v) (v_medium v') cs' p = file_byte (v_sb v) (v_medium v) cs' p.
Proof.
  intros Hg Hr Hval Hp. unfold file_byte. eapply reshaped_data; [exact Hg | exact Hr |].
  destruct (file_addr_in _ Hg cs' p Hp) as [Hin Ha].
  rewrite Forall_forall in Hval. pose proof (cluster_above _ _ Hg (Hval _ Hin)). lia.
Qed.

Lemma file_byte_prefix sb m cs cs' p :
  geometry_ok sb -> cs' `prefix_of` cs \/ cs `prefix_of` cs' ->
  0 <= p < zlen cs * CLUSTER_SIZE sb -> p < zlen cs' * CLUSTER_SIZE sb ->
  file_byte sb m cs' p = file_byte sb m cs p.
Proof.
  intros Hg Hpre Hp Hp'. pose proof (CS_pos sb Hg) as Hcs. unfold file_byte, file_addr. do 3 f_equal.
  assert (Hq : 0 <= p / CLUSTER_SIZE sb) by (apply Z.div_pos; lia).
  assert (p / CLUSTER_SIZE sb < zlen cs) by (apply Z.div_lt_upper_bound; lia).
  assert (p / CLUSTER_SIZE sb < zlen cs') by (apply Z.div_lt_upper_bound; lia).
  destruct Hpre as [[k ->] | [k ->]]; by rewrite znth_app_l by lia.
Qed.

(** The end of [exfat_truncate]. *)
Definition truncate_finish (size : Z) : M nstate Z :=
  exfat_update_mtime;;
  set_node (fun n => set_n_is_dirty true (set_n_size size n));;
  ret 0.

(** What the end does: the size and the time change, the volume does not. *)
Definition finished (size : Z) (s : nstate) : nstate :=
  mk_nstate (set_v_os (set_os_ticks (S (os_ticks (s_os s))) (s_os s)) (s_vol s))
    (set_n_is_dirty true (set_n_size size
      (set_n_is_dirty true (set_n_mtime (os_clock (s_os s) (os_ticks (s_os s))) (s_node s))))).

Lemma truncate_finish_spec size s : truncate_finish size s = Ok 0 (finished size s).
Proof. done. Qed.

Lemma finished_file size s cs :
  vol_ok (s_vol s) -> chain s cs ->
  zlen cs = DIV_ROUND_UP size (CLUSTER_SIZE (v_sb (s_vol s))) ->
  0 <= n_valid_size (s_node s) <= size -> file_ok (finished size s) cs.
Proof.
  intros [] [[] ?] Hl Hs. split; [by split | split; [by split | done] | done | done].
Qed.

(** A size that the 32-bit cluster counts of the code can express. *)
Definition size_fits (sb : super_block) (size : Z) : Prop :=
  0 <= size < 2 ^ 32 * CLUSTER_SIZE sb - CLUSTER_SIZE sb.

(** The middle of [exfat_truncate]. *)
Definition truncate_erase (erase : bool) (size : Z) : M nstate Z :=
  if erase then
    let! s := get_state in
    and_then (erase_range (n_valid_size (s_node s)) size)
      (set_node (set_n_valid_size size);; ret 0)
  else
    set_node (fun n => set_n_valid_size (Z.min (n_valid_size n) size) n);; ret 0.

Lemma exfat_truncate_step s size erase :
  bool_decide (is_Some (n_parent (s_node s))) && (n_references (s_node s) =? 0) = false ->
  n_size (s_node s) <> size ->
  exfat_truncate size erase s =
  and_then
    (resize_file (bytes2clusters (s_ef s) (n_size (s_node s))) (bytes2clusters (s_ef s) size))
    (and_then (truncate_erase erase size) (truncate_finish size)) s.
Proof.
  intros Hrefs Hsize. unfold exfat_truncate. rewrite (bind_ok _ _ _ s s) by done.
  rewrite andb_comm in Hrefs. rewrite Hrefs. by zdec.
Qed.

Lemma and_then_0 (m k : M nstate Z) s s' : m s = Ok 0 s' -> and_then m k s = k s'.
Proof. intros E. unfold and_then. by rewrite (bind_ok _ _ _ _ _ E). Qed.

Lemma and_then_err (m k : M nstate Z) s s' rc :
  m s = Ok rc s' -> rc <> 0 -> and_then m k s = Ok rc s'.
Proof. intros E Hrc. unfold and_then. rewrite (bind_ok _ _ _ _ _ E). by zdec. Qed.

Lemma size_clusters sb size : geometry_ok sb -> 0 <= size ->
  size <= DIV_ROUND_UP size (CLUSTER_SIZE sb) * CLUSTER_SIZE sb.
Proof.
  intros Hg Hs. pose proof (CS_pos sb Hg) as Hcs.
  pose proof (DIV_ROUND_UP_spec size (CLUSTER_SIZE sb) Hcs). lia.
Qed.

(** The file [cs] of [s] after its bytes between the valid size and [size]
    were cleared, or not. *)
Record cleared (s s' : nstate) (cs : list Z) (size : Z) (erase : bool) : Prop := {
  cl_vol : vframe (s_vol s) (s_vol s') /\ vol_ok (s_vol s') /\ v_chunk (s_vol s') = v_chunk (s_vol s);
  cl_chain : chain s' cs;
  cl_node : n_valid_size (s_node s') = if erase then size else Z.min (n_valid_size (s_node s)) size;
  cl_refs : n_parent (s_node s') = n_parent (s_node s) /\
            n_references (s_node s') = n_references (s_node s);
  cl_frame : data_frame (v_sb (s_vol s)) (v_medium (s_vol s)) (v_medium (s_vol s')) cs;
  cl_zero : erase = true -> forall p, n_valid_size (s_node s) <= p < size ->
    file_byte (v_sb (s_vol s)) (v_medium (s_vol s')) cs p = 0;
  cl_data : forall p, 0 <= p < n_valid_size (s_node s) ->
    file_byte (v_sb (s_vol s)) (v_medium (s_vol s')) cs p =
    file_byte (v_sb (s_vol s)) (v_medium (s_vol s)) cs p
}.

Lemma truncate_erase_spec s cs size erase :
  vol_ok (s_vol s) -> chain s cs -> 0 <= size <= zlen cs * CLUSTER_SIZE (v_sb (s_vol s)) ->
  0 <= n_valid_size (s_node s) ->
  exists s', truncate_erase erase size s = Ok 0 s' /\ cleared s s' cs size erase.
Proof.
  intros Hv Hch Hsize Hvs. pose proof (vo_geometry _ Hv) as Hg. pose proof (CS_pos _ Hg) as Hcs.
  assert (Hvf : vframe (s_vol s) (s_vol s)) by done.
  destruct erase; cbn [truncate_erase].
  - rewrite (bind_ok _ _ _ s s) by done.
    destruct (Z.le_gt_cases size (n_valid_size (s_node s))).
    + eexists. split; [rewrite (and_then_0 _ _ s s); [reflexivity | unfold erase_range; by zdec] |].
      destruct Hch as [[] ?]. split; try done; intros; lia.
    + pose proof Hch as [[Hval _ Hnd _ _ _] _]. pose proof (chain_length _ _ Hval Hnd Hv).
      pose proof (cluster_count_bound _ Hv). pose proof (CLUSTER_SIZE_range _ Hg).
      destruct (erase_range_spec s cs (n_valid_size (s_node s)) size Hv Hch) as (m' & k & E & [F Z B] & Hc);
        [lia | lia | nia |].
      eexists. split; [rewrite (and_then_0 _ _ _ _ E); reflexivity |].
      destruct Hc as [[] ?]. split; try done.
      split_and!; [by do 4 eexists | by apply vol_ok_medium | done].
  - eexists. split; [reflexivity |]. by destruct Hch as [[] ?].
Qed.

(** The whole of [exfat_truncate] after a successful resize. *)
Lemma truncate_after_resize s s1 cs cs' size erase :
  file_ok s cs -> 0 <= size -> zlen cs' = DIV_ROUND_UP size (CLUSTER_SIZE (v_sb (s_vol s))) ->
  cs' `prefix_of` cs \/ cs `prefix_of` cs' -> chain s1 cs' ->
  reshaped (s_vol s) (s_vol s1) cs cs' -> nframe (s_node s) (s_node s1) ->
  exists s', truncated s s' cs cs' size erase /\
    and_then (truncate_erase erase size) (truncate_finish size) s1 = Ok 0 s'.
Proof.
  intros [Hv Hch Hsz Hvs] Hsize Hlen Hpre Hch1 Hre Hnf.
  pose proof (vo_geometry _ Hv) as Hg. pose proof (reshaped_sb _ _ _ _ Hre) as Hsb.
  pose proof (CS_pos _ Hg) as Hcs. pose proof (re_ok _ _ _ _ Hre) as Hv1.
  destruct (nframe_size _ _ Hnf) as (Hs1 & Hvs1 & Hp1 & Hr1).
  pose proof (size_clusters _ size Hg Hsize) as Hfit. rewrite <- Hlen in Hfit.
  pose proof (size_clusters _ (n_size (s_node s)) Hg ltac:(lia)) as Hfit0. rewrite <- Hsz in Hfit0.
  pose proof Hch1 as [[Hval1 Hus1 Hnd1 _ _ _] _]. rewrite Hsb in Hval1.
  destruct (truncate_erase_spec s1 cs' size erase Hv1 Hch1) as (s2 & E & [(Hvf & Hv2 & Hck) Hch2 Hn2 [Hp2 Hr2] F Z B]);
    [rewrite Hsb; lia | rewrite Hvs1; lia |].
  rewrite Hsb, Hvs1 in *. pose proof (vframe_sb _ _ Hvf) as Hsb2. rewrite Hsb in Hsb2.
  exists (finished size s2). split; [| by rewrite (and_then_0 _ _ _ _ E)].
  split; try done.
  - apply finished_file; [done | done | by rewrite Hsb2 | rewrite Hn2; destruct erase; lia].
  - cbn. by rewrite Hp2, Hr2.
  - apply Hre.
  - intros p Hp. change (v_medium (s_vol (finished size s2))) with (v_medium (s_vol s2)).
    rewrite B by lia. erewrite reshaped_file_byte; [| done | exact Hre | done | lia].
    apply file_byte_prefix; [done | done | lia | lia].
  - destruct (reshaped_others _ _ _ _ Hg Hre) as (O1 & O2 & O3). split_and!.
    + intros a Ha Hout. transitivity (v_medium (s_vol s1) a); [apply F, Hout | by apply O1].
    + intros c Hc Hu Hcc. transitivity (fat_next (v_sb (s_vol s)) (v_medium (s_vol s1)) c); [| by apply O2].
      by apply (fat_next_data _ Hg _ _ cs').
    + intros c Hc. rewrite <- O3 by done. unfold used.
      change (v_chunk (s_vol (finished size s2))) with (v_chunk (s_vol s2)). by rewrite Hck.
Qed.

(** The cases of [exfat_truncate]. *)
Lemma truncate_cases s cs size erase
  (Hf : file_ok s cs) (Hfit : size_fits (v_sb (s_vol s)) size)
  (Hrefs : n_references (s_node s) <> 0 \/ n_parent (s_node s) = None) :
  exists s' rc, exfat_truncate size erase s = Ok rc s' /\
    ((rc = 0 /\ size = n_size (s_node s) /\ s' = s) \/
     (rc = 0 /\ exists cs', truncated s s' cs cs' size erase) \/
     (rc = - ENOSPC /\
      free_count (s_vol s) < DIV_ROUND_UP size (CLUSTER_SIZE (v_sb (s_vol s))) - zlen cs /\
      file_ok s' cs /\ n_size (s_node s') = n_size (s_node s) /\
      others_kept (s_vol s) (s_vol s') cs cs /\
      (forall a, cluster_off (v_sb (s_vol s)) 2 <= a -> v_medium (s_vol s') a = v_medium (s_vol s) a) /\
      v_sb (s_vol s') = v_sb (s_vol s))).
Proof.
  pose proof Hf as [Hv Hch Hsz Hvs]. pose proof (vo_geometry _ Hv) as Hg.
  assert (Hr : bool_decide (is_Some (n_parent (s_node s))) && (n_references (s_node s) =? 0) = false).
  { destruct Hrefs as [Hr | ->]; [| done]. apply andb_false_iff. right. by apply Z.eqb_neq. }
  destruct (Z.eq_dec (n_size (s_node s)) size) as [Heq | Hne].
  { exists s, 0. split; [| auto]. unfold exfat_truncate. rewrite (bind_ok _ _ _ s s) by done.
    rewrite andb_comm in Hr. rewrite Hr. by zdec. }
  assert (Hc1 : bytes2clusters (s_ef s) (n_size (s_node s)) = zlen cs).
  { rewrite Hsz. apply bytes2clusters_small; [exact Hg |]. pose proof (CS_pos _ Hg).
    pose proof Hch as [[Hval _ Hnd _ _ _] _]. pose proof (chain_length _ _ Hval Hnd Hv).
    pose proof (cluster_count_bound _ Hv).
    pose proof (size_clusters _ (n_size (s_node s)) Hg ltac:(lia)) as Hl. rewrite <- Hsz in Hl.
    change (ef_sb (s_ef s)) with (v_sb (s_vol s)). nia. }
  assert (Hc2 : bytes2clusters (s_ef s) size = DIV_ROUND_UP size (CLUSTER_SIZE (v_sb (s_vol s)))).
  { by apply bytes2clusters_small. }
  rewrite exfat_truncate_step, Hc1, Hc2 by done.
  destruct (resize_file_spec s cs _ Hv Hch (DIV_ROUND_UP_nonneg size _ (CS_pos _ Hg) ltac:(apply Hfit)))
    as (s1 & rc & E & N & R).
  destruct R as [cs' Hlen Hpre Hch1 Hre | Hfree Hch1 Hre].
  - rewrite (and_then_0 _ _ _ _ E).
    destruct (truncate_after_resize s s1 cs cs' size erase) as (s' & T & E'); try done; [apply Hfit |].
    exists s', 0. split; [exact E' |]. eauto 6.
  - exists s1, (- ENOSPC). split; [by apply (and_then_err _ _ _ _ _ E) |]. right. right.
    destruct (nframe_size _ _ N) as (Hs1 & Hvs1 & _). pose proof (reshaped_sb _ _ _ _ Hre) as Hsb.
    split_and!; try done.
    + split; [apply Hre | done | by rewrite Hs1, Hsb | by rewrite Hs1, Hvs1].
    + by apply reshaped_others.
    + intros a Ha. by eapply reshaped_data.
Qed.

(** C3: The contract of [exfat_truncate].  On a volume whose device works,
    for a node whose fields describe a file: the call returns.  It returns 0
    and the node describes a file of the new size, whose clusters extend or
    cut the old ones, with the old data, and zeros up to the new size when
    [erase] was asked for; or it returns -ENOSPC, exactly when the new size
    needs more clusters than are free, and the file is as it was.  In both
    cases no other cluster, no FAT entry of another file, and no bit of the
    bitmap of another cluster has changed. *)
Theorem exfat_truncate_correct s cs size erase
  (Hf : file_ok s cs) (Hfit : size_fits (v_sb (s_vol s)) size)
  (Hrefs : n_references (s_node s) <> 0 \/ n_parent (s_node s) = None) :
  exists s' rc, exfat_truncate size erase s = Ok rc s' /\
    ((rc = 0 /\ size = n_size (s_node s) /\ s' = s) \/
     (rc = 0 /\ exists cs', truncated s s' cs cs' size erase) \/
     (rc = - ENOSPC /\
      free_count (s_vol s) < DIV_ROUND_UP size (CLUSTER_SIZE (v_sb (s_vol s))) - zlen cs /\
      file_ok s' cs /\ n_size (s_node s') = n_size (s_node s) /\
      others_kept (s_vol s) (s_vol s') cs cs /\
      forall a, cluster_off (v_sb (s_vol s)) 2 <= a -> v_medium (s_vol s') a = v_medium (s_vol s) a)).
Proof.
  destruct (truncate_cases s cs size erase Hf Hfit Hrefs) as (s' & rc & E & C).
  exists s', rc. split; [exact E |]. naive_solver.
Qed.
End TruncateSpec.

(** ** The small volume of Geometry.v *)

#[local] Existing Instance word_le64.

Lemma demo_vol_ok : vol_ok demo_vol.
Proof.
  split; [exact demo_geometry | done | done | | by split].
  split; [repeat constructor; unfold is_byte; lia | vm_compute; discriminate].
Qed.

Lemma demo_file : file_ok demo_state [4; 5].
Proof.
  split; [exact demo_vol_ok | | done | vm_compute; split; discriminate].
  split; [split |].
  - repeat constructor; vm_compute; intros ?; discriminate.
  - repeat constructor; vm_compute; intros ?; discriminate.
  - apply (bool_decide_unpack (NoDup [4; 5])). vm_compute. done.
  - intros i Hi Hi'. change (zlen [4; 5]) with 2 in Hi'. by replace i with 0 by lia.
  - done.
  - vm_compute. repeat split; discriminate || done.
  - by intros [=].
Qed.

Lemma exfat_truncate_correct_witness :
  exists s' rc, exfat_truncate 1600 true demo_state = Ok rc s' /\
    ((rc = 0 /\ 1600 = 600 /\ s' = demo_state) \/
     (rc = 0 /\ exists cs', truncated demo_state s' [4; 5] cs' 1600 true) \/
     (rc = - ENOSPC /\ free_count demo_vol < DIV_ROUND_UP 1600 (CLUSTER_SIZE demo_sb) - 2 /\
      file_ok s' [4; 5] /\ n_size (s_node s') = 600 /\
      others_kept demo_vol (s_vol s') [4; 5] [4; 5] /\
      forall a, cluster_off demo_sb 2 <= a -> v_medium (s_vol s') a = v_medium demo_vol a)).
Proof.
  apply (exfat_truncate_correct demo_state [4; 5] 1600 true demo_file).
  - vm_compute. split; discriminate || done.
  - left. discriminate.
Defined.
