(* ===== verification/ReadWrite.v ===== *)
(** * ReadWrite: what reading and writing a file does

    The contracts of [exfat_generic_pread] and [exfat_generic_pwrite]: a read
    returns the bytes of the file, with zeros past its valid size; a write
    changes the bytes it covers and no others; and reading back what was
    written returns it. *)

From Stdlib Require Import ZArith Lia.
From stdpp Require Import base numbers list gmap.
From S2P Require Import Prelude Bytes Monad Ondisk State Bitmap Geometry Cluster FileIO Chain Truncate Content.

#[local] Open Scope Z_scope.

(** [n] bytes of a file from byte [p]. *)
Definition file_bytes (sb : super_block) (m : mem) (cs : list Z) (p n : Z) : list Z :=
  map (file_byte sb m cs) (zseq p n).

Lemma zlen_file_bytes sb m cs p n : 0 <= n -> zlen (file_bytes sb m cs p n) = n.
Proof. intros. unfold file_bytes. by rewrite zlen_map, zlen_zseq. Qed.

Lemma znth_map f l i : 0 <= i < zlen l -> znth (map f l) i = f (znth l i).
Proof.
  intros Hi. rewrite !znth_nth by lia. unfold zlen in Hi.
  rewrite (nth_indep _ 0 (f 0)) by (rewrite length_map; lia). apply map_nth.
Qed.

Lemma znth_file_bytes sb m cs p n i :
  0 <= i < n -> znth (file_bytes sb m cs p n) i = file_byte sb m cs (p + i).
Proof.
  intros. unfold file_bytes. rewrite znth_map by (rewrite zlen_zseq; lia). by rewrite znth_zseq.
Qed.

Lemma file_bytes_app sb m cs p n k :
  0 <= n -> 0 <= k -> file_bytes sb m cs p (n + k) = file_bytes sb m cs p n ++ file_bytes sb m cs (p + n) k.
Proof. intros. unfold file_bytes. by rewrite zseq_app, map_app. Qed.

(** A read inside one cluster. *)
Lemma mread_file_bytes sb m cs k o n :
  0 < CLUSTER_SIZE sb -> 0 <= o -> 0 <= n -> o + n <= CLUSTER_SIZE sb ->
  mread m (cluster_off sb (znth cs k) + o) n = file_bytes sb m cs (k * CLUSTER_SIZE sb + o) n.
Proof.
  intros Hcs Ho Hn Hfit. apply znth_ext.
  - by rewrite zlen_mread, zlen_file_bytes.
  - intros i Hi. rewrite zlen_mread in Hi by done. rewrite znth_mread, znth_file_bytes by done.
    unfold file_byte, file_addr. f_equal.
    replace (k * CLUSTER_SIZE sb + o + i) with (o + i + k * CLUSTER_SIZE sb) by ring.
    rewrite Z.div_add, Z.mod_add, Z.div_small, Z.mod_small by lia. rewrite Z.add_0_l. lia.
Qed.

Lemma splice_splice {A} (buf : list A) pos a b :
  0 <= pos -> pos + zlen a <= zlen buf ->
  splice (splice buf pos a) (pos + zlen a) b = splice buf pos (a ++ b).
Proof.
  intros Hp Hl. unfold splice, zlen in *.
  replace (Z.to_nat (pos + Z.of_nat (length a))) with (Z.to_nat pos + length a)%nat by lia.
  assert (Hlp : length (take (Z.to_nat pos) buf) = Z.to_nat pos) by (rewrite length_take; lia).
  rewrite take_app, Hlp.
  rewrite (take_ge (take (Z.to_nat pos) buf)) by lia.
  replace (Z.to_nat pos + length a - Z.to_nat pos)%nat with (length a) by lia.
  rewrite take_app_length, <- !app_assoc. do 3 f_equal.
  rewrite drop_app, Hlp, (drop_ge (take _ buf)) by lia. cbn [app].
  rewrite drop_app, (drop_ge a) by lia. cbn [app]. rewrite drop_drop, length_app. f_equal. lia.
Qed.

Lemma splice_nil {A} (buf : list A) pos : splice buf pos [] = buf.
Proof. unfold splice. cbn [app length]. by rewrite Nat.add_0_r, take_drop. Qed.

Lemma file_bytes_nil sb m cs p n : n <= 0 -> file_bytes sb m cs p n = [].
Proof. intros. unfold file_bytes. by rewrite zseq_nil. Qed.

Section ReadWrite.
Context `{Platform}.

Lemma fo_geometry s cs : file_ok s cs -> geometry_ok (v_sb (s_vol s)).
Proof. intros []. by apply vo_geometry. Qed.

(** The next cluster of a chain, or anything at its end. *)
Lemma next_cluster_any s cs k :
  vol_ok (s_vol s) -> open_chain s cs -> 0 <= k < zlen cs ->
  exists c, exfat_next_cluster (znth cs k) s = Ok c s /\ (k + 1 < zlen cs -> c = znth cs (k + 1)).
Proof.
  intros Hv [Hval _ _ Hl _ _] Hk. destruct (Z.lt_ge_cases (k + 1) (zlen cs)).
  - exists (znth cs (k + 1)). split; [| done]. apply next_cluster_link; done || lia.
  - pose proof (znth_Forall _ _ k Hval Hk) as V. unfold valid_cluster in V.
    eexists. split; [apply next_cluster_spec; [done | lia] | lia].
Qed.

(** ** Reading *)

Lemma pread_loop_spec fuel : forall s cs cluster k o pos r buf,
  vol_ok (s_vol s) -> open_chain s cs ->
  let sb := v_sb (s_vol s) in let CS := CLUSTER_SIZE sb in
  0 <= r <= Z.of_nat fuel -> 0 <= k -> 0 <= o < CS -> 0 <= pos ->
  (0 < r -> k * CS + o + r <= zlen cs * CS /\ cluster = znth cs k) ->
  pos + r <= zlen buf ->
  pread_loop fuel cluster o pos r buf s =
  Ok (None, 0, splice buf pos (file_bytes sb (v_medium (s_vol s)) cs (k * CS + o) r)) s.
Proof.
  induction fuel as [| fuel IH]; intros s cs cluster k o pos r buf Hv Hch sb CS Hr Hk Ho Hpos Hc Hbuf;
    cbn [pread_loop].
  - replace r with 0 by lia. by rewrite file_bytes_nil, splice_nil by done.
  - destruct (Z.leb_spec r 0).
    { replace r with 0 by lia. by rewrite file_bytes_nil, splice_nil by done. }
    destruct (Hc ltac:(lia)) as [Hfit ->]. pose proof (vo_geometry _ Hv) as Hg.
    fold sb in Hg. pose proof (CS_pos sb Hg) as Hcs. fold CS in Hcs.
    assert (Hk' : 0 <= k < zlen cs) by nia.
    pose proof (znth_Forall _ _ k (oc_valid _ _ Hch) Hk') as Vk. fold sb in Vk.
    rewrite (bind_ok _ _ _ s s) by done. unfold s_ef. change (ef_sb (v_ef (s_vol s))) with sb.
    rewrite (CLUSTER_INVALID_valid sb Hg _ Vk). fold CS.
    erewrite bind_ok by (apply (exfat_c2o_valid (v_ef (s_vol s)) Hg); unfold valid_cluster in Vk; lia).
    erewrite bind_ok by (apply on_os_ok, exfat_pread_ok, Hv).
    replace (set_s_vol _ s) with s by (by destruct s as [[] ?]).
    destruct (next_cluster_any s cs k Hv Hch Hk') as (c & En & Ec).
    rewrite (bind_ok _ _ _ _ _ En). change (ef_sb (v_ef (s_vol s))) with sb.
    set (l := Z.min (CS - o) r). change (os_medium (s_os s)) with (v_medium (s_vol s)).
    rewrite mread_file_bytes by (fold CS; lia). fold CS.
    rewrite (IH s cs c (k + 1) 0); [| done | done | lia | lia | fold sb CS; lia | lia | |].
    + do 2 f_equal. fold sb CS.
      assert (Hlen : zlen (file_bytes sb (v_medium (s_vol s)) cs (k * CS + o) l) = l)
        by (apply zlen_file_bytes; lia).
      rewrite <- Hlen at 2. rewrite splice_splice by (rewrite ?Hlen; lia). f_equal.
      replace r with (l + (r - l)) at 2 by lia. rewrite file_bytes_app by lia. f_equal.
      unfold l. destruct (Z.le_gt_cases r (CS - o)).
      * rewrite Z.min_r by lia. by rewrite !file_bytes_nil by lia.
      * rewrite Z.min_l by lia. f_equal. lia.
    + intros Hpos'. fold sb CS. split; [lia |]. apply Ec. nia.
    + rewrite zlen_splice; rewrite ?zlen_file_bytes; lia.
Qed.

(** What a read leaves behind: the same volume and file, possibly with another
    access time and cached position. *)
Record unchanged (s s' : nstate) (cs : list Z) : Prop := {
  un_file : file_ok s' cs;
  un_medium : v_medium (s_vol s') = v_medium (s_vol s);
  un_ef : v_ef (s_vol s') = v_ef (s_vol s);
  un_size : n_size (s_node s') = n_size (s_node s);
  un_valid : n_valid_size (s_node s') = n_valid_size (s_node s)
}.

Lemma unchanged_refl s cs : file_ok s cs -> unchanged s s cs.
Proof. by split. Qed.

Lemma file_ok_fptr s cs k :
  file_ok s cs -> 0 <= k < zlen cs ->
  unchanged s (set_s_node (set_fptr k (znth cs k) (s_node s)) s) cs.
Proof.
  intros [Hv [Hch Ht] Hsz Hvs] Hk. split; try done. split; try done. split; [| done].
  by apply open_chain_fptr.
Qed.

Lemma update_atime_spec s cs :
  file_ok s cs -> exists s', exfat_update_atime s = Ok tt s' /\ unchanged s s' cs.
Proof.
  intros [[] [[] ?] ? ?]. eexists. split; [reflexivity |].
  by split.
Qed.

Lemma unchanged_trans s1 s2 s3 cs : unchanged s1 s2 cs -> unchanged s2 s3 cs -> unchanged s1 s3 cs.
Proof. intros [] []. split; try done; congruence. Qed.

Lemma unchanged_sb s s' cs : unchanged s s' cs -> v_sb (s_vol s') = v_sb (s_vol s).
Proof. intros [_ _ E _ _]. unfold v_sb. by rewrite E. Qed.

(** The clusters of a file hold its bytes. *)
Lemma file_fits s cs : file_ok s cs -> n_size (s_node s) <= zlen cs * CLUSTER_SIZE (v_sb (s_vol s)).
Proof.
  intros [Hv Hch Hsz Hvs]. rewrite Hsz. apply size_clusters; [by apply vo_geometry | lia].
Qed.

Lemma file_limit s cs : file_ok s cs -> zlen cs < 2 ^ 32 /\ n_size (s_node s) < 2 ^ 58.
Proof.
  intros Hf. pose proof (file_fits s cs Hf). pose proof Hf as [Hv [[Hval _ Hnd _ _ _] _] _ _].
  pose proof (chain_length _ _ Hval Hnd Hv). pose proof (cluster_count_bound _ Hv).
  pose proof (CLUSTER_SIZE_range _ (vo_geometry _ Hv)). split; [lia | nia].
Qed.

(** A read inside the valid part of a file. *)
Lemma generic_pread_valid d s cs buf size offset :
  file_ok s cs -> 0 <= offset -> 0 < size -> offset + size <= n_valid_size (s_node s) ->
  size <= zlen buf ->
  exists s', generic_pread (S d) buf size offset s =
    Ok (size, splice buf 0 (file_bytes (v_sb (s_vol s)) (v_medium (s_vol s)) cs offset size)) s' /\
    unchanged s s' cs.
Proof.
  intros Hf Ho Hs Hend Hbuf. pose proof Hf as [Hv [Hch _] Hsz Hvs].
  destruct (file_limit s cs Hf) as [Hlim Hlim2]. pose proof (file_fits s cs Hf) as Hfit.
  pose proof (vo_geometry _ Hv) as Hg. pose proof (CS_pos _ Hg) as Hcs.
  set (sb := v_sb (s_vol s)) in *. set (CS := CLUSTER_SIZE sb) in *. set (k := offset / CS).
  pose proof (Z.div_mod offset CS ltac:(lia)) as Hdm. pose proof (Z.mod_pos_bound offset CS Hcs).
  assert (Hk : 0 <= k < zlen cs).
  { split; [apply Z.div_pos; lia | apply Z.div_lt_upper_bound; lia]. }
  pose proof (znth_Forall _ _ k (oc_valid _ _ Hch) Hk) as Vk. fold sb in Vk.
  change (generic_pread (S d)) with (pread_body (generic_pread d)). unfold pread_body.
  rewrite (bind_ok _ _ _ s s) by done.
  rewrite u64_small by (unfold in_u; lia). zdec. unfold s_ef.
  change (ef_sb (v_ef (s_vol s))) with sb. fold CS k. rewrite u32_small by (unfold in_u; lia).
  erewrite bind_ok by (apply (advance_cluster_spec _ _ _ Hv Hch); lia).
  rewrite (CLUSTER_INVALID_valid sb Hg _ Vk). rewrite Z.min_l by lia.
  pose proof (file_ok_fptr s cs k Hf Hk) as U1.
  set (s1 := set_s_node (set_fptr k (znth cs k) (s_node s)) s) in *.
  erewrite bind_ok.
  2: { apply (pread_loop_spec _ s1 cs _ k); [exact Hv | apply U1 | lia | lia | done | lia | | lia].
       intros _. split; [| done]. change (v_sb (s_vol s1)) with sb. fold CS. lia. }
  change (v_sb (s_vol s1)) with sb. change (v_medium (s_vol s1)) with (v_medium (s_vol s)). fold CS.
  replace (k * CS + offset mod CS) with offset by lia. cbv iota beta zeta.
  match goal with |- context [when ?c _] => destruct c end; unfold when.
  - destruct (update_atime_spec s1 cs ltac:(apply U1)) as (s' & E & U2).
    exists s'. rewrite (bind_ok _ _ _ _ _ E), Z.sub_0_r. split; [done | by eapply unchanged_trans].
  - exists s1. rewrite (bind_ok _ _ _ tt s1), Z.sub_0_r by done. done.
Qed.

Lemma splice_zlen_prefix buf pos bs i :
  0 <= pos -> pos + zlen bs <= zlen buf -> i < pos -> znth (splice buf pos bs) i = znth buf i.
Proof. intros. rewrite znth_splice by done. by zdec. Qed.

Lemma generic_pread_spec s cs buf size offset
  (Hf : file_ok s cs) (Ho : 0 <= offset) (Hs : 0 <= size <= zlen buf) (Hlim : offset + size < 2 ^ 64) :
  exists n buf' s', exfat_generic_pread buf size offset s = Ok (n, buf') s' /\
    n = Z.max 0 (Z.min size (n_size (s_node s) - offset)) /\ zlen buf' = zlen buf /\
    (forall i, 0 <= i < n -> znth buf' i =
       if offset + i <? n_valid_size (s_node s) then
         file_byte (v_sb (s_vol s)) (v_medium (s_vol s)) cs (offset + i)
       else 0) /\
    unchanged s s' cs.
Proof.
  pose proof Hf as [Hv Hch Hsz Hvs]. pose proof (unchanged_refl s cs Hf) as U0.
  unfold exfat_generic_pread. set (V := n_valid_size (s_node s)) in *. set (N := n_size (s_node s)) in *.
  destruct (Z.le_gt_cases N offset).
  { exists 0, buf, s. split; [| split_and!; [lia | done | intros; lia | done]].
    change (generic_pread 2) with (pread_body (generic_pread 1)). unfold pread_body.
    rewrite (bind_ok _ _ _ s s) by done. fold N. by zdec. }
  destruct (Z.eq_dec size 0) as [-> | Hne].
  { exists 0, buf, s. split; [| split_and!; [lia | done | intros; lia | done]].
    change (generic_pread 2) with (pread_body (generic_pread 1)). unfold pread_body.
    rewrite (bind_ok _ _ _ s s) by done. fold N. by zdec. }
  destruct (Z.le_gt_cases (offset + size) V) as [Hin | Hout].
  - destruct (generic_pread_valid 1 s cs buf size offset Hf Ho ltac:(lia) Hin ltac:(lia)) as (s' & E & U).
    pose proof (zlen_file_bytes (v_sb (s_vol s)) (v_medium (s_vol s)) cs offset size ltac:(lia)) as Hl.
    do 3 eexists. split; [exact E |]. split_and!; [lia | | | done].
    + rewrite zlen_splice; lia.
    + intros i Hi. rewrite znth_splice by lia. zdec. rewrite Z.sub_0_r. apply znth_file_bytes. lia.
  - set (b := Z.max 0 (V - offset)).
    assert (Hfirst : exists buf1 s1,
      (if offset <? V then
         let! (bytes, buf) := generic_pread 1 buf (V - offset) offset in
         if (bytes <? 0) || (bytes <? V - offset) then ret (inl (bytes, buf))
         else ret (inr (bytes, buf))
       else ret (inr (0, buf))) s = Ok (inr (b, buf1)) s1 /\
      unchanged s s1 cs /\ zlen buf1 = zlen buf /\
      forall i, 0 <= i < b ->
        znth buf1 i = file_byte (v_sb (s_vol s)) (v_medium (s_vol s)) cs (offset + i)).
    { destruct (Z.ltb_spec offset V).
      - destruct (generic_pread_valid 0 s cs buf (V - offset) offset Hf Ho ltac:(lia) ltac:(lia) ltac:(lia))
          as (s1 & E & U).
        pose proof (zlen_file_bytes (v_sb (s_vol s)) (v_medium (s_vol s)) cs offset (V - offset) ltac:(lia)) as Hl.
        do 2 eexists. split; [rewrite (bind_ok _ _ _ _ _ E); cbv iota; zdec; replace b with (V - offset) by lia; reflexivity |].
        split_and!; [done | rewrite zlen_splice; lia |].
        intros i Hi. rewrite znth_splice by lia. zdec. rewrite Z.sub_0_r. apply znth_file_bytes. lia.
      - exists buf, s. replace b with 0 by lia. split_and!; try done. intros; lia. }
    destruct Hfirst as (buf1 & s1 & E1 & U1 & Hl1 & Hb1).
    set (z := Z.min (size - b) (N - V)).
    exists (Z.min size (N - offset)), (splice buf1 b (zrepeat 0 z)), s1.
    pose proof (zlen_zrepeat 0 z ltac:(lia)) as Hz.
    split; [| split_and!; [lia | rewrite zlen_splice; lia | | done]].
    + change (generic_pread 2) with (pread_body (generic_pread 1)). unfold pread_body.
      rewrite (bind_ok _ _ _ s s) by done. fold V N.
      destruct (file_limit s cs Hf) as [Hlim1 Hlim2]. fold N in Hlim2.
      rewrite u64_small by (unfold in_u; lia).
      replace (offset <? 0) with false by (symmetry; apply Z.ltb_ge; lia).
      replace (N <=? offset) with false by (symmetry; apply Z.leb_gt; lia).
      replace (size =? 0) with false by (symmetry; apply Z.eqb_neq; lia).
      replace (V <? offset + size) with true by (symmetry; apply Z.ltb_lt; lia).
      rewrite (bind_ok _ _ _ _ _ E1).
      rewrite (bind_ok _ _ _ s1 s1) by done. rewrite (un_size _ _ _ U1), (un_valid _ _ _ U1). done.
    + intros i Hi. rewrite znth_splice by lia. rewrite Hz.
      destruct (Z.ltb_spec (offset + i) V).
      * zdec. apply Hb1. lia.
      * zdec. apply znth_zrepeat. lia.
Qed.

(** C2: Reading a file returns its content.  For a node whose fields describe a
    file, at any offset and for any size, the call returns how many bytes lie
    between the offset and the end of the file, at most the size; the buffer
    holds those bytes, with zeros for the ones past the valid size; and the
    medium, the bitmap and the file are as they were. *)
Theorem exfat_generic_pread_correct s cs buf size offset
  (Hf : file_ok s cs) (Ho : 0 <= offset) (Hs : 0 <= size <= zlen buf) (Hlim : offset + size < 2 ^ 64) :
  exists n buf' s', exfat_generic_pread buf size offset s = Ok (n, buf') s' /\
    n = Z.max 0 (Z.min size (n_size (s_node s) - offset)) /\ zlen buf' = zlen buf /\
    (forall i, 0 <= i < n -> znth buf' i =
       if offset + i <? n_valid_size (s_node s) then
         file_byte (v_sb (s_vol s)) (v_medium (s_vol s)) cs (offset + i)
       else 0) /\
    unchanged s s' cs.
Proof. by apply generic_pread_spec. Qed.

(** ** Writing *)

(** The state after bytes were written to the clusters of a file. *)
Definition after_write (s : nstate) (m : mem) (valid : Z) : nstate :=
  mk_nstate (set_medium m (s_vol s)) (set_n_valid_size valid (s_node s)).

(** [m'] is [m] with [data] stored at byte [p] of the file. *)
Record written (sb : super_block) (m m' : mem) (cs : list Z) (p : Z) (data : list Z) : Prop := {
  wr_frame : data_frame sb m m' cs;
  wr_data : forall q, 0 <= q < zlen cs * CLUSTER_SIZE sb ->
    file_byte sb m' cs q =
    if (p <=? q) && (q <? p + zlen data) then znth data (q - p) else file_byte sb m cs q
}.

Lemma written_app sb m m1 m2 cs p a b :
  written sb m m1 cs p a -> written sb m1 m2 cs (p + zlen a) b -> written sb m m2 cs p (a ++ b).
Proof.
  intros [F1 D1] [F2 D2]. pose proof (zlen_nonneg a). pose proof (zlen_nonneg b). split.
  - intros x Hx. by rewrite F2, F1.
  - intros q Hq. rewrite D2, D1, zlen_app by done.
    destruct (Z.leb_spec (p + zlen a) q), (Z.ltb_spec q (p + zlen a + zlen b)),
      (Z.leb_spec p q), (Z.ltb_spec q (p + zlen a)), (Z.ltb_spec q (p + (zlen a + zlen b)));
      cbn [andb]; try lia; try done.
    + rewrite znth_app_r by lia. f_equal. lia.
    + by rewrite znth_app_l by lia.
Qed.

Lemma chain_medium s cs m valid :
  vol_ok (s_vol s) -> chain s cs -> data_frame (v_sb (s_vol s)) (v_medium (s_vol s)) m cs ->
  chain (after_write s m valid) cs.
Proof.
  intros Hv Hch Hd. destruct (chain_data s m cs Hv Hd Hch) as [[] ?].
  split; [by split | done].
Qed.

(** One turn of the loop: the part of the data that fits into the cluster. *)
Lemma pwrite_turn fuel s cs k o offset size data : vol_ok (s_vol s) -> chain s cs ->
  let sb := v_sb (s_vol s) in let CS := CLUSTER_SIZE sb in let r := zlen data in
  0 < r -> 0 <= k -> 0 <= o < CS -> k * CS + o + r <= zlen cs * CS -> k * CS + o + r = offset + size ->
  let l := Z.min (CS - o) r in
  let s1 := after_write s (mwrite (v_medium (s_vol s)) (file_addr sb cs (k * CS + o)) (sub data 0 l))
    (Z.max (n_valid_size (s_node s)) (offset + size - (r - l))) in
  written sb (v_medium (s_vol s)) (v_medium (s_vol s1)) cs (k * CS + o) (sub data 0 l) /\ vol_ok (s_vol s1) /\ chain s1 cs /\
  exists c, (0 < r - l -> c = znth cs (k + 1)) /\
    pwrite_loop (S fuel) (znth cs k) o offset size data r s =
    pwrite_loop fuel c 0 offset size (drop (Z.to_nat l) data) (r - l) s1.
Proof.
  intros Hv Hch sb CS r Hr Hk Ho Hfit Hend l s1. pose proof (vo_geometry _ Hv) as Hg. fold sb in Hg.
  pose proof (CS_pos sb Hg) as Hcs. fold CS in Hcs. assert (Hk' : 0 <= k < zlen cs) by nia.
  pose proof Hch as [[Hval _ Hnd _ _ _] _]. pose proof (znth_Forall _ _ k Hval Hk') as Vk. fold sb in Vk.
  set (a := sub data 0 l) in *. assert (Hla : zlen a = l) by (unfold a; apply zlen_sub; lia).
  assert (Haddr : cluster_off sb (znth cs k) + o = file_addr sb cs (k * CS + o)).
  { unfold file_addr. fold CS. replace (k * CS + o) with (o + k * CS) by ring.
    rewrite Z.div_add, Z.mod_add, Z.div_small, Z.mod_small by lia. rewrite Z.add_0_l. lia. }
  assert (Hmod : (k * CS + o) mod CS = o /\ (k * CS + o) / CS = k).
  { replace (k * CS + o) with (o + k * CS) by ring.
    rewrite Z.div_add, Z.mod_add, Z.div_small, Z.mod_small by lia. lia. }
  destruct Hmod as [Hmod Hdiv].
  assert (W1 : written sb (v_medium (s_vol s)) (v_medium (s_vol s1)) cs (k * CS + o) a).
  { split.
    - apply data_frame_write; [done | fold CS; lia | fold CS; rewrite Hmod, Hla; lia].
    - intros q Hq. apply file_byte_write; try done; fold CS; rewrite ?Hmod, ?Hdiv, ?Hla; nia. }
  assert (Hch1 : chain s1 cs) by (apply chain_medium; [done | done | apply W1]).
  assert (Hv1 : vol_ok (s_vol s1)) by (by apply vol_ok_medium). split_and!; [done | done | done |].
  destruct (next_cluster_any s1 cs k Hv1 (proj1 Hch1) Hk') as (c & En & Ec). exists c. split; [intros; apply Ec; nia |].
  assert (Hu : u64 (offset + size - (r - l)) = offset + size - (r - l)).
  { pose proof (chain_length _ _ Hval Hnd Hv) as L1. pose proof (cluster_count_bound _ Hv) as L2.
    pose proof (CLUSTER_SIZE_range _ Hg) as L3. fold CS in L3. apply u64_small. unfold in_u. nia. }
  cbn [pwrite_loop]. zdec. rewrite (bind_ok _ _ _ s s) by done. unfold s_ef. change (ef_sb (v_ef (s_vol s))) with sb.
  rewrite (CLUSTER_INVALID_valid sb Hg _ Vk). fold CS l.
  erewrite bind_ok by (apply (exfat_c2o_valid (v_ef (s_vol s)) Hg); unfold valid_cluster in Vk; lia).
  change (ef_sb (v_ef (s_vol s))) with sb. rewrite Haddr. fold a.
  erewrite bind_ok by (apply on_os_ok, exfat_pwrite_ok, Hv). cbn [negb].
  erewrite bind_ok by reflexivity. rewrite Hu. replace (set_s_node _ _) with s1; [by rewrite (bind_ok _ _ _ _ _ En) |].
  unfold s1, after_write, set_medium. nst. destruct s as [[ef os] n]. unfold s_os, vset. cbn. by destruct ef, os.
Qed.

Lemma pwrite_loop_spec fuel : forall s cs cluster k o offset size data,
  vol_ok (s_vol s) -> chain s cs ->
  let sb := v_sb (s_vol s) in let CS := CLUSTER_SIZE sb in let r := zlen data in
  r <= Z.of_nat fuel -> 0 <= k -> 0 <= o < CS ->
  (0 < r -> k * CS + o + r <= zlen cs * CS /\ cluster = znth cs k /\ k * CS + o + r = offset + size) ->
  exists m', pwrite_loop fuel cluster o offset size data r s =
      Ok (inr 0) (after_write s m'
        (if 0 <? r then Z.max (n_valid_size (s_node s)) (offset + size) else n_valid_size (s_node s))) /\
    written sb (v_medium (s_vol s)) m' cs (k * CS + o) data.
Proof.
  induction fuel as [| fuel IH]; intros s cs cluster k o offset size data Hv Hch sb CS r Hr Hk Ho Hc;
    pose proof (zlen_nonneg data) as Hd0.
  1: assert (Hr0 : r = 0) by lia.
  2: destruct (Z.leb_spec r 0); [assert (Hr0 : r = 0) by lia |].
  1, 2: cbn [pwrite_loop]; rewrite Hr0; exists (v_medium (s_vol s)); split;
    [ unfold after_write, set_medium; rewrite vset_self; by destruct s as [? []]
    | split; [by intros ? _ |]; intros q Hq; fold r; rewrite Hr0;
      destruct (Z.leb_spec (k * CS + o) q), (Z.ltb_spec q (k * CS + o + 0)); (lia || done) ].
  destruct (Hc ltac:(lia)) as (Hfit & -> & Hend).
  destruct (pwrite_turn fuel s cs k o offset size data Hv Hch ltac:(lia) Hk Ho Hfit Hend) as (W1 & Hv1 & Hch1 & c & Ec & E1).
  fold sb CS r in W1, Hv1, Hch1, Ec, E1. set (l := Z.min (CS - o) r) in *. set (b := drop (Z.to_nat l) data) in *.
  set (v1 := Z.max (n_valid_size (s_node s)) (offset + size - (r - l))) in *. set (s1 := after_write s _ v1) in *.
  assert (Hla : zlen (sub data 0 l) = l) by (apply zlen_sub; lia).
  assert (Hlb : zlen b = r - l) by (unfold b; rewrite zlen_drop; lia).
  destruct (IH s1 cs c (k + 1) 0 offset size b) as (m' & E & W2); try done; [lia | lia | | |].
  { pose proof (CLUSTER_SIZE_range _ (vo_geometry _ Hv)) as L. fold sb in L. change (v_sb (s_vol s1)) with sb. lia. }
  { change (v_sb (s_vol s1)) with sb. fold CS. rewrite Hlb. intros Hb. split_and!; [lia | by apply Ec | lia]. }
  change (v_sb (s_vol s1)) with sb in *. fold CS in W2. rewrite Hlb in E. exists m'. split.
  - rewrite E1, E. f_equal. change (n_valid_size (s_node s1)) with v1.
    unfold after_write. f_equal. cbn [s_node]. rewrite (proj2 (Z.ltb_lt 0 r)) by lia.
    replace (if 0 <? r - l then Z.max v1 (offset + size) else v1) with
      (Z.max (n_valid_size (s_node s)) (offset + size)); [reflexivity |].
    unfold v1. destruct (Z.ltb_spec 0 (r - l)); lia.
  - rewrite <- (sub_0_app data l). fold b. eapply written_app; [exact W1 |]. rewrite Hla.
    destruct (Z.le_gt_cases r (CS - o)).
    + assert (Eb : b = []) by (destruct b as [| x b']; [done |]; rewrite zlen_cons in Hlb; pose proof (zlen_nonneg b'); lia).
      rewrite Eb in *. destruct W2 as [F2 D2]. split; [done |]. intros q Hq. rewrite D2 by done.
      change (zlen (@nil Z)) with 0.
      destruct (Z.leb_spec ((k + 1) * CS + 0) q), (Z.ltb_spec q ((k + 1) * CS + 0 + 0)),
        (Z.leb_spec (k * CS + o + l) q), (Z.ltb_spec q (k * CS + o + l + 0)); cbn [andb]; lia || done.
    + replace (k * CS + o + l) with ((k + 1) * CS + 0) by lia. exact W2.
Qed.

Lemma others_kept_refl v cs : Forall (fun c => used v c = true) cs -> others_kept v v cs cs.
Proof.
  intros Hus. split_and!; try done. intros c Hc. rewrite Forall_forall in Hus.
  destruct (decide (c ∈ cs)) as [Hin | Hin].
  - rewrite Hus, bool_decide_true by done. done.
  - by rewrite bool_decide_false, bool_decide_true, andb_true_r by done.
Qed.

Lemma others_kept_trans v v1 v2 cs cs1 cs2 :
  v_sb v1 = v_sb v -> cs `prefix_of` cs1 -> cs1 `prefix_of` cs2 ->
  (forall c, c ∈ cs1 -> c ∈ cs \/ free_cluster_of v c) ->
  others_kept v v1 cs cs1 -> others_kept v1 v2 cs1 cs2 -> others_kept v v2 cs cs2.
Proof.
  intros Hsb Hp1 Hp2 Hnew (M1 & F1 & U1) (M2 & F2 & U2). rewrite Hsb in *.
  assert (Hsub1 : forall c, c ∈ cs -> c ∈ cs1) by (intros c; destruct Hp1 as [k ->]; set_solver).
  assert (Hsub2 : forall c, c ∈ cs1 -> c ∈ cs2) by (intros c; destruct Hp2 as [k ->]; set_solver).
  split_and!.
  - intros a Ha Ho. rewrite M2, M1; try done. intros c Hc. apply Ho. auto.
  - intros c Hc Hu Hcs. assert (Hc1 : c ∉ cs1).
    { intros Hin. destruct (Hnew c Hin) as [? | [_ ?]]; congruence. }
    rewrite F2, F1; try done. rewrite U1, Hu by done.
    by rewrite (bool_decide_false (c ∈ cs1)), (bool_decide_true (c ∉ cs)) by done.
  - intros c Hc. rewrite U2, U1 by done. specialize (Hsub1 c). specialize (Hsub2 c).
    destruct (decide (c ∈ cs2)); [by rewrite (bool_decide_true (c ∈ cs2)) by done |].
    rewrite (bool_decide_false (c ∈ cs2)), (bool_decide_false (c ∈ cs1)),
      (bool_decide_true (c ∉ cs1)) by tauto. cbn [orb]. by rewrite andb_true_r.
Qed.

(** A write inside a file. *)
Lemma pwrite_body_spec s cs offset data :
  file_ok s cs -> 0 <= offset -> offset + zlen data <= n_size (s_node s) ->
  exists s', pwrite_body data (zlen data) offset s = Ok (zlen data) s' /\
    file_ok s' cs /\ n_size (s_node s') = n_size (s_node s) /\
    n_valid_size (s_node s') =
      (if 0 <? zlen data then Z.max (n_valid_size (s_node s)) (offset + zlen data)
       else n_valid_size (s_node s)) /\
    written (v_sb (s_vol s)) (v_medium (s_vol s)) (v_medium (s_vol s')) cs offset data /\
    others_kept (s_vol s) (s_vol s') cs cs /\ v_sb (s_vol s') = v_sb (s_vol s).
Proof.
  intros Hf Ho Hend. pose proof Hf as [Hv Hch Hsz Hvs]. pose proof (zlen_nonneg data).
  pose proof Hch as [[Hval Hus Hnd _ _ _] _]. pose proof (vo_geometry _ Hv) as Hg.
  pose proof (CS_pos _ Hg) as Hcs. destruct (file_limit s cs Hf) as [Hlim Hlim2].
  pose proof (file_fits s cs Hf) as Hfit. unfold pwrite_body. rewrite (bind_ok _ _ _ s s) by done.
  set (sb := v_sb (s_vol s)) in *. set (CS := CLUSTER_SIZE sb) in *.
  destruct (Z.eqb_spec (zlen data) 0) as [E0 | Hne].
  { exists s. rewrite E0. cbn [Z.ltb Z.compare]. split_and!; try done.
    - split; [by intros ? _ |]. intros q Hq. rewrite E0.
      destruct (Z.leb_spec offset q), (Z.ltb_spec q (offset + 0)); cbn [andb]; lia || done.
    - by apply others_kept_refl. }
  set (k := offset / CS).
  pose proof (Z.div_mod offset CS ltac:(lia)) as Hdm. fold k in Hdm.
  pose proof (Z.mod_pos_bound offset CS Hcs).
  assert (Hk : 0 <= k < zlen cs).
  { split; [apply Z.div_pos; lia | apply Z.div_lt_upper_bound; lia]. }
  pose proof (znth_Forall _ _ k Hval Hk) as Vk. fold sb in Vk.
  unfold s_ef. change (ef_sb (v_ef (s_vol s))) with sb. fold CS k. rewrite u32_small by (unfold in_u; lia).
  erewrite bind_ok by (apply (advance_cluster_spec _ _ _ Hv (proj1 Hch)); lia).
  rewrite (CLUSTER_INVALID_valid sb Hg _ Vk).
  pose proof (file_ok_fptr s cs k Hf Hk) as U1.
  set (s1 := set_s_node (set_fptr k (znth cs k) (s_node s)) s) in *.
  destruct (pwrite_loop_spec (Z.to_nat (zlen data)) s1 cs (znth cs k) k (offset mod CS) offset (zlen data) data)
    as (m' & E & W); [exact Hv | apply U1 | lia | lia | done | |].
  { intros _. split_and!; [change (v_sb (s_vol s1)) with sb; fold CS; lia | done |].
    change (v_sb (s_vol s1)) with sb. fold CS. lia. }
  change (v_sb (s_vol s1)) with sb in *. change (v_medium (s_vol s1)) with (v_medium (s_vol s)) in W.
  fold CS in W. replace (k * CS + offset mod CS) with offset in W by lia.
  rewrite (bind_ok _ _ _ _ _ E).
  replace (0 <? zlen data) with true in * by (symmetry; apply Z.ltb_lt; lia).
  set (s2 := after_write s1 m' _).
  assert (Hf2 : file_ok s2 cs).
  { split; [by apply vol_ok_medium | | exact Hsz | cbn; lia].
    apply chain_medium; [done | apply U1 | apply W]. }
  assert (Hok : others_kept (s_vol s) (s_vol s2) cs cs).
  { destruct (others_kept_refl (s_vol s) cs Hus) as (_ & _ & U). split_and!; [| | exact U].
    - intros a _ Hout. by apply W.
    - intros c Hc _ _. apply (fat_next_data sb Hg _ _ cs); [done | done | apply W]. }
  rewrite (bind_ok _ _ _ s2 s2) by done.
  destruct (negb (is_dir (s_node s2))); unfold when.
  - exists (set_s_node (set_n_is_dirty true (set_n_mtime (os_clock (s_os s2) (os_ticks (s_os s2))) (s_node s2)))
             (set_s_vol (set_v_os (set_os_ticks (S (os_ticks (s_os s2))) (s_os s2)) (s_vol s2)) s2)).
    split; [erewrite bind_ok by reflexivity; by rewrite Z.sub_0_r |].
    split_and!; try done. destruct Hf2 as [[] [[] ?] ? ?].
    split; [by split | split; [by split | done] | done | done].
  - exists s2. rewrite (bind_ok _ _ _ tt s2), Z.sub_0_r by done. by split_and!.
Qed.

Definition referenced (n : exfat_node) : Prop := n_references n <> 0 \/ n_parent n = None.

(** Growing a file keeps its clusters and its data. *)
Lemma truncate_grow s cs size erase :
  file_ok s cs -> size_fits (v_sb (s_vol s)) size -> referenced (s_node s) -> n_size (s_node s) < size ->
  exists s' rc cs', exfat_truncate size erase s = Ok rc s' /\
    cs `prefix_of` cs' /\ file_ok s' cs' /\ others_kept (s_vol s) (s_vol s') cs cs' /\
    v_sb (s_vol s') = v_sb (s_vol s) /\
    (forall c, c ∈ cs' -> c ∈ cs \/ free_cluster_of (s_vol s) c) /\
    (forall p, 0 <= p < n_valid_size (s_node s) ->
       file_byte (v_sb (s_vol s)) (v_medium (s_vol s')) cs' p =
       file_byte (v_sb (s_vol s)) (v_medium (s_vol s)) cs p) /\
    ((rc = 0 /\ n_size (s_node s') = size /\ referenced (s_node s') /\
      n_valid_size (s_node s') = (if erase then size else n_valid_size (s_node s)) /\
      (erase = true -> forall p, n_valid_size (s_node s) <= p < size ->
         file_byte (v_sb (s_vol s)) (v_medium (s_vol s')) cs' p = 0)) \/
     rc = - ENOSPC).
Proof.
  intros Hf Hfit Href Hlt. pose proof Hf as [Hv Hch Hsz Hvs].
  pose proof (vo_geometry _ Hv) as Hg. pose proof (CS_pos _ Hg) as Hcs.
  pose proof Hch as [[_ Hus _ _ _ _] _].
  destruct (truncate_cases s cs size erase Hf Hfit Href) as (s' & rc & E & C).
  destruct C as [(-> & He & ->) | [(-> & cs' & T) | (-> & _ & Hf' & Hn & O & D & Hsb)]].
  - lia.
  - destruct T as [Tf Ts [Tp Tr] Tv Tpre Tn Td Tz To Tsb]. exists s', 0, cs'.
    assert (Hlen : zlen cs <= zlen cs').
    { pose proof Tf as [_ _ Hsz' _]. rewrite Hsz', Hsz, Ts, Tsb. unfold DIV_ROUND_UP.
      apply Z.div_le_mono; lia. }
    split_and!; try done.
    + destruct Tpre as [[k Hk] | ?]; [| done]. rewrite Hk, zlen_app in Hlen.
      assert (k = []) as ->.
      { destruct k; [done |]. rewrite zlen_cons in Hlen. pose proof (zlen_nonneg k). lia. }
      rewrite app_nil_r in Hk. by rewrite Hk.
    + intros p Hp. apply Td. lia.
    + left. split_and!; try done.
      * unfold referenced. by rewrite Tp, Tr.
      * rewrite Tv. destruct erase; lia.
  - exists s', (- ENOSPC), cs. split_and!; try done.
    + auto.
    + intros p Hp. unfold file_byte. apply D. pose proof (file_fits s cs Hf).
      destruct (file_addr_in _ Hg cs p ltac:(lia)) as [Hin Ha].
      pose proof Hch as [[Hval _ _ _ _ _] _]. rewrite Forall_forall in Hval.
      pose proof (cluster_above _ _ Hg (Hval _ Hin)). lia.
    + auto.
Qed.

Lemma prefix_zlen {A} (cs cs' : list A) : cs `prefix_of` cs' -> zlen cs <= zlen cs'.
Proof. intros [k ->]. rewrite zlen_app. pose proof (zlen_nonneg k). lia. Qed.

(** What the two truncations at the start of [exfat_generic_pwrite] do: the
    file reaches [n] bytes at least, or there was no space. *)
Lemma pwrite_extend s cs n zero :
  file_ok s cs -> size_fits (v_sb (s_vol s)) n -> referenced (s_node s) ->
  exists s' rc cs', (if n_size (s_node s) <? n then exfat_truncate n zero else ret 0) s = Ok rc s' /\
    cs `prefix_of` cs' /\ file_ok s' cs' /\ others_kept (s_vol s) (s_vol s') cs cs' /\
    v_sb (s_vol s') = v_sb (s_vol s) /\
    (forall c, c ∈ cs' -> c ∈ cs \/ free_cluster_of (s_vol s) c) /\
    (forall p, 0 <= p < n_valid_size (s_node s) ->
       file_byte (v_sb (s_vol s)) (v_medium (s_vol s')) cs' p =
       file_byte (v_sb (s_vol s)) (v_medium (s_vol s)) cs p) /\
    ((rc = 0 /\ n_size (s_node s') = Z.max (n_size (s_node s)) n /\ referenced (s_node s') /\
      n_valid_size (s_node s') =
        (if (n_size (s_node s) <? n) && zero then n else n_valid_size (s_node s)) /\
      (zero = true -> n_size (s_node s) < n -> forall p, n_valid_size (s_node s) <= p < n ->
         file_byte (v_sb (s_vol s)) (v_medium (s_vol s')) cs' p = 0)) \/
     rc = - ENOSPC).
Proof.
  intros Hf Hfit Href. destruct (Z.ltb_spec (n_size (s_node s)) n) as [Hlt | Hge].
  - destruct (truncate_grow s cs n zero Hf Hfit Href Hlt)
      as (s' & rc & cs' & E & Hp & Hf' & Ho & Hsb & Hn & Hd & C).
    exists s', rc, cs'. split_and!; try done.
    destruct C as [(-> & Hs & Hr & Hv & Hz) | ->]; [left | by right].
    split_and!; try done; [lia |]. intros Hzero _. by apply Hz.
  - exists s, 0, cs. pose proof Hf as [_ [[_ Hus _ _ _ _] _] _ _]. split_and!; try done.
    + by apply others_kept_refl.
    + auto.
    + left. split_and!; try done; lia.
Qed.

(** A step that makes room in a file: new clusters were free, and the valid bytes and all
    other files stay. *)
Record roomier (s s' : nstate) (cs cs' : list Z) : Prop := {
  ro_prefix : cs `prefix_of` cs';
  ro_file : file_ok s' cs';
  ro_others : others_kept (s_vol s) (s_vol s') cs cs';
  ro_sb : v_sb (s_vol s') = v_sb (s_vol s);
  ro_new : forall c, c ∈ cs' -> c ∈ cs \/ free_cluster_of (s_vol s) c;
  ro_bytes : forall p, 0 <= p < n_valid_size (s_node s) ->
    file_byte (v_sb (s_vol s)) (v_medium (s_vol s')) cs' p = file_byte (v_sb (s_vol s)) (v_medium (s_vol s)) cs p
}.

Lemma free_before v v1 cs cs1 c : v_sb v1 = v_sb v -> others_kept v v1 cs cs1 -> free_cluster_of v1 c ->
  c ∈ cs \/ free_cluster_of v c.
Proof.
  intros Hsb (_ & _ & U) [Hval Hu]. rewrite Hsb in Hval. rewrite U in Hu by done. apply orb_false_iff in Hu as [_ Hu].
  destruct (decide (c ∈ cs)); [by left | right]. split; [done |]. by rewrite bool_decide_true, andb_true_r in Hu by done.
Qed.

Lemma roomier_trans s s1 s2 cs cs1 cs2 : roomier s s1 cs cs1 -> roomier s1 s2 cs1 cs2 ->
  n_valid_size (s_node s) <= n_valid_size (s_node s1) -> roomier s s2 cs cs2.
Proof.
  intros [P1 F1 O1 Sb1 N1 D1] [P2 F2 O2 Sb2 N2 D2] Hv. split; [by etrans | done | by eapply others_kept_trans | congruence | |].
  - intros c Hc. destruct (N2 c Hc) as [Hc1 | Hfree]; [auto | by eapply free_before].
  - intros p Hp. rewrite Sb1 in D2. rewrite D2 by lia. by apply D1.
Qed.

(** Both truncations at the start of [exfat_generic_pwrite]. *)
Lemma pwrite_room s cs data offset : file_ok s cs -> 0 <= offset -> size_fits (v_sb (s_vol s)) (offset + zlen data) ->
  referenced (s_node s) -> exists s2 cs2, roomier s s2 cs cs2 /\
    (exfat_generic_pwrite data (zlen data) offset s = Ok (- ENOSPC) s2 \/
     (exfat_generic_pwrite data (zlen data) offset s = pwrite_body data (zlen data) offset s2 /\
      n_size (s_node s2) = Z.max (n_size (s_node s)) (offset + zlen data) /\
      n_valid_size (s_node s2) = (if n_size (s_node s) <? offset then offset else n_valid_size (s_node s)) /\
      (n_size (s_node s) < offset -> forall p, n_valid_size (s_node s) <= p < offset ->
         file_byte (v_sb (s_vol s)) (v_medium (s_vol s2)) cs2 p = 0))).
Proof.
  intros Hf Ho Hfit Href. pose proof (zlen_nonneg data) as Hd0. pose proof (vo_geometry _ (fo_vol _ _ Hf)) as Hg.
  pose proof (CS_pos _ Hg) as Hcs. pose proof (CLUSTER_SIZE_range _ Hg) as Hcsr.
  assert (Hfit1 : size_fits (v_sb (s_vol s)) offset) by (unfold size_fits in *; lia).
  destruct (pwrite_extend s cs offset true Hf Hfit1 Href) as (s1 & rc1 & cs1 & E1 & P1 & F1 & O1 & Sb1 & N1 & D1 & C1).
  assert (R1 : roomier s s1 cs cs1) by done. unfold exfat_generic_pwrite. zdec. rewrite (bind_ok _ _ _ s s) by done.
  destruct C1 as [(-> & Sz1 & Hr1 & V1 & Z1) | ->].
  2: { exists s1, cs1. split; [done | left]. by rewrite (and_then_err _ _ _ _ _ E1). }
  rewrite (and_then_0 _ _ _ _ E1), (bind_ok _ _ _ s1 s1) by done. rewrite u64_small by (unfold size_fits, in_u in *; lia).
  destruct (pwrite_extend s1 cs1 (offset + zlen data) false F1 ltac:(by rewrite Sb1) Hr1)
    as (s2 & rc2 & cs2 & E2 & P2 & F2 & O2 & Sb2 & N2 & D2 & C2).
  assert (Hv1 : n_valid_size (s_node s) <= n_valid_size (s_node s1)).
  { rewrite V1. destruct (fo_valid _ _ Hf). destruct (Z.ltb_spec (n_size (s_node s)) offset); simpl; lia. }
  exists s2, cs2. split; [by eapply roomier_trans |]. destruct C2 as [(-> & Sz2 & _ & V2 & _) | ->]; [right | left].
  2: { by rewrite (and_then_err _ _ _ _ _ E2). }
  rewrite (and_then_0 _ _ _ _ E2). rewrite andb_true_r in V1. rewrite andb_false_r in V2.
  split_and!; [done | lia | congruence |]. intros Hlt p Hp. pose proof (fo_valid _ _ F1). rewrite Sb1 in D2. rewrite V1 in D2. revert D2. zdec.
  intros D2. pose proof (fo_valid _ _ Hf). rewrite D2 by lia. by apply Z1.
Qed.

(** C1: Writing to a file changes the bytes that are written and no others.  For
    a node whose fields describe a file, at any offset: the call returns the
    number of bytes of the data, the file then holds them at that offset and is
    as long as needed, with zeros between its old end and the offset; or it
    returns -ENOSPC.  Either way the node still describes a file, the valid
    bytes that were not overwritten are as they were, and no cluster, FAT entry
    or bit of another file has changed. *)
Theorem exfat_generic_pwrite_correct s cs data offset
  (Hf : file_ok s cs) (Ho : 0 <= offset) (Hfit : size_fits (v_sb (s_vol s)) (offset + zlen data))
  (Href : referenced (s_node s)) :
  exists s' rc cs', exfat_generic_pwrite data (zlen data) offset s = Ok rc s' /\
    file_ok s' cs' /\ others_kept (s_vol s) (s_vol s') cs cs' /\
    (forall p, 0 <= p < n_valid_size (s_node s) -> rc < 0 \/ p < offset \/ offset + zlen data <= p ->
       file_byte (v_sb (s_vol s)) (v_medium (s_vol s')) cs' p =
       file_byte (v_sb (s_vol s)) (v_medium (s_vol s)) cs p) /\
    ((rc = zlen data /\ n_size (s_node s') = Z.max (n_size (s_node s)) (offset + zlen data) /\
      n_valid_size (s_node s) <= n_valid_size (s_node s') /\
      (0 < zlen data -> offset + zlen data <= n_valid_size (s_node s')) /\
      (forall i, 0 <= i < zlen data ->
         file_byte (v_sb (s_vol s)) (v_medium (s_vol s')) cs' (offset + i) = znth data i) /\
      (n_size (s_node s) < offset -> forall p, n_valid_size (s_node s) <= p < offset ->
         file_byte (v_sb (s_vol s)) (v_medium (s_vol s')) cs' p = 0)) \/
     rc = - ENOSPC).
Proof.
  pose proof (zlen_nonneg data) as Hd0. destruct (pwrite_room s cs data offset Hf Ho Hfit Href) as (s2 & cs2 & R & C).
  destruct C as [E | (E & Sz2 & V2 & Z2)].
  { exists s2, (- ENOSPC), cs2. destruct R as [_ F2 O2 _ _ D2]. split_and!; try done; [| by right]. intros p Hp _. by apply D2. }
  destruct (pwrite_body_spec s2 cs2 offset data (ro_file _ _ _ _ R) Ho ltac:(lia))
    as (s3 & E3 & F3 & Sz3 & V3 & [WF WD] & O3 & Sb3).
  pose proof (file_fits s2 cs2 (ro_file _ _ _ _ R)) as Hfit2. pose proof (ro_sb _ _ _ _ R) as Sb2. rewrite Sb2 in *.
  assert (Hfb : forall p, 0 <= p < n_size (s_node s2) -> p < offset \/ offset + zlen data <= p ->
    file_byte (v_sb (s_vol s)) (v_medium (s_vol s3)) cs2 p = file_byte (v_sb (s_vol s)) (v_medium (s_vol s2)) cs2 p).
  { intros p Hp Hout. rewrite WD by lia.
    destruct (Z.leb_spec offset p), (Z.ltb_spec p (offset + zlen data)); cbn [andb]; lia || done. }
  pose proof (fo_valid _ _ Hf) as Hvs. pose proof (fo_valid _ _ (ro_file _ _ _ _ R)) as Hvs2.
  exists s3, (zlen data), cs2. rewrite E. split_and!; [exact E3 | exact F3 | | | left; split_and!].
  - destruct R as [P2 F2 O2 Sb N2 _]. eapply (others_kept_trans _ _ _ cs cs2 cs2); [exact Sb | done | done | exact N2 | exact O2 | exact O3].
  - intros p Hp [? | Hout]; [lia |]. rewrite Hfb by lia. by apply (ro_bytes _ _ _ _ R).
  - done.
  - lia.
  - rewrite V3, V2. destruct (Z.ltb_spec (n_size (s_node s)) offset), (0 <? zlen data); lia.
  - intros Hpos. rewrite V3. zdec. lia.
  - intros i Hi. rewrite WD by lia.
    destruct (Z.leb_spec offset (offset + i)), (Z.ltb_spec (offset + i) (offset + zlen data)); try lia.
    cbn [andb]. by replace (offset + i - offset) with i by lia.
  - intros Hlt p Hp. rewrite Hfb by lia. by apply Z2.
Qed.

(** C18: A write that starts after the valid size and inside of the file does not
    clear the bytes between the two: they were read as zeros before the write,
    and are read as what was left on the medium after it. *)
Theorem write_gap_exposes_medium s cs data offset p
  (Hf : file_ok s cs) (Hend : offset + zlen data <= n_size (s_node s)) (Hd : 0 < zlen data)
  (Hp : n_valid_size (s_node s) <= p < offset) :
  (exists s0, exfat_generic_pread [0] 1 p s = Ok (1, [0]) s0) /\
  exists s1 s2, exfat_generic_pwrite data (zlen data) offset s = Ok (zlen data) s1 /\
    exfat_generic_pread [0] 1 p s1 =
      Ok (1, [file_byte (v_sb (s_vol s)) (v_medium (s_vol s)) cs p]) s2.
Proof.
  pose proof (fo_valid _ _ Hf) as Hvs. destruct (file_limit s cs Hf) as [Hl1 Hl2].
  assert (Hone : forall l, zlen l = 1 -> exists b : Z, l = [b] /\ znth l 0 = b).
  { intros [| b [|]] Hl; rewrite ?zlen_cons in Hl; try done. by exists b.
    pose proof (zlen_nonneg l). lia. }
  split.
  - destruct (generic_pread_spec s cs [0] 1 p Hf ltac:(lia) ltac:(done) ltac:(lia))
      as (n & buf & s0 & E & -> & Hlen & Hb & _).
    destruct (Hone buf Hlen) as (b & -> & Hb0). exists s0. rewrite E.
    specialize (Hb 0 ltac:(lia)). rewrite Hb0 in Hb. revert Hb. zdec. intros ->.
    do 3 f_equal. lia.
  - destruct (pwrite_body_spec s cs offset data Hf ltac:(lia) Hend)
      as (s1 & E & F & Sz & V & [_ WD] & _ & Sb).
    pose proof (file_fits s cs Hf) as Hfit.
    destruct (generic_pread_spec s1 cs [0] 1 p F ltac:(lia) ltac:(done) ltac:(lia))
      as (n & buf & s2 & E2 & -> & Hlen & Hb & _).
    destruct (Hone buf Hlen) as (b & -> & Hb0). exists s1, s2. split.
    + unfold exfat_generic_pwrite. zdec. rewrite (bind_ok _ _ _ s s) by done. zdec.
      rewrite (and_then_0 _ _ s s), (bind_ok _ _ _ s s) by done.
      rewrite u64_small by (unfold in_u; lia). zdec. by rewrite (and_then_0 _ _ s s).
    + rewrite E2. specialize (Hb 0 ltac:(lia)). rewrite Hb0 in Hb. rewrite V in Hb.
      revert Hb. zdec. intros ->. rewrite Sb, Sz, WD by lia.
      destruct (Z.leb_spec offset (p + 0)); [lia |]. cbn [andb].
      rewrite Z.add_0_r. do 3 f_equal. lia.
Qed.
End ReadWrite.

(** ** The small volume of Geometry.v *)

#[local] Existing Instance word_le64.

Lemma exfat_generic_pread_correct_witness :
  exists n buf' s', exfat_generic_pread (zrepeat 0xaa 100) 100 540 demo_state = Ok (n, buf') s' /\
    n = 60 /\ zlen buf' = 100 /\
    (forall i, 0 <= i < n -> znth buf' i =
       if 540 + i <? 550 then file_byte demo_sb (v_medium demo_vol) [4; 5] (540 + i) else 0) /\
    unchanged demo_state s' [4; 5].
Proof.
  apply (exfat_generic_pread_correct demo_state [4; 5] (zrepeat 0xaa 100) 100 540 demo_file);
    [lia | vm_compute; split; discriminate | vm_compute; done].
Defined.

Lemma exfat_generic_pwrite_correct_witness :
  exists s' rc cs', exfat_generic_pwrite [1; 2; 3] 3 1600 demo_state = Ok rc s' /\
    file_ok s' cs' /\ others_kept demo_vol (s_vol s') [4; 5] cs' /\
    (forall p, 0 <= p < 550 -> rc < 0 \/ p < 1600 \/ 1603 <= p ->
       file_byte demo_sb (v_medium (s_vol s')) cs' p = file_byte demo_sb (v_medium demo_vol) [4; 5] p) /\
    ((rc = 3 /\ n_size (s_node s') = 1603 /\ 550 <= n_valid_size (s_node s') /\
      (0 < 3 -> 1603 <= n_valid_size (s_node s')) /\
      (forall i, 0 <= i < 3 -> file_byte demo_sb (v_medium (s_vol s')) cs' (1600 + i) = znth [1; 2; 3] i) /\
      (600 < 1600 -> forall p, 550 <= p < 1600 -> file_byte demo_sb (v_medium (s_vol s')) cs' p = 0)) \/
     rc = - ENOSPC).
Proof.
  apply (exfat_generic_pwrite_correct demo_state [4; 5] [1; 2; 3] 1600 demo_file);
    [lia | vm_compute; split; discriminate || done | left; discriminate].
Defined.

Lemma write_gap_exposes_medium_witness :
  (exists s0, exfat_generic_pread [0] 1 560 demo_state = Ok (1, [0]) s0) /\
  exists s1 s2, exfat_generic_pwrite [7] 1 580 demo_state = Ok 1 s1 /\
    exfat_generic_pread [0] 1 560 s1 =
      Ok (1, [file_byte demo_sb (v_medium demo_vol) [4; 5] 560]) s2.
Proof.
  apply (write_gap_exposes_medium demo_state [4; 5] [7] 580 560 demo_file);
    vm_compute; repeat split; discriminate || done.
Defined.
