(* ===== verification/Utils.v ===== *)
(** * Utils: file attributes, names, sizes for people and mount options (libexfat/utils.c)

    The name hash and the checksums of utils.c are in Checksum.v.  A C string is
    the list of its bytes, without the null byte that ends it. *)

From Stdlib Require Import ZArith Lia.
From stdpp Require Import base numbers list gmap strings.
From S2P Require Import Prelude Bytes Monad Ondisk State Utf Geometry.

#[local] Open Scope Z_scope.

(** ** Definitions *)

(** *** C strings *)

Definition char (c : String.string) : Z :=
  match c with
  | String.String c _ => Z.of_N (Ascii.N_of_ascii c)
  | String.EmptyString => 0
  end.
Arguments char c%_string.

(** A string literal. *)
Definition str (s : String.string) : list Z :=
  map (fun c => Z.of_N (Ascii.N_of_ascii c)) (String.list_ascii_of_string s).
Arguments str s%_string.

(** The string in a buffer: the bytes before the first null byte. *)
Fixpoint c_string (buf : list Z) : list Z :=
  match buf with
  | c :: buf => if c =? 0 then [] else c :: c_string buf
  | [] => []
  end.

(** The decimal digits of a number that is not negative. *)
Fixpoint decimal_loop (fuel : nat) (v : Z) (digits : list Z) : list Z :=
  match fuel with
  | O => digits
  | S fuel =>
      let digits := (0x30 + v mod 10) :: digits in
      if v <? 10 then digits else decimal_loop fuel (v / 10) digits
  end.

(** [snprintf] with ["%ld"]; a 64-bit number has at most 19 digits. *)
Definition decimal (v : Z) : list Z :=
  if v <? 0 then 0x2d :: decimal_loop 20 (- v) [] else decimal_loop 20 v [].

(** *** Attributes *)

Definition S_IFDIR : Z := 0x4000.
Definition S_IFREG : Z := 0x8000.

(** The fields of [struct stat] that [exfat_stat] fills; the others are zero. *)
Record stat : Type := mk_stat {
  st_mode : Z;
  st_nlink : Z;
  st_uid : Z;
  st_gid : Z;
  st_size : Z;
  st_blocks : Z;
  st_mtime : Z;
  st_atime : Z;
  st_ctime : Z
}.

Definition exfat_stat (ef : exfat) (node : exfat_node) : stat := {|
  st_mode :=
    if negb (Z.land (n_attrib node) EXFAT_ATTRIB_DIR =? 0)
    then Z.lor S_IFDIR (Z.ldiff 0x1ff (ef_dmask ef))
    else Z.lor S_IFREG (Z.ldiff 0x1ff (ef_fmask ef));
  st_nlink := 1;
  st_uid := ef_uid ef;
  st_gid := ef_gid ef;
  st_size := n_size node;
  st_blocks :=
    let cs := CLUSTER_SIZE (ef_sb ef) in u64 (u64 (n_size node + cs - 1) / cs * cs) / 512;
  st_mtime := n_mtime node;
  st_atime := n_atime node;
  st_ctime := n_mtime node
|}.

(** The bytes of the name, without the null byte. *)
Definition exfat_get_name {S} (node : exfat_node) : M S (list Z) :=
  let (rc, buffer) := exfat_utf16_to_utf8 (n_name node) EXFAT_UTF8_NAME_BUFFER_MAX EXFAT_NAME_MAX in
  if negb (rc =? 0) then exfat_bug else ret (List.removelast buffer).

(** The loop of [exfat_humanize_bytes]: the value and the index of its unit in
    "bytes", "KB", ..., "EB".  [divisor] is a 64-bit integer. *)
Fixpoint humanize_loop (fuel : nat) (value i divisor : Z) : option (Z * Z) :=
  match fuel with
  | O => None
  | S fuel =>
      let temp := u64 (value + divisor / 2) / divisor in
      if temp =? 0 then Some (temp, i)
      else if temp / 1024 * 1024 =? temp then humanize_loop fuel value (i + 1) (u64 (divisor * 1024))
      else if temp <? 10240 then Some (temp, i)
      else humanize_loop fuel value (i + 1) (u64 (divisor * 1024))
  end.

(** There are 7 units. *)
Definition exfat_humanize_bytes (value : Z) : option (Z * Z) := humanize_loop 7 value 0 1.

(** The version and the five sizes that [exfat_print_info] prints. *)
Definition exfat_print_info (sb : super_block) (free_clusters : Z) : (Z * Z) * list (option (Z * Z)) :=
  let total_space := i64 (u64 (sb_sector_count sb * SECTOR_SIZE sb)) in
  let avail_space := i64 (free_clusters * CLUSTER_SIZE sb) in
  ((sb_version_major sb, sb_version_minor sb),
   [exfat_humanize_bytes (SECTOR_SIZE sb); exfat_humanize_bytes (CLUSTER_SIZE sb);
    exfat_humanize_bytes (u64 total_space); exfat_humanize_bytes (u64 (total_space - avail_space));
    exfat_humanize_bytes (u64 avail_space)]).

(** [is_prefix p s]: the string [s] starts with [p]. *)
Fixpoint is_prefix (p s : list Z) : bool :=
  match p, s with
  | [], _ => true
  | _, [] => false
  | x :: p, y :: s => (x =? y) && is_prefix p s
  end.

(** [strstr]: how many bytes of the haystack come before the needle. *)
Fixpoint strstr (haystack needle : list Z) : option nat :=
  if is_prefix needle haystack then Some O
  else match haystack with
       | [] => None
       | _ :: haystack => option_map S (strstr haystack needle)
       end.

(** The character code of a comma. *)
Definition comma : Z := 44.

(** The loop of [exfat_match_option]; the search goes on at the offset [from]. *)
Fixpoint match_option_loop (fuel : nat) (options option_name : list Z) (from : nat) : bool :=
  match fuel with
  | O => false
  | S fuel =>
      match strstr (drop from options) option_name with
      | None => false
      | Some k =>
          let p := (from + k)%nat in
          let next := drop (p + length option_name) options in
          if ((p =? 0)%nat || (nth (p - 1) options 0 =? comma)) &&
             (match next with [] => true | c :: _ => c =? comma end)
          then true
          else match_option_loop fuel options option_name (S p)
      end
  end.

Definition exfat_match_option (options option_name : list Z) : bool :=
  match_option_loop (S (length options)) options option_name 0.

(** ** Sizes for people *)

(** [r] is [value] rounded to the nearest multiple of its unit, with at most
    four digits and as 0 only for 0. *)
Definition humanized (value : Z) (r : option (Z * Z)) : Prop :=
  exists t i, r = Some (t, i) /\ 0 <= i <= 6 /\ t = (value + 1024 ^ i / 2) / 1024 ^ i /\
    0 <= t < 10240 /\ (0 < value -> 0 < t).

Lemma humanize_loop_turn fuel value i d : 0 <= value + d / 2 < 2 ^ 64 ->
  humanize_loop (S fuel) value i d =
    let t := (value + d / 2) / d in
    if (t =? 0) || (negb (t / 1024 * 1024 =? t) && (t <? 10240)) then Some (t, i)
    else humanize_loop fuel value (i + 1) (u64 (d * 1024)).
Proof.
  intros Ho. cbn [humanize_loop]. rewrite (u64_small (value + d / 2)) by done. cbv zeta.
  destruct (_ =? 0); [done |]. by destruct (_ =? _), (_ <? _).
Qed.

(** The rounded quotient. *)
Lemma rounded_range value d : 0 <= value -> 0 < d ->
  let t := (value + d / 2) / d in
  0 <= t /\ t * d <= value + d / 2 < t * d + d /\ (d <= 2 * value -> 0 < t).
Proof.
  intros Hv Hd t. pose proof (Z.div_mod (value + d / 2) d ltac:(lia)) as H.
  pose proof (Z.mod_pos_bound (value + d / 2) d Hd) as H0. fold t in H, H0.
  pose proof (Z.div_mod d 2 ltac:(lia)). pose proof (Z.mod_pos_bound d 2 ltac:(lia)).
  split_and!; [apply Z.div_pos; lia | nia | nia |].
  intros Hle. apply Z.div_str_pos. lia.
Qed.

Lemma humanize_loop_spec value n : 0 <= value < 2 ^ 64 - 2 ^ 59 ->
  (n <= 6)%nat -> (0 < value -> 1024 ^ (6 - Z.of_nat n) <= 2 * value) ->
  humanized value (humanize_loop (S n) value (6 - Z.of_nat n) (1024 ^ (6 - Z.of_nat n))).
Proof.
  intros Hv. induction n as [| n IH]; intros Hn Hpos.
  all: match goal with |- context [humanize_loop _ _ ?i ?d] =>
         pose proof (Z.pow_le_mono_r 1024 i 6 ltac:(lia) ltac:(lia)) as Hd6;
         pose proof (Z.pow_pos_nonneg 1024 i ltac:(lia) ltac:(lia)) as Hd;
         destruct (rounded_range value d ltac:(lia) Hd) as (Ht0 & Ht & Hpos');
         rewrite humanize_loop_turn by
           (change (1024 ^ 6) with (2 ^ 60) in Hd6; revert Hd Hd6; generalize d; intros; int_lia);
         cbv zeta; set (t := (value + d / 2) / d) in *
       end.
  - change (1024 ^ (6 - Z.of_nat 0)) with (2 ^ 60) in *. change (2 ^ 60 / 2) with (2 ^ 59) in *.
    replace ((t =? 0) || _) with true; [by exists t, 6; split_and!; auto; lia |].
    symmetry. destruct (Z.eqb_spec t 0); [done |]. destruct (Z.eqb_spec (t / 1024 * 1024) t); [int_lia |]. by zdec.
  - destruct (_ || _) eqn:E.
    + exists t, (6 - Z.of_nat (S n)). split_and!; try done; lia.
    + assert (Hbig : 1024 <= t).
      { destruct (Z.eqb_spec (t / 1024 * 1024) t); [int_lia | lia]. }
      replace (6 - Z.of_nat (S n) + 1) with (6 - Z.of_nat n) by lia.
      assert (Hs : 1024 ^ (6 - Z.of_nat n) = 1024 ^ (6 - Z.of_nat (S n)) * 1024).
      { replace (6 - Z.of_nat n) with (Z.succ (6 - Z.of_nat (S n))) by lia.
        rewrite Z.pow_succ_r by lia. lia. }
      pose proof (Z.pow_le_mono_r 1024 (6 - Z.of_nat n) 6 ltac:(lia) ltac:(lia)).
      rewrite u64_small by (unfold in_u; lia). rewrite <- Hs. apply IH; [lia |].
      intros _. rewrite Hs. pose proof (Z.div_mod (1024 ^ (6 - Z.of_nat (S n))) 2 ltac:(lia)).
      pose proof (Z.mod_pos_bound (1024 ^ (6 - Z.of_nat (S n))) 2 ltac:(lia)). nia.
Qed.

(** A size is shown as the nearest multiple of the unit that leaves at most
    four digits or less than 10240, and never as 0 when it is not 0, for every
    value below 15.5 EB. *)
Theorem humanize_bytes_rounds value (Hv : 0 <= value < 2 ^ 64 - 2 ^ 59) :
  humanized value (exfat_humanize_bytes value).
Proof. apply (humanize_loop_spec value 6 Hv); [lia | intros; simpl; lia]. Qed.

Lemma humanize_bytes_rounds_witness : humanized 1500000 (exfat_humanize_bytes 1500000).
Proof. apply (humanize_bytes_rounds 1500000). lia. Defined.

(** The sum with half of the divisor overflows, or the quotient is large. *)
Lemma humanize_turn_large fuel value i d :
  2 ^ 64 - 2 ^ 59 <= value < 2 ^ 64 -> 0 < d <= 2 ^ 60 -> (d < 2 ^ 60 -> d <= 2 ^ 50) ->
  humanize_loop (S fuel) value i d = Some (0, i) \/
  (d < 2 ^ 60 /\ humanize_loop (S fuel) value i d = humanize_loop fuel value (i + 1) (u64 (d * 1024))).
Proof.
  intros Hv Hd Hgap. pose proof (Z.div_mod d 2 ltac:(lia)) as Hdm.
  pose proof (Z.mod_pos_bound d 2 ltac:(lia)) as Hm.
  destruct (Z.le_gt_cases (2 ^ 64) (value + d / 2)) as [Ho | Hfit].
  - left. cbn [humanize_loop]. replace (u64 (value + d / 2)) with (value + d / 2 - 2 ^ 64).
    + by rewrite Z.div_small by lia.
    + unfold u64. rewrite <- (Z_mod_plus_full _ (-1)), Z.mod_small; lia.
  - right. assert (Hs : d < 2 ^ 60).
    { apply Z.nle_gt. intros Hge. assert (d = 2 ^ 60) as -> by lia. revert Hfit.
      change (2 ^ 60 / 2) with (2 ^ 59). lia. }
    split; [done |]. rewrite humanize_loop_turn by lia. cbv zeta.
    assert (Hbig : 10240 <= (value + d / 2) / d) by (apply Z.div_le_lower_bound; lia).
    zdec. by rewrite andb_false_r.
Qed.

Lemma humanize_loop_large value n : 2 ^ 64 - 2 ^ 59 <= value < 2 ^ 64 -> (n <= 6)%nat ->
  exists i, humanize_loop (S n) value (6 - Z.of_nat n) (1024 ^ (6 - Z.of_nat n)) = Some (0, i).
Proof.
  intros Hv. induction n as [| n IH]; intros Hn.
  - destruct (humanize_turn_large 0 value 6 (2 ^ 60)) as [E | [? _]]; [done | lia | lia | | lia]. eauto.
  - pose proof (Z.pow_le_mono_r 1024 (6 - Z.of_nat (S n)) 5 ltac:(lia) ltac:(lia)).
    pose proof (Z.pow_pos_nonneg 1024 (6 - Z.of_nat (S n)) ltac:(lia) ltac:(lia)).
    destruct (humanize_turn_large (S n) value (6 - Z.of_nat (S n)) (1024 ^ (6 - Z.of_nat (S n))))
      as [E | [_ E]]; [done | lia | lia | eauto |].
    rewrite E, u64_small by (unfold in_u; lia). destruct (IH ltac:(lia)) as [i Hi]. exists i.
    rewrite <- Hi. f_equal; [lia |]. replace (6 - Z.of_nat n) with (Z.succ (6 - Z.of_nat (S n))) by lia.
    rewrite Z.pow_succ_r; lia.
Qed.

(** The values from 15.5 EB on do not fit the rounding: all of them are shown
    as 0, although a comment in the function has 16 EB minus 1 byte as the limit. *)
Theorem humanize_bytes_overflow value (Hv : 2 ^ 64 - 2 ^ 59 <= value < 2 ^ 64) :
  exists i, exfat_humanize_bytes value = Some (0, i).
Proof. by apply (humanize_loop_large value 6). Qed.

Lemma humanize_bytes_overflow_witness :
  exists i, exfat_humanize_bytes (2 ^ 64 - 1) = Some (0, i).
Proof. apply (humanize_bytes_overflow (2 ^ 64 - 1)). lia. Defined.

(** ** Mount options *)

(** [option_name] is one of the comma-separated fields of [options], or a run of
    them. *)
Definition has_option (options option_name : list Z) : Prop :=
  exists pre post, options = pre ++ option_name ++ post /\
    (pre = [] \/ exists pre', pre = pre' ++ [comma]) /\
    (post = [] \/ exists post', post = comma :: post').

Lemma is_prefix_spec p s : is_prefix p s = true <-> exists post, s = p ++ post.
Proof.
  revert s. induction p as [| x p IH]; intros s; [by split; [exists s |] |].
  destruct s as [| y s]; cbn [is_prefix]; [by split; [| intros [? ?]] |].
  rewrite andb_true_iff, Z.eqb_eq, IH. split.
  - intros (-> & post & ->). by exists post.
  - intros [post [= -> ->]]. eauto.
Qed.

(** [strstr] finds the first occurrence. *)
Lemma strstr_spec needle s :
  match strstr s needle with
  | Some k => is_prefix needle (drop k s) = true /\ (k <= length s)%nat /\
              forall j, (j < k)%nat -> is_prefix needle (drop j s) = false
  | None => forall j, is_prefix needle (drop j s) = false
  end.
Proof.
  induction s as [| c s IH]; cbn [strstr]; destruct (is_prefix needle _) eqn:E.
  - by split_and!; [| | lia].
  - intros [| j]; apply E.
  - by split_and!; [| lia | lia].
  - destruct (strstr s needle) as [k |]; cbn [option_map].
    + destruct IH as (I1 & I2 & I3). split_and!; [done | cbn; lia |].
      intros [| j] Hj; [done | apply I3; lia].
    + intros [| j]; [done | apply IH].
Qed.

(** The test of the loop at the offset [p]. *)
Definition option_at (options option_name : list Z) (p : nat) : bool :=
  is_prefix option_name (drop p options) &&
  ((p =? 0)%nat || (nth (p - 1) options 0 =? comma)) &&
  (match drop (p + length option_name) options with [] => true | c :: _ => c =? comma end).

Lemma match_option_loop_spec options option_name fuel : option_name <> [] -> forall from,
  (length options < fuel + from)%nat ->
  match_option_loop fuel options option_name from = true <->
  exists p, (from <= p)%nat /\ option_at options option_name p = true.
Proof.
  intros Hne. assert (Hend : forall p, (length options <= p)%nat -> option_at options option_name p = false).
  { intros p Hp. unfold option_at. rewrite drop_ge by done. by destruct option_name. }
  induction fuel as [| fuel IH]; intros from Hf; cbn [match_option_loop].
  { split; [done |]. intros (p & Hp & E). rewrite Hend in E by lia. done. }
  pose proof (strstr_spec option_name (drop from options)) as Hs.
  destruct (strstr _ _) as [k |].
  - destruct Hs as (H1 & H2 & H3). rewrite drop_drop in H1.
    set (b := _ && _). assert (Hb : option_at options option_name (from + k) = b).
    { unfold option_at. by rewrite H1. }
    destruct b eqn:Eb; fold b in Hb |- *; rewrite ?Eb in *.
    + split; [| done]. intros _. exists (from + k)%nat. split; [lia | done].
    + rewrite IH by lia. split; intros (p & Hp & E); exists p; (split; [| done]); [lia |].
      destruct (decide (p < from + k)%nat).
      * exfalso. specialize (H3 (p - from)%nat ltac:(lia)). rewrite drop_drop in H3.
        replace (from + (p - from))%nat with p in H3 by lia. unfold option_at in E. by rewrite H3 in E.
      * destruct (decide (p = from + k)%nat) as [-> |]; [congruence | lia].
  - split; [done |]. intros (p & Hp & E). exfalso. specialize (Hs (p - from)%nat).
    rewrite drop_drop in Hs. replace (from + (p - from))%nat with p in Hs by lia.
    unfold option_at in E. by rewrite Hs in E.
Qed.

(** [exfat_match_option] finds an option exactly when it is there as a whole
    field: the characters before and after it are a comma or an end of the
    string. *)
Theorem match_option_iff options option_name (Hne : option_name <> []) :
  exfat_match_option options option_name = true <-> has_option options option_name.
Proof.
  unfold exfat_match_option. rewrite match_option_loop_spec by (done || lia).
  unfold option_at, has_option. split.
  - intros (p & _ & E). apply andb_true_iff in E as [E E3]. apply andb_true_iff in E as [E1 E2].
    apply is_prefix_spec in E1 as [post Hp]. exists (take p options), post.
    rewrite <- Hp, take_drop. split_and!; [done | |].
    + apply orb_true_iff in E2 as [E2 | E2]; [left; apply Nat.eqb_eq in E2; by subst p |].
      apply Z.eqb_eq in E2. destruct p as [| p]; [by left | right]. exists (take p options).
      replace (S p - 1)%nat with p in E2 by lia. apply take_S_r.
      destruct (options !! p) as [c |] eqn:Hc; [by rewrite <- E2, (nth_lookup_Some _ _ _ _ Hc) |].
      exfalso. rewrite drop_ge in Hp by (apply lookup_ge_None in Hc; lia). by destruct option_name.
    + rewrite <- drop_drop, Hp, drop_app_length in E3. destruct post as [| c post]; [by left | right].
      apply Z.eqb_eq in E3. subst c. eauto.
  - intros (pre & post & -> & Hpre & Hpost). exists (length pre). split; [lia |].
    rewrite <- drop_drop, !drop_app_length. apply andb_true_iff. split; [apply andb_true_iff; split |].
    + apply is_prefix_spec. eauto.
    + destruct Hpre as [-> | [pre' ->]]; [done |]. apply orb_true_iff. right. apply Z.eqb_eq.
      rewrite length_app. cbn [length]. replace (length pre' + 1 - 1)%nat with (length pre') by lia.
      rewrite <- app_assoc, app_nth2, Nat.sub_diag by lia. done.
    + by destruct Hpost as [-> | [post' ->]].
Qed.

Lemma match_option_iff_witness :
  exfat_match_option [114; 111; 44; 110; 111] [110; 111] = true <->
  has_option [114; 111; 44; 110; 111] [110; 111].
Proof. apply (match_option_iff [114; 111; 44; 110; 111] [110; 111]). discriminate. Defined.
