(* ===== verification/ExfatTime.v ===== *)
(** * ExfatTime: time stamps (libexfat/time.c)

    A time stamp on disk is a date and a time of 16 bits each, a count of
    10-millisecond units and an offset from UTC.  The offset of the local time
    zone, which [exfat_tzset] takes from the C library, is an argument.  A time is a
    value of [time_t], whose width depends on the platform: every assignment to a
    variable of that type is a conversion to it. *)

From Stdlib Require Import ZArith Lia.
From stdpp Require Import base numbers list gmap.
From S2P Require Import Prelude Bytes Monad Ondisk State.

#[local] Open Scope Z_scope.

(** ** Definitions *)

Definition SEC_IN_MIN : Z := 60.
Definition SEC_IN_HOUR : Z := 60 * SEC_IN_MIN.
Definition SEC_IN_DAY : Z := 24 * SEC_IN_HOUR.
Definition SEC_IN_YEAR : Z := 365 * SEC_IN_DAY.
Definition UNIX_EPOCH_YEAR : Z := 1970.
Definition EXFAT_EPOCH_YEAR : Z := 1980.
Definition EPOCH_DIFF_YEAR : Z := EXFAT_EPOCH_YEAR - UNIX_EPOCH_YEAR.
Definition EPOCH_DIFF_DAYS : Z := EPOCH_DIFF_YEAR * 365 + EPOCH_DIFF_YEAR / 4.
Definition EPOCH_DIFF_SEC : Z := EPOCH_DIFF_DAYS * SEC_IN_DAY.
Definition LEAP_YEARS (year : Z) : Z := (EXFAT_EPOCH_YEAR + year - 1) / 4 - (EXFAT_EPOCH_YEAR - 1) / 4.
Definition IS_LEAP_YEAR (year : Z) : bool := (EXFAT_EPOCH_YEAR + year) mod 4 =? 0.

Definition days_in_year : list Z := [0; 0; 31; 59; 90; 120; 151; 181; 212; 243; 273; 304; 334].

(** The fields of a date and of a time. *)
Definition date_day (ndate : Z) : Z := Z.land ndate 0x1f.
Definition date_month (ndate : Z) : Z := Z.land (Z.shiftr ndate 5) 0xf.
Definition date_year (ndate : Z) : Z := Z.shiftr ndate 9.
Definition time_twosec (ntime : Z) : Z := Z.land ntime 0x1f.
Definition time_min (ntime : Z) : Z := Z.land (Z.shiftr ntime 5) 0x3f.
Definition time_hour (ntime : Z) : Z := Z.shiftr ntime 11.

(** The seconds of a valid date and time; the offset is applied last. *)
Definition exfat_seconds `{Platform} (timezone day month year twosec min hour centisec tzoffset : Z) : Z :=
  let unix_time := time_t EPOCH_DIFF_SEC in
  let unix_time := time_t (unix_time + (year * SEC_IN_YEAR + LEAP_YEARS year * SEC_IN_DAY)) in
  let unix_time := time_t (unix_time + znth days_in_year month * SEC_IN_DAY) in
  let unix_time :=
    if ((EXFAT_EPOCH_YEAR + year) mod 4 =? 0) && (2 <? month) then time_t (unix_time + SEC_IN_DAY)
    else unix_time in
  let unix_time := time_t (unix_time + (day - 1) * SEC_IN_DAY) in
  let unix_time := time_t (unix_time + hour * SEC_IN_HOUR) in
  let unix_time := time_t (unix_time + min * SEC_IN_MIN) in
  let unix_time := time_t (unix_time + twosec * 2) in
  let unix_time := time_t (unix_time + centisec / 100) in
  if negb (Z.land tzoffset 0x80 =? 0)
  then time_t (unix_time - Z.quot (i8 (Z.shiftl tzoffset 1) * 15 * 60) 2)
  else time_t (unix_time + timezone).

Definition exfat_exfat2unix `{Platform} (timezone date time centisec tzoffset : Z) : M env Z :=
  let day := date_day date in
  let month := date_month date in
  let year := date_year date in
  let twosec := time_twosec time in
  let min := time_min time in
  let hour := time_hour time in
  if (day =? 0) || (month =? 0) || (12 <? month) then exfat_error;; ret 0
  else if (23 <? hour) || (59 <? min) || (29 <? twosec) then exfat_error;; ret 0
  else if 199 <? centisec then exfat_error;; ret 0
  else ret (exfat_seconds timezone day month year twosec min hour centisec tzoffset).

(** The loop over the months: the month and the day of it, for the day of the
    year [days]; month 0 when the loop ends without a break. *)
Fixpoint month_loop (fuel : nat) (leap : bool) (days i : Z) : Z * Z :=
  match fuel with
  | O => (0, days)
  | S fuel =>
      if 12 <? i then (0, days)
      else
        let leap_day := if leap && (i =? 2) then 1 else 0 in
        let leap_sub := if leap && (3 <=? i) then 1 else 0 in
        if (i =? 12) || (days - leap_sub <? znth days_in_year (i + 1) + leap_day)
        then (i, days - (znth days_in_year i + leap_sub))
        else month_loop fuel leap days (i + 1)
  end.

(** The day, the month and the year of a day from the epoch. *)
Definition calendar (days : Z) : Z * Z * Z :=
  let year := u16 (Z.quot (4 * days) (4 * 365 + 1)) in
  let days := days - (year * 365 + LEAP_YEARS year) in
  let (month, days) := month_loop 12 (IS_LEAP_YEAR year) days 1 in
  (u16 (days + 1), month, year).

(** The date, the time, the centiseconds and the time zone. *)
Definition exfat_unix2exfat `{Platform} (timezone unix_time : Z) : Z * Z * Z * Z :=
  let shift := time_t (EPOCH_DIFF_SEC + timezone) in
  let unix_time := if unix_time <? shift then shift else unix_time in
  let unix_time := time_t (unix_time - shift) in
  let days := i32 (unix_time / SEC_IN_DAY) in
  let '(day, month, year) := calendar days in
  let hour := unix_time mod SEC_IN_DAY / SEC_IN_HOUR in
  let min := unix_time mod SEC_IN_HOUR / SEC_IN_MIN in
  let twosec := unix_time mod SEC_IN_MIN / 2 in
  (u16 (Z.lor (Z.lor day (Z.shiftl month 5)) (Z.shiftl year 9)),
   u16 (Z.lor (Z.lor twosec (Z.shiftl min 5)) (Z.shiftl hour 11)),
   unix_time mod 2 * 100,
   Z.lor (u8 (Z.quot (Z.quot (- timezone) 60) 15)) 0x80).

(** [local_of_utc t] is mktime() of the fields that gmtime() gives for [t], with the
    summer time left open.  On AmigaOS the function is empty. *)
Definition exfat_tzset (local_of_utc : Z -> Z) : M env unit :=
  let! now := time_now in
  modify (set_os_timezone (local_of_utc now - now)).

(** ** The calendar *)

(** Days from the epoch to a date, counting every fourth year as a leap year. *)
Definition days_of (day month year : Z) : Z :=
  year * 365 + LEAP_YEARS year + znth days_in_year month +
  (if IS_LEAP_YEAR year && (2 <? month) then 1 else 0) + (day - 1).

(** The day after a date in the Gregorian calendar; the year is from 1980. *)
Definition gregorian_leap (y : Z) : bool :=
  (y mod 4 =? 0) && (negb (y mod 100 =? 0) || (y mod 400 =? 0)).

Definition month_length (month year : Z) : Z :=
  if month =? 2 then (if gregorian_leap (EXFAT_EPOCH_YEAR + year) then 29 else 28)
  else if (month =? 4) || (month =? 6) || (month =? 9) || (month =? 11) then 30 else 31.

Definition next_date (date : Z * Z * Z) : Z * Z * Z :=
  let '(day, month, year) := date in
  if day <? month_length month year then (day + 1, month, year)
  else if month <? 12 then (1, month + 1, year)
  else (1, 1, year + 1).

Lemma leap_period y q : LEAP_YEARS (y + 4 * q) = LEAP_YEARS y + q /\ IS_LEAP_YEAR (y + 4 * q) = IS_LEAP_YEAR y.
Proof.
  unfold LEAP_YEARS, IS_LEAP_YEAR, EXFAT_EPOCH_YEAR. split; [int_lia |].
  f_equal. replace (1980 + (y + 4 * q)) with (1980 + y + q * 4) by lia. apply Z_mod_plus_full.
Qed.

(** Four years are 1461 days. *)
Lemma calendar_period q r : 0 <= q < 4096 -> 0 <= r < 2922 ->
  calendar (1461 * q + r) = let '(day, month, year) := calendar r in (day, month, year + 4 * q).
Proof.
  intros Hq Hr. unfold calendar.
  change (4 * 365 + 1) with 1461. rewrite !Z.quot_div_nonneg by lia.
  replace (4 * (1461 * q + r)) with (4 * r + 4 * q * 1461) by lia. rewrite Z_div_plus_full by lia.
  assert (0 <= 4 * r / 1461 < 8) by int_lia. rewrite !u16_small by int_lia.
  set (y := 4 * r / 1461) in *. destruct (leap_period y q) as [-> ->].
  replace (1461 * q + r - ((y + 4 * q) * 365 + (LEAP_YEARS y + q))) with (r - (y * 365 + LEAP_YEARS y)) by lia.
  by destruct (month_loop _ _ _ _).
Qed.

Definition date_ok (r : Z) : bool :=
  let '(day, month, year) := calendar r in
  (days_of day month year =? r) && (1 <=? day) && (day <? 32) && (1 <=? month) && (month <? 13) &&
  (0 <=? year) && (year <? 4).

Lemma date_ok_period : forall r, 0 <= r < 0 + 1461 -> date_ok r = true.
Proof. apply zseq_forallb. vm_compute. done. Qed.

(** The date of a day stands for that day. *)
Lemma calendar_spec n : 0 <= n < 46752 -> exists day month year, calendar n = (day, month, year) /\
  days_of day month year = n /\ 1 <= day < 32 /\ 1 <= month < 13 /\ 0 <= year < 128.
Proof.
  intros Hn. pose proof (Z.div_mod n 1461 ltac:(lia)) as E. pose proof (Z.mod_pos_bound n 1461 ltac:(lia)).
  set (q := n / 1461) in *. set (r := n mod 1461) in *. assert (0 <= q < 32) by lia.
  pose proof (date_ok_period r ltac:(lia)) as Hok. unfold date_ok in Hok.
  rewrite E, calendar_period by lia. destruct (calendar r) as [[day month] year].
  exists day, month, (year + 4 * q). split; [done |]. unfold days_of in *.
  destruct (leap_period year q) as [-> ->]. destruct (IS_LEAP_YEAR year && (2 <? month)); lia.
Qed.

(** ** The Gregorian calendar *)

Definition next_ok (start r : Z) : bool :=
  bool_decide (calendar (start + r + 1) = next_date (calendar (start + r))).

Lemma next_ok_period : forall r, 0 <= r < 0 + 1461 -> next_ok 0 r = true.
Proof. apply zseq_forallb. vm_compute. done. Qed.

Lemma next_ok_2100 : forall r, 0 <= r < 0 + 58 -> next_ok 43830 r = true.
Proof. apply zseq_forallb. vm_compute. done. Qed.

Lemma leap_until_2100 : forall y, 0 <= y < 0 + 120 ->
  Bool.eqb (gregorian_leap (EXFAT_EPOCH_YEAR + y)) (IS_LEAP_YEAR y) = true.
Proof. apply zseq_forallb. vm_compute. done. Qed.

Lemma next_date_period day month year q : 0 <= year -> 0 <= q -> year + 4 * q < 120 ->
  next_date (day, month, year + 4 * q) =
  let '(day, month, year) := next_date (day, month, year) in (day, month, year + 4 * q).
Proof.
  intros Hy Hq Hlt. unfold next_date, month_length.
  rewrite (eqb_prop _ _ (leap_until_2100 (year + 4 * q) ltac:(lia))).
  rewrite (eqb_prop _ _ (leap_until_2100 year ltac:(lia))). destruct (leap_period year q) as [_ ->].
  destruct (day <? _), (month <? 12); f_equal; lia.
Qed.

(** C20: The days of [exfat_unix2exfat] are those of the Gregorian calendar until
    28 February 2100: day 0 is 1 January 1980, and each day is followed by the
    next date. *)
Theorem calendar_gregorian n (Hn : 0 <= n < 43888) :
  calendar 0 = (1, 1, 0) /\ calendar (n + 1) = next_date (calendar n).
Proof.
  split; [reflexivity |].
  pose proof (Z.div_mod n 1461 ltac:(lia)) as E. pose proof (Z.mod_pos_bound n 1461 ltac:(lia)).
  set (q := n / 1461) in *. set (r := n mod 1461) in *. assert (0 <= q <= 30) by lia.
  destruct (Z.eq_dec q 30) as [Hq | Hq].
  - replace n with (43830 + r) by lia. apply (bool_decide_unpack _ (proj2 (Is_true_true _) (next_ok_2100 r ltac:(lia)))).
  - pose proof (date_ok_period r ltac:(lia)) as Hok. unfold date_ok in Hok.
    pose proof (bool_decide_unpack _ (proj2 (Is_true_true _) (next_ok_period r ltac:(lia)))) as Hnext.
    rewrite Z.add_0_l in Hnext. replace (n + 1) with (1461 * q + (r + 1)) by lia.
    rewrite E, !calendar_period, Hnext by lia. destruct (calendar r) as [[day month] year].
    rewrite next_date_period by lia. done.
Qed.

Lemma calendar_gregorian_witness :
  calendar 0 = (1, 1, 0) /\ calendar (7364 + 1) = next_date (calendar 7364).
Proof. apply (calendar_gregorian 7364). lia. Defined.

(** ** Round trip *)

(** Three bit fields in 16 bits. *)
Lemma pack_fields a b c i j : 0 <= i -> 0 <= j -> 0 <= a < 2 ^ i -> 0 <= b < 2 ^ j ->
  Z.lor (Z.lor a (Z.shiftl b i)) (Z.shiftl c (i + j)) = c * 2 ^ (i + j) + b * 2 ^ i + a.
Proof.
  intros Hi Hj Ha Hb. rewrite (Z.lor_comm a), lor_shift_add by lia.
  rewrite Z.lor_comm, lor_shift_add; [lia | lia |]. rewrite Z.pow_add_r by lia. nia.
Qed.

Lemma date_fields day month year : 0 <= day < 32 -> 0 <= month < 16 -> 0 <= year < 128 ->
  let date := u16 (Z.lor (Z.lor day (Z.shiftl month 5)) (Z.shiftl year 9)) in
  in_u 16 date /\ date_day date = day /\ date_month date = month /\ date_year date = year.
Proof.
  intros Hd Hm Hy. pose proof (pack_fields day month year 5 4 ltac:(lia) ltac:(lia) Hd Hm) as P.
  change (5 + 4) with 9 in P. cbv zeta. rewrite P.
  rewrite u16_small by (unfold in_u; lia). unfold date_day, date_month, date_year.
  change 0x1f with (2 ^ 5 - 1). change 0xf with (2 ^ 4 - 1). rewrite !land_low, !Z.shiftr_div_pow2 by lia.
  cbn [Z.add Pos.add Pos.succ]. int_lia.
Qed.

Lemma time_fields twosec min hour : 0 <= twosec < 32 -> 0 <= min < 64 -> 0 <= hour < 32 ->
  let time := u16 (Z.lor (Z.lor twosec (Z.shiftl min 5)) (Z.shiftl hour 11)) in
  in_u 16 time /\ time_twosec time = twosec /\ time_min time = min /\ time_hour time = hour.
Proof.
  intros Ht Hm Hh. pose proof (pack_fields twosec min hour 5 6 ltac:(lia) ltac:(lia) Ht Hm) as P.
  change (5 + 6) with 11 in P. cbv zeta. rewrite P.
  rewrite u16_small by (unfold in_u; lia). unfold time_twosec, time_min, time_hour.
  change 0x1f with (2 ^ 5 - 1). change 0x3f with (2 ^ 6 - 1). rewrite !land_low, !Z.shiftr_div_pow2 by lia.
  cbn [Z.add Pos.add Pos.succ]. int_lia.
Qed.

(** The offsets of the time zones that the format can hold. *)
Definition zone_ok (timezone : Z) : bool :=
  let tz := Z.lor (u8 (Z.quot (Z.quot (- timezone) 60) 15)) 0x80 in
  negb (Z.land tz 0x80 =? 0) && (Z.quot (i8 (Z.shiftl tz 1) * 15 * 60) 2 =? - timezone).

Lemma zone_roundtrip : forall k, -63 <= k < -63 + 128 -> zone_ok (k * 900) = true.
Proof. apply zseq_forallb. vm_compute. done. Qed.

(** Conversions that follow one another are one, from the first on. *)
Ltac join_times :=
  repeat match goal with
  | |- context [time_t (time_t ?x + ?y)] => lazymatch x with context [time_t _] => fail | _ => rewrite (time_t_add x y) end
  | |- context [time_t (time_t ?x - ?y)] => lazymatch x with context [time_t _] => fail | _ => rewrite (time_t_sub x y) end
  end.

Lemma exfat_seconds_days `{Platform} reader day month year twosec min hour centisec tz :
  negb (Z.land tz 0x80 =? 0) = true ->
  exfat_seconds reader day month year twosec min hour centisec tz =
    time_t (EPOCH_DIFF_SEC + days_of day month year * 86400 + hour * 3600 + min * 60 + twosec * 2 +
      centisec / 100 - Z.quot (i8 (Z.shiftl tz 1) * 15 * 60) 2).
Proof.
  intros Hz. unfold exfat_seconds, days_of, IS_LEAP_YEAR. rewrite Hz.
  change SEC_IN_YEAR with (365 * 86400). change SEC_IN_DAY with 86400.
  change SEC_IN_HOUR with 3600. change SEC_IN_MIN with 60.
  destruct (_ && (2 <? month)); join_times; f_equal; lia.
Qed.

Lemma zone_byte : forall k, -63 <= k < -63 + 128 ->
  in_u 8 (Z.lor (u8 (Z.quot (Z.quot (- (k * 900)) 60) 15)) 0x80).
Proof.
  intros k Hk. assert (H : bool_decide (in_u 8 (Z.lor (u8 (Z.quot (Z.quot (- (k * 900)) 60) 15)) 0x80)) = true).
  { revert k Hk. apply (zseq_forallb (fun k => bool_decide (in_u 8 (Z.lor (u8 (Z.quot (Z.quot (- (k * 900)) 60) 15)) 0x80)))).
    vm_compute. done. }
  by apply bool_decide_eq_true in H.
Qed.

(** The times of the years 1980 to 2107 in the time zone [k], in quarters of an
    hour, that [time_t] can hold. *)
Definition time_ok `{Platform} (k t : Z) : Prop :=
  EPOCH_DIFF_SEC + k * 900 <= t < EPOCH_DIFF_SEC + k * 900 + 46752 * SEC_IN_DAY /\ in_time_t t.

Definition even_second (k t : Z) : Z := t - (t - EPOCH_DIFF_SEC - k * 900) mod 2.

(** What the platform [W] writes, the platform [R] reads. *)
Lemma unix2exfat_read (W R : Platform) k t reader (e : env) : -63 <= k <= 64 -> time_ok (H := W) k t ->
  let '(date, time, centisec, tzoffset) := exfat_unix2exfat (H := W) (k * 900) t in
  in_u 16 date /\ in_u 16 time /\ 0 <= centisec <= 199 /\ in_u 8 tzoffset /\
  exfat_exfat2unix (H := R) reader date time centisec tzoffset e = Ok (time_t (H := R) t) e /\
  exfat_exfat2unix (H := R) reader date time 0 tzoffset e = Ok (time_t (H := R) (even_second k t)) e.
Proof.
  unfold time_ok, even_second. intros Hk [Ht Hw].
  assert (Hpow : 2 ^ 31 <= 2 ^ (time_t_bits (Platform := W) - 1)) by (destruct (time_t_width (Platform := W)) as [-> | ->]; lia).
  unfold exfat_unix2exfat. unfold in_time_t in Hw. set (shift := EPOCH_DIFF_SEC + k * 900) in *.
  assert (Hs : 0 <= shift < 2 ^ 29) by (unfold shift; change EPOCH_DIFF_SEC with 315532800; lia).
  rewrite (time_t_small shift) by (unfold in_time_t; lia).
  replace (t <? shift) with false by (symmetry; apply Z.ltb_ge; lia).
  rewrite (time_t_small (t - shift)) by (unfold in_time_t; lia).
  set (u := t - shift). change SEC_IN_DAY with 86400 in *. change SEC_IN_HOUR with 3600. change SEC_IN_MIN with 60.
  assert (Hd : 0 <= u / 86400 < 46752) by int_lia.
  assert (Hi : i32 (u / 86400) = u / 86400) by int_lia. rewrite Hi.
  destruct (calendar_spec (u / 86400) Hd) as (day & month & year & -> & Hdays & Hday & Hmonth & Hyear).
  assert (Hh : 0 <= u mod 86400 / 3600 < 24) by int_lia.
  assert (Hm : 0 <= u mod 3600 / 60 < 60) by int_lia.
  assert (Htwo : 0 <= u mod 60 / 2 < 30) by int_lia.
  destruct (date_fields day month year) as (Hdate & E1 & E2 & E3); [lia.. |].
  destruct (time_fields (u mod 60 / 2) (u mod 3600 / 60) (u mod 86400 / 3600)) as (Htime & E4 & E5 & E6); [lia.. |].
  pose proof (zone_roundtrip k ltac:(lia)) as Hz. apply andb_true_iff in Hz as [Hz1 Hz2]. apply Z.eqb_eq in Hz2.
  assert (Hz : in_u 8 (Z.lor (u8 (Z.quot (Z.quot (- (k * 900)) 60) 15)) 0x80)) by (apply zone_byte; lia).
  split_and!; [done | done | int_lia | int_lia | done | |];
    unfold exfat_exfat2unix; rewrite E1, E2, E3, E4, E5, E6;
    (replace ((day =? 0) || (month =? 0) || (12 <? month)) with false by lia);
    (replace ((23 <? u mod 86400 / 3600) || (59 <? u mod 3600 / 60) || (29 <? u mod 60 / 2)) with false by lia).
  - replace (199 <? u mod 2 * 100) with false by int_lia. unfold ret. f_equal.
    rewrite exfat_seconds_days, Hz2, Hdays by done. f_equal. int_lia.
  - change (199 <? 0) with false. unfold ret. f_equal.
    rewrite exfat_seconds_days, Hz2, Hdays by done. f_equal. int_lia.
Qed.

Lemma even_second_in_time_t `{Platform} k t : time_ok k t -> -63 <= k -> in_time_t (even_second k t).
Proof.
  unfold time_ok, even_second, in_time_t. intros [Ht Hw] Hk. change EPOCH_DIFF_SEC with 315532800 in *.
  pose proof (Z.mod_pos_bound (t - 315532800 - k * 900) 2). pose proof (Z.pow_nonneg 2 (time_t_bits - 1)). lia.
Qed.

(** On one platform. *)
Lemma unix2exfat_same `{Platform} k t reader (e : env) : -63 <= k <= 64 -> time_ok k t ->
  let '(date, time, centisec, tzoffset) := exfat_unix2exfat (k * 900) t in
  in_u 16 date /\ in_u 16 time /\ 0 <= centisec <= 199 /\ in_u 8 tzoffset /\
  exfat_exfat2unix reader date time centisec tzoffset e = Ok t e /\
  exfat_exfat2unix reader date time 0 tzoffset e = Ok (even_second k t) e.
Proof.
  intros Hk Ht. pose proof (unix2exfat_read _ _ k t reader e Hk Ht) as R. destruct (exfat_unix2exfat _ _) as [[[date time] cs] tz].
  rewrite !time_t_small in R; [done | by apply even_second_in_time_t; [| lia] | apply Ht].
Qed.

(** C19: A time stamp that was written is read back.  For a time zone that is a
    multiple of 15 minutes, less than 16 hours from UTC, and a time of the years
    1980 to 2107 that the [time_t] of the writer can hold: the date and the time are valid
    16-bit fields, and a reader of any platform gets the same time, to the second,
    converted to its own [time_t], whatever its time zone; without the centiseconds it
    gets the even second below.  So nothing is lost where [time_t] has 64 bits, or until
    19 January 2038; after that a reader with 32 bits, as the Amiga is, gets a time that
    is 2^32 seconds too early. *)
Theorem time_roundtrip (W R : Platform) k t reader (e : env) (Hk : -63 <= k <= 64)
  (Ht : EPOCH_DIFF_SEC + k * 900 <= t < EPOCH_DIFF_SEC + k * 900 + 46752 * SEC_IN_DAY) (Hw : in_time_t (H := W) t) :
  let '(date, time, centisec, tzoffset) := exfat_unix2exfat (H := W) (k * 900) t in
  in_u 16 date /\ in_u 16 time /\ 0 <= centisec <= 199 /\
  exfat_exfat2unix (H := R) reader date time centisec tzoffset e = Ok (time_t (H := R) t) e /\
  exfat_exfat2unix (H := R) reader date time 0 tzoffset e =
    Ok (time_t (H := R) (t - (t - EPOCH_DIFF_SEC - k * 900) mod 2)) e /\
  (in_time_t (H := R) t -> time_t (H := R) t = t) /\
  (time_t_bits (Platform := R) = 32 -> 2 ^ 31 <= t -> time_t (H := R) t = t - 2 ^ 32).
Proof.
  pose proof (unix2exfat_read W R k t reader e Hk (conj Ht Hw)) as Hr.
  destruct (exfat_unix2exfat _ _) as [[[date time] cs] tz]. destruct Hr as (R1 & R2 & R3 & _ & R4 & R5).
  do 5 (split; [done |]). split; [apply time_t_small |]. intros E H32. change EPOCH_DIFF_SEC with 315532800 in Ht.
  change SEC_IN_DAY with 86400 in Ht. unfold time_t. rewrite E. unfold to_signed. int_lia.
Qed.

(** An environment in which nothing is read. *)
Definition demo_time_env : env := mk_env (fun _ => 0) 0 EXFAT_MODE_RO (fun _ _ => false)
  (fun _ _ => false) false (fun _ => 0) O (fun _ => false) O [] 0 0 0.

(** A host writes a time of the year 2040, the Amiga reads it. *)
Lemma time_roundtrip_witness :
  let '(date, time, centisec, tzoffset) := exfat_unix2exfat (H := word_le64) (-4 * 900) 2209032001 in
  in_u 16 date /\ in_u 16 time /\ 0 <= centisec <= 199 /\
  exfat_exfat2unix (H := word_be) 0 date time centisec tzoffset demo_time_env = Ok (time_t (H := word_be) 2209032001) demo_time_env /\
  exfat_exfat2unix (H := word_be) 0 date time 0 tzoffset demo_time_env =
    Ok (time_t (H := word_be) (2209032001 - (2209032001 - EPOCH_DIFF_SEC - -4 * 900) mod 2)) demo_time_env /\
  (in_time_t (H := word_be) 2209032001 -> time_t (H := word_be) 2209032001 = 2209032001) /\
  (time_t_bits (Platform := word_be) = 32 -> 2 ^ 31 <= 2209032001 -> time_t (H := word_be) 2209032001 = 2209032001 - 2 ^ 32).
Proof.
  apply (time_roundtrip word_le64 word_be (-4) 2209032001 0 demo_time_env);
    [lia | vm_compute; split; discriminate || done | vm_compute; split; discriminate || done].
Defined.

(** The year 2100 is taken for a leap year: every time of 1 March 2100, the
    day after 28 February, is written as 29 February, which that year does not
    have.  (A comment of [exfat_exfat2unix] says that the rule holds until 2096;
    dates until 2107 can be written.) *)
Theorem february_2100 `{Platform} t (H64 : time_t_bits = 64) (Ht : 4107542400 <= t < 4107542400 + SEC_IN_DAY) :
  next_date (calendar 43888) = (1, 3, 120) /\ month_length 2 120 = 28 /\
  let '(date, _, _, _) := exfat_unix2exfat 0 t in
  (date_day date, date_month date, date_year date) = (29, 2, 120).
Proof.
  split; [reflexivity | split; [reflexivity |]]. change SEC_IN_DAY with 86400 in Ht.
  unfold exfat_unix2exfat. change (EPOCH_DIFF_SEC + 0) with 315532800.
  rewrite (time_t_small 315532800) by (unfold in_time_t; rewrite H64; lia).
  replace (t <? 315532800) with false by lia. rewrite time_t_small by (unfold in_time_t; rewrite H64; lia). change SEC_IN_DAY with 86400.
  replace ((t - 315532800) / 86400) with 43889 by int_lia. reflexivity.
Qed.

Lemma february_2100_witness :
  next_date (calendar 43888) = (1, 3, 120) /\ month_length 2 120 = 28 /\
  let '(date, _, _, _) := exfat_unix2exfat (H := word_le64) 0 4107542400 in
  (date_day date, date_month date, date_year date) = (29, 2, 120).
Proof. apply (february_2100 (H := word_le64) 4107542400); [done |]. vm_compute. split; discriminate || done. Defined.
