(* ===== verification/Entries.v ===== *)
(** * Entries: the entries of a directory (libexfat/node.c, libexfat/repair.c)

    Reading and writing runs of 32-byte entries, building a node from the
    entries of a file, the repair questions, and [readdir], which reads the next
    entry that makes a node and takes in the bitmap, the up-case table and the
    label on its way.  All of them work on one directory: the state is [nstate]
    with that directory as its node.  A node that [readdir] builds is a value;
    it gets its address when it is linked into the tree (NodeTree.v). *)

From Stdlib Require Import ZArith Lia.
From stdpp Require Import base numbers list gmap.
From S2P Require Import Prelude Bytes Monad Ondisk State Checksum Utf Bitmap Geometry Cluster FileIO Utils ExfatTime.

#[local] Open Scope Z_scope.

Section Entries.
Context `{Platform}.

(** ** Definitions *)

Definition EXFAT_ENTRY_NONE : Z := -1.

(** *** Runs of entries *)

(** The entries that a buffer holds. *)
Fixpoint entries_of (n : nat) (buffer : list Z) : list exfat_entry :=
  match n with
  | O => []
  | S n => sub buffer 0 ENTRY_SIZE :: entries_of n (drop (Z.to_nat ENTRY_SIZE) buffer)
  end.

Definition read_entries (n offset : Z) : M nstate (Z * list exfat_entry) :=
  let! s := get_state in
  if negb (is_dir (s_node s)) then exfat_bug
  else
    let! (size, buffer) :=
      exfat_generic_pread (zrepeat 0 (ENTRY_SIZE * n)) (ENTRY_SIZE * n) offset in
    if size =? ENTRY_SIZE * n then ret (0, entries_of (Z.to_nat n) buffer)
    else if size =? 0 then ret (- ENOENT, [])
    else if size <? 0 then ret (- EIO, [])
    else on_os exfat_error;; ret (- EIO, []).

Definition write_entries (entries : list exfat_entry) (offset : Z) : M nstate Z :=
  let n := zlen entries in
  let! s := get_state in
  if negb (is_dir (s_node s)) then exfat_bug
  else
    let! size := exfat_generic_pwrite (concat entries) (ENTRY_SIZE * n) offset in
    if size =? ENTRY_SIZE * n then ret 0
    else if size <? 0 then ret (- EIO)
    else on_os exfat_error;; ret (- EIO).

Definition erase_entries (n offset : Z) : M nstate Z :=
  let! (rc, entries) := read_entries n offset in
  if negb (rc =? 0) then ret rc
  else
    write_entries
      (map (fun e => entry_set_type e (Z.ldiff (entry_type e) EXFAT_ENTRY_VALID)) entries) offset.

(** *** A new node *)

(** [memset(node, 0, ...)] *)
Definition zero_node : exfat_node := {|
  n_parent := None; n_child := None; n_next := None; n_prev := None; n_references := 0;
  n_fptr_index := 0; n_fptr_cluster := 0; n_entry_offset := 0; n_start_cluster := 0;
  n_attrib := 0; n_continuations := 0; n_is_contiguous := false; n_is_cached := false;
  n_is_dirty := false; n_is_unlinked := false; n_valid_size := 0; n_size := 0;
  n_mtime := 0; n_atime := 0; n_name := zrepeat 0 (EXFAT_NAME_MAX + 1)
|}.

Definition allocate_node : M env (option exfat_node) :=
  let! ok := malloc_ok in
  if negb ok then exfat_error;; ret None
  else ret (Some zero_node).

(** [exfat_exfat2unix] with the time zone of the process. *)
Definition exfat2unix (date time centisec tzoffset : Z) : M env Z := fun e =>
  exfat_exfat2unix (os_timezone e) date time centisec tzoffset e.

Definition init_node_meta1 (meta1 : entry_meta1) (node : exfat_node) : M env exfat_node :=
  let node := set_n_attrib (m1_attrib meta1) node in
  let node := set_n_continuations (m1_continuations meta1) node in
  let! mtime := exfat2unix (m1_mdate meta1) (m1_mtime meta1) (m1_mtime_cs meta1) (m1_mtime_tzo meta1) in
  let node := set_n_mtime mtime node in
  let! atime := exfat2unix (m1_adate meta1) (m1_atime meta1) 0 (m1_atime_tzo meta1) in
  ret (set_n_atime atime node).

Definition init_node_meta2 (meta2 : entry_meta2) (node : exfat_node) : exfat_node :=
  let node := set_n_valid_size (m2_valid_size meta2) node in
  let node := set_n_size (m2_size meta2) node in
  let node := set_n_start_cluster (m2_start_cluster meta2) node in
  let node := set_n_fptr_cluster (n_start_cluster node) node in
  set_n_is_contiguous (negb (Z.land (m2_flags meta2) EXFAT_FLAG_CONTIGUOUS =? 0)) node.

(** The loop of [init_node_name]: the entries from index [i] on. *)
Fixpoint init_node_name_loop (i : Z) (entries : list exfat_entry) (name : list Z) : list Z :=
  match entries with
  | [] => name
  | e :: entries =>
      init_node_name_loop (i + 1) entries (splice name (i * EXFAT_ENAME_MAX) (en_name (entry_name_of e)))
  end.

Definition init_node_name (entries : list exfat_entry) (node : exfat_node) : exfat_node :=
  set_n_name (init_node_name_loop 0 entries (n_name node)) node.

(** *** Repair (repair.c) *)

(** [strcasecmp(answer, "Y\n") == 0]: the answer is "Y" or "y" and a line feed. *)
Definition is_yes (answer : list Z) : bool := bool_decide (answer = [0x59; 10]) || bool_decide (answer = [0x79; 10]).
Definition is_no (answer : list Z) : bool := bool_decide (answer = [0x4e; 10]) || bool_decide (answer = [0x6e; 10]).

(** The question is put again until an answer is "Y" or "N"; [os_stdin] holds
    what each call of [fgets] returns, and its end is the end of the file. *)
Fixpoint ask_loop (answers : list (list Z)) : bool * list (list Z) :=
  match answers with
  | [] => (false, [])
  | answer :: answers =>
      if is_yes answer then (true, answers)
      else if is_no answer then (false, answers)
      else ask_loop answers
  end.

Definition exfat_ask_to_fix : M vol bool :=
  let! v := get_state in
  match ef_repair (v_ef v) with
  | EXFAT_REPAIR_NO => ret false
  | EXFAT_REPAIR_YES => ret true
  | EXFAT_REPAIR_ASK =>
      let (yeah, rest) := ask_loop (os_stdin (v_os v)) in
      on_part (modify (set_os_stdin rest));; ret yeah
  end.

Definition exfat_fix_invalid_node_checksum : M nstate bool :=
  set_node (set_n_is_dirty true);;
  on_os exfat_errors_fixed_bump;;
  ret true.

(** The node of the state is the directory. *)
Definition exfat_fix_unknown_entry (entry : exfat_entry) (offset : Z) : M nstate bool :=
  let deleted := entry_set_type entry (Z.ldiff (entry_type entry) EXFAT_ENTRY_VALID) in
  let! size := exfat_generic_pwrite deleted ENTRY_SIZE offset in
  if negb (size =? ENTRY_SIZE) then ret false
  else on_os exfat_errors_fixed_bump;; ret true.

(** [EXFAT_REPAIR(hook, ef, ...)] *)
Definition EXFAT_REPAIR (hook : M nstate bool) : M nstate bool :=
  let! fix_it := on_vol exfat_ask_to_fix in
  if fix_it then hook else ret false.

(** *** Checks *)

(** Whether an entry of the type [current] may follow one of type [previous]. *)
Definition transition_valid (previous current : Z) : bool :=
  if previous =? EXFAT_ENTRY_NONE then current =? EXFAT_ENTRY_FILE
  else if previous =? EXFAT_ENTRY_FILE then current =? EXFAT_ENTRY_FILE_INFO
  else if previous =? EXFAT_ENTRY_FILE_INFO then current =? EXFAT_ENTRY_FILE_NAME
  else if previous =? EXFAT_ENTRY_FILE_NAME then
    (current =? EXFAT_ENTRY_FILE_NAME) || (current =? EXFAT_ENTRY_NONE) || (EXFAT_ENTRY_FILE_TAIL <=? current)
  else if (EXFAT_ENTRY_FILE_TAIL <=? previous) && (previous <=? 0xff) then
    (EXFAT_ENTRY_FILE_TAIL <=? current) || (current =? EXFAT_ENTRY_NONE)
  else false.

(** The loop of [check_entries], over the entries that are left. *)
Fixpoint check_entries_loop (previous : Z) (entry : list exfat_entry) : M env bool :=
  let current := match entry with [] => EXFAT_ENTRY_NONE | e :: _ => entry_type e end in
  if negb (transition_valid previous current) then exfat_error;; ret false
  else match entry with
       | [] => ret true
       | _ :: entry => check_entries_loop current entry
       end.

Definition check_entries : list exfat_entry -> M env bool := check_entries_loop EXFAT_ENTRY_NONE.

(** One of the checks of [check_node]: when [bad], the name is put into a
    message and the result becomes [false]. *)
Definition node_check (bad : bool) (result : bool) : M nstate bool :=
  if bad then
    let! s := get_state in
    let! _ := exfat_get_name (s_node s) in
    on_os exfat_error;; ret false
  else ret result.

(** The node of the state is the node that is checked. *)
Definition check_node (actual_checksum : Z) (meta1 : entry_meta1) : M nstate bool :=
  let! s := get_state in
  let sb := ef_sb (s_ef s) in
  let cluster_size := CLUSTER_SIZE sb in
  let clusters_heap_size := u64 (sb_cluster_count sb * cluster_size) in
  let! result :=
    if negb (actual_checksum =? m1_checksum meta1) then
      let! _ := exfat_get_name (s_node s) in
      on_os exfat_error;;
      EXFAT_REPAIR exfat_fix_invalid_node_checksum
    else ret true in
  let! s := get_state in
  let node := s_node s in
  let! result := node_check (n_size node <? n_valid_size node) result in
  let! result :=
    node_check ((n_size node =? 0) && negb (n_start_cluster node =? EXFAT_CLUSTER_FREE)) result in
  let! result := node_check ((0 <? n_size node) && CLUSTER_INVALID sb (n_start_cluster node)) result in
  let! result := node_check (clusters_heap_size <? n_size node) result in
  let! result := node_check ((n_size node =? 0) && n_is_contiguous node) result in
  node_check (is_dir node && negb (n_size node mod cluster_size =? 0)) result.

(** The node of the state is the node that is built. *)
Definition parse_file_entries (entries : list exfat_entry) : M nstate Z :=
  let! ok := on_os (check_entries entries) in
  if negb ok then ret (- EIO)
  else
    let meta1 := entry_meta1_of (nth 0 entries []) in
    if m1_continuations meta1 <? 2 then on_os exfat_error;; ret (- EIO)
    else
      let meta2 := entry_meta2_of (nth 1 entries []) in
      if negb (Z.ldiff (m2_flags meta2) (Z.lor EXFAT_FLAG_ALWAYS1 EXFAT_FLAG_CONTIGUOUS) =? 0)
      then on_os exfat_error;; ret (- EIO)
      else
        let mandatory_entries := 2 + DIV_ROUND_UP (m2_name_length meta2) EXFAT_ENAME_MAX in
        if m1_continuations meta1 <? mandatory_entries - 1 then on_os exfat_error;; ret (- EIO)
        else
          let! s := get_state in
          let! node := on_os (init_node_meta1 meta1 (s_node s)) in
          set_node (fun _ => init_node_name (sub entries 2 (mandatory_entries - 2)) (init_node_meta2 meta2 node));;
          let! ok := check_node (exfat_calc_checksum entries) meta1 in
          if negb ok then ret (- EIO) else ret 0.

(** Run [m] on another node of the same volume; the state keeps its own node. *)
Definition on_other_node {A} (node : exfat_node) (m : M nstate A) : M nstate (A * exfat_node) := fun s =>
  match m (mk_nstate (s_vol s) node) with
  | Ok a s' => Ok (a, s_node s') (set_s_vol (s_vol s') s)
  | Halt r s' => Halt r (set_s_vol (s_vol s') s)
  | Diverge => Diverge
  end.

(** The result code, the new node when the code is 0, and the new offset. *)
Definition parse_file_entry (offset n : Z) : M nstate (Z * option exfat_node * Z) :=
  let! (rc, entries) := read_entries n offset in
  if negb (rc =? 0) then ret (rc, None, offset)
  else
    let! node := on_os allocate_node in
    match node with
    | None => ret (- ENOMEM, None, offset)
    | Some node =>
        let! (rc, node) := on_other_node (set_n_entry_offset offset node) (parse_file_entries entries) in
        if negb (rc =? 0) then ret (rc, None, offset)
        else ret (0, Some node, offset + ENTRY_SIZE * n)
    end.

(** [decompress_upcase]: the units of the output from the index [oi] on.  A unit
    that a run skips keeps the value it was initialised with, its index. *)
Fixpoint decompress_loop (source : list Z) (oi : Z) : list Z :=
  if EXFAT_UPCASE_CHARS <=? oi then []
  else
    match source with
    | [] => zseq oi (EXFAT_UPCASE_CHARS - oi)
    | ch :: source =>
        match source with
        | run :: source' =>
            if ch =? 0xffff then
              zseq oi (Z.min run (EXFAT_UPCASE_CHARS - oi)) ++ decompress_loop source' (oi + run)
            else ch :: decompress_loop source (oi + 1)
        | [] => ch :: decompress_loop source (oi + 1)
        end
    end.

Definition decompress_upcase (source : list Z) : list Z := decompress_loop source 0.

(** The case of [readdir] for the up-case table. *)
Definition read_upcase (entry : exfat_entry) : M nstate Z :=
  let! s := get_state in
  let ef := s_ef s in
  if negb (bool_decide (ef_upcase ef = [])) then ret 0
  else
    let upcase := entry_upcase_of entry in
    if CLUSTER_INVALID (ef_sb ef) (eu_start_cluster upcase) then on_os exfat_error;; ret (- EIO)
    else
      let upcase_size := eu_size upcase in
      if (upcase_size =? 0) || (EXFAT_UPCASE_CHARS * 2 <? upcase_size) || negb (upcase_size mod 2 =? 0)
      then on_os exfat_error;; ret (- EIO)
      else
        let! ok := on_os malloc_ok in
        if negb ok then on_os exfat_error;; ret (- ENOMEM)
        else
          let! off := exfat_c2o ef (eu_start_cluster upcase) in
          let! upcase_comp := on_os (exfat_pread upcase_size off) in
          match upcase_comp with
          | None => on_os exfat_error;; ret (- EIO)
          | Some upcase_comp =>
              let! ok := on_os malloc_ok in
              if negb ok then on_os exfat_error;; ret (- ENOMEM)
              else
                on_vol (on_part (modify (set_ef_upcase (decompress_upcase (le16_array upcase_comp)))));;
                ret 0
          end.

(** The case of [readdir] for the bitmap of clusters.  The block that [malloc]
    returns is taken to be zero until it is read. *)
Definition read_bitmap (entry : exfat_entry) : M nstate Z :=
  let bitmap := entry_bitmap_of entry in
  on_vol (on_part (modify (set_ef_cmap_start_cluster (eb_start_cluster bitmap))));;
  let! s := get_state in
  let ef := s_ef s in
  if CLUSTER_INVALID (ef_sb ef) (ef_cmap_start_cluster ef) then on_os exfat_error;; ret (- EIO)
  else
    let size := sb_cluster_count (ef_sb ef) in
    on_vol (on_part (modify (set_ef_cmap_size size)));;
    if eb_size bitmap <? u32 (size + 8 - 1) / 8 then on_os exfat_error;; ret (- EIO)
    else
      on_vol (on_part (modify (set_ef_cmap_chunk_size size)));;
      let! ok := on_os malloc_ok in
      if negb ok then
        on_vol (on_part (modify (set_ef_cmap_chunk [])));;
        on_os exfat_error;; ret (- ENOMEM)
      else
        on_vol (on_part (modify (set_ef_cmap_chunk (zrepeat 0 (BMAP_SIZE size)))));;
        let! off := exfat_c2o ef (ef_cmap_start_cluster ef) in
        let! chunk := on_os (exfat_pread (BMAP_SIZE size) off) in
        match chunk with
        | None => on_os exfat_error;; ret (- EIO)
        | Some chunk => on_vol (on_part (modify (set_ef_cmap_chunk chunk)));; ret 0
        end.

(** The case of [readdir] for the label. *)
Definition read_label (entry : exfat_entry) : M nstate Z :=
  let label := entry_label_of entry in
  if EXFAT_ENAME_MAX <? el_length label then on_os exfat_error;; ret (- EIO)
  else
    let (rc, output) := exfat_utf16_to_utf8 (el_name label) EXFAT_UTF8_ENAME_BUFFER_MAX EXFAT_ENAME_MAX in
    on_vol (on_part (modify (fun ef => set_ef_label (splice (ef_label ef) 0 output) ef)));;
    if negb (rc =? 0) then ret (- EIO) else ret 0.

(** An entry that makes no node: 0 when the loop of [readdir] goes on. *)
Definition read_other (entry : exfat_entry) (offset : Z) : M nstate Z :=
  if entry_type entry =? EXFAT_ENTRY_UPCASE then read_upcase entry
  else if entry_type entry =? EXFAT_ENTRY_BITMAP then read_bitmap entry
  else if entry_type entry =? EXFAT_ENTRY_LABEL then read_label entry
  else if Z.land (entry_type entry) EXFAT_ENTRY_VALID =? 0 then ret 0
  else
    on_os exfat_error;;
    let! fixed := EXFAT_REPAIR (exfat_fix_unknown_entry entry offset) in
    if fixed then ret 0 else ret (- EIO).

(** The loop of [readdir]: the result code, the new node when it is 0, and the
    new offset. *)
Fixpoint readdir_loop (fuel : nat) (offset : Z) : M nstate (Z * option exfat_node * Z) :=
  match fuel with
  | O => diverge
  | S fuel =>
      let! (rc, entries) := read_entries 1 offset in
      if negb (rc =? 0) then ret (rc, None, offset)
      else
        let entry := nth 0 entries [] in
        if entry_type entry =? EXFAT_ENTRY_FILE then
          parse_file_entry offset (1 + u8 (m1_continuations (entry_meta1_of entry)))
        else
          let! rc := read_other entry offset in
          if negb (rc =? 0) then ret (rc, None, offset)
          else readdir_loop fuel (offset + ENTRY_SIZE)
  end.

(** A directory of [size] bytes has at most [size / 32] entries from any offset;
    the read after the last of them ends the loop. *)
Definition readdir (offset : Z) : M nstate (Z * option exfat_node * Z) :=
  let! s := get_state in
  readdir_loop (S (Z.to_nat (DIV_ROUND_UP (n_size (s_node s)) ENTRY_SIZE))) offset.

(** *** Labels *)

Definition exfat_get_label (ef : exfat) : list Z := ef_label ef.

(** The node of the state is the root directory.  The loop ends at the end of
    the directory. *)
Fixpoint find_label_loop (fuel : nat) (offset : Z) : M nstate (Z * Z) :=
  match fuel with
  | O => diverge
  | S fuel =>
      let! (rc, entries) := read_entries 1 offset in
      if negb (rc =? 0) then ret (rc, offset)
      else if entry_type (nth 0 entries []) =? EXFAT_ENTRY_LABEL then ret (0, offset)
      else find_label_loop fuel (offset + ENTRY_SIZE)
  end.

Definition find_label : M nstate (Z * Z) :=
  let! s := get_state in
  find_label_loop (S (Z.to_nat (DIV_ROUND_UP (n_size (s_node s)) ENTRY_SIZE))) 0.

(** *** The entries of a node that is written back *)

(** The fields of the first two entries that [exfat_flush_node] sets; the
    checksum is set afterwards. *)
Definition flush_meta1 (timezone : Z) (node : exfat_node) (meta1 : entry_meta1) : entry_meta1 :=
  let '(mdate, mtime, mtime_cs, mtime_tzo) := exfat_unix2exfat timezone (n_mtime node) in
  let '(adate, atime, _, atime_tzo) := exfat_unix2exfat timezone (n_atime node) in
  {| m1_type := m1_type meta1; m1_continuations := m1_continuations meta1;
     m1_checksum := m1_checksum meta1; m1_attrib := n_attrib node;
     m1___unknown1 := m1___unknown1 meta1; m1_crtime := m1_crtime meta1;
     m1_crdate := m1_crdate meta1; m1_mtime := mtime; m1_mdate := mdate; m1_atime := atime;
     m1_adate := adate; m1_crtime_cs := m1_crtime_cs meta1; m1_mtime_cs := mtime_cs;
     m1_crtime_tzo := m1_crtime_tzo meta1; m1_mtime_tzo := mtime_tzo; m1_atime_tzo := atime_tzo;
     m1___unknown2 := m1___unknown2 meta1 |}.

Definition set_m1_checksum (checksum : Z) (meta1 : entry_meta1) : entry_meta1 :=
  {| m1_type := m1_type meta1; m1_continuations := m1_continuations meta1;
     m1_checksum := checksum; m1_attrib := m1_attrib meta1;
     m1___unknown1 := m1___unknown1 meta1; m1_crtime := m1_crtime meta1;
     m1_crdate := m1_crdate meta1; m1_mtime := m1_mtime meta1; m1_mdate := m1_mdate meta1;
     m1_atime := m1_atime meta1; m1_adate := m1_adate meta1; m1_crtime_cs := m1_crtime_cs meta1;
     m1_mtime_cs := m1_mtime_cs meta1; m1_crtime_tzo := m1_crtime_tzo meta1;
     m1_mtime_tzo := m1_mtime_tzo meta1; m1_atime_tzo := m1_atime_tzo meta1;
     m1___unknown2 := m1___unknown2 meta1 |}.

Definition flush_meta2 (node : exfat_node) (meta2 : entry_meta2) : entry_meta2 :=
  {| m2_type := m2_type meta2;
     m2_flags :=
       if negb (n_size node =? 0) && n_is_contiguous node
       then Z.lor EXFAT_FLAG_ALWAYS1 EXFAT_FLAG_CONTIGUOUS else EXFAT_FLAG_ALWAYS1;
     m2___unknown1 := m2___unknown1 meta2; m2_name_length := m2_name_length meta2;
     m2_name_hash := m2_name_hash meta2; m2___unknown2 := m2___unknown2 meta2;
     m2_valid_size := n_valid_size node; m2___unknown3 := m2___unknown3 meta2;
     m2_start_cluster := n_start_cluster node; m2_size := n_size node |}.

(** The entries with the checksum in the first of them. *)
Definition with_checksum (entries : list exfat_entry) : list exfat_entry :=
  match entries with
  | [] => []
  | e :: rest =>
      entry_meta1_bytes (set_m1_checksum (exfat_calc_checksum entries) (entry_meta1_of e)) :: rest
  end.

Definition flush_entries (timezone : Z) (node : exfat_node) (entries : list exfat_entry) : list exfat_entry :=
  match entries with
  | e0 :: e1 :: rest =>
      with_checksum
        (entry_meta1_bytes (flush_meta1 timezone node (entry_meta1_of e0)) ::
         entry_meta2_bytes (flush_meta2 node (entry_meta2_of e1)) :: rest)
  | _ => entries
  end.

(** The entries that [commit_entry] and [rename_entry] write for a name: the
    loop over the parts of the name, from the part [i] on. *)
Fixpoint name_entries_loop (n : nat) (i : Z) (name : list Z) : list exfat_entry :=
  match n with
  | O => []
  | S n =>
      entry_name_bytes {|
        en_type := EXFAT_ENTRY_FILE_NAME; en___unknown := [0];
        en_name := sub name (i * EXFAT_ENAME_MAX) EXFAT_ENAME_MAX |} :: name_entries_loop n (i + 1) name
  end.

Definition name_entries_count (name : list Z) : Z :=
  DIV_ROUND_UP (exfat_utf16_length name) EXFAT_ENAME_MAX.

Definition name_entries (name : list Z) : list exfat_entry :=
  name_entries_loop (Z.to_nat (name_entries_count name)) 0 name.

(** The first two entries of a new file, before the checksum is set. *)
Definition new_meta1 (timezone now attrib : Z) (name : list Z) : entry_meta1 :=
  let '(edate, etime, cs, tzo) := exfat_unix2exfat timezone now in
  {| m1_type := EXFAT_ENTRY_FILE; m1_continuations := u8 (1 + name_entries_count name);
     m1_checksum := 0; m1_attrib := attrib; m1___unknown1 := [0; 0]; m1_crtime := etime;
     m1_crdate := edate; m1_mtime := etime; m1_mdate := edate; m1_atime := etime; m1_adate := edate;
     m1_crtime_cs := cs; m1_mtime_cs := cs; m1_crtime_tzo := tzo; m1_mtime_tzo := tzo;
     m1_atime_tzo := tzo; m1___unknown2 := zrepeat 0 7 |}.

Definition new_meta2 (upcase name : list Z) : entry_meta2 :=
  let name_length := exfat_utf16_length name in
  {| m2_type := EXFAT_ENTRY_FILE_INFO; m2_flags := EXFAT_FLAG_ALWAYS1; m2___unknown1 := [0];
     m2_name_length := u8 name_length; m2_name_hash := exfat_calc_name_hash upcase name name_length;
     m2___unknown2 := [0; 0]; m2_valid_size := 0; m2___unknown3 := zrepeat 0 4;
     m2_start_cluster := EXFAT_CLUSTER_FREE; m2_size := 0 |}.

Definition new_entries (timezone now attrib : Z) (upcase name : list Z) : list exfat_entry :=
  with_checksum
    (entry_meta1_bytes (new_meta1 timezone now attrib name) ::
     entry_meta2_bytes (new_meta2 upcase name) :: name_entries name).

(** The entries of a renamed file: the first two of the old ones, changed. *)
Definition rename_meta1 (name : list Z) (meta1 : entry_meta1) : entry_meta1 :=
  {| m1_type := m1_type meta1; m1_continuations := u8 (1 + name_entries_count name);
     m1_checksum := m1_checksum meta1; m1_attrib := m1_attrib meta1;
     m1___unknown1 := m1___unknown1 meta1; m1_crtime := m1_crtime meta1;
     m1_crdate := m1_crdate meta1; m1_mtime := m1_mtime meta1; m1_mdate := m1_mdate meta1;
     m1_atime := m1_atime meta1; m1_adate := m1_adate meta1; m1_crtime_cs := m1_crtime_cs meta1;
     m1_mtime_cs := m1_mtime_cs meta1; m1_crtime_tzo := m1_crtime_tzo meta1;
     m1_mtime_tzo := m1_mtime_tzo meta1; m1_atime_tzo := m1_atime_tzo meta1;
     m1___unknown2 := m1___unknown2 meta1 |}.

Definition rename_meta2 (upcase name : list Z) (meta2 : entry_meta2) : entry_meta2 :=
  let name_length := exfat_utf16_length name in
  {| m2_type := m2_type meta2; m2_flags := m2_flags meta2; m2___unknown1 := m2___unknown1 meta2;
     m2_name_length := u8 name_length; m2_name_hash := exfat_calc_name_hash upcase name name_length;
     m2___unknown2 := m2___unknown2 meta2; m2_valid_size := m2_valid_size meta2;
     m2___unknown3 := m2___unknown3 meta2; m2_start_cluster := m2_start_cluster meta2;
     m2_size := m2_size meta2 |}.

Definition rename_entries (upcase name : list Z) (entries : list exfat_entry) : list exfat_entry :=
  match entries with
  | e0 :: e1 :: _ =>
      with_checksum
        (entry_meta1_bytes (rename_meta1 name (entry_meta1_of e0)) ::
         entry_meta2_bytes (rename_meta2 upcase name (entry_meta2_of e1)) :: name_entries name)
  | _ => entries
  end.
End Entries.
