(* ===== verification/EntriesSpec.v ===== *)
(** * EntriesSpec: what the entries of a file promise (libexfat/node.c)

    Which runs of entry types are accepted, the round trip from a node to its
    entries and back, the entries of a new file, and the up-case table. *)

From Stdlib Require Import ZArith Lia.
From stdpp Require Import base numbers list gmap.
From S2P Require Import Prelude Bytes Monad Ondisk State Checksum Utf Bitmap Geometry Cluster FileIO Utils ExfatTime Entries.

#[local] Open Scope Z_scope.

(** ** The types of a run of entries *)

(** A file: its entry, its info, one or more parts of its name, and any number of
    further entries that a reader may skip. *)
Definition is_tail (t : Z) : Prop := EXFAT_ENTRY_FILE_TAIL <= t <= 0xff.

Definition file_types (types : list Z) : Prop :=
  exists names tail, types = EXFAT_ENTRY_FILE :: EXFAT_ENTRY_FILE_INFO :: names ++ tail /\
    names <> [] /\ Forall (eq EXFAT_ENTRY_FILE_NAME) names /\ Forall is_tail tail.

(** [check_entries] on the types alone. *)
Fixpoint types_valid (previous : Z) (types : list Z) : bool :=
  match types with
  | [] => transition_valid previous EXFAT_ENTRY_NONE
  | t :: types => transition_valid previous t && types_valid t types
  end.

Lemma check_entries_types entries e :
  check_entries entries e =
    if types_valid EXFAT_ENTRY_NONE (map entry_type entries) then Ok true e
    else Ok false (set_os_errors (os_errors e + 1) e).
Proof.
  unfold check_entries. generalize EXFAT_ENTRY_NONE. induction entries as [| x entries IH]; intros prev;
    cbn [check_entries_loop map types_valid]; destruct (transition_valid _ _); try done.
  cbn [negb andb]. apply IH.
Qed.

Ltac type_consts :=
  change EXFAT_ENTRY_NONE with (-1) in *; change EXFAT_ENTRY_FILE_INFO with 0xc0 in *;
  change EXFAT_ENTRY_FILE_NAME with 0xc1 in *; change EXFAT_ENTRY_FILE_TAIL with 0xe0 in *;
  change EXFAT_ENTRY_FILE with 0x85 in *.

Lemma transition_cases previous current :
  transition_valid previous current = true <->
  (previous = EXFAT_ENTRY_NONE /\ current = EXFAT_ENTRY_FILE) \/
  (previous = EXFAT_ENTRY_FILE /\ current = EXFAT_ENTRY_FILE_INFO) \/
  (previous = EXFAT_ENTRY_FILE_INFO /\ current = EXFAT_ENTRY_FILE_NAME) \/
  (previous = EXFAT_ENTRY_FILE_NAME /\ (current = EXFAT_ENTRY_FILE_NAME \/ current = EXFAT_ENTRY_NONE \/ EXFAT_ENTRY_FILE_TAIL <= current)) \/
  (is_tail previous /\ (EXFAT_ENTRY_FILE_TAIL <= current \/ current = EXFAT_ENTRY_NONE)).
Proof.
  unfold transition_valid, is_tail.
  type_consts.
  repeat match goal with |- context [if ?b then _ else _] => let E := fresh in destruct b eqn:E end; lia.
Qed.

Lemma types_valid_tail t types : is_tail t -> Forall is_byte types ->
  types_valid t types = true <-> Forall is_tail types.
Proof.
  revert t. induction types as [| u types IH]; intros t Ht Hb; cbn [types_valid].
  - split; [done |]. intros _. apply transition_cases. auto 10.
  - inversion_clear Hb as [| ? ? Hu Hb']. rewrite andb_true_iff, transition_cases.
    unfold is_tail, is_byte in *.
    type_consts. split.
    + intros [Hc Hv]. assert (0xe0 <= u <= 0xff) by lia. constructor; [done |]. by apply (IH u).
    + intros Hf. inversion_clear Hf. split; [lia |]. by apply (IH u).
Qed.

Lemma types_valid_names types : Forall is_byte types ->
  types_valid EXFAT_ENTRY_FILE_NAME types = true <->
  exists names tail, types = names ++ tail /\ Forall (eq EXFAT_ENTRY_FILE_NAME) names /\ Forall is_tail tail.
Proof.
  induction types as [| u types IH]; intros Hb; cbn [types_valid].
  - split; [| done]. intros _. by exists [], [].
  - inversion_clear Hb as [| ? ? Hu Hb']. rewrite andb_true_iff, transition_cases. split.
    + intros [Hc Hv]. destruct (Z.eq_dec u EXFAT_ENTRY_FILE_NAME) as [-> | Hne].
      * apply IH in Hv as (names & tail & -> & Hn & Ht); [| done].
        exists (EXFAT_ENTRY_FILE_NAME :: names), tail. split_and!; [done | by constructor | done].
      * assert (Hu' : is_tail u).
        { unfold is_tail, is_byte in *. type_consts. lia. }
        exists [], (u :: types). split_and!; [done | done |]. constructor; [done |]. by apply (types_valid_tail u).
    + intros (names & tail & E & Hn & Ht). destruct names as [| m names].
      * cbn in E. subst tail. inversion_clear Ht. split; [| by apply types_valid_tail].
        do 3 right. left. split; [done |]. unfold is_tail in *. lia.
      * injection E as -> ->. inversion_clear Hn. subst m. split; [auto 10 |]. apply IH; [done |]. eauto.
Qed.

(** [check_entries] accepts exactly the runs that form a file: the file entry,
    its info, at least one part of the name, and then only entries that a reader
    may skip; on every other run it reports an error. *)
Theorem check_entries_iff entries e (Hb : Forall is_byte (map entry_type entries)) :
  exists ok e', check_entries entries e = Ok ok e' /\
    (ok = true <-> file_types (map entry_type entries)) /\
    os_errors e' = os_errors e + (if ok then 0 else 1).
Proof.
  rewrite check_entries_types. set (types := map entry_type entries) in *.
  exists (types_valid EXFAT_ENTRY_NONE types),
    (if types_valid EXFAT_ENTRY_NONE types then e else set_os_errors (os_errors e + 1) e). split; [by destruct (types_valid _ _) |].
  split; [| by destruct (types_valid _ _); cbn; lia].
  unfold file_types. split.
  - intros Hv. destruct types as [| a [| b [| c types]]]; cbn [types_valid] in Hv;
      rewrite ?andb_true_iff, ?transition_cases in Hv; unfold is_tail in Hv; type_consts; try lia.
    destruct Hv as (Ha & Hb1 & Hc & Hv).
    assert (a = 0x85 /\ b = 0xc0 /\ c = 0xc1) as (-> & -> & ->) by lia.
    apply Forall_cons in Hb as [_ Hb]. apply Forall_cons in Hb as [_ Hb]. apply Forall_cons in Hb as [_ Hb].
    apply (types_valid_names types Hb) in Hv as (names & tail & -> & Hn & Ht).
    exists (0xc1 :: names), tail. split_and!; [done | done | by constructor | done].
  - intros (names & tail & E & Hne & Hn & Ht). destruct names as [| m names]; [done |].
    apply Forall_cons in Hn as [<- Hn]. rewrite E in *. cbn [app types_valid].
    apply Forall_cons in Hb as [_ Hb]. apply Forall_cons in Hb as [_ Hb]. apply Forall_cons in Hb as [_ Hb].
    rewrite !andb_true_iff. split_and!; [done | done | done |]. apply types_valid_names; [done |]. eauto.
Qed.

Lemma check_entries_iff_witness :
  exists ok e', check_entries [[0x85]; [0xc0]; [0xc1]; [0xc1]; [0xe3]] demo_os = Ok ok e' /\
    (ok = true <-> file_types [0x85; 0xc0; 0xc1; 0xc1; 0xe3]) /\ os_errors e' = 0 + (if ok then 0 else 1).
Proof.
  apply (check_entries_iff [[0x85]; [0xc0]; [0xc1]; [0xc1]; [0xe3]] demo_os).
  repeat constructor; vm_compute; discriminate.
Defined.

(** ** The checksum of a run *)

(** The checksum field does not take part in the checksum. *)
Lemma calc_checksum_field c x rest :
  exfat_calc_checksum (entry_meta1_bytes (set_m1_checksum c x) :: rest) =
  exfat_calc_checksum (entry_meta1_bytes x :: rest).
Proof.
  reflexivity.
Qed.

Lemma add_checksum_byte_u16 sum b : in_u 16 (add_checksum_byte sum b).
Proof. apply u16_range. Qed.

Lemma foldl_checksum_u16 l sum : in_u 16 sum -> in_u 16 (foldl add_checksum_byte sum l).
Proof.
  revert sum. induction l as [| b l IH]; intros sum Hs; [done |]. apply IH, add_checksum_byte_u16.
Qed.

Lemma calc_checksum_u16 entries : entries_ok entries -> in_u 16 (exfat_calc_checksum entries).
Proof. intros Hok. rewrite calc_checksum_kept by done. apply foldl_checksum_u16. unfold in_u. lia. Qed.

(** A run whose first entry got its checksum. *)
Lemma with_checksum_spec x rest : entry_meta1_ok x -> entries_ok rest ->
  let c := exfat_calc_checksum (entry_meta1_bytes x :: rest) in
  let entries := with_checksum (entry_meta1_bytes x :: rest) in
  entries = entry_meta1_bytes (set_m1_checksum c x) :: rest /\
  entry_meta1_of (nth 0 entries []) = set_m1_checksum c x /\
  exfat_calc_checksum entries = c /\ entries_ok entries.
Proof.
  intros Hx Hr c entries.
  assert (Hc : in_u 16 c).
  { apply calc_checksum_u16. constructor; [| done]. split; [by apply zlen_entry_meta1_bytes | by apply entry_meta1_bytes_ok]. }
  assert (Hx' : entry_meta1_ok (set_m1_checksum c x)).
  { unfold entry_meta1_ok in *. cbn. tauto. }
  assert (E : entries = entry_meta1_bytes (set_m1_checksum c x) :: rest).
  { unfold entries, with_checksum. rewrite entry_meta1_of_bytes by done. reflexivity. }
  rewrite E. split_and!; [done | by apply entry_meta1_of_bytes | apply calc_checksum_field |].
  constructor; [| done]. split; [by apply zlen_entry_meta1_bytes | by apply entry_meta1_bytes_ok].
Qed.

(** ** A node and its entries *)

(** The fields of a node that the entries of a file hold are in range and make
    sense for the volume. *)
Record node_sane (sb : super_block) (n : exfat_node) : Prop := {
  ns_attrib : in_u 16 (n_attrib n);
  ns_size : 0 <= n_valid_size n <= n_size n;
  ns_heap : n_size n <= sb_cluster_count sb * CLUSTER_SIZE sb;
  ns_empty : n_size n = 0 -> n_start_cluster n = EXFAT_CLUSTER_FREE;
  ns_start : 0 < n_size n -> valid_cluster sb (n_start_cluster n);
  ns_dir : is_dir n = true -> n_size n mod CLUSTER_SIZE sb = 0
}.

(** [entries] are entries of the node [n] on the medium: they form a file, and the
    name and the number of entries are those of [n].  (The other fields of [n]
    may have changed since.) *)
Record file_entries (n : exfat_node) (entries : list exfat_entry) : Prop := {
  fe_ok : entries_ok entries;
  fe_types : file_types (map entry_type entries);
  fe_count : zlen entries = 1 + n_continuations n;
  fe_field : m1_continuations (entry_meta1_of (nth 0 entries [])) = n_continuations n;
  fe_room : 1 + DIV_ROUND_UP (m2_name_length (entry_meta2_of (nth 1 entries []))) EXFAT_ENAME_MAX
            <= n_continuations n;
  fe_name : n_name n = init_node_name_loop 0
    (sub entries 2 (DIV_ROUND_UP (m2_name_length (entry_meta2_of (nth 1 entries []))) EXFAT_ENAME_MAX))
    (n_name zero_node)
}.

(** [n'] is [n] as it is read from its entries: the access time loses its odd
    second, and an empty file is not contiguous. *)
Record same_file (k : Z) (n n' : exfat_node) : Prop := {
  sf_attrib : n_attrib n' = n_attrib n;
  sf_continuations : n_continuations n' = n_continuations n;
  sf_valid_size : n_valid_size n' = n_valid_size n;
  sf_size : n_size n' = n_size n;
  sf_start : n_start_cluster n' = n_start_cluster n;
  sf_fptr : n_fptr_index n' = 0 /\ n_fptr_cluster n' = n_start_cluster n;
  sf_contiguous : n_is_contiguous n' = negb (n_size n =? 0) && n_is_contiguous n;
  sf_mtime : n_mtime n' = n_mtime n;
  sf_atime : n_atime n' = even_second k (n_atime n);
  sf_name : n_name n' = n_name n;
  sf_clean : n_is_dirty n' = false
}.

Lemma types_file_valid entries : entries_ok entries -> file_types (map entry_type entries) ->
  types_valid EXFAT_ENTRY_NONE (map entry_type entries) = true /\
  exists e0 e1 e2 rest, entries = e0 :: e1 :: e2 :: rest.
Proof.
  intros Hok (names & tail & E & Hne & Hn & Ht).
  assert (Hb : Forall is_byte (map entry_type entries)).
  { apply Forall_map. eapply Forall_impl; [exact Hok |]. intros e [Hl Hb]. apply (znth_Forall is_byte e 0); [done |].
    rewrite Hl. unfold ENTRY_SIZE. lia. }
  destruct names as [| m names]; [done |]. apply Forall_cons in Hn as [<- Hn]. split.
  - rewrite E in *. cbn [app types_valid].
    apply Forall_cons in Hb as [_ Hb]. apply Forall_cons in Hb as [_ Hb]. apply Forall_cons in Hb as [_ Hb].
    rewrite !andb_true_iff. split_and!; [done | done | done |]. apply types_valid_names; [done |]. eauto.
  - destruct entries as [| e0 [| e1 [| e2 rest]]]; try done. eauto.
Qed.

Section Parse.
Context `{Platform} (v : vol) (Hg : geometry_ok (ef_sb (v_ef v))).
#[local] Abbreviation sb := (ef_sb (v_ef v)).

Lemma node_check_pass s b r : b = false -> node_check b r s = Ok r s.
Proof. by intros ->. Qed.

Lemma node_check_then {A} (f : bool -> M nstate A) s b r : b = false -> bind (node_check b r) f s = f r s.
Proof. by intros ->. Qed.

(** [check_node] passes a sane node without a message. *)
Lemma check_node_sane n sum meta1 : node_sane sb n -> sum = m1_checksum meta1 ->
  (n_size n = 0 -> n_is_contiguous n = false) ->
  check_node sum meta1 (mk_nstate v n) = Ok true (mk_nstate v n).
Proof.
  intros [] -> Hc. pose proof (CLUSTER_SIZE_range _ Hg). pose proof (go_cluster_count _ Hg).
  unfold check_node, EXFAT_LAST_DATA_CLUSTER in *.
  rewrite (bind_ok _ _ _ (mk_nstate v n) (mk_nstate v n)) by done. cbv zeta.
  rewrite Z.eqb_refl. rewrite (bind_ok _ _ _ true (mk_nstate v n)) by done.
  rewrite (bind_ok _ _ _ (mk_nstate v n) (mk_nstate v n)) by done.
  cbn [s_node s_vol]. change (s_ef (mk_nstate v n)) with (v_ef v).
  rewrite node_check_then by lia.
  rewrite node_check_then by (destruct (Z.eqb_spec (n_size n) 0); [by rewrite ns_empty0 | done]).
  rewrite node_check_then.
  2: { destruct (Z.ltb_spec 0 (n_size n)); [| done]. cbn [andb]. by apply CLUSTER_INVALID_valid, ns_start0. }
  rewrite u64_small by (unfold in_u; nia). rewrite node_check_then by lia.
  rewrite node_check_then by (destruct (Z.eqb_spec (n_size n) 0); [by rewrite Hc | done]).
  apply node_check_pass. destruct (is_dir n); [| done]. by rewrite ns_dir0.
Qed.
End Parse.

(** The type of an entry is its first byte, and the first field of its structure. *)
Lemma entry_type_field (e : exfat_entry) : bytes_ok e -> 0 < zlen e -> le_val (sub e 0 1) = entry_type e.
Proof.
  intros Hb Hl. destruct e as [| b e]; [done |]. unfold sub. rewrite drop_0.
  change (take (Z.to_nat 1) (b :: e)) with [b]. change (entry_type (b :: e)) with b. change (le_val [b]) with (u8 b + 256 * 0).
  inversion Hb; subst. rewrite u8_small by done. lia.
Qed.

Lemma byte_first t l : in_u 8 t -> entry_type (le_bytes 1 t ++ l) = t.
Proof. intros Ht. apply Z.mod_small. exact Ht. Qed.

Section RoundTrip.
Context `{Platform} (v : vol) (Hg : geometry_ok (ef_sb (v_ef v))).

(** The two entries that are rewritten hold values of their types. *)
Lemma flush_meta_ok k n e0 e1 : -63 <= k <= 64 -> time_ok k (n_mtime n) -> time_ok k (n_atime n) ->
  node_sane (ef_sb (v_ef v)) n -> entry_meta1_ok e0 -> entry_meta2_ok e1 ->
  entry_meta1_ok (flush_meta1 (k * 900) n e0) /\ entry_meta2_ok (flush_meta2 n e1).
Proof.
  intros Hk Hm Ha [] H0 H1.
  pose proof (unix2exfat_same k (n_mtime n) 0 (v_os v) Hk Hm) as Rm.
  pose proof (unix2exfat_same k (n_atime n) 0 (v_os v) Hk Ha) as Ra.
  pose proof (CLUSTER_SIZE_range _ Hg). pose proof (go_cluster_count _ Hg).
  assert (Hs : in_u 64 (n_size n)) by (unfold in_u, EXFAT_LAST_DATA_CLUSTER in *; nia).
  assert (Hst : in_u 32 (n_start_cluster n)).
  { destruct (Z.eq_dec (n_size n) 0) as [E | E]; [by rewrite ns_empty0 |].
    eapply valid_cluster_u32; [exact Hg |]. apply ns_start0. lia. }
  unfold flush_meta1, flush_meta2.
  destruct (exfat_unix2exfat _ (n_mtime n)) as [[[md mt] mc] mz].
  destruct (exfat_unix2exfat _ (n_atime n)) as [[[ad at_] ac] az].
  unfold entry_meta1_ok, entry_meta2_ok in *. cbn. destruct_and!.
  split; split_and!; try done; try (unfold in_u in *; lia).
  unfold in_u. destruct (negb _ && _); vm_compute; split; discriminate || done.
Qed.

(** What the parser makes of the times of the first entry. *)
Lemma init_node_meta1_flush k n e0 node c : -63 <= k <= 64 -> time_ok k (n_mtime n) -> time_ok k (n_atime n) ->
  init_node_meta1 (set_m1_checksum c (flush_meta1 (k * 900) n e0)) node (v_os v) =
  Ok (set_n_atime (even_second k (n_atime n)) (set_n_mtime (n_mtime n)
       (set_n_continuations (m1_continuations e0) (set_n_attrib (n_attrib n) node)))) (v_os v).
Proof.
  intros Hk Hm Ha.
  pose proof (unix2exfat_same k (n_mtime n) (os_timezone (v_os v)) (v_os v) Hk Hm) as Rm.
  pose proof (unix2exfat_same k (n_atime n) (os_timezone (v_os v)) (v_os v) Hk Ha) as Ra.
  unfold init_node_meta1, flush_meta1, set_m1_checksum.
  destruct (exfat_unix2exfat _ (n_mtime n)) as [[[md mt] mc] mz].
  destruct (exfat_unix2exfat _ (n_atime n)) as [[[ad at_] ac] az].
  destruct Rm as (_ & _ & _ & _ & Rm & _). destruct Ra as (_ & _ & _ & _ & _ & Ra).
  cbn [m1_attrib m1_continuations m1_mdate m1_mtime m1_mtime_cs m1_mtime_tzo m1_adate m1_atime m1_atime_tzo].
  rewrite (bind_ok (exfat2unix md mt mc mz) _ (v_os v) _ _ Rm).
  by rewrite (bind_ok (exfat2unix ad at_ 0 az) _ (v_os v) _ _ Ra).
Qed.

(** The names are in the entries from the third on, which stay. *)
Lemma flush_entries_spec k n e0 e1 rest : -63 <= k <= 64 -> time_ok k (n_mtime n) -> time_ok k (n_atime n) ->
  node_sane (ef_sb (v_ef v)) n -> entries_ok (e0 :: e1 :: rest) ->
  let m1 := flush_meta1 (k * 900) n (entry_meta1_of e0) in
  let m2 := flush_meta2 n (entry_meta2_of e1) in
  let l := flush_entries (k * 900) n (e0 :: e1 :: rest) in
  exists c, l = entry_meta1_bytes (set_m1_checksum c m1) :: entry_meta2_bytes m2 :: rest /\
    entry_meta1_of (nth 0 l []) = set_m1_checksum c m1 /\ entry_meta2_of (nth 1 l []) = m2 /\
    exfat_calc_checksum l = c /\ entries_ok l /\
    map entry_type l = map entry_type (e0 :: e1 :: rest).
Proof.
  intros Hk Hm Ha Hs Hok m1 m2 l. inversion_clear Hok as [| ? ? [L0 B0] Hok']. inversion_clear Hok' as [| ? ? [L1 B1] Hr].
  destruct (flush_meta_ok k n (entry_meta1_of e0) (entry_meta2_of e1)) as [O1 O2]; try done; [auto with exfat.. |].
  assert (Hr2 : entries_ok (entry_meta2_bytes m2 :: rest)).
  { constructor; [| done]. split; [by apply zlen_entry_meta2_bytes | by apply entry_meta2_bytes_ok]. }
  destruct (with_checksum_spec m1 (entry_meta2_bytes m2 :: rest) O1 Hr2) as (E & E1 & E2 & E3).
  exists (exfat_calc_checksum (entry_meta1_bytes m1 :: entry_meta2_bytes m2 :: rest)).
  assert (Ht1 : m1_type m1 = entry_type e0).
  { unfold m1, flush_meta1. destruct (exfat_unix2exfat _ _) as [[[? ?] ?] ?], (exfat_unix2exfat _ _) as [[[? ?] ?] ?].
    cbn [m1_type]. apply entry_type_field; [done |]. by rewrite L0. }
  assert (Ht2 : m2_type m2 = entry_type e1).
  { unfold m2, flush_meta2. cbn [m2_type]. apply entry_type_field; [done |]. by rewrite L1. }
  split_and!; [exact E | exact E1 | | exact E2 | exact E3 |].
  - unfold l, flush_entries. fold m1 m2. rewrite E. cbn [nth]. by apply entry_meta2_of_bytes.
  - unfold l, flush_entries. fold m1 m2. rewrite E. cbn [map]. f_equal; [| f_equal].
    + rewrite <- Ht1. apply byte_first. by unfold entry_meta1_ok in O1; destruct_and!.
    + rewrite <- Ht2. apply byte_first. by unfold entry_meta2_ok in O2; destruct_and!.
Qed.

(** The parser on entries that pass its checks. *)
Lemma parse_file_entries_step l node node1 :
  let m1 := entry_meta1_of (nth 0 l []) in
  let m2 := entry_meta2_of (nth 1 l []) in
  let names := DIV_ROUND_UP (m2_name_length m2) EXFAT_ENAME_MAX in
  let node' := init_node_name (sub l 2 names) (init_node_meta2 m2 node1) in
  types_valid EXFAT_ENTRY_NONE (map entry_type l) = true ->
  2 <= m1_continuations m1 -> 1 + names <= m1_continuations m1 ->
  Z.ldiff (m2_flags m2) 3 = 0 -> init_node_meta1 m1 node (v_os v) = Ok node1 (v_os v) ->
  check_node (exfat_calc_checksum l) m1 (mk_nstate v node') = Ok true (mk_nstate v node') ->
  parse_file_entries l (mk_nstate v node) = Ok 0 (mk_nstate v node').
Proof.
  intros m1 m2 names node' Ht H2 Hn Hf Hi Hc. unfold parse_file_entries.
  rewrite (bind_ok _ _ _ true (mk_nstate v node)).
  2: { apply on_os_same. change (s_os (mk_nstate v node)) with (v_os v).
       by rewrite check_entries_types, Ht. }
  cbn [negb]. fold m1 m2. replace (m1_continuations m1 <? 2) with false by lia.
  change (Z.lor EXFAT_FLAG_ALWAYS1 EXFAT_FLAG_CONTIGUOUS) with 3. rewrite Hf. cbn [Z.eqb negb].
  fold names. replace (m1_continuations m1 <? 2 + names - 1) with false by lia.
  rewrite (bind_ok _ _ _ (mk_nstate v node) (mk_nstate v node)) by done.
  rewrite (bind_ok _ _ _ node1 (mk_nstate v node)) by (by apply on_os_same).
  replace (2 + names - 2) with names by lia. fold node'.
  rewrite (bind_ok _ _ _ tt (mk_nstate v node')) by done.
  by rewrite (bind_ok _ _ _ _ _ Hc).
Qed.

Lemma roundtrip_spec k n entries offset : -63 <= k <= 64 -> time_ok k (n_mtime n) -> time_ok k (n_atime n) ->
  node_sane (ef_sb (v_ef v)) n -> file_entries n entries ->
  exists n', parse_file_entries (flush_entries (k * 900) n entries)
               (mk_nstate v (set_n_entry_offset offset zero_node)) = Ok 0 (mk_nstate v n') /\
    same_file k n n'.
Proof.
  intros Hk Hm Ha Hs [Hok Hty Hcount Hfield Hroom Hname].
  destruct (types_file_valid entries Hok Hty) as (Hval & e0 & e1 & e2 & rest & ->).
  rewrite !zlen_cons in Hcount. pose proof (zlen_nonneg rest).
  destruct (flush_entries_spec k n e0 e1 (e2 :: rest)) as (c & El & E1 & E2 & Ec & Eok & Ety); try done.
  set (l := flush_entries _ _ _) in *. cbn [nth] in Hfield, Hroom, Hname.
  set (base := set_n_entry_offset offset zero_node).
  set (n1 := set_n_atime (even_second k (n_atime n)) (set_n_mtime (n_mtime n)
       (set_n_continuations (n_continuations n) (set_n_attrib (n_attrib n) base)))).
  assert (Hi : init_node_meta1 (entry_meta1_of (nth 0 l [])) base (v_os v) = Ok n1 (v_os v)).
  { rewrite E1, init_node_meta1_flush by done. by rewrite Hfield. }
  assert (Hcont : m1_continuations (entry_meta1_of (nth 0 l [])) = n_continuations n).
  { rewrite E1, <- Hfield. unfold flush_meta1.
    by destruct (exfat_unix2exfat _ _) as [[[? ?] ?] ?], (exfat_unix2exfat _ _) as [[[? ?] ?] ?]. }
  eexists. split.
  - apply (parse_file_entries_step l base n1); rewrite ?Hcont, ?E2.
    + by rewrite Ety.
    + lia.
    + exact Hroom.
    + unfold flush_meta2. cbn [m2_flags]. by destruct (negb _ && _).
    + exact Hi.
    + apply check_node_sane; [exact Hg | | by rewrite Ec, E1 |].
      * destruct Hs. by split.
      * intros E0. unfold init_node_meta2, flush_meta2, init_node_name. cbn in E0 |- *. by rewrite E0.
  - split; try done.
    + by rewrite E2.
    + by rewrite E2.
    + by rewrite E2.
    + by rewrite E2.
    + rewrite E2. unfold init_node_name, init_node_meta2, flush_meta2. cbn. by destruct (negb _ && _).
    + rewrite E2, Hname, El. unfold init_node_name. cbn [n_name set_n_name].
      change (n_name (init_node_meta2 _ n1)) with (n_name zero_node). done.
Qed.
End RoundTrip.

(** C21: What [exfat_flush_node] writes is what the parser reads.  For a node that
    makes sense on its volume, with times of the years 1980 to 2107 in [time_t]: the entries
    of its file, after the fields of the node and the checksum were put into them,
    are accepted without a message and give a node with the same attributes,
    sizes, clusters, times and name. *)
Theorem flush_parse_roundtrip `{Platform} v k n entries offset
  (Hg : geometry_ok (ef_sb (v_ef v))) (Hk : -63 <= k <= 64)
  (Hm : time_ok k (n_mtime n)) (Ha : time_ok k (n_atime n))
  (Hs : node_sane (ef_sb (v_ef v)) n) (He : file_entries n entries) :
  exists n', parse_file_entries (flush_entries (k * 900) n entries)
               (mk_nstate v (set_n_entry_offset offset zero_node)) = Ok 0 (mk_nstate v n') /\
    same_file k n n'.
Proof. by apply roundtrip_spec. Qed.

(** ** The entries of a new file *)

(** The name of a file as the code keeps it: 1 to 255 units that are not zero, and
    zeros up to the end of the array. *)
Record name_ok (name : list Z) : Prop := {
  nm_len : zlen name = EXFAT_NAME_MAX + 1;
  nm_units : Forall (in_u 16) name;
  nm_bound : 1 <= exfat_utf16_length name <= EXFAT_NAME_MAX;
  nm_zero : forall i, exfat_utf16_length name <= i -> znth name i = 0
}.

Lemma name_loop_spec name : zlen name = EXFAT_NAME_MAX + 1 -> Forall (in_u 16) name ->
  forall n i buf, 0 <= i -> (i + Z.of_nat n) * 15 <= zlen name -> zlen buf = zlen name ->
  init_node_name_loop i (name_entries_loop n i name) buf =
  splice buf (i * 15) (sub name (i * 15) (Z.of_nat n * 15)).
Proof.
  intros Hl Hu. induction n as [| n IH]; intros i buf Hi Hn Hb.
  - cbn [name_entries_loop init_node_name_loop]. apply znth_ext.
    + rewrite zlen_splice; rewrite ?zlen_sub; lia.
    + intros j Hj. rewrite znth_splice; rewrite ?zlen_sub; try lia. zcases; lia.
  - cbn [name_entries_loop init_node_name_loop].
    assert (Hs : zlen (sub name (i * 15) 15) = 15) by (apply zlen_sub; lia).
    rewrite entry_name_of_bytes.
    2: { split_and!; [vm_compute; split; discriminate || done | done | by repeat constructor | exact Hs |].
         by apply Forall_take, Forall_drop. }
    cbn [en_name]. change EXFAT_ENAME_MAX with 15.
    rewrite IH; [| lia | lia | rewrite zlen_splice; lia].
    apply znth_ext.
    + rewrite !zlen_splice; rewrite ?zlen_splice, ?zlen_sub; lia.
    + intros j Hj. rewrite !znth_splice; rewrite ?zlen_splice, ?zlen_sub; try lia.
      zcases; rewrite ?znth_sub by lia; try lia; f_equal; lia.
Qed.

Lemma name_entries_count_bounds name : name_ok name ->
  1 <= name_entries_count name <= 17 /\ name_entries_count name * 15 <= 255 /\
  exfat_utf16_length name <= name_entries_count name * 15.
Proof.
  intros [_ _ Hb _]. unfold name_entries_count, EXFAT_NAME_MAX in *. change EXFAT_ENAME_MAX with 15.
  pose proof (DIV_ROUND_UP_spec (exfat_utf16_length name) 15 ltac:(lia)). lia.
Qed.

(** Storing a prefix that holds the whole name into zeros gives the name. *)
Lemma name_in_zeros name n : name_ok name -> exfat_utf16_length name <= n <= zlen name ->
  splice (n_name zero_node) 0 (sub name 0 n) = name.
Proof.
  intros [Hl _ Hb Hz] Hn. assert (Hzl : zlen (n_name zero_node) = zlen name) by (rewrite Hl; reflexivity).
  assert (Hs : zlen (sub name 0 n) = n) by (apply zlen_sub; lia).
  apply znth_ext; [rewrite zlen_splice; lia |]. intros j Hj. rewrite zlen_splice in Hj by lia.
  rewrite znth_splice by lia. rewrite Hs. zcases.
  - rewrite znth_sub by lia. f_equal. lia.
  - rewrite Hz by lia. apply (znth_zrepeat 0 256). unfold EXFAT_NAME_MAX in Hl. lia.
Qed.

Lemma length_name_entries_loop name n : forall i, length (name_entries_loop n i name) = n.
Proof. induction n as [| n IH]; intros i; cbn [name_entries_loop length]; auto. Qed.

(** The entries of a name are name entries. *)
Lemma name_entries_ok name n : zlen name = EXFAT_NAME_MAX + 1 -> Forall (in_u 16) name ->
  forall i, 0 <= i -> (i + Z.of_nat n) * 15 <= 255 ->
  entries_ok (name_entries_loop n i name) /\
  map entry_type (name_entries_loop n i name) = replicate n EXFAT_ENTRY_FILE_NAME.
Proof.
  intros Hl Hu. unfold EXFAT_NAME_MAX in Hl. induction n as [| n IH]; intros i Hi Hn; [by split; [constructor |] |].
  cbn [name_entries_loop map replicate]. destruct (IH (i + 1)) as [I1 I2]; [lia | lia |].
  set (x := {| en_type := _ |}). assert (Hx : entry_name_ok x).
  { split_and!; [vm_compute; split; discriminate || done | done | by repeat constructor | |].
    - apply zlen_sub; change EXFAT_ENAME_MAX with 15; lia.
    - by apply Forall_take, Forall_drop. }
  split.
  - constructor; [split; [by apply zlen_entry_name_bytes | by apply entry_name_bytes_ok] | exact I1].
  - by rewrite I2.
Qed.

Section NewEntries.
Context `{Platform} (k now attrib : Z) (upcase name : list Z).
Context (Hk : -63 <= k <= 64) (Hnow : time_ok k now) (Hattrib : in_u 16 attrib) (Hname : name_ok name).

Lemma name_hash_u16 : in_u 16 (exfat_calc_name_hash upcase name (exfat_utf16_length name)).
Proof.
  unfold exfat_calc_name_hash. generalize (sub name 0 (exfat_utf16_length name)). intros l.
  assert (H0 : in_u 16 0) by (unfold in_u; lia). revert H0. generalize 0.
  induction l as [| u l IH]; intros h Hh; [done |]. cbn [foldl]. apply IH, u16_range.
Qed.

Lemma new_meta_ok (e : env) :
  entry_meta1_ok (new_meta1 (k * 900) now attrib name) /\ entry_meta2_ok (new_meta2 upcase name).
Proof.
  pose proof (unix2exfat_same k now 0 e Hk Hnow) as R. pose proof name_hash_u16 as Hh.
  unfold new_meta1, new_meta2. destruct (exfat_unix2exfat _ now) as [[[d t] c] z].
  clear Hnow. destruct R as (R1 & R2 & R3 & R4 & _). unfold entry_meta1_ok, entry_meta2_ok. cbn.
  split; split_and!; try done; try (unfold in_u in *; lia); try apply u8_range;
    try (vm_compute; split; discriminate || done); by repeat constructor; unfold is_byte; lia.
Qed.

Lemma new_entries_spec (e : env) :
  let m1 := new_meta1 (k * 900) now attrib name in
  let m2 := new_meta2 upcase name in
  let l := new_entries (k * 900) now attrib upcase name in
  exists c, l = entry_meta1_bytes (set_m1_checksum c m1) :: entry_meta2_bytes m2 :: name_entries name /\
    entry_meta1_of (nth 0 l []) = set_m1_checksum c m1 /\ entry_meta2_of (nth 1 l []) = m2 /\
    exfat_calc_checksum l = c /\ entries_ok l /\
    types_valid EXFAT_ENTRY_NONE (map entry_type l) = true.
Proof.
  intros m1 m2 l. destruct (new_meta_ok e) as [O1 O2]. fold m1 in O1. fold m2 in O2.
  destruct (name_entries_count_bounds name Hname) as (B1 & B2 & B3).
  destruct (name_entries_ok name (Z.to_nat (name_entries_count name)) (nm_len _ Hname) (nm_units _ Hname) 0)
    as [N1 N2]; [lia | lia |]. fold (name_entries name) in N1, N2.
  assert (Hr : entries_ok (entry_meta2_bytes m2 :: name_entries name)).
  { constructor; [| done]. split; [by apply zlen_entry_meta2_bytes | by apply entry_meta2_bytes_ok]. }
  destruct (with_checksum_spec m1 _ O1 Hr) as (E & E1 & E2 & E3).
  eexists. split_and!; [exact E | exact E1 | | exact E2 | exact E3 |].
  - unfold l, new_entries. fold m1 m2. rewrite E. by apply entry_meta2_of_bytes.
  - unfold l, new_entries. fold m1 m2. rewrite E. cbn [map]. rewrite N2.
    assert (T1 : entry_type (entry_meta1_bytes (set_m1_checksum (exfat_calc_checksum (entry_meta1_bytes m1 :: entry_meta2_bytes m2 :: name_entries name)) m1)) = EXFAT_ENTRY_FILE).
    { unfold m1, new_meta1. by destruct (exfat_unix2exfat _ _) as [[[? ?] ?] ?]. }
    rewrite T1. change (entry_type (entry_meta2_bytes m2)) with EXFAT_ENTRY_FILE_INFO.
    destruct (Z.to_nat (name_entries_count name)) as [| j] eqn:Ej; [lia |]. cbn [replicate types_valid].
    rewrite !andb_true_iff. split_and!; [done.. |]. clear. induction j as [| j IH]; [done |]. exact IH.
Qed.
(** What the parser makes of the times of the first entry. *)
Lemma init_node_meta1_new (e : env) c node :
  init_node_meta1 (set_m1_checksum c (new_meta1 (k * 900) now attrib name)) node e =
  Ok (set_n_atime (even_second k now) (set_n_mtime now
       (set_n_continuations (1 + name_entries_count name) (set_n_attrib attrib node)))) e.
Proof.
  destruct (name_entries_count_bounds name Hname) as (B1 & B2 & B3).
  pose proof (unix2exfat_same k now (os_timezone e) e Hk Hnow) as R.
  unfold init_node_meta1, new_meta1, set_m1_checksum. destruct (exfat_unix2exfat _ now) as [[[d t] cs] z].
  destruct R as (_ & _ & _ & _ & R1 & R2).
  cbn [m1_attrib m1_continuations m1_mdate m1_mtime m1_mtime_cs m1_mtime_tzo m1_adate m1_atime m1_atime_tzo].
  rewrite (bind_ok (exfat2unix d t cs z) _ e _ _ R1), (bind_ok (exfat2unix d t 0 z) _ e _ _ R2).
  rewrite u8_small by (unfold in_u; lia). done.
Qed.

Lemma new_meta1_continuations c :
  m1_continuations (set_m1_checksum c (new_meta1 (k * 900) now attrib name)) = 1 + name_entries_count name.
Proof.
  destruct (name_entries_count_bounds name Hname) as (B1 & B2 & B3).
  unfold new_meta1. destruct (exfat_unix2exfat _ _) as [[[? ?] ?] ?]. cbn.
  apply u8_small. unfold in_u. lia.
Qed.

(** The parser finds the name. *)
Lemma new_entries_name :
  init_node_name_loop 0 (name_entries name) (n_name zero_node) = name.
Proof.
  destruct (name_entries_count_bounds name Hname) as (B1 & B2 & B3).
  pose proof (nm_len _ Hname) as Hlen. pose proof Hlen as Hlen'. unfold EXFAT_NAME_MAX in Hlen'.
  unfold name_entries. rewrite name_loop_spec; [| done | apply Hname | done | lia | by rewrite Hlen].
  rewrite Z2Nat.id by lia. change (0 * 15) with 0. apply name_in_zeros; [done | lia].
Qed.
End NewEntries.

(** The node that [commit_entry] puts into the tree, less its links. *)
Definition committed_node (l : list exfat_entry) (node : exfat_node) : exfat_node :=
  init_node_meta2 (entry_meta2_of (nth 1 l [])) node.

(** C22: A file that was created is read back as the same node.  For a name of 1 to
    255 units and a time of the years 1980 to 2107 in [time_t]: the entries that [commit_entry]
    writes are accepted, and the parser makes of them the very node that
    [commit_entry] puts into the tree: empty, with the name, the attributes and the
    time that were asked for. *)
Theorem new_entries_roundtrip `{Platform} v k now attrib upcase name offset
  (Hg : geometry_ok (ef_sb (v_ef v))) (Hk : -63 <= k <= 64) (Hnow : time_ok k now)
  (Hattrib : in_u 16 attrib) (Hname : name_ok name) :
  let l := new_entries (k * 900) now attrib upcase name in
  let base := set_n_entry_offset offset zero_node in
  let named := set_n_name (splice (n_name base) 0 (sub name 0 (exfat_utf16_length name))) base in
  exists node, init_node_meta1 (entry_meta1_of (nth 0 l [])) named (v_os v) = Ok node (v_os v) /\
    parse_file_entries l (mk_nstate v base) = Ok 0 (mk_nstate v (committed_node l node)) /\
    n_name (committed_node l node) = name /\ n_attrib (committed_node l node) = attrib /\
    n_mtime (committed_node l node) = now /\ n_size (committed_node l node) = 0 /\
    n_continuations (committed_node l node) = 1 + name_entries_count name.
Proof.
  intros l base named.
  destruct (new_entries_spec k now attrib upcase name Hk Hnow Hattrib Hname (v_os v))
    as (c & El & E1 & E2 & Ec & Eok & Ety). fold l in El, E1, E2, Ec, Eok, Ety.
  destruct (name_entries_count_bounds name Hname) as (B1 & B2 & B3). destruct (nm_bound _ Hname) as [Hlo Hhi].
  pose proof (nm_len _ Hname) as Hlen. unfold EXFAT_NAME_MAX in Hhi, Hlen.
  assert (Hn : n_name named = name) by (apply name_in_zeros; [done | lia]).
  pose proof (fun n => init_node_meta1_new k now attrib name Hk Hnow Hname (v_os v) c n) as Hi.
  rewrite <- E1 in Hi. eexists. split; [apply Hi |].
  pose proof (new_meta1_continuations k now attrib name Hname c) as Hc. rewrite <- E1 in Hc.
  assert (Hlen2 : m2_name_length (entry_meta2_of (nth 1 l [])) = exfat_utf16_length name).
  { rewrite E2. cbn. apply u8_small. unfold in_u. lia. }
  assert (Hcount : DIV_ROUND_UP (m2_name_length (entry_meta2_of (nth 1 l []))) EXFAT_ENAME_MAX =
    name_entries_count name) by (by rewrite Hlen2).
  assert (Hsub : sub l 2 (name_entries_count name) = name_entries name).
  { rewrite El. unfold sub. change (Z.to_nat 2) with 2%nat. cbn [drop]. apply take_ge.
    unfold name_entries. by rewrite length_name_entries_loop. }
  split_and!; [| exact Hn | done | done | by unfold committed_node; rewrite E2 | done].
  set (n1 := set_n_atime _ (set_n_mtime _ (set_n_continuations _ (set_n_attrib _ named)))).
  replace (committed_node l n1) with
    (init_node_name (sub l 2 (DIV_ROUND_UP (m2_name_length (entry_meta2_of (nth 1 l []))) EXFAT_ENAME_MAX))
       (init_node_meta2 (entry_meta2_of (nth 1 l [])) (set_n_name (n_name base) n1))).
  - apply parse_file_entries_step; rewrite ?Hc, ?Hcount, ?E2; try done; try lia.
    apply check_node_sane; [exact Hg | | by rewrite Ec, E1 | done].
    pose proof (CLUSTER_SIZE_range _ Hg). pose proof (go_cluster_count _ Hg). split; cbn; done || nia.
  - rewrite Hcount, Hsub. unfold init_node_name, committed_node, init_node_meta2. cbn -[zrepeat init_node_name_loop].
    f_equal. rewrite new_entries_name by done. by rewrite <- Hn.
Qed.

(** ** The up-case table *)

Lemma zlen_decompress_loop n : forall source oi, (length source <= n)%nat ->
  Forall (in_u 16) source -> 0 <= oi ->
  zlen (decompress_loop source oi) = Z.max 0 (EXFAT_UPCASE_CHARS - oi) /\
  (oi <= EXFAT_UPCASE_CHARS -> Forall (in_u 16) (decompress_loop source oi)).
Proof.
  unfold EXFAT_UPCASE_CHARS. induction n as [| n IH]; intros source oi Hn Hs Hoi;
    (destruct source as [| ch source]; [| cbn [length] in Hn]); cbn [decompress_loop];
    unfold EXFAT_UPCASE_CHARS; destruct (Z.leb_spec 0x10000 oi).
  1, 3, 5, 7: split; [rewrite zlen_nil; lia | constructor].
  1, 3: split; [rewrite zlen_zseq by lia; lia |]; intros _; apply Forall_forall;
    intros x Hx%elem_of_zseq; unfold in_u; lia.
  1: lia.
  apply Forall_cons in Hs as [Hch Hs].
  assert (Hstep : zlen (ch :: decompress_loop source (oi + 1)) = Z.max 0 (0x10000 - oi) /\
    (oi <= 0x10000 -> Forall (in_u 16) (ch :: decompress_loop source (oi + 1)))).
  { destruct (IH source (oi + 1) ltac:(lia) Hs ltac:(lia)) as [I1 I2]. rewrite zlen_cons, I1.
    split; [lia |]. intros _. constructor; [done | apply I2; lia]. }
  destruct source as [| run source]; [exact Hstep |]. destruct (ch =? 0xffff); [| exact Hstep].
  apply Forall_cons in Hs as [Hrun Hs]. cbn [length] in Hn. unfold in_u in Hrun.
  destruct (IH source (oi + run) ltac:(lia) Hs ltac:(lia)) as [I1 I2].
  rewrite zlen_app, zlen_zseq, I1 by lia. split; [lia |]. intros _. apply Forall_app. split.
  - apply Forall_forall. intros x Hx%elem_of_zseq. unfold in_u. lia.
  - destruct (Z.le_gt_cases (oi + run) 0x10000); [by apply I2 |].
    destruct source as [| ch' source]; cbn [decompress_loop]; unfold EXFAT_UPCASE_CHARS;
      (destruct (Z.leb_spec 0x10000 (oi + run)); [constructor | lia]).
Qed.

(** C23: Whatever the compressed up-case table on the medium, runs that point past
    its end included, the table in memory has one 16-bit unit for each of the
    65536 units, so that no lookup of a unit in it is out of bounds. *)
Theorem decompress_upcase_total source (Hs : Forall (in_u 16) source) :
  zlen (decompress_upcase source) = EXFAT_UPCASE_CHARS /\ Forall (in_u 16) (decompress_upcase source).
Proof.
  destruct (zlen_decompress_loop (length source) source 0 ltac:(lia) Hs ltac:(lia)) as [H1 H2].
  split; [exact H1 | by apply H2].
Qed.

Lemma decompress_upcase_total_witness :
  zlen (decompress_upcase [0xffff; 0xfff0; 7; 0xffff; 0xffff]) = EXFAT_UPCASE_CHARS /\
  Forall (in_u 16) (decompress_upcase [0xffff; 0xfff0; 7; 0xffff; 0xffff]).
Proof.
  apply (decompress_upcase_total [0xffff; 0xfff0; 7; 0xffff; 0xffff]).
  repeat constructor; vm_compute; discriminate || done.
Defined.

(** ** Examples on the small volume of Geometry.v *)

#[local] Existing Instance word_le64.

Definition demo_name : list Z := 0x61 :: zrepeat 0 255.
Definition demo_entries : list exfat_entry := new_entries 0 1700000000 EXFAT_ATTRIB_ARCH [] demo_name.

Lemma demo_name_ok : name_ok demo_name.
Proof.
  split.
  - done.
  - apply (bool_decide_unpack (Forall (in_u 16) demo_name)). vm_compute. done.
  - vm_compute. split; discriminate.
  - change (exfat_utf16_length demo_name) with 1. intros i Hi.
    destruct (Z.lt_ge_cases i 256).
    + change demo_name with ([0x61] ++ zrepeat 0 255). rewrite znth_app_r by (zlen_lit; lia).
      apply (znth_zrepeat 0 255). zlen_lit. lia.
    + apply znth_overflow. change (zlen demo_name) with 256. lia.
Qed.

Definition demo_file_node : exfat_node :=
  set_n_name demo_name (set_n_mtime 1700000001 (set_n_atime 1700000003 demo_node)).

Lemma demo_file_entries : file_entries demo_file_node demo_entries.
Proof.
  split.
  - repeat constructor; vm_compute; done.
  - exists [EXFAT_ENTRY_FILE_NAME], []. split_and!; [done | done | by repeat constructor | constructor].
  - done.
  - done.
  - vm_compute. discriminate.
  - vm_compute. done.
Qed.

Lemma demo_file_sane : node_sane demo_sb demo_file_node.
Proof. split; vm_compute; repeat split; discriminate || done. Qed.

Lemma flush_parse_roundtrip_witness :
  exists n', parse_file_entries (flush_entries (0 * 900) demo_file_node demo_entries)
               (mk_nstate demo_vol (set_n_entry_offset 0 zero_node)) = Ok 0 (mk_nstate demo_vol n') /\
    same_file 0 demo_file_node n'.
Proof.
  apply (flush_parse_roundtrip demo_vol 0 demo_file_node demo_entries 0 demo_geometry);
    [lia | vm_compute; split; discriminate || done | vm_compute; split; discriminate || done |
     exact demo_file_sane | exact demo_file_entries].
Defined.

Lemma new_entries_roundtrip_witness :
  let l := new_entries (0 * 900) 1700000000 EXFAT_ATTRIB_ARCH [] demo_name in
  let base := set_n_entry_offset 64 zero_node in
  let named := set_n_name (splice (n_name base) 0 (sub demo_name 0 (exfat_utf16_length demo_name))) base in
  exists node, init_node_meta1 (entry_meta1_of (nth 0 l [])) named demo_os = Ok node demo_os /\
    parse_file_entries l (mk_nstate demo_vol base) = Ok 0 (mk_nstate demo_vol (committed_node l node)) /\
    n_name (committed_node l node) = demo_name /\ n_attrib (committed_node l node) = EXFAT_ATTRIB_ARCH /\
    n_mtime (committed_node l node) = 1700000000 /\ n_size (committed_node l node) = 0 /\
    n_continuations (committed_node l node) = 1 + name_entries_count demo_name.
Proof.
  apply (new_entries_roundtrip demo_vol 0 1700000000 EXFAT_ATTRIB_ARCH [] demo_name 64 demo_geometry);
    [lia | vm_compute; split; discriminate || done | vm_compute; split; discriminate || done |
     exact demo_name_ok].
Defined.
