(* ===== verification/DirTerm.v ===== *)
(** * DirTerm: reading a directory ends (libexfat/node.c, io.c, cluster.c)

    The medium may hold anything: chains with loops, clusters out of range,
    entries of any type; the device may fail at any time.  [readdir] still ends,
    because every turn of its loops moves on in the directory. *)

From Stdlib Require Import ZArith Lia.
From stdpp Require Import base numbers list gmap.
From S2P Require Import Prelude Bytes Monad Ondisk State Checksum Utf Bitmap Geometry Cluster FileIO Utils ExfatTime Entries EntriesSpec.

#[local] Open Scope Z_scope.

Section DirTerm.
Context `{Platform}.

(** What ties a node to the tree. *)
Definition node_links (n : exfat_node) :=
  (n_parent n, n_child n, n_next n, n_prev n, n_references n, n_is_cached n, n_is_unlinked n).

(** What places its entries in the directory. *)
Definition node_entry (n : exfat_node) := (n_name n, n_entry_offset n, n_continuations n).

(** What a step keeps: the super block, the size of the directory and its place in
    the tree; the valid size may grow up to the size. *)
Record same_dir (s s' : nstate) : Prop := {
  sd_sb : ef_sb (s_ef s') = ef_sb (s_ef s);
  sd_size : n_size (s_node s') = n_size (s_node s);
  sd_valid : n_valid_size (s_node s) <= n_valid_size (s_node s') <= Z.max (n_valid_size (s_node s)) (n_size (s_node s));
  sd_attrib : n_attrib (s_node s') = n_attrib (s_node s);
  sd_links : node_links (s_node s') = node_links (s_node s);
  sd_entry : node_entry (s_node s') = node_entry (s_node s);
  sd_upcase : ef_upcase (s_ef s) <> [] -> ef_upcase (s_ef s') = ef_upcase (s_ef s)
}.

#[global] Instance same_dir_preorder : PreOrder same_dir.
Proof.
  split; [by intros s; split; try done; lia |]. intros s1 s2 s3 [A1 A2 A3 A4 A5 A6 A7] [B1 B2 B3 B4 B5 B6 B7].
  split; [by etrans | by etrans | lia | by etrans | by etrans | by etrans |].
  intros Hu. rewrite <- (A7 Hu). apply B7. by rewrite A7.
Qed.

Lemma wpt_on_os {A} (m : M env A) Q s :
  wpt m (fun a e => Q a (set_s_vol (set_v_os e (s_vol s)) s)) (s_os s) -> wpt (on_os m) Q s.
Proof. unfold wpt, on_os, on_part, s_os. cbn. by destruct (m (v_os (s_vol s))). Qed.

(** A computation that always returns and keeps the directory. *)
Definition keeps {A} (m : M nstate A) (s : nstate) : Prop := wpt m (fun _ s' => same_dir s s') s.

Lemma keeps_os {A} (m : M env A) s : (forall e, wpt m (fun _ _ => True) e) -> keeps (on_os m) s.
Proof.
  intros Hm. apply wpt_on_os. eapply wpt_mono; [apply Hm |]. intros a e _. split; try done. cbn. lia.
Qed.

(** Go on after a step that keeps the directory. *)
Lemma wpt_keeps {A B} (m : M nstate A) (f : A -> M nstate B) Q s :
  keeps m s -> (forall a s', same_dir s s' -> wpt (f a) Q s') -> wpt (bind m f) Q s.
Proof. intros Hm Hf. apply wpt_bind. eapply wpt_mono; [exact Hm |]. auto. Qed.

Lemma keeps_error s : keeps (on_os exfat_error) s.
Proof. by apply keeps_os. Qed.

Lemma keeps_pread size off s : keeps (on_os (exfat_pread size off)) s.
Proof. by apply keeps_os. Qed.

Lemma keeps_pwrite data off s : keeps (on_os (exfat_pwrite data off)) s.
Proof. apply keeps_os. intros e. unfold exfat_pwrite, wpt. by destruct (os_wfail _ _ _). Qed.

Lemma keeps_next_cluster c s : keeps (exfat_next_cluster c) s.
Proof.
  unfold keeps, exfat_next_cluster. do 2 wpt_step. repeat wpt_step; try done.
  eapply wpt_mono; [apply keeps_pread |]. intros [] s' Hs; by apply wpt_ret.
Qed.

Lemma keeps_c2o_any ef c s : keeps (exfat_c2o ef c) s.
Proof.
  unfold keeps, exfat_c2o, c2s. do 2 wpt_step; [wpt_step | wpt_step; wpt_step; done].
Qed.

Lemma keeps_set_node f s :
  n_size (f (s_node s)) = n_size (s_node s) -> n_valid_size (f (s_node s)) = n_valid_size (s_node s) ->
  n_attrib (f (s_node s)) = n_attrib (s_node s) -> node_links (f (s_node s)) = node_links (s_node s) ->
  node_entry (f (s_node s)) = node_entry (s_node s) -> keeps (set_node f) s.
Proof. intros E1 E2 E3 E4 E5. apply wpt_modify. split; try done. cbn. lia. Qed.

Lemma keeps_ret {A} (a : A) s : keeps (ret a) s.
Proof. by apply wpt_ret. Qed.

(** Two steps. *)
Lemma keeps_bind {A B} (m : M nstate A) (f : A -> M nstate B) s :
  keeps m s -> (forall a s', same_dir s s' -> keeps (f a) s') -> keeps (bind m f) s.
Proof.
  intros Hm Hf. apply wpt_keeps; [done |]. intros a s' Hs. eapply wpt_mono; [by apply Hf |].
  intros b s'' Hs'. by etrans.
Qed.

Lemma keeps_get {A} (f : nstate -> M nstate A) s : keeps (f s) s -> keeps (bind get_state f) s.
Proof. done. Qed.

Lemma keeps_update_atime s : keeps exfat_update_atime s.
Proof. apply keeps_bind; [by apply keeps_os |]. intros. by apply keeps_set_node. Qed.

Lemma keeps_advance_loop n : forall s, keeps (advance_loop n) s.
Proof.
  induction n as [| n IH]; intros s; cbn [advance_loop]; [apply keeps_ret |]. apply keeps_get.
  apply keeps_bind; [apply keeps_next_cluster |]. intros c s1 _.
  apply keeps_bind; [by apply keeps_set_node |]. intros [] s2 _.
  destruct (CLUSTER_INVALID _ _); [apply keeps_ret | apply IH].
Qed.

Lemma keeps_advance_cluster count s : keeps (exfat_advance_cluster count) s.
Proof.
  unfold exfat_advance_cluster. apply keeps_get. apply keeps_bind.
  { unfold when. destruct (_ <? _); [by apply keeps_set_node | apply keeps_ret]. }
  intros [] s1 _. apply keeps_get. apply keeps_bind; [apply keeps_advance_loop |]. intros [] s2 _.
  apply keeps_bind; [by apply keeps_set_node |]. intros [] s3 _. by apply wpt_gets.
Qed.

(** Every turn of the loop reads at least one byte. *)
Lemma keeps_pread_loop fuel : forall cluster loffset pos remainder buf s,
  remainder <= Z.of_nat fuel -> 0 <= loffset < CLUSTER_SIZE (ef_sb (s_ef s)) ->
  wpt (pread_loop fuel cluster loffset pos remainder buf)
    (fun r s' => same_dir s s' /\ match r.1.1 with Some rc => rc = - EIO | None => r.1.2 = Z.min 0 remainder end) s.
Proof.
  induction fuel as [| fuel IH]; intros cluster loffset pos remainder buf s Hf Hl; cbn [pread_loop];
    destruct (Z.leb_spec remainder 0); try lia; try (apply wpt_ret; split; [done | cbn; lia]).
  apply wpt_bind, wpt_get.
  assert (Herr : forall s1, same_dir s s1 ->
    wpt (on_os exfat_error;; ret (Some (- EIO), remainder, buf))
      (fun r s' => same_dir s s' /\ match r.1.1 with Some rc => rc = - EIO | None => r.1.2 = Z.min 0 remainder end) s1).
  { intros s1 Hs1. apply wpt_keeps; [apply keeps_error |]. intros [] s2 Hs2. apply wpt_ret.
    split; [by etrans | done]. }
  destruct (CLUSTER_INVALID _ _); [by apply Herr |].
  apply wpt_keeps; [apply keeps_c2o_any |]. intros off s1 Hs1.
  apply wpt_keeps; [apply keeps_pread |]. intros [bytes |] s2 Hs2; [| by apply Herr; etrans].
  apply wpt_keeps; [apply keeps_next_cluster |]. intros c s3 Hs3.
  assert (Hs : same_dir s s3) by (do 2 (etrans; [eassumption |]); done).
  set (lsize := Z.min _ _). assert (1 <= lsize <= remainder) by lia.
  eapply wpt_mono; [apply IH; [lia | rewrite (sd_sb _ _ Hs); lia] |].
  intros r s4 [Hs4 Hr]. split; [by etrans |]. destruct r.1.1; [done | lia].
Qed.

(** A number of bytes that a read may return. *)
Definition fits_file (s : nstate) (offset : Z) (n : Z) : Prop :=
  0 <= offset -> 0 < n -> offset + n <= n_size (s_node s).

Definition below64 (n : exfat_node) : Prop := 0 <= n_size n < 2 ^ 64 /\ n_valid_size n < 2 ^ 64.

Definition sizes64 (s : nstate) : Prop := 0 < CLUSTER_SIZE (ef_sb (s_ef s)) /\ below64 (s_node s).

Lemma sizes64_same s s' : same_dir s s' -> sizes64 s -> sizes64 s'.
Proof. intros [E1 E2 E3 _ _ _ _]. unfold sizes64, below64. rewrite E1, E2. lia. Qed.

(** One call of [exfat_generic_pread]; the call of itself, for the valid part, ends
    by hypothesis. *)
Lemma keeps_pread_body again buffer size offset s : sizes64 s -> 0 <= size ->
  (offset < n_valid_size (s_node s) ->
   keeps (again buffer (n_valid_size (s_node s) - offset) offset) s) ->
  wpt (pread_body again buffer size offset)
    (fun r s' => same_dir s s' /\ (r.1 = size -> fits_file s offset r.1)) s.
Proof.
  intros (Hcs & Hsz & Hvs) Hsize Hagain. unfold pread_body. apply wpt_bind, wpt_get.
  destruct (Z.ltb_spec offset 0). { apply wpt_ret. split; [done |]. intros _ Ho. lia. }
  destruct (Z.leb_spec (n_size (s_node s)) offset). { apply wpt_ret. split; [done |]. intros _ _ Hn. cbn in Hn. lia. }
  destruct (Z.eqb_spec size 0). { apply wpt_ret. split; [done |]. intros _ _ Hn. cbn in Hn. lia. }
  set (V := n_valid_size (s_node s)) in *. set (N := n_size (s_node s)) in *.
  destruct (Z.ltb_spec V (u64 (offset + size))) as [Hpast | Hin].
  - apply wpt_bind. eapply wpt_mono with (Q := fun r s' => same_dir s s' /\
      match r with inl r => r.1 <> size | inr _ => True end).
    { destruct (Z.ltb_spec offset V); [| by apply wpt_ret].
      apply wpt_keeps; [by apply Hagain |]. intros [bytes buf] s1 Hs1.
      destruct ((bytes <? 0) || (bytes <? V - offset)) eqn:E; apply wpt_ret; (split; [done |]); [| done].
      cbn. assert (u64 (offset + size) <= offset + size) by (apply Z.mod_le; lia). lia. }
    intros [r | [bytes buf]] s1 [Hs1 Hr].
    + apply wpt_ret. split; [done |]. intros E. by destruct Hr.
    + apply wpt_bind, wpt_get, wpt_ret. split; [done |]. rewrite (sd_size _ _ Hs1). intros E Ho Hn. cbn in *. lia.
  - apply wpt_keeps; [apply keeps_advance_cluster |]. intros cluster s1 Hs1.
    destruct (CLUSTER_INVALID _ _).
    { apply wpt_keeps; [apply keeps_error |]. intros [] s2 Hs2. apply wpt_ret. split; [by etrans |].
      intros E _ Hn. cbn in *. unfold EIO in *. lia. }
    apply wpt_bind. eapply wpt_mono.
    { apply keeps_pread_loop; [lia |]. rewrite (sd_sb _ _ Hs1). by apply Z.mod_pos_bound. }
    intros [[early remainder] buf] s2 [Hs2 Hr]. cbn in Hr.
    assert (Hs : same_dir s s2) by by etrans. destruct early as [rc |].
    + apply wpt_ret. split; [done |]. rewrite Hr. intros E _ Hn. cbn in *. unfold EIO in *. lia.
    + apply wpt_keeps; [destruct (_ && _); [apply keeps_update_atime | apply keeps_ret] |].
      intros [] s3 Hs3. apply wpt_ret. split; [by etrans |]. rewrite Hr. intros E Ho Hn. cbn in *. lia.
Qed.

(** The call for the valid part of a request makes no call of itself. *)
Lemma keeps_pread_inner again buffer offset s : sizes64 s -> 0 <= offset ->
  offset < n_valid_size (s_node s) ->
  keeps (pread_body again buffer (n_valid_size (s_node s) - offset) offset) s.
Proof.
  intros Hs Ho Hlt. pose proof Hs as (_ & _ & Hv).
  assert (E : u64 (offset + (n_valid_size (s_node s) - offset)) = n_valid_size (s_node s)).
  { replace (offset + _) with (n_valid_size (s_node s)) by lia.
    apply u64_small. unfold below64, in_u in *. lia. }
  assert (Heq : pread_body again buffer (n_valid_size (s_node s) - offset) offset s =
    pread_body (fun b _ _ => ret (0, b)) buffer (n_valid_size (s_node s) - offset) offset s).
  { unfold pread_body. rewrite !(bind_ok _ _ _ s s) by done. rewrite E, Z.ltb_irrefl. done. }
  unfold keeps, wpt. rewrite Heq. apply (wpt_mono _ _ _ _ (keeps_pread_body (fun b _ _ => ret (0, b)) buffer
    (n_valid_size (s_node s) - offset) offset s Hs ltac:(lia) (fun _ => keeps_ret _ _))). by intros r s' [? _].
Qed.

Lemma keeps_generic_pread buffer size offset s : sizes64 s -> 0 <= offset -> 0 <= size ->
  wpt (exfat_generic_pread buffer size offset)
    (fun r s' => same_dir s s' /\ (r.1 = size -> fits_file s offset r.1)) s.
Proof.
  intros Hs Ho Hsize. change exfat_generic_pread with (pread_body (pread_body (generic_pread 0))).
  apply keeps_pread_body; [done | done |]. intros Hlt. by apply keeps_pread_inner.
Qed.

Lemma keeps_read_entries n offset s : sizes64 s -> 0 <= offset -> 0 <= n ->
  wpt (read_entries n offset)
    (fun r s' => same_dir s s' /\ (r.1 = 0 -> 0 < n -> offset + ENTRY_SIZE * n <= n_size (s_node s))) s.
Proof.
  intros Hs Ho Hn. unfold read_entries. apply wpt_bind, wpt_get.
  destruct (negb _); [apply wpt_halt |].
  apply wpt_bind. eapply wpt_mono; [apply keeps_generic_pread; [done | done | unfold ENTRY_SIZE; lia] |].
  intros [size buffer] s1 [Hs1 Hfit]. cbn in Hfit.
  destruct (Z.eqb_spec size (ENTRY_SIZE * n)) as [-> |].
  { apply wpt_ret. split; [done |]. intros _ Hpos. apply Hfit; unfold ENTRY_SIZE; lia. }
  destruct (size =? 0); [apply wpt_ret; split; [done |]; cbn; intros E; discriminate E |].
  destruct (size <? 0); [apply wpt_ret; split; [done |]; cbn; intros E; discriminate E |].
  apply wpt_keeps; [apply keeps_error |]. intros [] s2 Hs2. apply wpt_ret.
  split; [by etrans |]. cbn. intros E; discriminate E.
Qed.

(** *** Writing inside of the directory *)

Lemma wpt_pwrite_loop fuel : forall cluster loffset offset size data remainder s,
  remainder <= Z.of_nat fuel -> 0 <= loffset < CLUSTER_SIZE (ef_sb (s_ef s)) ->
  offset + size <= n_size (s_node s) -> 0 <= remainder <= size -> 0 <= offset ->
  keeps (pwrite_loop fuel cluster loffset offset size data remainder) s.
Proof.
  induction fuel as [| fuel IH]; intros cluster loffset offset size data remainder s Hf Hl Hv Hr Ho;
    cbn [pwrite_loop]; destruct (Z.leb_spec remainder 0); try lia; try apply keeps_ret.
  apply keeps_get.
  assert (Herr : forall s1, keeps (on_os exfat_error;; ret (inl (- EIO) : Z + Z)) s1).
  { intros s1. apply keeps_bind; [apply keeps_error |]. intros. apply keeps_ret. }
  destruct (CLUSTER_INVALID _ _); [apply Herr |].
  apply wpt_keeps; [apply keeps_c2o_any |]. intros off s1 Hs1.
  apply wpt_keeps; [apply keeps_pwrite |]. intros ok s2 Hs2.
  assert (Hs12 : same_dir s s2) by by etrans.
  destruct (negb ok). { eapply wpt_mono; [apply Herr |]. intros. by etrans. }
  set (lsize := Z.min _ _). assert (1 <= lsize <= remainder) by lia.
  apply wpt_keeps.
  { apply wpt_modify. pose proof (sd_size _ _ Hs12).
    assert (u64 (offset + size - (remainder - lsize)) <= n_size (s_node s2)).
    { etrans; [apply Z.mod_le; lia | lia]. }
    split; try done. cbn. lia. }
  intros [] s3 Hs3. apply wpt_keeps; [apply keeps_next_cluster |]. intros c s4 Hs4.
  assert (Hs : same_dir s s4) by (do 2 (etrans; [eassumption |]); done).
  eapply wpt_mono; [apply IH; [lia | rewrite (sd_sb _ _ Hs); lia | rewrite (sd_size _ _ Hs); lia | lia | lia] |].
  intros. by etrans.
Qed.

Lemma keeps_pwrite_inside data size offset s : sizes64 s -> 0 <= offset -> 0 <= size ->
  offset + size <= n_size (s_node s) -> keeps (exfat_generic_pwrite data size offset) s.
Proof.
  intros (Hcs & Hsz & Hvs) Ho Hsize Hend. unfold exfat_generic_pwrite. unfold in_u in *.
  zdec. apply keeps_get. zdec. apply wpt_and_then, wpt_ret. cbn [Z.eqb negb]. apply wpt_bind, wpt_get.
  rewrite u64_small by (unfold in_u; lia). zdec.
  apply wpt_and_then, wpt_ret. cbn [Z.eqb negb]. unfold pwrite_body. apply keeps_get.
  destruct (_ =? 0); [apply keeps_ret |].
  apply wpt_keeps; [apply keeps_advance_cluster |]. intros c s1 Hs1.
  destruct (CLUSTER_INVALID _ _).
  { apply wpt_keeps; [apply keeps_error |]. intros [] s2 Hs2. apply wpt_ret. by etrans. }
  apply wpt_keeps.
  { apply wpt_pwrite_loop; [lia | rewrite (sd_sb _ _ Hs1); by apply Z.mod_pos_bound |
      rewrite (sd_size _ _ Hs1); lia | lia | lia]. }
  intros [rc | r] s2 Hs2; [apply wpt_ret; by etrans |]. apply wpt_bind, wpt_get.
  apply wpt_keeps.
  { unfold when. destruct (negb _); [| apply keeps_ret].
    apply keeps_bind; [by apply keeps_os |]. intros. by apply keeps_set_node. }
  intros [] s3 Hs3. apply wpt_ret. do 2 (etrans; [eassumption |]). done.
Qed.

(** *** Repairs *)

Lemma keeps_ask s : keeps (on_vol exfat_ask_to_fix) s.
Proof.
  unfold keeps, on_vol. apply wpt_on_part. unfold exfat_ask_to_fix. apply wpt_bind, wpt_get.
  destruct (ef_repair _); try (apply wpt_ret; by destruct s).
  destruct (ask_loop _) as [yeah rest]. apply wpt_bind, wpt_on_part, wpt_modify, wpt_ret. split; try done. cbn. lia.
Qed.

Lemma keeps_fix_unknown_entry entry offset s : sizes64 s -> 0 <= offset ->
  offset + ENTRY_SIZE <= n_size (s_node s) -> keeps (exfat_fix_unknown_entry entry offset) s.
Proof.
  intros Hs Ho Hend. unfold exfat_fix_unknown_entry.
  apply keeps_bind; [by apply keeps_pwrite_inside |].
  intros size s1 Hs1. destruct (negb _); [apply keeps_ret |].
  apply keeps_bind; [by apply keeps_os |]. intros. apply keeps_ret.
Qed.

(** *** The entries of a file *)

(** A computation on another node keeps the super block and the links. *)
Definition same_sb (s s' : nstate) : Prop :=
  ef_sb (s_ef s') = ef_sb (s_ef s) /\ node_links (s_node s') = node_links (s_node s) /\
  (ef_upcase (s_ef s) <> [] -> ef_upcase (s_ef s') = ef_upcase (s_ef s)).

#[global] Instance same_sb_preorder : PreOrder same_sb.
Proof.
  split; [done |]. intros s1 s2 s3 (A1 & A2 & A3) (B1 & B2 & B3). split_and!; [by etrans | by etrans |].
  intros Hu. rewrite <- (A3 Hu). apply B3. by rewrite A3.
Qed.

Definition keeps_sb {A} (m : M nstate A) (s : nstate) : Prop := wpt m (fun _ s' => same_sb s s') s.

Lemma keeps_sb_bind {A B} (m : M nstate A) (f : A -> M nstate B) s :
  keeps_sb m s -> (forall a s', same_sb s s' -> keeps_sb (f a) s') -> keeps_sb (bind m f) s.
Proof.
  intros Hm Hf. apply wpt_bind. eapply wpt_mono; [exact Hm |]. intros a s' Hs.
  eapply wpt_mono; [by apply Hf |]. intros b s'' Hs'. exact (transitivity Hs Hs').
Qed.

Lemma keeps_sb_of {A} (m : M nstate A) s : keeps m s -> keeps_sb m s.
Proof. intros Hm. eapply wpt_mono; [exact Hm |]. intros a s' []. done. Qed.

Lemma keeps_sb_get {A} (f : nstate -> M nstate A) s : keeps_sb (f s) s -> keeps_sb (bind get_state f) s.
Proof. done. Qed.

Lemma keeps_sb_ret {A} (a : A) s : keeps_sb (ret a) s.
Proof. by apply wpt_ret. Qed.

Lemma keeps_sb_set_node f s : node_links (f (s_node s)) = node_links (s_node s) -> keeps_sb (set_node f) s.
Proof. intros E. by apply wpt_modify. Qed.

Lemma keeps_get_name n s : keeps (exfat_get_name n) s.
Proof.
  unfold keeps, exfat_get_name. destruct (exfat_utf16_to_utf8 _ _ _). destruct (negb _); [apply wpt_halt | apply keeps_ret].
Qed.

Lemma keeps_node_check bad r s :
  wpt (node_check bad r) (fun r' s' => same_dir s s' /\ (r' = true -> bad = false /\ r = true)) s.
Proof.
  unfold node_check. destruct bad; [| by apply wpt_ret]. apply wpt_bind, wpt_get.
  apply wpt_keeps; [apply keeps_get_name |]. intros _ s1 H1.
  apply wpt_keeps; [apply keeps_error |]. intros _ s2 H2. apply wpt_ret. split; [by etrans | done].
Qed.

(** The sizes of a node that was checked. *)
Definition fits64 (n : exfat_node) : Prop := n_valid_size n <= n_size n < 2 ^ 64.

(** A node whose entries were read. *)
Definition node_read (n : exfat_node) : Prop := fits64 n /\ 0 <= n_size n /\ 0 <= n_entry_offset n /\ 2 <= n_continuations n.

Lemma keeps_check_node sum meta1 s :
  wpt (check_node sum meta1) (fun r s' => same_dir s s' /\ (r = true -> fits64 (s_node s'))) s.
Proof.
  unfold check_node. apply wpt_bind, wpt_get, wpt_keeps.
  { destruct (negb _); [| apply keeps_ret].
    apply keeps_bind; [apply keeps_get_name |]. intros _ s1 _.
    apply keeps_bind; [apply keeps_error |]. intros _ s2 _.
    apply keeps_bind; [apply keeps_ask |]. intros [] s3 _; [| apply keeps_ret].
    apply keeps_bind; [by apply keeps_set_node |]. intros _ s4 _.
    apply keeps_bind; [by apply keeps_os |]. intros. apply keeps_ret. }
  intros r s1 H1. apply wpt_bind, wpt_get. set (heap := u64 _).
  apply wpt_bind. eapply wpt_mono; [apply keeps_node_check |]. intros r1 s2 [H2 R1].
  apply wpt_bind. eapply wpt_mono; [apply keeps_node_check |]. intros r2 s3 [H3 R2].
  apply wpt_bind. eapply wpt_mono; [apply keeps_node_check |]. intros r3 s4 [H4 R3].
  apply wpt_bind. eapply wpt_mono; [apply keeps_node_check |]. intros r4 s5 [H5 R4].
  apply wpt_bind. eapply wpt_mono; [apply keeps_node_check |]. intros r5 s6 [H6 R5].
  eapply wpt_mono; [apply keeps_node_check |]. intros r6 s7 [H7 R6].
  assert (Hs : same_dir s1 s7) by (do 5 (etrans; [eassumption |]); done). split; [by etrans |].
  intros E. specialize (R6 E) as [_ E5]. specialize (R5 E5) as [_ E4]. specialize (R4 E4) as [B4 E3].
  specialize (R3 E3) as [_ E2]. specialize (R2 E2) as [_ E1]. specialize (R1 E1) as [B1 _].
  pose proof (u64_range (sb_cluster_count (ef_sb (s_ef s)) * CLUSTER_SIZE (ef_sb (s_ef s)))) as Hh. fold heap in Hh.
  destruct Hs as [_ S2 S3 _ _ _ _]. unfold fits64, in_u in *. lia.
Qed.

Lemma wpt_exfat2unix date time cs tz e : wpt (exfat2unix date time cs tz) (fun _ _ => True) e.
Proof.
  unfold exfat2unix, exfat_exfat2unix, wpt. do 3 (destruct (_ || _) || destruct (_ <? _); [done |]). done.
Qed.

Lemma keeps_sb_error rc s : keeps_sb (on_os exfat_error;; ret rc : M nstate Z) s.
Proof. apply keeps_sb_bind; [apply keeps_sb_of, keeps_error |]. intros. apply keeps_sb_ret. Qed.

Lemma init_node_meta1_links meta1 node e :
  wpt (init_node_meta1 meta1 node) (fun n _ => node_links n = node_links node /\
    n_entry_offset n = n_entry_offset node /\ n_continuations n = m1_continuations meta1) e.
Proof.
  unfold init_node_meta1.
  apply wpt_bind. eapply wpt_mono; [apply wpt_exfat2unix |]. intros ? ? _.
  apply wpt_bind. eapply wpt_mono; [apply wpt_exfat2unix |]. intros ? ? _. done.
Qed.

Lemma keeps_sb_parse entries s : 0 <= n_entry_offset (s_node s) ->
  wpt (parse_file_entries entries) (fun rc s' => same_sb s s' /\ (rc = 0 -> node_read (s_node s'))) s.
Proof.
  intros Ho. unfold parse_file_entries. apply wpt_keeps.
  { apply keeps_os. intros e. unfold wpt. rewrite check_entries_types. by destruct (types_valid _ _). }
  intros ok s1 H1. assert (H1' : same_sb s s1) by (destruct H1; by split).
  destruct (negb ok); [by apply wpt_ret |].
  assert (Herr : wpt (on_os exfat_error;; ret (- EIO) : M nstate Z)
    (fun rc s' => same_sb s s' /\ (rc = 0 -> node_read (s_node s'))) s1).
  { apply wpt_bind. eapply wpt_mono; [apply keeps_sb_of, keeps_error |]. intros [] s2 H2. apply wpt_ret.
    split; [exact (transitivity H1' H2) | done]. }
  destruct (Z.ltb_spec (m1_continuations (entry_meta1_of (nth 0 entries []))) 2) as [| Hcont]; [done |].
  destruct (negb _); [done |]. destruct (_ <? _); [done |]. apply wpt_bind, wpt_get.
  apply wpt_bind, wpt_on_os. eapply wpt_mono; [apply init_node_meta1_links |]. intros node e (Hn & Hno & Hnc).
  apply wpt_bind, wpt_modify.
  set (s2 := set_s_node _ _). assert (H2 : same_sb s1 s2) by (split; [done | split; [exact Hn | done]]).
  assert (E2 : n_entry_offset (s_node s2) = n_entry_offset (s_node s) /\
    n_continuations (s_node s2) = m1_continuations (entry_meta1_of (nth 0 entries [])) /\ 0 <= n_size (s_node s2)).
  { cbn. rewrite Hno, Hnc. pose proof (sd_entry _ _ H1) as E. unfold node_entry in E. split; [congruence | split; [done |]]. apply le_val_range. }
  apply wpt_bind. eapply wpt_mono; [apply keeps_check_node |]. intros ok' s3 [H3 Hok].
  assert (H3' : same_sb s2 s3) by (destruct H3; by split).
  assert (Hs3 : same_sb s s3) by (do 2 (etrans; [eassumption |]); done).
  destruct ok'; apply wpt_ret; (split; [done |]); [| done]. intros _.
  pose proof (sd_entry _ _ H3) as E. unfold node_entry in E. unfold node_read. split; [by apply Hok |].
  destruct E2 as (E2 & E2' & E2''). rewrite (sd_size _ _ H3). split; [exact E2'' |].
  pose proof (f_equal (fun t => t.1.2) E) as E3. pose proof (f_equal snd E) as E4. cbn [fst snd] in E3, E4. lia.
Qed.

Lemma keeps_other_node {A} node (m : M nstate A) (P : A -> exfat_node -> Prop) s :
  (wpt m (fun a s' => same_sb (mk_nstate (s_vol s) node) s' /\ P a (s_node s')) (mk_nstate (s_vol s) node)) ->
  wpt (on_other_node node m) (fun r s' => same_dir s s' /\ node_links r.2 = node_links node /\ P r.1 r.2) s.
Proof.
  intros Hm. unfold wpt, on_other_node in *.
  destruct (m _) as [a s' | |]; [| done | done]. destruct Hm as [(E1 & E2 & E3) HP].
  split; [| split; [exact E2 | exact HP]]. split; try done. cbn. lia.
Qed.

(** The result of [readdir]: a new node, not in the tree, comes with a larger offset. *)
Definition moves_on (offset : Z) (r : Z * option exfat_node * Z) : Prop :=
  match r.1.2 with
  | Some n => r.1.1 = 0 /\ offset + ENTRY_SIZE <= r.2 /\ node_links n = node_links zero_node /\ node_read n
  | None => r.1.1 <> 0
  end.

Definition moves_in (s : nstate) (offset : Z) (r : Z * option exfat_node * Z) : Prop :=
  moves_on offset r /\ (r.1.2 <> None -> offset < n_size (s_node s)).

Lemma keeps_parse_file_entry offset n s : sizes64 s -> 0 <= offset -> 1 <= n ->
  wpt (parse_file_entry offset n) (fun r s' => same_dir s s' /\ moves_in s offset r) s.
Proof.
  intros Hs Ho Hn. unfold parse_file_entry. apply wpt_bind.
  eapply wpt_mono; [apply keeps_read_entries; [done | done | lia] |].
  intros [rc entries] s1 [Hs1 Hr]. cbn in Hr.
  destruct (Z.eqb_spec rc 0) as [-> | Hne]; cbn [negb]; [| by apply wpt_ret].
  apply wpt_bind. eapply wpt_mono with (Q := fun r s' => same_dir s1 s' /\
    match r with Some n => node_links n = node_links zero_node | None => True end).
  { apply wpt_on_os. unfold allocate_node, malloc_ok, bind, wpt.
    destruct (negb (negb _)); cbn; (split; [split; try done; cbn; lia | done]). }
  intros [node |] s2 [Hs2 Hn2]; [| apply wpt_ret; split; [by etrans | done]].
  apply wpt_bind.
  eapply wpt_mono; [apply (keeps_other_node _ _ (fun rc n => rc = 0 -> node_read n)), keeps_sb_parse; exact Ho |].
  intros [rc node'] s3 [Hs3 [Hn3 Hfit]]. cbn in Hn3, Hfit.
  assert (H3 : same_dir s s3) by (do 2 (etrans; [eassumption |]); done).
  destruct (Z.eqb_spec rc 0) as [-> | Hne]; cbn [negb]; apply wpt_ret; (split; [done |]); [| done].
  unfold ENTRY_SIZE in *. split; [cbn; unfold ENTRY_SIZE; split_and!; [done | lia | by etrans | by apply Hfit] |]. intros _. specialize (Hr eq_refl). lia.
Qed.

(** *** The other entries *)

Lemma keeps_set_ef f s : (forall ef, ef_sb (f ef) = ef_sb ef) -> (forall ef, ef_upcase (f ef) = ef_upcase ef) ->
  keeps (on_vol (on_part (modify f))) s.
Proof. intros Hf Hu. apply wpt_on_part, wpt_on_part, wpt_modify. split; try done; cbn; [apply Hf | lia | by intros _; apply Hu]. Qed.

Lemma keeps_err rc s : keeps (on_os exfat_error;; ret rc : M nstate Z) s.
Proof. apply keeps_bind; [apply keeps_error |]. intros. apply keeps_ret. Qed.

Lemma keeps_malloc s : keeps (on_os malloc_ok) s.
Proof. by apply keeps_os. Qed.

(** Steps that leave the structure [exfat] alone. *)
Definition keeps_ef {A} (m : M nstate A) (s : nstate) : Prop :=
  wpt m (fun _ s' => same_dir s s' /\ s_ef s' = s_ef s) s.

Lemma keeps_ef_os {A} (m : M env A) s : (forall e, wpt m (fun _ _ => True) e) -> keeps_ef (on_os m) s.
Proof. intros Hm. apply wpt_on_os. eapply wpt_mono; [apply Hm |]. intros a e _. split; [| done]. split; try done. cbn. lia. Qed.

Lemma keeps_ef_c2o ef c s : keeps_ef (exfat_c2o ef c) s.
Proof. unfold keeps_ef, exfat_c2o, c2s. do 2 wpt_step; [wpt_step | wpt_step; wpt_step; done]. Qed.

Lemma wpt_keeps_ef {A B} (m : M nstate A) (f : A -> M nstate B) Q s0 s :
  keeps_ef m s -> same_dir s0 s /\ s_ef s = s_ef s0 ->
  (forall a s', same_dir s0 s' /\ s_ef s' = s_ef s0 -> wpt (f a) Q s') -> wpt (bind m f) Q s.
Proof.
  intros Hm [H1 H2] Hf. apply wpt_bind. eapply wpt_mono; [exact Hm |]. intros a s' [H3 H4].
  apply Hf. split; by etrans.
Qed.

Lemma keeps_read_upcase entry s : keeps (read_upcase entry) s.
Proof.
  unfold read_upcase. apply keeps_get. case_bool_decide as Hu; cbn [negb]; [| apply keeps_ret].
  destruct (CLUSTER_INVALID _ _); [apply keeps_err |]. destruct (_ || _ || _); [apply keeps_err |].
  assert (Herr : forall rc s1, same_dir s s1 /\ s_ef s1 = s_ef s ->
    wpt (on_os exfat_error;; ret rc : M nstate Z) (fun _ s' => same_dir s s') s1).
  { intros rc s1 [Hs1 _]. eapply wpt_mono; [apply keeps_err |]. intros. by etrans. }
  eapply (wpt_keeps_ef _ _ _ s); [by apply keeps_ef_os | done |]. intros ok s1 H1. destruct (negb ok); [by apply Herr |].
  eapply (wpt_keeps_ef _ _ _ s); [apply keeps_ef_c2o | done |]. intros off s2 H2.
  eapply (wpt_keeps_ef _ _ _ s); [by apply keeps_ef_os | done |]. intros [comp |] s3 H3; [| by apply Herr].
  eapply (wpt_keeps_ef _ _ _ s); [by apply keeps_ef_os | done |]. intros ok' s4 H4. destruct (negb ok'); [by apply Herr |].
  apply wpt_bind, wpt_on_part, wpt_on_part, wpt_modify, wpt_ret. destruct H4 as [[] E4].
  by split.
Qed.

Lemma keeps_read_bitmap entry s : keeps (read_bitmap entry) s.
Proof.
  unfold read_bitmap. apply keeps_bind; [by apply keeps_set_ef |]. intros _ s1 _. apply keeps_get.
  destruct (CLUSTER_INVALID _ _); [apply keeps_err |].
  apply keeps_bind; [by apply keeps_set_ef |]. intros _ s2 _. destruct (_ <? _); [apply keeps_err |].
  apply keeps_bind; [by apply keeps_set_ef |]. intros _ s3 _.
  apply keeps_bind; [apply keeps_malloc |]. intros ok s4 _. destruct (negb ok).
  { apply keeps_bind; [by apply keeps_set_ef |]. intros. apply keeps_err. }
  apply keeps_bind; [by apply keeps_set_ef |]. intros _ s5 _.
  apply keeps_bind; [apply keeps_c2o_any |]. intros off s6 _.
  apply keeps_bind; [apply keeps_pread |]. intros [chunk |] s7 _; [| apply keeps_err].
  apply keeps_bind; [by apply keeps_set_ef |]. intros. apply keeps_ret.
Qed.

Lemma keeps_read_label entry s : keeps (read_label entry) s.
Proof.
  unfold read_label. destruct (_ <? _); [apply keeps_err |].
  destruct (exfat_utf16_to_utf8 _ _ _) as [rc output].
  apply keeps_bind; [by apply keeps_set_ef |]. intros _ s1 _. destruct (negb _); apply keeps_ret.
Qed.

Lemma keeps_read_other entry offset s : sizes64 s -> 0 <= offset ->
  offset + ENTRY_SIZE <= n_size (s_node s) -> keeps (read_other entry offset) s.
Proof.
  intros Hs Ho Hend. unfold read_other.
  destruct (_ =? EXFAT_ENTRY_UPCASE); [apply keeps_read_upcase |].
  destruct (_ =? EXFAT_ENTRY_BITMAP); [apply keeps_read_bitmap |].
  destruct (_ =? EXFAT_ENTRY_LABEL); [apply keeps_read_label |]. destruct (_ =? 0); [apply keeps_ret |].
  apply keeps_bind; [apply keeps_error |]. intros _ s1 Hs1. apply keeps_bind.
  - apply keeps_bind; [apply keeps_ask |]. intros [] s2 Hs2; [| apply keeps_ret].
    assert (H2 : same_dir s s2) by by etrans.
    apply keeps_fix_unknown_entry; [by eapply sizes64_same | done | by rewrite (sd_size _ _ H2)].
  - intros [] s2 _; apply keeps_ret.
Qed.

Lemma keeps_readdir_loop fuel : forall offset s, sizes64 s -> 0 <= offset ->
  n_size (s_node s) - offset < ENTRY_SIZE * Z.of_nat fuel -> (offset <= n_size (s_node s) \/ (0 < fuel)%nat) ->
  wpt (readdir_loop fuel offset) (fun r s' => same_dir s s' /\ moves_in s offset r) s.
Proof.
  unfold ENTRY_SIZE. induction fuel as [| fuel IH]; intros offset s Hs Ho Hf Hor; [lia |]. cbn [readdir_loop].
  apply wpt_bind. eapply wpt_mono; [apply keeps_read_entries; [done | done | lia] |].
  intros [rc entries] s1 [Hs1 Hr]. cbn in Hr. unfold ENTRY_SIZE in Hr.
  destruct (Z.eqb_spec rc 0) as [-> | Hne]; cbn [negb]; [| by apply wpt_ret].
  specialize (Hr eq_refl ltac:(lia)). pose proof (sizes64_same _ _ Hs1 Hs) as Hz1.
  pose proof (sd_size _ _ Hs1) as Hsz1.
  destruct (_ =? EXFAT_ENTRY_FILE).
  { eapply wpt_mono; [apply keeps_parse_file_entry; [done | done |] |].
    - pose proof (u8_range (m1_continuations (entry_meta1_of (nth 0 entries [])))). unfold in_u in *. lia.
    - intros r s2 [Hs2 [Hm Hin]]. split; [by etrans |]. split; [done |]. by rewrite <- Hsz1. }
  apply wpt_bind. eapply wpt_mono.
  { apply keeps_read_other; [done | done |]. unfold ENTRY_SIZE. lia. }
  intros rc s2 Hs2. assert (H2 : same_dir s s2) by by etrans.
  destruct (Z.eqb_spec rc 0) as [-> | Hne]; cbn [negb]; [| by apply wpt_ret].
  pose proof (sd_size _ _ H2) as Hsz2. unfold ENTRY_SIZE.
  eapply wpt_mono; [apply IH; [by eapply sizes64_same | lia | lia | left; lia] |].
  intros [[rc node] o] s3 [Hs3 [Hm Hin]]. unfold moves_in, moves_on in *. cbn in *. split; [by etrans |].
  rewrite Hsz2 in Hin. unfold ENTRY_SIZE in *. destruct node; [| by split]. split; [split_and!; (tauto || lia) |]. intros Hn. specialize (Hin Hn). lia.
Qed.

Lemma readdir_spec offset s : sizes64 s -> 0 <= offset ->
  wpt (readdir offset) (fun r s' => same_dir s s' /\ moves_in s offset r) s.
Proof.
  intros Hs Ho. unfold readdir. apply wpt_bind, wpt_get. pose proof Hs as (_ & Hsz & _).
  pose proof (DIV_ROUND_UP_spec (n_size (s_node s)) ENTRY_SIZE ltac:(done)) as Hd.
  apply keeps_readdir_loop; try done; [unfold ENTRY_SIZE in *; lia | right; lia].
Qed.
End DirTerm.

(** C25: Reading the next entry of a directory ends on every medium.  Whatever the
    entries, the chains of clusters and the failures of the device are: [readdir]
    returns or reports a bug, it does not loop and uses no bad pointer; when it returns a node, it has
    moved on in the directory, from an offset inside of it; and it changes neither
    the super block nor the size of the directory. *)
Theorem readdir_ends `{Platform} offset s (Hcs : 0 < CLUSTER_SIZE (ef_sb (s_ef s)))
  (Hsize : in_u 64 (n_size (s_node s))) (Hvalid : in_u 64 (n_valid_size (s_node s))) (Ho : 0 <= offset) :
  wpt (readdir offset)
    (fun r s' => ef_sb (s_ef s') = ef_sb (s_ef s) /\ n_size (s_node s') = n_size (s_node s) /\
       match r.1.2 with
       | Some _ => r.1.1 = 0 /\ offset + ENTRY_SIZE <= r.2 /\ offset < n_size (s_node s)
       | None => r.1.1 <> 0
       end) s.
Proof.
  eapply wpt_mono; [apply readdir_spec; [unfold sizes64, below64, in_u in *; lia | exact Ho] |].
  intros [[rc node] offset'] s' [[S1 S2 _ _ _ _ _] [Hm Hin]]. split_and!; [done | done |].
  unfold moves_on in Hm. cbn [fst snd] in *. destruct node; [| done].
  destruct Hm as (? & ? & _). split_and!; [done | done | by apply Hin].
Qed.

#[local] Existing Instance word_le64.

(** The small file of Geometry.v, taken for a directory: its bytes are no entries. *)
Definition demo_dir_state : nstate := mk_nstate demo_vol (set_n_attrib EXFAT_ATTRIB_DIR demo_node).

Lemma readdir_ends_witness :
  wpt (readdir 0)
    (fun r s' => ef_sb (s_ef s') = demo_sb /\ n_size (s_node s') = 600 /\
       match r.1.2 with
       | Some _ => r.1.1 = 0 /\ 0 + ENTRY_SIZE <= r.2 /\ 0 < 600
       | None => r.1.1 <> 0
       end) demo_dir_state.
Proof. by apply (readdir_ends 0 demo_dir_state). Defined.
