(* ===== verification/NodeTerm.v ===== *)
(** * NodeTerm: changing a node is safe (libexfat/cluster.c, io.c, node.c)

    Truncating, writing and flushing end on every medium, whatever the chains of
    clusters and the failures of the device are: they return or stop the process
    with [exfat_bug].  They keep the super block, the links of the node in the tree,
    its references and its name. *)

From Stdlib Require Import ZArith Lia.
From stdpp Require Import base numbers list gmap.
From S2P Require Import Prelude Bytes Monad Ondisk State Checksum Utf Bitmap Geometry Cluster FileIO Utils ExfatTime Entries EntriesSpec DirTerm.

#[local] Open Scope Z_scope.

Section NodeTerm.
Context `{Platform}.

(** What every operation on a node keeps. *)
Record stays (s s' : nstate) : Prop := {
  st_sb : ef_sb (s_ef s') = ef_sb (s_ef s);
  st_upcase : ef_upcase (s_ef s) <> [] -> ef_upcase (s_ef s') = ef_upcase (s_ef s);
  st_links : node_links (s_node s') = node_links (s_node s);
  st_attrib : n_attrib (s_node s') = n_attrib (s_node s);
  st_entry : node_entry (s_node s') = node_entry (s_node s);
  st_below : below64 (s_node s) -> below64 (s_node s')
}.

#[global] Instance stays_preorder : PreOrder stays.
Proof.
  split; [by intros s; split |]. intros s1 s2 s3 [A1 A2 A3 A4 A5 A6] [B1 B2 B3 B4 B5 B6].
  split; [by etrans | | by etrans | by etrans | by etrans | auto].
  intros Hu. rewrite <- (A2 Hu). apply B2. by rewrite A2.
Qed.

Lemma same_dir_stays s s' : same_dir s s' -> stays s s'.
Proof. intros [A1 A2 A3 A4 A5 A6 A7]. split; try done. unfold below64. rewrite A2. lia. Qed.

(** A computation that is safe and keeps all this. *)
Definition steady {A} (m : M nstate A) (s : nstate) : Prop := wpt m (fun _ s' => stays s s') s.

Lemma steady_keeps {A} (m : M nstate A) s : keeps m s -> steady m s.
Proof. intros Hm. eapply wpt_mono; [exact Hm |]. intros a s'. apply same_dir_stays. Qed.

Lemma steady_ret {A} (a : A) s : steady (ret a) s.
Proof. by apply wpt_ret. Qed.

Lemma steady_bug {A} s : steady (exfat_bug : M nstate A) s.
Proof. apply wpt_halt. Qed.

Lemma steady_bind {A B} (m : M nstate A) (f : A -> M nstate B) s :
  steady m s -> (forall a s', stays s s' -> steady (f a) s') -> steady (bind m f) s.
Proof.
  intros Hm Hf. apply wpt_bind. eapply wpt_mono; [exact Hm |]. intros a s' Hs.
  eapply wpt_mono; [by apply Hf |]. intros b s'' Hs'. exact (transitivity Hs Hs').
Qed.

Lemma steady_get {A} (f : nstate -> M nstate A) s : steady (f s) s -> steady (bind get_state f) s.
Proof. done. Qed.

Lemma steady_and_then (m k : M nstate Z) s :
  steady m s -> (forall s', stays s s' -> steady k s') -> steady (and_then m k) s.
Proof. intros Hm Hk. apply steady_bind; [done |]. intros rc s' Hs. destruct (negb _); [apply steady_ret | by apply Hk]. Qed.

Lemma steady_set_node f s :
  node_links (f (s_node s)) = node_links (s_node s) -> n_attrib (f (s_node s)) = n_attrib (s_node s) ->
  node_entry (f (s_node s)) = node_entry (s_node s) -> (below64 (s_node s) -> below64 (f (s_node s))) ->
  steady (set_node f) s.
Proof. intros. by apply wpt_modify. Qed.

Lemma steady_err rc s : steady (on_os exfat_error;; ret rc : M nstate Z) s.
Proof. apply steady_keeps, keeps_err. Qed.

(** *** The volume *)

(** A computation on the volume that keeps the super block and the up-case table. *)
Definition vsteady {A} (m : M vol A) : Prop :=
  forall v, wpt m (fun _ v' => ef_sb (v_ef v') = ef_sb (v_ef v) /\ ef_upcase (v_ef v') = ef_upcase (v_ef v)) v.

Lemma steady_vol {A} (m : M vol A) s : vsteady m -> steady (on_vol m) s.
Proof.
  intros Hm. apply wpt_on_part. eapply wpt_mono; [apply Hm |]. intros a v [E1 E2]. split; try done.
Qed.

Lemma vsteady_ret {A} (a : A) : vsteady (ret a).
Proof. intros v. by apply wpt_ret. Qed.

Lemma vsteady_bind {A B} (m : M vol A) (f : A -> M vol B) : vsteady m -> (forall a, vsteady (f a)) -> vsteady (bind m f).
Proof.
  intros Hm Hf v. apply wpt_bind. eapply wpt_mono; [apply Hm |]. intros a v1 [E1 E2].
  eapply wpt_mono; [apply Hf |]. intros b v2 [E3 E4]. split; congruence.
Qed.

Lemma vsteady_get {A} (f : vol -> M vol A) : (forall v, vsteady (f v)) -> vsteady (bind get_state f).
Proof. intros Hf v. apply wpt_bind, wpt_get, Hf. Qed.

Lemma vsteady_os {A} (m : M env A) : (forall e, wpt m (fun _ _ => True) e) -> vsteady (on_part m).
Proof. intros Hm v. apply wpt_on_part. eapply wpt_mono; [apply Hm |]. done. Qed.

Lemma vsteady_set f : (forall v, ef_sb (v_ef (f v)) = ef_sb (v_ef v)) -> (forall v, ef_upcase (v_ef (f v)) = ef_upcase (v_ef v)) ->
  vsteady (modify f).
Proof. intros H1 H2 v. by apply wpt_modify. Qed.

Lemma wpt_pwrite data off e : wpt (exfat_pwrite data off) (fun _ _ => True) e.
Proof. unfold exfat_pwrite, wpt. by destruct (os_wfail _ _ _). Qed.

Lemma vsteady_set_next c current next : vsteady (set_next_cluster c current next).
Proof.
  apply vsteady_get; intros v; cbv beta zeta. destruct c; [apply vsteady_ret |].
  apply vsteady_bind; [apply vsteady_os; intros; apply wpt_pwrite |]. intros ok.
  destruct (negb ok); [| apply vsteady_ret]. apply vsteady_bind; [by apply vsteady_os |]. intros. apply vsteady_ret.
Qed.

Lemma vsteady_allocate hint : vsteady (allocate_cluster hint).
Proof.
  apply vsteady_get; intros v; cbv beta zeta. destruct (find_bit_and_set _ _ _) as [c chunk].
  destruct (if c =? EXFAT_CLUSTER_END then _ else _) as [c' chunk']. destruct (_ =? _).
  - apply vsteady_bind; [by apply vsteady_os |]. intros. apply vsteady_ret.
  - apply vsteady_bind; [by apply vsteady_set |]. intros. apply vsteady_ret.
Qed.

Lemma vsteady_free c : vsteady (free_cluster c).
Proof. apply vsteady_get; intros v; cbv beta zeta. destruct (_ <=? _); [intros ?; apply wpt_halt | by apply vsteady_set]. Qed.

Lemma vsteady_noncontiguous n : forall c, vsteady (make_noncontiguous_loop n c).
Proof.
  induction n as [| n IH]; intros c; cbn [make_noncontiguous_loop]; [apply vsteady_ret |].
  apply vsteady_bind; [apply vsteady_set_next |]. intros ok. destruct (negb ok); [apply vsteady_ret | apply IH].
Qed.

Lemma vsteady_erase_raw size off : vsteady (erase_raw size off).
Proof.
  apply vsteady_bind; [apply vsteady_os; intros; apply wpt_pwrite |]. intros ok.
  destruct (negb ok); [| apply vsteady_ret]. apply vsteady_bind; [by apply vsteady_os |]. intros. apply vsteady_ret.
Qed.

Lemma vsteady_flush : vsteady exfat_flush.
Proof.
  apply vsteady_get; intros v; cbv beta zeta. destruct (ef_cmap_dirty _); [| apply vsteady_ret]. apply vsteady_bind.
  { intros v1. unfold exfat_c2o, c2s. apply wpt_bind, wpt_if; intros; [apply wpt_halt |]. by apply wpt_ret, wpt_ret. }
  intros off. apply vsteady_bind; [apply vsteady_os; intros; apply wpt_pwrite |]. intros ok.
  destruct (negb ok).
  - apply vsteady_bind; [by apply vsteady_os |]. intros. apply vsteady_ret.
  - apply vsteady_bind; [by apply vsteady_set |]. intros. apply vsteady_ret.
Qed.

(** *** Truncating *)

Lemma steady_next_cluster c s : steady (exfat_next_cluster c) s.
Proof. apply steady_keeps, keeps_next_cluster. Qed.

Lemma steady_free_loop n : forall c s, steady (free_loop n c) s.
Proof.
  induction n as [| n IH]; intros c s; cbn [free_loop]; [apply steady_ret |]. apply steady_get; cbv beta zeta.
  destruct (CLUSTER_INVALID _ _); [apply steady_err |].
  apply steady_bind; [apply steady_next_cluster |]. intros next s1 _.
  apply steady_bind; [apply steady_vol, vsteady_set_next |]. intros ok s2 _. destruct (negb ok); [apply steady_ret |].
  apply steady_bind; [apply steady_vol, vsteady_free |]. intros _ s3 _. apply IH.
Qed.

Lemma steady_shrink current difference s : steady (shrink_file current difference) s.
Proof.
  apply steady_get; cbv beta zeta. do 3 (destruct (_ =? _) || destruct (_ <? _); [apply steady_bug |]).
  apply steady_bind.
  { destruct (_ <? _).
    - apply steady_bind; [apply steady_keeps, keeps_advance_cluster |]. intros last s1 _.
      destruct (CLUSTER_INVALID _ _).
      { apply steady_bind; [apply steady_keeps, keeps_error |]. intros. apply steady_ret. }
      apply steady_bind; [apply steady_next_cluster |]. intros previous s2 _.
      apply steady_bind; [apply steady_vol, vsteady_set_next |]. intros ok s3 _. destruct (negb ok); apply steady_ret.
    - apply steady_bind; [by apply steady_set_node |]. intros. apply steady_ret. }
  intros [previous | rc] s1 _; [| apply steady_ret].
  apply steady_bind; [by apply steady_set_node |]. intros _ s2 _. apply steady_free_loop.
Qed.

Lemma steady_grow_loop n : forall current previous allocated s, steady (grow_loop n current previous allocated) s.
Proof.
  induction n as [| n IH]; intros current previous allocated s; cbn [grow_loop]; apply steady_get; cbv beta zeta.
  { apply steady_bind; [apply steady_vol, vsteady_set_next |]. intros. apply steady_ret. }
  apply steady_bind; [apply steady_vol, vsteady_allocate |]. intros next s1 _.
  destruct (CLUSTER_INVALID _ _).
  { apply steady_bind; [| intros; apply steady_ret]. destruct (negb _); [| apply steady_ret].
    apply steady_bind; [apply steady_shrink |]. intros. apply steady_ret. }
  apply steady_bind.
  { destruct (_ && _); [| apply steady_ret].
    apply steady_bind; [apply steady_vol, vsteady_noncontiguous |]. intros ok s2 _. destruct (negb ok); [apply steady_ret |].
    apply steady_bind; [by apply steady_set_node |]. intros. apply steady_ret. }
  intros ok s2 _. destruct (negb ok); [apply steady_ret |]. apply steady_get; cbv beta zeta.
  apply steady_bind; [apply steady_vol, vsteady_set_next |]. intros ok' s3 _.
  destruct (negb ok'); [apply steady_ret | apply IH].
Qed.

Lemma steady_grow current difference s : steady (grow_file current difference) s.
Proof.
  unfold grow_file. destruct (_ =? 0); [apply steady_bug |]. apply steady_get; cbv beta zeta. destruct (negb _).
  - apply steady_bind; [apply steady_keeps, keeps_advance_cluster |]. intros previous s1 _.
    destruct (CLUSTER_INVALID _ _); [apply steady_err | apply steady_grow_loop].
  - destruct (negb _); [apply steady_bug |].
    apply steady_bind; [apply steady_vol, vsteady_allocate |]. intros previous s1 _.
    destruct (CLUSTER_INVALID _ _); [apply steady_ret |].
    apply steady_bind; [by apply steady_set_node |]. intros. apply steady_grow_loop.
Qed.

Lemma steady_erase_loop n : forall c s, steady (erase_loop n c) s.
Proof.
  induction n as [| n IH]; intros c s; cbn [erase_loop]; [apply steady_ret |].
  apply steady_bind; [apply steady_next_cluster |]. intros c' s1 _. apply steady_get; cbv beta zeta.
  destruct (CLUSTER_INVALID _ _); [apply steady_bug |].
  apply steady_bind; [apply steady_keeps, keeps_c2o_any |]. intros off s2 _.
  apply steady_bind; [apply steady_vol, vsteady_erase_raw |]. intros ok s3 _.
  destruct (negb ok); [apply steady_ret | apply IH].
Qed.

Lemma steady_erase_range b e s : steady (erase_range b e) s.
Proof.
  unfold erase_range. destruct (_ <=? _); [apply steady_ret |]. apply steady_get; cbv beta zeta.
  apply steady_bind; [apply steady_keeps, keeps_advance_cluster |]. intros c s1 _.
  destruct (CLUSTER_INVALID _ _); [apply steady_err |].
  apply steady_bind; [apply steady_keeps, keeps_c2o_any |]. intros off s2 _.
  apply steady_bind; [apply steady_vol, vsteady_erase_raw |]. intros ok s3 _.
  destruct (negb ok); [apply steady_ret | apply steady_erase_loop].
Qed.

Lemma steady_update_mtime s : steady exfat_update_mtime s.
Proof.
  apply steady_bind; [by apply steady_keeps, keeps_os |]. intros. by apply steady_set_node.
Qed.

Lemma steady_truncate size erase s : 0 <= size < 2 ^ 64 -> steady (exfat_truncate size erase) s.
Proof.
  intros Hsize. apply steady_get; cbv beta zeta. destruct (_ && _); [apply steady_bug |]. destruct (_ =? _); [apply steady_ret |].
  apply steady_and_then.
  { destruct (_ <? _); [apply steady_grow |]. destruct (_ <? _); [apply steady_shrink | apply steady_ret]. }
  intros s1 _. apply steady_and_then.
  { destruct erase.
    - apply steady_get; cbv beta zeta. apply steady_and_then; [apply steady_erase_range |]. intros s2 _.
      apply steady_bind; [apply steady_set_node; try done; unfold below64; cbn; lia |]. intros. apply steady_ret.
    - apply steady_bind; [apply steady_set_node; try done; unfold below64; cbn; lia |]. intros. apply steady_ret. }
  intros s2 _. apply steady_bind; [apply steady_update_mtime |]. intros _ s3 _.
  apply steady_bind; [apply steady_set_node; try done; unfold below64; cbn; lia |]. intros. apply steady_ret.
Qed.

(** *** Reading and writing *)

Lemma stays_sizes64 s s' : stays s s' -> sizes64 s -> sizes64 s'.
Proof. intros [E _ _ _ _ Hb] [Hc Hs]. split; [by rewrite E | auto]. Qed.

Lemma steady_pread buffer size offset s : sizes64 s -> 0 <= size -> steady (exfat_generic_pread buffer size offset) s.
Proof.
  intros Hs Hsize. destruct (Z.ltb_spec offset 0) as [Ho | Ho].
  - change exfat_generic_pread with (pread_body (pread_body (generic_pread 0))).
    unfold pread_body at 1. apply steady_get; cbv beta zeta. rewrite (proj2 (Z.ltb_lt offset 0) Ho). apply steady_ret.
  - eapply wpt_mono; [by apply keeps_generic_pread |]. intros r s' [Hs' _]. by apply same_dir_stays.
Qed.

Lemma steady_pwrite_loop fuel : forall cluster loffset offset size data remainder s,
  remainder <= Z.of_nat fuel -> 0 <= loffset < CLUSTER_SIZE (ef_sb (s_ef s)) ->
  0 <= remainder -> steady (pwrite_loop fuel cluster loffset offset size data remainder) s.
Proof.
  induction fuel as [| fuel IH]; intros cluster loffset offset size data remainder s Hf Hl Hr;
    cbn [pwrite_loop]; destruct (Z.leb_spec remainder 0); try lia; try apply steady_ret.
  apply steady_get; cbv beta zeta.
  assert (Herr : forall s1, steady (on_os exfat_error;; ret (inl (- EIO) : Z + Z)) s1).
  { intros s1. apply steady_bind; [apply steady_keeps, keeps_error |]. intros. apply steady_ret. }
  destruct (CLUSTER_INVALID _ _); [apply Herr |].
  apply steady_bind; [apply steady_keeps, keeps_c2o_any |]. intros off s1 Hs1.
  apply steady_bind; [apply steady_keeps, keeps_pwrite |]. intros ok s2 Hs2.
  destruct (negb ok); [apply Herr |].
  set (lsize := Z.min _ _). assert (1 <= lsize <= remainder) by lia.
  apply steady_bind.
  { apply steady_set_node; try done. pose proof (u64_range (offset + size - (remainder - lsize))) as Hu.
    unfold below64, in_u in *. cbn. lia. }
  intros _ s3 Hs3.
  apply steady_bind; [apply steady_next_cluster |]. intros c s4 Hs4.
  assert (Hs : stays s s4) by (do 3 (etrans; [eassumption |]); done).
  apply IH; [lia | rewrite (st_sb _ _ Hs); lia | lia].
Qed.

Lemma steady_pwrite data size offset s : sizes64 s -> 0 <= size -> offset < 2 ^ 64 ->
  steady (exfat_generic_pwrite data size offset) s.
Proof.
  intros Hs Hsize Hend. unfold exfat_generic_pwrite. destruct (_ <? 0) eqn:Ho; [apply steady_ret |].
  apply Z.ltb_ge in Ho. apply steady_get. apply steady_and_then.
  { destruct (_ <? _); [apply steady_truncate; lia | apply steady_ret]. }
  intros s1 Hs1. apply steady_get. apply steady_and_then.
  { destruct (_ <? _); [| apply steady_ret]. apply steady_truncate.
    pose proof (u64_range (offset + size)) as Hu. unfold in_u in Hu. lia. }
  intros s2 Hs2. unfold pwrite_body. apply steady_get; cbv beta zeta. destruct (_ =? 0); [apply steady_ret |].
  assert (Hc2 : 0 < CLUSTER_SIZE (ef_sb (s_ef s2))) by (rewrite (st_sb _ _ Hs2), (st_sb _ _ Hs1); apply Hs).
  apply steady_bind; [apply steady_keeps, keeps_advance_cluster |]. intros c s3 Hs3.
  destruct (CLUSTER_INVALID _ _); [apply steady_err |].
  apply steady_bind.
  { apply steady_pwrite_loop; [lia | rewrite (st_sb _ _ Hs3); by apply Z.mod_pos_bound | lia]. }
  intros [rc | r] s4 _; [apply steady_ret |]. apply steady_get; cbv beta zeta.
  apply steady_bind; [destruct (negb _); [apply steady_update_mtime | apply steady_ret] |]. intros. apply steady_ret.
Qed.

(** *** Entries *)

Lemma zlen_entries_of n : forall buffer, zlen (entries_of n buffer) = Z.of_nat n.
Proof. induction n as [| n IH]; intros buffer; cbn [entries_of]; [done |]. rewrite zlen_cons, IH. lia. Qed.

(** What was read lies in the directory; the number of entries is what was asked for. *)
Lemma wpt_read_entries n offset s : sizes64 s -> 0 <= offset -> 1 <= n ->
  wpt (read_entries n offset)
    (fun r s' => same_dir s s' /\ (r.1 = 0 -> zlen r.2 = n /\ offset + ENTRY_SIZE * n <= n_size (s_node s'))) s.
Proof.
  intros Hs Ho Hn. assert (Hl : wpt (read_entries n offset) (fun r _ => r.1 = 0 -> zlen r.2 = n) s).
  { unfold read_entries. apply wpt_bind, wpt_get. destruct (negb _); [apply wpt_halt |].
    apply wpt_bind. eapply wpt_mono; [apply keeps_generic_pread; [done | done | unfold ENTRY_SIZE; lia] |].
    intros [size buffer] s1 _. destruct (_ =? _).
    { apply wpt_ret. cbn [fst snd]. intros _. rewrite zlen_entries_of. lia. }
    destruct (_ =? 0); [by apply wpt_ret |]. destruct (_ <? 0); [by apply wpt_ret |].
    apply wpt_bind. eapply wpt_mono; [apply keeps_error |]. intros ? ? _. by apply wpt_ret. }
  pose proof (keeps_read_entries n offset s Hs Ho ltac:(lia)) as Hk. unfold wpt in *.
  destruct (read_entries n offset s) as [r s' | [] |]; try done. destruct Hk as [Hs' Hfit]. split; [done |].
  intros E. rewrite (sd_size _ _ Hs'). split; [by apply Hl | apply Hfit; lia || done].
Qed.

(** Writing entries inside of the directory. *)
Lemma keeps_write_entries entries offset s : sizes64 s -> 0 <= offset ->
  offset + ENTRY_SIZE * zlen entries <= n_size (s_node s) -> keeps (write_entries entries offset) s.
Proof.
  intros Hs Ho Hend. pose proof (zlen_nonneg entries). unfold write_entries. apply keeps_get; cbv beta zeta.
  destruct (negb _); [apply wpt_halt |].
  apply keeps_bind; [apply keeps_pwrite_inside; unfold ENTRY_SIZE in *; (done || lia) |]. intros size s1 _.
  destruct (_ =? _); [apply keeps_ret |]. destruct (_ <? 0); [apply keeps_ret | apply keeps_err].
Qed.

Lemma steady_write_entries entries offset s : sizes64 s -> offset < 2 ^ 64 ->
  steady (write_entries entries offset) s.
Proof.
  intros Hs Hend. pose proof (zlen_nonneg entries). unfold write_entries. apply steady_get; cbv beta zeta.
  destruct (negb _); [apply steady_bug |].
  apply steady_bind; [apply steady_pwrite; unfold ENTRY_SIZE in *; (done || lia) |]. intros size s1 _.
  destruct (_ =? _); [apply steady_ret |]. destruct (_ <? 0); [apply steady_ret | apply steady_err].
Qed.

Lemma keeps_erase_entries n offset s : sizes64 s -> 0 <= offset -> 1 <= n -> keeps (erase_entries n offset) s.
Proof.
  intros Hs Ho Hn. unfold erase_entries. apply wpt_bind.
  eapply wpt_mono; [by apply wpt_read_entries |]. intros [rc entries] s1 [H1 Hr]. cbn [fst snd] in Hr.
  destruct (Z.eqb_spec rc 0) as [-> |]; cbn [negb]; [| by apply wpt_ret]. destruct (Hr eq_refl) as [Hz Hend].
  eapply wpt_mono; [apply keeps_write_entries; [by eapply sizes64_same | done |] |]; [by rewrite zlen_map, Hz |].
  intros rc s2 H2. by etrans.
Qed.
End NodeTerm.
