(* ===== verification/NodeTree.v ===== *)
(** * NodeTree: the tree of nodes (libexfat/node.c, flush_nodes of libexfat/cluster.c)

    The nodes live in the heap of a [world]; [w_root] is the root directory.
    A directory that was read holds its entries as the list of its children.  A
    recursion over the tree gets the number of nodes as its fuel: each call of
    it goes to a node below or beside the last one. *)

From Stdlib Require Import ZArith Lia.
From stdpp Require Import base numbers list gmap.
From S2P Require Import Prelude Bytes Monad Ondisk State Bitmap Geometry Cluster FileIO Utils ExfatTime Entries.

#[local] Open Scope Z_scope.

Section NodeTree.
Context `{Platform}.

(** ** Definitions *)

Definition w_ef (w : world) : exfat := v_ef (w_vol w).
Definition on_world_os {A} (m : M env A) : M world A := on_part (on_part (S := vol) m).

(** Link a new node into the heap. *)
Definition new_ptr (n : exfat_node) : M world ptr := fun w =>
  Ok (w_fresh w) (set_w_fresh (w_fresh w + 1)%N (set_w_heap (<[w_fresh w := n]> (w_heap w)) w)).

(** [free]; the pointer must be valid. *)
Definition free (p : option ptr) : M world unit :=
  let! _ := deref p in
  match p with
  | None => bad_pointer
  | Some p => modify (fun w => set_w_heap (delete p (w_heap w)) w)
  end.

Definition tree_fuel (w : world) : nat := S (size (w_heap w)).

(** *** References *)

Definition exfat_get_node (node : option ptr) : M world (option ptr) :=
  assign node (fun n => set_n_references (n_references n + 1) n);;
  ret node.

Definition exfat_put_node (node : option ptr) : M world unit :=
  assign node (fun n => set_n_references (n_references n - 1) n);;
  let! n := deref node in
  let! w := get_state in
  if n_references n <? 0 then
    let! _ := exfat_get_name (S := world) n in
    exfat_bug
  else if (n_references n =? 0) && negb (bool_decide (node = w_root w)) then
    if n_is_dirty n then
      let! _ := exfat_get_name (S := world) n in
      ret tt
    else ret tt
  else ret tt.

Definition exfat_cleanup_node (node : option ptr) : M world Z :=
  let! n := deref node in
  if negb (n_references n =? 0) then exfat_bug
  else if n_is_unlinked n then
    let! rc := with_node node (exfat_truncate 0 true) in
    free node;;
    ret rc
  else ret 0.

(** *** Links *)

Definition tree_attach (dir node : option ptr) : M world unit :=
  assign node (set_n_parent dir);;
  let! d := deref dir in
  match n_child d with
  | Some child =>
      assign (Some child) (set_n_prev node);;
      assign node (set_n_next (Some child))
  | None => ret tt
  end;;
  assign dir (set_n_child node).

Definition tree_detach (node : option ptr) : M world unit :=
  let! n := deref node in
  match n_prev n with
  | Some prev => assign (Some prev) (set_n_next (n_next n))
  | None => assign (n_parent n) (set_n_child (n_next n))
  end;;
  let! n := deref node in
  match n_next n with
  | Some next => assign (Some next) (set_n_prev (n_prev n))
  | None => ret tt
  end;;
  assign node (fun n => set_n_next None (set_n_prev None (set_n_parent None n))).

(** *** Reading a directory *)

(** The loop of the rollback in [exfat_cache_directory]. *)
Fixpoint free_list (fuel : nat) (current : option ptr) : M world unit :=
  match current with
  | None => ret tt
  | Some _ =>
      match fuel with
      | O => diverge
      | S fuel =>
          let! n := deref current in
          free current;;
          free_list fuel (n_next n)
      end
  end.

(** The loop of [exfat_cache_directory]: the last result of [readdir]. *)
Fixpoint cache_loop (fuel : nat) (dir : ptr) (current : option ptr) (offset : Z) : M world Z :=
  match fuel with
  | O => diverge
  | S fuel =>
      let! (rc, node, offset) := with_node (Some dir) (readdir offset) in
      match node with
      | Some n =>
          let! node := new_ptr n in
          assign (Some node) (set_n_parent (Some dir));;
          match current with
          | Some _ =>
              assign current (set_n_next (Some node));;
              assign (Some node) (set_n_prev current)
          | None => assign (Some dir) (set_n_child (Some node))
          end;;
          cache_loop fuel dir (Some node) offset
      | None => ret rc
      end
  end.

Definition cache_fuel (dir : exfat_node) : nat := S (Z.to_nat (DIV_ROUND_UP (n_size dir) ENTRY_SIZE)).

Definition exfat_cache_directory (dir : option ptr) : M world Z :=
  match dir with
  | None => bad_pointer
  | Some d =>
      let! n := deref dir in
      if n_is_cached n then ret 0
      else
        let! rc := cache_loop (cache_fuel n) d None 0 in
        if negb (rc =? - ENOENT) then
          let! n := deref dir in
          let! w := get_state in
          free_list (tree_fuel w) (n_child n);;
          assign dir (set_n_child None);;
          ret rc
        else
          assign dir (set_n_is_cached true);;
          ret 0
  end.

(** *** Forgetting the nodes *)

(** [while (node->references) exfat_put_node(ef, node)] *)
Fixpoint put_all (fuel : nat) (node : option ptr) : M world unit :=
  let! n := deref node in
  if n_references n =? 0 then ret tt
  else
    match fuel with
    | O => diverge
    | S fuel => exfat_put_node node;; put_all fuel node
    end.

(** The loop over the children is the recursion on [node] itself. *)
Fixpoint reset_cache (fuel : nat) (node : option ptr) : M world unit :=
  match fuel with
  | O => diverge
  | S fuel =>
      let! n := deref node in
      match n_child n with
      | Some p =>
          reset_cache fuel (Some p);;
          tree_detach (Some p);;
          free (Some p);;
          reset_cache fuel node
      | None =>
          assign node (set_n_is_cached false);;
          let! n := deref node in
          let! w := get_state in
          (if negb (n_references n =? 0) then
             let! _ := exfat_get_name (S := world) n in ret tt
           else ret tt);;
          (if negb (bool_decide (node = w_root w)) && n_is_dirty n then
             let! _ := exfat_get_name (S := world) n in exfat_bug
           else ret tt);;
          put_all (S (Z.to_nat (n_references n))) node
      end
  end.

Definition exfat_reset_cache : M world unit :=
  let! w := get_state in
  reset_cache (tree_fuel w) (w_root w).

(** *** Writing nodes back *)

Definition exfat_flush_node (node : option ptr) : M world Z :=
  let! n := deref node in
  let! w := get_state in
  if negb (n_is_dirty n) then ret 0
  else if negb (ef_ro (w_ef w) =? 0) then exfat_bug
  else
    match n_parent n with
    | None => ret 0
    | Some parent =>
        let! (rc, entries) :=
          with_node (Some parent) (read_entries (1 + n_continuations n) (n_entry_offset n)) in
        if negb (rc =? 0) then ret rc
        else
          let! ok := on_world_os (check_entries entries) in
          if negb ok then ret (- EIO)
          else
            let! w := get_state in
            let entries := flush_entries (os_timezone (v_os (w_vol w))) n entries in
            let! rc := with_node (Some parent) (write_entries entries (n_entry_offset n)) in
            if negb (rc =? 0) then ret rc
            else
              assign node (set_n_is_dirty false);;
              on_part (S := world) exfat_flush
    end.

(** [flush_nodes]: the children, each with its own, and then the node. *)
Fixpoint flush_nodes (fuel : nat) (node : option ptr) : M world Z :=
  match fuel with
  | O => diverge
  | S fuel =>
      let fix children (k : nat) (p : option ptr) : M world Z :=
        match p with
        | None => ret 0
        | Some _ =>
            match k with
            | O => diverge
            | S k =>
                and_then (flush_nodes fuel p)
                  (let! n := deref p in children k (n_next n))
            end
        end in
      let! n := deref node in
      and_then (children fuel (n_child n)) (exfat_flush_node node)
  end.

Definition exfat_flush_nodes : M world Z :=
  let! w := get_state in
  flush_nodes (tree_fuel w) (w_root w).
End NodeTree.
