(* ===== verification/TreeSpec.v ===== *)
(** * TreeSpec: the list of children of a directory (libexfat/node.c)

    The children of a directory form a doubly linked list in the heap.  Attaching
    and detaching a node keep the list; reading a directory builds it, or takes
    everything back when an entry cannot be read. *)

From Stdlib Require Import ZArith Lia.
From stdpp Require Import base numbers list gmap.
From S2P Require Import Prelude Bytes Monad Ondisk State Bitmap Geometry Cluster FileIO Utils ExfatTime Entries EntriesSpec DirTerm NodeTree.

#[local] Open Scope Z_scope.

(** ** The shape *)

Notation heap := (gmap ptr exfat_node).

Definition first_or (l : list ptr) (next : option ptr) : option ptr :=
  match l with [] => next | p :: _ => Some p end.

Fixpoint last_or (prev : option ptr) (l : list ptr) : option ptr :=
  match l with [] => prev | p :: l => last_or (Some p) l end.

(** A segment of the list of the directory [d]: [prev] comes before it and [next]
    after it. *)
Fixpoint segment (h : heap) (d : ptr) (prev : option ptr) (l : list ptr) (next : option ptr) : Prop :=
  match l with
  | [] => True
  | p :: l =>
      (exists n, h !! p = Some n /\ n_parent n = Some d /\ n_prev n = prev /\ n_next n = first_or l next) /\
      segment h d (Some p) l next
  end.

Record children (h : heap) (d : ptr) (l : list ptr) : Prop := {
  ch_nodup : NoDup (d :: l);
  ch_dir : exists n, h !! d = Some n /\ n_child n = first_or l None;
  ch_list : segment h d None l None
}.

(** The fields of a node that are not links. *)
Definition same_data (n n' : exfat_node) : Prop :=
  set_n_parent None (set_n_child None (set_n_next None (set_n_prev None n'))) =
  set_n_parent None (set_n_child None (set_n_next None (set_n_prev None n))).

(** A change of the links of the children of [d]: only [d] gets another child, and
    nothing but its child changes in [d]. *)
Definition same_node (d q : ptr) (n n' : exfat_node) : Prop :=
  same_data n n' /\
  (q = d -> set_n_child None n' = set_n_child None n) /\
  (q <> d -> n_child n' = n_child n).

(** The heap [h'] has the nodes of [h] with the same data, and the very same ones
    outside of [ps]. *)
Definition relinked (d : ptr) (h h' : heap) (ps : list ptr) : Prop :=
  (forall q, q ∉ ps -> h' !! q = h !! q) /\
  (forall q n, h !! q = Some n -> exists n', h' !! q = Some n' /\ same_node d q n n').

Lemma last_or_app prev l k : last_or prev (l ++ k) = last_or (last_or prev l) k.
Proof. revert prev. induction l as [| p l IH]; intros prev; [done | apply IH]. Qed.

Lemma segment_app h d prev l k next :
  segment h d prev (l ++ k) next <->
  segment h d prev l (first_or k next) /\ segment h d (last_or prev l) k next.
Proof.
  revert prev. induction l as [| p l IH]; intros prev; cbn [app segment last_or]; [tauto |].
  rewrite IH. destruct l as [| q l]; cbn [app first_or]; tauto.
Qed.

Lemma segment_frame h h' d prev l next :
  (forall p, p ∈ l -> h' !! p = h !! p) -> segment h d prev l next -> segment h' d prev l next.
Proof.
  revert prev. induction l as [| p l IH]; intros prev Hf; cbn [segment]; [done |].
  intros [(n & Hn & ?) Hs]. split.
  - exists n. rewrite Hf by left. eauto.
  - apply IH; [| done]. intros q Hq. apply Hf. by right.
Qed.

Lemma segment_elem h d prev l next p : segment h d prev l next -> p ∈ l -> is_Some (h !! p).
Proof.
  revert prev. induction l as [| q l IH]; intros prev; cbn [segment]; [by intros _ ?%elem_of_nil |].
  intros [(n & Hn & _) Hs] [-> | Hp]%elem_of_cons; [eauto | by eapply IH].
Qed.

(** Change the link before or after a segment. *)
Lemma segment_set_next h d prev l p n next next' :
  p ∉ l -> h !! p = Some n -> segment h d prev (l ++ [p]) next ->
  segment (<[p := set_n_next next' n]> h) d prev (l ++ [p]) next'.
Proof.
  intros Hp Hn Hs. apply segment_app in Hs as [H1 H2]. apply segment_app. split.
  - eapply segment_frame; [| exact H1]. intros q Hq. apply lookup_insert_ne. by intros ->.
  - cbn in *. destruct H2 as [(m & Hm & ?) _]. simplify_eq. split; [| done].
    eexists. rewrite lookup_insert_eq. split; [done |]. cbn. naive_solver.
Qed.

Lemma segment_set_prev h d prev prev' l p n next :
  p ∉ l -> h !! p = Some n -> segment h d prev (p :: l) next ->
  segment (<[p := set_n_prev prev' n]> h) d prev' (p :: l) next.
Proof.
  intros Hp Hn [(m & Hm & ?) H2]. simplify_eq. split.
  - eexists. rewrite lookup_insert_eq. split; [done |]. cbn. naive_solver.
  - eapply segment_frame; [| exact H2]. intros q Hq. apply lookup_insert_ne. by intros ->.
Qed.

(** ** Assignments *)

Lemma deref_ok p n w : w_heap w !! p = Some n -> deref (Some p) w = Ok n w.
Proof. intros E. unfold deref. by rewrite E. Qed.

Lemma assign_ok p f n w : w_heap w !! p = Some n ->
  assign (Some p) f w = Ok tt (set_w_heap (<[p := f n]> (w_heap w)) w).
Proof. intros E. unfold assign. rewrite (bind_ok _ _ _ _ _ (deref_ok _ _ _ E)). unfold store. by rewrite E. Qed.

Lemma relinked_refl d h ps : relinked d h h ps.
Proof. split; [done |]. intros q n Hn. by exists n. Qed.

Lemma relinked_trans d h1 h2 h3 ps : relinked d h1 h2 ps -> relinked d h2 h3 ps -> relinked d h1 h3 ps.
Proof.
  intros [A1 A2] [B1 B2]. split.
  - intros q Hq. rewrite B1 by done. by apply A1.
  - intros q n Hn. destruct (A2 q n Hn) as (n' & Hn' & S1 & D1 & C1).
    destruct (B2 q n' Hn') as (n'' & Hn'' & S2 & D2 & C2).
    exists n''. split; [done |]. unfold same_node, same_data in *. split; [by etrans |].
    split; intros Hq; [rewrite D2, D1 | rewrite C2, C1]; done.
Qed.

Lemma relinked_insert d h p n n' ps :
  h !! p = Some n -> same_data n n' -> (p = d -> set_n_child None n' = set_n_child None n) ->
  (p <> d -> n_child n' = n_child n) -> p ∈ ps -> relinked d h (<[p := n']> h) ps.
Proof.
  intros Hn Hd Hc Hc' Hp. split.
  - intros q Hq. apply lookup_insert_ne. by intros ->.
  - intros q m Hm. destruct (decide (p = q)) as [<- | Hne].
    + simplify_eq. exists n'. by rewrite lookup_insert_eq.
    + exists m. by rewrite lookup_insert_ne.
Qed.

Lemma relinked_sub d h h' ps qs : relinked d h h' ps -> ps ⊆ qs -> relinked d h h' qs.
Proof. intros [A1 A2] Hs. split; [| done]. intros q Hq. apply A1. set_solver. Qed.

Lemma last_case {A} (l : list A) : l = [] \/ exists k q, l = k ++ [q].
Proof. induction l as [| q k _] using rev_ind; [by left | right; eauto]. Qed.

(** ** Attaching and detaching *)

Section Links.
Context `{Platform}.

Lemma tree_attach_spec w d l p n :
  children (w_heap w) d l -> p ∉ d :: l -> w_heap w !! p = Some n -> n_prev n = None -> n_next n = None ->
  exists h', tree_attach (Some d) (Some p) w = Ok tt (set_w_heap h' w) /\
    children h' d (p :: l) /\ relinked d (w_heap w) h' (d :: p :: l).
Proof.
  intros [Hnd (nd & Hd & Hc) Hl] Hp Hn Hprev Hnext. apply not_elem_of_cons in Hp as [Hpd Hpl].
  unfold tree_attach. rewrite (bind_ok _ _ _ _ _ (assign_ok _ _ _ _ Hn)).
  set (h1 := <[p := set_n_parent (Some d) n]> (w_heap w)).
  assert (Hd1 : h1 !! d = Some nd) by (unfold h1; by rewrite lookup_insert_ne).
  rewrite (bind_ok _ _ _ _ _ (deref_ok d nd (set_w_heap h1 w) Hd1)), Hc.
  assert (R1 : relinked d (w_heap w) h1 (d :: p :: l)) by (eapply relinked_insert; [done | done | done | done | set_solver]).
  assert (Hl1 : segment h1 d None l None).
  { eapply segment_frame; [| exact Hl]. intros q Hq. apply lookup_insert_ne. by intros ->. }
  assert (Hp1 : h1 !! p = Some (set_n_parent (Some d) n)) by apply lookup_insert_eq.
  assert (Hnd' : NoDup (d :: p :: l)).
  { apply NoDup_cons in Hnd as [? ?]. apply NoDup_cons. split; [by apply not_elem_of_cons |]. by apply NoDup_cons. }
  destruct l as [| q l]; cbn [first_or].
  - rewrite (bind_ok _ _ _ tt (set_w_heap h1 w)) by done.
    rewrite (assign_ok _ _ _ (set_w_heap h1 w) Hd1).
    exists (<[d := set_n_child (Some p) nd]> h1). split; [done |]. split.
    + split; [done | |].
      * eexists. by rewrite lookup_insert_eq.
      * split; [| done]. eexists. rewrite lookup_insert_ne by done. split; [exact Hp1 |]. done.
    + eapply relinked_trans; [exact R1 |]. eapply relinked_insert; [exact Hd1 | done | done | done | set_solver].
  - pose proof Hl1 as [(nq & Hq & Hq1 & Hq2 & Hq3) _].
    assert (Hne : q <> d /\ q <> p /\ q ∉ l) by (clear - Hnd'; rewrite !NoDup_cons in Hnd'; set_solver).
    destruct Hne as (Hqd & Hqp & Hql).
    assert (Hrl : forall r, r ∈ l -> r <> d /\ r <> p) by (clear - Hnd'; rewrite !NoDup_cons in Hnd'; set_solver).
    set (h2 := <[q := set_n_prev (Some p) nq]> h1).
    assert (Hp2 : h2 !! p = Some (set_n_parent (Some d) n)) by (unfold h2; by rewrite lookup_insert_ne).
    set (h3 := <[p := set_n_next (Some q) (set_n_parent (Some d) n)]> h2).
    assert (Hd3 : h3 !! d = Some nd) by (unfold h3, h2; by rewrite !lookup_insert_ne).
    rewrite (bind_ok _ _ _ tt (set_w_heap h3 w)).
    2: { rewrite (bind_ok _ _ _ _ _ (assign_ok q _ _ (set_w_heap h1 w) Hq)).
         by rewrite (assign_ok p _ _ (set_w_heap h2 w) Hp2). }
    rewrite (assign_ok _ _ _ (set_w_heap h3 w) Hd3).
    exists (<[d := set_n_child (Some p) nd]> h3). split; [done |]. split.
    + split; [done | |].
      * eexists. by rewrite lookup_insert_eq.
      * split; [eexists; rewrite lookup_insert_ne by done; split; [apply lookup_insert_eq | done] |].
        apply (segment_frame h2).
        { intros r Hr. assert (r <> d /\ r <> p) as [? ?].
          { apply elem_of_cons in Hr as [-> | Hr]; [done | by apply Hrl]. }
          unfold h3. by rewrite !lookup_insert_ne by congruence. }
        by apply (segment_set_prev h1 d None (Some p) l q nq None).
    + do 3 (eapply relinked_trans; [| eapply relinked_insert; [eassumption | done | done | done | set_solver]]). exact R1.
Qed.

(** Write the link of the node before a removed one, or the child link of the directory. *)
Lemma detach_prev w d l1 next nd :
  NoDup (d :: l1) -> w_heap w !! d = Some nd -> (exists p, segment (w_heap w) d None l1 (Some p)) ->
  exists h1, (match last_or None l1 with
      | Some prev => assign (Some prev) (set_n_next next)
      | None => assign (Some d) (set_n_child next) end) w = Ok tt (set_w_heap h1 w) /\
    relinked d (w_heap w) h1 (d :: l1) /\ segment h1 d None l1 next /\
    exists nd', h1 !! d = Some nd' /\ n_child nd' = match l1 with [] => next | _ => n_child nd end.
Proof.
  intros Hnd Hd [p Hs]. destruct (last_case l1) as [-> | (k & q & ->)].
  - cbn [last_or]. rewrite (assign_ok _ _ _ _ Hd). eexists. split; [done |]. split_and!; [| done |].
    + eapply relinked_insert; [exact Hd | done | done | done | left].
    + eexists. by rewrite lookup_insert_eq.
  - rewrite last_or_app. cbn [last_or].
    assert (Hne : q <> d /\ q ∉ k).
    { clear - Hnd. apply NoDup_cons in Hnd as [? Hk]. apply NoDup_app in Hk. set_solver. }
    destruct Hne as [Hqd Hqk]. destruct (segment_elem _ _ _ _ _ q Hs) as [nq Hq]; [set_solver |].
    rewrite (assign_ok _ _ _ _ Hq). eexists. split; [done |]. split_and!.
    + eapply relinked_insert; [exact Hq | done | done | done | set_solver].
    + by eapply segment_set_next.
    + exists nd. rewrite lookup_insert_ne by done. split; [done |]. by destruct k.
Qed.

(** Write the link of the node after a removed one. *)
Lemma detach_next w d p prev l2 :
  NoDup l2 -> d ∉ l2 -> segment (w_heap w) d (Some p) l2 None ->
  exists h1, (match first_or l2 None with
      | Some next => assign (Some next) (set_n_prev prev)
      | None => ret tt end) w = Ok tt (set_w_heap h1 w) /\
    relinked d (w_heap w) h1 l2 /\ segment h1 d prev l2 None.
Proof.
  intros Hnd Hdl Hs. destruct l2 as [| q l]; cbn [first_or].
  - exists (w_heap w). split; [by destruct w |]. split; [apply relinked_refl | done].
  - pose proof Hs as [(nq & Hq & _) _]. rewrite (assign_ok _ _ _ _ Hq). eexists. split; [done |].
    apply NoDup_cons in Hnd as [Hql _]. split.
    + eapply relinked_insert; [exact Hq | done | intros ->; destruct Hdl; left | done | left].
    + by eapply segment_set_prev.
Qed.

Lemma tree_detach_spec w d l1 l2 p :
  children (w_heap w) d (l1 ++ p :: l2) ->
  exists h', tree_detach (Some p) w = Ok tt (set_w_heap h' w) /\
    children h' d (l1 ++ l2) /\ relinked d (w_heap w) h' (d :: l1 ++ p :: l2) /\
    exists n, h' !! p = Some n /\ n_parent n = None /\ n_prev n = None /\ n_next n = None.
Proof.
  intros [Hnd (nd & Hd & Hc) Hl].
  apply segment_app in Hl as [Hl1 [(n & Hn & Hp1 & Hp2 & Hp3) Hl2]]. cbn [first_or] in Hl1.
  assert (Hn1 : NoDup (d :: l1) /\ NoDup l2 /\ p ∉ d :: l1 /\ p ∉ l2 /\ d ∉ l2 /\ (forall q, q ∈ l2 -> q ∉ d :: l1)
    /\ NoDup (d :: l1 ++ l2)).
  { clear - Hnd. rewrite NoDup_cons in Hnd |- *. rewrite NoDup_cons, !NoDup_app, NoDup_cons in *. set_solver. }
  destruct Hn1 as (N1 & N2 & P1 & P2 & D2 & N12 & N).
  unfold tree_detach. rewrite (bind_ok _ _ _ _ _ (deref_ok _ _ _ Hn)), Hp1, Hp2, Hp3.
  destruct (detach_prev w d l1 (first_or l2 None) nd N1 Hd (ex_intro _ p Hl1))
    as (h1 & E1 & R1 & S1 & nd1 & Hd1 & Hc1).
  rewrite (bind_ok _ _ _ _ _ E1).
  assert (Hn1 : h1 !! p = Some n) by (rewrite (proj1 R1) by done; done).
  rewrite (bind_ok _ _ _ _ _ (deref_ok p n (set_w_heap h1 w) Hn1)), Hp2, Hp3.
  assert (S2 : segment h1 d (Some p) l2 None).
  { eapply segment_frame; [| exact Hl2]. intros q Hq. apply (proj1 R1). by apply N12. }
  destruct (detach_next (set_w_heap h1 w) d p (last_or None l1) l2 N2 D2 S2) as (h2 & E2 & R2 & S2').
  rewrite (bind_ok _ _ _ _ _ E2). clear E1 E2.
  assert (Hn2 : h2 !! p = Some n) by (rewrite (proj1 R2) by done; done).
  rewrite (assign_ok p _ n (set_w_heap h2 (set_w_heap h1 w)) Hn2). eexists. split; [done |].
  assert (Hps : forall q, q ∈ d :: l1 ++ l2 -> q <> p).
  { intros q Hq ->. clear - Hq P1 P2. set_solver. }
  split; [split; [done | |] | split].
  - exists nd1. rewrite lookup_insert_ne by (apply not_eq_sym, Hps; left).
    rewrite (proj1 R2) by done. split; [exact Hd1 |]. rewrite Hc1, Hc. by destruct l1.
  - apply (segment_frame h2).
    { intros q Hq. apply lookup_insert_ne, not_eq_sym, Hps. by right. }
    apply segment_app. split; [| done]. eapply segment_frame; [| exact S1].
    intros q Hq. apply (proj1 R2). intros Hq2. apply (N12 q Hq2). by right.
  - eapply relinked_trans; [| eapply relinked_insert; [exact Hn2 | done | intros ->; destruct P1; left | done | set_solver]].
    eapply relinked_trans; eapply relinked_sub; [exact R1 | set_solver | exact R2 | set_solver].
  - eexists. rewrite lookup_insert_eq. done.
Qed.

End Links.

(** ** Reading a directory *)

Section Cache.
Context `{Platform}.

Lemma wpt_with_node {A} (m : M nstate A) Q w p n :
  w_heap w !! p = Some n ->
  wpt m (fun a s => Q a (set_w_heap (<[p := s_node s]> (w_heap w)) (set_w_vol (s_vol s) w))) (mk_nstate (w_vol w) n) ->
  wpt (with_node (Some p) m) Q w.
Proof.
  intros Hp. unfold wpt, with_node. rewrite (deref_ok _ _ _ Hp). destruct (m _) as [a s | |]; [| done | done].
  unfold store. cbn. by rewrite Hp.
Qed.

Lemma wpt_deref Q w p n : w_heap w !! p = Some n -> Q n w -> wpt (deref (Some p)) Q w.
Proof. intros Hp HQ. unfold wpt. by rewrite (deref_ok _ _ _ Hp). Qed.

Lemma wpt_assign Q w p f n :
  w_heap w !! p = Some n -> Q tt (set_w_heap (<[p := f n]> (w_heap w)) w) -> wpt (assign (Some p) f) Q w.
Proof. intros Hp HQ. unfold wpt. by rewrite (assign_ok _ _ _ _ Hp). Qed.

Lemma wpt_new_ptr Q w n :
  Q (w_fresh w) (set_w_fresh (w_fresh w + 1)%N (set_w_heap (<[w_fresh w := n]> (w_heap w)) w)) -> wpt (new_ptr n) Q w.
Proof. done. Qed.

(** The nodes that are in no tree yet, but for their place among the children. *)
Definition is_leaf (n : exfat_node) : Prop :=
  n_child n = None /\ n_references n = 0 /\ n_is_cached n = false /\ n_is_unlinked n = false /\ node_read n.

(** What reading a directory leaves alone in its node. *)
Definition node_place (n : exfat_node) :=
  (n_parent n, n_next n, n_prev n, n_references n, n_is_unlinked n, n_attrib n, n_size n, node_entry n).

(** The volume of [w] and that of [w0] have the same super block and up-case table. *)
Definition same_volume (w0 w : world) : Prop :=
  ef_sb (w_ef w) = ef_sb (w_ef w0) /\ (ef_upcase (w_ef w0) <> [] -> ef_upcase (w_ef w) = ef_upcase (w_ef w0)).

(** The directory [d] of [w0] while its entries are read: [l] are the new nodes. *)
Record caching (w0 w : world) (d : ptr) (nd0 : exfat_node) (l : list ptr) : Prop := {
  cg_dir : exists nd, w_heap w !! d = Some nd /\
    node_place nd = node_place nd0 /\ n_is_cached nd = n_is_cached nd0 /\ n_child nd = first_or l None /\
    sizes64 (mk_nstate (w_vol w) nd);
  cg_list : segment (w_heap w) d None l None;
  cg_leaf : forall p n, p ∈ l -> w_heap w !! p = Some n -> is_leaf n;
  cg_nodup : NoDup l;
  cg_new : forall p, p ∈ l -> w_heap w0 !! p = None;
  cg_frame : forall q, q ∉ d :: l -> w_heap w !! q = w_heap w0 !! q;
  cg_fresh : forall q, is_Some (w_heap w !! q) -> (q < w_fresh w)%N;
  cg_root : w_root w = w_root w0;
  cg_volume : same_volume w0 w
}.

Lemma cache_read w0 w d nd0 l offset : caching w0 w d nd0 l -> d ∉ l -> 0 <= offset ->
  wpt (with_node (Some d) (readdir offset)) (fun r w' => caching w0 w' d nd0 l /\
    moves_on offset r /\ (r.1.2 <> None -> offset < n_size nd0)) w.
Proof.
  intros [(nd & Hd & Hln & Hcd & Hch & Hs64) Hseg Hleaf Hnd Hnew Hfr Hfresh Hroot [Hsb Hup]] Hdl Ho.
  assert (Hsz : n_size nd = n_size nd0) by (unfold node_place in Hln; congruence).
  apply (wpt_with_node _ _ _ _ _ Hd). eapply wpt_mono; [by apply readdir_spec |].
  intros r s' [Hs' [Hm Hin]]. split; [| split; [done | by rewrite <- Hsz]].
  pose proof (sizes64_same _ _ Hs' Hs64) as Hz. destruct Hs' as [E1 E2 _ E4 E5 E6 E7].
  cbn [s_node] in *.
  split; cbn [w_heap w_vol w_root w_fresh set_w_heap set_w_vol].
  - exists (s_node s'). rewrite lookup_insert_eq. split; [done |].
    unfold node_place, node_links in *. cbn in *. injection E5 as -> -> -> -> -> -> ->.
    rewrite E2, E4, E6. split_and!; [done | done | done |]. by destruct s'.
  - eapply segment_frame; [| exact Hseg]. intros q Hq. apply lookup_insert_ne. by intros ->.
  - intros q n Hq. rewrite lookup_insert_ne by (by intros ->). by apply Hleaf.
  - done.
  - done.
  - intros q Hq. rewrite lookup_insert_ne by (intros ->; apply Hq; left). by apply Hfr.
  - intros q. destruct (decide (q = d)) as [-> | Hne]; [intros _; eauto |].
    rewrite lookup_insert_ne by done. apply Hfresh.
  - done.
  - unfold same_volume, w_ef, s_ef in *. cbn in *. split; [by rewrite E1 |].
    intros Hu. rewrite E7 by (rewrite Hup; done). by apply Hup.
Qed.

(** A node is new to the directory that is read. *)
Lemma caching_new w0 w d nd0 l : caching w0 w d nd0 l -> is_Some (w_heap w0 !! d) -> d ∉ l -> let p := w_fresh w in
  w_heap w !! p = None /\ p <> d /\ p ∉ l /\ w_heap w0 !! p = None /\ NoDup (l ++ [p]) /\ d ∉ l ++ [p].
Proof.
  intros [(nd & Hd & _) Hseg _ Hnd _ Hfr Hfresh _ _] [n0 Hn0] Hdl p.
  assert (Hpn : w_heap w !! p = None).
  { destruct (w_heap w !! p) eqn:E; [| done]. specialize (Hfresh p ltac:(eauto)). unfold p in *. lia. }
  assert (Hpd : p <> d) by congruence.
  assert (Hpl : p ∉ l). { intros Hp. destruct (segment_elem _ _ _ _ _ _ Hseg Hp). congruence. }
  split_and!; [done | done | done | rewrite <- Hfr; [done | set_solver] | | set_solver].
  apply NoDup_app. split_and!; [done | set_solver | apply NoDup_singleton].
Qed.

Lemma fresh_grows w (h : heap) : (forall q, is_Some (w_heap w !! q) -> (q < w_fresh w)%N) ->
  (forall q, is_Some (h !! q) -> is_Some (w_heap w !! q) \/ q = w_fresh w) ->
  forall q, is_Some (h !! q) -> (q < w_fresh w + 1)%N.
Proof. intros Hf Hh q Hq. destruct (Hh q Hq) as [Hq' | ->]; [specialize (Hf q Hq'); lia | lia]. Qed.

(** The first node of the list, *)
Lemma caching_first w0 w d nd0 nd n : caching w0 w d nd0 [] -> is_Some (w_heap w0 !! d) -> w_heap w !! d = Some nd ->
  is_leaf n -> n_parent n = Some d -> n_prev n = None -> n_next n = None -> let p := w_fresh w in
  caching w0 (set_w_fresh (p + 1)%N (set_w_heap (<[d := set_n_child (Some p) nd]> (<[p := n]> (w_heap w))) w)) d nd0 [p].
Proof.
  intros Hc Hd0 Hd Hl Hp1 Hp2 Hp3 p. destruct (caching_new _ _ _ _ _ Hc Hd0 (not_elem_of_nil d)) as (Hpn & Hpd & _ & Hp0 & _).
  fold p in Hpn, Hpd, Hp0. destruct Hc as [(nd' & Hd' & Hln & Hcd & _ & Hs64) _ _ _ _ Hfr Hfresh Hroot Hvol]. assert (nd' = nd) as -> by congruence.
  split; cbn [w_heap w_vol w_root w_fresh set_w_heap set_w_fresh first_or].
  - eexists. rewrite lookup_insert_eq. split; [done |]. by rewrite <- Hln.
  - split; [| done]. exists n. by rewrite lookup_insert_ne, lookup_insert_eq by done.
  - intros q m ->%list_elem_of_singleton. rewrite lookup_insert_ne, lookup_insert_eq by done. by intros [= <-].
  - apply NoDup_singleton.
  - by intros q ->%list_elem_of_singleton.
  - intros q Hq. rewrite !lookup_insert_ne by set_solver. apply Hfr. set_solver.
  - apply fresh_grows; [done |]. intros q. destruct (decide (q = d)) as [-> | ?]; [eauto |].
    rewrite lookup_insert_ne by done. destruct (decide (q = p)) as [-> | ?]; [eauto |]. rewrite lookup_insert_ne by done. eauto.
  - done.
  - exact Hvol.
Qed.

(** and a node behind the last one [q]. *)
Lemma caching_next w0 w d nd0 k q nq n : caching w0 w d nd0 (k ++ [q]) -> is_Some (w_heap w0 !! d) -> d ∉ k ++ [q] ->
  w_heap w !! q = Some nq -> is_leaf n -> n_parent n = Some d -> n_prev n = Some q -> n_next n = None -> let p := w_fresh w in
  caching w0 (set_w_fresh (p + 1)%N (set_w_heap (<[p := n]> (<[q := set_n_next (Some p) nq]> (w_heap w))) w)) d nd0 ((k ++ [q]) ++ [p]).
Proof.
  intros Hc Hd0 Hdl Hq Hl Hp1 Hp2 Hp3 p. destruct (caching_new _ _ _ _ _ Hc Hd0 Hdl) as (Hpn & Hpd & Hpl & Hp0 & Hndp & Hdl').
  fold p in Hpn, Hpd, Hpl, Hp0, Hndp, Hdl'. destruct Hc as [(nd & Hd & Hln & Hcd & Hch & Hs64) Hseg Hleaf Hnd Hnew Hfr Hfresh Hroot Hvol].
  assert (Hqk : q ∉ k) by (apply NoDup_app in Hnd; set_solver). assert (Hqp : q <> p) by congruence. assert (Hqd : q <> d) by set_solver.
  split; cbn [w_heap w_vol w_root w_fresh set_w_heap set_w_fresh].
  - exists nd. rewrite !lookup_insert_ne by done. split_and!; try done. rewrite Hch. by destruct k.
  - apply segment_app. split.
    + apply (segment_frame (<[q := set_n_next (Some p) nq]> (w_heap w))).
      { intros r Hr. assert (r <> p) by set_solver. by rewrite lookup_insert_ne by done. }
      cbn [first_or]. by eapply segment_set_next.
    + split; [| done]. exists n. rewrite lookup_insert_eq, last_or_app. cbn. tauto.
  - intros r m. destruct (decide (r = p)) as [-> | Hrp]; [intros _; rewrite lookup_insert_eq; by intros [= <-] |].
    intros Hr. rewrite lookup_insert_ne by done. destruct (decide (r = q)) as [-> | Hrq].
    { rewrite lookup_insert_eq. intros [= <-]. exact (Hleaf q nq ltac:(set_solver) Hq). }
    rewrite lookup_insert_ne by done. apply Hleaf. set_solver.
  - done.
  - intros r [Hr | ->%list_elem_of_singleton]%elem_of_app; [by apply Hnew | done].
  - intros r Hr. rewrite !lookup_insert_ne by set_solver. apply Hfr. set_solver.
  - apply fresh_grows; [done |]. intros r. destruct (decide (r = p)) as [-> | ?]; [eauto |]. rewrite lookup_insert_ne by done.
    destruct (decide (r = q)) as [-> | ?]; [eauto |]. rewrite lookup_insert_ne by done. eauto.
  - done.
  - exact Hvol.
Qed.

(** Link a new node behind the last one. *)
Lemma cache_link {A} w0 w d nd0 l n (k : ptr -> M world A) Q :
  caching w0 w d nd0 l -> (is_Some (w_heap w0 !! d)) -> d ∉ l -> node_links n = node_links zero_node -> node_read n ->
  (forall p w', caching w0 w' d nd0 (l ++ [p]) -> d ∉ l ++ [p] -> wpt (k p) Q w') ->
  wpt (let! node := new_ptr n in
       assign (Some node) (set_n_parent (Some d));;
       match last_or None l with
       | Some _ =>
           assign (last_or None l) (set_n_next (Some node));;
           assign (Some node) (set_n_prev (last_or None l))
       | None => assign (Some d) (set_n_child (Some node))
       end;;
       k node) Q w.
Proof.
  intros Hc Hd0 Hdl Hz Hfit Hk. destruct (caching_new _ _ _ _ _ Hc Hd0 Hdl) as (Hpn & Hpd & Hpl & _ & _ & Hdl').
  set (p := w_fresh w) in *. unfold node_links in Hz. cbn in Hz. injection Hz as Hz1 Hz2 Hz3 Hz4 Hz5 Hz6 Hz7.
  apply wpt_bind, wpt_new_ptr. fold p. apply wpt_bind. eapply wpt_assign; [apply lookup_insert_eq |]. cbn. rewrite insert_insert_eq.
  set (n1 := set_n_parent (Some d) n). pose proof (cg_list _ _ _ _ _ Hc) as Hseg.
  pose proof (cg_dir _ _ _ _ _ Hc) as (nd & Hd & _). destruct (last_case l) as [-> | (k' & q & ->)].
  - cbn [last_or]. apply wpt_bind. eapply wpt_assign; [cbn; rewrite lookup_insert_ne by done; exact Hd |]. apply Hk; [| done].
    by apply (caching_first w0 w d nd0 nd n1).
  - rewrite last_or_app. cbn [last_or].
    assert (Hq : exists nq, w_heap w !! q = Some nq) by (eapply segment_elem; [exact Hseg | set_solver]).
    destruct Hq as [nq Hq]. assert (Hqp : q <> p) by congruence. apply wpt_bind, wpt_bind.
    eapply wpt_assign; [cbn; rewrite lookup_insert_ne by done; exact Hq |].
    eapply wpt_assign; [cbn; rewrite lookup_insert_ne, lookup_insert_eq by done; done |].
    cbn [w_heap set_w_heap set_w_fresh]. apply Hk; [| done].
    rewrite (insert_insert_ne _ q p) by done. rewrite insert_insert_eq.
    by apply (caching_next w0 w d nd0 k' q nq (set_n_prev (Some q) n1)).
Qed.

Lemma cache_loop_S fuel dir current offset :
  cache_loop (S fuel) dir current offset =
  let! (rc, node, offset) := with_node (Some dir) (readdir offset) in
  match node with
  | Some n =>
      let! node := new_ptr n in
      assign (Some node) (set_n_parent (Some dir));;
      match current with
      | Some _ =>
          assign current (set_n_next (Some node));;
          assign (Some node) (set_n_prev current)
      | None => assign (Some dir) (set_n_child (Some node))
      end;;
      cache_loop fuel dir (Some node) offset
  | None => ret rc
  end.
Proof. done. Qed.

Lemma cache_loop_spec w0 d nd0 k : forall w l offset,
  caching w0 w d nd0 l -> is_Some (w_heap w0 !! d) -> d ∉ l -> 0 <= offset ->
  n_size nd0 - offset <= ENTRY_SIZE * Z.of_nat k ->
  wpt (cache_loop (S k) d (last_or None l) offset)
    (fun rc w' => rc <> 0 /\ exists l', caching w0 w' d nd0 l' /\ d ∉ l') w.
Proof.
  unfold ENTRY_SIZE. induction k as [| k IH]; intros w l offset Hc Hd0 Hdl Ho Hk; rewrite cache_loop_S;
    apply wpt_bind; (eapply wpt_mono; [by apply cache_read |]);
    intros [[rc node] offset'] w1 (Hc1 & Hm & Hin); unfold moves_on, ENTRY_SIZE in *; cbn [fst snd] in *;
    (destruct node as [n |]; [| apply wpt_ret; eauto]); specialize (Hin ltac:(done)); [lia |].
  destruct Hm as (_ & Hm & Hln & Hfit).
  eapply (cache_link w0 w1 d nd0 l n (fun p => cache_loop (S k) d (Some p) offset')); [done | done | done | done | done |].
  intros p w2 Hc2 Hdl2. replace (Some p) with (last_or None (l ++ [p])) by (rewrite last_or_app; done).
  apply IH; [done | done | done | lia | lia].
Qed.

Lemma free_list_spec d : forall l prev fuel w, segment (w_heap w) d prev l None -> NoDup l -> (length l < fuel)%nat ->
  exists h, free_list fuel (first_or l None) w = Ok tt (set_w_heap h w) /\
    (forall q, q ∉ l -> h !! q = w_heap w !! q) /\ (forall q, q ∈ l -> h !! q = None).
Proof.
  induction l as [| p l IH]; intros prev fuel w Hs Hnd Hf; cbn [first_or length] in *.
  - exists (w_heap w). destruct fuel; (split; [by destruct w |]); split; try done; by intros ? ?%elem_of_nil.
  - destruct fuel as [| fuel]; [lia |]. destruct Hs as [(n & Hn & _ & _ & Hnext) Hs].
    apply NoDup_cons in Hnd as [Hp Hnd]. cbn [free_list].
    rewrite (bind_ok _ _ _ _ _ (deref_ok _ _ _ Hn)).
    assert (Ef : free (Some p) w = Ok tt (set_w_heap (delete p (w_heap w)) w)).
    { unfold free. by rewrite (bind_ok _ _ _ _ _ (deref_ok _ _ _ Hn)). }
    rewrite (bind_ok _ _ _ _ _ Ef), Hnext.
    destruct (IH (Some p) fuel (set_w_heap (delete p (w_heap w)) w)) as (h & E & H1 & H2); [| done | lia |].
    { eapply segment_frame; [| exact Hs]. intros q Hq. apply lookup_delete_ne. by intros ->. }
    exists h. split; [exact E |]. split.
    + intros q [Hqp Hql]%not_elem_of_cons. rewrite H1 by done. by apply lookup_delete_ne.
    + intros q [-> | Hq]%elem_of_cons; [| by apply H2]. rewrite H1 by done. apply lookup_delete_eq.
Qed.

(** Distinct nodes of the heap are no more than the heap. *)
Lemma segment_length h d prev l next : segment h d prev l next -> NoDup l -> (length l <= size h)%nat.
Proof.
  intros Hs Hnd. rewrite <- size_dom, <- (size_list_to_set (C := gset ptr)) by done.
  apply subseteq_size. intros q Hq%elem_of_list_to_set. apply elem_of_dom. by eapply segment_elem.
Qed.

(** The directory before its entries are read. *)
Lemma caching_nil w d nd0 : w_heap w !! d = Some nd0 -> n_child nd0 = None -> sizes64 (mk_nstate (w_vol w) nd0) ->
  (forall q, is_Some (w_heap w !! q) -> (q < w_fresh w)%N) -> caching w w d nd0 [].
Proof.
  intros Hd Hc Hs Hf. split; try done.
  - by exists nd0.
  - by intros p n ?%elem_of_nil.
  - by apply NoDup_nil_2.
  - by intros p ?%elem_of_nil.
Qed.

(** Take back what was read. *)
Lemma caching_free w0 w d nd0 l : caching w0 w d nd0 l -> d ∉ l ->
  exists h, free_list (tree_fuel w) (first_or l None) w = Ok tt (set_w_heap h w) /\
    h !! d = w_heap w !! d /\ (forall q, q <> d -> h !! q = w_heap w0 !! q).
Proof.
  intros [_ Hseg _ Hnd Hnew Hfr _ _ _] Hdl.
  destruct (free_list_spec d l None (tree_fuel w) w Hseg Hnd) as (h & E & H1 & H2).
  { pose proof (segment_length _ _ _ _ _ Hseg Hnd). unfold tree_fuel. lia. }
  exists h. split; [done |]. split; [by apply H1 |]. intros q Hq.
  destruct (decide (q ∈ l)) as [Hql | Hql]; [by rewrite H2, Hnew by done |].
  rewrite H1 by done. apply Hfr. set_solver.
Qed.

(** The node [nd] of the directory after it was read, or not. *)
Definition dir_now (w' : world) (d : ptr) (nd : exfat_node) (cached : bool) : Prop :=
  exists nd', w_heap w' !! d = Some nd' /\ n_is_cached nd' = cached /\ node_place nd' = node_place nd /\ below64 nd'.

(** What reading the directory [d] of [w] may leave: its list of new nodes, *)
Definition cached_list (w w' : world) (d : ptr) (nd : exfat_node) : Prop :=
  dir_now w' d nd true /\
  exists l, children (w_heap w') d l /\
    (forall p, p ∈ l -> w_heap w !! p = None /\ exists n, w_heap w' !! p = Some n /\ is_leaf n) /\
    (forall q, q ∉ d :: l -> w_heap w' !! q = w_heap w !! q).

(** or the tree as it was. *)
Definition cache_undone (w w' : world) (d : ptr) (nd : exfat_node) : Prop :=
  dir_now w' d nd false /\ children (w_heap w') d [] /\
  (forall q, q <> d -> w_heap w' !! q = w_heap w !! q).

(** Reading a file as a directory is stopped at the first entry. *)
Lemma cache_file w d nd : w_heap w !! d = Some nd -> n_is_cached nd = false -> is_dir nd = false ->
  exists w', exfat_cache_directory (Some d) w = Halt ExfatBug w'.
Proof.
  intros Hd Hc Hdir. unfold exfat_cache_directory. rewrite (bind_ok _ _ _ _ _ (deref_ok _ _ _ Hd)), Hc.
  unfold cache_fuel. rewrite cache_loop_S. unfold bind at 1, bind at 1.
  assert (E : readdir 0 (mk_nstate (w_vol w) nd) = Halt ExfatBug (mk_nstate (w_vol w) nd)).
  { unfold readdir. rewrite (bind_ok _ _ _ (mk_nstate (w_vol w) nd) (mk_nstate (w_vol w) nd)) by done.
    cbn [readdir_loop]. unfold bind at 1, read_entries.
    rewrite (bind_ok _ _ _ (mk_nstate (w_vol w) nd) (mk_nstate (w_vol w) nd)) by done. cbn [s_node]. by rewrite Hdir. }
  unfold with_node. rewrite (deref_ok _ _ _ Hd), E. eauto.
Qed.

Lemma cache_directory_wpt w d nd : w_heap w !! d = Some nd -> n_child nd = None -> n_is_cached nd = false ->
  sizes64 (mk_nstate (w_vol w) nd) -> (forall q, is_Some (w_heap w !! q) -> (q < w_fresh w)%N) ->
  wpt (exfat_cache_directory (Some d))
    (fun rc w' => w_root w' = w_root w /\ same_volume w w' /\ (forall q, is_Some (w_heap w' !! q) -> (q < w_fresh w')%N) /\
       rc <> - ENOENT /\ is_dir nd = true /\ if rc =? 0 then cached_list w w' d nd else cache_undone w w' d nd) w.
Proof.
  intros Hd Hchild Hcached Hs Hfresh. destruct (is_dir nd) eqn:Hdir.
  2: { destruct (cache_file w d nd Hd Hcached Hdir) as [w' E]. unfold wpt. by rewrite E. }
  unfold exfat_cache_directory. apply wpt_bind, (wpt_deref _ _ _ _ Hd). rewrite Hcached.
  apply wpt_bind. eapply wpt_mono.
  { apply (cache_loop_spec w d nd (Z.to_nat (DIV_ROUND_UP (n_size nd) ENTRY_SIZE)) w [] 0);
      [by apply caching_nil | by eexists | apply not_elem_of_nil | lia |].
    pose proof (DIV_ROUND_UP_spec (n_size nd) ENTRY_SIZE ltac:(done)). unfold ENTRY_SIZE in *. lia. }
  intros rc w1 (Hrc & l & Hc & Hdl). pose proof Hc as [(nd1 & Hd1 & Hln & Hcd & Hch & Hs1) Hseg Hleaf Hnd Hnew Hfr Hf Hroot Hv].
  rewrite Hcached in Hcd. destruct (Z.eqb_spec rc (- ENOENT)) as [-> | Hne]; cbn [negb].
  - apply wpt_bind, (wpt_assign _ _ _ _ _ Hd1), wpt_ret. split_and!; [done | done | | done | done |].
    { intros q. cbn. destruct (decide (q = d)) as [-> | Hq]; [intros _; eauto |]. rewrite lookup_insert_ne by done. apply Hf. }
    cbn [Z.eqb]. split.
    { eexists. cbn. rewrite lookup_insert_eq. split_and!; [done | done | exact Hln | exact (proj2 Hs1)]. }
    exists l. split; [split | split].
    + by apply NoDup_cons.
    + eexists. cbn. by rewrite lookup_insert_eq.
    + eapply segment_frame; [| exact Hseg]. intros q Hq. apply lookup_insert_ne. by intros ->.
    + intros p Hp. split; [by apply Hnew |]. destruct (segment_elem _ _ _ _ _ _ Hseg Hp) as [n Hn].
      exists n. cbn. rewrite lookup_insert_ne by (by intros ->). eauto.
    + intros q Hq. cbn. rewrite lookup_insert_ne by (intros ->; apply Hq; left). by apply Hfr.
  - apply wpt_bind, (wpt_deref _ _ _ _ Hd1), wpt_bind, wpt_get, wpt_bind. rewrite Hch.
    destruct (caching_free _ _ _ _ _ Hc Hdl) as (h & E & Hhd & Hh). unfold wpt at 1. rewrite E.
    rewrite Hd1 in Hhd. apply wpt_bind, (wpt_assign _ _ _ _ nd1); [exact Hhd |]. apply wpt_ret.
    split_and!; [done | done | | done | done |].
    { intros q. cbn. destruct (decide (q = d)) as [-> | Hq]; [intros _; eauto |].
      rewrite lookup_insert_ne by done. rewrite Hh by done. intros Hq'. destruct (decide (q ∈ l)) as [Hql | Hql].
      - rewrite Hnew in Hq' by done. by destruct Hq'.
      - rewrite <- Hfr in Hq' by set_solver. by apply Hf. }
    rewrite (proj2 (Z.eqb_neq rc 0) Hrc). split; [| split].
    + eexists. cbn. rewrite lookup_insert_eq. split_and!; [done | done | exact Hln | exact (proj2 Hs1)].
    + split; [apply NoDup_singleton | | done]. eexists. cbn. by rewrite lookup_insert_eq.
    + intros q Hq. cbn. rewrite lookup_insert_ne by done. by apply Hh.
Qed.
End Cache.

(** C36: Reading a directory into the tree: [exfat_cache_directory] never loops,
    whatever the medium and the device do.  When it returns 0, the directory holds
    the list of its children: new nodes, linked both ways and to the directory,
    without references and not dirty by a link; no other node was touched.  When it
    returns an error, the nodes that were read are all freed: the heap is as it was,
    the directory has no children and is not taken for read. *)
Theorem exfat_cache_directory_spec `{Platform} w d nd (Hd : w_heap w !! d = Some nd)
  (Hchild : n_child nd = None) (Hcached : n_is_cached nd = false)
  (Hcs : 0 < CLUSTER_SIZE (ef_sb (w_ef w))) (Hsize : in_u 64 (n_size nd)) (Hvalid : in_u 64 (n_valid_size nd))
  (Hfresh : forall q, is_Some (w_heap w !! q) -> (q < w_fresh w)%N) :
  wpt (exfat_cache_directory (Some d))
    (fun rc w' => w_root w' = w_root w /\ same_volume w w' /\
       if rc =? 0 then cached_list w w' d nd else cache_undone w w' d nd) w.
Proof.
    eapply wpt_mono; [apply (cache_directory_wpt w d nd); try done |]; [| by intros rc w' (? & ? & _ & _ & _ & ?)].
  split; [exact Hcs | split; [exact Hsize | apply Hvalid]].
Qed.

#[local] Existing Instance word_le64.

(** The world of [exfat_cache_directory]: one directory, not read yet. *)
Definition demo_dir_node : exfat_node := set_n_attrib EXFAT_ATTRIB_DIR demo_node.
Definition demo_dir_world : world := mk_world demo_vol {[1%N := demo_dir_node]} (Some 1%N) 2%N.

Lemma exfat_cache_directory_spec_witness :
  wpt (exfat_cache_directory (Some 1%N))
    (fun rc w' => w_root w' = Some 1%N /\ same_volume demo_dir_world w' /\
       if rc =? 0 then cached_list demo_dir_world w' 1%N demo_dir_node
       else cache_undone demo_dir_world w' 1%N demo_dir_node) demo_dir_world.
Proof.
  apply (exfat_cache_directory_spec demo_dir_world 1%N demo_dir_node); try by vm_compute.
  intros q [n Hq]. unfold demo_dir_world in Hq. cbn [w_heap] in Hq. apply lookup_singleton_Some in Hq as [<- _]. by vm_compute.
Defined.
