(* ===== verification/TreeReset.v ===== *)
(** * TreeReset: moving nodes and forgetting the tree (libexfat/node.c)

    A rename takes a node out of the list of one directory and puts it into the
    list of another; unmounting forgets the whole tree, from the leaves up. *)

From Stdlib Require Import ZArith Lia.
From stdpp Require Import base numbers list gmap.
From S2P Require Import Prelude Bytes Monad Ondisk State Bitmap Geometry Cluster FileIO Utils ExfatTime Entries EntriesSpec DirTerm NodeTree TreeSpec.

#[local] Open Scope Z_scope.

(** ** Other directories *)

(** The links of a child. *)
Lemma segment_links h h' d prev l next :
  (forall q n, q ∈ l -> h !! q = Some n ->
     exists n', h' !! q = Some n' /\ n_parent n' = n_parent n /\ n_prev n' = n_prev n /\ n_next n' = n_next n) ->
  segment h d prev l next -> segment h' d prev l next.
Proof.
  revert prev. induction l as [| p l IH]; intros prev Hf; cbn [segment]; [done |].
  intros [(n & Hn & E1 & E2 & E3) Hs]. split.
  - destruct (Hf p n ltac:(left) Hn) as (n' & Hn' & F1 & F2 & F3). exists n'. split_and!; congruence.
  - apply IH; [| done]. intros q m Hq. apply Hf. by right.
Qed.

Lemma same_child_links n n' : set_n_child None n' = set_n_child None n ->
  n_parent n' = n_parent n /\ n_prev n' = n_prev n /\ n_next n' = n_next n.
Proof. intros E. unfold set_n_child in E. injection E. tauto. Qed.

(** Linking in the directory [d] keeps the list of another directory. *)
Lemma children_relinked d h h' ps b l :
  relinked d h h' (d :: ps) -> b <> d -> (forall q, q ∈ l -> q ∉ ps) -> children h b l -> children h' b l.
Proof.
  intros [R1 R2] Hbd Hps [Hnd (nb & Hb & Hc) Hs]. split; [done | |].
  - destruct (R2 b nb Hb) as (nb' & Hb' & _ & _ & E). exists nb'. split; [done |]. by rewrite E.
  - eapply segment_links; [| exact Hs]. intros q n Hq Hn. destruct (decide (q = d)) as [-> | Hqd].
    + destruct (R2 d n Hn) as (n' & Hn' & _ & E & _). exists n'. split; [done |]. by apply same_child_links, E.
    + exists n. rewrite R1; [done |]. specialize (Hps q Hq). set_solver.
Qed.

(** Moving a node, the way [exfat_rename] does it with [tree_detach] and
    [tree_attach]: the node [p] leaves the list of the directory [a], which keeps all
    the others in their order, and becomes the first child of the directory [b];
    every other directory keeps its list.  [b] may be a child of [a], or [a] of [b]. *)
Theorem move_between_directories `{Platform} w a b l1 p l2 l
  (Ha : children (w_heap w) a (l1 ++ p :: l2)) (Hb : children (w_heap w) b l) (Hab : a <> b) (Hpb : p <> b)
  (Hdisj : forall q, q ∈ l -> q ∉ l1 ++ p :: l2) :
  exists h', (tree_detach (Some p);; tree_attach (Some b) (Some p)) w = Ok tt (set_w_heap h' w) /\
    children h' a (l1 ++ l2) /\ children h' b (p :: l) /\
    forall c k, c <> a -> c <> b -> (forall q, q ∈ k -> q ∉ l ++ l1 ++ p :: l2) ->
      children (w_heap w) c k -> children h' c k.
Proof.
  destruct (tree_detach_spec w a l1 l2 p Ha) as (h1 & E1 & Ha1 & R1 & n & Hn & _ & Hn2 & Hn3).
  pose proof (children_relinked _ _ _ _ b l R1 (not_eq_sym Hab) Hdisj Hb) as Hb1.
  assert (Hp : p ∉ b :: l). { apply not_elem_of_cons. split; [done |]. intros Hq. apply (Hdisj p Hq). set_solver. }
  destruct (tree_attach_spec (set_w_heap h1 w) b l p n Hb1 Hp Hn Hn2 Hn3) as (h2 & E2 & Hb2 & R2).
  exists h2. rewrite (bind_ok _ _ _ _ _ E1). split; [exact E2 |]. split; [| split; [done |]].
  - eapply (children_relinked b); [exact R2 | done | | done].
    assert (Hpl : p ∉ l1 ++ l2).
    { destruct Ha as [Hnd _ _]. clear - Hnd. rewrite NoDup_cons, NoDup_app, NoDup_cons in Hnd. set_solver. }
    intros q Hq. specialize (Hdisj q). set_solver.
  - intros c k Hca Hcb Hk Hc. eapply (children_relinked b); [exact R2 | done | set_solver |].
    eapply (children_relinked a); [exact R1 | done | set_solver | done].
Qed.

(** ** Trees *)

(** The addresses of a directory tree. *)
Inductive rose : Type := Rose (p : ptr) (ts : list rose).

Definition root_of (t : rose) : ptr := match t with Rose p _ => p end.

Fixpoint nodes (t : rose) : list ptr := match t with Rose p ts => p :: flat_map nodes ts end.

(** A node that may be forgotten. *)
Definition clean (n : exfat_node) : Prop := n_references n = 0 /\ n_is_dirty n = false.

(** Every directory of [t] has the list of its children and every node is clean. *)
Inductive tree_ok (h : heap) : rose -> Prop :=
| Tree_ok p ts n :
    children h p (map root_of ts) -> h !! p = Some n -> clean n -> Forall (tree_ok h) ts -> tree_ok h (Rose p ts).

Definition reset_node (n : exfat_node) : exfat_node := set_n_is_cached false (set_n_child None n).

Lemma same_data_clean n n' : same_data n n' -> clean n -> clean n'.
Proof.
  intros E [H1 H2]. pose proof (f_equal n_references E) as E1. pose proof (f_equal n_is_dirty E) as E2.
  cbn in E1, E2. split; congruence.
Qed.

Lemma root_in_nodes t : root_of t ∈ nodes t.
Proof. destruct t. left. Qed.

Lemma roots_in_nodes ts q : q ∈ map root_of ts -> q ∈ flat_map nodes ts.
Proof.
  intros (t & -> & Ht)%list_elem_of_fmap. apply list_elem_of_In, in_flat_map. exists t.
  split; apply list_elem_of_In; [done | apply root_in_nodes].
Qed.

Lemma nodes_in t ts q : t ∈ ts -> q ∈ nodes t -> q ∈ flat_map nodes ts.
Proof. intros Ht Hq. apply list_elem_of_In, in_flat_map. exists t. by rewrite <- !list_elem_of_In. Qed.

Lemma nodes_nodup t ts : t ∈ ts -> NoDup (flat_map nodes ts) ->
  NoDup (nodes t) /\ (length (nodes t) <= length (flat_map nodes ts))%nat.
Proof.
  intros (l1 & l2 & ->)%list_elem_of_split. rewrite flat_map_app. cbn. rewrite !length_app, !NoDup_app.
  intros (_ & _ & ? & _). split; [done | lia].
Qed.

(** A node of one of the trees is the root of no other. *)
Lemma nodes_root ts t t' q : NoDup (flat_map nodes ts) -> t ∈ ts -> t' ∈ ts -> q ∈ nodes t -> q = root_of t' ->
  q = root_of t.
Proof.
  induction ts as [| t0 ts IH]; [by intros _ ?%elem_of_nil |]. cbn. intros (M1 & M2 & M3)%NoDup_app Ht Ht' Hq ->.
  apply elem_of_cons in Ht as [-> | Ht], Ht' as [-> | Ht']; [done | | | by apply IH].
  - destruct (M2 _ Hq). eapply nodes_in; [exact Ht' | apply root_in_nodes].
  - destruct (M2 _ (root_in_nodes t0)). by eapply nodes_in.
Qed.

(** A tree stays when its root changes only beside the tree and the other nodes of
    it stay. *)
Lemma tree_ok_frame k : forall h h' t, (length (nodes t) <= k)%nat -> NoDup (nodes t) -> tree_ok h t ->
  (forall q, q ∈ nodes t -> q <> root_of t -> h' !! q = h !! q) ->
  (forall n, h !! root_of t = Some n ->
     exists n', h' !! root_of t = Some n' /\ same_data n n' /\ n_child n' = n_child n) ->
  tree_ok h' t.
Proof.
  induction k as [| k IH]; intros h h' [p ts] Hk Hnd Ht Hq Hp; [cbn in Hk; lia |].
  inversion Ht as [? ? n Hch Hn Hcl Hts]; subst. cbn [nodes root_of] in *.
  destruct (Hp n Hn) as (n' & Hn' & Hd & Hc). apply NoDup_cons in Hnd as [Hpn Hnd].
  assert (Hin : forall q, q ∈ flat_map nodes ts -> h' !! q = h !! q).
  { intros q Hq'. apply Hq; [by right |]. by intros ->. }
  apply (Tree_ok _ _ _ n'); [| done | by eapply same_data_clean |].
  - destruct Hch as [N (m & Hm & Hmc) Hs]. simplify_eq. split; [done | |].
    + exists n'. split; [done |]. by rewrite Hc.
    + eapply segment_frame; [| exact Hs]. intros q Hq'. by apply Hin, roots_in_nodes.
  - rewrite Forall_forall in Hts |- *. intros t Ht'.
    destruct (nodes_nodup _ _ Ht' Hnd) as [Hndt Hlen].
    cbn in Hk. apply (IH h); [lia | done | by apply Hts | |].
    + intros q Hq' _. by eapply Hin, nodes_in.
    + intros m Hm. exists m. rewrite Hin by (eapply nodes_in; [done | apply root_in_nodes]). done.
Qed.

(** Forget a directory whose children are gone. *)
Lemma reset_cache_last `{Platform} f w d n : w_heap w !! d = Some n -> n_child n = None -> clean n ->
  reset_cache (S f) (Some d) w = Ok tt (set_w_heap (<[d := reset_node n]> (w_heap w)) w).
Proof.
  intros Hn Hc [Hr Hd]. cbn [reset_cache].
  rewrite (bind_ok _ _ _ _ _ (deref_ok _ _ _ Hn)), Hc.
  rewrite (bind_ok _ _ _ _ _ (assign_ok _ _ _ _ Hn)).
  set (w1 := set_w_heap _ w).
  assert (E : reset_node n = set_n_is_cached false n) by (unfold reset_node; rewrite <- Hc; by destruct n).
  assert (Hn1 : w_heap w1 !! d = Some (set_n_is_cached false n)) by apply lookup_insert_eq.
  rewrite (bind_ok _ _ _ _ _ (deref_ok _ _ _ Hn1)). cbn [n_references set_n_is_cached].
  unfold bind at 1, get_state, gets. rewrite Hr. cbn [Z.eqb negb n_is_dirty set_n_is_cached]. rewrite Hd, andb_false_r.
  unfold bind at 1, ret. unfold bind at 1, ret. cbn [put_all Z.to_nat].
  rewrite (bind_ok _ _ _ _ _ (deref_ok _ _ _ Hn1)). cbn [n_references set_n_is_cached]. rewrite Hr, E. done.
Qed.

(** The nodes of the first child and the others. *)
Lemma nodes_split d t ts : NoDup (nodes (Rose d (t :: ts))) ->
  NoDup (nodes t) /\ NoDup (nodes (Rose d ts)) /\ d ∉ nodes t /\
  (forall q, q ∈ nodes t -> q ∉ flat_map nodes ts) /\
  length (nodes (Rose d (t :: ts))) = (length (nodes t) + length (nodes (Rose d ts)))%nat.
Proof.
  cbn [nodes flat_map length]. rewrite !NoDup_cons, NoDup_app, length_app, elem_of_app. intros (N1 & N2 & N3 & N4).
  split_and!; [done | tauto | done | tauto | tauto | lia].
Qed.

(** [tree_detach] and [free] of the first child, after its own tree is gone. *)
Lemma reset_detach `{Platform} w d t ts n :
  NoDup (nodes (Rose d (t :: ts))) -> children (w_heap w) d (map root_of (t :: ts)) ->
  w_heap w !! d = Some n -> clean n -> Forall (tree_ok (w_heap w)) ts ->
  exists h n', (tree_detach (Some (root_of t));; free (Some (root_of t))) w = Ok tt (set_w_heap h w) /\
    tree_ok h (Rose d ts) /\ h !! d = Some n' /\ reset_node n' = reset_node n /\ h !! root_of t = None /\
    (forall q, q ∉ nodes (Rose d ts) -> q <> root_of t -> h !! q = w_heap w !! q).
Proof.
  intros Hnd Hch Hn Hcl Hts. apply nodes_split in Hnd as (_ & N2 & Hdt & Hdisj & _).
  set (p := root_of t) in *. pose proof (root_in_nodes t) as Hpt. fold p in Hpt.
  assert (Hpd : p <> d) by (by intros <-). assert (Hpts : p ∉ flat_map nodes ts) by (by apply Hdisj).
  destruct (tree_detach_spec w d [] (map root_of ts) p Hch) as (h1 & E1 & Hch1 & [R1 R2] & np & Hp & _).
  destruct (R2 d n Hn) as (n' & Hn' & Hsd & Hrn & _). specialize (Hrn eq_refl).
  exists (delete p h1), n'. split.
  { rewrite (bind_ok _ _ _ _ _ E1). unfold free.
    by rewrite (bind_ok _ _ _ _ _ (deref_ok p np (set_w_heap h1 w) Hp)). }
  assert (Hsub : forall q, q ∈ map root_of ts -> q <> p). { intros q Hq%roots_in_nodes ->. done. }
  cbn [nodes] in N2. apply NoDup_cons in N2 as [Hdts N2]. split_and!.
  - apply (Tree_ok _ _ _ n'); [| by rewrite lookup_delete_ne | by eapply same_data_clean |].
    + destruct Hch1 as [N (m & Hm & Hmc) Hs]. split; [done | exists m; by rewrite lookup_delete_ne |].
      eapply segment_frame; [| exact Hs]. intros q Hq. apply lookup_delete_ne. by apply not_eq_sym, Hsub.
    + rewrite Forall_forall in Hts |- *. intros t' Ht'.
      assert (Hin : forall q, q ∈ nodes t' -> q ∈ flat_map nodes ts) by (intros q; by apply nodes_in).
      apply (tree_ok_frame (length (nodes t')) (w_heap w)); [done | | by apply Hts | |].
      * by eapply nodes_nodup.
      * intros q Hq Hqr. rewrite lookup_delete_ne by (intros ->; apply Hpts, Hin, Hq). apply R1.
        intros [-> | [-> | Hq']%elem_of_cons]%elem_of_cons; [by apply Hdts, Hin | by apply Hpts, Hin |].
        apply list_elem_of_fmap in Hq' as (t2 & -> & Ht2). by eapply Hqr, (nodes_root ts t' t2).
      * intros m Hm. destruct (R2 _ _ Hm) as (m' & Hm' & Hsm & _ & Hcm). exists m'.
        rewrite lookup_delete_ne by (intros E; apply Hpts; rewrite E; apply Hin, root_in_nodes).
        split_and!; [done | done |]. apply Hcm. intros E. apply Hdts. rewrite <- E. apply Hin, root_in_nodes.
  - by rewrite lookup_delete_ne.
  - unfold reset_node. by rewrite Hrn.
  - apply lookup_delete_eq.
  - intros q Hq Hqp. rewrite lookup_delete_ne by done. apply R1.
    intros [-> | [-> | Hq']%elem_of_cons]%elem_of_cons; [apply Hq; left | done |].
    apply Hq. right. by apply roots_in_nodes.
Qed.

Lemma reset_cache_spec `{Platform} f : forall w d ts n,
  (length (nodes (Rose d ts)) <= f)%nat -> NoDup (nodes (Rose d ts)) -> tree_ok (w_heap w) (Rose d ts) ->
  w_heap w !! d = Some n ->
  exists h, reset_cache f (Some d) w = Ok tt (set_w_heap h w) /\ h !! d = Some (reset_node n) /\
    (forall q, q ∉ nodes (Rose d ts) -> h !! q = w_heap w !! q) /\
    (forall q, q ∈ flat_map nodes ts -> h !! q = None).
Proof.
  induction f as [| f IH]; intros w d ts n Hf Hnd Ht Hn; [cbn in Hf; lia |].
  inversion Ht as [? ? m Hch Hm Hcl Hts]; subst. assert (m = n) as -> by congruence. destruct ts as [| [p us] ts].
  { destruct Hch as [_ (m & Hm' & Hc) _]. assert (m = n) as -> by congruence. eexists.
    rewrite (reset_cache_last f w d n Hm Hc Hcl).
    split; [done |]. split_and!; [apply lookup_insert_eq | | by intros q ?%elem_of_nil].
    intros q Hq. apply lookup_insert_ne. intros ->. apply Hq. left. }
  pose proof (nodes_split _ _ _ Hnd) as (N1 & N2 & Hdt & Hdisj & Hlen). cbn [root_of] in *.
  assert (Hne : (0 < length (nodes (Rose p us)))%nat /\ (0 < length (nodes (Rose d ts)))%nat) by (cbn; lia).
  apply Forall_cons in Hts as [Htp Hts]. inversion Htp as [? ? np _ Hp _ _]; subst.
  (* the first child *)
  destruct (IH w p us np) as (h1 & E1 & Hp1 & Hfr1 & Hgone1); [lia | done | done | done |].
  set (w1 := set_w_heap h1 w). assert (Hd1 : h1 !! d = Some n) by (by rewrite Hfr1).
  assert (Hch1 : children h1 d (map root_of (Rose p us :: ts))).
  { destruct Hch as [N (m & Hm' & Hc) Hs]. assert (m = n) as -> by congruence. split; [done | by exists n |].
    eapply segment_links; [| exact Hs]. intros q nq Hq Hnq. apply elem_of_cons in Hq as [-> | Hq].
    - cbn [root_of] in *. simplify_eq. exists (reset_node np). done.
    - exists nq. rewrite Hfr1; [done |]. intros Hq'. apply (Hdisj q Hq'), roots_in_nodes, Hq. }
  assert (Hts1 : Forall (tree_ok h1) ts).
  { rewrite Forall_forall in Hts |- *. intros t Ht'. cbn in N2. apply NoDup_cons in N2 as [_ N2].
    assert (Hfr : forall q, q ∈ nodes t -> h1 !! q = w_heap w !! q).
    { intros q Hq. apply Hfr1. intros Hq'. apply (Hdisj q Hq'). by eapply nodes_in. }
    apply (tree_ok_frame (length (nodes t)) (w_heap w)); [done | by eapply nodes_nodup | by apply Hts | |].
    - intros q Hq _. by apply Hfr.
    - intros nt Hnt. exists nt. by rewrite Hfr by apply root_in_nodes. }
  (* detached and freed *)
  destruct (reset_detach w1 d (Rose p us) ts n Hnd Hch1 Hd1 Hcl Hts1) as (h2 & n' & E2 & Ht2 & Hd2 & Hn' & Hp2 & Hfr2).
  cbn [root_of] in *.
  (* the others *)
  destruct (IH (set_w_heap h2 w1) d ts n') as (h3 & E3 & Hd3 & Hfr3 & Hgone3); [lia | done | done | done |].
  exists h3. split.
  { cbn [reset_cache]. rewrite (bind_ok _ _ _ _ _ (deref_ok _ _ _ Hn)).
    pose proof Hch as [_ (m & Hm' & Hc) _]. assert (m = n) as -> by congruence. rewrite Hc. cbn [map first_or root_of].
    rewrite (bind_ok _ _ _ _ _ E1). fold w1. unfold bind at 1 in E2.
    destruct (tree_detach (Some p) w1) as [[] w1' | |] eqn:E2a; [| done | done].
    rewrite (bind_ok _ _ _ _ _ E2a), (bind_ok _ _ _ _ _ E2). exact E3. }
  rewrite <- Hn'. split_and!; [done | |].
  - intros q Hq. cbn [nodes flat_map] in Hq. cbn [nodes] in *.
    rewrite Hfr3, Hfr2, Hfr1; set_solver.
  - intros q Hq. cbn [flat_map] in Hq. apply elem_of_app in Hq as [Hq | Hq]; [| by apply Hgone3].
    assert (Hqd : q ∉ nodes (Rose d ts)).
    { cbn [nodes]. intros [-> | Hq']%elem_of_cons; [by apply Hdt | by apply (Hdisj q)]. }
    rewrite Hfr3 by done. destruct (decide (q = p)) as [-> | Hqp]; [done |].
    rewrite Hfr2 by done. apply Hgone1. cbn [nodes] in Hq. set_solver.
Qed.

Lemma tree_ok_dom k : forall h t q, (length (nodes t) <= k)%nat -> tree_ok h t -> q ∈ nodes t -> is_Some (h !! q).
Proof.
  induction k as [| k IH]; intros h [p ts] q Hk Ht Hq; [cbn in Hk; lia |].
  inversion Ht as [? ? n _ Hn _ Hts]; subst. cbn [nodes] in Hq. apply elem_of_cons in Hq as [-> | Hq]; [eauto |].
  apply list_elem_of_In, in_flat_map in Hq as (t & Ht'%list_elem_of_In & Hq%list_elem_of_In).
  rewrite Forall_forall in Hts. apply (IH h t); [| by apply Hts | done].
  apply list_elem_of_split in Ht' as (l1 & l2 & ->). cbn in Hk. rewrite flat_map_app in Hk. cbn in Hk.
  rewrite !length_app in Hk. lia.
Qed.

Lemma nodes_heap h t : tree_ok h t -> NoDup (nodes t) -> (length (nodes t) <= size h)%nat.
Proof.
  intros Ht Hnd. rewrite <- size_dom, <- (size_list_to_set (C := gset ptr)) by done.
  apply subseteq_size. intros q Hq%elem_of_list_to_set. apply elem_of_dom. by eapply tree_ok_dom.
Qed.

(** Forgetting the tree, as unmounting does: on a tree whose nodes are clean and
    without references, [exfat_reset_cache] frees every node but the root, each
    exactly once and none after its use (it returns, and a use of a freed node would
    halt); the root is left without children and not read; nothing else changes. *)
Theorem exfat_reset_cache_frees_tree `{Platform} w r ts n (Hroot : w_root w = Some r)
  (Hnd : NoDup (nodes (Rose r ts))) (Htree : tree_ok (w_heap w) (Rose r ts)) (Hr : w_heap w !! r = Some n) :
  exists h, exfat_reset_cache w = Ok tt (set_w_heap h w) /\ h !! r = Some (reset_node n) /\
    (forall q, q ∉ nodes (Rose r ts) -> h !! q = w_heap w !! q) /\
    (forall q, q ∈ flat_map nodes ts -> h !! q = None).
Proof.
  unfold exfat_reset_cache. unfold bind at 1, get_state, gets. rewrite Hroot.
  apply reset_cache_spec; [| done | done | done].
  pose proof (nodes_heap _ _ Htree Hnd). unfold tree_fuel. lia.
Qed.

(** ** A small tree: the root 1 holds 2 and 3, the directory 2 holds 4 *)

Definition demo_tree_node (parent child prev next : option ptr) : exfat_node :=
  set_n_parent parent (set_n_child child (set_n_prev prev (set_n_next next zero_node))).

Definition demo_heap : heap := {[
  1%N := demo_tree_node None (Some 2%N) None None;
  2%N := demo_tree_node (Some 1%N) (Some 4%N) None (Some 3%N);
  3%N := demo_tree_node (Some 1%N) None (Some 2%N) None;
  4%N := demo_tree_node (Some 2%N) None None None ]}.

Definition demo_world : world := mk_world demo_vol demo_heap (Some 1%N) 5%N.

Lemma demo_children_root : children demo_heap 1%N [2%N; 3%N].
Proof.
  split; [| by eexists | cbn; split_and!; try done; by eexists].
  refine (bool_decide_unpack _ _); by vm_compute.
Qed.

Lemma demo_children_sub : children demo_heap 2%N [4%N].
Proof.
  split; [| by eexists | cbn; split_and!; try done; by eexists].
  refine (bool_decide_unpack _ _); by vm_compute.
Qed.

Lemma demo_children_leaf p n : demo_heap !! p = Some n -> n_child n = None -> children demo_heap p [].
Proof. intros Hp Hn. split; [apply NoDup_singleton | by exists n | done]. Qed.

Definition demo_rose : rose := Rose 1%N [Rose 2%N [Rose 4%N []]; Rose 3%N []].

Lemma demo_tree_ok : tree_ok demo_heap demo_rose.
Proof.
  assert (Hleaf : forall p n, demo_heap !! p = Some n -> n_child n = None -> clean n -> tree_ok demo_heap (Rose p [])).
  { intros p n Hp Hn Hc. eapply Tree_ok; [by eapply demo_children_leaf | done | done | done]. }
  eapply Tree_ok; [apply demo_children_root | done | done |]. repeat constructor.
  - eapply Tree_ok; [apply demo_children_sub | done | done |]. repeat constructor. by eapply Hleaf.
  - by eapply Hleaf.
Qed.

#[local] Existing Instance word_le64.

(** The node 3 moves from the root into the directory 2. *)
Lemma move_between_directories_witness :
  exists h', (tree_detach (Some 3%N);; tree_attach (Some 2%N) (Some 3%N)) demo_world = Ok tt (set_w_heap h' demo_world) /\
    children h' 1%N [2%N] /\ children h' 2%N [3%N; 4%N] /\
    forall c k, c <> 1%N -> c <> 2%N -> (forall q, q ∈ k -> q ∉ [4%N; 2%N; 3%N]) ->
      children demo_heap c k -> children h' c k.
Proof.
  apply (move_between_directories demo_world 1%N 2%N [2%N] 3%N [] [4%N]).
  - apply demo_children_root.
  - apply demo_children_sub.
  - done.
  - done.
  - intros q ->%list_elem_of_singleton. by vm_compute; set_solver.
Defined.

Lemma exfat_reset_cache_frees_tree_witness :
  exists h, exfat_reset_cache demo_world = Ok tt (set_w_heap h demo_world) /\
    h !! 1%N = Some (reset_node (demo_tree_node None (Some 2%N) None None)) /\
    (forall q, q ∉ [1%N; 2%N; 4%N; 3%N] -> h !! q = demo_heap !! q) /\
    (forall q, q ∈ [2%N; 4%N; 3%N] -> h !! q = None).
Proof.
  apply (exfat_reset_cache_frees_tree demo_world 1%N [Rose 2%N [Rose 4%N []]; Rose 3%N []]).
  - done.
  - refine (bool_decide_unpack _ _); by vm_compute.
  - apply demo_tree_ok.
  - done.
Defined.
