(* ===== verification/Lookup.v ===== *)
(** * Lookup: paths (libexfat/lookup.c)

    Iterating over a directory, comparing names without regard to case, and
    following a path to a node.  A path is the list of its bytes; a pointer into
    it is the rest of the path. *)

From Stdlib Require Import ZArith Lia.
From stdpp Require Import base numbers list gmap.
From S2P Require Import Prelude Bytes Monad Ondisk State Utf Bitmap Geometry Cluster FileIO Utils ExfatTime Entries NodeTree.

#[local] Open Scope Z_scope.

Section Lookup.
Context `{Platform}.

(** ** Definitions *)

(** [struct exfat_iterator] *)
Record exfat_iterator : Type := mk_exfat_iterator {
  it_parent : option ptr;
  it_current : option ptr
}.

Definition exfat_opendir (dir : option ptr) : M world (Z * exfat_iterator) :=
  exfat_get_node dir;;
  let! rc := exfat_cache_directory dir in
  when (negb (rc =? 0)) (exfat_put_node dir);;
  ret (rc, mk_exfat_iterator dir None).

Definition exfat_closedir (it : exfat_iterator) : M world unit := exfat_put_node (it_parent it).

Definition exfat_readdir (it : exfat_iterator) : M world (option ptr * exfat_iterator) :=
  let! current :=
    match it_current it with
    | None => let! n := deref (it_parent it) in ret (n_child n)
    | Some _ => let! n := deref (it_current it) in ret (n_next n)
    end in
  let it := mk_exfat_iterator (it_parent it) current in
  match current with
  | Some _ => let! node := exfat_get_node current in ret (node, it)
  | None => ret (None, it)
  end.

Definition compare_char (upcase : list Z) (a b : Z) : Z := znth upcase a - znth upcase b.

(** A name ends at a zero unit. *)
Fixpoint compare_name (upcase a b : list Z) : Z :=
  let x := match a with [] => 0 | x :: _ => x end in
  let y := match b with [] => 0 | y :: _ => y end in
  if (x =? 0) || (y =? 0) then compare_char upcase x y
  else
    let rc := compare_char upcase x y in
    if negb (rc =? 0) then rc
    else match a, b with
         | _ :: a, _ :: b => compare_name upcase a b
         | _, _ => 0
         end.

(** The loop of [lookup_name]. *)
Fixpoint lookup_loop (fuel : nat) (it : exfat_iterator) (buffer : list Z) : M world (Z * option ptr) :=
  match fuel with
  | O => diverge
  | S fuel =>
      let! (node, it) := exfat_readdir it in
      match node with
      | None => exfat_closedir it;; ret (- ENOENT, None)
      | Some _ =>
          let! w := get_state in
          let! n := deref node in
          if compare_name (ef_upcase (w_ef w)) buffer (n_name n) =? 0 then
            exfat_closedir it;; ret (0, node)
          else
            exfat_put_node node;;
            lookup_loop fuel it buffer
      end
  end.

(** The first [n] bytes of [name]. *)
Definition lookup_name (parent : option ptr) (name : list Z) (n : Z) : M world (Z * option ptr) :=
  let (rc, buffer) := exfat_utf8_to_utf16 name (EXFAT_NAME_MAX + 1) n in
  if negb (rc =? 0) then ret (rc, None)
  else
    let! (rc, it) := exfat_opendir parent in
    if negb (rc =? 0) then ret (rc, None)
    else
      let! w := get_state in
      lookup_loop (tree_fuel w) it buffer.

(** The characters '/' and '.'. *)
Definition slash : Z := 0x2f.
Definition dot : Z := 0x2e.

(** [path + strspn(path, "/")] *)
Fixpoint skip_slashes (path : list Z) : list Z :=
  match path with
  | c :: path' => if c =? slash then skip_slashes path' else path
  | [] => []
  end.

(** The bytes before the first slash. *)
Fixpoint comp_length (comp : list Z) : Z :=
  match comp with
  | c :: comp => if c =? slash then 0 else 1 + comp_length comp
  | [] => 0
  end.

Definition get_comp (path : list Z) : Z * list Z :=
  let comp := skip_slashes path in (comp_length comp, comp).

(** [p + n] *)
Definition advance (p : list Z) (n : Z) : list Z := drop (Z.to_nat n) p.

Definition is_dot (p : list Z) (n : Z) : bool := (n =? 1) && (znth p 0 =? dot).

(** The loop of [exfat_lookup], from the rest [p] of the path; it is over when no
    component is left. *)
Fixpoint lookup_path (fuel : nat) (parent : option ptr) (p : list Z) : M world (Z * option ptr) :=
  let (n, p) := get_comp p in
  if n =? 0 then ret (0, parent)
  else
    match fuel with
    | O => diverge
    | S fuel =>
        if is_dot p n then lookup_path fuel parent (advance p n)
        else
          let! (rc, node) := lookup_name parent p n in
          if negb (rc =? 0) then exfat_put_node parent;; ret (rc, node)
          else
            exfat_put_node parent;;
            lookup_path fuel node (advance p n)
    end.

Definition exfat_lookup (path : list Z) : M world (Z * option ptr) :=
  let! w := get_state in
  let! parent := exfat_get_node (w_root w) in
  lookup_path (length path) parent path.

Definition is_last_comp (comp : list Z) (length : Z) : bool :=
  let (n, _) := get_comp (advance comp length) in n =? 0.

Definition char_allowed (c : Z) : bool :=
  negb ((1 <=? c) && (c <=? 0x1f)) &&
  negb (bool_decide (c ∈ [0x2f; 0x5c; 0x3a; 0x2a; 0x3f; 0x22; 0x3c; 0x3e; 0x7c])).

Definition is_allowed (comp : list Z) (length : Z) : bool := forallb char_allowed (sub comp 0 length).

(** What [exfat_split] returns: the code, the parent, the node and the name. *)
Definition split_result : Type := Z * option ptr * option ptr * list Z.

Definition empty_name : list Z := zrepeat 0 (EXFAT_NAME_MAX + 1).

Fixpoint split_path (fuel : nat) (parent node : option ptr) (p : list Z) : M world split_result :=
  let (n, p) := get_comp p in
  if n =? 0 then exfat_bug
  else
    match fuel with
    | O => diverge
    | S fuel =>
        if is_dot p n then split_path fuel parent node (advance p n)
        else if is_last_comp p n then
          if negb (is_allowed p n) then
            exfat_put_node parent;; ret (- ENOENT, parent, node, empty_name)
          else
            let (rc, units) := exfat_utf8_to_utf16 p (EXFAT_NAME_MAX + 1) n in
            let name := splice empty_name 0 units in
            if negb (rc =? 0) then exfat_put_node parent;; ret (rc, parent, node, name)
            else
              let! (rc, node) := lookup_name parent p n in
              if negb (rc =? 0) && negb (rc =? - ENOENT) then
                exfat_put_node parent;; ret (rc, parent, node, name)
              else ret (0, parent, node, name)
        else
          let! (rc, node) := lookup_name parent p n in
          if negb (rc =? 0) then exfat_put_node parent;; ret (rc, parent, node, empty_name)
          else
            exfat_put_node parent;;
            split_path fuel node node (advance p n)
    end.

Definition exfat_split (path : list Z) : M world split_result :=
  let! w := get_state in
  let! root := exfat_get_node (w_root w) in
  split_path (length path) root root path.
End Lookup.
