(* ===== verification/LookupSpec.v ===== *)
(** * LookupSpec: what a path names (libexfat/lookup.c)

    The tree of nodes as an invariant, references as a quantity that a call takes
    and gives back, and the meaning of a path: looking it up ends on every medium,
    finds the node that the path names, and holds one reference to it. *)

From Stdlib Require Import ZArith Lia.
From stdpp Require Import base numbers list gmap.
From S2P Require Import Prelude Bytes Monad Ondisk State Utf Bitmap Geometry Cluster FileIO Utils ExfatTime Entries EntriesSpec DirTerm NodeTree TreeSpec TreeReset Lookup.

#[local] Open Scope Z_scope.

(** ** The tree of nodes *)

(** What the code counts on in a node. *)
Record node_ok (n : exfat_node) : Prop := {
  no_below : below64 n;
  no_offset : 0 <= n_entry_offset n;
  no_continuations : 0 <= n_continuations n;
  no_references : 0 <= n_references n;
  no_uncached : n_is_cached n = false -> n_child n = None;
  no_cached : n_is_cached n = true -> is_dir n = true;
  no_unlinked : n_is_unlinked n = true -> n_parent n = None
}.

(** The way from a node up to a node without parent. *)
Inductive ancestry (h : heap) : ptr -> list ptr -> Prop :=
| ancestry_top p n : h !! p = Some n -> n_parent n = None -> ancestry h p [p]
| ancestry_up p n d l : h !! p = Some n -> n_parent n = Some d -> ancestry h d l -> p ∉ l -> ancestry h p (p :: l).

(** Every node has the list of its children, which is empty unless it was read; it is
    in the list of its parent, no node is above itself, and a node without parent is the
    last one of its list. *)
Record forest (w : world) : Prop := {
  fo_fresh : forall q, is_Some (w_heap w !! q) -> (q < w_fresh w)%N;
  fo_cluster : 0 < CLUSTER_SIZE (ef_sb (w_ef w));
  fo_root : exists r n, w_root w = Some r /\ w_heap w !! r = Some n /\
    n_parent n = None /\ is_dir n = true /\ n_is_unlinked n = false;
  fo_node : forall p n, w_heap w !! p = Some n -> node_ok n;
  fo_list : forall p, is_Some (w_heap w !! p) -> exists l, children (w_heap w) p l;
  fo_parent : forall p n d, w_heap w !! p = Some n -> n_parent n = Some d ->
    exists l, children (w_heap w) d l /\ p ∈ l;
  fo_ancestry : forall p, is_Some (w_heap w !! p) -> exists l, ancestry (w_heap w) p l;
  fo_next : forall p n, w_heap w !! p = Some n -> n_parent n = None -> n_next n = None
}.

(** The references to a node. *)
Definition refs (w : world) (q : ptr) : Z :=
  match w_heap w !! q with Some n => n_references n | None => 0 end.

(** [k] references to [p] and none to the others. *)
Definition one (p : ptr) (k : Z) (q : ptr) : Z := if decide (q = p) then k else 0.

(** What later steps keep of a node. *)
Definition kept (n n' : exfat_node) : Prop :=
  n_parent n' = n_parent n /\ n_name n' = n_name n /\ n_attrib n' = n_attrib n /\
  n_is_unlinked n' = n_is_unlinked n /\ (n_is_cached n = true -> n_is_cached n' = true).

(** From [w] to [w'] the tree may only grow by directories that are read; [d] is what
    happens to the references. *)
Record later (d : ptr -> Z) (w w' : world) : Prop := {
  la_forest : forest w';
  la_volume : same_volume w w';
  la_root : w_root w' = w_root w;
  la_node : forall p n, w_heap w !! p = Some n -> exists n', w_heap w' !! p = Some n' /\ kept n n';
  la_refs : forall q, refs w' q = refs w q + d q;
  la_list : forall p n l, w_heap w !! p = Some n -> n_is_cached n = true ->
    children (w_heap w) p l -> children (w_heap w') p l
}.

Lemma kept_trans n1 n2 n3 : kept n1 n2 -> kept n2 n3 -> kept n1 n3.
Proof. unfold kept. intuition congruence. Qed.

Lemma same_volume_trans w1 w2 w3 : same_volume w1 w2 -> same_volume w2 w3 -> same_volume w1 w3.
Proof.
  intros [A1 A2] [B1 B2]. split; [congruence |]. intros Hu. rewrite <- (A2 Hu). apply B2. by rewrite A2.
Qed.

Lemma later_refl w : forest w -> later (fun _ => 0) w w.
Proof. intros Hf. split; try done; [intros p n Hp; exists n; by repeat split | intros; lia]. Qed.

Lemma later_trans d1 d2 d w1 w2 w3 :
  later d1 w1 w2 -> later d2 w2 w3 -> (forall q, d q = d1 q + d2 q) -> later d w1 w3.
Proof.
  intros [A1 A2 A3 A4 A5 A6] [B1 B2 B3 B4 B5 B6] Hd. split.
  - done.
  - by eapply same_volume_trans.
  - congruence.
  - intros p n Hp. destruct (A4 p n Hp) as (n2 & Hp2 & K2). destruct (B4 p n2 Hp2) as (n3 & Hp3 & K3).
    exists n3. split; [done |]. by eapply kept_trans.
  - intros q. rewrite B5, A5, Hd. lia.
  - intros p n l Hp Hc Hl. destruct (A4 p n Hp) as (n2 & Hp2 & K2).
    apply (B6 p n2); [done | by apply K2 | by apply (A6 p n)].
Qed.

(** The list of a directory is determined by the heap. *)
Lemma segment_unique h d : forall l prev l', segment h d prev l None -> segment h d prev l' None ->
  first_or l None = first_or l' None -> l = l'.
Proof.
  induction l as [| p l IH]; intros prev [| q l']; cbn; try done.
  intros [(n & Hn & _ & _ & E) Hs] [(n' & Hn' & _ & _ & E') Hs'] [= <-]. f_equal.
  apply (IH (Some p)); [done | done | congruence].
Qed.

Lemma children_unique h d l l' : children h d l -> children h d l' -> l = l'.
Proof.
  intros [_ (n & Hn & E) Hs] [_ (n' & Hn' & E') Hs']. eapply segment_unique; [done | done | congruence].
Qed.

(** ** References *)

Definition add_refs (k : Z) (n : exfat_node) : exfat_node := set_n_references (n_references n + k) n.

Definition bump (p : ptr) (k : Z) (w : world) : world := set_w_heap (alter (add_refs k) p (w_heap w)) w.

Lemma bump_lookup p k w q :
  w_heap (bump p k w) !! q = (if decide (q = p) then add_refs k <$> w_heap w !! q else w_heap w !! q).
Proof.
  cbn. destruct (decide (q = p)) as [-> | Hq]; [apply lookup_alter_eq | by apply lookup_alter_ne].
Qed.

Lemma add_refs_links k n : n_parent (add_refs k n) = n_parent n /\ n_prev (add_refs k n) = n_prev n /\
  n_next (add_refs k n) = n_next n /\ n_child (add_refs k n) = n_child n.
Proof. done. Qed.

(** A node of the changed heap. *)
Lemma bump_node p k w q n : w_heap w !! q = Some n ->
  exists n', w_heap (bump p k w) !! q = Some n' /\ (n' = n \/ n' = add_refs k n).
Proof. intros Hn. rewrite bump_lookup, Hn. destruct (decide _); eexists; split; try done; tauto. Qed.

Lemma bump_children p k w d l : children (w_heap w) d l -> children (w_heap (bump p k w)) d l.
Proof.
  intros [Hnd (n & Hn & Hc) Hs]. split; [done | |].
  - destruct (bump_node p k w d n Hn) as (n' & Hn' & [-> | ->]); eexists; (split; [exact Hn' | exact Hc]).
  - eapply segment_links; [| exact Hs]. intros q m _ Hm.
    destruct (bump_node p k w q m Hm) as (m' & Hm' & [-> | ->]); eexists; (split; [exact Hm' | done]).
Qed.

Lemma ancestry_parents h h' p l :
  (forall q n, q ∈ l -> h !! q = Some n -> exists n', h' !! q = Some n' /\ n_parent n' = n_parent n) ->
  ancestry h p l -> ancestry h' p l.
Proof.
  intros Hh Ha. induction Ha as [p n Hn Hp | p n d l Hn Hp Ha IH Hpl].
  - destruct (Hh p n ltac:(left) Hn) as (n' & Hn' & E). eapply ancestry_top; [exact Hn' | congruence].
  - destruct (Hh p n ltac:(left) Hn) as (n' & Hn' & E). apply (ancestry_up _ p n' d); [done | by rewrite E | | done].
    apply IH. intros q m Hq. apply Hh. by right.
Qed.

Lemma bump_forest p k w : forest w -> 0 <= refs w p + k -> forest (bump p k w).
Proof.
  intros [F1 F2 F3 F4 F5 F6 F7 F8] Hk.
  assert (Hback : forall q, is_Some (w_heap (bump p k w) !! q) -> is_Some (w_heap w !! q)).
  { intros q Hq. rewrite bump_lookup in Hq. destruct (decide _); [by apply fmap_is_Some in Hq | done]. }
  split.
  - intros q Hq. apply F1, Hback, Hq.
  - done.
  - destruct F3 as (r & n & Hr & Hn & ?).
    destruct (bump_node p k w r n Hn) as (n' & Hn' & [-> | ->]); eexists r, _; (split; [exact Hr |]; split; [exact Hn' | done]).
  - intros q n Hq. rewrite bump_lookup in Hq. destruct (decide _) as [-> |]; [| by eapply F4].
    apply fmap_Some in Hq as (m & Hm & ->). unfold refs in Hk. rewrite Hm in Hk. by destruct (F4 p m Hm).
  - intros q Hq. destruct (F5 q) as [l Hl]; [by apply Hback |]. exists l. by apply bump_children.
  - intros q n d Hq Hp. rewrite bump_lookup in Hq. destruct (decide _) as [-> |].
    + apply fmap_Some in Hq as (m & Hm & ->). destruct (F6 p m d Hm Hp) as (l & Hl & ?).
      exists l. split; [by apply bump_children | done].
    + destruct (F6 q n d Hq Hp) as (l & Hl & ?). exists l. split; [by apply bump_children | done].
  - intros q Hq. destruct (F7 q) as [l Hl]; [by apply Hback |]. exists l. eapply ancestry_parents; [| exact Hl].
    intros a m _ Hm. destruct (bump_node p k w a m Hm) as (m' & Hm' & [-> | ->]); by eexists.
  - intros q n Hq. rewrite bump_lookup in Hq. destruct (decide _) as [-> |]; [| by apply (F8 q)].
    apply fmap_Some in Hq as (m & Hm & ->). apply (F8 p m Hm).
Qed.

Lemma bump_later p k w : forest w -> is_Some (w_heap w !! p) -> 0 <= refs w p + k -> later (one p k) w (bump p k w).
Proof.
  intros Hf [np Hp] Hk. split.
  - by apply bump_forest.
  - by split.
  - done.
  - intros q n Hn. destruct (bump_node p k w q n Hn) as (n' & Hn' & [-> | ->]); eexists; (split; [exact Hn' | done]).
  - intros q. unfold refs, one. rewrite bump_lookup. destruct (decide (q = p)) as [-> |]; [by rewrite Hp | lia].
  - intros q n l _ _. apply bump_children.
Qed.

Lemma refs_nonneg w p : forest w -> 0 <= refs w p.
Proof. intros Hf. unfold refs. destruct (w_heap w !! p) as [n |] eqn:E; [by apply (fo_node _ Hf p n) | lia]. Qed.

Lemma refs_some w p : refs w p <> 0 -> is_Some (w_heap w !! p).
Proof. unfold refs. destruct (w_heap w !! p); [by eexists | done]. Qed.

Lemma get_later p w : forest w -> is_Some (w_heap w !! p) -> later (one p 1) w (bump p 1 w).
Proof. intros Hf Hp. pose proof (refs_nonneg w p Hf). apply bump_later; [done | done | lia]. Qed.

Lemma put_later p w : forest w -> 1 <= refs w p -> later (one p (-1)) w (bump p (-1) w).
Proof. intros Hf Hp. apply bump_later; [done | apply refs_some; lia | lia]. Qed.

(** A node that was not removed from its directory. *)
Definition linked (w : world) (p : ptr) : Prop := exists n, w_heap w !! p = Some n /\ n_is_unlinked n = false.

Lemma linked_some w p : linked w p -> is_Some (w_heap w !! p).
Proof. intros (n & ? & _). by exists n. Qed.

Lemma linked_later d w w' p : later d w w' -> linked w p -> linked w' p.
Proof.
  intros Hl (n & Hn & Hu). destruct (la_node _ _ _ Hl p n Hn) as (n' & Hn' & _ & _ & _ & E & _).
  exists n'. by rewrite E.
Qed.

(** A child of a directory. *)
Lemma child_linked w d l p : forest w -> children (w_heap w) d l -> p ∈ l -> linked w p.
Proof.
  intros Hf [_ _ Hs] Hp. apply list_elem_of_split in Hp as (l1 & l2 & ->).
  apply segment_app in Hs as [_ [(n & Hn & Hpar & _) _]]. exists n. split; [done |].
  destruct (n_is_unlinked n) eqn:E; [| done]. pose proof (no_unlinked n (fo_node _ Hf p n Hn) E). congruence.
Qed.

Lemma root_linked w r : forest w -> w_root w = Some r -> linked w r.
Proof. intros Hf Hr. destruct (fo_root _ Hf) as (r' & n & Hr' & Hn & _ & _ & Hu). simplify_eq. by exists n. Qed.

Lemma later_dom d w w' p : later d w w' -> is_Some (w_heap w !! p) -> is_Some (w_heap w' !! p).
Proof. intros Hl [n Hn]. destruct (la_node _ _ _ Hl p n Hn) as (n' & -> & _). eauto. Qed.

Section Refs.
Context `{Platform}.

Lemma alter_insert_some {A} (f : A -> A) (h : gmap ptr A) p n : h !! p = Some n -> <[p := f n]> h = alter f p h.
Proof.
  intros Hp. apply map_eq. intros q. destruct (decide (q = p)) as [-> | Hq].
  - by rewrite lookup_insert_eq, lookup_alter_eq, Hp.
  - by rewrite lookup_insert_ne, lookup_alter_ne.
Qed.

Lemma get_node_ok p w : is_Some (w_heap w !! p) -> exfat_get_node (Some p) w = Ok (Some p) (bump p 1 w).
Proof.
  intros [n Hn]. unfold exfat_get_node. rewrite (bind_ok _ _ _ _ _ (assign_ok _ _ _ _ Hn)).
  unfold ret, bump. by rewrite <- (alter_insert_some (add_refs 1) _ _ n Hn).
Qed.

Lemma wpt_get_node (Q : option ptr -> world -> Prop) p w :
  is_Some (w_heap w !! p) -> Q (Some p) (bump p 1 w) -> wpt (exfat_get_node (Some p)) Q w.
Proof. intros Hp HQ. unfold wpt. by rewrite get_node_ok. Qed.

Lemma wpt_get_name {S} n (Q : list Z -> S -> Prop) s : (forall name, Q name s) -> wpt (exfat_get_name n) Q s.
Proof.
  intros HQ. unfold exfat_get_name. destruct (exfat_utf16_to_utf8 _ _ _).
  destruct (negb _); [apply wpt_halt | by apply wpt_ret].
Qed.

(** Giving back a reference only counts it. *)
Lemma wpt_put_node (Q : unit -> world -> Prop) p w :
  is_Some (w_heap w !! p) -> (1 <= refs w p -> Q tt (bump p (-1) w)) -> wpt (exfat_put_node (Some p)) Q w.
Proof.
  intros [n Hn] HQ. unfold exfat_put_node.
  apply wpt_bind, (wpt_assign _ _ _ _ n Hn).
  change (set_n_references (n_references n - 1) n) with (add_refs (-1) n).
  rewrite (alter_insert_some (add_refs (-1)) _ _ n Hn). fold (bump p (-1) w).
  apply wpt_bind, (wpt_deref _ _ _ (add_refs (-1) n)).
  { rewrite bump_lookup, decide_True, Hn by done. done. }
  apply wpt_bind, wpt_get. cbn beta. destruct (Z.ltb_spec (n_references (add_refs (-1) n)) 0) as [| Hpos].
  { apply wpt_bind, wpt_get_name. intros. apply wpt_halt. }
  assert (HQ' : Q tt (bump p (-1) w)) by (apply HQ; unfold refs; rewrite Hn; cbn in Hpos; lia).
  destruct (_ && _); [| by apply wpt_ret].
  destruct (n_is_dirty _); [| by apply wpt_ret]. apply wpt_bind, wpt_get_name. intros. by apply wpt_ret.
Qed.

(** ** Opening a directory *)

Lemma children_place h h' p l :
  (forall q n, h !! q = Some n -> exists n', h' !! q = Some n' /\
     n_parent n' = n_parent n /\ n_prev n' = n_prev n /\ n_next n' = n_next n /\ (q = p -> n_child n' = n_child n)) ->
  children h p l -> children h' p l.
Proof.
  intros Hh [Hnd (n & Hn & Hc) Hs]. split; [done | |].
  - destruct (Hh p n Hn) as (n' & Hn' & _ & _ & _ & E). exists n'. split; [done |]. by rewrite E.
  - eapply segment_links; [| exact Hs]. intros q m _ Hm. destruct (Hh q m Hm) as (m' & ? & ? & ? & ? & _). by exists m'.
Qed.

(** The tree after the directory [d] was read, or not: [l] are the new nodes. *)
Section ReadLater.
Context (w w' : world) (d : ptr) (nd : exfat_node) (cached : bool) (l : list ptr).
Hypothesis Hf : forest w.
Hypothesis Hd : w_heap w !! d = Some nd.
Hypothesis Hcd : n_is_cached nd = false.
Hypothesis Hdir : is_dir nd = true.
Hypothesis Hroot : w_root w' = w_root w.
Hypothesis Hv : same_volume w w'.
Hypothesis Hfresh : forall q, is_Some (w_heap w' !! q) -> (q < w_fresh w')%N.
Hypothesis Hnow : dir_now w' d nd cached.
Hypothesis Hl0 : cached = false -> l = [].
Hypothesis Hl : children (w_heap w') d l.
Hypothesis Hnew : forall p, p ∈ l -> w_heap w !! p = None /\ exists n, w_heap w' !! p = Some n /\ is_leaf n.
Hypothesis Hfr : forall q, q ∉ d :: l -> w_heap w' !! q = w_heap w !! q.

Lemma read_old q n : w_heap w !! q = Some n -> q <> d -> w_heap w' !! q = Some n.
Proof using Hnew Hfr. clear - Hnew Hfr.
  intros Hq Hqd. rewrite <- Hq. apply Hfr. intros [-> | Hql]%elem_of_cons; [done |]. destruct (Hnew q Hql). congruence.
Qed.

(** The links of a node stay, but for the child of [d]. *)
Lemma read_node q n : w_heap w !! q = Some n -> exists n', w_heap w' !! q = Some n' /\ kept n n' /\
  n_prev n' = n_prev n /\ n_next n' = n_next n /\ (q <> d -> n' = n).
Proof using Hd Hcd Hnow Hnew Hfr. clear - Hd Hcd Hnow Hnew Hfr.
  intros Hq. destruct (decide (q = d)) as [-> | Hqd]; [| exists n; split; [by apply read_old | done]].
  simplify_eq. destruct Hnow as (nd' & Hd' & _ & Hpl & _). unfold node_place in Hpl. injection Hpl as P1 P2 P3 P4 P5 P6 P7 P8 P9 P10.
  exists nd'. by split_and!; [| split_and!; congruence | ..].
Qed.

Lemma read_list p k : p <> d -> children (w_heap w) p k -> children (w_heap w') p k.
Proof using Hd Hcd Hnow Hnew Hfr. clear - Hd Hcd Hnow Hnew Hfr.
  intros Hp. apply children_place. intros q n Hq. destruct (read_node q n Hq) as (n' & Hn' & (K & _) & E1 & E2 & E3).
  exists n'. split_and!; [done | done | done | done |]. intros ->. by rewrite E3.
Qed.

Lemma read_ancestry p k : ancestry (w_heap w) p k -> ancestry (w_heap w') p k.
Proof using Hd Hcd Hnow Hnew Hfr. clear - Hd Hcd Hnow Hnew Hfr.
  apply ancestry_parents. intros q n _ Hq. destruct (read_node q n Hq) as (n' & ? & (? & _) & _). by exists n'.
Qed.

Lemma read_cases q n : w_heap w' !! q = Some n ->
  q = d \/ (q ∈ l /\ is_leaf n /\ n_parent n = Some d) \/ (q <> d /\ w_heap w !! q = Some n).
Proof using Hl Hnew Hfr. clear - Hl Hnew Hfr.
  intros Hq. destruct (decide (q ∈ d :: l)) as [[-> | Hql]%elem_of_cons | Hqn]; [tauto | |].
  - right. left. destruct (Hnew q Hql) as (_ & m & Hm & Hleaf). assert (m = n) as -> by congruence. split_and!; [done | done |].
    destruct Hl as [_ _ Hs]. apply list_elem_of_split in Hql as (l1 & l2 & ->).
    apply segment_app in Hs as [_ [(m & Hm' & Hp & _) _]]. congruence.
  - right. right. split; [set_solver |]. by rewrite <- Hfr.
Qed.

Lemma read_node_ok p n : w_heap w' !! p = Some n -> node_ok n.
Proof using Hf Hd Hcd Hdir Hnow Hl0 Hl Hnew Hfr. clear - Hf Hd Hcd Hdir Hnow Hl0 Hl Hnew Hfr.
  intros Hp. destruct (read_cases p n Hp) as [-> | [(Hpl & Hleaf & _) | [Hpd Hp']]]; [| | by eapply fo_node].
  - destruct Hnow as (nd' & Hd' & Hcd' & Hpl & Hb). assert (nd' = n) as -> by congruence.
    unfold node_place in Hpl. injection Hpl as P1 P2 P3 P4 P5 P6 P7 P8 P9 P10. destruct (fo_node _ Hf d nd Hd).
    split; [done | by rewrite P9 | by rewrite P10 | by rewrite P4 | | unfold is_dir in *; by rewrite P6 | by rewrite P5, P1].
    intros E. rewrite E in Hcd'. rewrite (Hl0 (eq_sym Hcd')) in Hl. destruct Hl as [_ (m & Hm & Hc) _]. cbn in Hc. congruence.
  - destruct Hleaf as (C & R & Ca & U & (B1 & B2) & B0 & O1 & O2).
    split; [unfold below64; lia | done | lia | lia | done | by rewrite Ca | by rewrite U].
Qed.

Lemma read_parent p n a : w_heap w' !! p = Some n -> n_parent n = Some a -> exists k, children (w_heap w') a k /\ p ∈ k.
Proof using Hf Hd Hcd Hnow Hl Hnew Hfr. clear - Hf Hd Hcd Hnow Hl Hnew Hfr.
  intros Hp Ha. assert (Hq : (exists m, w_heap w !! p = Some m /\ n_parent m = Some a) \/ (p ∈ l /\ a = d)).
  { destruct (read_cases p n Hp) as [-> | [(Hpl & _ & Hpar) | [Hpd Hp']]].
    - left. exists nd. split; [done |]. destruct (read_node d nd Hd) as (n' & Hn' & (K & _) & _). congruence.
    - right. split; [done | congruence].
    - left. by exists n. }
  destruct Hq as [(m & Hm & Hma) | [Hpl ->]]; [| by exists l].
  destruct (fo_parent _ Hf p m a Hm Hma) as (k & Hk & Hpk). exists k. split; [| done]. apply read_list; [| done].
  intros ->. destruct Hk as [_ (x & Hx & Hcx) _]. simplify_eq.
  rewrite (no_uncached _ (fo_node _ Hf d nd Hd) Hcd) in Hcx. destruct k; [by apply elem_of_nil in Hpk | done].
Qed.

Lemma read_above p : is_Some (w_heap w' !! p) -> exists k, ancestry (w_heap w') p k.
Proof using Hf Hd Hcd Hnow Hl Hnew Hfr. clear - Hf Hd Hcd Hnow Hl Hnew Hfr.
  destruct (fo_ancestry _ Hf d ltac:(eauto)) as [k Hk]. intros [n Hp].
  destruct (read_cases p n Hp) as [-> | [(Hpl & _ & Hpar) | [Hpd Hp']]].
  - exists k. by apply read_ancestry.
  - exists (p :: k). eapply ancestry_up; [exact Hp | done | by apply read_ancestry |].
    intros Hin. destruct (Hnew p Hpl) as [Hnone _]. clear - Hk Hin Hnone.
    induction Hk as [q m Hm | q m e l1 Hm _ _ IH _]; [apply list_elem_of_singleton in Hin as ->; congruence |].
    apply elem_of_cons in Hin as [-> | Hin]; [congruence | by apply IH].
  - destruct (fo_ancestry _ Hf p ltac:(eauto)) as [k' Hk']. exists k'. by apply read_ancestry.
Qed.

Lemma read_forest : forest w'.
Proof using Hf Hd Hcd Hdir Hroot Hv Hfresh Hnow Hl0 Hl Hnew Hfr.
  split; [done | rewrite (proj1 Hv); apply Hf | | exact read_node_ok | | exact read_parent | exact read_above |].
  - destruct (fo_root _ Hf) as (r & n & Hr' & Hn & Hn1 & Hn2 & Hn3). destruct (read_node r n Hn) as (n' & Hn' & (K1 & _ & K3 & K4 & _) & _).
    exists r, n'. unfold is_dir in *. split_and!; congruence.
  - intros p [n Hp]. destruct (read_cases p n Hp) as [-> | [(Hpl & Hleaf & _) | [Hpd Hp']]]; [by exists l | |].
    + exists []. split; [apply NoDup_singleton | exists n; split; [done | apply Hleaf] | done].
    + destruct (fo_list _ Hf p ltac:(eauto)) as [k Hk]. exists k. by apply read_list.
  - intros p n Hp Hpar. destruct (read_cases p n Hp) as [-> | [(_ & _ & E) | [Hpd Hp']]]; [| congruence | by apply (fo_next _ Hf p)].
    destruct (read_node d nd Hd) as (n' & Hn' & (K & _) & _ & E & _). simplify_eq. rewrite E. apply (fo_next _ Hf d nd Hd). congruence.
Qed.

Lemma read_refs q : refs w' q = refs w q + 0.
Proof using Hd Hcd Hnow Hl Hnew Hfr. clear - Hd Hcd Hnow Hl Hnew Hfr.
  unfold refs. destruct (w_heap w' !! q) as [n |] eqn:Hq.
  - destruct (read_cases q n Hq) as [-> | [(Hql & Hleaf & _) | [Hqd Hq']]].
    + rewrite Hd. destruct Hnow as (nd' & Hd' & _ & Hpl & _). unfold node_place in Hpl. injection Hpl as P1 P2 P3 P4 P5 P6 P7 P8 P9 P10.
      assert (nd' = n) as -> by congruence. lia.
    + rewrite (proj1 (Hnew q Hql)). destruct Hleaf as (_ & -> & _). lia.
    + rewrite Hq'. lia.
  - destruct (w_heap w !! q) as [n |] eqn:Hq'; [| lia]. destruct (read_node q n Hq') as (? & ? & _). congruence.
Qed.

Lemma read_later : later (fun _ => 0) w w'.
Proof using Hf Hd Hcd Hdir Hroot Hv Hfresh Hnow Hl0 Hl Hnew Hfr.
  split; [apply read_forest | done | done | | apply read_refs |].
  - intros p n Hp. destruct (read_node p n Hp) as (n' & ? & ? & _). by exists n'.
  - intros p n k Hp Hc Hk. apply read_list; [| done]. intros ->. congruence.
Qed.
End ReadLater.

Lemma cache_directory_some w d : forest w -> is_Some (w_heap w !! d) ->
  wpt (exfat_cache_directory (Some d))
    (fun rc w' => rc <> - ENOENT /\ later (fun _ => 0) w w' /\
       (rc = 0 -> exists n, w_heap w' !! d = Some n /\ n_is_cached n = true)) w.
Proof.
  intros Hf [nd Hd]. pose proof (fo_node _ Hf d nd Hd) as Hok. destruct (n_is_cached nd) eqn:Hcd.
  { unfold exfat_cache_directory. apply wpt_bind, (wpt_deref _ _ _ _ Hd). rewrite Hcd. apply wpt_ret.
    split_and!; [done | by apply later_refl | eauto]. }
  eapply wpt_mono; [apply (cache_directory_wpt w d nd); try done|].
  - by apply no_uncached.
  - split; [apply (fo_cluster _ Hf) | by apply no_below].
  - apply (fo_fresh _ Hf).
  - intros rc w' (Hr & Hv & Hfr & Hne & Hdir & Hres). destruct (Z.eqb_spec rc 0) as [-> | Hrc].
    + destruct Hres as [Hnow (l & Hl & Hnew & Hfrm)]. split_and!; [done | |].
      * by eapply (read_later w w' d nd true l).
      * intros _. destruct Hnow as (nd' & ? & ? & _). eauto.
    + destruct Hres as (Hnow & Hl & Hfrm). split_and!; [done | | done].
      eapply (read_later w w' d nd false []); try done; [by intros ? ?%elem_of_nil |].
      intros q Hq. apply Hfrm. set_solver.
Qed.

Lemma opendir_some w d : forest w -> is_Some (w_heap w !! d) ->
  wpt (exfat_opendir (Some d))
    (fun r w' => r.2 = mk_exfat_iterator (Some d) None /\ r.1 <> - ENOENT /\
       later (if r.1 =? 0 then one d 1 else fun _ => 0) w w' /\
       (r.1 = 0 -> exists n, w_heap w' !! d = Some n /\ n_is_cached n = true)) w.
Proof.
  intros Hf Hd. pose proof (get_later d w Hf Hd) as L1.
  unfold exfat_opendir. apply wpt_bind, wpt_get_node; [done |].
  apply wpt_bind. eapply wpt_mono; [apply cache_directory_some; [apply L1 | by eapply later_dom] |].
  intros rc w2 (Hne & L2 & Hc).
  assert (L12 : later (one d 1) w w2) by (eapply later_trans; [exact L1 | exact L2 | intros q; cbn beta; lia]).
  apply wpt_bind, wpt_when; intros Hrc; cbn [fst snd] in *.
  - apply wpt_put_node; [by eapply later_dom |]. intros Hr2. apply wpt_ret. cbn [fst snd].
    destruct (Z.eqb_spec rc 0); [done |]. split_and!; [done | done | | done].
    eapply later_trans; [exact L12 | apply put_later; [apply L12 | done] |].
    intros q. unfold one. destruct (decide _); lia.
  - apply wpt_ret. cbn [fst snd]. destruct (Z.eqb_spec rc 0) as [-> |]; [| done]. by split_and!.
Qed.
Lemma opendir_later w d : forest w -> linked w d ->
  wpt (exfat_opendir (Some d))
    (fun r w' => r.2 = mk_exfat_iterator (Some d) None /\ r.1 <> - ENOENT /\
       later (if r.1 =? 0 then one d 1 else fun _ => 0) w w' /\
       (r.1 = 0 -> exists n, w_heap w' !! d = Some n /\ n_is_cached n = true)) w.
Proof. intros Hf Hd. by apply opendir_some, linked_some. Qed.
End Refs.

(** ** Looking for a name in a directory *)

Section Names.
Context `{Platform}.

(** A child whose name is another one. *)
Definition other_name (up buffer : list Z) (h : heap) (q : ptr) : Prop :=
  exists n, h !! q = Some n /\ compare_name up buffer (n_name n) <> 0.

Lemma readdir_ok w d l1 l2 : children (w_heap w) d (l1 ++ l2) ->
  exfat_readdir (mk_exfat_iterator (Some d) (last_or None l1)) w =
  match l2 with
  | [] => Ok (None, mk_exfat_iterator (Some d) None) w
  | p :: _ => Ok (Some p, mk_exfat_iterator (Some d) (Some p)) (bump p 1 w)
  end.
Proof.
  intros [Hnd (nd & Hd & Hc) Hs]. unfold exfat_readdir. cbn [it_current it_parent].
  assert (E : match last_or None l1 with
      | None => let! n := deref (Some d) in ret (n_child n)
      | Some _ => let! n := deref (last_or None l1) in ret (n_next n)
      end w = Ok (first_or l2 None) w).
  { destruct (last_case l1) as [-> | (k & q & ->)].
    - cbn [last_or]. rewrite (bind_ok _ _ _ _ _ (deref_ok _ _ _ Hd)). cbn in Hc. by rewrite Hc.
    - rewrite last_or_app. cbn [last_or]. rewrite <- app_assoc in Hs. apply segment_app in Hs as [_ [(n & Hn & _ & _ & E) _]].
      rewrite (bind_ok _ _ _ _ _ (deref_ok _ _ _ Hn)). by rewrite E. }
  rewrite (bind_ok _ _ _ _ _ E). destruct l2 as [| p l2]; cbn [first_or]; [done |].
  apply segment_app in Hs as [_ [(n & Hn & _) _]].
  rewrite (bind_ok _ _ _ _ _ (get_node_ok p w ltac:(eauto))). done.
Qed.

Lemma lookup_loop_spec d up buffer : forall l2 l1 fuel w,
  forest w -> children (w_heap w) d (l1 ++ l2) -> ef_upcase (w_ef w) = up -> (length l2 < fuel)%nat ->
  wpt (lookup_loop fuel (mk_exfat_iterator (Some d) (last_or None l1)) buffer)
    (fun r w' =>
       (exists k1 p k2 n, l2 = k1 ++ p :: k2 /\ r = (0, Some p) /\ w_heap w !! p = Some n /\
          later (fun q => one d (-1) q + one p 1 q) w w' /\
          compare_name up buffer (n_name n) = 0 /\ Forall (other_name up buffer (w_heap w)) k1) \/
       (r = (- ENOENT, None) /\ later (one d (-1)) w w' /\ Forall (other_name up buffer (w_heap w)) l2)) w.
Proof.
  induction l2 as [| p l2 IH]; intros l1 [| fuel] w Hf Hl Hu Hfuel; cbn [length] in Hfuel; try lia; cbn [lookup_loop].
  - assert (Hd : is_Some (w_heap w !! d)) by (destruct Hl as [_ (n & ? & _) _]; eauto).
    apply wpt_bind. unfold wpt at 1. rewrite (readdir_ok w d l1 [] Hl).
    apply wpt_bind. unfold exfat_closedir. cbn [it_parent]. apply wpt_put_node; [done |]. intros Hr. apply wpt_ret.
    right. split_and!; [done | by apply put_later | done].
  - assert (Hd : is_Some (w_heap w !! d)) by (destruct Hl as [_ (n & ? & _) _]; eauto).
    destruct (segment_elem _ _ _ _ _ p (ch_list _ _ _ Hl)) as [n Hn]; [set_solver |].
    apply wpt_bind. unfold wpt at 1. rewrite (readdir_ok w d l1 (p :: l2) Hl).
    pose proof (get_later p w Hf ltac:(eauto)) as L1. pose proof (la_forest _ _ _ L1) as Hf1.
    apply wpt_bind, wpt_get, wpt_bind.
    eapply wpt_deref. { rewrite bump_lookup, decide_True, Hn by done. cbn. done. }
    replace (n_name (add_refs 1 n)) with (n_name n) by done.
    replace (ef_upcase (w_ef (bump p 1 w))) with up by by rewrite <- Hu.
    destruct (Z.eqb_spec (compare_name up buffer (n_name n)) 0) as [Hcmp | Hcmp].
    + apply wpt_bind. unfold exfat_closedir. cbn [it_parent]. apply wpt_put_node; [by eapply later_dom |]. intros Hr. apply wpt_ret.
      left. exists [], p, l2, n. split_and!; try done.
      eapply later_trans; [exact L1 | by apply put_later |]. intros q. cbn beta. lia.
    + apply wpt_bind. apply wpt_put_node; [eapply later_dom; [exact L1 | by eexists] |]. intros Hr.
      set (w2 := bump p (-1) (bump p 1 w)).
      assert (L2 : later (fun _ => 0) w w2).
      { eapply later_trans; [exact L1 | by apply put_later |].
        intros q. unfold one. destruct (decide _); lia. }
      assert (Hback : forall k, Forall (other_name up buffer (w_heap w2)) k ->
        (forall q, q ∈ k -> is_Some (w_heap w !! q)) -> Forall (other_name up buffer (w_heap w)) k).
      { intros k Hk Hin. rewrite Forall_forall in Hk |- *. intros q Hq. destruct (Hk q Hq) as (m & Hm & Hne).
        destruct (Hin q Hq) as [m0 Hm0]. destruct (la_node _ _ _ L2 q m0 Hm0) as (m' & Hm' & _ & E & _).
        exists m0. split; [done |]. rewrite <- E. congruence. }
      assert (Hin : forall q, q ∈ l2 -> is_Some (w_heap w !! q)).
      { intros q Hq. eapply segment_elem; [exact (ch_list _ _ _ Hl) | set_solver]. }
      assert (Hl2 : children (w_heap w2) d ((l1 ++ [p]) ++ l2)).
      { rewrite <- app_assoc. by do 2 apply bump_children. }
      assert (Hp : other_name up buffer (w_heap w) p) by (exists n; done).
      replace (Some p) with (last_or None (l1 ++ [p])) by (by rewrite last_or_app).
      eapply wpt_mono; [apply (IH (l1 ++ [p]) fuel w2); [apply L2 | done | done | lia] |].
      intros r w3 [(k1 & p' & k2 & n' & -> & -> & Hn' & L3 & Hc & Hk) | (-> & L3 & Hk)].
      * left. destruct (Hin p' ltac:(set_solver)) as [m Hm].
        destruct (la_node _ _ _ L2 p' m Hm) as (m' & Hm' & _ & E & _). simplify_eq.
        exists (p :: k1), p', k2, m. split_and!; [done | done | done | | by rewrite <- E |].
        { eapply later_trans; [exact L2 | exact L3 | intros; cbn beta; lia]. }
        constructor; [done |]. apply Hback; [done |]. intros q Hq. apply Hin. set_solver.
      * right. split_and!; [done | eapply later_trans; [exact L2 | exact L3 | intros; cbn beta; lia] |].
        constructor; [done | by apply Hback].
Qed.

(** ** The meaning of a path *)

(** The child [c] is the first one of the directory [d] with a name. *)
Definition finds (h : heap) (up : list Z) (d : ptr) (name : list Z) (c : ptr) : Prop :=
  exists buffer nd nc l1 l2, exfat_utf8_to_utf16 name (EXFAT_NAME_MAX + 1) (zlen name) = (0, buffer) /\
    h !! d = Some nd /\ n_is_cached nd = true /\ children h d (l1 ++ c :: l2) /\
    h !! c = Some nc /\ compare_name up buffer (n_name nc) = 0 /\ Forall (other_name up buffer h) l1.

Lemma finds_linked w up d name c : forest w -> finds (w_heap w) up d name c -> linked w c.
Proof.
  intros Hf (b & nd & nc & l1 & l2 & _ & _ & _ & Hch & _). eapply child_linked; [done | done | set_solver].
Qed.

(** The names [names] lead from the directory [d] to [p]. *)
Inductive walk (h : heap) (up : list Z) : ptr -> list (list Z) -> ptr -> Prop :=
| walk_nil d : walk h up d [] d
| walk_cons d name c names p : finds h up d name c -> walk h up c names p -> walk h up d (name :: names) p.

Lemma other_name_later d w w' up buffer l : later d w w' ->
  Forall (other_name up buffer (w_heap w)) l -> Forall (other_name up buffer (w_heap w')) l.
Proof.
  intros Hl Hf. rewrite Forall_forall in Hf |- *. intros q Hq. destruct (Hf q Hq) as (n & Hn & Hne).
  destruct (la_node _ _ _ Hl q n Hn) as (n' & Hn' & _ & E & _). exists n'. by rewrite E.
Qed.

Lemma finds_later d w w' up a name c : later d w w' -> finds (w_heap w) up a name c -> finds (w_heap w') up a name c.
Proof.
  intros Hl (buffer & nd & nc & l1 & l2 & Hb & Hd & Hcd & Hch & Hc & Hcmp & Hot).
  destruct (la_node _ _ _ Hl a nd Hd) as (nd' & Hd' & _ & _ & _ & _ & K).
  destruct (la_node _ _ _ Hl c nc Hc) as (nc' & Hc' & _ & E & _).
  exists buffer, nd', nc', l1, l2. split_and!; [done | done | by apply K | by eapply la_list | done | by rewrite E |].
  by eapply other_name_later.
Qed.

Lemma walk_later d w w' up a names p : later d w w' -> walk (w_heap w) up a names p -> walk (w_heap w') up a names p.
Proof. intros Hl. induction 1; [constructor |]. econstructor; [by eapply finds_later | done]. Qed.

(** At most one child is found. *)
Lemma first_match {A} (P : A -> Prop) l1 c l2 k1 c' k2 :
  l1 ++ c :: l2 = k1 ++ c' :: k2 -> (forall q, q ∈ l1 -> ~ P q) -> (forall q, q ∈ k1 -> ~ P q) -> P c -> P c' -> c = c'.
Proof.
  revert k1. induction l1 as [| x l1 IH]; intros [| y k1] E Hl Hk Hc Hc'; cbn in E; injection E as E1 E2; subst.
  - done.
  - destruct (Hk y); [left | done].
  - destruct (Hl c'); [left | done].
  - eapply IH; [exact E2 | | | done | done]; intros q Hq; [apply Hl | apply Hk]; by right.
Qed.

Lemma finds_unique h up d name c c' : finds h up d name c -> finds h up d name c' -> c = c'.
Proof.
  intros (b & nd & nc & l1 & l2 & Hb & _ & _ & Hch & Hc & Hcmp & Hot)
    (b' & nd' & nc' & k1 & k2 & Hb' & _ & _ & Hch' & Hc' & Hcmp' & Hot').
  assert (b' = b) as -> by congruence.
  eapply (first_match (fun q => exists n, h !! q = Some n /\ compare_name up b (n_name n) = 0));
    [by eapply children_unique | | | by exists nc | by exists nc'].
  - intros q Hq (n & Hn & E). rewrite Forall_forall in Hot. destruct (Hot q Hq) as (m & ? & ?). congruence.
  - intros q Hq (n & Hn & E). rewrite Forall_forall in Hot'. destruct (Hot' q Hq) as (m & ? & ?). congruence.
Qed.

(** The name is in no entry of the directory. *)
Definition misses (h : heap) (up : list Z) (d : ptr) (name : list Z) : Prop :=
  exists buffer l, exfat_utf8_to_utf16 name (EXFAT_NAME_MAX + 1) (zlen name) = (0, buffer) /\
    children h d l /\ Forall (other_name up buffer h) l.

Lemma misses_finds h up d name c : misses h up d name -> ~ finds h up d name c.
Proof.
  intros (b & l & Hb & Hl & Ho) (b' & nd & nc & l1 & l2 & Hb' & _ & _ & Hch & Hc & Hcmp & _).
  assert (b' = b) as -> by congruence. rewrite (children_unique _ _ _ _ Hl Hch) in Ho.
  rewrite Forall_app, Forall_cons in Ho. destruct Ho as (_ & (m & ? & ?) & _). congruence.
Qed.
End Names.

(** ** Splitting a path *)

(** The parts of a path between slashes. *)
Fixpoint split_slash (path : list Z) : list (list Z) :=
  match path with
  | [] => [[]]
  | c :: path =>
      if c =? slash then [] :: split_slash path
      else match split_slash path with
           | [] => [[c]]
           | part :: parts => (c :: part) :: parts
           end
  end.

(** Empty parts and "." name nothing. *)
Definition is_name (part : list Z) : bool := negb (bool_decide (part = []) || bool_decide (part = [dot])).

Definition components (path : list Z) : list (list Z) := List.filter is_name (split_slash path).

Lemma components_slash path : components (slash :: path) = components path.
Proof. done. Qed.

Lemma components_skip path : components (skip_slashes path) = components path.
Proof.
  induction path as [| c path IH]; [done |]. cbn [skip_slashes]. destruct (Z.eqb_spec c slash) as [-> |]; [| done].
  by rewrite IH, components_slash.
Qed.

Lemma skip_slashes_head path c rest : skip_slashes path = c :: rest -> c <> slash.
Proof.
  induction path as [| x path IH]; [done |]. cbn [skip_slashes]. destruct (Z.eqb_spec x slash); [done |].
  by intros [= -> ->].
Qed.

Lemma comp_length_range comp : 0 <= comp_length comp <= zlen comp.
Proof.
  induction comp as [| c comp IH]; [done |]. cbn [comp_length]. rewrite zlen_cons. destruct (_ =? _); lia.
Qed.

(** The first part of a path and the others. *)
Lemma split_slash_comp comp :
  split_slash comp = take (Z.to_nat (comp_length comp)) comp ::
    match drop (Z.to_nat (comp_length comp)) comp with [] => [] | _ :: rest => split_slash rest end.
Proof.
  induction comp as [| c comp IH]; [done |]. cbn [split_slash comp_length].
  destruct (Z.eqb_spec c slash) as [-> | Hc]; [done |]. pose proof (comp_length_range comp).
  rewrite IH. replace (Z.to_nat (1 + comp_length comp)) with (S (Z.to_nat (comp_length comp))) by lia. done.
Qed.

Lemma components_comp comp : components comp =
  (if is_name (take (Z.to_nat (comp_length comp)) comp) then [take (Z.to_nat (comp_length comp)) comp] else []) ++
  components (drop (Z.to_nat (comp_length comp)) comp).
Proof.
  unfold components at 1. rewrite split_slash_comp. cbn [List.filter].
  assert (E : components (drop (Z.to_nat (comp_length comp)) comp) =
    List.filter is_name match drop (Z.to_nat (comp_length comp)) comp with [] => [] | _ :: rest => split_slash rest end).
  { destruct (drop _ comp) as [| x rest] eqn:Ed; [done |].
    assert (Hx : x = slash).
    { clear - Ed. induction comp as [| c comp IH]; [done |]. cbn [comp_length] in Ed. pose proof (comp_length_range comp).
      destruct (Z.eqb_spec c slash) as [-> | Hc]; [by injection Ed |].
      replace (Z.to_nat (1 + comp_length comp)) with (S (Z.to_nat (comp_length comp))) in Ed by lia. by apply IH. }
    by rewrite Hx, components_slash. }
  rewrite E. by destruct (is_name _).
Qed.

(** A turn of the loops over the components of a path. *)
Lemma get_comp_spec path n p : get_comp path = (n, p) ->
  p = skip_slashes path /\ n = comp_length p /\ 0 <= n <= zlen p /\ (length p <= length path)%nat /\
  (n = 0 -> components path = []) /\
  (n <> 0 -> is_dot p n = negb (is_name (sub p 0 n)) /\ zlen (sub p 0 n) = n /\
     components path = (if is_dot p n then [] else [sub p 0 n]) ++ components (advance p n)).
Proof.
  unfold get_comp. intros [= <- <-]. set (p := skip_slashes path). pose proof (comp_length_range p) as Hr.
  split_and!; try done; try lia.
  - unfold p. clear. induction path as [| c path IH]; cbn [skip_slashes length]; [done |]. destruct (_ =? _); cbn [length]; lia.
  - intros Hn. destruct p as [| c rest] eqn:Ep; [rewrite <- components_skip; fold p; by rewrite Ep |].
    cbn [comp_length] in Hn. pose proof (skip_slashes_head path c rest Ep). pose proof (comp_length_range rest).
    destruct (Z.eqb_spec c slash); [done | lia].
  - intros Hn. assert (Es : sub p 0 (comp_length p) = take (Z.to_nat (comp_length p)) p) by done.
    assert (Hz : zlen (sub p 0 (comp_length p)) = comp_length p) by (apply zlen_sub; lia).
    assert (Hd : is_dot p (comp_length p) = negb (is_name (sub p 0 (comp_length p)))).
    { unfold is_dot, is_name. rewrite negb_involutive.
      rewrite (bool_decide_eq_false_2 (sub _ _ _ = [])) by (intros E; rewrite E, zlen_nil in Hz; lia). cbn [orb].
      destruct (Z.eqb_spec (comp_length p) 1) as [E1 | E1]; cbn [andb].
      - rewrite E1. destruct p as [| c rest]; [done |].
        change (sub (c :: rest) 0 1) with [c]. change (znth (c :: rest) 0) with c.
        destruct (Z.eqb_spec c dot) as [-> |]; [done |]. symmetry. apply bool_decide_eq_false_2. congruence.
      - symmetry. apply bool_decide_eq_false_2. intros E. rewrite E in Hz. change (zlen [dot]) with 1 in Hz. lia. }
    split_and!; [done | done |]. rewrite <- components_skip. fold p. rewrite components_comp, <- Es, Hd.
    unfold advance. by destruct (is_name _).
Qed.

(** ** Following a path *)

Section Paths.
Context `{Platform}.

Lemma utf8_to_utf16_loop_code fuel : forall iptr room stored,
  (utf8_to_utf16_loop fuel iptr room stored).1 ∈ [0; - EILSEQ; - ENAMETOOLONG].
Proof.
  induction fuel as [| fuel IH]; intros [| b iptr] room stored; cbn [utf8_to_utf16_loop];
    try (destruct (room <=? 0); cbn; set_solver).
  destruct (utf8_to_wchar _) as [[wc rest] |]; [| cbn; set_solver].
  destruct (wchar_to_utf16 _ _) as [us |]; [| cbn; set_solver].
  destruct (wc =? 0); [| apply IH]. destruct (_ <=? 0); cbn; set_solver.
Qed.

Lemma utf8_to_utf16_noent input outsize insize : (exfat_utf8_to_utf16 input outsize insize).1 <> - ENOENT.
Proof.
  pose proof (utf8_to_utf16_loop_code (length (sub input 0 insize)) (sub input 0 insize) outsize []) as Hc.
  unfold exfat_utf8_to_utf16. intros E. rewrite E in Hc. unfold ENOENT, EILSEQ, ENAMETOOLONG in Hc. set_solver.
Qed.

(** A conversion reads no more than the part that it is given. *)
Lemma utf8_to_utf16_part input outsize n : zlen (sub input 0 n) = n ->
  exfat_utf8_to_utf16 (sub input 0 n) outsize n = exfat_utf8_to_utf16 input outsize n.
Proof.
  intros Hn. unfold exfat_utf8_to_utf16.
  assert (E : sub (sub input 0 n) 0 n = sub input 0 n); [| by rewrite E].
  unfold sub in *. cbn. rewrite !drop_0 in *. rewrite take_take. f_equal. lia.
Qed.

Lemma later_upcase d w w' : later d w w' -> ef_upcase (w_ef w) <> [] -> ef_upcase (w_ef w') = ef_upcase (w_ef w).
Proof. intros Hl. apply (la_volume _ _ _ Hl). Qed.

Lemma segment_heap_length h d l : children h d l -> (length l <= size h)%nat.
Proof. intros [[_ Hnd]%NoDup_cons _ Hs]. by eapply segment_length. Qed.

Lemma lookup_name_later w d p n : forest w -> linked w d -> ef_upcase (w_ef w) <> [] ->
  zlen (sub p 0 n) = n ->
  wpt (lookup_name (Some d) p n)
    (fun r w' =>
       (exists c, r = (0, Some c) /\ later (one c 1) w w' /\
          finds (w_heap w') (ef_upcase (w_ef w)) d (sub p 0 n) c) \/
       (r.1 <> 0 /\ r.2 = None /\ later (fun _ => 0) w w' /\
          (r.1 = - ENOENT -> misses (w_heap w') (ef_upcase (w_ef w)) d (sub p 0 n)))) w.
Proof.
  intros Hf Hd Hu Hn. unfold lookup_name.
  pose proof (utf8_to_utf16_noent p (EXFAT_NAME_MAX + 1) n) as Hne.
  destruct (exfat_utf8_to_utf16 p (EXFAT_NAME_MAX + 1) n) as [rc buffer] eqn:Eb. cbn in Hne.
  destruct (Z.eqb_spec rc 0) as [-> | Hrc]; cbn [negb].
  2: { apply wpt_ret. right. split_and!; [done | done | by apply later_refl | done]. }
  assert (Eb' : exfat_utf8_to_utf16 (sub p 0 n) (EXFAT_NAME_MAX + 1) (zlen (sub p 0 n)) = (0, buffer))
    by (by rewrite Hn, utf8_to_utf16_part).
  apply wpt_bind. eapply wpt_mono; [by apply opendir_later |]. intros [rc it] w1 (Hit & Hne1 & L1 & Hc).
  cbn [fst snd] in *. subst it. destruct (Z.eqb_spec rc 0) as [-> | Hrc]; cbn [negb].
  2: { apply wpt_ret. right. by split_and!. }
  apply wpt_bind, wpt_get. destruct (Hc eq_refl) as (nd & Hd1 & Hcd).
  pose proof (la_forest _ _ _ L1) as Hf1. pose proof (later_upcase _ _ _ L1 Hu) as Hu1.
  destruct (fo_list _ Hf1 d ltac:(eauto)) as [l Hl]. pose proof (segment_heap_length _ _ _ Hl) as Hlen.
  eapply wpt_mono.
  { apply (lookup_loop_spec d (ef_upcase (w_ef w)) buffer l [] (tree_fuel w1) w1); [done | done | done | unfold tree_fuel; lia]. }
  intros r w2 [(k1 & c & k2 & nc & -> & -> & Hnc & L2 & Hcmp & Hk) | (-> & L2 & Hk)].
  - left. exists c. split; [done |]. split.
    { eapply later_trans; [exact L1 | exact L2 |]. intros q. cbn beta. unfold one. repeat destruct (decide _); lia. }
    destruct (la_node _ _ _ L2 d nd Hd1) as (nd2 & Hd2 & _ & _ & _ & _ & K).
    destruct (la_node _ _ _ L2 c nc Hnc) as (nc2 & Hnc2 & _ & E & _).
    exists buffer, nd2, nc2, k1, k2. split_and!; [done | done | by apply K | by eapply la_list | done | by rewrite E |].
    by eapply other_name_later.
  - right. split_and!; [done | done | | intros _].
    { eapply later_trans; [exact L1 | exact L2 |]. intros q. cbn beta. unfold one. repeat destruct (decide _); lia. }
    exists buffer, l. split_and!; [done | by eapply la_list | by eapply other_name_later].
Qed.

(** No child of that name stays no child of that name, for the directory was read. *)
Lemma lookup_path_later : forall fuel w d path, forest w -> linked w d -> ef_upcase (w_ef w) <> [] ->
  (length path <= fuel)%nat ->
  wpt (lookup_path fuel (Some d) path)
    (fun r w' =>
       if r.1 =? 0 then
         exists p, r.2 = Some p /\ later (fun q => one d (-1) q + one p 1 q) w w' /\
           walk (w_heap w') (ef_upcase (w_ef w)) d (components path) p
       else later (one d (-1)) w w' /\
         (r.1 = - ENOENT -> forall p, ~ walk (w_heap w') (ef_upcase (w_ef w)) d (components path) p)) w.
Proof.
  induction fuel as [| fuel IH]; intros w d path Hf Hd Hu Hfuel; cbn [lookup_path];
    destruct (get_comp path) as [n p] eqn:Eg;
    destruct (get_comp_spec path n p Eg) as (_ & _ & Hn & Hlen & Hzero & Hcomp);
    (destruct (Z.eqb_spec n 0) as [-> | Hn0];
      [apply wpt_ret; cbn [fst snd Z.eqb]; exists d; rewrite (Hzero eq_refl); split_and!;
        [done | | constructor];
        eapply later_trans; [by apply later_refl | by apply later_refl |];
        intros q; cbn beta; unfold one; destruct (decide _); lia |]).
  { destruct p; [unfold zlen in Hn; cbn in Hn; lia |]. cbn in Hlen. lia. }
  destruct (Hcomp Hn0) as (Hdot & Hz & ->).
  assert (Hshort : (length (advance p n) <= fuel)%nat).
  { unfold advance. rewrite length_drop. destruct p; [unfold zlen in Hn; cbn in Hn; lia |]. cbn [length] in *. lia. }
  destruct (is_dot p n); [by apply IH |]. cbn [app].
  apply wpt_bind. eapply wpt_mono; [by apply lookup_name_later |]. intros r w1 Hr.
  destruct Hr as [(c & -> & L1 & Hfind) | (Hrc & Hnone & L1 & Hmiss)].
  - cbn [fst snd Z.eqb negb]. pose proof (la_forest _ _ _ L1) as Hf1.
    pose proof (linked_later _ _ _ d L1 Hd) as Hd1. pose proof (finds_linked _ _ _ _ _ Hf1 Hfind) as Hc1.
    apply wpt_bind, wpt_put_node; [by apply linked_some |]. intros Hr1.
    pose proof (put_later d w1 Hf1 Hr1) as L2. pose proof (later_upcase _ _ _ L1 Hu) as Hu1.
    assert (Hu2 : ef_upcase (w_ef (bump d (-1) w1)) = ef_upcase (w_ef w)) by exact Hu1.
    assert (Hfind2 : finds (w_heap (bump d (-1) w1)) (ef_upcase (w_ef w)) d (sub p 0 n) c) by (by eapply finds_later).
    eapply wpt_mono.
    { apply (IH (bump d (-1) w1) c (advance p n)); [apply L2 | by eapply linked_later | by rewrite Hu2 | done]. }
    rewrite Hu2. intros r w3 Hr. destruct (Z.eqb_spec r.1 0) as [Hr0 | Hr0].
    + destruct Hr as (p' & Hp' & L3 & Hw). exists p'. split; [done |]. split.
      * eapply later_trans; [eapply later_trans; [exact L1 | exact L2 | by intros] | exact L3 |].
        intros q. cbn beta. unfold one. repeat destruct (decide _); lia.
      * econstructor; [by eapply finds_later | done].
    + destruct Hr as [L3 Hno]. split.
      * eapply later_trans; [eapply later_trans; [exact L1 | exact L2 | by intros] | exact L3 |].
        intros q. cbn beta. unfold one. repeat destruct (decide _); lia.
      * intros E p' Hw. inversion Hw as [| ? ? c' ? ? Hf' Hw']; subst.
        rewrite <- (finds_unique _ _ _ _ _ _ (finds_later _ _ _ _ _ _ _ L3 Hfind2) Hf') in Hw'.
        by eapply (Hno E).
  - destruct r as [rc node]. cbn [fst snd] in *. rewrite (proj2 (Z.eqb_neq rc 0) Hrc). cbn [negb].
    pose proof (la_forest _ _ _ L1) as Hf1. pose proof (linked_later _ _ _ d L1 Hd) as Hd1.
    apply wpt_bind, wpt_put_node; [by apply linked_some |]. intros Hr1.
    apply wpt_ret. cbn [fst snd]. rewrite (proj2 (Z.eqb_neq rc 0) Hrc).
    pose proof (put_later d w1 Hf1 Hr1) as L2. split.
    + eapply later_trans; [exact L1 | exact L2 | intros q; cbn beta; lia].
    + intros E p' Hw. inversion Hw as [| ? ? c' ? ? Hf' Hw']; subst.
      destruct (Hmiss eq_refl) as (b & l & Hb & Hl & Ho). eapply misses_finds; [| exact Hf'].
      exists b, l. split_and!; [done | by apply bump_children | by eapply other_name_later].
Qed.
End Paths.

Lemma exfat_lookup_later `{Platform} w path r : forest w -> w_root w = Some r -> ef_upcase (w_ef w) <> [] ->
  wpt (exfat_lookup path)
    (fun res w' =>
       if res.1 =? 0 then
         exists p, res.2 = Some p /\ later (one p 1) w w' /\
           walk (w_heap w') (ef_upcase (w_ef w)) r (components path) p
       else later (fun _ => 0) w w' /\
         (res.1 = - ENOENT -> forall p, ~ walk (w_heap w') (ef_upcase (w_ef w)) r (components path) p)) w.
Proof.
  intros Hf Hr Hu. unfold exfat_lookup. apply wpt_bind, wpt_get. rewrite Hr.
  pose proof (root_linked w r Hf Hr) as Hd. pose proof (get_later r w Hf (linked_some _ _ Hd)) as L1.
  apply wpt_bind, wpt_get_node; [by apply linked_some |].
  eapply wpt_mono; [apply lookup_path_later; [apply L1 | by eapply linked_later | done | done] |].
  intros res w'. cbn beta. destruct (res.1 =? 0); intros Hres.
  - destruct Hres as (p & Hp & L2 & Hw). exists p. split_and!; [done | | done].
    eapply later_trans; [exact L1 | exact L2 |]. intros q. cbn beta. unfold one. repeat destruct (decide _); lia.
  - destruct Hres as [L2 Hno]. split; [| done].
    eapply later_trans; [exact L1 | exact L2 |]. intros q. cbn beta. unfold one. repeat destruct (decide _); lia.
Qed.

(** *** What a failure returns *)

(** A result that is an error comes without a node. *)
Definition no_node (r : Z * option ptr) : Prop := r.1 <> 0 -> r.2 = None.

Lemma lookup_loop_none buffer : forall fuel it w r w', lookup_loop fuel it buffer w = Ok r w' -> no_node r.
Proof.
  induction fuel as [| fuel IH]; intros it w r w' E; [done |]. cbn [lookup_loop] in E.
  apply bind_inv in E as ([[q |] it'] & w1 & _ & E).
  - apply bind_inv in E as (w2 & ? & _ & E). apply bind_inv in E as (n & ? & _ & E). destruct (_ =? 0).
    + apply bind_inv in E as (? & ? & _ & E). injection E as <- <-; by unfold no_node.
    + apply bind_inv in E as (? & ? & _ & E). by eapply IH.
  - apply bind_inv in E as (? & ? & _ & E). injection E as <- <-; by unfold no_node.
Qed.

Lemma lookup_name_none `{Platform} parent p n w r w' : lookup_name parent p n w = Ok r w' -> no_node r.
Proof.
  unfold lookup_name. destruct (exfat_utf8_to_utf16 _ _ _) as [rc buffer]. destruct (negb (rc =? 0)); [intros [= <- <-]; by unfold no_node |].
  intros E. apply bind_inv in E as ([rc' it] & w1 & _ & E). destruct (negb (rc' =? 0)); [injection E as <- <-; by unfold no_node |].
  apply bind_inv in E as (? & ? & _ & E). by eapply lookup_loop_none.
Qed.

Lemma exfat_lookup_none `{Platform} path w r w' : exfat_lookup path w = Ok r w' -> no_node r.
Proof.
  assert (Hp : forall fuel d p w r w', lookup_path fuel d p w = Ok r w' -> no_node r).
  { induction fuel as [| fuel IH]; intros d p w0 r0 w0'; cbn [lookup_path]; destruct (get_comp p) as [n p'];
      (destruct (n =? 0); [intros [= <- <-]; by unfold no_node |]); [done |].
    destruct (is_dot p' n); [by apply IH |]. intros E. apply bind_inv in E as ([rc node] & w1 & Ename & E).
    apply lookup_name_none in Ename. destruct (Z.eqb_spec rc 0) as [-> | Hrc]; cbn [negb] in E;
      apply bind_inv in E as (? & ? & _ & E); [by eapply IH |]. injection E as <- <-; by unfold no_node. }
  intros E. apply bind_inv in E as (? & ? & _ & E). apply bind_inv in E as (? & ? & _ & E). by eapply Hp.
Qed.

(** C24: Looking up a path.  On every medium, whatever the device does, [exfat_lookup]
    ends: it returns, or [exfat_bug] stops the process, as it does for a path that goes on
    behind a file.  When it returns 0, it gives the node that is reached from the root by
    taking, for each component of the path but the empty ones and ".", the first
    child whose name is the component up to case; and it holds one reference more
    to that node and none more to any other.  When it fails, it gives no node and holds no
    reference more; and when it says that the node does not exist, no node is reached in
    that way.  The tree stays a tree; directories may have been read. *)
Theorem exfat_lookup_finds `{Platform} w path r
  (Hf : forest w) (Hroot : w_root w = Some r) (Hup : ef_upcase (w_ef w) <> []) :
  wpt (exfat_lookup path)
    (fun res w' =>
       forest w' /\ same_volume w w' /\ w_root w' = w_root w /\
       if res.1 =? 0 then
         exists p, res.2 = Some p /\ walk (w_heap w') (ef_upcase (w_ef w)) r (components path) p /\
           (forall q, refs w' q = refs w q + if decide (q = p) then 1 else 0)
       else
         res.2 = None /\ (forall q, refs w' q = refs w q) /\
         (res.1 = - ENOENT -> forall p, ~ walk (w_heap w') (ef_upcase (w_ef w)) r (components path) p)) w.
Proof.
  eapply wpt_mono; [apply wpt_fact; [by apply exfat_lookup_later | by apply exfat_lookup_none] |].
  intros res w'. cbn beta. unfold no_node. destruct (Z.eqb_spec res.1 0) as [Hrc | Hrc]; intros [Hres Hnone].
  - destruct Hres as (p & Hp & [] & Hw). split_and!; [done | done | done |]. exists p. by split_and!.
  - destruct Hres as [[? ? ? ? Hrefs ?] Hno]. split_and!; [done | done | done | by apply Hnone | | done].
    intros q. rewrite Hrefs. lia.
Qed.

#[local] Existing Instance word_le64.

(** A root that was read, with the file "A" in it; letters in both cases are the same. *)
Definition demo_upcase : list Z := zseq 0 97 ++ zseq 65 26 ++ zseq 123 133.

Definition demo_root : exfat_node :=
  set_n_attrib EXFAT_ATTRIB_DIR (set_n_is_cached true (demo_tree_node None (Some 2%N) None None)).
Definition demo_file : exfat_node := set_n_name [65; 0] (demo_tree_node (Some 1%N) None None None).

Definition demo_forest : world :=
  mk_world (set_v_ef (set_ef_upcase demo_upcase demo_ef) demo_vol) {[ 1%N := demo_root; 2%N := demo_file ]} (Some 1%N) 3%N.

Lemma demo_forest_nodes p n : w_heap demo_forest !! p = Some n -> (p = 1%N /\ n = demo_root) \/ (p = 2%N /\ n = demo_file).
Proof.
  unfold demo_forest. cbn [w_heap].
  intros [[<- <-] | [Hp [<- <-]%lookup_singleton_Some]]%lookup_insert_Some; tauto.
Qed.

Lemma demo_forest_root : children (w_heap demo_forest) 1%N [2%N].
Proof.
  split; [refine (bool_decide_unpack _ _); by vm_compute | by eexists |]. split; [| done]. by eexists.
Qed.

Lemma demo_forest_ok : forest demo_forest.
Proof.
  assert (Ha : ancestry (w_heap demo_forest) 1%N [1%N]) by (by eapply ancestry_top).
  split.
  - by intros q [n [[-> _] | [-> _]]%demo_forest_nodes].
  - done.
  - by exists 1%N, demo_root.
  - by intros p n [[-> ->] | [-> ->]]%demo_forest_nodes.
  - intros p [n [[-> _] | [-> _]]%demo_forest_nodes].
    + exists [2%N]. apply demo_forest_root.
    + exists []. split; [apply NoDup_singleton | by eexists | done].
  - intros p n d [[-> ->] | [-> ->]]%demo_forest_nodes; [done |]. intros [= <-].
    exists [2%N]. split; [apply demo_forest_root | left].
  - intros p [n [[-> _] | [-> _]]%demo_forest_nodes]; [by eexists |].
    exists [2%N; 1%N]. eapply ancestry_up; [done | done | exact Ha |]. by intros ?%list_elem_of_singleton.
  - by intros p n [[-> ->] | [-> ->]]%demo_forest_nodes.
Qed.

(** The path "/./a". *)
Definition demo_path : list Z := [0x2f; 0x2e; 0x2f; 0x61].

Example demo_lookup : match exfat_lookup demo_path demo_forest with Ok r _ => r = (0, Some 2%N) | _ => False end.
Proof. by vm_compute. Qed.

Lemma exfat_lookup_finds_witness :
  wpt (exfat_lookup demo_path)
    (fun res w' =>
       forest w' /\ same_volume demo_forest w' /\ w_root w' = Some 1%N /\
       if res.1 =? 0 then
         exists p, res.2 = Some p /\ walk (w_heap w') demo_upcase 1%N [[0x61]] p /\
           (forall q, refs w' q = refs demo_forest q + if decide (q = p) then 1 else 0)
       else
         res.2 = None /\ (forall q, refs w' q = refs demo_forest q) /\
         (res.1 = - ENOENT -> forall p, ~ walk (w_heap w') demo_upcase 1%N [[0x61]] p)) demo_forest.
Proof. by apply (exfat_lookup_finds demo_forest demo_path 1%N demo_forest_ok). Defined.
