(* ===== verification/TreeSafe.v ===== *)
(** * TreeSafe: changing nodes in the tree is safe (libexfat/node.c, cluster.c)

    The operations of NodeTerm.v on a node of the tree, and writing nodes back: they
    keep the tree and all references. *)

From Stdlib Require Import ZArith Lia.
From stdpp Require Import base numbers list gmap.
From S2P Require Import Prelude Bytes Monad Ondisk State Utf Bitmap Geometry Cluster FileIO Utils ExfatTime Entries EntriesSpec DirTerm NodeTerm NodeTree TreeSpec TreeReset Lookup LookupSpec.

#[local] Open Scope Z_scope.

Section TreeSafe.
Context `{Platform}.

(** ** One node *)

(** What may change in a node without a change of the tree. *)
Definition same_links (n n' : exfat_node) : Prop :=
  node_links n' = node_links n /\ n_attrib n' = n_attrib n /\ node_entry n' = node_entry n.

Lemma same_links_ok n n' : same_links n n' -> (below64 n -> below64 n') -> node_ok n -> node_ok n'.
Proof.
  intros (L & A & E) Hb [O1 O2 O3 O4 O5 O6 O7]. unfold node_links in L. injection L as L1 L2 L3 L4 L5 L6 L7.
  unfold node_entry in E. injection E as E1 E2 E3. unfold is_dir in *.
  split; [auto | lia | lia | lia | by rewrite L6, L2 | |].
  { unfold is_dir in *. by rewrite L6, A. }
  rewrite L7, L1. done.
Qed.

(** The same nodes, with the same references and links. *)
Record quiet (w w' : world) : Prop := {
  qu_later : later (fun _ => 0) w w';
  qu_dom : dom (w_heap w') = dom (w_heap w)
}.

#[global] Instance quiet_trans : Transitive quiet.
Proof.
  intros w1 w2 w3 [A1 A2] [B1 B2]. split; [| by rewrite B2].
  eapply later_trans; [exact A1 | exact B1 | done].
Qed.

Lemma quiet_refl w : forest w -> quiet w w.
Proof. intros Hf. split; [by apply later_refl | done]. Qed.

(** Another node at [p], and another volume. *)
Lemma node_later w p n n' v : forest w -> w_heap w !! p = Some n -> same_links n n' -> (below64 n -> below64 n') ->
  same_volume w (set_w_vol v w) -> quiet w (set_w_heap (<[p := n']> (w_heap w)) (set_w_vol v w)).
Proof.
  intros Hf Hp Hs Hb Hv. split.
  2: { cbn. apply dom_insert_lookup_L. by exists n. }
  pose proof Hs as (L & A & E). pose proof Hf as [F1 F2 F3 F4 F5 F6 F7 F8].
  unfold node_links in L. injection L as L1 L2 L3 L4 L5 L6 L7. unfold node_entry in E. injection E as E1 E2 E3.
  assert (Hfwd : forall q m, w_heap w !! q = Some m -> exists m', <[p := n']> (w_heap w) !! q = Some m' /\
    (q = p /\ m = n /\ m' = n' \/ q <> p /\ m' = m)).
  { intros q m Hq. destruct (decide (q = p)) as [-> | Hqp].
    - simplify_eq. exists n'. rewrite lookup_insert_eq. tauto.
    - exists m. rewrite lookup_insert_ne by done. tauto. }
  assert (Hbwd : forall q m', <[p := n']> (w_heap w) !! q = Some m' -> (q = p /\ m' = n') \/ (q <> p /\ w_heap w !! q = Some m')).
  { intros q m'. destruct (decide (q = p)) as [-> | Hqp].
    - rewrite lookup_insert_eq. intros [= <-]. tauto.
    - rewrite lookup_insert_ne by done. tauto. }
  assert (Hdom : forall q, is_Some (<[p := n']> (w_heap w) !! q) -> is_Some (w_heap w !! q)).
  { intros q [m' Hm']. destruct (Hbwd q m' Hm') as [[-> _] | [_ ?]]; eauto. }
  assert (Hlist : forall q l, children (w_heap w) q l -> children (<[p := n']> (w_heap w)) q l).
  { intros q l. apply children_place. intros a m Hm.
    destruct (Hfwd a m Hm) as (m' & Hm' & [(-> & -> & ->) | (_ & ->)]); eexists; (split; [exact Hm' | done]). }
  assert (Hanc : forall q l, ancestry (w_heap w) q l -> ancestry (<[p := n']> (w_heap w)) q l).
  { intros q l. apply ancestry_parents. intros a m _ Hm.
    destruct (Hfwd a m Hm) as (m' & Hm' & [(-> & -> & ->) | (_ & ->)]); eexists; (split; [exact Hm' | done]). }
  split; [split | | | | |]; cbn [w_heap w_vol w_root w_fresh set_w_heap set_w_vol].
  - intros q Hq. by apply F1, Hdom.
  - pose proof (proj1 Hv) as Hsb. cbn in Hsb. unfold w_ef in *. cbn [w_vol set_w_heap set_w_vol] in *. by rewrite Hsb.
  - destruct F3 as (r & m & Hr & Hm & M1 & M2 & M3). exists r. destruct (Hfwd r m Hm) as (m' & Hm' & [(-> & -> & ->) | (_ & ->)]).
    + exists n'. unfold is_dir in *. split_and!; congruence.
    + exists m. done.
  - intros q m' Hm'. destruct (Hbwd q m' Hm') as [[-> ->] | [_ Hm]]; [| by eapply F4].
    eapply same_links_ok; [exact Hs | done | by eapply F4].
  - intros q Hq. destruct (F5 q (Hdom q Hq)) as [l Hl]. exists l. by apply Hlist.
  - intros q m' d Hm' Hd. assert (Hq : exists m, w_heap w !! q = Some m /\ n_parent m = Some d).
    { destruct (Hbwd q m' Hm') as [[-> ->] | [_ Hm]]; [exists n; split; congruence | eauto]. }
    destruct Hq as (m & Hm & Hmd). destruct (F6 q m d Hm Hmd) as (l & Hl & ?). exists l. split; [by apply Hlist | done].
  - intros q Hq. destruct (F7 q (Hdom q Hq)) as [l Hl]. exists l. by apply Hanc.
  - intros q m' Hm' Hpq. destruct (Hbwd q m' Hm') as [[-> ->] | [_ Hm]]; [| by apply (F8 q)].
    rewrite L3. apply (F8 p n Hp). congruence.
  - done.
  - done.
  - intros q m Hm. destruct (Hfwd q m Hm) as (m' & Hm' & [(-> & -> & ->) | (_ & ->)]); eexists; (split; [exact Hm' |]); [| done].
    split_and!; try congruence.
  - intros q. unfold refs. cbn [w_heap set_w_heap set_w_vol]. destruct (decide (q = p)) as [-> | Hqp].
    + rewrite lookup_insert_eq, Hp. lia.
    + rewrite lookup_insert_ne by done. lia.
  - intros q m l Hm Hc. apply Hlist.
Qed.

(** A safe operation on a node of the tree; [R] is what it says of the result. *)
Lemma wpt_with_node_later {A} (m : M nstate A) (R : A -> nstate -> Prop) w p n :
  forest w -> w_heap w !! p = Some n ->
  wpt m (fun a s' => stays (mk_nstate (w_vol w) n) s' /\ R a s') (mk_nstate (w_vol w) n) ->
  wpt (with_node (Some p) m) (fun a w' => quiet w w' /\
    exists n', w_heap w' !! p = Some n' /\ R a (mk_nstate (w_vol w') n')) w.
Proof.
  intros Hf Hp Hm. apply (wpt_with_node _ _ _ _ _ Hp). eapply wpt_mono; [exact Hm |].
  intros a s' [[S1 S2 S3 S4 S5 S6] HR]. split.
  - apply node_later with (n := n); [done | done | done | done |]. split; [exact S1 | exact S2].
  - exists (s_node s'). cbn. rewrite lookup_insert_eq. split; [done |]. by destruct s'.
Qed.

Lemma with_node_later {A} (m : M nstate A) w p n : forest w -> w_heap w !! p = Some n ->
  steady m (mk_nstate (w_vol w) n) -> wpt (with_node (Some p) m) (fun _ w' => quiet w w') w.
Proof.
  intros Hf Hp Hm. eapply wpt_mono; [apply (wpt_with_node_later m (fun _ _ => True) w p n Hf Hp) |].
  - eapply wpt_mono; [exact Hm |]. done.
  - by intros a w' [? _].
Qed.

Lemma forest_sizes64 w p n : forest w -> w_heap w !! p = Some n -> sizes64 (mk_nstate (w_vol w) n).
Proof. intros Hf Hp. split; [apply (fo_cluster _ Hf) | apply (no_below _ (fo_node _ Hf p n Hp))]. Qed.

(** Assign to fields that are no links. *)
Lemma assign_later w p n f : forest w -> w_heap w !! p = Some n -> same_links n (f n) -> (below64 n -> below64 (f n)) ->
  wpt (assign (Some p) f) (fun _ w' => quiet w w' /\ w_heap w' !! p = Some (f n)) w.
Proof.
  intros Hf Hp Hs Hb. apply (wpt_assign _ _ _ _ _ Hp). split.
  - pose proof (node_later w p n (f n) (w_vol w) Hf Hp Hs Hb) as Hl. destruct w. apply Hl. by split.
  - cbn. by rewrite lookup_insert_eq.
Qed.

(** An operation on the volume. *)
Lemma vol_later {A} (m : M vol A) w : forest w -> vsteady m ->
  wpt (on_part (S := world) m) (fun _ w' => quiet w w') w.
Proof.
  intros Hf Hm. apply wpt_on_part. eapply wpt_mono; [apply Hm |]. intros a v [E1 E2]. cbn.
  destruct (fo_root _ Hf) as (r & n & Hr & Hn & _).
  pose proof (node_later w r n n v Hf Hn ltac:(done) ltac:(done)) as Hl. rewrite insert_id in Hl by done.
  destruct w. apply Hl. by split.
Qed.

Lemma os_later {A} (m : M env A) w : forest w -> (forall e, wpt m (fun _ _ => True) e) ->
  wpt (on_world_os m) (fun _ w' => quiet w w') w.
Proof. intros Hf Hm. apply vol_later; [done |]. by apply vsteady_os. Qed.

(** ** Chaining *)

Lemma later_zero w1 w2 w3 d : later (fun _ => 0) w1 w2 -> later d w2 w3 -> later d w1 w3.
Proof. intros L1 L2. eapply later_trans; [exact L1 | exact L2 | intros; cbn beta; lia]. Qed.

Lemma later_quiet w1 w2 w3 d : later d w1 w2 -> quiet w2 w3 -> later d w1 w3.
Proof. intros L1 [L2 _]. eapply later_trans; [exact L1 | exact L2 | intros; cbn beta; lia]. Qed.

Lemma quiet_forest w w' : quiet w w' -> forest w'.
Proof. intros [[] _]. done. Qed.

(** Go on after a step that keeps the tree. *)
Lemma wpt_then {A B} (m : M world A) (f : A -> M world B) w0 w Q :
  quiet w0 w -> wpt m (fun _ w' => quiet w w') w ->
  (forall a w', quiet w w' -> quiet w0 w' -> wpt (f a) Q w') -> wpt (bind m f) Q w.
Proof.
  intros L0 Hm Hf. apply wpt_bind. eapply wpt_mono; [exact Hm |]. intros a w' L. apply Hf; [done | by etrans].
Qed.

Lemma later_node w w' p n d : later d w w' -> w_heap w !! p = Some n -> exists n', w_heap w' !! p = Some n' /\ kept n n'.
Proof. intros Hl. apply (la_node _ _ _ Hl). Qed.

(** ** Writing a node back *)

Lemma parent_some w p n d : forest w -> w_heap w !! p = Some n -> n_parent n = Some d -> is_Some (w_heap w !! d).
Proof. intros Hf Hp Hd. destruct (fo_parent _ Hf p n d Hp Hd) as (l & [_ (m & Hm & _) _] & _). by exists m. Qed.

Lemma flush_node_later w p : forest w -> is_Some (w_heap w !! p) ->
  wpt (exfat_flush_node (Some p)) (fun _ w' => quiet w w') w.
Proof.
  intros Hf [n Hp]. pose proof (quiet_refl w Hf) as L0. unfold exfat_flush_node.
  apply wpt_bind, (wpt_deref _ _ _ _ Hp), wpt_bind, wpt_get. cbv beta zeta.
  destruct (negb _); [by apply wpt_ret |]. destruct (negb _); [apply wpt_halt |].
  destruct (n_parent n) as [d |] eqn:Hd; [| by apply wpt_ret].
  destruct (parent_some w p n d Hf Hp Hd) as [nd Hnd]. pose proof (fo_node _ Hf p n Hp) as Hok.
  apply wpt_bind. eapply wpt_mono.
  { apply (wpt_with_node_later (read_entries (1 + n_continuations n) (n_entry_offset n))
      (fun r s => r.1 = 0 -> n_entry_offset n + ENTRY_SIZE <= n_size (s_node s)) w d nd Hf Hnd).
    eapply wpt_mono.
    - apply wpt_read_entries; [by eapply forest_sizes64 | apply Hok |]. pose proof (no_continuations _ Hok). lia.
    - intros r s' [Hs' Hr]. split; [by apply same_dir_stays |]. intros E. destruct (Hr E) as [_ Hend].
      pose proof (no_continuations _ Hok). unfold ENTRY_SIZE in *. lia. }
  intros [rc entries] w1 (L1 & nd1 & Hnd1 & Hr). cbn [fst snd] in *.
  destruct (Z.eqb_spec rc 0) as [-> | Hrc]; cbn [negb]; [| by apply wpt_ret].
  assert (Hoff : n_entry_offset n < 2 ^ 64).
  { specialize (Hr eq_refl). cbn [s_node] in Hr. destruct (no_below _ (fo_node _ (quiet_forest _ _ L1) d nd1 Hnd1)).
    unfold ENTRY_SIZE in *. lia. }
  eapply wpt_then; [exact L1 | apply os_later; [by eapply quiet_forest |] |].
  { intros e. unfold wpt. rewrite check_entries_types. by destruct (types_valid _ _). }
  intros ok w2 L12 L2. pose proof (quiet_forest _ _ L2) as Hf2. destruct (negb ok); [by apply wpt_ret |].
  apply wpt_bind, wpt_get. cbv zeta. destruct (la_node _ _ _ (qu_later _ _ L12) d nd1 Hnd1) as (nd2 & Hnd2 & _).
  eapply wpt_then; [exact L2 | |].
  { apply (with_node_later _ _ _ nd2); [done | done |].
    apply steady_write_entries; [by eapply forest_sizes64 | done]. }
  intros rc w3 L23 L3. destruct (negb _); [by apply wpt_ret |].
  destruct (la_node _ _ _ (qu_later _ _ L3) p n Hp) as (n3 & Hp3 & _).
  apply wpt_bind. eapply wpt_mono; [by apply (assign_later w3 p n3 (set_n_is_dirty false) (quiet_forest _ _ L3) Hp3) |].
  intros _ w4 [L34 _]. eapply wpt_mono; [apply vol_later; [by eapply quiet_forest | apply vsteady_flush] |].
  intros rc' w5 L5. do 2 (etrans; [eassumption |]). done.
Qed.

(** *** All of them *)

Lemma ancestry_nodup h p l : ancestry h p l -> NoDup l /\ (forall q, q ∈ l -> is_Some (h !! q)) /\ exists l', l = p :: l'.
Proof.
  induction 1 as [p n Hn Hp | p n d l Hn Hp Ha (IH1 & IH2 & _) Hpl].
  - split_and!; [apply NoDup_singleton | | by eexists]. intros q ->%list_elem_of_singleton. eauto.
  - split_and!; [by apply NoDup_cons | | by eexists]. intros q [-> | Hq]%elem_of_cons; eauto.
Qed.

(** A child is not above its parent. *)
Lemma ancestry_child w p l k : forest w -> ancestry (w_heap w) p l -> children (w_heap w) p k ->
  forall q, q ∈ k -> q ∉ l /\ ancestry (w_heap w) q (q :: l).
Proof.
  intros Hf Ha Hk q Hq. assert (Hqn : exists n, w_heap w !! q = Some n /\ n_parent n = Some p).
  { destruct Hk as [_ _ Hs]. apply list_elem_of_split in Hq as (l1 & l2 & ->).
    apply segment_app in Hs as [_ [(n & Hn & Hp & _) _]]. eauto. }
  destruct Hqn as (n & Hn & Hp). destruct (fo_ancestry _ Hf q ltac:(eauto)) as [lq Hlq].
  assert (Heq : forall h a l1 l2, ancestry h a l1 -> ancestry h a l2 -> l1 = l2).
  { clear. intros h a l1 l2 H1. revert l2. induction H1 as [a n Hn Hp | a n d l Hn Hp Ha IH Hal]; intros l2 H2;
      inversion H2 as [? n' Hn' Hp' | ? n' d' l' Hn' Hp' Ha' Hal']; subst; try congruence.
    f_equal. apply IH. congruence. }
  inversion Hlq as [? n' Hn' Hp' | ? n' d' l' Hn' Hp' Ha' Hal']; subst; [congruence |].
  assert (d' = p) as -> by congruence. rewrite (Heq _ _ _ _ Ha Ha'). done.
Qed.

(** A directory above all of [l] and its children fit into the heap. *)
Lemma ancestry_size w p l k : forest w -> ancestry (w_heap w) p l -> children (w_heap w) p k ->
  (length l + length k <= size (w_heap w))%nat.
Proof.
  intros Hf Ha Hk. rewrite <- length_app. destruct (ancestry_nodup _ _ _ Ha) as (Hnd & Hin & _).
  pose proof Hk as [[_ Hndk]%NoDup_cons _ Hs].
  rewrite <- size_dom, <- (size_list_to_set (C := gset ptr)).
  - apply subseteq_size. intros q Hq%elem_of_list_to_set. apply elem_of_dom.
    apply elem_of_app in Hq as [Hq | Hq]; [by apply Hin | by eapply segment_elem].
  - apply NoDup_app. split_and!; [done | | done]. intros q Hq Hqk. by destruct (ancestry_child w p l k Hf Ha Hk q Hqk).
Qed.

Lemma quiet_size w w' : quiet w w' -> size (w_heap w') = size (w_heap w).
Proof. intros [_ E]. by rewrite <- !size_dom, E. Qed.

Lemma later_ancestry d w w' p l : later d w w' -> ancestry (w_heap w) p l -> ancestry (w_heap w') p l.
Proof.
  intros Hl. apply ancestry_parents. intros q n _ Hq. destruct (la_node _ _ _ Hl q n Hq) as (n' & ? & ? & _). by exists n'.
Qed.

(** The list of a directory whose nodes are only changed. *)
Lemma quiet_children w w' p l : forest w -> quiet w w' -> children (w_heap w) p l -> children (w_heap w') p l.
Proof.
  intros Hf [Hl Hdom] Hc. pose proof Hc as [Hnd (n & Hn & Hch) _].
  destruct (n_is_cached n) eqn:E; [by eapply la_list |].
  rewrite (no_uncached _ (fo_node _ Hf p n Hn) E) in Hch. destruct l as [| q l]; [| done].
  destruct (la_node _ _ _ Hl p n Hn) as (n' & Hn' & _). pose proof (la_forest _ _ _ Hl) as Hf'.
  destruct (fo_list _ Hf' p ltac:(eauto)) as [[| q l'] Hl']; [done |]. exfalso.
  destruct Hl' as [_ _ [(m & Hm & Hmp & _) _]].
  assert (Hq : is_Some (w_heap w !! q)) by (apply elem_of_dom; rewrite <- Hdom; apply elem_of_dom; eauto).
  destruct Hq as [m0 Hm0]. destruct (la_node _ _ _ Hl q m0 Hm0) as (m' & Hm' & K & _).
  destruct (fo_parent _ Hf q m0 p Hm0 ltac:(congruence)) as (l0 & Hl0 & Hq).
  rewrite (children_unique _ _ _ _ Hl0 Hc) in Hq. by apply elem_of_nil in Hq.
Qed.

Lemma flush_nodes_quiet f : forall w p l, forest w -> ancestry (w_heap w) p l ->
  (size (w_heap w) < f + length l)%nat -> wpt (flush_nodes f (Some p)) (fun _ w' => quiet w w') w.
Proof.
  induction f as [| f IH]; intros w p l Hf Ha Hfuel;
    destruct (ancestry_nodup _ _ _ Ha) as (Hnd & Hin & _);
    assert (Hp : is_Some (w_heap w !! p)) by (apply Hin; destruct Ha; left);
    destruct (fo_list _ Hf p Hp) as [k Hk]; pose proof (ancestry_size w p l k Hf Ha Hk) as Hsz; [lia |].
  cbn [flush_nodes]. set (ch := fix children (k : nat) (p : option ptr) : M world Z := _).
  assert (Hch : forall k2 k1 j w1, quiet w w1 -> k = k1 ++ k2 -> (length k2 <= j)%nat ->
    wpt (ch j (first_or k2 None)) (fun _ w' => quiet w w') w1).
  { induction k2 as [| q k2 IHk]; intros k1 j w1 L1 -> Hj; [destruct j; by apply wpt_ret |].
    cbn [length] in Hj. destruct j as [| j]; [lia |]. cbn [first_or]. unfold ch. fold ch.
    pose proof (quiet_forest _ _ L1) as Hf1. pose proof (later_ancestry _ _ _ _ _ (qu_later _ _ L1) Ha) as Ha1.
    pose proof (quiet_children _ _ _ _ Hf L1 Hk) as Hk1.
    destruct (ancestry_child w1 p l _ Hf1 Ha1 Hk1 q ltac:(set_solver)) as [_ Haq].
    apply wpt_and_then. eapply wpt_mono; [apply (IH w1 q (q :: l)); [done | done |] |].
    { rewrite (quiet_size _ _ L1). cbn [length]. lia. }
    intros rc w2 L2. assert (L12 : quiet w w2) by by etrans. destruct (negb _); [done |].
    pose proof (quiet_children _ _ _ _ Hf L12 Hk) as [_ _ Hs]. apply segment_app in Hs as [_ [(n & Hn & _ & _ & Hnext) _]].
    apply wpt_bind, (wpt_deref _ _ _ _ Hn). rewrite Hnext.
    apply (IHk (k1 ++ [q])); [done | by rewrite <- app_assoc | lia]. }
  destruct Hk as [Hndk (n & Hn & Hc) Hs] eqn:EHk. clear EHk.
  apply wpt_bind, (wpt_deref _ _ _ _ Hn). rewrite Hc. apply wpt_and_then.
  eapply wpt_mono; [apply (Hch k [] f w); [by apply quiet_refl | done | lia] |].
  intros rc w1 L1. destruct (negb _); [done |]. destruct (la_node _ _ _ (qu_later _ _ L1) p n Hn) as (n1 & Hn1 & _).
  eapply wpt_mono; [apply flush_node_later; [exact (quiet_forest _ _ L1) | by eexists] |]. intros rc' w2 L2. exact (transitivity L1 L2).
Qed.

Lemma exfat_flush_nodes_quiet w : forest w -> wpt exfat_flush_nodes (fun _ w' => quiet w w') w.
Proof.
  intros Hf. unfold exfat_flush_nodes. apply wpt_bind, wpt_get.
  destruct (fo_root _ Hf) as (r & n & -> & Hn & Hp & _).
  apply (flush_nodes_quiet _ w r [r]); [done | by eapply ancestry_top |]. unfold tree_fuel. cbn. lia.
Qed.
End TreeSafe.
