(* ===== verification/TreeMove.v ===== *)
(** * TreeMove: changing the shape of the tree (libexfat/node.c)

    Taking a node out of its directory, putting a node into a directory, a new node
    and a freed node: each keeps the tree of nodes ([forest] of LookupSpec.v), and
    no other node changes its place. *)

From Stdlib Require Import ZArith Lia.
From stdpp Require Import base numbers list gmap.
From S2P Require Import Prelude Bytes Monad Ondisk State Utf Bitmap Geometry Cluster FileIO Utils ExfatTime Entries EntriesSpec DirTerm NodeTerm NodeTree TreeSpec TreeReset Lookup LookupSpec TreeSafe.

#[local] Open Scope Z_scope.

(** ** What a change of the tree keeps *)

(** A node keeps its place and its name. *)
Definition placed (n n' : exfat_node) : Prop :=
  n_parent n' = n_parent n /\ n_attrib n' = n_attrib n /\ n_is_unlinked n' = n_is_unlinked n /\
  (n_is_cached n = true -> n_is_cached n' = true) /\ n_name n' = n_name n.

(** The nodes of a list that are not in [X]. *)
Definition others (X : gset ptr) (l : list ptr) : list ptr := filter (fun q => q ∉ X) l.

Lemma others_sub X Y l : X ⊆ Y -> others Y (others X l) = others Y l.
Proof. intros HXY. unfold others. rewrite list_filter_filter. apply list_filter_iff. set_solver. Qed.

Lemma others_mono X Y l l' : X ⊆ Y -> others X l' = others X l -> others Y l' = others Y l.
Proof. intros HXY E. by rewrite <- (others_sub X Y l'), E, others_sub. Qed.

Lemma elem_of_others X l q : q ∈ others X l <-> (q ∉ X) /\ (q ∈ l).
Proof. unfold others. by rewrite list_elem_of_filter. Qed.

Lemma others_one p l1 l2 : others {[p]} (l1 ++ p :: l2) = others {[p]} (l1 ++ l2).
Proof. unfold others. rewrite !filter_app, filter_cons_False; [done | set_solver]. Qed.

(** From [w] to [w'] the nodes of [X] may be moved or freed, and the others keep their
    places and names, also their order in a directory that was read; [d] is what happens
    to the references. *)
Record after (X : gset ptr) (d : ptr -> Z) (w w' : world) : Prop := {
  af_forest : forest w';
  af_volume : same_volume w w';
  af_root : w_root w' = w_root w;
  af_node : forall p n, w_heap w !! p = Some n -> p ∉ X -> exists n', w_heap w' !! p = Some n' /\ placed n n';
  af_refs : forall q, refs w' q = refs w q + d q;
  af_list : forall b nb l, w_heap w !! b = Some nb -> b ∉ X -> n_is_cached nb = true -> children (w_heap w) b l ->
    exists l', children (w_heap w') b l' /\ others X l' = others X l
}.

Lemma placed_refl n : placed n n.
Proof. done. Qed.

Lemma placed_trans n1 n2 n3 : placed n1 n2 -> placed n2 n3 -> placed n1 n3.
Proof. unfold placed. intuition congruence. Qed.

Lemma after_refl X w : forest w -> after X (fun _ => 0) w w.
Proof. intros Hf. split; try done; [intros p n Hp _; by exists n | intros; lia | intros b nb l; by exists l]. Qed.

Lemma after_later X d w w' : later d w w' -> after X d w w'.
Proof.
  intros [A1 A2 A3 A4 A5 A6]. split; try done.
  - intros p n Hp _. destruct (A4 p n Hp) as (n' & Hn' & K1 & K2 & K3 & K4 & K5). by exists n'.
  - intros b nb l Hb _ Hc Hl. exists l. split; [by eapply A6 | done].
Qed.

Lemma after_trans X Y Z0 d1 d2 d w1 w2 w3 : after X d1 w1 w2 -> after Y d2 w2 w3 ->
  X ⊆ Z0 -> Y ⊆ Z0 -> (forall q, d q = d1 q + d2 q) -> after Z0 d w1 w3.
Proof.
  intros [A1 A2 A3 A4 A5 A6] [B1 B2 B3 B4 B5 B6] HX HY Hd. split.
  - done.
  - by eapply same_volume_trans.
  - congruence.
  - intros p n Hp Hn. destruct (A4 p n Hp ltac:(set_solver)) as (n2 & Hp2 & K2).
    destruct (B4 p n2 Hp2 ltac:(set_solver)) as (n3 & Hp3 & K3). exists n3. split; [done |]. by eapply placed_trans.
  - intros q. rewrite B5, A5, Hd. lia.
  - intros b nb l Hb Hn Hc Hl. destruct (A4 b nb Hb ltac:(set_solver)) as (n2 & Hb2 & _ & _ & _ & K & _).
    destruct (A6 b nb l Hb ltac:(set_solver) Hc Hl) as (l2 & Hl2 & E2).
    destruct (B6 b n2 l2 Hb2 ltac:(set_solver) (K Hc) Hl2) as (l3 & Hl3 & E3). exists l3. split; [done |].
    rewrite (others_mono _ _ _ _ HY E3). exact (others_mono _ _ _ _ HX E2).
Qed.

Lemma after_sub X Y d w w' : after X d w w' -> X ⊆ Y -> after Y d w w'.
Proof.
  intros [A1 A2 A3 A4 A5 A6] HX. split; try done; [intros p n Hp Hn; apply A4; [done | set_solver] |].
  intros b nb l Hb Hn Hc Hl. destruct (A6 b nb l Hb ltac:(set_solver) Hc Hl) as (l' & ? & ?). exists l'.
  split; [done | exact (others_mono _ _ _ _ HX ltac:(eassumption))].
Qed.

(** ** Ancestors *)

Lemma ancestry_unique h p l l' : ancestry h p l -> ancestry h p l' -> l = l'.
Proof.
  intros Ha. revert l'. induction Ha as [p n Hn Hp | p n d l Hn Hp Ha IH Hpl]; intros l' Ha';
    inversion Ha' as [? n' Hn' Hp' | ? n' d' k Hn' Hp' Hk Hpk]; subst; try congruence.
  f_equal. apply IH. congruence.
Qed.

Lemma ancestry_suffix h p l q : ancestry h p l -> q ∈ l -> exists k, ancestry h q k /\ (forall x, x ∈ k -> x ∈ l).
Proof.
  induction 1 as [p n Hn Hp | p n d l Hn Hp Ha IH Hpl]; intros Hq.
  - apply list_elem_of_singleton in Hq as ->. exists [p]. split; [by eapply ancestry_top | done].
  - apply elem_of_cons in Hq as [-> | Hq]; [exists (p :: l); split; [by eapply ancestry_up | done] |].
    destruct (IH Hq) as (k & ? & ?). exists k. split; [done |]. intros. right. auto.
Qed.

Lemma ancestry_self h p l : ancestry h p l -> p ∈ l.
Proof. by destruct 1; left. Qed.

Lemma ancestry_some h p l q : ancestry h p l -> q ∈ l -> is_Some (h !! q).
Proof. intros Ha Hq. by eapply ancestry_nodup. Qed.

(** A node above another one was read. *)
Lemma ancestry_cached w p l q : forest w -> ancestry (w_heap w) p l -> q ∈ l -> q <> p ->
  exists n, w_heap w !! q = Some n /\ n_is_cached n = true.
Proof.
  intros Hf. induction 1 as [p n Hn Hp | p n d l Hn Hp Ha IH Hpl]; intros Hq Hqp.
  - by apply list_elem_of_singleton in Hq.
  - apply elem_of_cons in Hq as [-> | Hq]; [done |]. destruct (decide (q = d)) as [-> | Hqd]; [| by apply IH].
    destruct (fo_parent _ Hf p n d Hn Hp) as (k & [_ (nd & Hd & Hc) _] & Hpk). exists nd. split; [done |].
    destruct (n_is_cached nd) eqn:E; [done |]. rewrite (no_uncached _ (fo_node _ Hf d nd Hd) E) in Hc.
    destruct k; [by apply elem_of_nil in Hpk | done].
Qed.

Lemma after_ancestry X d w w' p l : after X d w w' -> ancestry (w_heap w) p l -> (forall q, q ∈ l -> q ∉ X) ->
  ancestry (w_heap w') p l.
Proof.
  intros Ha Hl HX. eapply ancestry_parents; [| exact Hl]. intros q n Hq Hn.
  destruct (af_node _ _ _ _ Ha q n Hn (HX q Hq)) as (n' & ? & ? & _). by exists n'.
Qed.

(** ** Links *)

(** A child of a directory. *)
Lemma child_parent h d l q : children h d l -> q ∈ l -> exists n, h !! q = Some n /\ n_parent n = Some d.
Proof.
  intros [_ _ Hs] Hq. apply list_elem_of_split in Hq as (l1 & l2 & ->).
  apply segment_app in Hs as [_ [(n & Hn & Hp & _) _]]. by exists n.
Qed.

(** Children of [d] are linked anew, and [p] becomes or ceases to be one of them. *)
Section Reshape.
Context (w : world) (h' : heap) (d p : ptr) (k k' ps : list ptr).
Hypothesis Hf : forest w.
Hypothesis Hre : relinked d (w_heap w) h' (d :: ps).
Hypothesis Hk : children (w_heap w) d k.
Hypothesis Hk' : children h' d k'.
Hypothesis Hps : forall q, q ∈ ps -> q = p \/ (q ∈ k /\ q ∈ k').
Hypothesis Hkk : forall q, q <> p -> q ∈ k -> q ∈ k'.
Hypothesis Hpd : p <> d.
Hypothesis Hcd : exists nd, w_heap w !! d = Some nd /\ n_is_cached nd = true.
Hypothesis Hp : exists n, w_heap w !! p = Some n /\ n_is_unlinked n = false /\ (n_parent n = None \/ n_parent n = Some d).
Hypothesis Hp' : forall n', h' !! p = Some n' -> n_parent n' = None \/ (n_parent n' = Some d /\ p ∈ k').
Hypothesis Hnext : forall n', h' !! p = Some n' -> n_parent n' = None -> n_next n' = None.
Hypothesis Hroot : w_root w <> Some p.
Hypothesis Hothers : others {[p]} k' = others {[p]} k.

Lemma reshape_node q n : w_heap w !! q = Some n ->
  exists n', h' !! q = Some n' /\ same_node d q n n' /\ (q <> p -> n_parent n' = n_parent n).
Proof using Hre Hk Hk' Hps. clear - Hre Hk Hk' Hps.
  intros Hq. destruct Hre as [R1 R2]. destruct (R2 q n Hq) as (n' & Hn' & Hs). exists n'. split_and!; [done | done |].
  intros Hqp. destruct (decide (q = d)) as [-> | Hqd].
  - destruct Hs as (_ & E & _). by apply same_child_links, E.
  - destruct (decide (q ∈ ps)) as [Hin | Hin]; [| rewrite R1 in Hn' by set_solver; congruence].
    destruct (Hps q Hin) as [-> | [Hqk Hqk']]; [done |].
    destruct (child_parent _ _ _ _ Hk Hqk) as (m & ? & ?), (child_parent _ _ _ _ Hk' Hqk') as (m' & ? & ?). congruence.
Qed.

Lemma reshape_dom q : is_Some (h' !! q) -> is_Some (w_heap w !! q).
Proof using Hre Hk Hps Hcd Hp. clear - Hre Hk Hps Hcd Hp.
  intros Hq. destruct Hre as [R1 _]. destruct (decide (q = d)) as [-> | Hqd]; [destruct Hcd as (? & ? & _); eauto |].
  destruct (decide (q ∈ ps)) as [Hin | Hin]; [| by rewrite <- R1 by set_solver].
  destruct (Hps q Hin) as [-> | [Hqk _]]; [destruct Hp as (? & ? & _); eauto |].
  destruct (child_parent _ _ _ _ Hk Hqk) as (? & ? & _). eauto.
Qed.

Lemma reshape_list b l : b <> d -> children (w_heap w) b l -> children h' b l.
Proof.
  intros Hb Hl. eapply children_relinked; [exact Hre | done | | done]. intros q Hq Hin.
  destruct (child_parent _ _ _ _ Hl Hq) as (n & Hn & Hnp). destruct (Hps q Hin) as [-> | [Hqk _]].
  - destruct Hp as (m & Hm & _ & Hmp). destruct Hmp; congruence.
  - destruct (child_parent _ _ _ _ Hk Hqk) as (m & Hm & Hmp). congruence.
Qed.

Lemma reshape_ok q n n' : same_node d q n n' -> (q = d -> n_is_cached n = true) ->
  (n_is_unlinked n = true -> n_parent n' = None) -> node_ok n -> node_ok n'.
Proof.
  intros (Hd & _ & Hc) Hcq Hu [O1 O2 O3 O4 O5 O6 O7]. unfold same_data in Hd. destruct n, n'. cbn in Hd. injection Hd as E.
  unfold below64, is_dir in *. cbn in *. subst. split; try done. cbn. intros E. destruct (decide (q = d)) as [-> | Hq].
  - by rewrite Hcq in E.
  - rewrite Hc by done. auto.
Qed.

(** What is left to show is that no node is above itself. *)
Lemma reshape_after : (forall q, is_Some (w_heap w !! q) -> exists l, ancestry h' q l) ->
  after {[p]} (fun _ => 0) w (set_w_heap h' w).
Proof.
  intros Hanc. destruct Hf as [F1 F2 F3 F4 F5 F6 F7 F8]. destruct Hcd as (nd & Hd & Hcdn). destruct Hp as (np & Hnp & Hun & Hpp).
  assert (Hback : forall q n', h' !! q = Some n' -> exists n, w_heap w !! q = Some n /\ same_node d q n n' /\
    (q <> p -> n_parent n' = n_parent n)).
  { intros q n' Hq. destruct (reshape_dom q ltac:(eauto)) as [n Hn]. destruct (reshape_node q n Hn) as (m & Hm & ?).
    simplify_eq. by exists n. }
  assert (Hdata : forall n n', same_data n n' -> n_attrib n' = n_attrib n /\ n_is_unlinked n' = n_is_unlinked n /\
    n_is_cached n' = n_is_cached n /\ n_references n' = n_references n /\ n_name n' = n_name n).
  { intros n n' E. pose proof (f_equal n_attrib E). pose proof (f_equal n_is_unlinked E).
    pose proof (f_equal n_is_cached E). pose proof (f_equal n_references E). by pose proof (f_equal n_name E). }
  split; [split | | | | |]; cbn [w_heap w_vol w_root w_fresh set_w_heap]; try done.
  - intros q Hq. by apply F1, reshape_dom.
  - destruct F3 as (r & m & Hr & Hm & M1 & M2 & M3). destruct (reshape_node r m Hm) as (m' & Hm' & (S & _) & E).
    exists r, m'. destruct (Hdata _ _ S) as (A & U & _). unfold is_dir in *. rewrite A, U.
    split_and!; [done | done | | done | done]. rewrite E by congruence. done.
  - intros q n' Hq. destruct (Hback q n' Hq) as (n & Hn & Hs & Hpar). pose proof (F4 q n Hn) as Hok.
    apply (reshape_ok q n n' Hs); [intros ->; congruence | | done]. intros Hu. destruct (decide (q = p)) as [-> | Hqp].
    + congruence.
    + rewrite Hpar by done. by apply Hok.
  - intros q Hq. destruct (decide (q = d)) as [-> | Hqd]; [by exists k' |].
    destruct (F5 q (reshape_dom q Hq)) as [l Hl]. exists l. by apply reshape_list.
  - intros q n' e Hq He. destruct (decide (q = p)) as [-> | Hqp].
    { destruct (Hp' n' Hq) as [| [? ?]]; [congruence |]. exists k'. assert (e = d) as -> by congruence. done. }
    destruct (Hback q n' Hq) as (n & Hn & _ & Hpar). rewrite Hpar in He by done. destruct (F6 q n e Hn He) as (l & Hl & Hql).
    destruct (decide (e = d)) as [-> | Hed]; [| exists l; split; [by apply reshape_list | done]].
    exists k'. split; [done |]. apply Hkk; [done |]. by rewrite <- (children_unique _ _ _ _ Hl Hk).
  - intros q Hq. by apply Hanc, reshape_dom.
  - intros q n' Hq Hn'. destruct (decide (q = p)) as [-> | Hqp]; [by apply Hnext |].
    destruct (Hback q n' Hq) as (n & Hn & (_ & Hsd & _) & Hpar). rewrite Hpar in Hn' by done.
    destruct (decide (q ∈ d :: ps)) as [[-> | Hin]%elem_of_cons | Hin].
    + rewrite (proj2 (proj2 (same_child_links _ _ (Hsd eq_refl)))). by apply (F8 d).
    + destruct (Hps q Hin) as [-> | [Hqk _]]; [done |]. destruct (child_parent _ _ _ _ Hk Hqk) as (m & ? & ?). congruence.
    + destruct Hre as [R1 _]. rewrite R1 in Hq by done. simplify_eq. by apply (F8 q).
  - intros q n Hn Hq%not_elem_of_singleton. destruct (reshape_node q n Hn) as (n' & Hn' & (S & _) & E).
    exists n'. destruct (Hdata _ _ S) as (A & U & C & _ & N). split; [done |].
    split_and!; [by apply E | done | done | by rewrite C | done].
  - intros q. unfold refs. cbn [w_heap set_w_heap]. destruct (w_heap w !! q) as [n |] eqn:Hn.
    + destruct (reshape_node q n Hn) as (n' & -> & (S & _) & _). destruct (Hdata _ _ S) as (_ & _ & _ & -> & _). lia.
    + destruct (h' !! q) as [n' |] eqn:Hn'; [| lia]. destruct (reshape_dom q ltac:(eauto)). congruence.
  - intros b nb l Hb _ _ Hl. destruct (decide (b = d)) as [-> | Hbd]; [| exists l; split; [by apply reshape_list | done]].
    exists k'. split; [done |]. by rewrite (children_unique _ _ _ _ Hl Hk).
Qed.
End Reshape.

(** *** The ancestors *)

(** When [p] loses its parent, the nodes below it have fewer ancestors. *)
Lemma ancestry_cut h h' p q l :
  (forall x n, h !! x = Some n -> exists n', h' !! x = Some n' /\
     n_parent n' = if decide (x = p) then None else n_parent n) ->
  ancestry h q l -> exists l', ancestry h' q l' /\ (forall x, x ∈ l' -> x ∈ l).
Proof.
  intros Hh. induction 1 as [q n Hn Hq | q n d l Hn Hq Ha IH Hql]; destruct (Hh q n Hn) as (n' & Hn' & E).
  - exists [q]. split; [| done]. apply (ancestry_top _ _ n'); [done |]. rewrite E, Hq. by destruct (decide _).
  - destruct (decide (q = p)) as [-> |].
    + exists [p]. split; [by apply (ancestry_top _ _ n') |]. intros x ->%list_elem_of_singleton. left.
    + destruct IH as (l' & Hl' & Hsub). exists (q :: l'). split.
      * apply (ancestry_up _ _ n' d); [done | congruence | done |]. intros Hin. by apply Hql, Hsub.
      * intros x [-> | Hx]%elem_of_cons; [left | right; auto].
Qed.

(** When [p] gets the parent [d], which is not below it, the nodes below [p] get the
    ancestors of [d]. *)
Lemma ancestry_graft h h' p d ld q l :
  (forall x n, h !! x = Some n -> exists n', h' !! x = Some n' /\
     n_parent n' = if decide (x = p) then Some d else n_parent n) ->
  (forall n, h !! p = Some n -> n_parent n = None) -> ancestry h d ld -> p ∉ ld -> ancestry h q l ->
  ancestry h' q (if decide (p ∈ l) then l ++ ld else l).
Proof.
  intros Hh Hp Hd Hpd.
  assert (Hd' : ancestry h' d ld).
  { eapply ancestry_parents; [| exact Hd]. intros x n Hx Hn. destruct (Hh x n Hn) as (n' & Hn' & E).
    exists n'. split; [done |]. by rewrite E, decide_False by (by intros ->). }
  induction 1 as [q n Hn Hq | q n e l Hn Hq Ha IH Hql]; destruct (Hh q n Hn) as (n' & Hn' & E).
  - destruct (decide (p ∈ [q])) as [<-%list_elem_of_singleton | Hpq].
    + rewrite decide_True in E by done. by apply (ancestry_up _ _ n' d).
    + rewrite decide_False in E by (intros ->; set_solver). apply (ancestry_top _ _ n'); congruence.
  - assert (Hqp : q <> p) by (intros ->; specialize (Hp n Hn); congruence).
    rewrite decide_False in E by done. destruct (decide (p ∈ q :: l)) as [Hin | Hin].
    + apply elem_of_cons in Hin as [-> | Hin]; [done |]. rewrite decide_True in IH by done.
      apply (ancestry_up _ _ n' e); [done | congruence | done |]. intros [? | Hqd]%elem_of_app; [done |].
      destruct (ancestry_suffix _ _ _ _ Hd Hqd) as (k & Hk & Hsub).
      rewrite (ancestry_unique _ _ _ _ Hk (ancestry_up _ _ _ _ _ Hn Hq Ha Hql)) in Hsub. apply Hpd, Hsub. by right.
    + rewrite decide_False in IH by set_solver. apply (ancestry_up _ _ n' e); [done | congruence | done | done].
Qed.

(** *** Out of a directory and into one *)

(** A node outside of the tree with the data and the children of [n]. *)
Definition loose (h : heap) (p : ptr) (n : exfat_node) : Prop := exists n', h !! p = Some n' /\
  same_data n n' /\ n_child n' = n_child n /\ n_parent n' = None /\ n_prev n' = None /\ n_next n' = None.

Lemma parent_cached w p d l : forest w -> children (w_heap w) d l -> p ∈ l ->
  exists nd, w_heap w !! d = Some nd /\ n_is_cached nd = true.
Proof.
  intros Hf [_ (nd & Hd & Hc) _] Hp. exists nd. split; [done |]. destruct (n_is_cached nd) eqn:E; [done |].
  rewrite (no_uncached _ (fo_node _ Hf d nd Hd) E) in Hc. destruct l; [by apply elem_of_nil in Hp | done].
Qed.

Lemma root_parentless w p n d : forest w -> w_heap w !! p = Some n -> n_parent n = Some d -> w_root w <> Some p.
Proof. intros Hf Hp Hd Hr. destruct (fo_root _ Hf) as (r & m & Hr' & Hm & Hmp & _). congruence. Qed.

Lemma attached_linked w p n d : forest w -> w_heap w !! p = Some n -> n_parent n = Some d -> n_is_unlinked n = false.
Proof.
  intros Hf Hp Hd. destruct (n_is_unlinked n) eqn:E; [| done].
  pose proof (no_unlinked _ (fo_node _ Hf p n Hp) E). congruence.
Qed.

Lemma detach_after w p n d : forest w -> w_heap w !! p = Some n -> n_parent n = Some d ->
  exists h', tree_detach (Some p) w = Ok tt (set_w_heap h' w) /\
    after {[p]} (fun _ => 0) w (set_w_heap h' w) /\ dom h' = dom (w_heap w) /\ loose h' p n.
Proof.
  intros Hf Hp Hd. destruct (fo_parent _ Hf p n d Hp Hd) as (l & Hl & Hpl).
  pose proof (parent_cached w p d l Hf Hl Hpl) as Hcd.
  apply list_elem_of_split in Hpl as (l1 & l2 & ->).
  destruct (tree_detach_spec w d l1 l2 p Hl) as (h' & E & Hl' & Hre & m & Hm & M1 & M2 & M3).
  assert (Hnd : p <> d /\ p ∉ l1 ++ l2).
  { destruct Hl as [Hnd _ _]. rewrite NoDup_cons, NoDup_app, NoDup_cons in Hnd. set_solver. }
  destruct Hnd as [Hpd Hpl]. exists h'. split; [done |].
  assert (Hps : forall q, q ∈ l1 ++ p :: l2 -> q = p \/ (q ∈ l1 ++ p :: l2 /\ q ∈ l1 ++ l2)) by set_solver.
  assert (Hpn : exists n, w_heap w !! p = Some n /\ n_is_unlinked n = false /\ (n_parent n = None \/ n_parent n = Some d)).
  { exists n. split_and!; [done | by eapply attached_linked | by right]. }
  split_and!.
  - eapply (reshape_after w h' d p (l1 ++ p :: l2) (l1 ++ l2) (l1 ++ p :: l2)); try done.
    + set_solver.
    + intros n' Hn'. left. congruence.
    + intros n' Hn' _. congruence.
    + by eapply root_parentless.
    + by rewrite others_one.
    + intros q Hq. destruct (fo_ancestry _ Hf q Hq) as [la Hla].
      destruct (ancestry_cut (w_heap w) h' p q la) as (la' & ? & _); [| done | by exists la'].
      intros x nx Hx. destruct (reshape_node _ _ _ _ _ _ _ Hre Hl Hl' Hps x nx Hx) as (nx' & Hx' & _ & Ex).
      exists nx'. split; [done |]. destruct (decide (x = p)) as [-> |]; [congruence | by apply Ex].
  - apply set_eq. intros q. rewrite !elem_of_dom. split.
    + eapply reshape_dom; [done | exact Hl | exact Hps | done |]. exists n. split_and!; [done | by eapply attached_linked | by right].
    + intros [x Hx]. destruct (reshape_node _ _ _ _ _ _ _ Hre Hl Hl' Hps q x Hx) as (? & ? & _). eauto.
  - destruct Hre as [_ R2]. destruct (R2 p n Hp) as (m' & Hm' & Hs & _ & Hc). exists m'.
    assert (m' = m) as -> by congruence. split_and!; try done. by apply Hc.
Qed.

Lemma attach_after w p n d nd ld : forest w -> w_heap w !! p = Some n ->
  n_parent n = None -> n_prev n = None -> n_next n = None -> n_is_unlinked n = false -> w_root w <> Some p ->
  w_heap w !! d = Some nd -> n_is_cached nd = true -> ancestry (w_heap w) d ld -> p ∉ ld ->
  exists h', tree_attach (Some d) (Some p) w = Ok tt (set_w_heap h' w) /\
    after {[p]} (fun _ => 0) w (set_w_heap h' w) /\
    exists n' l, h' !! p = Some n' /\ n_parent n' = Some d /\ same_data n n' /\ children h' d (p :: l).
Proof.
  intros Hf Hp P1 P2 P3 Hun Hroot Hd Hcd Hld Hpd. destruct (fo_list _ Hf d ltac:(eauto)) as [l Hl].
  assert (Hne : p <> d) by (intros ->; by eapply Hpd, ancestry_self).
  assert (Hpl : p ∉ l) by (intros Hin; destruct (child_parent _ _ _ _ Hl Hin) as (m & ? & ?); congruence).
  destruct (tree_attach_spec w d l p n Hl) as (h' & E & Hl' & Hre); [set_solver | done | done | done |].
  exists h'. split; [done |].
  assert (Hps : forall q, q ∈ p :: l -> q = p \/ (q ∈ l /\ q ∈ p :: l)) by set_solver.
  destruct (child_parent _ _ _ p Hl' ltac:(left)) as (n' & Hn' & Hpar). split.
  2: { exists n', l. split_and!; [done | done | | done]. destruct Hre as [_ R2]. destruct (R2 p n Hp) as (m & Hm & S & _). congruence. }
  eapply (reshape_after w h' d p l (p :: l) (p :: l)); try done.
  - intros. by right.
  - by exists nd.
  - exists n. tauto.
  - intros m Hm. right. split; [congruence | left].
  - intros m Hm Hpm. congruence.
  - exact (others_one p [] l).
  - intros q Hq. destruct (fo_ancestry _ Hf q Hq) as [la Hla]. eexists.
    eapply (ancestry_graft (w_heap w) h' p d ld); [| | done | done | exact Hla]; [| congruence].
    intros x nx Hx. destruct (reshape_node _ _ _ _ _ _ _ Hre Hl Hl' Hps x nx Hx) as (nx' & Hx' & _ & Ex).
    exists nx'. split; [done |]. destruct (decide (x = p)) as [-> |]; [congruence | by apply Ex].
Qed.

(** *** Nodes that come and go *)

(** The nodes alone: [forest] without the volume and its root. *)
Record grove (w : world) : Prop := {
  gr_fresh : forall q, is_Some (w_heap w !! q) -> (q < w_fresh w)%N;
  gr_node : forall p n, w_heap w !! p = Some n -> node_ok n;
  gr_list : forall p, is_Some (w_heap w !! p) -> exists l, children (w_heap w) p l;
  gr_parent : forall p n d, w_heap w !! p = Some n -> n_parent n = Some d ->
    exists l, children (w_heap w) d l /\ p ∈ l;
  gr_ancestry : forall p, is_Some (w_heap w !! p) -> exists l, ancestry (w_heap w) p l;
  gr_next : forall p n, w_heap w !! p = Some n -> n_parent n = None -> n_next n = None
}.

Lemma forest_grove w : forest w -> grove w.
Proof. by intros []. Qed.

(** A root makes a forest of it. *)
Lemma grove_forest w r n : grove w -> 0 < CLUSTER_SIZE (ef_sb (w_ef w)) -> w_root w = Some r -> w_heap w !! r = Some n ->
  n_parent n = None -> is_dir n = true -> n_is_unlinked n = false -> forest w.
Proof. intros [] ? ? ? ? ? ?. split; try done. by exists r, n. Qed.

(** A forest keeps its root when another node comes or goes. *)
Lemma regrown w w' : forest w -> grove w' -> w_vol w' = w_vol w -> w_root w' = w_root w ->
  (forall r, w_root w = Some r -> w_heap w' !! r = w_heap w !! r) -> forest w'.
Proof.
  intros [F1 F2 F3 F4 F5 F6 F7 F8] G Hv Hr Hsame. destruct F3 as (r & n & Hroot & Hn & ? & ? & ?).
  eapply (grove_forest w' r n); try done; [| congruence | by rewrite Hsame]. unfold w_ef in *. by rewrite Hv.
Qed.

Lemma new_grove w n : grove w -> node_ok n -> n_parent n = None -> n_child n = None -> n_next n = None ->
  grove (set_w_fresh (w_fresh w + 1)%N (set_w_heap (<[w_fresh w := n]> (w_heap w)) w)).
Proof.
  intros [F1 F4 F5 F6 F7 F8] Hok Hp Hc Hnx. set (p := w_fresh w). set (h' := <[p := n]> (w_heap w)).
  assert (Hnone : w_heap w !! p = None).
  { destruct (w_heap w !! p) eqn:E; [| done]. pose proof (F1 p ltac:(eauto)). unfold p in *. lia. }
  assert (Hold : forall q m, w_heap w !! q = Some m -> h' !! q = Some m).
  { intros q m Hq. unfold h'. rewrite lookup_insert_ne; [done |]. intros ->. congruence. }
  assert (Hnew : forall q m, h' !! q = Some m -> (q = p /\ m = n) \/ w_heap w !! q = Some m).
  { intros q m [[-> <-] | [_ ?]]%lookup_insert_Some; tauto. }
  assert (Hlist : forall b l, children (w_heap w) b l -> children h' b l).
  { intros b l. apply children_place. intros q m Hq. exists m. split; [by apply Hold | done]. }
  split; cbn [w_heap w_vol w_root w_fresh set_w_heap set_w_fresh]; fold p h'.
  - intros q [m Hq]. destruct (Hnew q m Hq) as [[-> _] | Hq']; [unfold p; lia |]. pose proof (F1 q ltac:(eauto)). lia.
  - intros q m Hq. destruct (Hnew q m Hq) as [[-> ->] | Hq']; [done | by eapply F4].
  - intros q [m Hq]. destruct (Hnew q m Hq) as [[-> ->] | Hq'].
    + exists []. split; [apply NoDup_singleton | by exists n | done].
    + destruct (F5 q ltac:(eauto)) as [l Hl]. exists l. by apply Hlist.
  - intros q m d Hq Hd. destruct (Hnew q m Hq) as [[-> ->] | Hq']; [congruence |].
    destruct (F6 q m d Hq' Hd) as (l & Hl & ?). exists l. split; [by apply Hlist | done].
  - intros q [m Hq]. destruct (Hnew q m Hq) as [[-> ->] | Hq'].
    + exists [p]. by eapply ancestry_top.
    + destruct (F7 q ltac:(eauto)) as [l Hl]. exists l. eapply ancestry_parents; [| exact Hl].
      intros x nx _ Hx. exists nx. split; [by apply Hold | done].
  - intros q m Hq Hm. destruct (Hnew q m Hq) as [[-> ->] | Hq']; [done | by apply (F8 q)].
Qed.

Lemma new_after w n : forest w -> node_ok n -> n_parent n = None -> n_child n = None -> n_next n = None -> n_references n = 0 ->
  after ∅ (fun _ => 0) w (set_w_fresh (w_fresh w + 1)%N (set_w_heap (<[w_fresh w := n]> (w_heap w)) w)).
Proof.
  intros Hf Hok Hp Hc Hnx Hr. assert (Hnone : w_heap w !! w_fresh w = None).
  { destruct (w_heap w !! w_fresh w) eqn:E; [| done]. pose proof (fo_fresh w Hf (w_fresh w) ltac:(eauto)). lia. }
  assert (Hold : forall q m, w_heap w !! q = Some m -> <[w_fresh w := n]> (w_heap w) !! q = Some m).
  { intros q m Hq. rewrite lookup_insert_ne; [done |]. intros <-. congruence. }
  split; cbn [w_heap w_vol w_root w_fresh set_w_heap set_w_fresh]; try done.
  - eapply (regrown w); [done | apply new_grove; [by apply forest_grove | done..] | done | done |]. intros r Hroot. destruct (fo_root w Hf) as (? & m & ? & Hm & _).
    simplify_eq. cbn. by rewrite (Hold _ _ Hm).
  - intros q m Hq _. exists m. split; [by apply Hold | done].
  - intros q. unfold refs. cbn [w_heap set_w_heap set_w_fresh]. destruct (decide (q = w_fresh w)) as [-> | Hq].
    + rewrite lookup_insert_eq, Hnone. lia.
    + rewrite lookup_insert_ne by done. lia.
  - intros b nb l _ _ _ Hl. exists l. split; [| done]. revert Hl. apply children_place. intros q m Hq. exists m.
    split; [by apply Hold | done].
Qed.

Lemma ancestry_has_child h p l q : ancestry h p l -> q ∈ l -> q <> p ->
  exists x n, h !! x = Some n /\ n_parent n = Some q.
Proof.
  induction 1 as [p n Hn Hp | p n d l Hn Hp Ha IH Hpl]; intros Hq Hqp.
  - by apply list_elem_of_singleton in Hq.
  - apply elem_of_cons in Hq as [-> | Hq]; [done |]. destruct (decide (q = d)) as [-> | Hqd]; [eauto | by apply IH].
Qed.

(** Nobody is below a node without children. *)
Lemma free_grove w p n : grove w -> w_heap w !! p = Some n -> n_parent n = None -> n_child n = None ->
  grove (set_w_heap (delete p (w_heap w)) w).
Proof.
  intros [F1 F4 F5 F6 F7 F8] Hn Hp Hc. set (h' := delete p (w_heap w)).
  assert (Hold : forall q m, w_heap w !! q = Some m -> q <> p -> h' !! q = Some m).
  { intros q m Hq Hqp. unfold h'. by rewrite lookup_delete_ne. }
  assert (Hnew : forall q m, h' !! q = Some m -> q <> p /\ w_heap w !! q = Some m).
  { intros q m [Hq ?]%lookup_delete_Some. done. }
  assert (Hlist : forall b l, b <> p -> children (w_heap w) b l -> children h' b l).
  { intros b l Hb Hl. pose proof Hl as [Hnd (nb & Hnb & Hcb) Hs]. split; [done | exists nb; split; [by apply Hold | done] |].
    eapply segment_frame; [| exact Hs]. intros q Hq. unfold h'. rewrite lookup_delete_ne; [done |]. intros <-.
    destruct (child_parent _ _ _ _ Hl Hq) as (m & Hm & ?). congruence. }
  assert (Hchild : forall x m, w_heap w !! x = Some m -> n_parent m <> Some p).
  { intros x m Hx Hm. destruct (F6 x m p Hx Hm) as (l & [_ (np & Hnp & Hcp) _] & Hin). simplify_eq.
    rewrite Hc in Hcp. destruct l; [by apply elem_of_nil in Hin | done]. }
  split; cbn [w_heap w_vol w_root w_fresh set_w_heap]; fold h'.
  - intros q [m Hq]. destruct (Hnew q m Hq). apply F1. eauto.
  - intros q m Hq. destruct (Hnew q m Hq). by eapply F4.
  - intros q [m Hq]. destruct (Hnew q m Hq). destruct (F5 q ltac:(eauto)) as [l Hl]. exists l. by apply Hlist.
  - intros q m d Hq Hd. destruct (Hnew q m Hq) as [Hqp Hq']. destruct (F6 q m d Hq' Hd) as (l & Hl & ?). exists l.
    split; [| done]. apply Hlist; [| done]. intros ->. by eapply Hchild.
  - intros q [m Hq]. destruct (Hnew q m Hq) as [Hqp Hq']. destruct (F7 q ltac:(eauto)) as [l Hl]. exists l.
    eapply ancestry_parents; [| exact Hl]. intros x nx Hxl Hx. exists nx. split; [| done]. apply Hold; [done |].
    intros ->. destruct (ancestry_has_child _ _ _ _ Hl Hxl (not_eq_sym Hqp)) as (y & my & Hy & Hpy). by eapply Hchild.
  - intros q m Hq Hm. destruct (Hnew q m Hq). by apply (F8 q).
Qed.

Lemma free_after w p n : forest w -> w_heap w !! p = Some n -> n_parent n = None -> n_child n = None ->
  n_references n = 0 -> w_root w <> Some p -> after {[p]} (fun _ => 0) w (set_w_heap (delete p (w_heap w)) w).
Proof.
  intros Hf Hn Hp Hc Hr Hroot. split; cbn [w_heap w_vol w_root w_fresh set_w_heap]; try done.
  - eapply (regrown w); [done | by eapply free_grove; [apply forest_grove | exact Hn | ..] | done | done |]. intros r ?. cbn.
    by rewrite lookup_delete_ne by congruence.
  - intros q m Hq Hqp%not_elem_of_singleton. exists m. split; [by rewrite lookup_delete_ne | done].
  - intros q. unfold refs. cbn [w_heap set_w_heap set_w_fresh]. destruct (decide (q = p)) as [-> | Hq].
    + rewrite lookup_delete_eq, Hn. lia.
    + rewrite lookup_delete_ne by done. lia.
  - intros b nb l Hb Hbp%not_elem_of_singleton _ Hl. exists l. split; [| done]. pose proof Hl as [Hnd (m & Hm & Hcm) Hs].
    split; [done | exists m; by rewrite lookup_delete_ne by done |]. eapply segment_frame; [| exact Hs]. intros q Hq.
    rewrite lookup_delete_ne; [done |]. intros <-. destruct (child_parent _ _ _ _ Hl Hq) as (? & ? & ?). congruence.
Qed.

(** Another node at [p] with the same links. *)
Lemma set_after X w p n n' : forest w -> w_heap w !! p = Some n -> n_parent n' = n_parent n -> n_prev n' = n_prev n ->
  n_next n' = n_next n -> n_child n' = n_child n -> n_references n' = n_references n -> node_ok n' ->
  (w_root w = Some p -> is_dir n' = true /\ n_is_unlinked n' = false) -> (p ∉ X -> placed n n') ->
  after X (fun _ => 0) w (set_w_heap (<[p := n']> (w_heap w)) w).
Proof.
  intros [F1 F2 F3 F4 F5 F6 F7 F8] Hn L1 L2 L3 L4 L5 Hok Hroot Hpl. set (h' := <[p := n']> (w_heap w)).
  assert (Hfwd : forall q m, w_heap w !! q = Some m -> exists m', h' !! q = Some m' /\
    n_parent m' = n_parent m /\ n_prev m' = n_prev m /\ n_next m' = n_next m /\ n_child m' = n_child m /\
    n_references m' = n_references m /\ (q <> p -> m' = m)).
  { intros q m Hq. unfold h'. destruct (decide (q = p)) as [-> | Hqp].
    - exists n'. rewrite lookup_insert_eq. by simplify_eq.
    - exists m. by rewrite lookup_insert_ne. }
  assert (Hnew : forall q m, h' !! q = Some m -> (q = p /\ m = n') \/ (q <> p /\ w_heap w !! q = Some m)).
  { intros q m [[-> <-] | [? ?]]%lookup_insert_Some; [tauto |]. right. split; [congruence | done]. }
  assert (Hdom : forall q, is_Some (h' !! q) -> is_Some (w_heap w !! q)).
  { intros q [m Hq]. destruct (Hnew q m Hq) as [[-> _] | [_ ?]]; eauto. }
  assert (Hlist : forall b l, children (w_heap w) b l -> children h' b l).
  { intros b l. apply children_place. intros q m Hq. destruct (Hfwd q m Hq) as (m' & ? & ? & ? & ? & ? & _). by exists m'. }
  split; [split | | | | |]; cbn [w_heap w_vol w_root w_fresh set_w_heap]; fold h'; try done.
  - intros q Hq. by apply F1, Hdom.
  - destruct F3 as (r & m & Hr & Hm & M1 & M2 & M3). destruct (Hfwd r m Hm) as (m' & Hm' & E & _ & _ & _ & _ & E').
    exists r, m'. destruct (decide (r = p)) as [-> | Hrp]; [| by pose proof (E' Hrp) as ->].
    destruct (Hnew p m' Hm') as [[_ ->] | [? _]]; [| done]. destruct (Hroot Hr). split_and!; congruence.
  - intros q m Hq. destruct (Hnew q m Hq) as [[-> ->] | [_ Hq']]; [done | by eapply F4].
  - intros q Hq. destruct (F5 q (Hdom q Hq)) as [l Hl]. exists l. by apply Hlist.
  - intros q m d Hq Hd. assert (Hq' : exists m0, w_heap w !! q = Some m0 /\ n_parent m0 = Some d).
    { destruct (Hnew q m Hq) as [[-> ->] | [_ ?]]; [exists n; split; congruence | eauto]. }
    destruct Hq' as (m0 & Hq' & Hd'). destruct (F6 q m0 d Hq' Hd') as (l & Hl & ?). exists l. split; [by apply Hlist | done].
  - intros q Hq. destruct (F7 q (Hdom q Hq)) as [l Hl]. exists l. eapply ancestry_parents; [| exact Hl].
    intros x nx _ Hx. destruct (Hfwd x nx Hx) as (m' & ? & ? & _). by exists m'.
  - intros q m Hq Hm. destruct (Hnew q m Hq) as [[-> ->] | [_ Hq']]; [| by apply (F8 q)].
    rewrite L3. apply (F8 p n Hn). congruence.
  - intros q m Hq HqX. destruct (Hfwd q m Hq) as (m' & Hm' & _ & _ & _ & _ & _ & E). exists m'. split; [done |].
    destruct (decide (q = p)) as [-> | Hqp]; [| by rewrite E].
    destruct (Hnew p m' Hm') as [[_ ->] | [? _]]; [| done]. simplify_eq. by apply Hpl.
  - intros q. unfold refs. cbn [w_heap set_w_heap]. fold h'. destruct (w_heap w !! q) as [m |] eqn:Hq.
    + destruct (Hfwd q m Hq) as (m' & -> & _ & _ & _ & _ & -> & _). lia.
    + destruct (h' !! q) as [m' |] eqn:Hq'; [| lia]. destruct (Hdom q ltac:(eauto)). congruence.
  - intros b nb l _ _ _ Hl. exists l. split; [by apply Hlist | done].
Qed.

(** A node outside of the tree is marked as removed. *)
Lemma unlink_after w p n : forest w -> w_heap w !! p = Some n -> n_parent n = None -> w_root w <> Some p ->
  after {[p]} (fun _ => 0) w (set_w_heap (<[p := set_n_is_unlinked true n]> (w_heap w)) w).
Proof.
  intros Hf Hn Hp Hroot. apply (set_after {[p]} w p n); try done; [| set_solver].
  pose proof (fo_node _ Hf p n Hn) as []. by split.
Qed.
