(* ===== verification/FlushSpec.v ===== *)
(** * FlushSpec: writing everything back (exfat_flush_nodes of libexfat/cluster.c)

    Writing the entries of a node reads and writes its directory, which may make that
    directory dirty: [flush_nodes] therefore has to visit the children of a directory
    before the directory.  When it reports success, nothing below the root is dirty. *)

From Stdlib Require Import ZArith Lia.
From stdpp Require Import base numbers list gmap.
From S2P Require Import Prelude Bytes Monad Ondisk State Utf Bitmap Geometry Cluster FileIO Utils ExfatTime Entries EntriesSpec DirTerm NodeTerm NodeTree TreeSpec TreeReset Lookup LookupSpec TreeSafe TreeMove.

#[local] Open Scope Z_scope.

Section FlushSpec.
Context `{Platform}.
Implicit Types (w : world) (p q : ptr).

(** ** One node *)

(** The nodes outside of [X] are the same. *)
Definition apart_from (X : ptr -> Prop) w w' : Prop := forall q, ~ X q -> w_heap w' !! q = w_heap w !! q.

Definition dirty w q : Prop := exists n, w_heap w !! q = Some n /\ n_is_dirty n = true.
Definition topmost w q : Prop := exists n, w_heap w !! q = Some n /\ n_parent n = None.

(** [q] is [p], or is below it. *)
Definition below w p q : Prop := exists l, ancestry (w_heap w) q l /\ p ∈ l.

Lemma with_node_apart {A} (f : M nstate A) w d a w' : with_node (Some d) f w = Ok a w' -> apart_from (eq d) w w'.
Proof.
  unfold with_node, deref. destruct (w_heap w !! d) as [n |]; [| done]. destruct (f _) as [b s | |]; [| done..].
  unfold store. cbn. destruct (w_heap w !! d); [| done]. intros [= <- <-] q Hq. cbn. by rewrite lookup_insert_ne.
Qed.

Lemma part_heap {A} (f : M vol A) w a w' : on_part f w = Ok a w' -> w_heap w' = w_heap w.
Proof. unfold on_part. destruct (f _); [by intros [= <- <-] | done..]. Qed.

Lemma assign_heap w d g a w' : assign (Some d) g w = Ok a w' ->
  exists n, w_heap w !! d = Some n /\ w_heap w' = <[d := g n]> (w_heap w).
Proof.
  unfold assign, bind, deref, store. destruct (w_heap w !! d) as [n |] eqn:E; [| done].
  rewrite E. intros [=]; subst. exists n. done.
Qed.

(** What [exfat_flush_node] does to the dirty nodes. *)
Lemma flush_node_dirty w p n rc w' : w_heap w !! p = Some n -> n_parent n <> Some p ->
  exfat_flush_node (Some p) w = Ok rc w' ->
  apart_from (fun q => p = q \/ n_parent n = Some q) w w' /\ (rc = 0 -> n_parent n <> None -> ~ dirty w' p).
Proof.
  intros Hp Hne E. unfold exfat_flush_node in E. apply bind_inv in E as (n' & w1 & E1 & E).
  unfold deref in E1. rewrite Hp in E1. injection E1 as <- <-. apply bind_inv in E as (? & ? & [= <- <-] & E).
  destruct (n_is_dirty n) eqn:Hd; cbn [negb] in E.
  2: { injection E as <- <-. split; [done |]. intros _ _ (n' & ? & ?). congruence. }
  destruct (negb _); [done |]. destruct (n_parent n) as [d |] eqn:Hpar; [| by injection E as <- <-].
  assert (Hsub : forall w1, apart_from (eq d) w w1 -> apart_from (fun q => p = q \/ Some d = Some q) w w1).
  { intros w1 A q Hq. apply A. intros ->. auto. }
  apply bind_inv in E as ([rc1 entries] & w1 & E1 & E). apply with_node_apart in E1 as A1.
  destruct (negb _) eqn:Hrc; [injection E as <- <-; split; [by apply Hsub | intros ->; done] |].
  apply bind_inv in E as (ok & w2 & E2 & E). apply part_heap in E2.
  assert (A2 : apart_from (eq d) w w2) by (intros q Hq; rewrite E2; by apply A1).
  destruct (negb ok); [injection E as <- <-; split; [by apply Hsub | done] |].
  apply bind_inv in E as (? & ? & [= <- <-] & E). apply bind_inv in E as (rc3 & w3 & E3 & E). apply with_node_apart in E3.
  assert (A3 : apart_from (eq d) w w3) by (intros q Hq; rewrite E3 by done; by apply A2).
  destruct (negb (rc3 =? 0)) eqn:Hrc3; [injection E as <- <-; split; [by apply Hsub | intros ->; done] |].
  apply bind_inv in E as (? & w4 & E4 & E). apply assign_heap in E4 as (n4 & _ & E4). apply part_heap in E. split.
  - intros q Hq. rewrite E, E4, lookup_insert_ne by (intros ->; auto). apply A3. intros ->. auto.
  - intros _ _ (m & Hm & Hmd). rewrite E, E4, lookup_insert_eq in Hm. by injection Hm as <-.
Qed.

(** ** All of them *)

Lemma below_quiet w w' p q : quiet w w' -> below w p q -> below w' p q.
Proof. intros L (l & Hl & Hp). exists l. split; [eapply later_ancestry; [apply L | done] | done]. Qed.

Lemma quiet_back w w' q n' : quiet w w' -> w_heap w' !! q = Some n' -> exists n, w_heap w !! q = Some n /\ n_parent n = n_parent n'.
Proof.
  intros [Hl Hdom] Hq. assert (is_Some (w_heap w !! q)) as [n Hn] by (apply elem_of_dom; rewrite <- Hdom; apply elem_of_dom; eauto).
  exists n. split; [done |]. destruct (la_node _ _ _ Hl q n Hn) as (n2 & ? & K & _). congruence.
Qed.

Lemma topmost_quiet w w' q : quiet w w' -> topmost w q -> topmost w' q.
Proof.
  intros L (n & Hn & Hp). destruct (la_node _ _ _ (qu_later _ _ L) q n Hn) as (n' & ? & K & _). exists n'. split; [done | congruence].
Qed.

(** From [w] to [w'] everything at and below [p] was cleaned, and only the directory of
    [p] may have become dirty. *)
Definition cleans w w' p : Prop := forall q, dirty w' q ->
  topmost w q \/ (~ below w p q /\ (dirty w q \/ exists n, w_heap w !! p = Some n /\ n_parent n = Some q)).
(** Somebody below [p] is [p], or below a child of [p]. *)
Lemma below_child w p q k : forest w -> children (w_heap w) p k -> below w p q -> q = p \/ exists c, c ∈ k /\ below w c q.
Proof.
  intros Hf Hk (l & Hl & Hp). destruct (decide (p = q)) as [-> | Hne]; [by left | right].
  assert (exists c n, c ∈ l /\ w_heap w !! c = Some n /\ n_parent n = Some p) as (c & n & Hc & Hn & Hpar).
  { clear Hk. induction Hl as [q n Hn Hq | q n d l Hn Hq Hl IH Hql]; [by apply list_elem_of_singleton in Hp |].
    apply elem_of_cons in Hp as [-> | Hp]; [done |]. destruct (decide (p = d)) as [-> | Hpd].
    - exists q, n. split_and!; [left | done | done].
    - destruct IH as (c & m & ? & ? & ?); [done | done |]. exists c, m. split_and!; [by right | done | done]. }
  exists c. split; [| by exists l]. destruct (fo_parent _ Hf c n p Hn Hpar) as (k' & Hk' & Hc').
  by rewrite (children_unique _ _ _ _ Hk Hk').
Qed.

Lemma parent_not_below w p n d : forest w -> w_heap w !! p = Some n -> n_parent n = Some d -> ~ below w p d.
Proof.
  intros Hf Hn Hp (l & Hl & Hin). destruct (fo_ancestry _ Hf p ltac:(eauto)) as [lp Hlp].
  inversion Hlp as [? n' Hn' Hp' | ? n' d' l' Hn' Hp' Ha Hpl]; subst; [congruence |].
  assert (d' = d) as -> by congruence. by rewrite (ancestry_unique _ _ _ _ Hl Ha) in Hin.
Qed.

(** The children of a directory, up to [k1], are clean. *)
Definition cleaned w w' p (k1 : list ptr) : Prop := forall q, dirty w' q ->
  topmost w q \/ ((forall c, c ∈ k1 -> ~ below w c q) /\ (dirty w q \/ q = p)).

Lemma cleaned_next w w1 w2 p l k1 c k2 : forest w -> ancestry (w_heap w) p l -> children (w_heap w) p (k1 ++ c :: k2) ->
  quiet w w1 -> cleaned w w1 p k1 -> cleans w1 w2 c -> cleaned w w2 p (k1 ++ [c]).
Proof.
  intros Hf Ha Hk L C1 C2 q Hq. destruct (C2 q Hq) as [(n & Hn & Hp) | [Hb Hd]].
  { left. destruct (quiet_back _ _ _ _ L Hn) as (n0 & ? & ?). exists n0. split; [done | congruence]. }
  assert (Hb0 : ~ below w c q) by (intros Hb0; by eapply Hb, below_quiet).
  assert (Hadd : topmost w q \/ ((forall c, c ∈ k1 -> ~ below w c q) /\ (dirty w q \/ q = p)) ->
    topmost w q \/ ((forall c', c' ∈ k1 ++ [c] -> ~ below w c' q) /\ (dirty w q \/ q = p))).
  { intros [Ht | [Hk1 Hd1]]; [by left | right]. split; [| done].
    intros c' [Hc' | ->%list_elem_of_singleton]%elem_of_app; [by apply Hk1 | done]. }
  destruct Hd as [Hd | (n & Hn & Hp)]; [by apply Hadd, C1 |]. apply Hadd. right.
  destruct (quiet_back _ _ _ _ L Hn) as (n0 & Hn0 & Ep). assert (q = p) as ->.
  { destruct Hk as [_ _ Hs]. apply segment_app in Hs as [_ [(m & Hm & Hmp & _) _]]. congruence. }
  split; [| by right]. intros c' Hc' (l' & Hl' & Hin). rewrite (ancestry_unique _ _ _ _ Hl' Ha) in Hin.
  by destruct (ancestry_child w p l _ Hf Ha Hk c' ltac:(set_solver)).
Qed.

(** After all children, the directory itself. *)
Lemma cleaned_node w w1 w2 p k n rc : forest w -> children (w_heap w) p k -> quiet w w1 -> cleaned w w1 p k ->
  w_heap w !! p = Some n -> exfat_flush_node (Some p) w1 = Ok rc w2 -> rc = 0 -> cleans w w2 p.
Proof.
  intros Hf Hk L C Hn E Hrc q Hq. destruct (la_node _ _ _ (qu_later _ _ L) p n Hn) as (n1 & Hn1 & Kp & _).
  assert (Hself : n_parent n <> Some p).
  { intros Hp. destruct (fo_ancestry _ Hf p ltac:(eauto)) as [l Hl]. apply (parent_not_below w p n p Hf Hn Hp).
    exists l. split; [done | by eapply ancestry_self]. }
  destruct (flush_node_dirty w1 p n1 rc w2 Hn1 ltac:(congruence) E) as [A Hc]. rewrite Kp in A, Hc.
  destruct (n_parent n) as [d |] eqn:Hpar.
  2: { destruct (decide (p = q)) as [-> | Hpq]; [left; by exists n |]. unfold dirty in Hq. rewrite A in Hq by (intros [? | ?]; done).
    destruct (C q Hq) as [Ht | [Hk1 [Hd | ->]]]; [by left | right | done]. split; [| by left].
    intros Hb. destruct (below_child _ _ _ _ Hf Hk Hb) as [-> | (c & ? & ?)]; [done | by eapply Hk1]. }
  destruct (decide (p = q)) as [-> | Hpq]; [by destruct (Hc Hrc ltac:(done)) |]. destruct (decide (d = q)) as [-> | Hdq].
  - right. split; [by eapply parent_not_below | right; by exists n].
  - unfold dirty in Hq. rewrite A in Hq by (intros [? | ?]; congruence).
    destruct (C q Hq) as [Ht | [Hk1 [Hd | ->]]]; [by left | right | done]. split; [| by left].
    intros Hb. destruct (below_child _ _ _ _ Hf Hk Hb) as [-> | (c & ? & ?)]; [done | by eapply Hk1].
Qed.
Lemma flush_nodes_cleans f : forall w p l, forest w -> ancestry (w_heap w) p l ->
  (size (w_heap w) < f + length l)%nat ->
  wpt (flush_nodes f (Some p)) (fun rc w' => quiet w w' /\ (rc = 0 -> cleans w w' p)) w.
Proof.
  induction f as [| f IH]; intros w p l Hf Ha Hfuel;
    destruct (fo_list _ Hf p (ancestry_some _ _ _ _ Ha (ancestry_self _ _ _ Ha))) as [k Hk]; pose proof (ancestry_size w p l k Hf Ha Hk) as Hsz; [lia |].
  cbn [flush_nodes]. set (ch := fix children (k : nat) (p : option ptr) : M world Z := _).
  assert (Hch : forall k2 k1 j w1, quiet w w1 -> cleaned w w1 p k1 -> k = k1 ++ k2 -> (length k2 <= j)%nat ->
    wpt (ch j (first_or k2 None)) (fun rc w' => quiet w w' /\ (rc = 0 -> cleaned w w' p k)) w1).
  { induction k2 as [| q k2 IHk]; intros k1 j w1 L1 C1 -> Hj; [rewrite app_nil_r; destruct j; by apply wpt_ret |].
    cbn [length] in Hj. destruct j as [| j]; [lia |]. cbn [first_or]. unfold ch. fold ch.
    pose proof (quiet_forest _ _ L1) as Hf1. pose proof (later_ancestry _ _ _ _ _ (qu_later _ _ L1) Ha) as Ha1.
    pose proof (quiet_children _ _ _ _ Hf L1 Hk) as Hk1.
    destruct (ancestry_child w1 p l _ Hf1 Ha1 Hk1 q ltac:(set_solver)) as [_ Haq].
    apply wpt_and_then. eapply wpt_mono; [apply (IH w1 q (q :: l)); [done | done |] |].
    { rewrite (quiet_size _ _ L1). cbn [length]. lia. }
    intros rc w2 [L2 C2]. assert (L12 : quiet w w2) by by etrans.
    destruct (Z.eqb_spec rc 0) as [-> |]; cbn [negb]; [| by split].
    pose proof (quiet_children _ _ _ _ Hf L12 Hk) as [_ _ Hs]. apply segment_app in Hs as [_ [(n & Hn & _ & _ & Hnext) _]].
    apply wpt_bind, (wpt_deref _ _ _ _ Hn). rewrite Hnext.
    apply (IHk (k1 ++ [q])); [done | | by rewrite <- app_assoc | lia].
    eapply cleaned_next; [exact Hf | exact Ha | exact Hk | exact L1 | exact C1 | by apply C2]. }
  pose proof Hk as [_ (n & Hn & Hc) _]. apply wpt_bind, (wpt_deref _ _ _ _ Hn). rewrite Hc. apply wpt_and_then.
  eapply wpt_mono; [apply (Hch k [] f w); [by apply quiet_refl | | done | lia] |].
  { intros q Hq. right. split; [by intros c ?%elem_of_nil | by left]. }
  intros rc w1 [L1 C1]. destruct (Z.eqb_spec rc 0) as [-> |]; cbn [negb]; [| by split].
  destruct (la_node _ _ _ (qu_later _ _ L1) p n Hn) as (n1 & Hn1 & _).
  eapply wpt_mono; [apply wpt_fact; [apply flush_node_later; [exact (quiet_forest _ _ L1) | by eexists] |] |].
  { intros rc' w2 E. exact (cleaned_node w w1 w2 p k n rc' Hf Hk L1 (C1 eq_refl) Hn E). }
  intros rc' w2 [L2 C2]. split; [exact (transitivity L1 L2) | exact C2].
Qed.

(** [exfat_flush]: the clusters in use are written when they changed. *)
Lemma exfat_flush_clean v rc v' : exfat_flush v = Ok rc v' -> rc = 0 -> ef_cmap_dirty (v_ef v') = false.
Proof.
  intros E ->. apply bind_inv in E as (? & ? & [= <- <-] & E). cbv zeta in E. destruct (ef_cmap_dirty (v_ef v)) eqn:Hd; [| by inversion E; subst].
  apply bind_inv in E as (off & v1 & _ & E). apply bind_inv in E as (ok & v2 & _ & E). destruct (negb ok).
  - apply bind_inv in E as (? & v3 & _ & E). done.
  - apply bind_inv in E as (? & v3 & E3 & E). unfold modify, ret in *. by simplify_eq.
Qed.

(** Nothing below the root is dirty. *)
Definition all_clean w : Prop := forall q l n, ancestry (w_heap w) q l -> w_root w <> Some q ->
  (exists r, w_root w = Some r /\ r ∈ l) -> w_heap w !! q = Some n -> n_is_dirty n = false.

Lemma flush_nodes_all_clean w : forest w -> wpt exfat_flush_nodes (fun rc w' => quiet w w' /\ (rc = 0 -> all_clean w')) w.
Proof.
  intros Hf. apply wpt_bind, wpt_get. destruct (fo_root _ Hf) as (r & n & Hr & Hn & Hp & _). rewrite Hr.
  eapply wpt_mono; [apply (flush_nodes_cleans _ w r [r]); [done | by eapply ancestry_top | unfold tree_fuel; cbn; lia] |].
  intros rc w' [L C]. split; [done |]. intros E q l nq Hl Hqr (r' & Hr' & Hin) Hq. rewrite (la_root _ _ _ (qu_later _ _ L)), Hr in *.
  injection Hr' as <-. destruct (n_is_dirty nq) eqn:Hd; [exfalso | done].
  destruct (C E q) as [(n0 & Hn0 & Hp0) | [Hb _]]; [by exists nq | |].
  - destruct (la_node _ _ _ (qu_later _ _ L) q n0 Hn0) as (n1 & Hn1 & K & _). assert (Hpq : n_parent nq = None) by congruence.
    inversion Hl as [? n' Hn' Hp' | ? n' d l' Hn' Hp' Ha Hql]; subst; [| congruence]. by apply list_elem_of_singleton in Hin as ->.
  - apply Hb. exists l. split; [| done]. eapply ancestry_parents; [| exact Hl]. intros x nx _ Hx.
    destruct (quiet_back _ _ _ _ L Hx) as (n0 & ? & ?). exists n0. done.
Qed.

(** C11: When exfat_flush_nodes() reports success, no node below the root is dirty,
    whatever the medium holds and although the writing of a node makes its directory
    dirty again; it ends, and changes nothing of the shape of the tree. *)
Theorem exfat_flush_nodes_clean w (Hf : forest w) :
  wpt exfat_flush_nodes (fun rc w' => quiet w w' /\ (rc = 0 -> all_clean w')) w.
Proof. by apply flush_nodes_all_clean. Qed.
End FlushSpec.

#[local] Existing Instance word_le64.

Lemma exfat_flush_nodes_clean_witness :
  wpt exfat_flush_nodes (fun rc w' => quiet demo_forest w' /\ (rc = 0 -> all_clean w')) demo_forest.
Proof. apply exfat_flush_nodes_clean. exact demo_forest_ok. Defined.
