(* ===== verification/Dir.v ===== *)
(** * Dir: creating, removing and renaming (libexfat/node.c)

    The operations that change a directory: they find a run of free entries,
    write or erase the entries of a file, and keep the tree of nodes in step. *)

From Stdlib Require Import ZArith Lia.
From stdpp Require Import base numbers list gmap.
From S2P Require Import Prelude Bytes Monad Ondisk State Checksum Utf Bitmap Geometry Cluster FileIO Utils ExfatTime Entries NodeTree Lookup.

#[local] Open Scope Z_scope.

Section Dir.
Context `{Platform}.

(** ** Definitions *)

(** [ROUND_UP] in 64 bits. *)
Definition ROUND_UP64 (x d : Z) : Z := u64 (u64 (x + d - 1) / d * d).

(** *** Removing *)

Definition erase_node (node : option ptr) : M world Z :=
  let! n := deref node in
  let parent := n_parent n in
  exfat_get_node parent;;
  let! rc := with_node parent (erase_entries (1 + n_continuations n) (n_entry_offset n)) in
  if negb (rc =? 0) then exfat_put_node parent;; ret rc
  else
    let! rc := exfat_flush_node parent in
    exfat_put_node parent;;
    ret rc.

(** The loop of [shrink_directory]: [None] when an entry lies behind the removed
    one, else the node with the highest offset. *)
Fixpoint last_loop (fuel : nat) (deleted_offset : Z) (last_node node : option ptr) : M world (option (option ptr)) :=
  match node with
  | None => ret (Some last_node)
  | Some _ =>
      match fuel with
      | O => diverge
      | S fuel =>
          let! n := deref node in
          if deleted_offset <? n_entry_offset n then ret None
          else
            let! l := deref last_node in
            last_loop fuel deleted_offset
              (if n_entry_offset l <? n_entry_offset n then node else last_node) (n_next n)
      end
  end.

Definition shrink_directory (dir : option ptr) (deleted_offset : Z) : M world Z :=
  let! d := deref dir in
  if negb (is_dir d) then exfat_bug
  else if negb (n_is_cached d) then exfat_bug
  else
    let! w := get_state in
    let! last_node := last_loop (tree_fuel w) deleted_offset (n_child d) (n_child d) in
    match last_node with
    | None => ret 0
    | Some last_node =>
        let! entries :=
          match last_node with
          | None => ret 0
          | Some _ =>
              let! l := deref last_node in
              ret (n_entry_offset l / ENTRY_SIZE + 2 +
                   DIV_ROUND_UP (exfat_utf16_length (n_name l)) EXFAT_ENAME_MAX)
          end in
        let cs := CLUSTER_SIZE (ef_sb (w_ef w)) in
        let new_size := ROUND_UP64 (entries * ENTRY_SIZE) cs in
        let new_size := if new_size =? 0 then u64 cs else new_size in
        if new_size =? n_size d then ret 0
        else with_node dir (exfat_truncate new_size true)
    end.

Definition delete_node (node : option ptr) : M world Z :=
  let! n := deref node in
  let parent := n_parent n in
  let deleted_offset := n_entry_offset n in
  exfat_get_node parent;;
  let! rc := erase_node node in
  if negb (rc =? 0) then exfat_put_node parent;; ret rc
  else
    tree_detach node;;
    let! rc := shrink_directory parent deleted_offset in
    assign node (set_n_is_unlinked true);;
    if negb (rc =? 0) then
      exfat_flush_node parent;;
      exfat_put_node parent;;
      ret rc
    else
      with_node parent exfat_update_mtime;;
      let! rc := exfat_flush_node parent in
      exfat_put_node parent;;
      ret rc.

Definition exfat_unlink (node : option ptr) : M world Z :=
  let! n := deref node in
  if is_dir n then ret (- EISDIR) else delete_node node.

Definition exfat_rmdir (node : option ptr) : M world Z :=
  let! n := deref node in
  if negb (is_dir n) then ret (- ENOTDIR)
  else
    and_then (exfat_cache_directory node)
      (let! n := deref node in
       if bool_decide (is_Some (n_child n)) then ret (- ENOTEMPTY) else delete_node node).

(** *** Finding room *)

Definition check_slot (dir : option ptr) (offset n : Z) : M world Z :=
  let! w := get_state in
  if negb (bool_decide (dir = w_root w)) then ret 0
  else
    let! (rc, entries) := with_node dir (read_entries n offset) in
    if negb (rc =? 0) then ret rc
    else if existsb (fun e => negb (Z.land (entry_type e) EXFAT_ENTRY_VALID =? 0)) entries
    then ret (- EINVAL)
    else ret 0.

(** The entries of one node in the bitmap: [count] entries from [index] on.  The
    offsets are not compared with the size of the bitmap. *)
Fixpoint mark_entries (count : nat) (index : Z) (dmap : list Z) : M world (list Z) :=
  match count with
  | O => ret dmap
  | S count =>
      if 8 * zlen dmap <=? index then fun w => Halt OutOfBounds w
      else mark_entries count (index + 1) (BMAP_SET dmap index)
  end.

(** The loop over the children of the directory. *)
Fixpoint mark_children (fuel : nat) (p : option ptr) (dmap : list Z) : M world (list Z) :=
  match p with
  | None => ret dmap
  | Some _ =>
      match fuel with
      | O => diverge
      | S fuel =>
          let! n := deref p in
          let! dmap := mark_entries (Z.to_nat (1 + n_continuations n)) (n_entry_offset n / ENTRY_SIZE) dmap in
          mark_children fuel (n_next n) dmap
      end
  end.

(** The loop of [find_slot] over the index [i] of an entry; [contiguous] is the
    length of the run of free entries before [i].  The result is an early return
    or the last value of [contiguous], and [*offset]. *)
Fixpoint slot_loop (fuel : nat) (dir : option ptr) (dmap : list Z) (count n i contiguous offset : Z)
  : M world ((Z + Z) * Z) :=
  if count <=? i then ret (inr contiguous, offset)
  else
    match fuel with
    | O => diverge
    | S fuel =>
        if negb (BMAP_GET dmap i) then
          let offset := if contiguous =? 0 then i * ENTRY_SIZE else offset in
          let contiguous := contiguous + 1 in
          if contiguous =? n then
            let! rc := check_slot dir offset n in
            if rc =? - EINVAL then
              slot_loop fuel dir dmap count n (i - (contiguous - 1) + 1) 0 offset
            else ret (inl rc, offset)
          else slot_loop fuel dir dmap count n (i + 1) contiguous offset
        else slot_loop fuel dir dmap count n (i + 1) 0 offset
    end.

(** The result code and [*offset].  Each index starts a run at most once, and a
    run has at most [n] entries: that bounds the turns of the loop. *)
Definition find_slot (dir : option ptr) (offset n : Z) : M world (Z * Z) :=
  let! d := deref dir in
  if negb (n_is_cached d) then exfat_bug
  else
    let count := n_size d / ENTRY_SIZE in
    let! ok := on_world_os malloc_ok in
    if negb ok then on_world_os exfat_error;; ret (- ENOMEM, offset)
    else
      let! w := get_state in
      let! dmap := mark_children (tree_fuel w) (n_child d) (zrepeat 0 (BMAP_SIZE count * bitmap_t)) in
      let! (r, offset) := slot_loop (Z.to_nat (count * (n + 1))) dir dmap count n 0 0 offset in
      match r with
      | inl rc => ret (rc, offset)
      | inr contiguous =>
          let offset := if contiguous =? 0 then n_size d else offset in
          let! d := deref dir in
          let! w := get_state in
          let! rc :=
            with_node dir
              (exfat_truncate
                 (ROUND_UP64 (n_size d + ENTRY_SIZE * (n - contiguous)) (CLUSTER_SIZE (ef_sb (w_ef w)))) true) in
          ret (rc, offset)
      end.

(** *** Creating *)

Definition commit_entry (dir : option ptr) (name : list Z) (offset attrib : Z) : M world Z :=
  let! now := on_world_os time_now in
  let! w := get_state in
  let entries := new_entries (os_timezone (v_os (w_vol w))) now attrib (ef_upcase (w_ef w)) name in
  let! rc := with_node dir (write_entries entries offset) in
  if negb (rc =? 0) then ret rc
  else
    let! node := on_world_os allocate_node in
    match node with
    | None => ret (- ENOMEM)
    | Some node =>
        let node := set_n_entry_offset offset node in
        let node := set_n_name (splice (n_name node) 0 (sub name 0 (exfat_utf16_length name))) node in
        let! node := on_world_os (init_node_meta1 (entry_meta1_of (nth 0 entries [])) node) in
        let node := init_node_meta2 (entry_meta2_of (nth 1 entries [])) node in
        let! p := new_ptr node in
        tree_attach dir (Some p);;
        ret 0
    end.

Definition create (path : list Z) (attrib : Z) : M world Z :=
  let! (rc, dir, existing, name) := exfat_split path in
  if negb (rc =? 0) then ret rc
  else if bool_decide (is_Some existing) then
    exfat_put_node existing;; exfat_put_node dir;; ret (- EEXIST)
  else
    let! (rc, offset) := find_slot dir (-1) (2 + name_entries_count name) in
    if negb (rc =? 0) then exfat_put_node dir;; ret rc
    else
      let! rc := commit_entry dir name offset attrib in
      if negb (rc =? 0) then exfat_put_node dir;; ret rc
      else
        with_node dir exfat_update_mtime;;
        let! rc := exfat_flush_node dir in
        exfat_put_node dir;;
        ret rc.

Definition exfat_mknod (path : list Z) : M world Z := create path EXFAT_ATTRIB_ARCH.

Definition exfat_mkdir (path : list Z) : M world Z :=
  and_then (create path EXFAT_ATTRIB_DIR)
    (let! (rc, node) := exfat_lookup path in
     if negb (rc =? 0) then ret 0
     else
       let! w := get_state in
       let! rc := with_node node (exfat_truncate (u64 (CLUSTER_SIZE (ef_sb (w_ef w)))) true) in
       if negb (rc =? 0) then delete_node node;; exfat_put_node node;; ret rc
       else
         let! rc := exfat_flush_node node in
         if negb (rc =? 0) then delete_node node;; exfat_put_node node;; ret rc
         else exfat_put_node node;; ret 0).

(** *** Renaming *)

Definition rename_entry (dir node : option ptr) (name : list Z) (new_offset : Z) : M world Z :=
  let! n := deref node in
  let! (rc, entries) := with_node (n_parent n) (read_entries 2 (n_entry_offset n)) in
  if negb (rc =? 0) then ret rc
  else
    let! w := get_state in
    let entries := rename_entries (ef_upcase (w_ef w)) name entries in
    and_then (erase_node node)
      (assign node (fun n => set_n_continuations (u8 (1 + name_entries_count name))
                               (set_n_entry_offset new_offset n));;
       and_then (with_node dir (write_entries entries new_offset))
         (assign node (set_n_name name);;
          tree_detach node;;
          tree_attach dir node;;
          ret 0)).

(** Whether [node] is [p] or lies above it. *)
Fixpoint is_above (fuel : nat) (node p : option ptr) : M world bool :=
  match p with
  | None => ret false
  | Some _ =>
      if bool_decide (node = p) then ret true
      else
        match fuel with
        | O => diverge
        | S fuel => let! n := deref p in is_above fuel node (n_parent n)
        end
  end.

(** The removal of the target of [exfat_rename], when it is not the source. *)
Definition remove_existing (node existing : option ptr) : M world Z :=
  let! e := deref existing in
  let! n := deref node in
  let! rc :=
    if is_dir e then (if is_dir n then exfat_rmdir existing else ret (- ENOTDIR))
    else (if negb (is_dir n) then exfat_unlink existing else ret (- EISDIR)) in
  exfat_put_node existing;;
  if negb (rc =? 0) then exfat_cleanup_node existing;; ret rc
  else exfat_cleanup_node existing.

Definition exfat_rename (old_path new_path : list Z) : M world Z :=
  let! (rc, node) := exfat_lookup old_path in
  if negb (rc =? 0) then ret rc
  else
    let! (rc, dir, existing, name) := exfat_split new_path in
    if negb (rc =? 0) then exfat_put_node node;; ret rc
    else
      let! n := deref node in
      let! w := get_state in
      let! above := if is_dir n then is_above (tree_fuel w) node dir else ret false in
      if above then
        when (bool_decide (is_Some existing)) (exfat_put_node existing);;
        exfat_put_node dir;;
        exfat_put_node node;;
        ret (- EINVAL)
      else
        let! rc :=
          match existing with
          | None => ret 0
          | Some _ =>
              if negb (bool_decide (existing = node)) then remove_existing node existing
              else exfat_put_node existing;; ret 0
          end in
        if negb (rc =? 0) then exfat_put_node dir;; exfat_put_node node;; ret rc
        else
          let! (rc, offset) := find_slot dir (-1) (2 + name_entries_count name) in
          if negb (rc =? 0) then exfat_put_node dir;; exfat_put_node node;; ret rc
          else
            let! rc := rename_entry dir node name offset in
            if negb (rc =? 0) then exfat_put_node dir;; exfat_put_node node;; ret rc
            else
              let! rc := exfat_flush_node dir in
              exfat_put_node dir;;
              exfat_put_node node;;
              ret rc.

(** *** The label *)

(** [strcpy(ef->label, label)] *)
Definition copy_label (label : list Z) : M world unit :=
  if EXFAT_UTF8_ENAME_BUFFER_MAX <? zlen label + 1 then fun w => Halt OutOfBounds w
  else on_part (on_part (S := vol) (modify (fun ef => set_ef_label (splice (ef_label ef) 0 (label ++ [0])) ef))).

Definition exfat_set_label (label : list Z) : M world Z :=
  let (rc, units) := exfat_utf8_to_utf16 label (EXFAT_ENAME_MAX + 1) (zlen label) in
  if negb (rc =? 0) then ret rc
  else
    let label_utf16 := splice (zrepeat 0 (EXFAT_ENAME_MAX + 1)) 0 units in
    let! w := get_state in
    let root := w_root w in
    let! (rc, offset) := with_node root find_label in
    let! (rc, offset) :=
      if rc =? - ENOENT then find_slot root offset 1 else ret (rc, offset) in
    if negb (rc =? 0) then ret rc
    else
      let length := exfat_utf16_length label_utf16 in
      let entry := {|
        el_type := if length =? 0 then Z.lxor EXFAT_ENTRY_LABEL EXFAT_ENTRY_VALID else EXFAT_ENTRY_LABEL;
        el_length := length;
        el_name := sub label_utf16 0 EXFAT_ENAME_MAX |} in
      and_then (with_node root (write_entries [entry_label_bytes entry] offset))
        (copy_label label;; ret 0).
End Dir.
