(* ===== verification/DirSafe.v ===== *)
(** * DirSafe: creating and removing is safe (libexfat/node.c)

    The operations of Dir.v keep the tree of nodes on every medium, use no null and no
    freed pointer, and give back every reference.  [wps] is their reading: [find_slot]
    may store past the end of its bitmap. *)

From Stdlib Require Import ZArith Lia.
From stdpp Require Import base numbers list gmap.
From S2P Require Import Prelude Bytes Monad Ondisk State Checksum Utf Bitmap Geometry Cluster FileIO Utils ExfatTime Entries EntriesSpec DirTerm NodeTerm NodeTree TreeSpec TreeReset Lookup LookupSpec TreeSafe TreeMove Dir.

#[local] Open Scope Z_scope.

(** Compare what two ways do to the references. *)
Ltac refs_eq := intros; cbn beta; unfold one; repeat destruct (decide _); subst; try done; lia.

(** Introduce the result, the state and what is known after a step. *)
Tactic Notation "post" simple_intropattern(a) simple_intropattern(w) simple_intropattern(L) :=
  intros a w; cbn beta; intros L.

Section DirSafe.
Context `{Platform}.

(** ** Steps *)

(** A node in a directory. *)
Definition attached (h : heap) (p : ptr) : Prop := exists n d, h !! p = Some n /\ n_parent n = Some d.

Lemma after_quiet X w w' : quiet w w' -> after X (fun _ => 0) w w'.
Proof. intros [L _]. by apply after_later. Qed.

Lemma after_then X d1 d2 d w1 w2 w3 :
  after X d1 w1 w2 -> after X d2 w2 w3 -> (forall q, d q = d1 q + d2 q) -> after X d w1 w3.
Proof. intros L1 L2 Hd. by eapply after_trans. Qed.

Lemma after_dom X d w w' p : after X d w w' -> is_Some (w_heap w !! p) -> p ∉ X -> is_Some (w_heap w' !! p).
Proof. intros L [n Hn] Hp. destruct (af_node _ _ _ _ L p n Hn Hp) as (n' & ? & _). eauto. Qed.

Lemma after_attached X d w w' p : after X d w w' -> attached (w_heap w) p -> p ∉ X -> attached (w_heap w') p.
Proof.
  intros L (n & a & Hn & Ha) Hp. destruct (af_node _ _ _ _ L p n Hn Hp) as (n' & Hn' & E & _).
  exists n', a. split; congruence.
Qed.

Lemma attached_some h p : attached h p -> is_Some (h !! p).
Proof. intros (n & d & ? & _). eauto. Qed.

Lemma attached_not_root w p : forest w -> attached (w_heap w) p -> w_root w <> Some p.
Proof. intros Hf (n & d & Hn & Hd). by eapply root_parentless. Qed.

Lemma attached_is_linked w p : forest w -> attached (w_heap w) p -> linked w p.
Proof. intros Hf (n & d & Hn & Hd). exists n. split; [done | by eapply attached_linked]. Qed.

Lemma wps_get_node (Q : option ptr -> world -> Prop) p w :
  is_Some (w_heap w !! p) -> Q (Some p) (bump p 1 w) -> wps (exfat_get_node (Some p)) Q w.
Proof. intros. by apply wps_wpt, wpt_get_node. Qed.

Lemma wps_put_node (Q : unit -> world -> Prop) p w :
  is_Some (w_heap w !! p) -> (1 <= refs w p -> Q tt (bump p (-1) w)) -> wps (exfat_put_node (Some p)) Q w.
Proof. intros. by apply wps_wpt, wpt_put_node. Qed.

Lemma wps_deref (Q : exfat_node -> world -> Prop) w p n : w_heap w !! p = Some n -> Q n w -> wps (deref (Some p)) Q w.
Proof. intros. by eapply wps_wpt, wpt_deref. Qed.

Lemma quiet_some w w' p : quiet w w' -> is_Some (w_heap w !! p) -> is_Some (w_heap w' !! p).
Proof. intros L. by eapply later_dom, L. Qed.

(** A question to the system, with what is known of its answer. *)
Lemma os_result {A} (m : M env A) (R : A -> Prop) w : forest w -> (forall e, wpt m (fun r _ => R r) e) ->
  wpt (on_world_os m) (fun r w' => quiet w w' /\ R r) w.
Proof.
  intros Hf Hm. pose proof (os_later m w Hf (fun e => wpt_mono _ _ _ _ (Hm e) (fun _ _ _ => I))) as Hos.
  specialize (Hm (part (part w : vol))). unfold on_world_os, on_part, wpt in *. by destruct (m _) as [r e | [] |].
Qed.

(** *** Giving back a node *)

Lemma put_ret_later {A} w p (a : A) : forest w -> is_Some (w_heap w !! p) ->
  wpt (exfat_put_node (Some p);; ret a) (fun r w' => r = a /\ later (one p (-1)) w w') w.
Proof.
  intros Hf Hp. apply wpt_bind, wpt_put_node; [done |]. intros Hr. apply wpt_ret. split; [done |]. by apply put_later.
Qed.

Lemma flush_put_later w p : forest w -> is_Some (w_heap w !! p) ->
  wpt (let! rc := exfat_flush_node (Some p) in exfat_put_node (Some p);; ret rc)
    (fun _ w' => later (one p (-1)) w w') w.
Proof.
  intros Hf Hp. apply wpt_bind. eapply wpt_mono; [by apply flush_node_later |]. post rc w1 L1.
  eapply wpt_mono; [apply put_ret_later; [by eapply quiet_forest | by eapply quiet_some] |].
  post r w2 [_ L2]. eapply later_zero; [apply L1 | done].
Qed.

(** ** Removing *)

Lemma erase_node_later w p n d : forest w -> w_heap w !! p = Some n -> n_parent n = Some d ->
  wpt (erase_node (Some p)) (fun _ w' => later (fun _ => 0) w w') w.
Proof.
  intros Hf Hp Hd. unfold erase_node. pose proof (parent_some w p n d Hf Hp Hd) as Hds.
  apply wpt_bind, (wpt_deref _ _ _ _ Hp). rewrite Hd. pose proof (get_later d w Hf Hds) as L1.
  apply wpt_bind, wpt_get_node; [done |]. destruct (later_dom _ _ _ d L1 Hds) as [nd1 Hd1].
  pose proof (la_forest _ _ _ L1) as Hf1. pose proof (fo_node _ Hf p n Hp) as Hok.
  apply wpt_bind. eapply wpt_mono.
  { apply (with_node_later _ _ _ nd1); [done | done |]. apply steady_keeps, keeps_erase_entries.
    - by eapply forest_sizes64.
    - apply Hok.
    - pose proof (no_continuations _ Hok). lia. }
  post rc w2 L2. assert (L12 : later (one d 1) w w2) by (by eapply later_quiet).
  pose proof (later_dom _ _ _ d L12 Hds) as Hd2.
  pose proof (la_forest _ _ _ L12) as Hf2. destruct (negb _).
  - eapply wpt_mono; [by apply put_ret_later |]. post r w3 [_ L3]. eapply later_trans; [exact L12 | exact L3 | refs_eq].
  - eapply wpt_mono; [by apply flush_put_later |]. post r w3 L3. eapply later_trans; [exact L12 | exact L3 | refs_eq].
Qed.

Lemma last_loop_quiet w del : forall l d prev fuel last, segment (w_heap w) d prev l None -> (length l <= fuel)%nat ->
  (first_or l None <> None -> exists q, last = Some q /\ is_Some (w_heap w !! q)) ->
  wpt (last_loop fuel del last (first_or l None))
    (fun r w' => w' = w /\ match r with Some (Some q) => (last = Some q \/ is_Some (w_heap w !! q)) | _ => True end) w.
Proof.
  induction l as [| p l IH]; intros d prev fuel last Hs Hfuel Hl; cbn [first_or].
  - destruct fuel; (apply wpt_ret; split; [done |]; destruct last; [by left | done]).
  - destruct fuel as [| fuel]; [cbn in Hfuel; lia |]. destruct Hs as [(n & Hn & _ & _ & Hnext) Hs].
    cbn [last_loop]. apply wpt_bind, (wpt_deref _ _ _ _ Hn). destruct (_ <? _); [by apply wpt_ret |].
    destruct (Hl ltac:(done)) as (q & -> & nq & Hq). apply wpt_bind, (wpt_deref _ _ _ _ Hq). rewrite Hnext.
    eapply wpt_mono; [apply (IH d (Some p)); [done | cbn in Hfuel; lia |] |].
    + intros _. destruct (_ <? _); eauto.
    + intros r w' [-> Hr]. split; [done |]. destruct r as [[q' |] |]; [| done | done]. destruct Hr as [Hr | Hr]; [| tauto].
      destruct (_ <? _); injection Hr as <-; right; eauto.
Qed.

Lemma shrink_directory_quiet w d del : forest w -> is_Some (w_heap w !! d) ->
  wpt (shrink_directory (Some d) del) (fun _ w' => quiet w w') w.
Proof.
  intros Hf [nd Hd]. unfold shrink_directory. apply wpt_bind, (wpt_deref _ _ _ _ Hd).
  destruct (negb _); [apply wpt_halt |]. destruct (negb _); [apply wpt_halt |]. apply wpt_bind, wpt_get.
  destruct (fo_list _ Hf d ltac:(eauto)) as [l Hl]. pose proof (segment_heap_length _ _ _ Hl) as Hlen.
  pose proof Hl as [_ (nd' & Hd' & Hc) Hs]. simplify_eq. rewrite Hc.
  apply wpt_bind. eapply wpt_mono; [apply (last_loop_quiet w del l d None); [done | unfold tree_fuel; lia |] |].
  { destruct l as [| q l]; [done |]. intros _. exists q. split; [done |]. eapply segment_elem; [done | left]. }
  intros [last |] w' [-> Hlast]; [| by apply wpt_ret, quiet_refl].
  assert (Hent : wpt (match last with
      | None => ret 0
      | Some _ => let! l := deref last in
          ret (n_entry_offset l / ENTRY_SIZE + 2 + DIV_ROUND_UP (exfat_utf16_length (n_name l)) EXFAT_ENAME_MAX)
      end) (fun _ w' => w' = w) w).
  { destruct last as [q |]; [| by apply wpt_ret]. assert (Hq : is_Some (w_heap w !! q)).
    { destruct Hlast as [E | ?]; [| done]. destruct l as [| q' l]; [done |]. injection E as ->. eapply segment_elem; [done | left]. }
    destruct Hq as [nq Hq]. by apply wpt_bind, (wpt_deref _ _ _ _ Hq), wpt_ret. }
  apply wpt_bind. eapply wpt_mono; [exact Hent |]. intros entries w' ->. cbv zeta.
  match goal with |- wpt (if ?s =? _ then _ else _) _ _ => set (size := s) end.
  destruct (size =? _); [by apply wpt_ret, quiet_refl |].
  apply (with_node_later _ _ _ nd); [done | done |]. apply steady_truncate. unfold size.
  destruct (_ =? 0); [| unfold ROUND_UP64]; apply Z.mod_pos_bound; lia.
Qed.

(** A node that is in no directory. *)
Definition detached (w : world) (p : ptr) : Prop := exists n, w_heap w !! p = Some n /\ n_parent n = None.

Lemma detached_later d w w' p : later d w w' -> detached w p -> detached w' p.
Proof. intros L (n & Hn & Hp). destruct (la_node _ _ _ L p n Hn) as (n' & ? & E & _). exists n'. split; [done | congruence]. Qed.

(** A node that has no children and will get none. *)
Definition childless (w : world) (p : ptr) : Prop :=
  exists n, w_heap w !! p = Some n /\ n_child n = None /\ (n_is_cached n = true \/ is_dir n = false).

Lemma childless_later d w w' p : forest w -> later d w w' -> childless w p -> childless w' p.
Proof.
  intros Hf L (n & Hn & Hc & Hk). destruct (la_node _ _ _ L p n Hn) as (n' & Hn' & _ & _ & A & _ & K).
  exists n'. split; [done |]. destruct Hk as [Hk | Hk].
  - split; [| left; by apply K]. assert (Hch : children (w_heap w) p []) by (split; [apply NoDup_singleton | by exists n | done]).
    destruct (la_list _ _ _ L p n [] Hn Hk Hch) as [_ (m & Hm & E) _]. cbn in E. congruence.
  - assert (Hd : is_dir n' = false) by (unfold is_dir in *; by rewrite A). split; [| by right].
    pose proof (fo_node _ (la_forest _ _ _ L) p n' Hn') as Hok. apply (no_uncached _ Hok).
    destruct (n_is_cached n') eqn:E; [| done]. rewrite (no_cached _ Hok E) in Hd. done.
Qed.

Lemma loose_childless w h p n : w_heap w !! p = Some n -> loose h p n -> childless w p -> childless (set_w_heap h w) p.
Proof.
  intros Hp (n' & Hn' & Hs & Hc & _) (m & Hm & Hmc & Hk). simplify_eq. exists n'. split; [done |].
  pose proof (f_equal n_is_cached Hs) as E1. pose proof (f_equal n_attrib Hs) as E2. cbn in E1, E2.
  unfold is_dir in *. rewrite Hc, E1, E2. done.
Qed.

Lemma attached_irrefl w p n : forest w -> w_heap w !! p = Some n -> n_parent n <> Some p.
Proof.
  intros Hf Hp Hd. destruct (fo_parent _ Hf p n p Hp Hd) as (l & [Hnd%NoDup_cons _ _] & Hl). tauto.
Qed.

Lemma delete_node_after w p : forest w -> attached (w_heap w) p ->
  wpt (delete_node (Some p)) (fun rc w' => after {[p]} (fun _ => 0) w w' /\ is_Some (w_heap w' !! p) /\
    (childless w p -> childless w' p) /\ (rc = 0 -> detached w' p)) w.
Proof.
  intros Hf (n & d & Hp & Hd). unfold delete_node. apply wpt_bind, (wpt_deref _ _ _ _ Hp). rewrite Hd.
  pose proof (parent_some w p n d Hf Hp Hd) as Hds. pose proof (get_later d w Hf Hds) as L1.
  apply wpt_bind, wpt_get_node; [done |]. pose proof (la_forest _ _ _ L1) as Hf1.
  destruct (la_node _ _ _ L1 p n Hp) as (n1 & Hp1 & K1 & _).
  apply wpt_bind. eapply wpt_mono; [apply (erase_node_later _ p n1 d); [done | done | congruence] |].
  post rc w2 L2. assert (L12 : later (one d 1) w w2) by (eapply later_trans; [exact L1 | exact L2 | refs_eq]).
  pose proof (la_forest _ _ _ L12) as Hf2. pose proof (later_dom _ _ _ d L12 Hds) as Hds2.
  destruct (Z.eqb_spec rc 0) as [-> | Hrc]; cbn [negb].
  2: { eapply wpt_mono; [by apply put_ret_later |]. post r w3 [-> L3].
    assert (L : later (fun _ => 0) w w3) by (eapply later_trans; [exact L12 | exact L3 | refs_eq]).
    split_and!; [by apply after_later | by eapply later_dom | by eapply childless_later | done]. }
  destruct (la_node _ _ _ L2 p n1 Hp1) as (n2 & Hp2 & K2 & _).
  destruct (detach_after w2 p n2 d Hf2 Hp2) as (h3 & E & A3 & _ & Hl3); [congruence |].
  unfold bind at 1. unfold wpt. rewrite E. set (w3 := set_w_heap h3 w2) in *.
  assert (Hdp : d ∉ ({[p]} : gset ptr)).
  { intros ->%elem_of_singleton. exact (attached_irrefl w p n Hf Hp Hd). }
  pose proof (af_forest _ _ _ _ A3) as Hf3. pose proof (after_dom _ _ _ _ d A3 Hds2 Hdp) as Hds3.
  match goal with |- match ?m ?s with _ => _ end => change (wpt m (fun rc w' => after {[p]} (fun _ => 0) w w' /\ is_Some (w_heap w' !! p) /\
    (childless w p -> childless w' p) /\ (rc = 0 -> detached w' p)) w3) end.
  apply wpt_bind. eapply wpt_mono; [by apply shrink_directory_quiet |]. post rc4 w4 L4.
  assert (C4 : childless w p -> childless w4 p).
  { intros C. eapply childless_later; [exact Hf3 | apply L4 |]. eapply loose_childless; [exact Hp2 | done |].
    exact (childless_later _ _ _ _ Hf L12 C). }
  pose proof Hl3 as (n3 & Hn3 & _ & _ & P3 & _).
  destruct (la_node _ _ _ (qu_later _ _ L4) p n3 Hn3) as (n4 & Hn4 & P4 & _). rewrite P3 in P4.
  pose proof (quiet_forest _ _ L4) as Hf4. assert (Hr4 : w_root w4 <> Some p).
  { rewrite (la_root _ _ _ (qu_later _ _ L4)). cbn. rewrite (la_root _ _ _ L12). by eapply root_parentless. }
  apply wpt_bind, (wpt_assign _ _ _ _ _ Hn4). pose proof (unlink_after w4 p n4 Hf4 Hn4 P4 Hr4) as A5.
  set (w5 := set_w_heap _ w4) in *.
  assert (A05 : after {[p]} (one d 1) w w5).
  { eapply after_then; [apply after_later, L12 | | refs_eq].
    eapply after_then; [exact A3 | | refs_eq]. eapply after_then; [by apply after_quiet | exact A5 | refs_eq]. }
  assert (C5 : childless w p -> childless w5 p).
  { intros (m & Hm & Hc & Hk)%C4. simplify_eq. eexists. cbn. rewrite lookup_insert_eq. by split. }
  assert (Hp5 : is_Some (w_heap w5 !! p)) by (cbn; rewrite lookup_insert_eq; eauto).
  pose proof (af_forest _ _ _ _ A05) as Hf5. pose proof (after_dom _ _ _ _ d A05 Hds Hdp) as Hds5.
  assert (D5 : detached w5 p) by (eexists; split; [apply lookup_insert_eq | exact P4]).
  assert (Hend : forall (rc : Z) w6 w7, later (fun _ => 0) w5 w6 -> later (one d (-1)) w6 w7 ->
    after {[p]} (fun _ => 0) w w7 /\ is_Some (w_heap w7 !! p) /\ (childless w p -> childless w7 p) /\ (rc = 0 -> detached w7 p)).
  { intros rc w6 w7 L6 L7. assert (L67 : later (one d (-1)) w5 w7) by (by eapply later_zero). split_and!.
    - eapply after_then; [exact A05 | by apply after_later | refs_eq].
    - by eapply later_dom.
    - intros C. eapply childless_later; [exact Hf5 | exact L67 | auto].
    - intros _. by eapply detached_later. }
  destruct (negb _).
  - apply wpt_bind. eapply wpt_mono; [by apply flush_node_later |]. post ? w6 L6.
    eapply wpt_mono; [apply put_ret_later; [by eapply quiet_forest | by eapply quiet_some] |].
    intros r w7 [_ L7]. eapply Hend; [apply L6 | done].
  - destruct Hds5 as [nd5 Hd5]. apply wpt_bind.
    eapply wpt_mono; [apply (with_node_later _ _ _ nd5); [done | done | apply steady_update_mtime] |]. post ? w6 L6.
    eapply wpt_mono; [apply flush_put_later; [by eapply quiet_forest | eapply quiet_some; [exact L6 | eauto]] |].
    intros r w7 L7. eapply Hend; [apply L6 | done].
Qed.

(** What a removal leaves of its node: it can be cleaned up. *)
Definition removable (w : world) (p : ptr) : Prop :=
  exists n, w_heap w !! p = Some n /\ (n_is_unlinked n = true -> childless w p).

Lemma removable_later d w w' p : later d w w' -> forest w -> removable w p -> removable w' p.
Proof.
  intros L Hf (n & Hn & Hc). destruct (la_node _ _ _ L p n Hn) as (n' & Hn' & _ & _ & _ & U & _).
  exists n'. split; [done |]. rewrite U. intros E. exact (childless_later _ _ _ _ Hf L (Hc E)).
Qed.

Lemma attached_removable w p : forest w -> attached (w_heap w) p -> removable w p.
Proof. intros Hf (n & d & Hn & Hd). exists n. split; [done |]. by rewrite (attached_linked w p n d Hf Hn Hd). Qed.

Lemma file_childless w p n : forest w -> w_heap w !! p = Some n -> is_dir n = false -> childless w p.
Proof.
  intros Hf Hp Hd. exists n. split; [done |]. split; [| by right]. pose proof (fo_node _ Hf p n Hp) as Hok.
  apply (no_uncached _ Hok). destruct (n_is_cached n) eqn:E; [| done]. rewrite (no_cached _ Hok E) in Hd. done.
Qed.

Lemma childless_removable w p : childless w p -> removable w p.
Proof. intros C. pose proof C as (n & Hn & _). by exists n. Qed.

(** Removing a node that is the root or in a directory. *)
Lemma unlink_later w p : forest w -> (w_root w = Some p \/ attached (w_heap w) p) ->
  wpt (exfat_unlink (Some p)) (fun rc w' => after {[p]} (fun _ => 0) w w' /\ is_Some (w_heap w' !! p) /\
    (attached (w_heap w) p -> removable w' p) /\ (rc = 0 -> attached (w_heap w) p /\ detached w' p)) w.
Proof.
  intros Hf Hp. unfold exfat_unlink.
  assert (Hn : is_Some (w_heap w !! p)).
  { destruct Hp as [Hr | Ha]; [by apply linked_some, root_linked | by apply attached_some]. }
  destruct Hn as [n Hn]. apply wpt_bind, (wpt_deref _ _ _ _ Hn). destruct (is_dir n) eqn:Hd.
  { apply wpt_ret. split_and!; [by apply after_refl | eauto | by apply attached_removable | done]. }
  assert (Ha : attached (w_heap w) p).
  { destruct Hp as [Hr |]; [| done]. destruct (fo_root _ Hf) as (r & m & ? & ? & _ & ? & _). congruence. }
  eapply wpt_mono; [by apply delete_node_after |]. post rc w' (A & S & C & D). split_and!; [done | done | | auto]. intros _.
  by eapply childless_removable, C, file_childless.
Qed.

Lemma rmdir_after w p : forest w -> attached (w_heap w) p ->
  wpt (exfat_rmdir (Some p)) (fun rc w' => after {[p]} (fun _ => 0) w w' /\ removable w' p /\ (rc = 0 -> detached w' p)) w.
Proof.
  intros Hf Ha. unfold exfat_rmdir. pose proof Ha as (n & d & Hn & Hd).
  assert (Hno : forall rc : Z, rc <> 0 -> after {[p]} (fun _ => 0) w w /\ removable w p /\ (rc = 0 -> detached w p)).
  { intros rc Hrc. split_and!; [by apply after_refl | by apply attached_removable | done]. }
  apply wpt_bind, (wpt_deref _ _ _ _ Hn). destruct (negb _); [by apply wpt_ret, Hno |].
  apply wpt_and_then. eapply wpt_mono; [by apply cache_directory_some, attached_some |]. post rc w1 (_ & L1 & Hc).
  pose proof (la_forest _ _ _ L1) as Hf1. pose proof (after_later {[p]} _ _ _ L1) as A1.
  assert (R1 : removable w1 p) by (by eapply removable_later, attached_removable).
  destruct (Z.eqb_spec rc 0) as [E | E]; cbn [negb]; [| by split_and!].
  destruct (Hc E) as (n1 & Hn1 & Hc1). apply wpt_bind, (wpt_deref _ _ _ _ Hn1). destruct (n_child n1) as [c |] eqn:Ec.
  { apply wpt_ret. by split_and!. }
  eapply wpt_mono; [apply delete_node_after; [done |] |].
  { destruct (la_node _ _ _ L1 p n Hn) as (n1' & Hn1' & K & _). exists n1', d. split; congruence. }
  post rc2 w2 (A2 & S2 & C2 & D2). split_and!; [eapply after_then; [exact A1 | exact A2 | refs_eq] | | done].
  apply childless_removable, C2. exists n1. split_and!; [done | done | by left].
Qed.

Lemma detached_not_attached w p : detached w p -> ~ attached (w_heap w) p.
Proof. intros (n & Hn & Hp) (m & d & Hm & Hd). congruence. Qed.

Lemma cleanup_after w p : forest w -> removable w p -> w_root w <> Some p ->
  wpt (exfat_cleanup_node (Some p)) (fun _ w' => after {[p]} (fun _ => 0) w w' /\ (detached w p -> ~ attached (w_heap w') p)) w.
Proof.
  intros Hf (n & Hn & Hc) Hr. unfold exfat_cleanup_node. apply wpt_bind, (wpt_deref _ _ _ _ Hn).
  destruct (Z.eqb_spec (n_references n) 0) as [E0 |]; cbn [negb]; [| apply wpt_halt].
  destruct (n_is_unlinked n) eqn:Eu; [| apply wpt_ret; split; [by apply after_refl | apply detached_not_attached]].
  apply wpt_bind. eapply wpt_mono; [apply (with_node_later _ _ _ n); [done | done |] |].
  { apply steady_truncate. lia. }
  post rc w1 L1. destruct (childless_later _ _ _ _ Hf (qu_later _ _ L1) (Hc eq_refl)) as (n1 & Hn1 & Hc1 & _).
  destruct (la_node _ _ _ (qu_later _ _ L1) p n Hn) as (n1' & Hn1' & _ & _ & _ & U & _). simplify_eq.
  pose proof (quiet_forest _ _ L1) as Hf1. assert (Href : n_references n1 = 0).
  { pose proof (la_refs _ _ _ (qu_later _ _ L1) p) as Hq. unfold refs in Hq. rewrite Hn, Hn1 in Hq. lia. }
  apply wpt_bind. unfold free. apply wpt_bind, (wpt_deref _ _ _ _ Hn1), wpt_modify, wpt_ret. split.
  - eapply after_then; [by apply after_quiet | apply (free_after w1 p n1); try done | refs_eq].
    + apply (no_unlinked _ (fo_node _ Hf1 p n1 Hn1)). congruence.
    + by rewrite (la_root _ _ _ (qu_later _ _ L1)).
  - intros _ (m & d & Hm & _). cbn in Hm. by rewrite lookup_delete_eq in Hm.
Qed.

(** ** Finding room *)

Lemma mark_entries_same count : forall index dmap w, wps (mark_entries count index dmap) (fun _ w' => w' = w) w.
Proof.
  induction count as [| count IH]; intros index dmap w; cbn [mark_entries]; [by apply wps_ret |].
  destruct (_ <=? _); [done | apply IH].
Qed.

Lemma mark_children_same w d : forall l prev fuel dmap, segment (w_heap w) d prev l None -> (length l <= fuel)%nat ->
  wps (mark_children fuel (first_or l None) dmap) (fun _ w' => w' = w) w.
Proof.
  induction l as [| p l IH]; intros prev fuel dmap Hs Hfuel; cbn [first_or length] in *; [destruct fuel; by apply wps_ret |].
  destruct fuel as [| fuel]; [lia |]. destruct Hs as [(n & Hn & _ & _ & Hnext) Hs]. cbn [mark_children].
  apply wps_bind, (wps_deref _ _ _ _ Hn). eapply wps_step; [apply mark_entries_same |]. intros dmap' w' ->.
  rewrite Hnext. apply (IH (Some p)); [done | lia].
Qed.

Lemma quiet_trans' w1 w2 w3 : quiet w1 w2 -> quiet w2 w3 -> quiet w1 w3.
Proof. intros L1 L2. exact (transitivity L1 L2). Qed.

Lemma check_slot_quiet w d offset n : forest w -> is_Some (w_heap w !! d) -> 0 <= offset -> 1 <= n ->
  wpt (check_slot (Some d) offset n) (fun _ w' => quiet w w') w.
Proof.
  intros Hf [nd Hd] Ho Hn. unfold check_slot. apply wpt_bind, wpt_get. destruct (negb _); [by apply wpt_ret, quiet_refl |].
  apply wpt_bind. eapply wpt_mono; [apply (with_node_later _ _ _ nd); [done | done |] |].
  { eapply wpt_mono; [apply wpt_read_entries; [by eapply forest_sizes64 | done | done] |].
    intros r s' [Hs _]. by apply same_dir_stays. }
  intros [rc entries] w1; cbn beta; intros L1. destruct (negb _); [by apply wpt_ret |]. destruct (existsb _ _); by apply wpt_ret.
Qed.

(** The turns that are left: every index starts at most one run, and a run has at most
    [n] entries. *)
Definition slot_turns (count n i contiguous : Z) : Z := (count - (i - contiguous)) * (n + 1) - contiguous.

Lemma slot_turns_step count n i c : i < count -> 0 <= c < n ->
  1 <= slot_turns count n i c /\ slot_turns count n (i + 1) (c + 1) = slot_turns count n i c - 1 /\
  slot_turns count n (i + 1) 0 < slot_turns count n i c /\
  (c + 1 = n -> slot_turns count n (i - c + 1) 0 < slot_turns count n i c).
Proof.
  unfold slot_turns. intros Hi Hc. split_and!; [nia | | nia |].
  - replace (i + 1 - (c + 1)) with (i - c) by lia. lia.
  - intros <-. nia.
Qed.

Lemma slot_loop_quiet w0 d dmap count n : is_Some (w_heap w0 !! d) -> count * ENTRY_SIZE < 2 ^ 64 ->
  forall fuel w i c offset, quiet w0 w -> 0 <= c < n -> c <= i ->
  (c <> 0 -> in_u 64 offset) -> slot_turns count n i c <= Z.of_nat fuel ->
  wpt (slot_loop fuel (Some d) dmap count n i c offset) (fun r w' => quiet w0 w' /\
    match r.1 with inl _ => in_u 64 r.2 | inr c' => c' <> 0 -> in_u 64 r.2 end) w.
Proof.
  unfold in_u. intros Hd Hcount. induction fuel as [| fuel IH]; intros w i c offset L0 Hc Hi Ho Hfuel;
    cbn [slot_loop]; (destruct (Z.leb_spec count i) as [Hend | Hend]; [by apply wpt_ret |]);
    destruct (slot_turns_step count n i c Hend Hc) as (T1 & T2 & T3 & T4); [lia |].
  destruct (negb (BMAP_GET dmap i)); [| apply IH; (done || lia)].
  set (offset' := if c =? 0 then i * ENTRY_SIZE else offset).
  assert (Ho' : 0 <= offset' < 2 ^ 64).
  { unfold offset'. destruct (Z.eqb_spec c 0); [unfold ENTRY_SIZE in *; lia | by apply Ho]. }
  destruct (Z.eqb_spec (c + 1) n) as [E | E]; [| apply IH; (done || lia)].
  apply wpt_bind. eapply wpt_mono; [apply check_slot_quiet; [by eapply quiet_forest | by eapply quiet_some | lia | lia] |].
  post rc w1 L1. assert (L01 : quiet w0 w1) by (by eapply quiet_trans').
  destruct (rc =? - EINVAL); [| by apply wpt_ret]. specialize (T4 E). replace (i - (c + 1 - 1) + 1) with (i - c + 1) by lia.
  apply IH; (done || lia).
Qed.

Lemma find_slot_quiet w d offset n : forest w -> is_Some (w_heap w !! d) -> 1 <= n ->
  wps (find_slot (Some d) offset n) (fun r w' => quiet w w' /\
    (exists nd, w_heap w' !! d = Some nd /\ n_is_cached nd = true) /\ (r.1 = 0 -> in_u 64 r.2)) w.
Proof.
  intros Hf [nd Hd] Hn. unfold find_slot. apply wps_bind, (wps_deref _ _ _ _ Hd).
  destruct (n_is_cached nd) eqn:Hcd; cbn [negb]; [| done].
  destruct (no_below _ (fo_node _ Hf d nd Hd)) as [Hsize _].
  eapply wps_step; [apply wps_wpt, os_later; [done | intros e; apply wpt_ret; exact I] |]. post ok w1 L1.
  assert (Hd1 : forall w', quiet w w' -> exists nd', w_heap w' !! d = Some nd' /\ n_is_cached nd' = true).
  { intros w' L. destruct (la_node _ _ _ (qu_later _ _ L) d nd Hd) as (nd' & ? & _ & _ & _ & _ & K). eauto. }
  destruct (negb ok).
  { eapply wps_step; [apply wps_wpt, os_later; [by eapply quiet_forest |] |]; [intros e; apply wpt_ret; exact I |].
    post ? w2 L2. apply wps_ret. split_and!; [by eapply quiet_trans' | by eapply Hd1, quiet_trans' | done]. }
  apply wps_bind, wps_get. destruct (fo_list _ Hf d ltac:(eauto)) as [l Hl].
  pose proof (quiet_children _ _ _ _ Hf L1 Hl) as Hl1. pose proof (segment_heap_length _ _ _ Hl1) as Hlen.
  assert (Hc : n_child nd = first_or l None) by (destruct Hl as [_ (m & Hm & Hc) _]; congruence). rewrite Hc.
  eapply wps_step; [apply (mark_children_same w1 d l None); [apply Hl1 | unfold tree_fuel; lia] |].
  intros dmap w1' ->. apply wps_bind, wps_wpt. set (count := n_size nd / ENTRY_SIZE).
  assert (Hcount : 0 <= count /\ count * ENTRY_SIZE <= n_size nd).
  { unfold count, ENTRY_SIZE. split; [apply Z.div_pos; lia | rewrite Z.mul_comm; apply Z.mul_div_le; lia]. }
  eapply wpt_mono; [apply (slot_loop_quiet w d); [eauto | lia | done | lia | lia | lia |] |].
  { unfold slot_turns. lia. }
  intros [r offset'] w2 [L2 Hr]. cbn [fst snd] in *. destruct r as [rc | c].
  { apply wps_ret. split_and!; [done | by apply Hd1 | done]. }
  destruct (Hd1 w2 L2) as (nd2 & Hd2 & _). apply wps_bind, (wps_deref _ _ _ _ Hd2), wps_bind, wps_get.
  eapply wps_step; [apply wps_wpt, (with_node_later _ _ _ nd2); [by eapply quiet_forest | done |] |].
  { apply steady_truncate. unfold ROUND_UP64. apply Z.mod_pos_bound. lia. }
  post rc w3 L3. apply wps_ret. assert (L03 : quiet w w3) by (by eapply quiet_trans').
  split_and!; [done | by apply Hd1 |]. cbn [fst snd]. intros _. destruct (Z.eqb_spec c 0) as [E | E]; [| by apply Hr].
  unfold in_u. lia.
Qed.

(** ** Creating *)

(** New nodes may come, and those of [w] keep their places. *)
Definition grows (d : ptr -> Z) (w w' : world) : Prop :=
  exists X, (forall q, q ∈ X -> w_heap w !! q = None) /\ after X d w w'.

Lemma grows_later d w w' : later d w w' -> grows d w w'.
Proof. intros L. exists ∅. split; [set_solver | by apply after_later]. Qed.

Lemma grows_then d1 d2 d w1 w2 w3 : grows d1 w1 w2 -> grows d2 w2 w3 -> (forall q, d q = d1 q + d2 q) -> grows d w1 w3.
Proof.
  intros (X & HX & A1) (Y & HY & A2) Hd. exists (X ∪ Y). split; [| by eapply after_trans; [exact A1 | exact A2 | set_solver | set_solver |]].
  intros q [Hq | Hq]%elem_of_union; [by apply HX |]. destruct (w_heap w1 !! q) as [n |] eqn:E; [| done].
  destruct (decide (q ∈ X)) as [HqX | HqX]; [rewrite <- (HX q HqX); congruence |].
  destruct (af_node _ _ _ _ A1 q n E HqX) as (n' & Hn' & _). rewrite (HY q Hq) in Hn'. done.
Qed.

Lemma grows_forest d w w' : grows d w w' -> forest w'.
Proof. intros (X & _ & A). apply A. Qed.

Lemma grows_dom d w w' p : grows d w w' -> is_Some (w_heap w !! p) -> is_Some (w_heap w' !! p).
Proof. intros (X & HX & A) [n Hn]. eapply after_dom; [exact A | eauto |]. intros Hp. rewrite (HX p Hp) in Hn. done. Qed.

Lemma le_val_sub_lt bs off n : 0 <= n -> 0 <= le_val (sub bs off n) < 256 ^ n.
Proof.
  intros Hn. pose proof (le_val_range (sub bs off n)) as Hr. assert (Hl : zlen (sub bs off n) <= n).
  { unfold zlen, sub. rewrite length_take. lia. }
  pose proof (Z.pow_le_mono_r 256 (zlen (sub bs off n)) n ltac:(lia) Hl). lia.
Qed.

(** A node that is in no tree. *)
Definition fresh_node (n : exfat_node) : Prop :=
  node_ok n /\ n_parent n = None /\ n_child n = None /\ n_prev n = None /\ n_next n = None /\
  n_references n = 0 /\ n_is_unlinked n = false.

(** The node that [commit_entry] builds. *)
Lemma new_node_fresh e1 e2 n : 0 <= n_entry_offset n -> node_links n = node_links zero_node ->
  n_continuations n = m1_continuations (entry_meta1_of e1) ->
  fresh_node (init_node_meta2 (entry_meta2_of e2) n).
Proof.
  intros Ho Hl Hc. unfold node_links in Hl. injection Hl as L1 L2 L3 L4 L5 L6 L7.
  pose proof (le_val_sub_lt e2 24 8 ltac:(lia)) as R1. pose proof (le_val_sub_lt e2 8 8 ltac:(lia)) as R2.
  pose proof (le_val_sub_lt e1 1 1 ltac:(lia)) as R3. change (256 ^ 8) with (2 ^ 64) in *.
  unfold init_node_meta2. split; [| done].
  split; unfold below64, is_dir; cbn [n_size n_valid_size n_entry_offset n_continuations n_references
    n_is_cached n_child n_is_unlinked n_parent n_attrib set_n_valid_size set_n_size set_n_start_cluster set_n_fptr_cluster
    set_n_is_contiguous]; try congruence.
  - unfold entry_meta2_of. cbn [m2_size m2_valid_size]. lia.
  - rewrite Hc. cbn [entry_meta1_of m1_continuations]. lia.
  - rewrite L5. cbn. lia.
Qed.

Lemma attach_new_after w d n : forest w -> (exists nd, w_heap w !! d = Some nd /\ n_is_cached nd = true) -> fresh_node n ->
  wpt (let! p := new_ptr n in tree_attach (Some d) (Some p);; ret 0) (fun _ w' => grows (fun _ => 0) w w') w.
Proof.
  intros Hf (nd & Hd & Hcd) (Hok & N1 & N2 & N3 & N4 & N5 & N6). pose proof (new_after w n Hf Hok N1 N2 N4 N5) as A1.
  apply wpt_bind, wpt_new_ptr. set (p := w_fresh w) in *. set (w1 := set_w_fresh _ _) in *.
  assert (Hp : w_heap w !! p = None).
  { destruct (w_heap w !! p) eqn:E; [| done]. pose proof (fo_fresh _ Hf p ltac:(eauto)). unfold p in *. lia. }
  destruct (fo_ancestry _ Hf d ltac:(eauto)) as [ld Hld].
  destruct (af_node _ _ _ _ A1 d nd Hd ltac:(set_solver)) as (nd1 & Hd1 & _ & _ & _ & K1 & _).
  assert (Hpld : p ∉ ld). { intros Hin. pose proof (ancestry_some _ _ _ _ Hld Hin) as [? ?]. congruence. }
  assert (Hroot : w_root w1 <> Some p).
  { destruct (fo_root _ Hf) as (r & m & Hr & Hm & _). cbn. rewrite Hr. intros [= ->]. congruence. }
  assert (Hp1 : w_heap w1 !! p = Some n) by apply lookup_insert_eq.
  destruct (attach_after w1 p n d nd1 ld (af_forest _ _ _ _ A1) Hp1 N1 N3 N4 N6 Hroot Hd1 (K1 Hcd)) as (h2 & E2 & A2 & _);
    [by eapply after_ancestry; [exact A1 | exact Hld | set_solver] | done |].
  unfold wpt. rewrite (bind_ok _ _ _ _ _ E2). unfold ret. exists {[p]}. split; [by intros q ->%elem_of_singleton |].
  eapply after_then; [eapply after_sub; [exact A1 | set_solver] | exact A2 | refs_eq].
Qed.

Lemma commit_entry_after w d name offset attrib : forest w ->
  (exists nd, w_heap w !! d = Some nd /\ n_is_cached nd = true) -> in_u 64 offset ->
  wpt (commit_entry (Some d) name offset attrib) (fun _ w' => grows (fun _ => 0) w w') w.
Proof.
  intros Hf (nd & Hd & Hcd) [Ho Ho']. unfold commit_entry. pose proof (quiet_refl w Hf) as L0.
  eapply wpt_then; [exact L0 | apply os_later; [done | done] |]. intros now w1 _ L1. apply wpt_bind, wpt_get. cbv zeta.
  generalize (new_entries (os_timezone (v_os (w_vol w1))) now attrib (ef_upcase (w_ef w1)) name). intros entries.
  destruct (la_node _ _ _ (qu_later _ _ L1) d nd Hd) as (nd1 & Hd1 & _).
  eapply wpt_then; [exact L1 | |].
  { apply (with_node_later _ _ _ nd1); [by eapply quiet_forest | done |]. apply steady_write_entries; [| done].
    eapply forest_sizes64; [by eapply quiet_forest | done]. }
  intros rc w2 _ L2. destruct (negb _); [by apply wpt_ret, grows_later, L2 |].
  apply wpt_bind. eapply wpt_mono.
  { apply (os_result allocate_node (fun r => r = None \/ r = Some zero_node)); [by eapply quiet_forest |].
    intros e. unfold allocate_node, malloc_ok, bind, wpt. destruct (negb (negb _)); cbn; tauto. }
  intros node w3 [L3 Hnode]. assert (L03 : quiet w w3) by (by eapply quiet_trans').
  destruct node as [node |]; [| by apply wpt_ret, grows_later, L03].
  assert (Hz : node_links node = node_links zero_node) by (by destruct Hnode as [| [= ->]]). clear Hnode.
  apply wpt_bind. eapply wpt_mono.
  { eapply os_result; [by eapply quiet_forest | intros e; apply init_node_meta1_links]. }
  intros n w4 [L4 (Hl & He & Hc)]. cbv zeta. assert (L04 : quiet w w4) by (by eapply quiet_trans').
  destruct (la_node _ _ _ (qu_later _ _ L04) d nd Hd) as (nd4 & Hd4 & _ & _ & _ & _ & K4).
  eapply wpt_mono; [apply attach_new_after; [by eapply quiet_forest | eauto |] |].
  - apply (new_node_fresh (nth 0 entries [])); [rewrite He; exact Ho | etrans; [exact Hl | exact Hz] | exact Hc].
  - post rc5 w5 A5. eapply grows_then; [by apply grows_later, L04 | exact A5 | refs_eq].
Qed.

(** ** The place that a path names *)

(** [r] is [p] or above it. *)
Definition above (h : heap) (r p : ptr) : Prop := exists l, ancestry h p l /\ r ∈ l.

Lemma above_later d w w' r p : later d w w' -> above (w_heap w) r p -> above (w_heap w') r p.
Proof. intros L (l & Hl & Hr). exists l. split; [by eapply later_ancestry | done]. Qed.

Lemma above_child w r c n a : forest w -> w_heap w !! c = Some n -> n_parent n = Some a ->
  above (w_heap w) r a -> above (w_heap w) r c.
Proof.
  intros Hf Hc Ha (l & Hl & Hr). destruct (fo_ancestry _ Hf c ltac:(eauto)) as [lc Hlc].
  inversion Hlc as [? n' Hn' Hp' | ? n' a' l' Hn' Hp' Ha' Hnin]; subst; [congruence |].
  assert (a' = a) as -> by congruence. rewrite (ancestry_unique _ _ _ _ Ha' Hl) in *. exists (c :: l). split; [done | by right].
Qed.

Lemma finds_child h up a name c : finds h up a name c -> exists n, h !! c = Some n /\ n_parent n = Some a.
Proof.
  intros (b & nd & nc & l1 & l2 & _ & _ & _ & Hch & _). eapply child_parent; [exact Hch | set_solver].
Qed.

(** Going down one component keeps the root above. *)
Lemma finds_above w up r a name c : forest w -> finds (w_heap w) up a name c ->
  above (w_heap w) r a -> above (w_heap w) r c.
Proof. intros Hf (n & Hn & Hp)%finds_child Ha. by eapply above_child. Qed.

Lemma walk_above w up r d names p : forest w -> walk (w_heap w) up d names p -> above (w_heap w) r d -> above (w_heap w) r p.
Proof. intros Hf. induction 1 as [| d name c names p Hfind Hw IH]; [done |]. intros Ha. by eapply IH, finds_above. Qed.

(** A path with a component names a node in a directory. *)
Lemma walk_attached h up d names p : walk h up d names p -> names <> [] -> attached h p.
Proof.
  induction 1 as [| d name c names p Hfind Hw IH]; [done |]. intros _. destruct names as [| name' names]; [| by apply IH].
  inversion Hw; subst. destruct (finds_child _ _ _ _ _ Hfind) as (n & ? & ?). by exists n, d.
Qed.

Lemma walk_root_or_attached h up r names p : walk h up r names p -> p = r \/ attached h p.
Proof. intros Hw. destruct names; [inversion Hw; by left | right; by eapply walk_attached]. Qed.

(** What [exfat_split] returns on success: the directory, under the root, and the node
    in it that has the name, if there is one. *)
Definition split_found (w' : world) (r : ptr) (dir existing : option ptr) (delta : ptr -> Z) : Prop :=
  exists p, dir = Some p /\ linked w' p /\ above (w_heap w') r p /\
    match existing with
    | None => forall q, delta q = one p 1 q
    | Some c => (exists n, w_heap w' !! c = Some n /\ n_parent n = Some p) /\ forall q, delta q = one p 1 q + one c 1 q
    end.

Lemma put_fail_later w0 w d p (a : split_result) : later (fun q => d q + one p 1 q) w0 w -> linked w p -> a.1.1.1 <> 0 ->
  wpt (exfat_put_node (Some p);; ret a) (fun r w' => if r.1.1.1 =? 0 then False else later d w0 w') w.
Proof.
  intros L Hp Ha. eapply wpt_mono; [apply put_ret_later; [apply L | by apply linked_some] |]. post r w' [-> L'].
  rewrite (proj2 (Z.eqb_neq _ 0) Ha). eapply later_trans; [exact L | exact L' | refs_eq].
Qed.

Lemma split_path_later r : forall fuel w0 w d p node path, later (fun q => d q + one p 1 q) w0 w -> linked w p ->
  above (w_heap w) r p -> ef_upcase (w_ef w) <> [] -> (length path <= fuel)%nat ->
  wpt (split_path fuel (Some p) node path)
    (fun res w' => if res.1.1.1 =? 0 then
        components path <> [] /\
        exists delta, later (fun q => d q + delta q) w0 w' /\ split_found w' r res.1.1.2 res.1.2 delta
      else later d w0 w') w.
Proof.
  induction fuel as [| fuel IH]; intros w0 w d p node path L Hp Hr Hu Hfuel; cbn [split_path];
    destruct (get_comp path) as [n q] eqn:Eg;
    destruct (get_comp_spec path n q Eg) as (_ & _ & Hn & Hlen & _ & Hcomp);
    (destruct (Z.eqb_spec n 0) as [-> | Hn0]; [apply wpt_halt |]).
  { destruct q; [unfold zlen in Hn; cbn in Hn; lia | cbn in Hlen; lia]. }
  destruct (Hcomp Hn0) as (Hdot & Hz & ->). pose proof (la_forest _ _ _ L) as Hf.
  assert (Hshort : (length (advance q n) <= fuel)%nat).
  { unfold advance. rewrite length_drop. destruct q; [unfold zlen in Hn; cbn in Hn; lia |]. cbn [length] in *. lia. }
  destruct (is_dot q n); [by apply IH |]. cbn [app]. pose proof (put_fail_later w0 w d p) as Hfail.
  assert (Hweak : forall m : M world split_result, wpt m (fun r w' => if r.1.1.1 =? 0 then False else later d w0 w') w ->
    wpt m (fun res w' => if res.1.1.1 =? 0 then
        sub q 0 n :: components (advance q n) <> [] /\
        exists delta, later (fun x => d x + delta x) w0 w' /\ split_found w' r res.1.1.2 res.1.2 delta
      else later d w0 w') w).
  { intros m Hm. eapply wpt_mono; [exact Hm |]. intros res w'; cbn beta; by destruct (_ =? 0). }
  destruct (is_last_comp q n).
  - destruct (negb (is_allowed q n)); [by apply Hweak, Hfail |].
    destruct (exfat_utf8_to_utf16 q (EXFAT_NAME_MAX + 1) n) as [rc units]. cbv zeta.
    destruct (Z.eqb_spec rc 0) as [-> | Hrc]; cbn [negb]; [| by apply Hweak, Hfail].
    apply wpt_bind. eapply wpt_mono; [by apply lookup_name_later |]. intros res w1 Hres.
    destruct Hres as [(c & -> & L1 & Hfind) | (Hrc & Hnone & L1 & _)]; cbn [fst snd] in *.
    + cbn [Z.eqb negb andb]. apply wpt_ret. cbn [fst snd Z.eqb]. split; [done |].
      exists (fun x => one p 1 x + one c 1 x). split; [eapply later_trans; [exact L | exact L1 | refs_eq] |].
      exists p. split_and!; [done | exact (linked_later _ _ _ p L1 Hp) | exact (above_later _ _ _ _ _ L1 Hr) | by eapply finds_child | done].
    + destruct res as [rc1 node1]. cbn [fst snd] in *. subst node1. rewrite (proj2 (Z.eqb_neq rc1 0) Hrc). cbn [negb andb].
      assert (L01 : later (fun x => d x + one p 1 x) w0 w1) by (eapply later_trans; [exact L | exact L1 | refs_eq]).
      destruct (Z.eqb_spec rc1 (- ENOENT)) as [-> | Hne]; cbn [negb].
      * apply wpt_ret. cbn [fst snd Z.eqb]. split; [done |]. exists (one p 1). split; [done |].
        exists p. split_and!; [done | exact (linked_later _ _ _ p L1 Hp) | exact (above_later _ _ _ _ _ L1 Hr) | done].
      * eapply wpt_mono; [apply put_fail_later; [exact L01 | exact (linked_later _ _ _ p L1 Hp) | done] |].
        intros a w'; cbn beta; by destruct (_ =? 0).
  - apply wpt_bind. eapply wpt_mono; [by apply lookup_name_later |]. intros res w1 Hres.
    destruct Hres as [(c & -> & L1 & Hfind) | (Hrc & Hnone & L1 & _)]; cbn [fst snd] in *.
    + cbn [Z.eqb negb]. pose proof (linked_later _ _ _ p L1 Hp) as Hp1. pose proof (la_forest _ _ _ L1) as Hf1.
      apply wpt_bind, wpt_put_node; [by apply linked_some |]. intros Hr1. pose proof (put_later p w1 Hf1 Hr1) as L2.
      pose proof (finds_linked _ _ _ _ _ Hf1 Hfind) as Hc. pose proof (la_forest _ _ _ L2) as Hf2.
      eapply wpt_mono; [apply (IH w0 _ d c); [| exact (linked_later _ _ _ c L2 Hc) | | | done] |].
      * eapply later_trans; [exact L | eapply later_trans; [exact L1 | exact L2 | reflexivity] | refs_eq].
      * eapply above_later; [exact L2 |]. eapply finds_above; [done | exact Hfind | exact (above_later _ _ _ _ _ L1 Hr)].
      * rewrite <- (later_upcase _ _ _ L1 Hu) in Hu. exact Hu.
      * intros a w'; cbn beta; destruct (_ =? 0); [| done]. intros [_ Hx]. by split.
    + destruct res as [rc1 node1]. cbn [fst snd] in *. rewrite (proj2 (Z.eqb_neq rc1 0) Hrc). cbn [negb].
      assert (L01 : later (fun x => d x + one p 1 x) w0 w1) by (eapply later_trans; [exact L | exact L1 | refs_eq]).
      eapply wpt_mono; [apply put_fail_later; [exact L01 | exact (linked_later _ _ _ p L1 Hp) | done] |].
      intros a w'; cbn beta; by destruct (_ =? 0).
Qed.

Lemma split_later w path r : forest w -> w_root w = Some r -> ef_upcase (w_ef w) <> [] ->
  wpt (exfat_split path) (fun res w' => if res.1.1.1 =? 0 then
      components path <> [] /\ exists delta, later delta w w' /\ split_found w' r res.1.1.2 res.1.2 delta
    else later (fun _ => 0) w w') w.
Proof.
  intros Hf Hr Hu. unfold exfat_split. apply wpt_bind, wpt_get. rewrite Hr. pose proof (root_linked w r Hf Hr) as Hd.
  pose proof (get_later r w Hf (linked_some _ _ Hd)) as L1. apply wpt_bind, wpt_get_node; [by apply linked_some |].
  eapply wpt_mono; [apply (split_path_later r (length path) w _ (fun _ => 0) r); try done |].
  - exact (linked_later _ _ _ r L1 Hd).
  - eapply above_later; [exact L1 |]. destruct (fo_root _ Hf) as (r' & n & Hr' & Hn & Hp & _). simplify_eq.
    exists [r]. split; [by eapply ancestry_top | left].
  - intros res w'; cbn beta; destruct (_ =? 0); [| done]. intros [Hc (delta & L & Hs)]. split; [done |]. exists delta. split; [| done].
    destruct L as [B1 B2 B3 B4 B5 B6]. split; try done.
Qed.

(** ** Creating a file or a directory *)

Lemma name_entries_nonneg name : 0 <= name_entries_count name.
Proof.
  assert (Hl : 0 <= exfat_utf16_length name).
  { induction name as [| u name IH]; cbn [exfat_utf16_length]; [lia |]. destruct (_ =? 0); lia. }
  apply DIV_ROUND_UP_nonneg; [done | exact Hl].
Qed.

Lemma create_after w path attrib r : forest w -> w_root w = Some r -> ef_upcase (w_ef w) <> [] ->
  wps (create path attrib) (fun rc w' => grows (fun _ => 0) w w' /\ (rc = 0 -> components path <> [])) w.
Proof.
  intros Hf Hr Hu. unfold create. eapply wps_step; [by apply wps_wpt, split_later |].
  intros [[[rc dir] existing] name] w1; cbn beta; cbn [fst snd]. destruct (Z.eqb_spec rc 0) as [-> | Hrc]; cbn [negb].
  2: { intros L. apply wps_ret. split; [by apply grows_later | done]. }
  intros [Hcomp (delta & L1 & p & -> & Hp & _ & Hdelta)]. pose proof (la_forest _ _ _ L1) as Hf1.
  destruct existing as [c |].
  - destruct Hdelta as [(nc & Hc & _) Hdelta]. rewrite bool_decide_true by eauto.
    apply wps_bind, wps_put_node; [eauto |]. intros Hr1. pose proof (put_later c w1 Hf1 Hr1) as L2.
    pose proof (linked_some _ _ (linked_later _ _ _ p L2 Hp)) as Hp2.
    eapply wps_mono; [apply wps_wpt, put_ret_later; [apply L2 | done] |]. intros a w' [-> L3]. split; [| done].
    apply grows_later. eapply later_trans; [exact L1 | eapply later_trans; [exact L2 | exact L3 | reflexivity] |].
    intros q. rewrite Hdelta. refs_eq.
  - rewrite bool_decide_false by (by intros []).
    assert (L1' : later (one p 1) w w1) by (eapply later_trans; [exact L1 | by apply later_refl | intros q; rewrite Hdelta; lia]).
    pose proof (linked_some _ _ Hp) as Hp1. pose proof (name_entries_nonneg name) as Hne.
    eapply wps_step; [apply find_slot_quiet; [done | done | lia] |].
    intros [rc offset] w2; cbn beta; cbn [fst snd]. intros (L2 & Hcd & Ho). pose proof (quiet_forest _ _ L2) as Hf2.
    pose proof (quiet_some _ _ _ L2 Hp1) as Hp2.
    assert (Hput : forall w3 rc, grows (one p 1) w w3 -> is_Some (w_heap w3 !! p) ->
      wps (exfat_put_node (Some p);; ret rc) (fun rc w' => grows (fun _ => 0) w w' /\ (rc = 0 -> components path <> [])) w3).
    { intros w3 rc' A3 Hp3. eapply wps_mono; [apply wps_wpt, put_ret_later; [by eapply grows_forest | done] |]. intros a w' [-> L4].
      split; [| done]. eapply grows_then; [exact A3 | by apply grows_later | refs_eq]. }
    assert (A2 : grows (one p 1) w w2) by (apply grows_later; by eapply later_quiet).
    destruct (Z.eqb_spec rc 0) as [-> | Hrc]; cbn [negb]; [| by apply Hput].
    eapply wps_step; [apply wps_wpt, commit_entry_after; [done | done | by apply Ho] |]. post rc w3 A3.
    assert (A03 : grows (one p 1) w w3) by (eapply grows_then; [exact A2 | exact A3 | refs_eq]).
    pose proof (grows_dom _ _ _ p A3 Hp2) as Hp3.
    destruct (negb (rc =? 0)); [by apply Hput |]. destruct Hp3 as [n3 Hn3]. pose proof (grows_forest _ _ _ A03) as Hf3.
    eapply wps_step; [apply wps_wpt, (with_node_later _ _ _ n3); [done | done | apply steady_update_mtime] |]. post ? w4 L4.
    eapply wps_mono; [apply wps_wpt, flush_put_later; [by eapply quiet_forest | by eapply quiet_some] |]. post rc' w5 L5.
    split; [| done]. eapply grows_then; [exact A03 | apply grows_later; by eapply later_zero; [apply L4 |] | refs_eq].
Qed.

(** What every operation promises: the tree of nodes stays one, on the same volume, and
    [d] is what happens to the references. *)
Record intact (d : ptr -> Z) (w w' : world) : Prop := {
  in_forest : forest w';
  in_volume : same_volume w w';
  in_root : w_root w' = w_root w;
  in_refs : forall q, refs w' q = refs w q + d q
}.

Lemma intact_after X d w w' : after X d w w' -> intact d w w'.
Proof. by intros []. Qed.

Lemma intact_grows d w w' : grows d w w' -> intact d w w'.
Proof. intros (X & _ & A). by eapply intact_after. Qed.

Lemma intact_later d w w' : later d w w' -> intact d w w'.
Proof. by intros []. Qed.

Lemma intact_quiet w w' : quiet w w' -> intact (fun _ => 0) w w'.
Proof. by intros [[] _]. Qed.

Lemma intact_trans d1 d2 d w1 w2 w3 : intact d1 w1 w2 -> intact d2 w2 w3 -> (forall q, d q = d1 q + d2 q) -> intact d w1 w3.
Proof.
  intros [A1 A2 A3 A4] [B1 B2 B3 B4] Hd. split; [done | by eapply same_volume_trans | congruence |].
  intros q. rewrite B4, A4, Hd. lia.
Qed.

Lemma intact_then d w1 w2 w3 : intact d w1 w2 -> intact (fun _ => 0) w2 w3 -> intact d w1 w3.
Proof. intros L1 L2. eapply intact_trans; [exact L1 | exact L2 | refs_eq]. Qed.

Lemma intact_upcase d w w' : intact d w w' -> ef_upcase (w_ef w) <> [] -> ef_upcase (w_ef w') <> [].
Proof. intros L Hu. by rewrite (proj2 (in_volume _ _ _ L) Hu). Qed.

(** Give back the reference to [p] at the end. *)
Lemma put_intact {A} w0 w d p (a : A) : intact (fun q => d q + one p 1 q) w0 w -> is_Some (w_heap w !! p) ->
  wpt (exfat_put_node (Some p);; ret a) (fun r w' => r = a /\ intact d w0 w') w.
Proof.
  intros L Hp. eapply wpt_mono; [apply put_ret_later; [apply L | done] |]. post r w' [-> L']. split; [done |].
  eapply intact_trans; [exact L | by apply intact_later | refs_eq].
Qed.

Lemma flush_put_intact w0 w d p : intact (fun q => d q + one p 1 q) w0 w -> is_Some (w_heap w !! p) ->
  wpt (let! rc := exfat_flush_node (Some p) in exfat_put_node (Some p);; ret rc) (fun _ w' => intact d w0 w') w.
Proof.
  intros L Hp. eapply wpt_mono; [apply flush_put_later; [apply L | done] |]. post r w' L'.
  eapply intact_trans; [exact L | by apply intact_later | refs_eq].
Qed.

(** The same, and no node is freed. *)
Record mild (d : ptr -> Z) (w w' : world) : Prop := {
  mi_intact : intact d w w';
  mi_nodes : forall q, is_Some (w_heap w !! q) -> is_Some (w_heap w' !! q)
}.

Lemma mild_trans d1 d2 d w1 w2 w3 : mild d1 w1 w2 -> mild d2 w2 w3 -> (forall q, d q = d1 q + d2 q) -> mild d w1 w3.
Proof. intros [I1 N1] [I2 N2] Hd. split; [by eapply intact_trans | auto]. Qed.

Lemma mild_later d w w' : later d w w' -> mild d w w'.
Proof. intros L. split; [by apply intact_later | intros q Hq; by eapply later_dom]. Qed.

Lemma mild_quiet w w' : quiet w w' -> mild (fun _ => 0) w w'.
Proof. intros L. apply mild_later, L. Qed.

(** A change of a node that stays. *)
Lemma mild_after p d w w' : after {[p]} d w w' -> is_Some (w_heap w' !! p) -> mild d w w'.
Proof.
  intros A Hp. split; [by eapply intact_after |]. intros q Hq. destruct (decide (q = p)) as [-> |]; [done |].
  eapply after_dom; [exact A | done | set_solver].
Qed.

Lemma mild_new d w w' : grows d w w' -> mild d w w'.
Proof. intros A. split; [by apply intact_grows |]. intros q. by apply (grows_dom _ _ _ _ A). Qed.

Lemma put_mild {A} w0 w d p (a : A) : mild (fun q => d q + one p 1 q) w0 w -> is_Some (w_heap w !! p) ->
  wpt (exfat_put_node (Some p);; ret a) (fun r w' => r = a /\ mild d w0 w') w.
Proof.
  intros L Hp. eapply wpt_mono; [apply put_ret_later; [apply L | done] |]. cbn beta. intros r w' [-> L'].
  split; [done |]. eapply mild_trans; [exact L | by apply mild_later | refs_eq].
Qed.

Lemma mkdir_mild w path r : forest w -> w_root w = Some r -> ef_upcase (w_ef w) <> [] ->
  wps (exfat_mkdir path) (fun _ w' => mild (fun _ => 0) w w') w.
Proof.
  intros Hf Hr Hu. unfold exfat_mkdir. apply wps_and_then.
  eapply wps_mono; [by eapply create_after |]. post rc w1 [A1 Hc]. pose proof (mild_new _ _ _ A1) as I1.
  destruct (Z.eqb_spec rc 0) as [-> |]; cbn [negb]; [| done]. pose proof (in_forest _ _ _ (mi_intact _ _ _ I1)) as Hf1.
  eapply wps_step; [apply wps_wpt, (exfat_lookup_later w1 path r Hf1) |].
  { by rewrite (in_root _ _ _ (mi_intact _ _ _ I1)). }
  { eapply intact_upcase; [apply I1 | done]. }
  intros [rc node] w2; cbn beta; cbn [fst snd]. destruct (Z.eqb_spec rc 0) as [-> | Hrc]; cbn [negb].
  2: { intros [L2 _]. apply wps_ret. eapply mild_trans; [exact I1 | by apply mild_later | refs_eq]. }
  intros (p & -> & L2 & Hw). pose proof (walk_attached _ _ _ _ _ Hw (Hc eq_refl)) as Ha.
  assert (I2 : mild (one p 1) w w2) by (eapply mild_trans; [exact I1 | by apply mild_later | refs_eq]).
  pose proof (in_forest _ _ _ (mi_intact _ _ _ I2)) as Hf2. apply wps_bind, wps_get. destruct (attached_some _ _ Ha) as [n Hn].
  (* a directory that cannot be made is removed *)
  assert (Hdel : forall w3 (rc : Z), later (fun _ => 0) w2 w3 ->
    wps (delete_node (Some p);; exfat_put_node (Some p);; ret rc) (fun _ w' => mild (fun _ => 0) w w') w3).
  { intros w3 rc L3. pose proof (la_forest _ _ _ L3) as Hf3.
    eapply wps_step; [apply wps_wpt, delete_node_after; [done | by eapply after_attached; [apply (after_later ∅), L3 | |]] |].
    post ? w4 (A4 & Hp4 & _). eapply wps_mono; [apply wps_wpt, (put_mild w w4 (fun _ => 0) p rc); [| done] |].
    - eapply mild_trans; [exact I2 | | refs_eq]. eapply mild_trans; [by apply mild_later | by eapply mild_after | refs_eq].
    - post ? w5 [_ L5]. exact L5. }
  eapply wps_step; [apply wps_wpt, (with_node_later _ _ _ n); [done | done |] |].
  { apply steady_truncate, Z.mod_pos_bound. lia. }
  post rc w3 L3. destruct (negb (rc =? 0)); [by apply Hdel, L3 |].
  eapply wps_step; [apply wps_wpt, flush_node_later; [by eapply quiet_forest | eapply quiet_some; [exact L3 | eauto]] |].
  post rc' w4 L4. assert (L24 : quiet w2 w4) by (by eapply quiet_trans').
  destruct (negb (rc' =? 0)); [by apply Hdel, L24 |].
  eapply wps_mono; [apply wps_wpt, (put_mild w w4 (fun _ => 0) p 0) |].
  - eapply mild_trans; [exact I2 | by apply mild_quiet | refs_eq].
  - eapply quiet_some; [exact L24 | eauto].
  - post ? w5 [_ L5]. exact L5.
Qed.

Lemma mkdir_intact w path r : forest w -> w_root w = Some r -> ef_upcase (w_ef w) <> [] ->
  wps (exfat_mkdir path) (fun _ w' => intact (fun _ => 0) w w') w.
Proof. intros Hf Hr Hu. eapply wps_mono; [by eapply mkdir_mild |]. intros ? w' I. apply I. Qed.

(** ** References that are held *)

Lemma ancestry_length h p l : ancestry h p l -> (length l <= size h)%nat.
Proof.
  intros (Hnd & Hin & _)%ancestry_nodup. rewrite <- size_dom, <- (size_list_to_set (C := gset ptr)) by done.
  apply subseteq_size. intros q Hq%elem_of_list_to_set. by apply elem_of_dom, Hin.
Qed.

(** A node with a reference is there. *)
Lemma intact_held d w0 w q : forest w0 -> intact d w0 w -> 1 <= d q -> is_Some (w_heap w !! q).
Proof. intros Hf L Hq. apply refs_some. rewrite (in_refs _ _ _ L). pose proof (refs_nonneg w0 q Hf). lia. Qed.

(** ** The label *)

Lemma find_label_loop_wpt k : forall s offset, sizes64 s -> 0 <= offset -> n_size (s_node s) - offset <= ENTRY_SIZE * Z.of_nat k ->
  wpt (find_label_loop (S k) offset) (fun r s' => stays s s' /\ (r.1 = 0 -> in_u 64 r.2)) s.
Proof.
  induction k as [| k IH]; intros s offset Hs Ho Hk; cbn [find_label_loop]; apply wpt_bind;
    (eapply wpt_mono; [by apply wpt_read_entries |]); cbn beta; intros [rc entries] s1; cbn [fst snd]; intros [Hd Hr];
    (destruct (Z.eqb_spec rc 0) as [-> | Hrc]; cbn [negb];
     [| apply wpt_ret; cbn [fst snd]; split; [by apply same_dir_stays | done]]);
    destruct (Hr eq_refl) as [_ Hend]; pose proof (sizes64_same _ _ Hd Hs) as Hs1; pose proof (sd_size _ _ Hd) as Esz; rewrite Esz in Hend.
  - unfold ENTRY_SIZE in *. lia.
  - assert (Hin : in_u 64 offset) by (destruct Hs as (_ & Hb); unfold below64, in_u, ENTRY_SIZE in *; lia).
    destruct (_ =? _); [apply wpt_ret; cbn [fst snd]; split; [by apply same_dir_stays | done] |].
    eapply wpt_mono; [apply (IH s1); [done | unfold ENTRY_SIZE; lia | rewrite Esz; unfold ENTRY_SIZE in *; lia] |].
    intros r s2 [St Hr2]. split; [| done]. etrans; [by apply same_dir_stays | done].
Qed.

Lemma find_label_wpt s : sizes64 s -> wpt find_label (fun r s' => stays s s' /\ (r.1 = 0 -> in_u 64 r.2)) s.
Proof.
  intros Hs. unfold find_label. apply wpt_bind, wpt_get, find_label_loop_wpt; [done | done |].
  pose proof (DIV_ROUND_UP_spec (n_size (s_node s)) ENTRY_SIZE eq_refl). destruct Hs as (_ & Hb). unfold below64 in Hb.
  rewrite Z2Nat.id; [lia | apply DIV_ROUND_UP_nonneg; [done | lia]].
Qed.

Lemma set_label_quiet w label : forest w -> wps (exfat_set_label label) (fun _ w' => quiet w w') w.
Proof.
  intros Hf. unfold exfat_set_label. destruct (exfat_utf8_to_utf16 _ _ _) as [rc units].
  destruct (negb _); [by apply wps_ret, quiet_refl |]. apply wps_bind, wps_get. destruct (fo_root _ Hf) as (r & nr & Hr & Hn & _).
  rewrite Hr. eapply wps_step.
  { apply wps_wpt, (wpt_with_node_later _ (fun r _ => r.1 = 0 -> in_u 64 r.2) _ _ nr Hf Hn).
    apply find_label_wpt. by eapply forest_sizes64. }
  intros [rc1 offset] w1; cbn beta; cbn [fst snd]. intros (L1 & n1 & Hn1 & Ho).
  eapply (wps_step _ _ (fun r w' => quiet w w' /\ (r.1 = 0 -> in_u 64 r.2))).
  { destruct (rc1 =? - ENOENT); [| by apply wps_ret].
    eapply wps_mono; [apply find_slot_quiet; [by eapply quiet_forest | eauto | done] |].
    cbn beta. intros r2 w2 (L2 & _ & Ho2). split; [by eapply quiet_trans' | done]. }
  intros [rc2 offset2] w2; cbn beta; cbn [fst snd]. intros [L2 Ho2].
  destruct (Z.eqb_spec rc2 0) as [-> | Hrc]; cbn [negb]; [| by apply wps_ret].
  assert (Hr2 : is_Some (w_heap w2 !! r)) by (eapply quiet_some; [exact L2 | eauto]). destruct Hr2 as [n2 Hn2].
  pose proof (quiet_forest _ _ L2) as Hf2. apply wps_and_then. eapply wps_mono; [apply wps_wpt, (with_node_later _ _ _ n2); [done | done |] |].
  { apply steady_write_entries; [by eapply forest_sizes64 |]. by destruct (Ho2 eq_refl). }
  cbn beta. intros rc3 w3 L3. assert (L03 : quiet w w3) by (by eapply quiet_trans').
  destruct (negb _); [done |]. unfold copy_label. destruct (_ <? _); [done |].
  eapply wps_step; [apply wps_wpt, vol_later; [by eapply quiet_forest | by intros v] |].
  cbn beta. intros _ w4 L4. apply wps_ret. by eapply quiet_trans'.
Qed.
End DirSafe.

#[local] Existing Instance word_be.

(** A directory of five clusters whose only file has 58 entries of the vendor behind
    its name. *)
Definition demo_tail_root : exfat_node :=
  set_n_attrib EXFAT_ATTRIB_DIR (set_n_is_cached true (set_n_is_contiguous true (set_n_start_cluster 2 (set_n_fptr_cluster 2
    (set_n_size 2560 (set_n_valid_size 2560 (demo_tree_node None (Some 2%N) None None))))))).

Definition demo_tail_file : exfat_node :=
  set_n_entry_offset 448 (set_n_continuations 60 (set_n_name [65; 0] (demo_tree_node (Some 1%N) None None None))).
Definition demo_tail_world : world :=
  mk_world (set_v_ef (set_ef_cmap_chunk [0xff; 0; 0; 0; 0; 0; 0; 0] demo_ef) demo_vol)
    {[ 1%N := demo_tail_root; 2%N := demo_tail_file ]} (Some 1%N) 3%N.

(** [shrink_directory] keeps the clusters of the entries up to the names.  The entries
    behind the names of the last file are then outside of the directory, and the next
    [find_slot] sets their bits outside of its bitmap, on a host with a bitmap of bytes,
    which is a big-endian one such as the Amiga.  (Larger words hide it, for [calloc] is
    asked for as many words as the bitmap has bytes.) *)
Theorem find_slot_overflow :
  match (shrink_directory (Some 1%N) 2400;; find_slot (Some 1%N) (-1) 3) demo_tail_world with
  | Halt r _ => r = OutOfBounds
  | _ => False
  end.
Proof. by vm_compute. Qed.
