(* ===== verification/CreateSpec.v ===== *)
(** * CreateSpec: what was created is found (create, commit_entry of libexfat/node.c)

    The directory and the name that [exfat_split] gives are those of the path, the
    node that [commit_entry] puts into the tree has that name, and looking up the same
    path reaches that node. *)

From Stdlib Require Import ZArith Lia.
From stdpp Require Import base numbers list gmap.
From S2P Require Import Prelude Bytes Monad Ondisk State Checksum Utf Bitmap Geometry Cluster FileIO Utils ExfatTime Entries EntriesSpec DirTerm NodeTerm NodeTree TreeSpec TreeReset Lookup LookupSpec TreeSafe TreeMove FlushSpec Dir DirSafe.

#[local] Open Scope Z_scope.

Section CreateSpec.
Context `{Platform}.
Implicit Types (w : world) (q : ptr) (up : list Z).

(** ** Looking up what is there *)

(** Opening a directory that was read cannot fail. *)
Lemma opendir_cached w d n : w_heap w !! d = Some n -> n_is_cached n = true ->
  exfat_opendir (Some d) w = Ok (0, mk_exfat_iterator (Some d) None) (bump d 1 w).
Proof.
  intros Hd Hc. unfold exfat_opendir. rewrite (bind_ok _ _ _ _ _ (get_node_ok d w ltac:(eauto))).
  unfold exfat_cache_directory, bind, deref. rewrite bump_lookup, decide_True, Hd by done.
  cbn [fmap option_fmap option_map]. replace (n_is_cached (add_refs 1 n)) with true by by rewrite <- Hc. done.
Qed.

Lemma lookup_loop_codes buffer : forall fuel it w r w', lookup_loop fuel it buffer w = Ok r w' -> r.1 = 0 \/ r.1 = - ENOENT.
Proof.
  induction fuel as [| fuel IH]; intros it w r w' E; [done |]. cbn [lookup_loop] in E.
  apply bind_inv in E as ([[q |] it'] & w1 & _ & E).
  - apply bind_inv in E as (w2 & ? & _ & E). apply bind_inv in E as (n & ? & _ & E). destruct (_ =? 0).
    + apply bind_inv in E as (? & ? & _ & E). injection E as <- <-. by left.
    + apply bind_inv in E as (? & ? & _ & E). by eapply IH.
  - apply bind_inv in E as (? & ? & _ & E). injection E as <- <-. by right.
Qed.

(** A child of that name is found, without an error of the device: its directory was read. *)
Lemma lookup_name_found w d p n c : forest w -> linked w d -> ef_upcase (w_ef w) <> [] -> zlen (sub p 0 n) = n ->
  finds (w_heap w) (ef_upcase (w_ef w)) d (sub p 0 n) c ->
  wpt (lookup_name (Some d) p n) (fun r w' => r = (0, Some c) /\ later (one c 1) w w') w.
Proof.
  intros Hf Hd Hu Hn Hfind. eapply wpt_mono; [apply wpt_fact; [by apply lookup_name_later |] |].
  { intros r w' E. assert (Hr : r.1 = 0 \/ r.1 = - ENOENT); [| exact Hr].
    destruct Hfind as (buffer & nd & nc & l1 & l2 & Hb & Hnd & Hcd & _). unfold lookup_name in E.
    rewrite Hn, utf8_to_utf16_part in Hb by done. rewrite Hb in E. cbn [Z.eqb negb] in E.
    rewrite (bind_ok _ _ _ _ _ (opendir_cached _ _ _ Hnd Hcd)) in E. cbn [Z.eqb negb] in E.
    apply bind_inv in E as (? & ? & _ & E). by eapply lookup_loop_codes. }
  intros r w' [[(c' & -> & L & Hfind') | (Hrc & _ & L & Hmiss)] Hr].
  - by rewrite (finds_unique _ _ _ _ _ _ (finds_later _ _ _ _ _ _ _ L Hfind) Hfind').
  - destruct Hr as [Hr | Hr]; [done |]. by destruct (misses_finds _ _ _ _ _ (Hmiss Hr) (finds_later _ _ _ _ _ _ _ L Hfind)).
Qed.

(** The converse of [lookup_path_later]: what the names reach is found. *)
Lemma lookup_path_found : forall fuel w d path p, forest w -> linked w d -> ef_upcase (w_ef w) <> [] ->
  (length path <= fuel)%nat -> walk (w_heap w) (ef_upcase (w_ef w)) d (components path) p ->
  wpt (lookup_path fuel (Some d) path)
    (fun r w' => r = (0, Some p) /\ later (fun q => one d (-1) q + one p 1 q) w w') w.
Proof.
  induction fuel as [| fuel IH]; intros w d path x Hf Hd Hu Hfuel Hw; cbn [lookup_path];
    destruct (get_comp path) as [n p] eqn:Eg;
    destruct (get_comp_spec path n p Eg) as (_ & _ & Hn & Hlen & Hzero & Hcomp);
    (destruct (Z.eqb_spec n 0) as [-> | Hn0];
      [rewrite (Hzero eq_refl) in Hw; inversion Hw; subst; apply wpt_ret; split; [done |];
        eapply later_trans; [by apply later_refl | by apply later_refl | refs_eq] |]).
  { destruct p; [unfold zlen in Hn; cbn in Hn; lia | cbn in Hlen; lia]. }
  destruct (Hcomp Hn0) as (_ & Hz & Ecomp). rewrite Ecomp in Hw.
  assert (Hshort : (length (advance p n) <= fuel)%nat).
  { unfold advance. rewrite length_drop. destruct p; [unfold zlen in Hn; cbn in Hn; lia |]. cbn [length] in *. lia. }
  destruct (is_dot p n); [by apply IH |]. cbn [app] in Hw. inversion Hw as [| ? ? c ? ? Hfind Hw']; subst.
  apply wpt_bind. eapply wpt_mono; [by apply lookup_name_found |]. intros r w1; cbn beta; intros [-> L1].
  cbn [Z.eqb negb]. pose proof (la_forest _ _ _ L1) as Hf1. pose proof (linked_later _ _ _ d L1 Hd) as Hd1.
  apply wpt_bind, wpt_put_node; [by apply linked_some |]. intros Hr1. pose proof (put_later d w1 Hf1 Hr1) as L2.
  assert (L12 : later (fun q => one c 1 q + one d (-1) q) w (bump d (-1) w1)) by (by eapply later_trans).
  pose proof (later_upcase _ _ _ L12 Hu) as Hu2.
  eapply wpt_mono.
  { apply (IH (bump d (-1) w1) c (advance p n) x); [apply L12 | | by rewrite Hu2 | done | rewrite Hu2; by eapply walk_later].
    eapply linked_later; [exact L12 |]. by eapply finds_linked. }
  intros r w3; cbn beta; intros [-> L3]. split; [done |]. eapply later_trans; [exact L12 | exact L3 | refs_eq].
Qed.

Lemma exfat_lookup_found w path r p : forest w -> w_root w = Some r -> ef_upcase (w_ef w) <> [] ->
  walk (w_heap w) (ef_upcase (w_ef w)) r (components path) p ->
  wpt (exfat_lookup path) (fun res w' => res = (0, Some p) /\ later (one p 1) w w') w.
Proof.
  intros Hf Hr Hu Hw. unfold exfat_lookup. apply wpt_bind, wpt_get. rewrite Hr.
  pose proof (root_linked w r Hf Hr) as Hd. pose proof (get_later r w Hf (linked_some _ _ Hd)) as L1.
  apply wpt_bind, wpt_get_node; [by apply linked_some |].
  eapply wpt_mono; [apply (lookup_path_found _ _ _ _ p); [apply L1 | by eapply linked_later | done | done | by eapply (walk_later _ w)] |].
  intros res w'; cbn beta; intros [-> L2]. split; [done |]. eapply later_trans; [exact L1 | exact L2 | refs_eq].
Qed.

(** ** The directory and the name of a path *)

(** A path in two parts: [before] leads from the root to the directory [q], and [last]
    is the name in it, with its UTF-16 units. *)
Record split_as (w : world) (r : ptr) (names before : list (list Z)) (last units : list Z) (q : ptr) : Prop := {
  sa_names : names = before ++ [last];
  sa_walk : walk (w_heap w) (ef_upcase (w_ef w)) r before q;
  sa_units : exfat_utf8_to_utf16 last (EXFAT_NAME_MAX + 1) (zlen last) = (0, units)
}.

Lemma walk_snoc h up d names a name p : walk h up d names a -> finds h up a name p -> walk h up d (names ++ [name]) p.
Proof. induction 1; cbn [app]; intros; econstructor; eauto using walk_nil. Qed.

Lemma split_path_as r : forall fuel w p node path names, forest w -> linked w p -> ef_upcase (w_ef w) <> [] ->
  walk (w_heap w) (ef_upcase (w_ef w)) r names p -> (length path <= fuel)%nat ->
  wpt (split_path fuel (Some p) node path)
    (fun res w' => res.1.1.1 = 0 -> exists before last units q, res.1.1.2 = Some q /\
       split_as w' r (names ++ components path) before last units q /\ res.2 = splice empty_name 0 units) w.
Proof.
  induction fuel as [| fuel IH]; intros w p node path names Hf Hp Hu Hw Hfuel; cbn [split_path];
    destruct (get_comp path) as [n q] eqn:Eg;
    destruct (get_comp_spec path n q Eg) as (_ & _ & Hn & Hlen & _ & Hcomp);
    (destruct (Z.eqb_spec n 0) as [-> | Hn0]; [apply wpt_halt |]).
  { destruct q; [unfold zlen in Hn; cbn in Hn; lia | cbn in Hlen; lia]. }
  destruct (Hcomp Hn0) as (_ & Hz & ->).
  assert (Hshort : (length (advance q n) <= fuel)%nat).
  { unfold advance. rewrite length_drop. destruct q; [unfold zlen in Hn; cbn in Hn; lia |]. cbn [length] in *. lia. }
  destruct (is_dot q n); [by apply IH |]. cbn [app].
  assert (Hput : forall w1 (res : split_result) Q, res.1.1.1 <> 0 -> is_Some (w_heap w1 !! p) ->
    wpt (exfat_put_node (Some p);; ret res) (fun res w' => res.1.1.1 = 0 -> Q res w') w1).
  { intros w1 res Q Hres Hp1. apply wpt_bind, wpt_put_node; [done |]. intros _. by apply wpt_ret. }
  destruct (is_last_comp q n) eqn:Hlast.
  - destruct (negb (is_allowed q n)); [apply Hput; [done | by apply linked_some] |].
    destruct (exfat_utf8_to_utf16 q (EXFAT_NAME_MAX + 1) n) as [rc units] eqn:Eu. cbv zeta.
    destruct (Z.eqb_spec rc 0) as [-> | Hrc]; cbn [negb]; [| apply Hput; [done | by apply linked_some]].
    apply wpt_bind. eapply wpt_mono; [by apply lookup_name_later |]. intros res w1 Hres.
    assert (exists d, later d w w1) as [d L1] by (destruct Hres as [(c & _ & ? & _) | (_ & _ & ? & _)]; eauto).
    clear Hres. destruct res as [rc1 node1]. cbn [fst snd].
    destruct (_ && _) eqn:Hrc; [apply Hput; [cbn; destruct (Z.eqb_spec rc1 0); done | by eapply later_dom, linked_some] |].
    apply wpt_ret. intros _. cbn [fst snd]. exists names, (sub q 0 n), units, p. split_and!; [done | | done].
    unfold is_last_comp in Hlast. destruct (get_comp (advance q n)) as [n2 q2] eqn:Eg2.
    destruct (get_comp_spec _ _ _ Eg2) as (_ & _ & _ & _ & Hzero & _).
    split; [by rewrite (Hzero (proj1 (Z.eqb_eq _ _) Hlast)) | | by rewrite Hz, utf8_to_utf16_part].
    rewrite (later_upcase _ _ _ L1 Hu). by eapply walk_later.
  - apply wpt_bind. eapply wpt_mono; [by apply lookup_name_later |]. intros res w1 Hres.
    destruct Hres as [(c & -> & L1 & Hfind) | (Hrc & _ & L1 & _)].
    + cbn [Z.eqb negb]. pose proof (linked_later _ _ _ p L1 Hp) as Hp1. pose proof (la_forest _ _ _ L1) as Hf1.
      apply wpt_bind, wpt_put_node; [by apply linked_some |]. intros Hr1. pose proof (put_later p w1 Hf1 Hr1) as L2.
      pose proof (later_upcase _ _ _ L1 Hu) as Hu1. pose proof (finds_linked _ _ _ _ _ Hf1 Hfind) as Hc.
      assert (Hu2 : ef_upcase (w_ef (bump p (-1) w1)) = ef_upcase (w_ef w)) by exact Hu1.
      eapply wpt_mono.
      { apply (IH _ c _ _ (names ++ [sub q 0 n])); [apply L2 | exact (linked_later _ _ _ c L2 Hc) | by rewrite Hu2 | | done].
        rewrite Hu2. eapply walk_snoc; [eapply walk_later; [exact L2 | by eapply walk_later] | by eapply finds_later]. }
      intros a w'. cbn beta. by rewrite <- app_assoc.
    + destruct res as [rc1 node1]. cbn [fst snd] in *. rewrite (proj2 (Z.eqb_neq rc1 0) Hrc). cbn [negb].
      apply Hput; [done | by eapply later_dom, linked_some].
Qed.

Lemma exfat_split_as w path r : forest w -> w_root w = Some r -> ef_upcase (w_ef w) <> [] ->
  wpt (exfat_split path) (fun res w' => res.1.1.1 = 0 -> exists before last units q, res.1.1.2 = Some q /\
    split_as w' r (components path) before last units q /\ res.2 = splice empty_name 0 units) w.
Proof.
  intros Hf Hr Hu. unfold exfat_split. apply wpt_bind, wpt_get. rewrite Hr. pose proof (root_linked w r Hf Hr) as Hd.
  pose proof (get_later r w Hf (linked_some _ _ Hd)) as L1. apply wpt_bind, wpt_get_node; [by apply linked_some |].
  apply (split_path_as r _ _ r _ path []); [apply L1 | exact (linked_later _ _ _ r L1 Hd) | done | constructor | done].
Qed.

(** ** The name of the new node *)

(** Names are compared up to the first zero. *)
Lemma compare_name_cut up rest : forall units,
  compare_name up units (take (Z.to_nat (exfat_utf16_length units)) units ++ 0 :: rest) = 0.
Proof.
  unfold compare_char. induction units as [| x units IH]; [apply Z.sub_diag |]. cbn [exfat_utf16_length].
  destruct (Z.eqb_spec x 0) as [-> | Hx]; [apply Z.sub_diag |].
  assert (Hl : 0 <= exfat_utf16_length units) by (clear; induction units; cbn [exfat_utf16_length]; [| destruct (_ =? 0)]; lia).
  replace (Z.to_nat (1 + exfat_utf16_length units)) with (S (Z.to_nat (exfat_utf16_length units))) by lia.
  cbn [take app compare_name]. rewrite (proj2 (Z.eqb_neq x 0) Hx). cbn [orb]. unfold compare_char.
  by rewrite Z.sub_diag.
Qed.

Lemma utf16_length_terminated s : forall rest rest', exfat_utf16_length (s ++ 0 :: rest) = exfat_utf16_length (s ++ 0 :: rest') /\
  0 <= exfat_utf16_length (s ++ 0 :: rest) <= zlen s.
Proof.
  induction s as [| x s IH]; intros rest rest'; cbn [app exfat_utf16_length]; [by split |].
  rewrite zlen_cons. destruct (IH rest rest') as [-> ?]. pose proof (zlen_nonneg s). destruct (_ =? 0); lia.
Qed.

(** The name in a new node, from what [exfat_split] made of the units: both are
    filled up with zeros. *)
Definition node_name (name : list Z) : list Z := splice empty_name 0 (sub name 0 (exfat_utf16_length name)).

Lemma node_name_units units : (exists s, units = s ++ [0]) -> zlen units <= EXFAT_NAME_MAX + 1 -> exists rest,
  node_name (splice empty_name 0 units) = take (Z.to_nat (exfat_utf16_length units)) units ++ 0 :: rest.
Proof.
  intros [s ->] Hlen. rewrite zlen_app in Hlen. change (zlen [0]) with 1 in Hlen.
  assert (E : exists t, splice empty_name 0 (s ++ [0]) = s ++ 0 :: t).
  { unfold splice. cbn [Z.to_nat take app]. rewrite <- app_assoc. by eexists. }
  destruct E as [t E]. unfold node_name. rewrite E. destruct (utf16_length_terminated s t []) as [-> Hk].
  set (k := exfat_utf16_length (s ++ [0])) in *. unfold splice, sub, zlen in *.
  change (Z.to_nat 0) with 0%nat. rewrite !take_0, !drop_0, !take_app_le by lia. cbn [app].
  unfold empty_name, zrepeat. rewrite drop_replicate, length_take.
  destruct (Z.to_nat (EXFAT_NAME_MAX + 1) - _)%nat eqn:Em; [exfalso; revert Em; unfold EXFAT_NAME_MAX in *; lia |].
  cbn [replicate]. by eexists.
Qed.

(** A conversion that succeeds ends its units with a zero. *)
Lemma units_terminated last units : exfat_utf8_to_utf16 last (EXFAT_NAME_MAX + 1) (zlen last) = (0, units) ->
  zlen units <= EXFAT_NAME_MAX + 1 /\ exists s, units = s ++ [0].
Proof.
  intros E. destruct (utf8_to_utf16_loop_stays (length (sub last 0 (zlen last))) (sub last 0 (zlen last)) (EXFAT_NAME_MAX + 1) [])
    as [Hlen Hend]; [done |]. unfold exfat_utf8_to_utf16 in E. rewrite E in Hlen, Hend. cbn [fst snd] in *. auto.
Qed.

(** The name that was asked for is that of the new node. *)
Lemma node_name_matches up last units : exfat_utf8_to_utf16 last (EXFAT_NAME_MAX + 1) (zlen last) = (0, units) ->
  compare_name up units (node_name (splice empty_name 0 units)) = 0.
Proof.
  intros (Hlen & Hend)%units_terminated. destruct (node_name_units units Hend Hlen) as [rest ->]. apply compare_name_cut.
Qed.

(** ** A new node in its directory *)

Lemma same_data_fields n n' : same_data n n' -> n_name n' = n_name n /\ n_is_cached n' = n_is_cached n /\
  n_attrib n' = n_attrib n /\ n_size n' = n_size n.
Proof.
  intros E. split_and!; [exact (f_equal n_name E) | exact (f_equal n_is_cached E) | exact (f_equal n_attrib E) | exact (f_equal n_size E)].
Qed.

(** A directory above [d] keeps what is found in it when only the list of [d] changes. *)
Lemma walk_kept w up h' d : forest w ->
  (forall q n, w_heap w !! q = Some n -> exists n', h' !! q = Some n' /\ n_name n' = n_name n /\ n_is_cached n' = n_is_cached n) ->
  (forall b l, b <> d -> children (w_heap w) b l -> children h' b l) ->
  forall a names, walk (w_heap w) up a names d -> walk h' up a names d.
Proof.
  intros Hf Hnode Hlist a names Hw. induction Hw as [d | a name c names d Hfind Hw IH]; [constructor |].
  econstructor; [| by apply IH]. destruct (finds_child _ _ _ _ _ Hfind) as (nc & Hnc & Hpar).
  destruct Hfind as (b & nd & nc' & l1 & l2 & Hb & Hd & Hcd & Hch & Hc & Hcmp & Hot).
  destruct (Hnode a nd Hd) as (nd' & ? & _ & Ecd). destruct (Hnode c nc' Hc) as (nc2 & ? & En & _).
  exists b, nd', nc2, l1, l2. split_and!; [done | done | congruence | | done | by rewrite En |].
  - apply Hlist; [| done]. intros ->. apply (parent_not_below w c nc d Hf Hnc Hpar).
    destruct (fo_ancestry _ Hf c ltac:(eauto)) as [lc Hlc].
    eapply (walk_above w up c c); [done | exact Hw |]. exists lc. split; [done | by eapply ancestry_self].
  - rewrite Forall_forall in Hot |- *. intros q Hq. destruct (Hot q Hq) as (m & Hm & ?).
    destruct (Hnode q m Hm) as (m' & ? & E & _). exists m'. by rewrite E.
Qed.

(** A new node is the first child of its directory, so that its name leads to it. *)
Lemma attach_new_found w d nd n up r before last units : forest w -> w_heap w !! d = Some nd -> n_is_cached nd = true ->
  fresh_node n -> walk (w_heap w) up r before d -> exfat_utf8_to_utf16 last (EXFAT_NAME_MAX + 1) (zlen last) = (0, units) ->
  compare_name up units (n_name n) = 0 ->
  wpt (let! p := new_ptr n in tree_attach (Some d) (Some p);; ret 0)
    (fun _ w' => exists p n', w_heap w !! p = None /\ w_heap w' !! p = Some n' /\ same_data n n' /\
       walk (w_heap w') up r (before ++ [last]) p) w.
Proof.
  intros Hf Hd Hcd (Hok & N1 & N2 & N3 & N4 & N5 & N6) Hw Hu Hcmp. apply wpt_bind, wpt_new_ptr.
  set (p := w_fresh w). set (w1 := set_w_fresh _ _).
  assert (Hp : w_heap w !! p = None).
  { destruct (w_heap w !! p) eqn:E; [| done]. pose proof (fo_fresh _ Hf p ltac:(eauto)). unfold p in *. lia. }
  assert (Hold : forall q m, w_heap w !! q = Some m -> w_heap w1 !! q = Some m).
  { intros q m Hq. unfold w1. cbn. fold p. rewrite lookup_insert_ne; [done | congruence]. }
  assert (Hlist1 : forall b l, children (w_heap w) b l -> children (w_heap w1) b l).
  { intros b l. apply children_place. intros q m Hq. exists m. split; [by apply Hold | done]. }
  assert (Hpl : forall b l, children (w_heap w) b l -> p ∉ b :: l).
  { intros b l [_ (m & Hm & _) Hs] [-> | Hin]%elem_of_cons; [congruence |]. destruct (segment_elem _ _ _ _ _ p Hs Hin). congruence. }
  assert (Hp1 : w_heap w1 !! p = Some n) by apply lookup_insert_eq.
  destruct (fo_list _ Hf d ltac:(eauto)) as [l Hl].
  destruct (tree_attach_spec w1 d l p n (Hlist1 _ _ Hl) (Hpl _ _ Hl) Hp1 N3 N4) as (h' & E & Hl' & Hre).
  unfold wpt. rewrite (bind_ok _ _ _ _ _ E). unfold ret. cbn [w_heap set_w_heap].
  pose proof Hre as [_ R2]. destruct (R2 p n Hp1) as (n' & Hn' & Hs & _). exists p, n'. split_and!; [done | done | done |].
  destruct (R2 d nd (Hold _ _ Hd)) as (nd' & Hd' & Hsd & _).
  eapply walk_snoc.
  - eapply walk_kept; [exact Hf | | | exact Hw].
    + intros q m Hq. destruct (R2 q m (Hold _ _ Hq)) as (m' & ? & S & _). exists m'.
      by destruct (same_data_fields _ _ S) as (? & ? & _).
    + intros b k Hb Hk. eapply children_relinked; [exact Hre | done | | by apply Hlist1].
      intros q Hq [-> | Hql]%elem_of_cons; [apply (Hpl _ _ Hk); by right |].
      destruct (child_parent _ _ _ _ Hk Hq) as (? & ? & ?), (child_parent _ _ _ _ Hl Hql) as (? & ? & ?). congruence.
  - exists units, nd', n', [], l. destruct (same_data_fields _ _ Hs) as (-> & _). destruct (same_data_fields _ _ Hsd) as (_ & -> & _).
    split_and!; done.
Qed.

(** The attributes go through the bytes of the first entry. *)
Lemma new_entries_attrib k now attrib up name : in_u 16 attrib ->
  m1_attrib (entry_meta1_of (nth 0 (new_entries k now attrib up name) [])) = attrib.
Proof.
  intros Ha. unfold new_entries, with_checksum, new_meta1. destruct (exfat_unix2exfat k now) as [[[d t] cs] z].
  transitivity (le_val (le_bytes 2 (le_val (le_bytes 2 attrib)))); [reflexivity |]. by rewrite !(le_val_field 2 attrib Ha).
Qed.

Lemma init_node_meta1_name e1 node e : wpt (init_node_meta1 e1 node) (fun n _ =>
  (node_links n = node_links node /\ n_entry_offset n = n_entry_offset node /\ n_continuations n = m1_continuations e1) /\
  n_attrib n = m1_attrib e1 /\ n_name n = n_name node) e.
Proof.
  apply wpt_conj; [apply init_node_meta1_links |]. unfold init_node_meta1.
  do 2 (apply wpt_bind; eapply wpt_mono; [apply wpt_exfat2unix |]; intros ? ? _). done.
Qed.

Lemma commit_entry_found w d nd attrib offset up r names before last units :
  forest w -> w_heap w !! d = Some nd -> n_is_cached nd = true -> in_u 64 offset -> in_u 16 attrib ->
  ef_upcase (w_ef w) <> [] -> up = ef_upcase (w_ef w) -> split_as w r names before last units d ->
  wpt (commit_entry (Some d) (splice empty_name 0 units) offset attrib)
    (fun rc w' => rc = 0 -> exists p n, w_heap w !! p = None /\ w_heap w' !! p = Some n /\
       n_attrib n = attrib /\ n_name n = node_name (splice empty_name 0 units) /\ walk (w_heap w') up r names p) w.
Proof.
  intros Hf Hd Hcd [Ho Ho'] Ha Hu -> [-> Hw Hunits]. unfold commit_entry. pose proof (quiet_refl w Hf) as L0.
  eapply wpt_then; [exact L0 | apply os_later; [done | done] |]. intros now w1 _ L1. apply wpt_bind, wpt_get. cbv zeta.
  pose proof (new_entries_attrib (os_timezone (v_os (w_vol w1))) now attrib (ef_upcase (w_ef w1)) (splice empty_name 0 units) Ha) as Hattr.
  revert Hattr. generalize (new_entries (os_timezone (v_os (w_vol w1))) now attrib (ef_upcase (w_ef w1)) (splice empty_name 0 units)).
  intros entries Hattr. destruct (la_node _ _ _ (qu_later _ _ L1) d nd Hd) as (nd1 & Hd1 & _).
  eapply wpt_then; [exact L1 | |].
  { apply (with_node_later _ _ _ nd1); [by eapply quiet_forest | done |]. apply steady_write_entries; [| done].
    eapply forest_sizes64; [by eapply quiet_forest | done]. }
  intros rc w2 _ L2. destruct (Z.eqb_spec rc 0) as [-> | Hrc]; cbn [negb]; [| by apply wpt_ret].
  apply wpt_bind. eapply wpt_mono.
  { apply (os_result allocate_node (fun r => r = None \/ r = Some zero_node)); [by eapply quiet_forest |].
    intros e. unfold allocate_node, malloc_ok, bind, wpt. destruct (negb (negb _)); cbn; tauto. }
  intros node w3 [L3 [-> | ->]]; [by apply wpt_ret |]. assert (L03 : quiet w w3) by (by eapply quiet_trans').
  set (named := set_n_name _ _). set (e1 := nth 0 entries []) in *.
  apply wpt_bind. eapply wpt_mono; [eapply os_result; [by eapply quiet_forest | intros e; apply init_node_meta1_name] |].
  intros n w4 [L4 [(Hl & He & Hc) [Hna Hnn]]]. cbv zeta. assert (L04 : quiet w w4) by (by eapply quiet_trans').
  destruct (la_node _ _ _ (qu_later _ _ L04) d nd Hd) as (nd4 & Hd4 & _ & _ & _ & _ & K4).
  eapply wpt_mono.
  - eapply (attach_new_found w4 d nd4 _ (ef_upcase (w_ef w)) r before last units); [by eapply quiet_forest | done | by apply K4 | | | done |].
    + eapply (new_node_fresh e1); [rewrite He; exact Ho | exact Hl | exact Hc].
    + eapply walk_later; [apply L04 | done].
    + change (compare_name (ef_upcase (w_ef w)) units (n_name n) = 0). rewrite Hnn. exact (node_name_matches _ last units Hunits).
  - intros rc5 w5. cbn beta. intros (p & n' & Hp & Hn' & S & Hwalk) _. exists p, n'.
    destruct (same_data_fields _ _ S) as (En & _ & Ea & _). split_and!; [| done | | | done].
    + apply not_elem_of_dom. rewrite <- (qu_dom _ _ L04). by apply not_elem_of_dom.
    + etrans; [exact Ea |]. etrans; [exact Hna | exact Hattr].
    + etrans; [exact En | exact Hnn].
Qed.

(** ** Creating and looking up *)

(** The new node [p]: its attributes, its name with the letters as they were given, and
    the path leads to it. *)
Definition created (w w' : world) (r p : ptr) (path : list Z) (attrib : Z) : Prop :=
  w_heap w !! p = None /\
  exists n before last units, w_heap w' !! p = Some n /\ n_attrib n = attrib /\
    components path = before ++ [last] /\ exfat_utf8_to_utf16 last (EXFAT_NAME_MAX + 1) (zlen last) = (0, units) /\
    n_name n = node_name (splice empty_name 0 units) /\
    walk (w_heap w') (ef_upcase (w_ef w)) r (components path) p.

Lemma created_later d w w1 w2 r p path attrib : later d w1 w2 -> created w w1 r p path attrib -> created w w2 r p path attrib.
Proof.
  intros L (Hp & n & before & last & units & Hn & Ha & Hc & Hu & Hname & Hw). split; [done |].
  destruct (la_node _ _ _ L p n Hn) as (n' & Hn' & _ & E1 & E2 & _). exists n', before, last, units.
  split_and!; [done | congruence | done | done | congruence | by eapply walk_later].
Qed.

Lemma create_found w path attrib r : forest w -> w_root w = Some r -> ef_upcase (w_ef w) <> [] -> in_u 16 attrib ->
  wps (create path attrib) (fun rc w' => rc = 0 -> exists p, created w w' r p path attrib) w.
Proof.
  intros Hf Hr Hu Ha. unfold create. eapply wps_step; [apply wps_wpt, wpt_conj; [by apply split_later | by apply exfat_split_as] |].
  intros [[[rc dir] existing] name] w1; cbn beta; cbn [fst snd]. destruct (Z.eqb_spec rc 0) as [-> | Hrc]; cbn [negb].
  2: { intros _. by apply wps_ret. }
  intros [[_ (delta & L1 & p & -> & Hp & _ & Hdelta)] Has]. destruct (Has eq_refl) as (before & last & units & ? & [= <-] & As & ->).
  pose proof (la_forest _ _ _ L1) as Hf1.
  assert (Hput : forall w3 (rc : Z) Q, rc <> 0 -> is_Some (w_heap w3 !! p) ->
    wps (exfat_put_node (Some p);; ret rc) (fun rc w' => rc = 0 -> Q w') w3).
  { intros w3 rc' Q Hrc Hp3. apply wps_bind, wps_put_node; [done |]. intros _. by apply wps_ret. }
  destruct existing as [c |].
  - destruct Hdelta as [(nc & Hc & _) _]. rewrite bool_decide_true by eauto.
    apply wps_bind, wps_put_node; [eauto |]. intros Hr1. pose proof (put_later c w1 Hf1 Hr1) as L2.
    apply Hput; [done | exact (linked_some _ _ (linked_later _ _ _ p L2 Hp))].
  - rewrite bool_decide_false by (by intros []). pose proof (linked_some _ _ Hp) as Hp1.
    pose proof (name_entries_nonneg (splice empty_name 0 units)) as Hne.
    eapply wps_step; [apply find_slot_quiet; [done | done | lia] |].
    intros [rc offset] w2; cbn beta; cbn [fst snd]. intros (L2 & (nd & Hd & Hcd) & Ho). pose proof (quiet_forest _ _ L2) as Hf2.
    destruct (Z.eqb_spec rc 0) as [-> | Hrc]; cbn [negb]; [| apply Hput; eauto].
    pose proof (later_upcase _ _ _ L1 Hu) as Hu1. pose proof (later_quiet _ _ _ _ L1 L2) as L12.
    pose proof (later_upcase _ _ _ L12 Hu) as Hu2. destruct As as [A1 A2 A3].
    eapply wps_step.
    { apply wps_wpt, wpt_conj; [apply (commit_entry_after w2 p _ offset attrib Hf2); [eauto | by apply Ho] |].
      apply (commit_entry_found w2 p nd attrib offset (ef_upcase (w_ef w)) r (components path) before last units Hf2 Hd Hcd);
        [by apply Ho | done | by rewrite Hu2 | done |]. split; [done | | done].
      rewrite Hu2, <- Hu1. eapply walk_later; [apply L2 | done]. }
    intros rc w3 [A Hnew]. destruct (grows_dom _ _ _ p A ltac:(eauto)) as [n3 Hn3]. pose proof (grows_forest _ _ _ A) as Hf3.
    destruct (Z.eqb_spec rc 0) as [-> | Hrc]; cbn [negb]; [| apply Hput; eauto].
    destruct (Hnew eq_refl) as (q & n & Hq & Hn & Hna & Hnn & Hw). assert (C : created w w3 r q path attrib).
    { split; [| by exists n, before, last, units]. destruct (w_heap w !! q) as [m |] eqn:Em; [| done].
      destruct (la_node _ _ _ L12 q m Em) as (? & ? & _). congruence. }
    eapply wps_step; [apply wps_wpt, (with_node_later _ _ _ n3); [done | done | apply steady_update_mtime] |]. post ? w4 L4.
    eapply wps_mono; [apply wps_wpt, flush_put_later; [by eapply quiet_forest | by eapply quiet_some] |]. post rc' w5 L5.
    intros _. exists q. eapply created_later; [exact L5 |]. eapply created_later; [apply L4 | done].
Qed.

(** C8: What was created is found.  For every volume, every state of the tree and every
    path: when [create] (of [exfat_mknod] and [exfat_mkdir]) returns 0, there is a node
    that was not there before, with the attributes that were asked for and with the name
    of the last component of the path, its letters not changed; following the path
    reaches that node and no other; and [exfat_lookup] of the same path then returns 0
    and that very node, whatever the device does. *)
Theorem created_is_found w path attrib r (Hf : forest w) (Hroot : w_root w = Some r)
  (Hup : ef_upcase (w_ef w) <> []) (Hattrib : in_u 16 attrib) :
  wps (create path attrib)
    (fun rc w' => rc = 0 -> exists p, created w w' r p path attrib /\
       wpt (exfat_lookup path) (fun res w'' => res = (0, Some p) /\ later (one p 1) w' w'') w') w.
Proof.
  eapply wps_mono; [apply wps_conj; [by eapply create_after | by apply create_found] |].
  intros rc w'; cbn beta; intros [[(X & _ & A) _] C] E. destruct (C E) as [p Hp]. exists p. split; [done |].
  destruct Hp as (_ & n & before & last & units & _ & _ & _ & _ & _ & Hw). pose proof (af_volume _ _ _ _ A) as [_ Hv].
  apply (exfat_lookup_found w' path r p); [apply A | by rewrite (af_root _ _ _ _ A) | by rewrite Hv | by rewrite Hv].
Qed.
End CreateSpec.

#[local] Existing Instance word_le64.

(** The tree of [demo_forest], its root with a cluster. *)
Definition demo_new_root : exfat_node :=
  set_n_is_contiguous true (set_n_start_cluster 2 (set_n_fptr_cluster 2 (set_n_size 512 (set_n_valid_size 512 demo_root)))).
Definition demo_new_world : world := set_w_heap (<[1%N := demo_new_root]> (w_heap demo_forest)) demo_forest.

Lemma demo_new_forest : forest demo_new_world.
Proof.
  apply (quiet_forest demo_forest). exact (node_later demo_forest 1%N demo_root demo_new_root (w_vol demo_forest)
    demo_forest_ok eq_refl (conj eq_refl (conj eq_refl eq_refl)) ltac:(by vm_compute) (conj eq_refl (fun _ => eq_refl))).
Qed.

(** The path "/Bc": it is created, and "/BC" finds it. *)
Definition demo_new_path : list Z := [0x2f; 0x42; 0x63].

Example demo_create :
  match (let! rc := create demo_new_path EXFAT_ATTRIB_ARCH in
         let! res := exfat_lookup [0x2f; 0x42; 0x43] in
         ret (rc, res)) demo_new_world with
  | Ok (rc, res) _ => rc = 0 /\ res = (0, Some 3%N)
  | _ => False
  end.
Proof. by vm_compute. Qed.

Lemma created_is_found_witness :
  wps (create demo_new_path EXFAT_ATTRIB_ARCH)
    (fun rc w' => rc = 0 -> exists p, created demo_new_world w' 1%N p demo_new_path EXFAT_ATTRIB_ARCH /\
       wpt (exfat_lookup demo_new_path) (fun res w'' => res = (0, Some p) /\ later (one p 1) w' w'') w') demo_new_world.
Proof. by apply (created_is_found demo_new_world demo_new_path EXFAT_ATTRIB_ARCH 1%N demo_new_forest). Defined.
