(* ===== verification/MoveSpec.v ===== *)
(** * MoveSpec: removing and renaming (exfat_unlink, exfat_rmdir, exfat_rename of libexfat/node.c)

    What a change of the tree does to the paths: the nodes that stay keep their names
    and their order, so that a path that led to one of them still does.  A removed node
    is reached by no path; a renamed one by the new path. *)

From Stdlib Require Import ZArith Lia.
From stdpp Require Import base numbers list gmap.
From S2P Require Import Prelude Bytes Monad Ondisk State Checksum Utf Bitmap Geometry Cluster FileIO Utils ExfatTime Entries EntriesSpec DirTerm NodeTerm NodeTree TreeSpec TreeReset Lookup LookupSpec TreeSafe TreeMove FlushSpec Dir DirSafe CreateSpec.

#[local] Open Scope Z_scope.

Section MoveSpec.
Context `{Platform}.
Implicit Types (w : world) (X : gset ptr) (up : list Z).

(** ** Paths that stay *)

Lemma others_all X l : (forall q, q ∈ l -> q ∉ X) -> others X l = l.
Proof.
  unfold others. induction l as [| q l IH]; intros Hl; [done |]. rewrite filter_cons_True by (apply Hl; left).
  f_equal. apply IH. intros x Hx. apply Hl. by right.
Qed.

Lemma above_self w p : forest w -> is_Some (w_heap w !! p) -> above (w_heap w) p p.
Proof. intros Hf Hp. destruct (fo_ancestry _ Hf p Hp) as [l Hl]. exists l. split; [done | by eapply ancestry_self]. Qed.

(** Nodes of [X] that are in a directory after the step are in [q]. *)
Definition moved_to (w' : world) (X : gset ptr) (q : ptr) : Prop :=
  forall x n b, x ∈ X -> w_heap w' !! x = Some n -> n_parent n = Some b -> b = q.

(** A directory that is strictly above [q] finds the same child as before. *)
Lemma after_finds X d w w' up a name c q : forest w -> after X d w w' -> moved_to w' X q ->
  a ∉ X -> c ∉ X -> a <> q -> finds (w_heap w) up a name c -> finds (w_heap w') up a name c.
Proof.
  intros Hf A Hm Ha Hc Haq (b & na & nc & l1 & l2 & Hb & Hna & Hca & Hch & Hnc & Hcmp & Hot).
  destruct (af_node _ _ _ _ A a na Hna Ha) as (na' & Hna' & _ & _ & _ & K & _).
  destruct (af_node _ _ _ _ A c nc Hnc Hc) as (nc' & Hnc' & _ & _ & _ & _ & Ec).
  destruct (af_list _ _ _ _ A a na _ Hna Ha Hca Hch) as (l' & Hl' & E).
  assert (Hl'X : others X l' = l').
  { apply others_all. intros x Hx HxX. destruct (child_parent _ _ _ _ Hl' Hx) as (n & Hn & Hp).
    by destruct Haq; eapply Hm. }
  unfold others in E at 2. rewrite filter_app, filter_cons_True in E by done. rewrite Hl'X in E. subst l'.
  exists b, na', nc', (filter (fun q => q ∉ X) l1), (filter (fun q => q ∉ X) l2).
  split_and!; [done | done | by apply K | done | done | by rewrite Ec |].
  rewrite Forall_forall in Hot |- *. intros x [HxX Hx]%list_elem_of_filter. destruct (Hot x Hx) as (n & Hn & Hne).
  destruct (af_node _ _ _ _ A x n Hn HxX) as (n' & Hn' & _ & _ & _ & _ & En). exists n'. by rewrite En.
Qed.

(** A path to [q] stays when no node above [q] is moved and nothing is moved but into [q]. *)
Lemma after_walk X d w w' up a names q : forest w -> after X d w w' -> moved_to w' X q ->
  (forall x, x ∈ X -> ~ above (w_heap w) x q) -> walk (w_heap w) up a names q -> walk (w_heap w') up a names q.
Proof.
  intros Hf A Hm HX Hw. induction Hw as [q | a name c names q Hfind Hw IH]; [constructor |].
  destruct (finds_child _ _ _ _ _ Hfind) as (nc & Hnc & Hpar).
  assert (Hc : above (w_heap w) c q) by (eapply walk_above; [done | exact Hw | apply above_self; eauto]).
  assert (Ha : above (w_heap w) a q).
  { eapply walk_above; [done | exact Hw |]. eapply above_child; [done | done | done |]. apply above_self; [done |].
    destruct Hfind as (? & ? & ? & ? & ? & _ & ? & _). eauto. }
  econstructor; [| by apply IH]. eapply after_finds; [done | exact A | exact Hm | | | | exact Hfind].
  - intros HaX. by eapply HX.
  - intros HcX. by eapply HX.
  - intros ->. by eapply (parent_not_below w c nc q).
Qed.

(** ** Removing *)

(** Nothing is below a node without children. *)
Lemma childless_above w p n q : forest w -> w_heap w !! p = Some n -> n_child n = None -> above (w_heap w) p q -> q = p.
Proof.
  intros Hf Hp Hc (l & Hl & Hin). destruct (decide (p = q)) as [-> | Hpq]; [done |].
  destruct (ancestry_has_child _ _ _ _ Hl Hin Hpq) as (x & nx & Hx & Hpx).
  destruct (fo_parent _ Hf x nx p Hx Hpx) as (k & [_ (np & Hnp & Hk) _] & Hxk). simplify_eq.
  rewrite Hc in Hk. destruct k; [by apply elem_of_nil in Hxk | done].
Qed.

(** A removed node is reached no more; the other paths stay. *)
Definition removed (w w' : world) (r p : ptr) : Prop :=
  (forall up names, ~ walk (w_heap w') up r names p) /\
  (forall up names q, q <> p -> walk (w_heap w) up r names q -> walk (w_heap w') up r names q).

Lemma after_removed d w w' r p n : forest w -> w_root w = Some r -> w_heap w !! p = Some n -> n_child n = None ->
  r <> p -> after {[p]} d w w' -> detached w' p -> removed w w' r p.
Proof.
  intros Hf Hr Hp Hc Hrp A D. split.
  - intros up names Hw. destruct (walk_root_or_attached _ _ _ _ _ Hw) as [-> | Ha]; [done |]. by eapply detached_not_attached.
  - intros up names q Hq. eapply after_walk; [done | exact A | |].
    + intros x m b ->%elem_of_singleton Hm Hb. destruct D as (m' & ? & ?). congruence.
    + intros x ->%elem_of_singleton Ha. by eapply Hq, childless_above.
Qed.

(** A directory that still has a child is not removed. *)
Lemma rmdir_empty w p n rc w' : forest w -> w_heap w !! p = Some n -> exfat_rmdir (Some p) w = Ok rc w' -> rc = 0 -> n_child n = None.
Proof.
  intros Hf Hp E ->. destruct (n_child n) as [c |] eqn:Hc; [exfalso | done].
  assert (Hcd : n_is_cached n = true).
  { destruct (n_is_cached n) eqn:Hcd; [done |]. rewrite (no_uncached _ (fo_node _ Hf p n Hp) Hcd) in Hc. done. }
  unfold exfat_rmdir in E. rewrite (bind_ok _ _ _ _ _ (deref_ok _ _ _ Hp)) in E. destruct (negb _); [done |].
  unfold and_then, exfat_cache_directory in E. unfold bind at 1 2 in E. rewrite (deref_ok _ _ _ Hp), Hcd in E. cbn [ret Z.eqb negb] in E.
  rewrite (bind_ok _ _ _ _ _ (deref_ok _ _ _ Hp)), Hc, bool_decide_true in E by eauto. done.
Qed.

Lemma unlink_removed w p r : forest w -> w_root w = Some r -> attached (w_heap w) p ->
  wpt (exfat_unlink (Some p)) (fun rc w' => rc = 0 -> removed w w' r p) w.
Proof.
  intros Hf Hr Ha. pose proof (attached_not_root w p Hf Ha) as Hrp. pose proof (attached_some _ _ Ha) as [n Hn].
  eapply wpt_mono; [apply wpt_fact; [apply unlink_later; [done | by right] |] |].
  { intros rc w' E. instantiate (1 := fun rc _ => rc = 0 -> is_dir n = false). cbn beta. intros ->.
    unfold exfat_unlink in E. rewrite (bind_ok _ _ _ _ _ (deref_ok _ _ _ Hn)) in E. by destruct (is_dir n). }
  intros rc w' [(A & _ & _ & D) Hdir] E. destruct (D E) as [_ D']. destruct (file_childless w p n Hf Hn (Hdir E)) as (m & Hm & Hc & _).
  simplify_eq. eapply after_removed; [done | done | done | done | congruence | exact A | done].
Qed.

Lemma rmdir_removed w p r : forest w -> w_root w = Some r -> attached (w_heap w) p ->
  wpt (exfat_rmdir (Some p)) (fun rc w' => rc = 0 -> removed w w' r p) w.
Proof.
  intros Hf Hr Ha. pose proof (attached_not_root w p Hf Ha) as Hrp. pose proof (attached_some _ _ Ha) as [n Hn].
  eapply wpt_mono; [apply wpt_fact; [by apply rmdir_after |] |].
  { intros rc w' E. exact (rmdir_empty w p n rc w' Hf Hn E). }
  intros rc w' [(A & _ & D) Hc] E. eapply after_removed; [done | done | done | by apply Hc | congruence | exact A | by apply D].
Qed.

(** C10: Removing takes out one name and nothing else.  In every tree of nodes, for a node
    [p] below the root: when [exfat_unlink] or [exfat_rmdir] returns 0, no path leads to
    [p] any more, from whatever spelling, and every path that led to another node still
    leads to that node, although the directory was written and may have been cut
    shorter.  Both end, and use no node that was freed, whatever the device does. *)
Theorem removed_is_gone w p r (Hf : forest w) (Hroot : w_root w = Some r) (Hp : attached (w_heap w) p) :
  wpt (exfat_unlink (Some p)) (fun rc w' => rc = 0 -> removed w w' r p) w /\
  wpt (exfat_rmdir (Some p)) (fun rc w' => rc = 0 -> removed w w' r p) w.
Proof. split; [by apply unlink_removed | by apply rmdir_removed]. Qed.

(** ** Renaming: the node that has the new name *)

Lemma remove_existing_after w p c : forest w -> is_Some (w_heap w !! p) -> attached (w_heap w) c ->
  wpt (remove_existing (Some p) (Some c)) (fun rc w' => after {[c]} (one c (-1)) w w' /\ (rc = 0 -> ~ attached (w_heap w') c)) w.
Proof.
  intros Hf [np Hp] Hc. pose proof (attached_some _ _ Hc) as [nc Hnc]. unfold remove_existing.
  apply wpt_bind, (wpt_deref _ _ _ _ Hnc), wpt_bind, (wpt_deref _ _ _ _ Hp).
  assert (Hno : forall rc : Z, rc <> 0 ->
    wpt (ret rc) (fun rc w' => after {[c]} (fun _ => 0) w w' /\ removable w' c /\ (rc = 0 -> detached w' c)) w).
  { intros rc Hrc. apply wpt_ret. split_and!; [by apply after_refl | by apply attached_removable | done]. }
  apply wpt_bind. eapply wpt_mono with (Q := fun rc w' => after {[c]} (fun _ => 0) w w' /\ removable w' c /\ (rc = 0 -> detached w' c)).
  { destruct (is_dir nc), (is_dir np); cbn [negb]; [by apply rmdir_after | by apply Hno | by apply Hno |].
    eapply wpt_mono; [apply unlink_later; [done | by right] |]. post rc w' (A & _ & R & D). split_and!; [done | by apply R |].
    intros E. by apply D. }
  intros rc w1 (A1 & R1 & D1). pose proof (af_forest _ _ _ _ A1) as Hf1. assert (Hc1 : is_Some (w_heap w1 !! c)) by (destruct R1 as (? & ? & _); eauto).
  apply wpt_bind, wpt_put_node; [done |]. intros Hr. pose proof (put_later c w1 Hf1 Hr) as L2.
  assert (A2 : after {[c]} (one c (-1)) w (bump c (-1) w1)) by (eapply after_then; [exact A1 | by apply after_later | refs_eq]).
  assert (Hroot : w_root (bump c (-1) w1) <> Some c).
  { rewrite (af_root _ _ _ _ A2). by apply attached_not_root. }
  pose proof (cleanup_after _ c (la_forest _ _ _ L2) (removable_later _ _ _ _ L2 Hf1 R1) Hroot) as Hcl.
  destruct (Z.eqb_spec rc 0) as [-> | Hrc]; cbn [negb]; [| apply wpt_bind]; (eapply wpt_mono; [exact Hcl |]; post rc2 w3 [A3 D3]);
    [| apply wpt_ret]; (split; [eapply after_then; [exact A2 | exact A3 | refs_eq] |]); [| done].
  intros _. apply D3. eapply detached_later; [exact L2 | by apply D1].
Qed.

(** ** Renaming: the entry and the place *)

(** [p] is the first child of the directory [d] and has the name. *)
Definition placed_as (w : world) (d p : ptr) (name : list Z) : Prop :=
  exists n nd l, w_heap w !! p = Some n /\ n_name n = name /\ n_parent n = Some d /\
    w_heap w !! d = Some nd /\ n_is_cached nd = true /\ children (w_heap w) d (p :: l).

Lemma placed_later k w w' d p name : later k w w' -> placed_as w d p name -> placed_as w' d p name.
Proof.
  intros L (n & nd & l & Hn & En & Ep & Hd & Hc & Hl). destruct (la_node _ _ _ L p n Hn) as (n' & ? & K1 & K2 & _).
  destruct (la_node _ _ _ L d nd Hd) as (nd' & ? & _ & _ & _ & _ & K). exists n', nd', l.
  split_and!; [done | congruence | congruence | done | by apply K | by eapply la_list].
Qed.

Lemma relink_named w p n a d nd ld name : forest w -> w_heap w !! p = Some n -> n_parent n = Some a ->
  w_heap w !! d = Some nd -> n_is_cached nd = true -> ancestry (w_heap w) d ld -> p ∉ ld ->
  wpt (assign (Some p) (set_n_name name);; tree_detach (Some p);; tree_attach (Some d) (Some p);; ret 0)
    (fun _ w' => after {[p]} (fun _ => 0) w w' /\ placed_as w' d p name) w.
Proof.
  intros Hf Hp Ha Hd Hcd Hld Hpld. apply wpt_bind, (wpt_assign _ _ _ _ _ Hp).
  assert (A1 : after {[p]} (fun _ => 0) w (set_w_heap (<[p := set_n_name name n]> (w_heap w)) w)).
  { apply (set_after {[p]} w p n); try done; [| | set_solver].
    - pose proof (fo_node _ Hf p n Hp) as []. by split.
    - intros Hr. destruct (fo_root _ Hf) as (r & m & Hr' & Hm & _ & M1 & M2). by assert (m = n) as -> by congruence. }
  set (w1 := set_w_heap _ w) in *. assert (Hp1 : w_heap w1 !! p = Some (set_n_name name n)) by apply lookup_insert_eq.
  destruct (detach_after w1 p (set_n_name name n) a (af_forest _ _ _ _ A1) Hp1 Ha) as (h2 & E2 & A2 & _ & n2 & Hp2 & S2 & _ & P1 & P2 & P3).
  unfold wpt. rewrite (bind_ok _ _ _ _ _ E2). set (w2 := set_w_heap h2 w1) in *.
  assert (A02 : after {[p]} (fun _ => 0) w w2) by (eapply after_then; [exact A1 | exact A2 | refs_eq]).
  assert (Hdp : d ∉ ({[p]} : gset ptr)) by (intros ->%elem_of_singleton; by eapply Hpld, ancestry_self).
  destruct (af_node _ _ _ _ A02 d nd Hd Hdp) as (nd2 & Hd2 & _ & _ & _ & K2 & _).
  assert (Hroot : w_root w2 <> Some p) by (rewrite (af_root _ _ _ _ A02); by eapply root_parentless).
  assert (Hu2 : n_is_unlinked n2 = false).
  { pose proof (f_equal n_is_unlinked S2) as E. cbn in E. rewrite E. by eapply (attached_linked w p n a). }
  destruct (attach_after w2 p n2 d nd2 ld (af_forest _ _ _ _ A02) Hp2 P1 P2 P3 Hu2 Hroot Hd2 (K2 Hcd)) as (h3 & E3 & A3 & n3 & l & Hp3 & Pd & S3 & Hl);
    [eapply after_ancestry; [exact A02 | exact Hld | by intros q Hq ->%elem_of_singleton] | done |].
  rewrite (bind_ok _ _ _ _ _ E3). unfold ret. split; [eapply after_then; [exact A02 | exact A3 | refs_eq] |].
  destruct (af_node _ _ _ _ A3 d nd2 Hd2 Hdp) as (nd3 & Hd3 & _ & _ & _ & K3 & _). exists n3, nd3, l. split_and!; try done; [| by apply K3, K2].
  transitivity (n_name n2); [exact (f_equal n_name S3) | exact (f_equal n_name S2)].
Qed.

Lemma rename_entry_after w d p name offset ld : forest w -> attached (w_heap w) p ->
  (exists nd, w_heap w !! d = Some nd /\ n_is_cached nd = true) -> in_u 64 offset ->
  ancestry (w_heap w) d ld -> p ∉ ld ->
  wpt (rename_entry (Some d) (Some p) name offset)
    (fun rc w' => after {[p]} (fun _ => 0) w w' /\ (rc = 0 -> placed_as w' d p name)) w.
Proof.
  intros Hf (n & a & Hp & Ha) (nd & Hd & Hcd) [Ho Ho'] Hld Hpld. unfold rename_entry.
  pose proof (fo_node _ Hf p n Hp) as Hok. destruct (parent_some w p n a Hf Hp Ha) as [na Hna].
  apply wpt_bind, (wpt_deref _ _ _ _ Hp). rewrite Ha. apply wpt_bind.
  eapply wpt_mono; [apply (with_node_later _ _ _ na); [done | done |] |].
  { eapply wpt_mono; [apply wpt_read_entries; [by eapply forest_sizes64 | apply Hok | done] |].
    intros r s' [Hs _]. by apply same_dir_stays. }
  intros [rc entries] w1; cbn beta; intros L1. destruct (Z.eqb_spec rc 0) as [-> | Hrc]; cbn [negb].
  2: { apply wpt_ret. split; [by apply after_quiet | done]. }
  apply wpt_bind, wpt_get. cbv zeta. generalize (rename_entries (ef_upcase (w_ef w1)) name entries). intros es.
  pose proof (quiet_forest _ _ L1) as Hf1. destruct (la_node _ _ _ (qu_later _ _ L1) p n Hp) as (n1 & Hp1 & K1 & _).
  apply wpt_and_then. eapply wpt_mono; [apply (erase_node_later w1 p n1 a); [done | done | congruence] |].
  post rc1 w2 L2. assert (L02 : later (fun _ => 0) w w2) by (eapply later_zero; [apply L1 | done]).
  destruct (Z.eqb_spec rc1 0) as [-> | Hrc1]; cbn [negb]; [| split; [by apply after_later | done]].
  (* the entry *)
  pose proof (la_forest _ _ _ L2) as Hf2. destruct (la_node _ _ _ L02 p n Hp) as (n2 & Hp2 & K2 & _).
  apply wpt_bind, (wpt_assign _ _ _ _ _ Hp2). set (n3 := set_n_continuations _ _).
  assert (A3 : after ∅ (fun _ => 0) w2 (set_w_heap (<[p := n3]> (w_heap w2)) w2)).
  { apply (set_after ∅ w2 p n2); try done.
    - pose proof (fo_node _ Hf2 p n2 Hp2) as []. split; try done; cbn. apply Z.mod_pos_bound; lia.
    - intros Hr. destruct (fo_root _ Hf2) as (r & m & Hr' & Hm & _ & M1 & M2). by assert (m = n2) as -> by congruence. }
  set (w3 := set_w_heap _ w2) in *. pose proof (af_forest _ _ _ _ A3) as Hf3.
  assert (A03 : after ∅ (fun _ => 0) w w3) by (eapply after_then; [by apply after_later | exact A3 | refs_eq]).
  destruct (af_node _ _ _ _ A03 d nd Hd ltac:(set_solver)) as (nd3 & Hd3 & _).
  apply wpt_and_then. eapply wpt_mono; [apply (with_node_later _ _ _ nd3); [done | done |] |].
  { apply steady_write_entries; [by eapply forest_sizes64 | done]. }
  post rc3 w4 L4. assert (A04 : after {[p]} (fun _ => 0) w w4).
  { eapply after_sub; [| apply empty_subseteq]. eapply after_then; [exact A03 | by apply after_quiet | refs_eq]. }
  destruct (Z.eqb_spec rc3 0) as [-> | Hrc3]; cbn [negb]; [| by split].
  (* the name and the place *)
  assert (A4 : after ∅ (fun _ => 0) w w4) by (eapply after_then; [exact A03 | by apply after_quiet | refs_eq]).
  destruct (af_node _ _ _ _ A4 p n Hp ltac:(set_solver)) as (n4 & Hp4 & K4 & _).
  destruct (af_node _ _ _ _ A4 d nd Hd ltac:(set_solver)) as (nd4 & Hd4 & _ & _ & _ & Kd & _).
  eapply wpt_mono; [apply (relink_named w4 p n4 a d nd4 ld name (af_forest _ _ _ _ A4) Hp4); [congruence | done | by apply Kd | | done] |].
  { eapply after_ancestry; [exact A4 | exact Hld | set_solver]. }
  intros rc w5 [A5 Pl]. split; [eapply after_then; [exact A04 | exact A5 | refs_eq] | done].
Qed.

(** ** Renaming: the whole *)

Lemma is_above_spec w p : forall fuel d l, ancestry (w_heap w) d l -> (length l <= fuel)%nat ->
  wpt (is_above fuel (Some p) (Some d)) (fun b w' => w' = w /\ b = bool_decide (p ∈ l)) w.
Proof.
  induction fuel as [| fuel IH]; intros d l Ha Hfuel; cbn [is_above];
    (destruct (decide (p = d)) as [-> | Hpd];
      [rewrite bool_decide_true by done; apply wpt_ret; split; [done |]; symmetry; apply bool_decide_eq_true_2; by eapply ancestry_self |]);
    rewrite bool_decide_false by congruence.
  { destruct Ha; cbn in Hfuel; lia. }
  inversion Ha as [? n Hn Hp | ? n e l' Hn Hp Hl' Hd]; subst; apply wpt_bind, (wpt_deref _ _ _ _ Hn); rewrite Hp.
  - destruct fuel; (apply wpt_ret; split; [done |]; symmetry; apply bool_decide_eq_false_2; by intros ->%list_elem_of_singleton).
  - eapply wpt_mono; [apply (IH e l' Hl'); cbn in Hfuel; lia |]. post b w' [-> ->]. split; [done |].
    apply bool_decide_ext. rewrite elem_of_cons. tauto.
Qed.

(** The paths to the directory [d] stay. *)
Definition keeps_paths (d : ptr) (w w' : world) : Prop :=
  forall up a names, walk (w_heap w) up a names d -> walk (w_heap w') up a names d.

Lemma keeps_paths_later k d w w' : later k w w' -> keeps_paths d w w'.
Proof. intros L up a names. by apply (walk_later k). Qed.

Lemma keeps_paths_trans d w1 w2 w3 : keeps_paths d w1 w2 -> keeps_paths d w2 w3 -> keeps_paths d w1 w3.
Proof. intros K1 K2 up a names Hw. by apply K2, K1. Qed.

Lemma keeps_paths_after p k d w w' ld : forest w -> after {[p]} k w w' -> ancestry (w_heap w) d ld -> p ∉ ld ->
  (forall n b, w_heap w' !! p = Some n -> n_parent n = Some b -> b = d) -> keeps_paths d w w'.
Proof.
  intros Hf A Hld Hp Hm up a names. eapply after_walk; [done | exact A | |].
  - intros x n b ->%elem_of_singleton. apply Hm.
  - intros x ->%elem_of_singleton (l & Hl & Hin). by rewrite (ancestry_unique _ _ _ _ Hl Hld) in Hin.
Qed.

(** The node [p] is in a directory and may be put into [d]: a directory is not put
    into itself. *)
Record spot (d p : ptr) (ld : list ptr) (w : world) : Prop := {
  sp_node : attached (w_heap w) p;
  sp_dir : ancestry (w_heap w) d ld;
  sp_file : p ∈ ld -> exists n, w_heap w !! p = Some n /\ is_dir n = false
}.

Lemma spot_after X k d p ld w w' : after X k w w' -> p ∉ X -> (forall q, q ∈ ld -> q ∉ X) -> spot d p ld w -> spot d p ld w'.
Proof.
  intros A Hp Hld [S1 S2 S3]. split; [by eapply after_attached | by eapply after_ancestry |]. intros Hin.
  destruct (S3 Hin) as (n & Hn & Hdir). destruct (af_node _ _ _ _ A p n Hn Hp) as (n' & Hn' & _ & E & _).
  exists n'. unfold is_dir in *. by rewrite E.
Qed.

Lemma spot_later k d p ld w w' : later k w w' -> spot d p ld w -> spot d p ld w'.
Proof. intros L. by apply (spot_after ∅ k); [apply after_later | set_solver | set_solver]. Qed.

(** A file has nothing below it, and [d] was read. *)
Lemma spot_not_above d p ld w nd : forest w -> spot d p ld w -> w_heap w !! d = Some nd -> n_is_cached nd = true -> p ∉ ld.
Proof.
  intros Hf [_ S2 S3] Hd Hc Hin. destruct (S3 Hin) as (n & Hn & Hdir).
  assert (Hcp : n_is_cached n = true).
  { destruct (decide (p = d)) as [-> | Hne]; [congruence |]. destruct (ancestry_cached w d ld p Hf S2 Hin Hne) as (m & ? & ?). congruence. }
  pose proof (no_cached _ (fo_node _ Hf p n Hn) Hcp). congruence.
Qed.

(** The references to the node that has the new name. *)
Definition target_ref (existing : option ptr) (k : Z) (q : ptr) : Z :=
  match existing with Some c => one c k q | None => 0 end.

Lemma rename_existing w d p ld existing : forest w -> spot d p ld w ->
  (forall c, existing = Some c -> exists nc, w_heap w !! c = Some nc /\ n_parent nc = Some d) ->
  wpt (match existing with
       | None => ret 0
       | Some _ =>
           if negb (bool_decide (existing = Some p)) then remove_existing (Some p) existing
           else exfat_put_node existing;; ret 0
       end) (fun rc w' => intact (target_ref existing (-1)) w w' /\ spot d p ld w' /\ (rc = 0 -> keeps_paths d w w')) w.
Proof.
  intros Hf S Hex. destruct existing as [c |].
  2: { apply wpt_ret. pose proof (later_refl w Hf) as L. split_and!; [by apply intact_later | done | by intros _ ? ? ?]. }
  destruct (Hex c eq_refl) as (nc & Hnc & Hcd). destruct (decide (c = p)) as [-> | Hcp].
  - rewrite bool_decide_true by done. cbn [negb]. eapply wpt_mono; [apply put_ret_later; [done | eauto] |]. post rc w' [-> L].
    split_and!; [by apply intact_later | by eapply spot_later | intros _; by eapply keeps_paths_later].
  - rewrite bool_decide_false by congruence. cbn [negb]. assert (Hcld : c ∉ ld).
    { destruct (fo_parent _ Hf c nc d Hnc Hcd) as (k & Hk & Hck). by destruct (ancestry_child w d ld k Hf (sp_dir _ _ _ _ S) Hk c Hck). }
    pose proof (attached_some _ _ (sp_node _ _ _ _ S)) as Hp.
    eapply wpt_mono; [apply (remove_existing_after w p c Hf Hp); by exists nc, d |]. post rc w' [A D]. split_and!.
    + by eapply intact_after.
    + eapply spot_after; [exact A | set_solver | | done]. intros q Hq ->%elem_of_singleton. done.
    + intros E. eapply keeps_paths_after; [done | exact A | apply S | done |]. intros n b Hn Hb. destruct (D E). by exists n, b.
Qed.

(** Give back two references. *)
Lemma put_two_later w p q (rc : Z) : forest w -> is_Some (w_heap w !! p) -> is_Some (w_heap w !! q) ->
  wpt (exfat_put_node (Some p);; exfat_put_node (Some q);; ret rc)
    (fun r w' => r = rc /\ later (fun x => one p (-1) x + one q (-1) x) w w') w.
Proof.
  intros Hf Hp Hq. apply wpt_bind, wpt_put_node; [done |]. intros Hr. pose proof (put_later p w Hf Hr) as L1.
  eapply wpt_mono; [apply (put_ret_later _ q); [apply L1 | by eapply later_dom] |]. post r w2 [-> L2]. split; [done |].
  by eapply later_trans.
Qed.

(** What the last part of [exfat_rename] has done when it ends. *)
Definition renamed (w0 w : world) (d p : ptr) (name : list Z) (rc : Z) (w' : world) : Prop :=
  intact (fun _ => 0) w0 w' /\ (rc = 0 -> placed_as w' d p name /\ keeps_paths d w w').

Lemma put_renamed w0 w w1 d p name (rc : Z) : forest w0 -> intact (fun q => one d 1 q + one p 1 q) w0 w1 ->
  (rc = 0 -> placed_as w1 d p name /\ keeps_paths d w w1) ->
  wps (exfat_put_node (Some d);; exfat_put_node (Some p);; ret rc) (renamed w0 w d p name) w1.
Proof.
  intros Hf I Hrc. eapply wps_mono; [apply wps_wpt, put_two_later; [apply I | |] |].
  1, 2: eapply intact_held; [exact Hf | exact I | unfold one; repeat destruct (decide _); (done || lia)].
  intros r w' [-> L]. split.
  - eapply intact_trans; [exact I | by apply intact_later | refs_eq].
  - intros E. destruct (Hrc E) as [Pl K]. split; [by eapply placed_later | eapply keeps_paths_trans; [exact K | by eapply keeps_paths_later]].
Qed.

(** The last part of [exfat_rename], for the node [p] and the directory [d]. *)
Lemma rename_into w0 w d p ld name : forest w0 -> intact (fun q => one d 1 q + one p 1 q) w0 w -> spot d p ld w ->
  wps (let! (rc, offset) := find_slot (Some d) (-1) (2 + name_entries_count name) in
       if negb (rc =? 0) then exfat_put_node (Some d);; exfat_put_node (Some p);; ret rc
       else
         let! rc := rename_entry (Some d) (Some p) name offset in
         if negb (rc =? 0) then exfat_put_node (Some d);; exfat_put_node (Some p);; ret rc
         else
           let! rc := exfat_flush_node (Some d) in
           exfat_put_node (Some d);;
           exfat_put_node (Some p);;
           ret rc) (renamed w0 w d p name) w.
Proof.
  intros Hf0 I0 S. pose proof (in_forest _ _ _ I0) as Hf. pose proof (name_entries_nonneg name) as Hne.
  pose proof (sp_dir _ _ _ _ S) as Hld.
  assert (Hd : is_Some (w_heap w !! d)) by (eapply ancestry_some; [exact Hld | by eapply ancestry_self]).
  eapply wps_step; [apply find_slot_quiet; [done | done | lia] |].
  intros [rc offset] w1; cbn beta; cbn [fst snd]. intros (L1 & (nd & Hnd & Hcd) & Ho). pose proof (quiet_forest _ _ L1) as Hf1.
  pose proof (intact_then _ _ _ _ I0 (intact_quiet _ _ L1)) as I1.
  destruct (Z.eqb_spec rc 0) as [-> | Hrc]; cbn [negb]; [| by apply put_renamed].
  pose proof (spot_later _ _ _ _ _ _ (qu_later _ _ L1) S) as S1.
  pose proof (spot_not_above _ _ _ _ _ Hf1 S1 Hnd Hcd) as Hpld.
  eapply wps_step; [apply wps_wpt, (rename_entry_after w1 d p name offset ld); [done | apply S1 | eauto | by apply Ho | apply S1 | done] |].
  post rc2 w2 [A2 Pl]. pose proof (intact_then _ _ _ _ I1 (intact_after _ _ _ _ A2)) as I2.
  destruct (Z.eqb_spec rc2 0) as [-> | Hrc2]; cbn [negb]; [| by apply put_renamed].
  assert (K2 : keeps_paths d w w2).
  { eapply keeps_paths_trans; [by eapply keeps_paths_later, L1 |]. eapply keeps_paths_after; [done | exact A2 | apply S1 | done |].
    intros n b Hn Hb. destruct (Pl eq_refl) as (n' & _ & _ & Hn' & _ & Hp' & _). congruence. }
  eapply wps_step; [apply wps_wpt, flush_node_later; [apply A2 |] |].
  { eapply intact_held; [exact Hf0 | exact I2 | unfold one; repeat destruct (decide _); (done || lia)]. }
  post rc3 w3 L3. apply put_renamed; [done | eapply intact_trans; [exact I2 | by apply intact_quiet | refs_eq] |].
  intros _. split; [eapply placed_later; [apply L3 | by apply Pl] | eapply keeps_paths_trans; [exact K2 | by eapply keeps_paths_later, L3]].
Qed.

(** The check that a directory is not put below itself. *)
Lemma above_check w d p n ld : ancestry (w_heap w) d ld ->
  wps (if is_dir n then is_above (tree_fuel w) (Some p) (Some d) else ret false)
    (fun b w' => w' = w /\ (b = false -> is_dir n = true -> p ∉ ld)) w.
Proof.
  intros Hld. destruct (is_dir n); [| by apply wps_ret]. pose proof (ancestry_length _ _ _ Hld) as Hlen.
  eapply wps_mono; [apply wps_wpt, (is_above_spec w p _ d ld Hld); unfold tree_fuel; lia |]. post b w' [-> ->].
  split; [done |]. by destruct (bool_decide_reflect (p ∈ ld)).
Qed.

(** What a rename has done: the new path has a directory, and [p] its last component there. *)
Definition moved_as (w w' : world) (r p : ptr) (new_path : list Z) : Prop :=
  exists d before last units, components new_path = before ++ [last] /\
    exfat_utf8_to_utf16 last (EXFAT_NAME_MAX + 1) (zlen last) = (0, units) /\
    walk (w_heap w') (ef_upcase (w_ef w)) r before d /\ placed_as w' d p (splice empty_name 0 units).

(** Ways out with an error. *)
Lemma put_fails w w1 d p (rc : Z) (Q : world -> Prop) : forest w -> intact (fun q => one d 1 q + one p 1 q) w w1 -> rc <> 0 ->
  wps (exfat_put_node (Some d);; exfat_put_node (Some p);; ret rc) (fun rc w' => intact (fun _ => 0) w w' /\ (rc = 0 -> Q w')) w1.
Proof.
  intros Hf I Hrc. eapply wps_mono; [apply wps_wpt, put_two_later; [apply I | |] |].
  1, 2: eapply intact_held; [exact Hf | exact I | unfold one; repeat destruct (decide _); (done || lia)].
  intros r w' [-> L]. split; [| done]. eapply intact_trans; [exact I | by apply intact_later | refs_eq].
Qed.

Lemma rename_above_fails w w1 d p existing (Q : world -> Prop) : forest w ->
  intact (fun q => one d 1 q + one p 1 q + target_ref existing 1 q) w w1 ->
  wps (when (bool_decide (is_Some existing)) (exfat_put_node existing);;
       exfat_put_node (Some d);; exfat_put_node (Some p);; ret (- EINVAL))
    (fun rc w' => intact (fun _ => 0) w w' /\ (rc = 0 -> Q w')) w1.
Proof.
  intros Hf I. pose proof (in_forest _ _ _ I) as Hf1. destruct existing as [c |].
  - rewrite bool_decide_true by eauto. apply wps_bind, wps_put_node.
    { eapply intact_held; [exact Hf | exact I | cbn; unfold one; repeat destruct (decide _); (done || lia)]. }
    intros Hr. apply put_fails; [done | | done]. eapply intact_trans; [exact I | by apply intact_later, put_later |].
    intros q. cbn [target_ref]. refs_eq.
  - rewrite bool_decide_false by (by intros []). apply wps_bind, wps_ret, put_fails; [done | | done].
    eapply intact_trans; [exact I | apply intact_later, later_refl, Hf1 | intros q; cbn [target_ref]; refs_eq].
Qed.

(** The rest of [exfat_rename] from the check on, for the node [p] and what [exfat_split] gave. *)
Lemma rename_found w w1 n d p ld existing name : forest w ->
  intact (fun q => one d 1 q + one p 1 q + target_ref existing 1 q) w w1 -> w_heap w1 !! p = Some n ->
  ancestry (w_heap w1) d ld -> (is_dir n = true -> p ∉ ld -> attached (w_heap w1) p) ->
  (is_dir n = false -> attached (w_heap w1) p) ->
  (forall c, existing = Some c -> exists nc, w_heap w1 !! c = Some nc /\ n_parent nc = Some d) ->
  wps (let! above := if is_dir n then is_above (tree_fuel w1) (Some p) (Some d) else ret false in
       if above then
         when (bool_decide (is_Some existing)) (exfat_put_node existing);;
         exfat_put_node (Some d);;
         exfat_put_node (Some p);;
         ret (- EINVAL)
       else
         let! rc :=
           match existing with
           | None => ret 0
           | Some _ =>
               if negb (bool_decide (existing = Some p)) then remove_existing (Some p) existing
               else exfat_put_node existing;; ret 0
           end in
         if negb (rc =? 0) then exfat_put_node (Some d);; exfat_put_node (Some p);; ret rc
         else
           let! (rc, offset) := find_slot (Some d) (-1) (2 + name_entries_count name) in
           if negb (rc =? 0) then exfat_put_node (Some d);; exfat_put_node (Some p);; ret rc
           else
             let! rc := rename_entry (Some d) (Some p) name offset in
             if negb (rc =? 0) then exfat_put_node (Some d);; exfat_put_node (Some p);; ret rc
             else
               let! rc := exfat_flush_node (Some d) in
               exfat_put_node (Some d);;
               exfat_put_node (Some p);;
               ret rc) (renamed w w1 d p name) w1.
Proof.
  intros Hf I1 Hn Hld Hdir Hfile Hex. pose proof (in_forest _ _ _ I1) as Hf1.
  eapply wps_step; [by apply above_check |]. intros above w' [-> Habove]. destruct above; [by apply rename_above_fails |].
  assert (S1 : spot d p ld w1).
  { split; [destruct (is_dir n) eqn:E; auto | done |]. intros Hin. exists n. split; [done |].
    destruct (is_dir n) eqn:E; [| done]. by destruct (Habove eq_refl eq_refl). }
  eapply wps_step; [apply wps_wpt, (rename_existing w1 d p ld existing Hf1 S1 Hex) |]. post rc w2 (I12 & S2 & K2).
  assert (I2 : intact (fun q => one d 1 q + one p 1 q) w w2).
  { eapply intact_trans; [exact I1 | exact I12 |]. intros q. destruct existing; cbn [target_ref]; refs_eq. }
  destruct (Z.eqb_spec rc 0) as [-> | Hrc]; cbn [negb]; [| by apply put_fails].
  eapply wps_mono; [exact (rename_into w w2 d p ld name Hf I2 S2) |]. intros rc w3 [I3 R3]. split; [done |]. intros E. destruct (R3 E) as [Pl K3].
  split; [done |]. eapply keeps_paths_trans; [by apply K2 | done].
Qed.

Lemma rename_spec w old_path new_path r : forest w -> w_root w = Some r -> ef_upcase (w_ef w) <> [] ->
  wps (exfat_rename old_path new_path) (fun rc w' => intact (fun _ => 0) w w' /\
    (rc = 0 -> exists w1 p, later (one p 1) w w1 /\ walk (w_heap w1) (ef_upcase (w_ef w)) r (components old_path) p /\
       moved_as w w' r p new_path)) w.
Proof.
  intros Hf Hr Hu. unfold exfat_rename. eapply wps_step; [by apply wps_wpt, (exfat_lookup_later w old_path r) |].
  intros [rc node] w1; cbn beta; cbn [fst snd]. destruct (Z.eqb_spec rc 0) as [-> | Hrc]; cbn [negb].
  2: { intros [L1 _]. apply wps_ret. split; [by apply intact_later | done]. }
  intros (p & -> & L1 & Hw). pose proof (la_forest _ _ _ L1) as Hf1. pose proof (intact_later _ _ _ L1) as I1.
  assert (Hr1 : w_root w1 = Some r) by (by rewrite (la_root _ _ _ L1)). pose proof (later_upcase _ _ _ L1 Hu) as Hu1.
  eapply wps_step; [apply wps_wpt, wpt_conj; [apply (split_later w1 new_path r Hf1 Hr1) | apply (exfat_split_as w1 new_path r Hf1 Hr1)];
    by rewrite Hu1 |].
  intros [[[rc dir] existing] name] w2; cbn beta; cbn [fst snd].
  destruct (Z.eqb_spec rc 0) as [-> | Hrc]; cbn [negb].
  2: { intros [L2 _]. assert (I2 : intact (fun q => 0 + one p 1 q) w w2) by (eapply intact_trans; [exact I1 | by apply intact_later | refs_eq]).
    eapply wps_mono; [apply wps_wpt, (put_intact w w2 (fun _ => 0) p rc I2) |].
    - eapply intact_held; [exact Hf | exact I2 | unfold one; rewrite decide_True by done; lia].
    - post ? w5 [-> L5]. by split. }
  intros [[_ (delta & L2 & d & -> & Hd & (ld & Hld & Hrld) & Hex)] Has]. pose proof (la_forest _ _ _ L2) as Hf2.
  destruct (Has eq_refl) as (before & last & units & ? & [= <-] & As & ->).
  assert (I2 : intact (fun q => one d 1 q + one p 1 q + target_ref existing 1 q) w w2).
  { eapply intact_trans; [exact I1 | by apply intact_later |]. intros q.
    destruct existing as [c |]; [destruct Hex as [_ ->] | rewrite Hex]; cbn [target_ref]; refs_eq. }
  assert (Hp2 : is_Some (w_heap w2 !! p)).
  { eapply intact_held; [exact Hf | exact I2 |]. destruct existing; cbn [target_ref]; unfold one; repeat destruct (decide _); (done || lia). }
  destruct Hp2 as [n2 Hn2]. apply wps_bind, (wps_deref _ _ _ _ Hn2), wps_bind, wps_get.
  (* the node is not the root *)
  assert (Hatt : p <> r -> attached (w_heap w2) p).
  { intros Hpr. destruct (walk_root_or_attached _ _ _ _ _ Hw) as [-> | Hp1]; [done |].
    eapply after_attached; [apply (after_later ∅), L2 | done | set_solver]. }
  assert (Hroot : exists m, w_heap w2 !! r = Some m /\ is_dir m = true).
  { destruct (fo_root _ Hf2) as (r' & m & Hr' & Hm & _ & Hdir & _). rewrite (la_root _ _ _ L2), Hr1 in Hr'. injection Hr' as <-. eauto. }
  destruct Hroot as (m & Hm & Hmdir).
  eapply wps_mono; [apply (rename_found w w2 n2 d p ld existing _ Hf I2 Hn2 Hld) |].
  - intros _ Hnin. apply Hatt. by intros ->.
  - intros Hdir. apply Hatt. intros ->. congruence.
  - intros c ->. destruct Hex as [(nc & Hnc & Hcd) _]. eauto.
  - intros rc w3 [I3 R3]. split; [done |]. intros E. destruct (R3 E) as [Pl K]. exists w1, p. split_and!; [done | done |].
    destruct As as [A1 A2 A3]. exists d, before, last, units. split_and!; [done | done | | done]. apply K.
    pose proof (later_upcase _ _ _ L2 ltac:(by rewrite Hu1)) as Hu2. rewrite <- Hu1, <- Hu2. exact A2.
Qed.

Lemma rename_intact w old_path new_path r : forest w -> w_root w = Some r -> ef_upcase (w_ef w) <> [] ->
  wps (exfat_rename old_path new_path) (fun _ w' => intact (fun _ => 0) w w') w.
Proof. intros Hf Hr Hu. eapply wps_mono; [by eapply rename_spec |]. by intros rc w' [I _]. Qed.

(** ** The new path *)

Lemma compare_name_terminated up s rest rest' : compare_name up (s ++ 0 :: rest) (s ++ 0 :: rest') = 0.
Proof.
  induction s as [| x s IH]; [apply Z.sub_diag |]. cbn [app compare_name]. unfold compare_char.
  destruct (_ || _); [apply Z.sub_diag |]. by rewrite Z.sub_diag.
Qed.

Lemma moved_walk w w' r p path : moved_as w w' r p path -> walk (w_heap w') (ef_upcase (w_ef w)) r (components path) p.
Proof.
  intros (d & before & last & units & -> & Hu & Hw & n & nd & l & Hn & En & _ & Hd & Hc & Hl). eapply walk_snoc; [exact Hw |].
  exists units, nd, n, [], l. split_and!; try done. rewrite En. destruct (units_terminated _ _ Hu) as [_ [s ->]].
  unfold splice. cbn [Z.to_nat]. rewrite take_0, <- app_assoc. apply (compare_name_terminated _ s []).
Qed.

(** C9: Renaming.  For every tree of nodes and all pairs of paths, also when the new
    name is taken, when it is the old one in other letters, and when source and target
    are in one directory or one above the other: when [exfat_rename] returns 0, the node
    that the old path named is the one that the new path leads to; it is the first child
    of the directory of the new path, with the new name, and [exfat_lookup] of the new
    path returns it, whatever the device does.  The tree stays a tree, and no reference
    is kept. *)
Theorem renamed_is_found w old_path new_path r (Hf : forest w) (Hroot : w_root w = Some r) (Hup : ef_upcase (w_ef w) <> []) :
  wps (exfat_rename old_path new_path) (fun rc w' => intact (fun _ => 0) w w' /\
    (rc = 0 -> exists w1 p, later (one p 1) w w1 /\ walk (w_heap w1) (ef_upcase (w_ef w)) r (components old_path) p /\
       moved_as w w' r p new_path /\
       wpt (exfat_lookup new_path) (fun res w'' => res = (0, Some p) /\ later (one p 1) w' w'') w')) w.
Proof.
  eapply wps_mono; [by apply rename_spec |]. intros rc w' [I R]. split; [done |]. intros E.
  destruct (R E) as (w1 & p & L & Hw & M). exists w1, p. split_and!; [done | done | done |].
  pose proof (proj2 (in_volume _ _ _ I) Hup) as Hv.
  apply (exfat_lookup_found w' new_path r p); [apply I | by rewrite (in_root _ _ _ I) | by rewrite Hv |].
  rewrite Hv. by apply moved_walk.
Qed.
End MoveSpec.

#[local] Existing Instance word_le64.

Lemma demo_new_file : attached (w_heap demo_new_world) 2%N.
Proof. by exists demo_file, 1%N. Qed.

(** "/Bc" is created, renamed to "/A", which is there and is replaced, found as "/a" and
    removed. *)
Example demo_moves :
  match (let! rc := create demo_new_path EXFAT_ATTRIB_ARCH in
         let! rc1 := exfat_rename demo_new_path [0x2f; 0x41] in
         let! res := exfat_lookup [0x2f; 0x61] in
         let! rc2 := exfat_unlink (snd res) in
         let! res' := exfat_lookup [0x2f; 0x61] in
         ret (rc, rc1, res, rc2, res')) demo_new_world with
  | Ok r _ => r = (0, 0, (0, Some 3%N), 0, (- ENOENT, None))
  | _ => False
  end.
Proof. by vm_compute. Qed.

Lemma removed_is_gone_witness :
  wpt (exfat_unlink (Some 2%N)) (fun rc w' => rc = 0 -> removed demo_new_world w' 1%N 2%N) demo_new_world /\
  wpt (exfat_rmdir (Some 2%N)) (fun rc w' => rc = 0 -> removed demo_new_world w' 1%N 2%N) demo_new_world.
Proof. exact (removed_is_gone demo_new_world 2%N 1%N demo_new_forest eq_refl demo_new_file). Defined.

Lemma renamed_is_found_witness :
  wps (exfat_rename demo_path demo_new_path) (fun rc w' => intact (fun _ => 0) demo_new_world w' /\
    (rc = 0 -> exists w1 p, later (one p 1) demo_new_world w1 /\ walk (w_heap w1) demo_upcase 1%N [[0x61]] p /\
       moved_as demo_new_world w' 1%N p demo_new_path /\
       wpt (exfat_lookup demo_new_path) (fun res w'' => res = (0, Some p) /\ later (one p 1) w' w'') w')) demo_new_world.
Proof. by apply (renamed_is_found demo_new_world demo_path demo_new_path 1%N demo_new_forest). Defined.
