(* ===== verification/Mount.v ===== *)
(** * Mount: mounting and unmounting (libexfat/mount.c, exfat_open of libexfat/io.c)

    Options, the checks of the super block, the size of the root directory, and
    the two ends of the life of a volume.  What the operating system answers to
    the calls of [exfat_open], and the user and group of the process, are
    arguments.  A structure [exfat] that was freed keeps the fields that nobody
    reads any more; its pointers are null. *)

From Stdlib Require Import ZArith Lia.
From stdpp Require Import base numbers list gmap.
From S2P Require Import Prelude Bytes Monad Ondisk State Checksum Utf Bitmap Geometry Cluster FileIO Utils ExfatTime Entries NodeTree.

#[local] Open Scope Z_scope.

Section Mount.
Context `{Platform}.

(** ** Definitions *)

(** *** Opening the device *)

Record open_answers : Type := mk_open_answers {
  can_open_rw : bool;
  can_open_ro : bool;
  fstat_ok : bool;
  is_device_or_file : bool;
  seek_end : Z;
  seek_set_ok : bool
}.

(** The choice of the mode: [None] when no descriptor was opened. *)
Definition open_mode (o : open_answers) (mode : exfat_mode) : option exfat_mode :=
  match mode with
  | EXFAT_MODE_RO => if can_open_ro o then Some EXFAT_MODE_RO else None
  | EXFAT_MODE_RW => if can_open_rw o then Some EXFAT_MODE_RW else None
  | EXFAT_MODE_ANY =>
      if can_open_rw o then Some EXFAT_MODE_RW
      else if can_open_ro o then Some EXFAT_MODE_RO
      else None
  end.

(** Whether a device was opened. *)
Definition exfat_open (o : open_answers) (mode : exfat_mode) : M env bool :=
  let! ok := malloc_ok in
  if negb ok then exfat_error;; ret false
  else
    match open_mode o mode with
    | None => exfat_error;; ret false
    | Some mode =>
        modify (set_os_mode mode);;
        if negb (fstat_ok o) then exfat_error;; ret false
        else if negb (is_device_or_file o) then exfat_error;; ret false
        else if seek_end o <=? 0 then exfat_error;; ret false
        else if negb (seek_set_ok o) then exfat_error;; ret false
        else modify (set_os_size (seek_end o));; ret true
    end.

(** *** Options *)

(** The character code of '='. *)
Definition equals : Z := 0x3d.

(** The loop of [get_option]; the search goes on at the offset [from]. *)
Fixpoint get_option_loop (fuel : nat) (options option_name : list Z) (from : nat) : option (list Z) :=
  match fuel with
  | O => None
  | S fuel =>
      match strstr (drop from options) option_name with
      | None => None
      | Some k =>
          let p := (from + k)%nat in
          let next := drop (p + length option_name) options in
          if ((p =? 0)%nat || (nth (p - 1) options 0 =? comma)) &&
             (match next with [] => false | c :: _ => c =? equals end)
          then Some (drop 1 next)
          else get_option_loop fuel options option_name (S p)
      end
  end.

Definition get_option (options option_name : list Z) : option (list Z) :=
  get_option_loop (S (length options)) options option_name 0.

(** [strtol(p, NULL, base)] for a base of at most 10. *)
Definition is_space (c : Z) : bool := (c =? 0x20) || ((9 <=? c) && (c <=? 13)).

Fixpoint skip_spaces (p : list Z) : list Z :=
  match p with
  | c :: p' => if is_space c then skip_spaces p' else p
  | [] => []
  end.

Fixpoint digits (base acc : Z) (p : list Z) : Z :=
  match p with
  | c :: p =>
      if (0x30 <=? c) && (c <? 0x30 + base) then digits base (acc * base + (c - 0x30)) p else acc
  | [] => acc
  end.

Definition strtol (p : list Z) (base : Z) : Z :=
  let p := skip_spaces p in
  let v :=
    match p with
    | c :: p' =>
        if c =? 0x2d then - digits base 0 p'
        else if c =? 0x2b then digits base 0 p'
        else digits base 0 p
    | [] => 0
    end in
  Z.max (- 2 ^ 63) (Z.min (2 ^ 63 - 1) v).

Definition get_int_option (options option_name : list Z) (base default_value : Z) : Z :=
  match get_option options option_name with
  | None => default_value
  | Some p => i32 (strtol p base)
  end.

(** The names of the options. *)
Definition opt_umask : list Z := [117; 109; 97; 115; 107].
Definition opt_dmask : list Z := [100; 109; 97; 115; 107].
Definition opt_fmask : list Z := [102; 109; 97; 115; 107].
Definition opt_uid : list Z := [117; 105; 100].
Definition opt_gid : list Z := [103; 105; 100].
Definition opt_noatime : list Z := [110; 111; 97; 116; 105; 109; 101].
Definition opt_repair : list Z := [114; 101; 112; 97; 105; 114].
Definition opt_ro : list Z := [114; 111].
Definition opt_ro_fallback : list Z := [114; 111; 95; 102; 97; 108; 108; 98; 97; 99; 107].

Definition parse_options (euid egid : Z) (options : list Z) (ef : exfat) : exfat :=
  let umask := get_int_option options opt_umask 8 0 in
  let ef := set_ef_dmask (get_int_option options opt_dmask 8 umask) ef in
  let ef := set_ef_fmask (get_int_option options opt_fmask 8 umask) ef in
  let ef := set_ef_uid (u32 (get_int_option options opt_uid 10 (i32 euid))) ef in
  let ef := set_ef_gid (u32 (get_int_option options opt_gid 10 (i32 egid))) ef in
  let ef := set_ef_noatime (exfat_match_option options opt_noatime) ef in
  let repair := get_int_option options opt_repair 10 0 in
  set_ef_repair
    (if repair =? 1 then EXFAT_REPAIR_ASK
     else if repair =? 2 then EXFAT_REPAIR_YES
     else EXFAT_REPAIR_NO) ef.

(** *** The boot record *)

(** The state of the loop over the words is the sector, which a repair changes. *)
Definition exfat_fix_invalid_vbr_checksum (vbr_checksum : Z) : M vol (bool * list Z) :=
  let! v := get_state in
  let sector_size := SECTOR_SIZE (ef_sb (v_ef v)) in
  let sector := concat (replicate (Z.to_nat (sector_size / 4)) (le_bytes 4 vbr_checksum)) in
  let! ok := on_part (exfat_pwrite sector (11 * sector_size)) in
  if negb ok then on_part exfat_error;; ret (false, sector)
  else on_part exfat_errors_fixed_bump;; ret (true, sector).

(** The last loop of [verify_vbr_checksum]: [n] words are left from [i]. *)
Fixpoint check_vbr_words (n : nat) (i : Z) (sector : list Z) (vbr_checksum : Z) : M vol bool :=
  match n with
  | O => ret true
  | S n =>
      if negb (le_val (sub sector (4 * i) 4) =? vbr_checksum) then
        on_part exfat_error;;
        let! fix_it := exfat_ask_to_fix in
        if negb fix_it then ret false
        else
          let! (ok, sector) := exfat_fix_invalid_vbr_checksum vbr_checksum in
          if negb ok then ret false else check_vbr_words n (i + 1) sector vbr_checksum
      else check_vbr_words n (i + 1) sector vbr_checksum
  end.

(** The loop over the sectors 1 to 10 when all of them are in the buffer. *)
Fixpoint add_sectors (n : nat) (buffer : list Z) (sector_size i sum : Z) : Z :=
  match n with
  | O => sum
  | S n =>
      add_sectors n buffer sector_size (i + 1)
        (exfat_vbr_add_checksum (sub buffer (i * sector_size) sector_size) sum)
  end.

(** The same loop when each sector is read on its own. *)
Fixpoint read_sectors (n : nat) (sector_size i sum : Z) : M vol (option Z) :=
  match n with
  | O => ret (Some sum)
  | S n =>
      let! r := on_part (exfat_pread sector_size (i * sector_size)) in
      match r with
      | None => on_part exfat_error;; ret None
      | Some sector => read_sectors n sector_size (i + 1) (exfat_vbr_add_checksum sector sum)
      end
  end.

Definition verify_vbr_checksum : M vol bool :=
  let! v := get_state in
  let sb := ef_sb (v_ef v) in
  let sector_size := SECTOR_SIZE sb in
  let whole := 12 * sector_size <=? CLUSTER_SIZE sb in
  let! r := on_part (exfat_pread (if whole then 12 * sector_size else sector_size) 0) in
  match r with
  | None => on_part exfat_error;; ret false
  | Some buffer =>
      let sum := exfat_vbr_start_checksum (sub buffer 0 sector_size) in
      if whole then
        let sum := add_sectors 10 buffer sector_size 1 sum in
        check_vbr_words (Z.to_nat (sector_size / 4)) 0 (sub buffer (11 * sector_size) sector_size) sum
      else
        let! sum := read_sectors 10 sector_size 1 sum in
        match sum with
        | None => ret false
        | Some sum =>
            let! r := on_part (exfat_pread sector_size (11 * sector_size)) in
            match r with
            | None => on_part exfat_error;; ret false
            | Some sector => check_vbr_words (Z.to_nat (sector_size / 4)) 0 sector sum
            end
        end
  end.

(** The super block with another state and percentage. *)
Definition set_sb_state (state percent : Z) (sb : super_block) : super_block := {|
  sb_jump := sb_jump sb; sb_oem_name := sb_oem_name sb; sb___unused1 := sb___unused1 sb;
  sb_sector_start := sb_sector_start sb; sb_sector_count := sb_sector_count sb;
  sb_fat_sector_start := sb_fat_sector_start sb; sb_fat_sector_count := sb_fat_sector_count sb;
  sb_cluster_sector_start := sb_cluster_sector_start sb; sb_cluster_count := sb_cluster_count sb;
  sb_rootdir_cluster := sb_rootdir_cluster sb; sb_volume_serial := sb_volume_serial sb;
  sb_version_minor := sb_version_minor sb; sb_version_major := sb_version_major sb;
  sb_volume_state := state; sb_sector_bits := sb_sector_bits sb; sb_spc_bits := sb_spc_bits sb;
  sb_fat_count := sb_fat_count sb; sb_drive_no := sb_drive_no sb;
  sb_allocated_percent := percent; sb___unused2 := sb___unused2 sb;
  sb_boot_signature := sb_boot_signature sb
|}.

Definition commit_super_block : M vol Z :=
  let! v := get_state in
  let! ok := on_part (exfat_pwrite (super_block_bytes (ef_sb (v_ef v))) 0) in
  if negb ok then on_part exfat_error;; ret 1
  else on_part exfat_fsync.

Definition exfat_soil_super_block : M vol Z :=
  let! v := get_state in
  if negb (ef_ro (v_ef v) =? 0) then ret 0
  else
    modify (fun v =>
      let sb := ef_sb (v_ef v) in
      set_v_ef
        (set_ef_sb (set_sb_state (Z.lor (sb_volume_state sb) EXFAT_STATE_MOUNTED) (sb_allocated_percent sb) sb)
           (v_ef v)) v);;
    commit_super_block.

(** The percentage of [finalize_super_block], in 32-bit arithmetic. *)
Definition percent_used (total free : Z) : Z :=
  u8 (u32 (u32 (u32 (total - free) * 100) + total / 2) / total).

Definition finalize_super_block : M vol unit :=
  let! v := get_state in
  if negb (ef_ro (v_ef v) =? 0) then ret tt
  else
    let ef := v_ef v in
    let sb := ef_sb ef in
    let percent :=
      if negb (sb_allocated_percent sb =? 0xff)
      then percent_used (sb_cluster_count sb) (exfat_count_free_clusters ef)
      else sb_allocated_percent sb in
    modify (set_v_ef (set_ef_sb
      (set_sb_state (Z.ldiff (sb_volume_state sb) EXFAT_STATE_MOUNTED) percent sb) ef));;
    commit_super_block;;
    ret tt.

(** *** Mounting *)

(** The loop of [rootdir_size]; the node of the state is the root.  It goes
    through the test of [clusters] at most once for each cluster and once more. *)
Fixpoint rootdir_loop (fuel : nat) (clusters rootdir_cluster : Z) : M nstate Z :=
  match fuel with
  | O => diverge
  | S fuel =>
      let! s := get_state in
      let sb := ef_sb (s_ef s) in
      if clusters =? sb_cluster_count sb then on_os exfat_error;; ret 0
      else if CLUSTER_INVALID sb rootdir_cluster then on_os exfat_error;; ret 0
      else
        let! rootdir_cluster := exfat_next_cluster rootdir_cluster in
        let clusters := clusters + 1 in
        if negb (rootdir_cluster =? EXFAT_CLUSTER_END) then rootdir_loop fuel clusters rootdir_cluster
        else ret (clusters * CLUSTER_SIZE sb)
  end.

Definition rootdir_size : M nstate Z :=
  let! s := get_state in
  let sb := ef_sb (s_ef s) in
  rootdir_loop (S (Z.to_nat (sb_cluster_count sb))) 0 (sb_rootdir_cluster sb).

Definition exfat_free : M world unit :=
  let! w := get_state in
  match w_root w with
  | Some p => modify (fun w => set_w_heap (delete p (w_heap w)) w)
  | None => ret tt
  end;;
  modify (set_w_root None);;
  on_part (S := world) (on_part (S := vol) (modify (fun ef => set_ef_cmap_chunk [] (set_ef_upcase [] ef)))).

(** [exfat_error(...); exfat_free(ef); return rc;] *)
Definition mount_fails (rc : Z) : M world Z :=
  on_world_os exfat_error;; exfat_free;; ret rc.

(** [memset(ef, 0, sizeof(struct exfat))] *)
Definition zero_exfat (sb : super_block) : exfat := {|
  ef_sb := sb; ef_upcase := []; ef_cmap_start_cluster := 0; ef_cmap_size := 0;
  ef_cmap_chunk := []; ef_cmap_chunk_size := 0; ef_cmap_dirty := false;
  ef_label := zrepeat 0 EXFAT_UTF8_ENAME_BUFFER_MAX; ef_dmask := 0; ef_fmask := 0; ef_uid := 0;
  ef_gid := 0; ef_ro := 0; ef_noatime := false; ef_repair := EXFAT_REPAIR_NO
|}.

(** "EXFAT   " *)
Definition oem_name : list Z := [0x45; 0x58; 0x46; 0x41; 0x54; 0x20; 0x20; 0x20].

(** The root node before its size is known. *)
Definition root_node (sb : super_block) : exfat_node :=
  set_n_fptr_cluster (sb_rootdir_cluster sb)
    (set_n_start_cluster (sb_rootdir_cluster sb) (set_n_attrib EXFAT_ATTRIB_DIR zero_node)).

(** The part of [exfat_mount] from the allocation of the root node on. *)
Definition mount_root : M world Z :=
  let! ok := on_world_os malloc_ok in
  if negb ok then mount_fails (- ENOMEM)
  else
    let! w := get_state in
    let! root := new_ptr (root_node (ef_sb (w_ef w))) in
    modify (set_w_root (Some root));;
    let root := Some root in
    let! size := with_node root rootdir_size in
    assign root (fun n => set_n_valid_size size (set_n_size size n));;
    if size =? 0 then exfat_free;; ret (- EIO)
    else
      exfat_get_node root;;
      let error : M world Z :=
        exfat_put_node root;; exfat_reset_cache;; exfat_free;; ret (- EIO) in
      let! rc := exfat_cache_directory root in
      if negb (rc =? 0) then error
      else
        let! w := get_state in
        if bool_decide (ef_upcase (w_ef w) = []) then on_world_os exfat_error;; error
        else if bool_decide (ef_cmap_chunk (w_ef w) = []) then on_world_os exfat_error;; error
        else ret 0.

(** The checks of the super block, in the order of the code: the code of the first
    one that fails. *)
Definition mount_checks : M world Z :=
  let! w := get_state in
  let sb := ef_sb (w_ef w) in
  if negb (bool_decide (sb_oem_name sb = oem_name)) then mount_fails (- EIO)
  else if sb_sector_bits sb <? 9 then mount_fails (- EIO)
  else if 25 <? sb_sector_bits sb + sb_spc_bits sb then mount_fails (- EIO)
  else
    let! ok := on_world_os malloc_ok in
    if negb ok then mount_fails (- ENOMEM)
    else
      let! ok := on_part (S := world) verify_vbr_checksum in
      if negb ok then exfat_free;; ret (- EIO)
      else if negb (sb_version_major sb =? 1) || negb (sb_version_minor sb =? 0) then mount_fails (- EIO)
      else if negb (sb_fat_count sb =? 1) then mount_fails (- EIO)
      else
        let! w := get_state in
        if os_size (v_os (w_vol w)) <? sb_cluster_count sb * CLUSTER_SIZE sb then mount_fails (- EIO)
        else ret 0.

Definition exfat_mount (o : open_answers) (euid egid : Z) (options : list Z) : M world Z :=
  modify (set_w_root None);;
  on_part (S := world) (on_part (S := vol) (modify (fun ef => parse_options euid egid options (zero_exfat (ef_sb ef)))));;
  let mode :=
    if exfat_match_option options opt_ro then EXFAT_MODE_RO
    else if exfat_match_option options opt_ro_fallback then EXFAT_MODE_ANY
    else EXFAT_MODE_RW in
  let! ok := on_world_os (exfat_open o mode) in
  if negb ok then ret (- ENODEV)
  else
    let! w := get_state in
    (if bool_decide (os_mode (v_os (w_vol w)) = EXFAT_MODE_RO) then
       on_part (S := world) (on_part (S := vol)
         (modify (set_ef_ro (if bool_decide (mode = EXFAT_MODE_ANY) then -1 else 1))))
     else ret tt);;
    let! ok := on_world_os malloc_ok in
    if negb ok then mount_fails (- ENOMEM)
    else
      let! r := on_world_os (exfat_pread 512 0) in
      match r with
      | None => mount_fails (- EIO)
      | Some bytes =>
          on_part (S := world) (on_part (S := vol) (modify (set_ef_sb (super_block_of bytes))));;
          and_then mount_checks mount_root
      end.

Definition exfat_unmount : M world unit :=
  exfat_flush_nodes;;
  on_part (S := world) exfat_flush;;
  let! w := get_state in
  exfat_put_node (w_root w);;
  exfat_reset_cache;;
  on_part (S := world) finalize_super_block;;
  exfat_free.
End Mount.
