(* ===== verification/MountSpec.v ===== *)
(** * MountSpec: the checks of mounting (libexfat/mount.c)

    The boot record is accepted exactly when its last sector repeats the checksum of
    the eleven before it, whether the twelve sectors are read at once or one by one. *)

From Stdlib Require Import ZArith Lia.
From stdpp Require Import base numbers list gmap.
From S2P Require Import Prelude Bytes Monad Ondisk State Checksum Utf Bitmap Geometry Cluster FileIO Utils ExfatTime Entries NodeTree Mount.

#[local] Open Scope Z_scope.

Section Vbr.
Context `{Platform}.

(** The checksum of the sectors [i] to [i + n - 1] of a medium, from [sum] on. *)
Fixpoint sum_sectors (n : nat) (m : mem) (ss i sum : Z) : Z :=
  match n with
  | O => sum
  | S n => sum_sectors n m ss (i + 1) (exfat_vbr_add_checksum (mread m (i * ss) ss) sum)
  end.

(** The checksum of the boot record of a medium. *)
Definition vbr_sum (m : mem) (ss : Z) : Z :=
  sum_sectors 10 m ss 1 (exfat_vbr_start_checksum (mread m 0 ss)).

Definition v_sb (v : vol) : super_block := ef_sb (v_ef v).
Definition v_medium (v : vol) : mem := os_medium (v_os v).

(** A device whose reads succeed. *)
Definition reads_ok (v : vol) : Prop := forall o n, os_rfail (v_os v) o n = false.

Lemma add_sectors_spec m ss total n : 0 <= ss -> forall i sum, 0 <= i -> (i + Z.of_nat n) * ss <= total ->
  add_sectors n (mread m 0 total) ss i sum = sum_sectors n m ss i sum.
Proof.
  intros Hss. induction n as [| n IH]; intros i sum Hi Hend; cbn [add_sectors sum_sectors]; [done |].
  rewrite mread_sub by nia. rewrite Z.add_0_l. apply IH; [lia | nia].
Qed.

Lemma pread_ok v size off : reads_ok v ->
  on_part (S := vol) (exfat_pread size off) v = Ok (Some (mread (v_medium v) off size)) v.
Proof.
  intros Hr. specialize (Hr off size). unfold on_part, exfat_pread, gets. cbn. rewrite Hr. by destruct v.
Qed.

Lemma read_sectors_spec v ss n : reads_ok v -> forall i sum,
  read_sectors n ss i sum v = Ok (Some (sum_sectors n (v_medium v) ss i sum)) v.
Proof.
  intros Hr. induction n as [| n IH]; intros i sum; cbn [read_sectors sum_sectors]; [done |].
  rewrite (bind_ok _ _ _ _ _ (pread_ok v _ _ Hr)). apply IH.
Qed.

(** Both ways to read the boot record come to the same. *)
Lemma verify_vbr_unfold v : reads_ok v -> 0 <= SECTOR_SIZE (v_sb v) ->
  verify_vbr_checksum v =
  check_vbr_words (Z.to_nat (SECTOR_SIZE (v_sb v) / 4)) 0
    (mread (v_medium v) (11 * SECTOR_SIZE (v_sb v)) (SECTOR_SIZE (v_sb v)))
    (vbr_sum (v_medium v) (SECTOR_SIZE (v_sb v))) v.
Proof.
  intros Hr Hss. unfold verify_vbr_checksum. rewrite (bind_ok _ _ v v v) by done. fold (v_sb v).
  set (ss := SECTOR_SIZE (v_sb v)) in *. rewrite (bind_ok _ _ _ _ _ (pread_ok v _ _ Hr)).
  destruct (12 * ss <=? CLUSTER_SIZE (v_sb v)).
  - rewrite !mread_sub by lia. rewrite add_sectors_spec by lia. done.
  - rewrite mread_sub by lia. rewrite (bind_ok _ _ _ _ _ (read_sectors_spec v ss 10 Hr 1 _)).
    by rewrite (bind_ok _ _ _ _ _ (pread_ok v _ _ Hr)).
Qed.

(** The words of the last sector, when nothing is repaired. *)
Lemma check_words_spec n sector sum : forall i v, ef_repair (v_ef v) = EXFAT_REPAIR_NO ->
  (exists v', check_vbr_words n i sector sum v = Ok
     (forallb (fun k => le_val (sub sector (4 * k) 4) =? sum) (zseq i (Z.of_nat n))) v' /\
     (forallb (fun k => le_val (sub sector (4 * k) 4) =? sum) (zseq i (Z.of_nat n)) = true -> v' = v)).
Proof.
  induction n as [| n IH]; intros i v Hrep; cbn [check_vbr_words].
  { exists v. done. }
  rewrite zseq_cons by lia. cbn [forallb]. replace (Z.of_nat (S n) - 1) with (Z.of_nat n) by lia.
  destruct (Z.eqb_spec (le_val (sub sector (4 * i) 4)) sum) as [E | E]; cbn [negb andb]; [by apply IH |].
  exists (set_v_os (set_os_errors (os_errors (v_os v) + 1) (v_os v)) v). split; [| by intros ?].
  unfold bind, on_part, exfat_error, modify, exfat_ask_to_fix, get_state. cbn. rewrite Hrep. done.
Qed.
End Vbr.

(** C34: On a device whose reads succeed, and without repairs, [verify_vbr_checksum]
    accepts the boot record exactly when every word of the twelfth sector is the
    checksum of the eleven sectors before it; it does so whether a cluster can hold the
    twelve sectors, which are then read at once, or not, and it changes nothing. *)
Theorem verify_vbr_checksum_iff `{Platform} v (Hreads : reads_ok v) (Hss : 0 < SECTOR_SIZE (v_sb v))
  (Hrepair : ef_repair (v_ef v) = EXFAT_REPAIR_NO) :
  exists ok v', verify_vbr_checksum v = Ok ok v' /\ (ok = true -> v' = v) /\
    (ok = true <-> forall k, 0 <= k < SECTOR_SIZE (v_sb v) / 4 ->
       le_val (mread (v_medium v) (11 * SECTOR_SIZE (v_sb v) + 4 * k) 4) =
       vbr_sum (v_medium v) (SECTOR_SIZE (v_sb v))).
Proof.
  rewrite (verify_vbr_unfold v Hreads) by lia. set (ss := SECTOR_SIZE (v_sb v)) in *.
  pose proof (Z.div_pos ss 4 ltac:(lia) ltac:(lia)) as Hdiv. pose proof (Z.mul_div_le ss 4 ltac:(lia)).
  destruct (check_words_spec (Z.to_nat (ss / 4)) (mread (v_medium v) (11 * ss) ss) (vbr_sum (v_medium v) ss) 0 v Hrepair)
    as (v' & E & Hv). exists (forallb (fun k => le_val (sub (mread (v_medium v) (11 * ss) ss) (4 * k) 4) =?
      vbr_sum (v_medium v) ss) (zseq 0 (Z.of_nat (Z.to_nat (ss / 4))))), v'.
  rewrite Z2Nat.id in * by lia. split; [done |]. split; [done |]. rewrite forallb_forall. split.
  - intros Ha k Hk. specialize (Ha k ltac:(apply list_elem_of_In, elem_of_zseq; lia)). apply Z.eqb_eq in Ha.
    by rewrite mread_sub in Ha by lia.
  - intros Ha k Hk%list_elem_of_In%elem_of_zseq. apply Z.eqb_eq. rewrite mread_sub by lia. apply Ha. lia.
Qed.

(** ** The state of the volume *)

(** The values of [w] bits are those that a mask keeps. *)
Lemma in_u_ones w x : 0 <= w -> in_u w x <-> Z.land x (Z.ones w) = x.
Proof.
  intros Hw. rewrite Z.land_ones by done. pose proof (Z.pow_pos_nonneg 2 w ltac:(lia) Hw). unfold in_u. split.
  - apply Z.mod_small.
  - intros <-. by apply Z.mod_pos_bound.
Qed.

Lemma in_u_lor w x y : 0 <= w -> in_u w x -> in_u w y -> in_u w (Z.lor x y).
Proof. intros Hw Hx Hy. apply in_u_ones in Hx, Hy; [| done ..]. apply in_u_ones; [done |]. by rewrite Z.land_lor_distr_l, Hx, Hy. Qed.

Lemma in_u_ldiff w x y : 0 <= w -> in_u w x -> in_u w (Z.ldiff x y).
Proof.
  intros Hw Hx. apply in_u_ones in Hx; [| done]. apply in_u_ones; [done |]. rewrite <- Hx at 2. rewrite !Z.ldiff_land.
  rewrite <- !Z.land_assoc. f_equal. apply Z.land_comm.
Qed.

Section SuperBlock.
Context `{Platform}.

(** The state and the percentage in the bytes of a super block. *)
Lemma super_block_split sb : super_block_ok sb -> exists a b c, zlen a = 0x6a /\ zlen b = 4 /\
  forall st pc, super_block_bytes (set_sb_state st pc sb) = a ++ le_bytes 2 st ++ b ++ le_bytes 1 pc ++ c.
Proof.
  intros Hok. unfold super_block_ok in Hok. destruct_and!.
  exists (sb_jump sb ++ sb_oem_name sb ++ sb___unused1 sb ++ le_bytes 8 (sb_sector_start sb) ++
    le_bytes 8 (sb_sector_count sb) ++ le_bytes 4 (sb_fat_sector_start sb) ++ le_bytes 4 (sb_fat_sector_count sb) ++
    le_bytes 4 (sb_cluster_sector_start sb) ++ le_bytes 4 (sb_cluster_count sb) ++
    le_bytes 4 (sb_rootdir_cluster sb) ++ le_bytes 4 (sb_volume_serial sb) ++
    le_bytes 1 (sb_version_minor sb) ++ le_bytes 1 (sb_version_major sb)),
    (le_bytes 1 (sb_sector_bits sb) ++ le_bytes 1 (sb_spc_bits sb) ++ le_bytes 1 (sb_fat_count sb) ++
     le_bytes 1 (sb_drive_no sb)),
    (sb___unused2 sb ++ le_bytes 2 (sb_boot_signature sb)).
  split; [rewrite ?zlen_app, ?zlen_le_bytes; lia |]. split; [rewrite ?zlen_app, ?zlen_le_bytes; lia |].
  intros st pc. unfold super_block_bytes, set_sb_state. cbn -[le_bytes].
  by rewrite <- !app_assoc.
Qed.

Lemma set_sb_state_same sb : set_sb_state (sb_volume_state sb) (sb_allocated_percent sb) sb = sb.
Proof. by destruct sb. Qed.

(** Another state changes no other byte. *)
Lemma super_block_state_bytes sb st pc j : super_block_ok sb -> 0 <= j -> vbr_keep j = true ->
  znth (super_block_bytes (set_sb_state st pc sb)) j = znth (super_block_bytes sb) j.
Proof.
  intros Hok Hj Hk. destruct (super_block_split sb Hok) as (a & b & c & Ha & Hb & E).
  rewrite E. rewrite <- (set_sb_state_same sb) at 1. rewrite E.
  assert (Hjj : j <> 0x6a /\ j <> 0x6b /\ j <> 0x70).
  { unfold vbr_keep in Hk. destruct (Z.eqb_spec j 0x6a), (Z.eqb_spec j 0x6b), (Z.eqb_spec j 0x70); done. }
  destruct (Z.lt_ge_cases j 0x6a); [by rewrite !znth_app_l by lia |].
  rewrite !(znth_app_r a) by lia. rewrite !(znth_app_r (le_bytes 2 _)) by (rewrite zlen_le_bytes; lia).
  rewrite !zlen_le_bytes. destruct (Z.lt_ge_cases j 0x70); [by rewrite !znth_app_l by lia |].
  rewrite !(znth_app_r b) by lia. by rewrite !(znth_app_r (le_bytes 1 _)), !zlen_le_bytes by (rewrite zlen_le_bytes; lia).
Qed.

Lemma zlen_set_sb_state sb st pc : super_block_ok sb -> zlen (super_block_bytes (set_sb_state st pc sb)) = 512.
Proof.
  intros Hok. rewrite <- (zlen_super_block_bytes sb Hok).
  destruct (super_block_split sb Hok) as (a & b & c & Ha & Hb & E). rewrite E.
  rewrite <- (set_sb_state_same sb) at 1. rewrite E. by rewrite !zlen_app, !zlen_le_bytes.
Qed.

Lemma sum_sectors_ext n m m' ss : 0 < ss -> forall i sum, 1 <= i ->
  (forall a, ss <= a -> m' a = m a) -> sum_sectors n m' ss i sum = sum_sectors n m ss i sum.
Proof.
  intros Hss. induction n as [| n IH]; intros i sum Hi Hm; cbn [sum_sectors]; [done |].
  rewrite (mread_ext m' m) by (intros a Ha; apply Hm; nia). apply IH; [lia | done].
Qed.

(** Writing another state over the super block keeps the checksum. *)
Lemma vbr_sum_state m sb st pc ss : super_block_ok sb -> 512 <= ss -> mread m 0 512 = super_block_bytes sb ->
  vbr_sum (mwrite m 0 (super_block_bytes (set_sb_state st pc sb))) ss = vbr_sum m ss.
Proof.
  intros Hok Hss Hm. pose proof (zlen_set_sb_state sb st pc Hok) as Hl. unfold vbr_sum.
  rewrite (sum_sectors_ext 10 m) by (try lia; intros a Ha; apply mwrite_out; lia). f_equal.
  unfold exfat_vbr_start_checksum. rewrite !vbr_start_loop_kept. f_equal.
  pose proof (zlen_mread m 0 ss ltac:(lia)) as L1. set (m' := mwrite _ _ _).
  pose proof (zlen_mread m' 0 ss ltac:(lia)) as L2. apply kept_ext; [unfold zlen in *; lia |].
  intros j Hj Hk. rewrite L2 in Hj. rewrite !znth_mread, Z.add_0_l by lia. unfold m'.
  destruct (Z.lt_ge_cases j 512) as [Hlt | Hge]; [| by rewrite mwrite_out by lia].
  rewrite mwrite_in, Z.sub_0_r by lia. rewrite super_block_state_bytes by (done || lia).
  rewrite <- Hm, znth_mread by lia. f_equal.
Qed.

(** The super block of a volume and the medium agree. *)
Record boot_ok (v : vol) : Prop := {
  bo_sb : super_block_ok (v_sb v);
  bo_sector : 512 <= SECTOR_SIZE (v_sb v);
  bo_medium : mread (v_medium v) 0 512 = super_block_bytes (v_sb v)
}.

(** Go to another state: the super block, and the state of [v] after it is written. *)
Definition with_state (st pc : Z) (v : vol) : vol :=
  let sb := set_sb_state st pc (v_sb v) in
  set_v_os (set_os_medium (mwrite (v_medium v) 0 (super_block_bytes sb)) (v_os v)) (set_v_ef (set_ef_sb sb (v_ef v)) v).

Lemma commit_spec st pc v : os_wfail (v_os v) 0 512 = false -> os_fsync_fails (v_os v) = false -> super_block_ok (v_sb v) ->
  commit_super_block (set_v_ef (set_ef_sb (set_sb_state st pc (v_sb v)) (v_ef v)) v) = Ok 0 (with_state st pc v).
Proof.
  intros Hw Hf Hok. unfold commit_super_block.
  pose proof (zlen_set_sb_state (v_sb v) st pc Hok) as Hl.
  unfold get_state, bind, on_part, exfat_pwrite. cbn -[super_block_bytes]. rewrite Hl, Hw. cbn -[super_block_bytes]. unfold exfat_fsync, bind, get_state. cbn. rewrite Hf. done.
Qed.

Lemma boot_ok_state st pc v : boot_ok v -> in_u 16 st -> in_u 8 pc ->
  boot_ok (with_state st pc v) /\
  vbr_sum (v_medium (with_state st pc v)) (SECTOR_SIZE (v_sb v)) = vbr_sum (v_medium v) (SECTOR_SIZE (v_sb v)).
Proof.
  intros [Hok Hss Hm] Hst Hpc. pose proof (zlen_set_sb_state (v_sb v) st pc Hok) as Hl. split.
  - split; [| done |].
    + unfold with_state, v_sb, super_block_ok in *. cbn in *. tauto.
    + unfold with_state, v_medium. cbn -[mread mwrite super_block_bytes]. rewrite <- Hl. apply mread_mwrite_same.
  - unfold with_state, v_medium. cbn -[vbr_sum mwrite super_block_bytes]. by apply vbr_sum_state.
Qed.
End SuperBlock.

(** C35: Marking a volume as mounted, and unmounting it, keep the boot checksum valid:
    [exfat_soil_super_block] sets the state bit on the medium and
    [finalize_super_block] clears it and stores the percentage; the super block on the
    medium stays the one in memory and the checksum that [verify_vbr_checksum] computes
    does not change, so neither has to be followed by a write of the twelfth sector. *)
Theorem super_block_state_commits `{Platform} v (Hb : boot_ok v) (Hro : ef_ro (v_ef v) = 0)
  (Hw : os_wfail (v_os v) 0 512 = false) (Hf : os_fsync_fails (v_os v) = false) :
  (exists v', exfat_soil_super_block v = Ok 0 v' /\ boot_ok v' /\
     sb_volume_state (v_sb v') = Z.lor (sb_volume_state (v_sb v)) EXFAT_STATE_MOUNTED /\
     vbr_sum (v_medium v') (SECTOR_SIZE (v_sb v)) = vbr_sum (v_medium v) (SECTOR_SIZE (v_sb v))) /\
  (exists v', finalize_super_block v = Ok tt v' /\ boot_ok v' /\
     sb_volume_state (v_sb v') = Z.ldiff (sb_volume_state (v_sb v)) EXFAT_STATE_MOUNTED /\
     sb_allocated_percent (v_sb v') =
       (if sb_allocated_percent (v_sb v) =? 0xff then 0xff
        else percent_used (sb_cluster_count (v_sb v)) (exfat_count_free_clusters (v_ef v))) /\
     vbr_sum (v_medium v') (SECTOR_SIZE (v_sb v)) = vbr_sum (v_medium v) (SECTOR_SIZE (v_sb v))).
Proof.
  pose proof (bo_sb v Hb) as Hok. assert (Hst : in_u 16 (sb_volume_state (v_sb v)) /\ in_u 8 (sb_allocated_percent (v_sb v))).
  { unfold super_block_ok in Hok. tauto. }
  destruct Hst as [Hst Hpc].
  assert (Hlor : in_u 16 (Z.lor (sb_volume_state (v_sb v)) EXFAT_STATE_MOUNTED)).
  { by apply in_u_lor; [| | vm_compute]. }
  assert (Hldiff : in_u 16 (Z.ldiff (sb_volume_state (v_sb v)) EXFAT_STATE_MOUNTED)) by by apply in_u_ldiff.
  split.
  - destruct (boot_ok_state (Z.lor (sb_volume_state (v_sb v)) EXFAT_STATE_MOUNTED) (sb_allocated_percent (v_sb v)) v
      Hb Hlor Hpc) as [Hb' Hs'].
    eexists. split; [| by split_and!]. unfold exfat_soil_super_block. rewrite (bind_ok _ _ v v v) by done.
    rewrite Hro. cbn [Z.eqb negb]. by apply commit_spec.
  - set (pc := if sb_allocated_percent (v_sb v) =? 0xff then 0xff
      else percent_used (sb_cluster_count (v_sb v)) (exfat_count_free_clusters (v_ef v))).
    assert (Hpc' : in_u 8 pc) by (unfold pc; destruct (_ =? _); [by vm_compute | apply u8_range]).
    destruct (boot_ok_state (Z.ldiff (sb_volume_state (v_sb v)) EXFAT_STATE_MOUNTED) pc v Hb Hldiff Hpc') as [Hb' Hs'].
    eexists. split; [| by split_and!]. unfold finalize_super_block. rewrite (bind_ok _ _ v v v) by done.
    rewrite Hro. cbn [Z.eqb negb].
    assert (Epc : (if negb (sb_allocated_percent (v_sb v) =? 0xff)
      then percent_used (sb_cluster_count (v_sb v)) (exfat_count_free_clusters (v_ef v))
      else sb_allocated_percent (v_sb v)) = pc).
    { unfold pc. by destruct (Z.eqb_spec (sb_allocated_percent (v_sb v)) 0xff) as [-> |]. }
    unfold v_sb in Epc. rewrite Epc.
    unfold bind at 1, modify. by rewrite (bind_ok _ _ _ _ _ (commit_spec _ pc v Hw Hf Hok)).
Qed.

(** The percentage of used clusters is rounded to the nearest integer, and is at
    most 100, as long as the used clusters fit the 32-bit arithmetic: up to 21 million
    used clusters whatever the size of the volume.  Beyond that it can be anything: a
    full volume of 43 million clusters is recorded as empty. *)
Theorem percent_used_rounds total free (Ht : 0 < total < 2 ^ 32) (Hf : 0 <= free <= total)
  (Hfits : (total - free) * 100 + total / 2 < 2 ^ 32) :
  100 * (total - free) - total / 2 - 1 < percent_used total free * total <= 100 * (total - free) + total / 2 /\
  0 <= percent_used total free <= 100 /\ percent_used 43000000 0 = 0.
Proof.
  pose proof (Z.div_pos total 2 ltac:(lia) ltac:(lia)). pose proof (Z.div_mod total 2 ltac:(lia)) as Hdm.
  pose proof (Z.mod_pos_bound total 2 ltac:(lia)).
  assert (Hlt : (total - free) * 100 < 2 ^ 32) by lia.
  unfold percent_used. rewrite (u32_small (total - free)), (u32_small ((total - free) * 100)), u32_small by (unfold in_u; lia).
  set (n := (total - free) * 100 + total / 2) in *.
  assert (Hq : 0 <= n / total <= 100).
  { split; [apply Z.div_pos; unfold n; lia |]. apply Z.lt_succ_r. apply Z.div_lt_upper_bound; unfold n; lia. }
  rewrite u8_small by (unfold in_u; lia). pose proof (Z.div_mod n total ltac:(lia)).
  pose proof (Z.mod_pos_bound n total ltac:(lia)). split; [unfold n in *; nia | split; [done | by vm_compute]].
Qed.

(** ** A volume with a boot record *)

#[local] Existing Instance word_le64.

Definition demo_boot_vol : vol :=
  set_v_os (set_os_medium (mwrite (fun _ => 0) 0 (super_block_bytes demo_sb)) demo_os) demo_vol.

Lemma demo_boot_ok : boot_ok demo_boot_vol.
Proof.
  split; [| by vm_compute | by vm_compute]. unfold super_block_ok, bytes_ok.
  split_and!; try (by vm_compute); refine (bool_decide_unpack _ _); by vm_compute.
Qed.

Lemma verify_vbr_checksum_iff_witness :
  exists ok v', verify_vbr_checksum demo_boot_vol = Ok ok v' /\ (ok = true -> v' = demo_boot_vol) /\
    (ok = true <-> forall k, 0 <= k < SECTOR_SIZE demo_sb / 4 ->
       le_val (mread (v_medium demo_boot_vol) (11 * SECTOR_SIZE demo_sb + 4 * k) 4) =
       vbr_sum (v_medium demo_boot_vol) (SECTOR_SIZE demo_sb)).
Proof. apply (verify_vbr_checksum_iff demo_boot_vol); [intros o n | |]; by vm_compute. Defined.

Lemma super_block_state_commits_witness :
  (exists v', exfat_soil_super_block demo_boot_vol = Ok 0 v' /\ boot_ok v' /\
     sb_volume_state (v_sb v') = Z.lor (sb_volume_state demo_sb) EXFAT_STATE_MOUNTED /\
     vbr_sum (v_medium v') (SECTOR_SIZE demo_sb) = vbr_sum (v_medium demo_boot_vol) (SECTOR_SIZE demo_sb)) /\
  (exists v', finalize_super_block demo_boot_vol = Ok tt v' /\ boot_ok v' /\
     sb_volume_state (v_sb v') = Z.ldiff (sb_volume_state demo_sb) EXFAT_STATE_MOUNTED /\
     sb_allocated_percent (v_sb v') =
       (if sb_allocated_percent demo_sb =? 0xff then 0xff
        else percent_used (sb_cluster_count demo_sb) (exfat_count_free_clusters (v_ef demo_boot_vol))) /\
     vbr_sum (v_medium v') (SECTOR_SIZE demo_sb) = vbr_sum (v_medium demo_boot_vol) (SECTOR_SIZE demo_sb)).
Proof. apply (super_block_state_commits demo_boot_vol); [apply demo_boot_ok | done | done | done]. Defined.

Lemma percent_used_rounds_witness :
  100 * (1000 - 5) - 1000 / 2 - 1 < percent_used 1000 5 * 1000 <= 100 * (1000 - 5) + 1000 / 2 /\
  0 <= percent_used 1000 5 <= 100 /\ percent_used 43000000 0 = 0.
Proof. apply (percent_used_rounds 1000 5); vm_compute; split; congruence || done. Defined.
