(* ===== verification/MountSafe.v ===== *)
(** * MountSafe: mounting and unmounting are safe (libexfat/mount.c, node.c)

    Whatever the medium holds and whichever request fails, mounting ends with a tree of
    nodes whose root has one reference, or with an error and without a root; unmounting
    a tree frees all of it. *)

From Stdlib Require Import ZArith Lia.
From stdpp Require Import base numbers list gmap.
From S2P Require Import Prelude Bytes Monad Ondisk State Checksum Utf Bitmap Geometry Cluster FileIO Utils ExfatTime Entries EntriesSpec DirTerm NodeTerm NodeTree TreeSpec TreeReset Lookup LookupSpec TreeSafe TreeMove Dir DirSafe Mount.

#[local] Open Scope Z_scope.

Section MountSafe.
Context `{Platform}.

(** ** Forgetting the tree *)

(** There are no other nodes than before, and they have the same parents. *)
Definition inherits (h h' : heap) : Prop :=
  forall q n', h' !! q = Some n' -> exists n, h !! q = Some n /\ n_parent n' = n_parent n.

#[global] Instance inherits_preorder : PreOrder inherits.
Proof.
  split; [intros h q n; eauto |]. intros h1 h2 h3 A B q n3 H3. destruct (B q n3 H3) as (n2 & H2 & E2).
  destruct (A q n2 H2) as (n1 & H1 & E1). exists n1. split; congruence.
Qed.

(** Nodes may be gone, but none of the way up from [d]. *)
Record pruned (d : ptr) (l : list ptr) (w w' : world) : Prop := {
  pr_forest : forest w';
  pr_root : w_root w' = w_root w;
  pr_vol : w_vol w' = w_vol w;
  pr_size : (size (w_heap w') <= size (w_heap w))%nat;
  pr_way : ancestry (w_heap w') d l;
  pr_refs : forall q, q ∈ l -> q <> d -> refs w' q = refs w q;
  pr_old : inherits (w_heap w) (w_heap w')
}.

Lemma heap_ext w w' : w_vol w' = w_vol w -> w_root w' = w_root w -> w_fresh w' = w_fresh w ->
  (forall q, w_heap w' !! q = w_heap w !! q) -> w' = w.
Proof. destruct w, w'. cbn. intros -> -> -> E%map_eq. by rewrite E. Qed.

Lemma bump_bump p a b w : bump p a (bump p b w) = bump p (b + a) w.
Proof.
  apply heap_ext; try done. intros q. rewrite !bump_lookup. destruct (decide (q = p)); [| done].
  destruct (w_heap w !! q) as [[] |]; [| done]. unfold add_refs. cbn. by rewrite Z.add_assoc.
Qed.

Lemma bump_zero p w : bump p 0 w = w.
Proof.
  apply heap_ext; try done. intros q. rewrite bump_lookup. destruct (decide (q = p)); [| done].
  destruct (w_heap w !! q) as [[] |]; [| done]. unfold add_refs. cbn. by rewrite Z.add_0_r.
Qed.

Lemma refs_bump p k w : is_Some (w_heap w !! p) -> refs (bump p k w) p = refs w p + k.
Proof. intros [n Hn]. unfold refs. by rewrite bump_lookup, decide_True, Hn by done. Qed.

Lemma put_all_wpt k : forall w p, is_Some (w_heap w !! p) -> 0 <= refs w p <= Z.of_nat k ->
  wpt (put_all (S k) (Some p)) (fun _ w' => w' = bump p (- refs w p) w) w.
Proof.
  induction k as [| k IH]; intros w p [n Hn] Hk.
  all: change (put_all (S ?k) ?p) with (let! n := deref p in if n_references n =? 0 then ret tt else exfat_put_node p;; put_all k p).
  all: apply wpt_bind, (wpt_deref _ _ _ _ Hn); assert (E : refs w p = n_references n) by (unfold refs; by rewrite Hn).
  all: destruct (Z.eqb_spec (n_references n) 0) as [E0 | E0]; [apply wpt_ret; by rewrite E, E0, bump_zero |].
  { lia. }
  apply wpt_bind, wpt_put_node; [by exists n |]. intros _. eapply wpt_mono; [apply IH |].
  - exists (add_refs (-1) n). by rewrite bump_lookup, decide_True, Hn by done.
  - rewrite refs_bump by (by exists n). lia.
  - intros _ w' ->. rewrite bump_bump, refs_bump by (by exists n). f_equal. lia.
Qed.

(** Free a node that is forgotten, the child [p] of [d]. *)
Lemma drop_child w p d l n : forest w -> ancestry (w_heap w) p (p :: d :: l) -> w_heap w !! p = Some n ->
  n_child n = None -> n_references n = 0 ->
  wpt (tree_detach (Some p);; free (Some p)) (fun _ w' => pruned d (d :: l) w w' /\
    (size (w_heap w') < size (w_heap w))%nat /\ refs w' d = refs w d) w.
Proof.
  intros Hf Ha Hn Hc Hr. assert (Hd : n_parent n = Some d /\ ancestry (w_heap w) d (d :: l) /\ p ∉ d :: l).
  { inversion Ha as [? n' Hn' Hp' | ? n' d' l' Hn' Hp' Ha' Hal']; subst. destruct (ancestry_nodup _ _ _ Ha') as (_ & _ & l0 & E).
    split_and!; [congruence.. | done]. }
  destruct Hd as (Hd & Had & Hpl). destruct (detach_after w p n d Hf Hn Hd) as (h1 & E1 & A1 & Dom1 & n1 & Hn1 & S1 & C1 & P1 & V1 & X1).
  unfold wpt, bind. rewrite E1. unfold free, bind. rewrite (deref_ok p n1) by done. cbn [modify].
  set (w1 := set_w_heap h1 w) in *. pose proof (af_forest _ _ _ _ A1) as Hf1.
  assert (A2 : after {[p]} (fun _ => 0) w1 (set_w_heap (delete p h1) w1)).
  { eapply (free_after w1 p n1); [done | done | done | congruence | |].
    - apply (f_equal n_references) in S1. cbn in S1. congruence.
    - rewrite (af_root _ _ _ _ A1). by eapply root_parentless. }
  assert (A12 : after {[p]} (fun _ => 0) w (set_w_heap (delete p h1) w1)) by (eapply after_trans; [exact A1 | exact A2 | done..]).
  assert (Hsz : size h1 = size (w_heap w)) by by rewrite <- !size_dom, Dom1.
  assert (Hsz2 : size (w_heap w) = S (size (delete p h1))).
  { rewrite <- Hsz, map_size_delete, Hn1. pose proof (map_size_ne_0_lookup_2 h1 p ltac:(eauto)) as Hne.
    destruct (size h1); [done | reflexivity]. }
  assert (Hlt : (size (delete p h1) < size (w_heap w))%nat) by (rewrite Hsz2; apply Nat.lt_succ_diag_r).
  split_and!; [split | exact Hlt | rewrite (af_refs _ _ _ _ A12); lia].
  - by apply A12.
  - by apply A12.
  - done.
  - by apply Nat.lt_le_incl.
  - eapply ancestry_parents; [| exact Had]. intros q m Hq Hm. destruct (af_node _ _ _ _ A12 q m Hm) as (m' & ? & ? & _); [set_solver |].
    by exists m'.
  - intros q _ _. rewrite (af_refs _ _ _ _ A12). lia.
  - intros q n' Hq'. change (delete p h1 !! q = Some n') in Hq'. apply lookup_delete_Some in Hq' as [Hqp Hq]. assert (Hqw : is_Some (w_heap w !! q)) by (apply elem_of_dom; rewrite <- Dom1; apply elem_of_dom; eauto).
    destruct Hqw as [m Hm]. exists m. split; [done |]. destruct (af_node _ _ _ _ A1 q m Hm) as (m' & Hm' & E & _); [set_solver |].
    cbn in Hm'. congruence.
Qed.

Lemma pruned_trans p d l w1 w2 w3 : pruned p (p :: d :: l) w1 w2 -> pruned d (d :: l) w2 w3 -> p ∉ d :: l ->
  refs w3 d = refs w2 d -> pruned d (d :: l) w1 w3 /\ refs w3 d = refs w1 d.
Proof.
  intros [A1 A2 A3 A4 A5 A6 A7] [B1 B2 B3 B4 B5 B6 B7] Hp Hd. apply not_elem_of_cons in Hp as [Hpd Hpl].
  assert (Hr : forall q, q ∈ d :: l -> refs w2 q = refs w1 q).
  { intros q Hq. apply A6; [set_solver |]. apply elem_of_cons in Hq as [-> | Hq]; [done |]. by intros ->. }
  split; [split | rewrite Hd; apply Hr; left]; try done; [congruence.. | lia | | by etrans].
  intros q Hq Hqd. rewrite B6 by done. by apply Hr.
Qed.

Lemma pruned_step d l w1 w2 w3 : pruned d l w1 w2 -> pruned d l w2 w3 -> pruned d l w1 w3.
Proof.
  intros [A1 A2 A3 A4 A5 A6 A7] [B1 B2 B3 B4 B5 B6 B7]. split; try done; [congruence.. | by etrans | | by etrans].
  intros q Hq Hqd. by rewrite B6, A6.
Qed.

(** The node is forgotten when it has no children and no references. *)
Definition forgotten (d : ptr) (w : world) : Prop :=
  exists n, w_heap w !! d = Some n /\ n_child n = None /\ n_references n = 0.

Lemma give_back w d l n : forest w -> ancestry (w_heap w) d l -> w_heap w !! d = Some n -> n_child n = None ->
  wpt (put_all (S (Z.to_nat (n_references n))) (Some d)) (fun _ w' => pruned d l w w' /\ forgotten d w') w.
Proof.
  intros Hf Ha Hn Hc. assert (Er : refs w d = n_references n) by (unfold refs; by rewrite Hn).
  pose proof (refs_nonneg w d Hf) as H0. eapply wpt_mono; [apply put_all_wpt; [by exists n | lia] |]. intros _ w' ->.
  assert (Hd : w_heap (bump d (- refs w d) w) !! d = Some (add_refs (- refs w d) n)) by by rewrite bump_lookup, decide_True, Hn.
  split; [split; try done |].
  - apply bump_forest; [done | lia].
  - apply Nat.eq_le_incl. rewrite <- !size_dom. unfold bump. cbn [w_heap set_w_heap]. by rewrite dom_alter_L.
  - eapply ancestry_parents; [| exact Ha]. intros q m _ Hm. destruct (bump_node d (- refs w d) w q m Hm) as (m' & ? & [-> | ->]); eauto.
  - intros q _ Hqd. unfold refs. by rewrite bump_lookup, decide_False.
  - intros q m'. rewrite bump_lookup. destruct (decide (q = d)) as [-> |]; [| eauto]. rewrite Hn. intros [= <-]. by exists n.
  - exists (add_refs (- refs w d) n). split_and!; [done | done |]. cbn. lia.
Qed.

(** A node without children is forgotten: its references are given back. *)
Lemma forget_leaf w d l n : forest w -> ancestry (w_heap w) d l -> w_heap w !! d = Some n -> n_child n = None ->
  wpt (assign (Some d) (set_n_is_cached false);;
       let! n := deref (Some d) in
       let! w := get_state in
       (if negb (n_references n =? 0) then let! _ := exfat_get_name (S := world) n in ret tt else ret tt);;
       (if negb (bool_decide (Some d = w_root w)) && n_is_dirty n then let! _ := exfat_get_name (S := world) n in exfat_bug
        else ret tt);;
       put_all (S (Z.to_nat (n_references n))) (Some d)) (fun _ w' => pruned d l w w' /\ forgotten d w') w.
Proof.
  intros Hf Ha Hn Hc. set (n1 := set_n_is_cached false n). set (w1 := set_w_heap (<[d := n1]> (w_heap w)) w).
  assert (Hok1 : node_ok n1) by (destruct (fo_node _ Hf d n Hn); by split).
  assert (A1 : after {[d]} (fun _ => 0) w w1).
  { eapply set_after; try done; [| set_solver]. intros Hr. destruct (fo_root _ Hf) as (r & m & ? & ? & _ & ? & ?). by simplify_eq. }
  pose proof (af_forest _ _ _ _ A1) as Hf1. assert (Hd1 : w_heap w1 !! d = Some n1) by apply lookup_insert_eq.
  assert (P1 : pruned d l w w1).
  { split; try done.
    - apply Nat.eq_le_incl. cbn [w_heap set_w_heap w1]. rewrite map_size_insert, Hn. reflexivity.
    - eapply ancestry_parents; [| exact Ha]. intros q m _ Hm. cbn [w_heap set_w_heap w1].
      destruct (decide (q = d)) as [-> |]; [exists n1; by simplify_map_eq | exists m; by rewrite lookup_insert_ne].
    - intros q _ _. rewrite (af_refs _ _ _ _ A1). lia.
    - intros q m' Hq. change (<[d := n1]> (w_heap w) !! q = Some m') in Hq. apply lookup_insert_Some in Hq as [[<- <-] | [_ ?]]; [by exists n | eauto]. }
  apply wpt_bind, (wpt_assign _ _ _ _ _ Hn). fold n1 w1. apply wpt_bind, (wpt_deref _ _ _ _ Hd1), wpt_bind, wpt_get.
  apply wpt_bind. apply (wpt_mono _ (fun _ w' => w' = w1)).
  { apply wpt_if; intros _; [apply wpt_bind, wpt_get_name; intros _ |]; by apply wpt_ret. }
  intros _ w' ->. apply wpt_bind. apply (wpt_mono _ (fun _ w' => w' = w1)).
  { apply wpt_if; intros _; [apply wpt_bind, wpt_get_name; intros _; apply wpt_halt | by apply wpt_ret]. }
  intros _ w' ->. eapply wpt_mono; [by apply (give_back w1 d l n1); [| eapply pr_way | |] |].
  intros _ w' [P2 F]. split; [by eapply pruned_step | done].
Qed.

(** Forgetting the nodes below [d]: its children first, each with all below it. *)
Lemma reset_cache_pruned f : forall w d l, forest w -> ancestry (w_heap w) d (d :: l) ->
  (size (w_heap w) < f + S (length l))%nat ->
  wpt (reset_cache f (Some d)) (fun _ w' => pruned d (d :: l) w w' /\ forgotten d w') w.
Proof.
  induction f as [| f IH]; intros w d l Hf Ha Hfuel.
  { pose proof (ancestry_length _ _ _ Ha). cbn [length] in *. lia. }
  destruct (ancestry_nodup _ _ _ Ha) as (_ & Hin & _). destruct (Hin d ltac:(left)) as [n Hn].
  cbn [reset_cache]. apply wpt_bind, (wpt_deref _ _ _ _ Hn). destruct (fo_list _ Hf d ltac:(eauto)) as [k Hk].
  pose proof Hk as [_ (n' & Hn' & Hc) Hs]. simplify_eq. rewrite Hc. destruct k as [| p k]; cbn [first_or]; [by eapply forget_leaf |].
  destruct (ancestry_child w d (d :: l) _ Hf Ha Hk p ltac:(left)) as [Hp Hap].
  apply wpt_bind. eapply wpt_mono; [apply (IH w p (d :: l)); [done | done | cbn [length]; lia] |].
  intros _ w1 (R1 & n1 & Hn1 & C1 & F1).
  pose proof (drop_child w1 p d l n1 (pr_forest _ _ _ _ R1) (pr_way _ _ _ _ R1) Hn1 C1 F1) as Hdrop.
  unfold wpt in Hdrop. unfold wpt, bind in *. destruct (tree_detach (Some p) w1) as [[] w1' | [] |]; try done.
  destruct (free (Some p) w1') as [[] w2 | [] |]; try done. destruct Hdrop as (R2 & Hsz & Hrefs).
  destruct (pruned_trans _ _ _ _ _ _ R1 R2 Hp Hrefs) as [R12 _]. fold (wpt (reset_cache f (Some d)) (fun _ w' => pruned d (d :: l) w w' /\ forgotten d w') w2).
  eapply wpt_mono; [apply (IH w2 d l); [by apply R12 | by apply R12 |] |].
  - pose proof (pr_size _ _ _ _ R1). lia.
  - intros _ w3 [R3 F3]. split; [by eapply pruned_step | done].
Qed.

Lemma exfat_reset_cache_forgets w r : forest w -> w_root w = Some r ->
  wpt exfat_reset_cache (fun _ w' => forest w' /\ w_root w' = Some r /\ w_vol w' = w_vol w /\ forgotten r w' /\
    inherits (w_heap w) (w_heap w')) w.
Proof.
  intros Hf Hr. apply wpt_bind, wpt_get. rewrite Hr. destruct (fo_root _ Hf) as (r' & n & ? & Hn & Hp & _). simplify_eq.
  eapply wpt_mono; [apply (reset_cache_pruned _ w r []); [done | by eapply ancestry_top | unfold tree_fuel; cbn; lia] |].
  intros _ w' [[P1 P2 P3 _ _ _ P7] F]. split_and!; congruence || done.
Qed.

(** ** Nothing is left behind

    The nodes outside of [S] are those of the tree. *)
Definition kin (S : gset ptr) (w : world) : Prop := forall p n, w_heap w !! p = Some n -> p ∉ S ->
  w_root w = Some p \/ exists d, n_parent n = Some d /\ (d ∉ S \/ w_root w = Some d).

Lemma kin_inherits S w w' : kin S w -> inherits (w_heap w) (w_heap w') -> w_root w' = w_root w -> kin S w'.
Proof.
  intros K Hi Hr p n' Hp HS. destruct (Hi p n' Hp) as (n & Hn & E). rewrite Hr, E. by apply K.
Qed.

Lemma quiet_inherits w w' : quiet w w' -> inherits (w_heap w) (w_heap w').
Proof.
  intros [L D] q n' Hq. assert (Hqw : is_Some (w_heap w !! q)) by (apply elem_of_dom; rewrite <- D; apply elem_of_dom; eauto).
  destruct Hqw as [n Hn]. exists n. split; [done |]. destruct (la_node _ _ _ L q n Hn) as (m & Hm & K & _). congruence.
Qed.

Lemma bump_inherits p k w : inherits (w_heap w) (w_heap (bump p k w)).
Proof.
  intros q n'. rewrite bump_lookup. destruct (decide _); [| eauto]. destruct (w_heap w !! q) as [n |]; [| done]. intros [= <-]. by exists n.
Qed.

(** A root without children is the only node outside of [S]. *)
Lemma kin_alone S w r : forest w -> w_root w = Some r -> kin S w -> forgotten r w -> forall p, is_Some (w_heap w !! p) -> p ∉ S -> p = r.
Proof.
  intros Hf Hr K (nr & Hnr & Hc & _) p Hp. destruct (fo_ancestry _ Hf p Hp) as [l Ha].
  induction Ha as [p n Hn Hpar | p n d l Hn Hpar Ha IH Hpl]; intros HS; destruct (K p n Hn HS) as [E | (d' & E & HS')]; try congruence.
  exfalso. assert (d' = d) as -> by congruence.
  assert (d = r) as -> by (destruct HS' as [HS' |]; [apply IH; [by eapply parent_some | done] | congruence]).
  destruct (fo_parent _ Hf p n r Hn Hpar) as (k & [_ (m & Hm & Hk) _] & Hpk). assert (m = nr) as -> by congruence.
  rewrite Hc in Hk. destruct k; [by apply elem_of_nil in Hpk | done].
Qed.

(** The nodes that reading the root makes are in the tree. *)
Lemma cache_kin S w r : forest w -> w_root w = Some r -> kin S w -> wpt (exfat_cache_directory (Some r)) (fun _ w' => kin S w') w.
Proof.
  intros Hf Hr K. destruct (fo_root _ Hf) as (r' & n & ? & Hn & Hp & _). assert (r' = r) as -> by congruence.
  destruct (n_is_cached n) eqn:Hc.
  { unfold exfat_cache_directory. apply wpt_bind, (wpt_deref _ _ _ _ Hn). rewrite Hc. by apply wpt_ret. }
  pose proof (no_uncached _ (fo_node _ Hf r n Hn) Hc) as Hch.
  eapply wpt_mono; [apply (cache_directory_wpt w r n Hn Hch Hc); [by eapply forest_sizes64 | apply Hf] |].
  intros rc w' (Hr' & _ & _ & _ & _ & Hrc). destruct (rc =? 0).
  - destruct Hrc as [(nd & Hnd & _ & Hpl & _) (l & Hl & Hnew & Hsame)]. intros p m Hm HS. rewrite Hr', Hr.
    destruct (decide (p = r)) as [-> | Hpr]; [by left |]. destruct (decide (p ∈ l)) as [Hin | Hin].
    + right. exists r. split; [| by right]. destruct (child_parent _ _ _ _ Hl Hin) as (m' & ? & ?). congruence.
    + rewrite Hsame in Hm by set_solver. rewrite <- Hr. by apply K.
  - destruct Hrc as [_ [_ Hsame]]. intros p m Hm HS. rewrite Hr', Hr. destruct (decide (p = r)) as [-> | Hpr]; [by left |].
    rewrite Hsame in Hm by done. rewrite <- Hr. by apply K.
Qed.

(** ** A world without a tree *)

Lemma grove_vol w v : grove w -> grove (set_w_vol v w).
Proof. by intros []. Qed.

(** Only nodes of [X] are to be left when nothing is mounted. *)
Section Leaving.
Context (X : gset ptr).

(** What is left when nothing is mounted. *)
Record bare (w : world) : Prop := {
  ba_grove : grove w;
  ba_root : w_root w = None;
  ba_old : dom (w_heap w) ⊆ X
}.

(** An operation on the volume. *)
Lemma bare_vol {A} (m : M vol A) (P : A -> vol -> Prop) w : bare w -> wpt m P (w_vol w) ->
  wpt (on_part (S := world) m) (fun a w' => bare w' /\ P a (w_vol w')) w.
Proof.
  intros [G R D] Hm. apply wpt_on_part. eapply wpt_mono; [exact Hm |]. intros a v HP. split; [| done]. split; [by apply grove_vol | done | done].
Qed.

Lemma bare_os {A} (m : M env A) w : bare w -> (forall e, wpt m (fun _ _ => True) e) ->
  wpt (on_world_os m) (fun _ w' => bare w' /\ v_ef (w_vol w') = v_ef (w_vol w)) w.
Proof.
  intros Hb Hm. apply (bare_vol _ (fun _ v => v_ef v = v_ef (w_vol w))); [done |]. apply wpt_on_part. eapply wpt_mono; [apply Hm |]. done.
Qed.

Lemma bare_set f w : bare w ->
  wpt (on_part (S := world) (on_part (S := vol) (modify f))) (fun _ w' => bare w' /\ v_ef (w_vol w') = f (v_ef (w_vol w))) w.
Proof. intros Hb. by apply (bare_vol _ (fun _ v => v_ef v = f (v_ef (w_vol w)))). Qed.

(** Freeing the root, when nothing is below it. *)
Lemma free_forgotten w r : grove w -> w_root w = Some r -> forgotten r w -> (forall n, w_heap w !! r = Some n -> n_parent n = None) ->
  dom (w_heap w) ⊆ X ∪ {[r]} -> wpt exfat_free (fun _ w' => bare w') w.
Proof.
  intros G Hr (n & Hn & Hc & _) Hp HX. apply wpt_bind, wpt_get. rewrite Hr. apply wpt_bind, wpt_modify, wpt_bind, wpt_modify.
  eapply wpt_mono; [apply bare_set; split; [| done |] |]; [| | by intros ? ? []].
  - destruct (free_grove w r n G Hn (Hp n Hn) Hc). by split.
  - cbn [w_heap set_w_heap set_w_root]. rewrite dom_delete_L. set_solver.
Qed.

Lemma free_bare w : bare w -> wpt exfat_free (fun _ w' => bare w') w.
Proof.
  intros [G Hr D]. apply wpt_bind, wpt_get. rewrite Hr. apply wpt_bind, wpt_ret, wpt_bind, wpt_modify.
  eapply wpt_mono; [apply bare_set; by split; [destruct G; split | |] |]. by intros ? ? [].
Qed.

Lemma mount_fails_bare rc w : bare w -> wpt (mount_fails rc) (fun r w' => r = rc /\ bare w') w.
Proof.
  intros Hb. apply wpt_bind. eapply wpt_mono; [by apply bare_os |]. intros _ w1 [Hb1 _]. apply wpt_bind.
  eapply wpt_mono; [by apply free_bare |]. post ? w2 Hb2. by apply wpt_ret.
Qed.

(** ** Unmounting *)

Lemma root_parent w r n : forest w -> w_root w = Some r -> w_heap w !! r = Some n -> n_parent n = None.
Proof. intros Hf Hr Hn. destruct (fo_root _ Hf) as (r' & n' & ? & ? & ? & _). by simplify_eq. Qed.

Lemma finalize_ends v : wpt finalize_super_block (fun _ _ => True) v.
Proof.
  apply wpt_bind, wpt_get. destruct (negb _); [by apply wpt_ret |]. cbv zeta. apply wpt_bind, wpt_modify, wpt_bind.
  apply (wpt_mono _ (fun _ _ => True)); [| intros; by apply wpt_ret]. apply wpt_bind, wpt_get, wpt_bind, wpt_on_part.
  eapply wpt_mono; [apply wpt_pwrite |]. intros ok e _. destruct (negb ok).
  - apply wpt_bind, wpt_on_part, wpt_modify, wpt_ret. done.
  - apply wpt_on_part. unfold exfat_fsync. apply wpt_bind, wpt_get. destruct (os_fsync_fails _); by repeat wpt_step.
Qed.

(** What is left of the tree is freed. *)
Lemma tree_freed w r : forest w -> kin X w -> w_root w = Some r -> forgotten r w -> wpt exfat_free (fun _ w' => bare w') w.
Proof.
  intros Hf K Hr F. apply (free_forgotten _ r); [by apply forest_grove | done | done | intros n; by apply root_parent |].
  intros p Hp%elem_of_dom. destruct (decide (p ∈ X)); [set_solver |]. pose proof (kin_alone _ _ _ Hf Hr K F p Hp ltac:(done)). set_solver.
Qed.

(** Giving back the reference of the root, and forgetting all. *)
Lemma drop_tree w r : forest w -> kin X w -> w_root w = Some r ->
  wpt (exfat_put_node (Some r);; exfat_reset_cache) (fun _ w' => forest w' /\ kin X w' /\ w_root w' = Some r /\ forgotten r w') w.
Proof.
  intros Hf K Hr. destruct (fo_root _ Hf) as (r' & n & ? & Hn & _). simplify_eq.
  apply wpt_bind, wpt_put_node; [by exists n |]. intros H1.
  assert (Hf1 : forest (bump r (-1) w)) by (apply bump_forest; [done | lia]).
  eapply wpt_mono; [by apply exfat_reset_cache_forgets |]. intros _ w2 (Hf2 & Hr2 & _ & F2 & I2). split_and!; [done | | done | done].
  eapply kin_inherits; [exact K | etrans; [apply bump_inherits | exact I2] | congruence].
Qed.

Lemma wpt_assoc {S A B C} (m : M S A) (f : A -> M S B) (g : B -> M S C) Q s :
  wpt (bind (bind m f) g) Q s = wpt (bind m (fun a => bind (f a) g)) Q s.
Proof. unfold wpt, bind. by destruct (m s). Qed.

Lemma exfat_unmount_bare w : forest w -> kin X w -> wpt exfat_unmount (fun _ w' => bare w') w.
Proof.
  intros Hf K. apply wpt_bind. eapply wpt_mono; [by apply exfat_flush_nodes_quiet |]. post ? w1 L1.
  pose proof (quiet_forest _ _ L1) as Hf1. apply wpt_bind. eapply wpt_mono; [by apply vol_later; [| apply vsteady_flush] |].
  post ? w2 L2. pose proof (quiet_forest _ _ L2) as Hf2. pose proof (transitivity L1 L2) as L12. apply wpt_bind, wpt_get.
  assert (K2 : kin X w2) by (eapply kin_inherits; [exact K | by apply quiet_inherits | apply (qu_later _ _ L12)]).
  destruct (fo_root _ Hf2) as (r & n & Hr & Hn & _). rewrite Hr. rewrite <- wpt_assoc.
  apply wpt_bind. eapply wpt_mono; [by apply drop_tree |]. intros _ w4 (Hf4 & K4 & Hr4 & F4).
  apply wpt_bind, wpt_on_part. eapply wpt_mono; [apply finalize_ends |]. intros _ v _.
  apply (free_forgotten _ r); [by apply grove_vol, forest_grove | done | done | |].
  - intros m Hm. by eapply (root_parent w4).
  - intros p Hp%elem_of_dom. destruct (decide (p ∈ X)); [set_solver |]. pose proof (kin_alone _ _ _ Hf4 Hr4 K4 F4 p Hp ltac:(done)). set_solver.
Qed.

(** ** Mounting *)

(** Straight-line code on the volume that keeps the super block. *)
Ltac vsteady :=
  repeat lazymatch goal with
  | |- vsteady (bind get_state _) => apply vsteady_get; intros; cbv beta zeta
  | |- vsteady (bind _ _) => apply vsteady_bind; [| intros]
  | |- vsteady (ret _) => apply vsteady_ret
  | |- vsteady (on_part (exfat_pwrite _ _)) => apply vsteady_os; intros; apply wpt_pwrite
  | |- vsteady (on_part _) => by apply vsteady_os
  | |- vsteady (match ?x with _ => _ end) => destruct x
  end.

Lemma vsteady_ask_to_fix : vsteady exfat_ask_to_fix.
Proof. unfold exfat_ask_to_fix. vsteady. Qed.

Lemma vsteady_fix_vbr sum : vsteady (exfat_fix_invalid_vbr_checksum sum).
Proof. unfold exfat_fix_invalid_vbr_checksum. vsteady. Qed.

Lemma vsteady_check_words n : forall i sector sum, vsteady (check_vbr_words n i sector sum).
Proof.
  induction n as [| n IH]; intros i sector sum; cbn [check_vbr_words]; vsteady; try apply IH;
    [apply vsteady_ask_to_fix | apply vsteady_fix_vbr].
Qed.

Lemma vsteady_read_sectors n ss : forall i sum, vsteady (read_sectors n ss i sum).
Proof. induction n as [| n IH]; intros i sum; cbn [read_sectors]; vsteady. apply IH. Qed.

Lemma vsteady_verify_vbr : vsteady verify_vbr_checksum.
Proof. unfold verify_vbr_checksum. vsteady; first [apply vsteady_check_words | apply vsteady_read_sectors]. Qed.

(** The sizes that the checks of the super block let pass. *)
Record sb_fits (sb : super_block) : Prop := {
  sf_sector : 9 <= sb_sector_bits sb;
  sf_spc : 0 <= sb_spc_bits sb;
  sf_bits : sb_sector_bits sb + sb_spc_bits sb <= 25;
  sf_count : 0 <= sb_cluster_count sb < 2 ^ 32
}.

Lemma sb_fits_cluster sb : sb_fits sb -> 0 < CLUSTER_SIZE sb <= 2 ^ 25.
Proof.
  intros [? ? ? _]. unfold CLUSTER_SIZE, SECTOR_SIZE. rewrite Z.shiftl_shiftl, Z.shiftl_1_l by lia. split.
  - by apply Z.pow_pos_nonneg; lia.
  - apply Z.pow_le_mono_r; lia.
Qed.

Lemma mount_checks_bare w : bare w -> 0 <= sb_spc_bits (ef_sb (w_ef w)) -> 0 <= sb_cluster_count (ef_sb (w_ef w)) < 2 ^ 32 ->
  wpt mount_checks (fun rc w' => bare w' /\ (rc = 0 -> sb_fits (ef_sb (w_ef w')))) w.
Proof.
  intros Hb H1 H2. assert (Hfail : forall rc w, rc <> 0 -> bare w ->
    wpt (mount_fails rc) (fun rc w' => bare w' /\ (rc = 0 -> sb_fits (ef_sb (w_ef w')))) w).
  { intros rc w1 Hrc Hb1. eapply wpt_mono; [by apply mount_fails_bare |]. intros ? w2 [-> Hb2]. done. }
  apply wpt_bind, wpt_get; cbv zeta. set (sb := ef_sb (w_ef w)) in *.
  destruct (negb _); [by apply Hfail |]. destruct (Z.ltb_spec (sb_sector_bits sb) 9); [by apply Hfail |].
  destruct (Z.ltb_spec 25 (sb_sector_bits sb + sb_spc_bits sb)); [by apply Hfail |].
  apply wpt_bind. eapply wpt_mono; [by apply bare_os |]. intros ok w1 [Hb1 E1]. destruct (negb ok); [by apply Hfail |].
  apply wpt_bind. eapply wpt_mono; [apply (bare_vol _ (fun _ v => ef_sb (v_ef v) = sb)); [done |] |].
  { eapply wpt_mono; [apply vsteady_verify_vbr |]. intros ? v [-> _]. by rewrite E1. }
  intros ok2 w2 [Hb2 E2]. destruct (negb ok2).
  { apply wpt_bind. eapply wpt_mono; [by apply free_bare |]. post ? w3 Hb3. by apply wpt_ret. }
  destruct (_ || _); [by apply Hfail |]. destruct (negb _); [by apply Hfail |]. apply wpt_bind, wpt_get.
  destruct (_ <? _); [by apply Hfail |]. apply wpt_ret. split; [done |]. intros _. unfold w_ef. rewrite E2. by split.
Qed.

(** *** The root directory *)

Lemma rootdir_loop_size fuel : forall clusters c s, 0 <= clusters <= sb_cluster_count (ef_sb (s_ef s)) ->
  sb_cluster_count (ef_sb (s_ef s)) - clusters < Z.of_nat fuel -> 0 < CLUSTER_SIZE (ef_sb (s_ef s)) ->
  wpt (rootdir_loop fuel clusters c) (fun size s' => stays s s' /\
    0 <= size <= sb_cluster_count (ef_sb (s_ef s)) * CLUSTER_SIZE (ef_sb (s_ef s))) s.
Proof.
  induction fuel as [| fuel IH]; intros clusters c s Hc Hfuel HCS; [lia |]. cbn [rootdir_loop]. apply wpt_bind, wpt_get; cbv zeta.
  set (sb := ef_sb (s_ef s)) in *.
  assert (Herr : wpt (on_os exfat_error;; ret 0 : M nstate Z) (fun size s' => stays s s' /\ 0 <= size <= sb_cluster_count sb * CLUSTER_SIZE sb) s).
  { apply wpt_bind, wpt_on_part, wpt_on_part, wpt_modify, wpt_ret. split; [by split | nia]. }
  destruct (Z.eqb_spec clusters (sb_cluster_count sb)); [done |]. destruct (CLUSTER_INVALID sb c); [done |].
  apply wpt_bind. eapply wpt_mono; [apply steady_next_cluster |]. intros c' s1 L1. pose proof (st_sb _ _ L1) as E1. fold sb in E1.
  destruct (negb _).
  - eapply wpt_mono; [apply IH; rewrite E1; lia |]. rewrite E1. intros size s2 [L2 ?]. split; [exact (transitivity L1 L2) | done].
  - apply wpt_ret. split; [exact L1 | nia].
Qed.

Lemma rootdir_size_fits s : sb_fits (ef_sb (s_ef s)) ->
  wpt rootdir_size (fun size s' => stays s s' /\ 0 <= size < 2 ^ 64) s.
Proof.
  intros Hfit. pose proof (sb_fits_cluster _ Hfit). destruct Hfit as [_ _ _ Hcount]. apply wpt_bind, wpt_get; cbv zeta.
  eapply wpt_mono; [apply rootdir_loop_size; lia |]. intros size s' [L Hs]. split; [done | nia].
Qed.

(** What mounting gives: a tree whose root has a reference, and the up-case table. *)
Record mounted (w : world) : Prop := {
  mo_forest : forest w;
  mo_upcase : ef_upcase (w_ef w) <> [];
  mo_root : exists r, w_root w = Some r /\ 1 <= refs w r;
  mo_kin : kin X w
}.

(** The error path of the reading of the root directory. *)
Lemma mount_error_bare w r : forest w -> kin X w -> w_root w = Some r ->
  wpt (exfat_put_node (Some r);; exfat_reset_cache;; exfat_free;; ret (- EIO))
    (fun rc w' => if rc =? 0 then mounted w' else bare w') w.
Proof.
  intros Hf K Hr. rewrite <- wpt_assoc. apply wpt_bind. eapply wpt_mono; [by apply drop_tree |].
  intros _ w2 (Hf2 & K2 & Hr2 & F2). apply wpt_bind. eapply wpt_mono; [by apply (tree_freed _ r) |]. post ? w3 Hb. by apply wpt_ret.
Qed.

(** The node of the root is new. *)
Lemma root_forest w : bare w -> sb_fits (ef_sb (w_ef w)) ->
  let n := root_node (ef_sb (w_ef w)) in
  let w1 := set_w_root (Some (w_fresh w)) (set_w_fresh (w_fresh w + 1)%N (set_w_heap (<[w_fresh w := n]> (w_heap w)) w)) in
  forest w1 /\ kin X w1 /\ w_heap w1 !! w_fresh w = Some n.
Proof.
  intros [G Hr D] Hfit n w1. assert (Hn : w_heap w1 !! w_fresh w = Some n) by apply lookup_insert_eq. split_and!; [| | done].
  2: { intros p m Hp HX. left. change (<[w_fresh w := n]> (w_heap w) !! p = Some m) in Hp.
    apply lookup_insert_Some in Hp as [[<- _] | [_ Hp]]; [done |]. destruct HX. apply D, elem_of_dom. eauto. }
  assert (Hok : node_ok n) by (by split).
  eapply (grove_forest w1 (w_fresh w) n); try done; [| by apply sb_fits_cluster].
  destruct (new_grove w n G Hok eq_refl eq_refl eq_refl). by split.
Qed.

(** The root before its entries are read. *)
Record new_root (r : ptr) (w : world) : Prop := {
  nr_forest : forest w;
  nr_kin : kin X w;
  nr_root : w_root w = Some r;
  nr_refs : refs w r = 0;
  nr_list : children (w_heap w) r []
}.

Lemma new_root_quiet r w w' : new_root r w -> quiet w w' -> new_root r w'.
Proof.
  intros [Hf K Hr Hrefs Hc] L. pose proof (qu_later _ _ L) as A. split.
  - by eapply quiet_forest.
  - eapply kin_inherits; [exact K | by apply quiet_inherits | apply A].
  - by rewrite (la_root _ _ _ A).
  - rewrite (la_refs _ _ _ A). lia.
  - by eapply quiet_children.
Qed.

Lemma new_root_forgotten r w : new_root r w -> forgotten r w.
Proof.
  intros [Hf K Hr Hrefs [_ (n & Hn & Hc) _]]. exists n. split_and!; [done | done |]. unfold refs in Hrefs. by rewrite Hn in Hrefs.
Qed.

(** Reading the entries of the root: the end of [mount_root]. *)
Lemma read_root_spec r w : new_root r w ->
  wpt (exfat_get_node (Some r);;
       let error : M world Z := exfat_put_node (Some r);; exfat_reset_cache;; exfat_free;; ret (- EIO) in
       let! rc := exfat_cache_directory (Some r) in
       if negb (rc =? 0) then error
       else
         let! w := get_state in
         if bool_decide (ef_upcase (w_ef w) = []) then on_world_os exfat_error;; error
         else if bool_decide (ef_cmap_chunk (w_ef w) = []) then on_world_os exfat_error;; error
         else ret 0) (fun rc w' => if rc =? 0 then mounted w' else bare w') w.
Proof.
  intros N. pose proof (new_root_forgotten _ _ N) as (m & Hm & _). destruct N as [Hf K Hr Hrefs _].
  apply wpt_bind, wpt_get_node; [by exists m |]. cbv zeta. set (w5 := bump r 1 w).
  assert (A5 : later (one r 1) w w5) by (apply bump_later; [done | by exists m | lia]).
  assert (Hr5 : w_root w5 = Some r) by done. pose proof (la_forest _ _ _ A5) as Hf5.
  assert (K5 : kin X w5) by (eapply kin_inherits; [exact K | apply bump_inherits | done]).
  apply wpt_bind. eapply wpt_mono; [apply wpt_conj; [apply (cache_directory_some w5 r); [done |] | by apply cache_kin] |].
  { eapply later_dom; [exact A5 | by exists m]. }
  intros rc w6 [(_ & A6 & _) K6]. pose proof (la_forest _ _ _ A6) as Hf6.
  assert (Hr6 : w_root w6 = Some r) by (rewrite (la_root _ _ _ A6); done).
  destruct (negb _); [by apply mount_error_bare |]. apply wpt_bind, wpt_get.
  assert (Herr : wpt (on_world_os exfat_error;; exfat_put_node (Some r);; exfat_reset_cache;; exfat_free;; ret (- EIO))
    (fun rc w' => if rc =? 0 then mounted w' else bare w') w6).
  { apply wpt_bind. eapply wpt_mono; [by apply os_later |]. post ? w7 L7. apply mount_error_bare; [by eapply quiet_forest | |].
    - eapply kin_inherits; [exact K6 | by apply quiet_inherits | apply (qu_later _ _ L7)].
    - by rewrite (la_root _ _ _ (qu_later _ _ L7)). }
  case_bool_decide as Hu; [exact Herr |]. case_bool_decide; [exact Herr |].
  apply wpt_ret. cbn. split; [done | done | | done]. exists r. split; [done |]. rewrite (la_refs _ _ _ A6), (la_refs _ _ _ A5). unfold one.
  rewrite decide_True by done. lia.
Qed.

Lemma mount_root_spec w : bare w -> sb_fits (ef_sb (w_ef w)) ->
  wpt mount_root (fun rc w' => if rc =? 0 then mounted w' else bare w') w.
Proof.
  intros Hb Hfit. apply wpt_bind. eapply wpt_mono; [by apply bare_os |]. intros ok w1 [Hb1 E1].
  assert (Hfit1 : sb_fits (ef_sb (w_ef w1))) by (unfold w_ef; by rewrite E1).
  destruct (negb ok). { eapply wpt_mono; [by apply mount_fails_bare |]. intros ? w2 [-> ?]. done. }
  apply wpt_bind, wpt_get, wpt_bind, wpt_new_ptr, wpt_bind, wpt_modify; cbv zeta.
  destruct (root_forest w1 Hb1 Hfit1) as (Hf2 & K2 & Hn2). set (r := w_fresh w1) in *. set (w2 := set_w_root _ _) in *.
  set (n := root_node _) in Hn2. assert (Hsb : ef_sb (w_ef w2) = ef_sb (w_ef w1)) by done.
  assert (N2 : new_root r w2).
  { split; [done | done | done | unfold refs; by rewrite Hn2 | split; [apply NoDup_singleton | by exists n | done]]. }
  clearbody w2 r. apply wpt_bind.
  eapply wpt_mono; [apply (wpt_with_node_later _ (fun size _ => 0 <= size < 2 ^ 64) w2 r n); [done | done |] |].
  { apply rootdir_size_fits. change (sb_fits (ef_sb (w_ef w2))). by rewrite Hsb. }
  intros size w3 (L3 & n3 & Hn3 & Hsize). pose proof (new_root_quiet _ _ _ N2 L3) as N3. apply wpt_bind.
  eapply wpt_mono; [apply (assign_later w3 r n3); [apply N3 | done | by split | by intros _; split; cbn; lia] |].
  intros _ w4 [L4 Hn4]. pose proof (new_root_quiet _ _ _ N3 L4) as N4. destruct (size =? 0); [| by apply read_root_spec].
  apply wpt_bind. eapply wpt_mono; [apply (tree_freed _ r); [apply N4.. | by apply new_root_forgotten] |]. post ? w5 Hb5. by apply wpt_ret.
Qed.

Lemma open_ends o mode e : wpt (exfat_open o mode) (fun _ _ => True) e.
Proof.
  unfold exfat_open. apply wpt_bind. unfold malloc_ok. unfold wpt at 1. destruct (negb _); [by repeat wpt_step |].
  destruct (open_mode _ _); by repeat wpt_step.
Qed.

(** Mounting whatever is there, from a world without a tree. *)
Lemma exfat_mount_spec o euid egid options w : grove w -> dom (w_heap w) ⊆ X ->
  wpt (exfat_mount o euid egid options) (fun rc w' => if rc =? 0 then mounted w' else bare w') w.
Proof.
  intros G HX. apply wpt_bind, wpt_modify. assert (Hb : bare (set_w_root None w)) by (split; [by destruct G; split | done | done]).
  apply wpt_bind. eapply wpt_mono; [by apply bare_set |]. intros _ w1 [Hb1 _]; cbv zeta.
  apply wpt_bind. eapply wpt_mono; [apply bare_os; [done | apply open_ends] |]. intros ok w2 [Hb2 _].
  destruct (negb ok); [by apply wpt_ret |]. apply wpt_bind, wpt_get, wpt_bind.
  apply (wpt_mono _ (fun _ w => bare w)).
  { apply wpt_if; intros _; [| by apply wpt_ret]. eapply wpt_mono; [by apply bare_set |]. by intros ? ? []. }
  intros _ w3 Hb3. apply wpt_bind. eapply wpt_mono; [by apply bare_os |]. intros ok3 w4 [Hb4 _].
  assert (Hfail : forall rc w, rc <> 0 -> bare w ->
    wpt (mount_fails rc) (fun rc w' => if rc =? 0 then mounted w' else bare w') w).
  { intros rc w' Hrc Hb'. eapply wpt_mono; [by apply mount_fails_bare |]. intros ? w'' [-> ?].
    by destruct (Z.eqb_spec rc 0). }
  destruct (negb ok3); [by apply Hfail |]. apply wpt_bind. eapply wpt_mono; [by apply bare_os |].
  intros r w5 [Hb5 _]. destruct r as [bytes |]; [| by apply Hfail].
  apply wpt_bind. eapply wpt_mono; [by apply bare_set |]. intros _ w6 [Hb6 E6]. apply wpt_and_then.
  eapply wpt_mono; [apply mount_checks_bare; [done | unfold w_ef; rewrite E6; cbn; apply le_val_sub_lt; lia..] |].
  intros rc w7 [Hb7 Hfit]. destruct (Z.eqb_spec rc 0) as [-> | Hrc]; cbn [negb]; [by apply mount_root_spec; [| apply Hfit] |].
  by destruct (Z.eqb_spec rc 0).
Qed.
End Leaving.
End MountSafe.

(** C7: Mounting and unmounting, from a process that holds no nodes, whatever the medium
    holds, whichever options are given and whichever calls fail: mounting ends, and
    uses no null or freed pointer; if it fails, every node that it made is freed; if it
    returns 0, the nodes are a whole tree, its root has a reference, and there is an
    up-case table.  Unmounting then ends too, and frees every node. *)
Theorem mount_unmount_frees `{Platform} o euid egid options w (Hw : w_heap w = ∅) :
  wpt (exfat_mount o euid egid options) (fun rc w1 =>
    if rc =? 0 then forest w1 /\ ef_upcase (w_ef w1) <> [] /\ (exists r, w_root w1 = Some r /\ 1 <= refs w1 r) /\
      wpt exfat_unmount (fun _ w2 => w_heap w2 = ∅ /\ w_root w2 = None) w1
    else w_heap w1 = ∅ /\ w_root w1 = None) w.
Proof.
  assert (Hempty : forall w, bare ∅ w -> w_heap w = ∅ /\ w_root w = None).
  { intros w' [_ Hr D]. split; [| done]. apply dom_empty_inv_L. set_solver. }
  eapply wpt_mono; [apply (exfat_mount_spec ∅); [| by rewrite Hw, dom_empty_L] |].
  - split; rewrite Hw; intros p; rewrite ?lookup_empty; by try intros []; intros.
  - intros rc w1; cbn beta. destruct (rc =? 0); [| apply Hempty]. intros [Hf Hu Hr K]. split_and!; [done | done | done |].
    eapply wpt_mono; [by apply (exfat_unmount_bare ∅) |]. cbn beta. intros _ w2. apply Hempty.
Qed.

#[local] Existing Instance word_le64.

Lemma mount_unmount_frees_witness :
  wpt (exfat_mount (mk_open_answers true true true true 65536 true) 0 0 []) (fun rc w1 =>
    if rc =? 0 then forest w1 /\ ef_upcase (w_ef w1) <> [] /\ (exists r, w_root w1 = Some r /\ 1 <= refs w1 r) /\
      wpt exfat_unmount (fun _ w2 => w_heap w2 = ∅ /\ w_root w2 = None) w1
    else w_heap w1 = ∅ /\ w_root w1 = None) (mk_world demo_vol ∅ None 1%N).
Proof. apply (mount_unmount_frees _ 0 0 [] (mk_world demo_vol ∅ None 1%N)). reflexivity. Defined.
