(* ===== verification/Fuse.v ===== *)
(** * Fuse: the FUSE file system (fuse/main.c)

    The handlers that libfuse calls, each on the world of nodes, and the options
    that the program gives to libfuse.  [get_node fi] is the pointer that the open
    file holds: an argument of the handlers that take a [struct fuse_file_info].
    [FUSE_USE_VERSION] is an argument where the code depends on it; the conditional
    parts are those of Linux.  The debug messages are left out. *)

From Stdlib Require Import ZArith Lia.
From stdpp Require Import base numbers list gmap strings.
From S2P Require Import Prelude Bytes Monad Ondisk State Utf Bitmap Geometry Cluster FileIO Utils ExfatTime Entries NodeTree Lookup LookupSpec Dir Mount.

#[local] Open Scope Z_scope.

Section Fuse.
Context `{Platform}.

(** ** Definitions *)

(** *** Handlers *)

(** The pattern of a handler that works on the node of a path. *)
Definition with_path {A} (fail : Z -> A) (path : list Z) (f : option ptr -> M world A) : M world A :=
  let! (rc, node) := exfat_lookup path in
  if negb (rc =? 0) then ret (fail rc) else f node.

Definition fuse_exfat_getattr (path : list Z) : M world (Z * option stat) :=
  with_path (fun rc => (rc, None)) path (fun node =>
    let! n := deref node in
    let! w := get_state in
    let stbuf := exfat_stat (w_ef w) n in
    exfat_put_node node;;
    ret (0, Some stbuf)).

(** [size] is signed; [exfat_truncate] takes it as an unsigned number. *)
Definition fuse_exfat_truncate (path : list Z) (size : Z) : M world Z :=
  with_path id path (fun node =>
    let! rc := with_node node (exfat_truncate (u64 size) true) in
    if negb (rc =? 0) then
      exfat_flush_node node;;
      exfat_put_node node;;
      ret rc
    else
      let! rc := exfat_flush_node node in
      exfat_put_node node;;
      ret rc).

(** An entry that the handler hands to [filler]: the name and the attributes. *)
Definition dir_entry : Type := list Z * option stat.

(** The loop over the directory; [buffer] is what was handed to [filler]. *)
Fixpoint fuse_readdir_loop (fuel : nat) (it : exfat_iterator) (buffer : list dir_entry)
  : M world (list dir_entry * exfat_iterator) :=
  match fuel with
  | O => diverge
  | S fuel =>
      let! (node, it) := exfat_readdir it in
      match node with
      | None => ret (buffer, it)
      | Some _ =>
          let! n := deref node in
          let! name := exfat_get_name (S := world) n in
          let! w := get_state in
          let stbuf := exfat_stat (w_ef w) n in
          exfat_put_node node;;
          fuse_readdir_loop fuel it (buffer ++ [(name, Some stbuf)])
      end
  end.

(** "." and ".." *)
Definition dot_entries : list dir_entry := [([dot], None); ([dot; dot], None)].

Definition fuse_exfat_readdir (path : list Z) : M world (Z * list dir_entry) :=
  with_path (fun rc => (rc, [])) path (fun parent =>
    let! n := deref parent in
    if negb (is_dir n) then
      exfat_put_node parent;;
      on_world_os exfat_error;;
      ret (- ENOTDIR, [])
    else
      let! (rc, it) := exfat_opendir parent in
      if negb (rc =? 0) then
        exfat_put_node parent;;
        on_world_os exfat_error;;
        ret (rc, dot_entries)
      else
        let! w := get_state in
        let! (buffer, it) := fuse_readdir_loop (tree_fuel w) it dot_entries in
        exfat_closedir it;;
        exfat_put_node parent;;
        ret (0, buffer)).

Definition O_TRUNC : Z := 0x200.

(** The result code and the pointer that the open file holds. *)
Definition fuse_exfat_open (fuse_version : Z) (path : list Z) (flags : Z) : M world (Z * option ptr) :=
  with_path (fun rc => (rc, None)) path (fun node =>
    if (30 <=? fuse_version) && negb (Z.land flags O_TRUNC =? 0) then
      let! rc := with_node node (exfat_truncate 0 true) in
      if negb (rc =? 0) then exfat_put_node node;; ret (rc, None)
      else ret (0, node)
    else ret (0, node)).

Definition fuse_exfat_create (path : list Z) : M world (Z * option ptr) :=
  let! rc := exfat_mknod path in
  if negb (rc =? 0) then ret (rc, None)
  else with_path (fun rc => (rc, None)) path (fun node => ret (0, node)).

Definition fuse_exfat_release (fh : option ptr) : M world Z :=
  exfat_flush_node fh;;
  exfat_put_node fh;;
  ret 0.

Definition fuse_exfat_flush (fh : option ptr) : M world Z := exfat_flush_node fh.

Definition fuse_exfat_fsync : M world Z :=
  and_then exfat_flush_nodes
    (and_then (on_part (S := world) exfat_flush) (on_world_os exfat_fsync)).

(** The number of bytes is returned as an [int]. *)
Definition fuse_exfat_read (fh : option ptr) (buffer : list Z) (size offset : Z) : M world (Z * list Z) :=
  let! (r, buffer) := with_node fh (exfat_generic_pread buffer size offset) in
  ret (i32 r, buffer).

Definition fuse_exfat_write (fh : option ptr) (buffer : list Z) (size offset : Z) : M world Z :=
  let! r := with_node fh (exfat_generic_pwrite buffer size offset) in
  ret (i32 r).

Definition fuse_exfat_unlink (path : list Z) : M world Z :=
  with_path id path (fun node =>
    let! rc := exfat_unlink node in
    exfat_put_node node;;
    if negb (rc =? 0) then ret rc else exfat_cleanup_node node).

Definition fuse_exfat_rmdir (path : list Z) : M world Z :=
  with_path id path (fun node =>
    let! rc := exfat_rmdir node in
    exfat_put_node node;;
    if negb (rc =? 0) then ret rc else exfat_cleanup_node node).

Definition fuse_exfat_mknod (path : list Z) : M world Z := exfat_mknod path.

Definition fuse_exfat_mkdir (path : list Z) : M world Z := exfat_mkdir path.

Definition fuse_exfat_rename (old_path new_path : list Z) : M world Z := exfat_rename old_path new_path.

(** [tv] is the time of access and the time of modification. *)
Definition fuse_exfat_utimens (path : list Z) (atime mtime : Z) : M world Z :=
  with_path id path (fun node =>
    with_node node (exfat_utimes atime mtime);;
    let! rc := exfat_flush_node node in
    exfat_put_node node;;
    ret rc).

(** [S_IFREG | S_IFDIR | S_IRWXU | S_IRWXG | S_IRWXO] *)
Definition VALID_MODE_MASK : Z := Z.lor (Z.lor S_IFREG S_IFDIR) 0x1ff.

Definition fuse_exfat_chmod (mode : Z) : M world Z :=
  ret (if negb (Z.ldiff mode VALID_MODE_MASK =? 0) then - EPERM else 0).

Definition fuse_exfat_chown (uid gid : Z) : M world Z :=
  let! w := get_state in
  ret (if negb (uid =? ef_uid (w_ef w)) || negb (gid =? ef_gid (w_ef w)) then - EPERM else 0).

(** The fields of [struct statvfs] that the handler fills. *)
Record statvfs : Type := mk_statvfs {
  f_bsize : Z;
  f_frsize : Z;
  f_blocks : Z;
  f_bavail : Z;
  f_bfree : Z;
  f_namemax : Z;
  f_files : Z;
  f_favail : Z;
  f_ffree : Z
}.

Definition fuse_exfat_statfs : M world (Z * statvfs) :=
  let! w := get_state in
  let sb := ef_sb (w_ef w) in
  let f_bavail := exfat_count_free_clusters (w_ef w) in
  ret (0, {|
    f_bsize := CLUSTER_SIZE sb;
    f_frsize := CLUSTER_SIZE sb;
    f_blocks := Z.shiftr (sb_sector_count sb) (sb_spc_bits sb);
    f_bavail := f_bavail;
    f_bfree := f_bavail;
    f_namemax := EXFAT_NAME_MAX;
    f_files := sb_cluster_count sb;
    f_favail := Z.shiftr f_bavail (sb_spc_bits sb);
    f_ffree := f_bavail |}).

(** The failure to mark the volume as mounted is ignored. *)
Definition fuse_exfat_init : M world unit :=
  on_part (S := world) exfat_soil_super_block;;
  ret tt.

Definition fuse_exfat_destroy : M world unit := exfat_unmount.

(** *** Options *)

(** The option string is a buffer of [size] bytes that holds a C string. *)
Definition strcat_in (size : Z) (dest src : list Z) : M world (list Z) :=
  if size <? zlen dest + zlen src + 1 then fun w => Halt OutOfBounds w else ret (dest ++ src).

(** [None] when the string cannot be allocated; the old one is then freed. *)
Definition add_option (options name : list Z) (value : option (list Z)) : M world (option (list Z)) :=
  let size :=
    match value with
    | Some value => zlen options + zlen name + zlen value + 3
    | None => zlen options + zlen name + 2
    end in
  let! ok := on_world_os malloc_ok in
  if negb ok then on_world_os exfat_error;; ret None
  else
    let! options := strcat_in size options [comma] in
    let! options := strcat_in size options name in
    match value with
    | Some value =>
        let! options := strcat_in size options [equals] in
        let! options := strcat_in size options value in
        ret (Some options)
    | None => ret (Some options)
    end.

Definition backslash : Z := 0x5c.

(** The loop of [escape]; [size] bytes of [escaped] are left, and the last one takes
    the null byte. *)
Fixpoint escape (size : Z) (escaped orig : list Z) : M world (list Z) :=
  match orig with
  | [] => if size <? 1 then fun w => Halt OutOfBounds w else ret escaped
  | c :: orig =>
      if (c =? comma) || (c =? backslash) then
        if size <? 2 then fun w => Halt OutOfBounds w
        else escape (size - 2) (escaped ++ [backslash; c]) orig
      else
        if size <? 1 then fun w => Halt OutOfBounds w
        else escape (size - 1) (escaped ++ [c]) orig
  end.

Definition add_fsname_option (options spec : list Z) : M world (option (list Z)) :=
  let! ok := on_world_os malloc_ok in
  if negb ok then on_world_os exfat_error;; ret None
  else
    let! escaped := escape (zlen spec * 2 + 1) [] spec in
    add_option options (str "fsname") (Some escaped).

Definition add_ro_option (options : list Z) (ro : bool) : M world (option (list Z)) :=
  if ro then add_option options (str "ro") None else ret (Some options).

(** The answers of the system: [getuid], the name that [getpwuid] finds and
    [sysconf(_SC_PAGESIZE)]. *)
Record fuse_answers : Type := mk_fuse_answers {
  fa_uid : Z;
  fa_user : option (list Z);
  fa_page_size : Z
}.

Definition add_user_option (a : fuse_answers) (options : list Z) : M world (option (list Z)) :=
  if fa_uid a =? 0 then ret (Some options)
  else
    match fa_user a with
    | None => on_world_os exfat_error;; ret None
    | Some pw_name => add_option options (str "user") (Some pw_name)
    end.

Definition add_blksize_option (a : fuse_answers) (options : list Z) (cluster_size : Z) : M world (option (list Z)) :=
  let page_size := if fa_page_size a <? 1 then 0x1000 else fa_page_size a in
  add_option options (str "blksize") (Some (sub (decimal (Z.min page_size cluster_size)) 0 19)).

(** [options = f(options); if (options == NULL) return NULL;] *)
Definition chain_option (m : M world (option (list Z))) (f : list Z -> M world (option (list Z))) : M world (option (list Z)) :=
  let! options := m in
  match options with None => ret None | Some options => f options end.

Definition add_fuse_options (a : fuse_answers) (options spec : list Z) (ro : bool) : M world (option (list Z)) :=
  chain_option (add_fsname_option options spec) (fun options =>
  chain_option (add_ro_option options ro) (fun options =>
  chain_option (add_user_option a options) (fun options =>
    let! w := get_state in
    add_blksize_option a options (CLUSTER_SIZE (ef_sb (w_ef w)))))).

(** The only option on the list is "nonempty". *)
Definition add_passthrough_fuse_options (fuse_options options : list Z) : M world (option (list Z)) :=
  if exfat_match_option options (str "nonempty") then add_option fuse_options (str "nonempty") None
  else ret (Some fuse_options).

(** *** The program *)

(** The loop over the options that [getopt] finds: a character and its argument.
    The result is the exit code, or the two option strings. *)
Fixpoint option_loop (opts : list (Z * list Z)) (fuse_options exfat_options : list Z) : M world (Z + list Z * list Z) :=
  match opts with
  | [] => ret (inr (fuse_options, exfat_options))
  | (opt, optarg) :: opts =>
      if opt =? char "d" then
        let! r := add_option fuse_options (str "debug") None in
        match r with
        | None => ret (inl 1)
        | Some fuse_options => option_loop opts fuse_options exfat_options
        end
      else if (opt =? char "n") || (opt =? char "v") then option_loop opts fuse_options exfat_options
      else if opt =? char "o" then
        let! r := add_option exfat_options optarg None in
        match r with
        | None => ret (inl 1)
        | Some exfat_options =>
            let! r := add_passthrough_fuse_options fuse_options optarg in
            match r with
            | None => ret (inl 1)
            | Some fuse_options => option_loop opts fuse_options exfat_options
            end
        end
      else if opt =? char "V" then ret (inl 0)
      else ret (inl 1)
  end.

Definition initial_fuse_options (fuse_version : Z) : list Z :=
  str "allow_other," ++ (if fuse_version <? 30 then str "big_writes," else []) ++
  str "blkdev," ++ str "default_permissions".

(** [fuse_main], which serves the requests, is a function of the options and of the
    mount point; [args] are the arguments that are no options. *)
Definition main (o : open_answers) (euid egid : Z) (a : fuse_answers) (fuse_version : Z)
  (fuse_main : list Z -> list Z -> M world Z) (opts : list (Z * list Z)) (args : list (list Z)) : M world Z :=
  let! ok1 := on_world_os malloc_ok in
  let! ok2 := on_world_os malloc_ok in
  if negb ok1 || negb ok2 then on_world_os exfat_error;; ret 1
  else
    let! r := option_loop opts (initial_fuse_options fuse_version) (str "ro_fallback") in
    match r with
    | inl code => ret code
    | inr (fuse_options, exfat_options) =>
        match args with
        | [spec; mount_point] =>
            let! rc := exfat_mount o euid egid exfat_options in
            if negb (rc =? 0) then ret 1
            else
              let! w := get_state in
              let! r := add_fuse_options a fuse_options spec (negb (ef_ro (w_ef w) =? 0)) in
              match r with
              | None => exfat_unmount;; ret 1
              | Some fuse_options => fuse_main fuse_options mount_point
              end
        | _ => ret 1
        end
    end.
End Fuse.

(** ** The options that libfuse sees *)

(** The fields of an option string: commas end a field, and a backslash quotes the
    next character; [cur] is the field that was begun. *)
Fixpoint fields (cur s : list Z) : list (list Z) :=
  match s with
  | [] => [cur]
  | c :: s =>
      if c =? backslash then
        match s with
        | d :: s => fields (cur ++ [d]) s
        | [] => [cur]
        end
      else if c =? comma then cur :: fields [] s
      else fields (cur ++ [c]) s
  end.

(** The string that [escape] writes. *)
Definition escaped_string (s : list Z) : list Z :=
  s ≫= (fun c => if (c =? comma) || (c =? backslash) then [backslash; c] else [c]).

Lemma escaped_cons c s : escaped_string (c :: s) =
  (if (c =? comma) || (c =? backslash) then [backslash; c] else [c]) ++ escaped_string s.
Proof. unfold escaped_string. by rewrite bind_cons. Qed.

Lemma zlen_escaped s : zlen s <= zlen (escaped_string s) <= 2 * zlen s.
Proof.
  induction s as [| c s IH]; [done |]. rewrite escaped_cons, zlen_app, zlen_cons.
  destruct (_ || _); rewrite ?zlen_cons, zlen_nil; lia.
Qed.

(** Twice the length and one byte are enough. *)
Lemma escape_ok orig : forall size escaped w, 2 * zlen orig + 1 <= size ->
  escape size escaped orig w = Ok (escaped ++ escaped_string orig) w.
Proof.
  induction orig as [| c orig IH]; intros size escaped w Hs; cbn [escape].
  { rewrite (zlen_nil (A := Z)) in Hs. rewrite app_nil_r. by destruct (Z.ltb_spec size 1); [lia |]. }
  rewrite escaped_cons. rewrite zlen_cons in Hs.
  pose proof (zlen_nonneg orig). destruct (_ || _); (case_match; [lia |]); rewrite IH by lia;
    by rewrite <- app_assoc.
Qed.

Lemma fields_escaped s : forall cur rest, fields cur (escaped_string s ++ rest) = fields (cur ++ s) rest.
Proof.
  induction s as [| c s IH]; intros cur rest; [by rewrite app_nil_r |]. rewrite escaped_cons.
  destruct ((c =? comma) || (c =? backslash)) eqn:E; cbn [app fields].
  - rewrite Z.eqb_refl, IH. by rewrite <- app_assoc.
  - apply orb_false_iff in E as [E1 E2]. rewrite E1, E2, IH. by rewrite <- app_assoc.
Qed.

(** A string without a backslash and what comes behind a comma. *)
Lemma fields_app s : forall cur rest, backslash ∉ s -> fields cur (s ++ comma :: rest) = fields cur s ++ fields [] rest.
Proof.
  induction s as [| c s IH]; intros cur rest Hs; [done |]. apply not_elem_of_cons in Hs as [Hc Hs].
  cbn [app fields]. destruct (Z.eqb_spec c backslash) as [-> |]; [done |].
  destruct (c =? comma); rewrite IH by done; done.
Qed.

Lemma fields_plain s : forall cur rest, backslash ∉ s -> comma ∉ s -> fields cur (s ++ rest) = fields (cur ++ s) rest.
Proof.
  induction s as [| c s IH]; intros cur rest Hb Hc; [by rewrite app_nil_r |].
  apply not_elem_of_cons in Hb as [Hb Hb'], Hc as [Hc Hc']. cbn [app fields].
  rewrite (proj2 (Z.eqb_neq c _)), (proj2 (Z.eqb_neq c _)), IH by done. by rewrite <- app_assoc.
Qed.

Section Options.
Context `{Platform}.

Lemma wpt_strcat size a b Q w : zlen a + zlen b + 1 <= size -> Q (a ++ b) w -> wpt (strcat_in size a b) Q w.
Proof. intros Hs HQ. unfold strcat_in. destruct (Z.ltb_spec size (zlen a + zlen b + 1)); [lia | by apply wpt_ret]. Qed.

Lemma wpt_malloc (Q : bool -> world -> Prop) w : (forall ok w', Q ok w') -> wpt (on_world_os malloc_ok) Q w.
Proof. intros HQ. apply HQ. Qed.

(** The buffer of [add_option] has the size of the string. *)
Lemma add_option_wpt options name value w :
  wpt (add_option options name value) (fun r _ => match r with
    | Some s => s = options ++ comma :: name ++ match value with Some v => equals :: v | None => [] end
    | None => True end) w.
Proof.
  unfold add_option. apply wpt_bind, wpt_malloc. intros ok w'. destruct (negb ok); [done |].
  pose proof (zlen_nonneg name). pose proof (zlen_nonneg options). destruct value as [v |].
  - pose proof (zlen_nonneg v). do 4 (apply wpt_bind, wpt_strcat; [rewrite ?zlen_app, ?zlen_cons, ?zlen_nil; lia |]).
    apply wpt_ret. by rewrite <- !app_assoc.
  - do 2 (apply wpt_bind, wpt_strcat; [rewrite ?zlen_app, ?zlen_cons, ?zlen_nil; lia |]).
    apply wpt_ret. by rewrite <- !app_assoc, app_nil_r.
Qed.
End Options.

(** The name of the device in the options of FUSE.  Whatever bytes the name has,
    [add_fsname_option] stores nothing past the end of its two buffers, and libfuse,
    which splits the options at the commas that are not quoted, gets one field more:
    "fsname=" and the name, byte for byte.  Or there is no memory. *)
Theorem fsname_one_field `{Platform} options spec w (Hplain : backslash ∉ options) :
  wpt (add_fsname_option options spec) (fun r _ => match r with
    | Some s => fields [] s = fields [] options ++ [str "fsname=" ++ spec]
    | None => True end) w.
Proof.
  unfold add_fsname_option. apply wpt_bind, wpt_malloc. intros ok w'. destruct (negb ok); [done |].
  apply wpt_bind. unfold wpt at 1. rewrite escape_ok by lia. eapply wpt_mono; [apply add_option_wpt |].
  intros [s |] w'' Hs; [| done]. rewrite Hs, fields_app by done. f_equal.
  change (str "fsname" ++ equals :: ([] ++ escaped_string spec)) with (str "fsname=" ++ escaped_string spec).
  rewrite fields_plain by (refine (bool_decide_unpack _ _); by vm_compute).
  by rewrite <- (app_nil_r (escaped_string spec)), fields_escaped.
Qed.

#[local] Existing Instance word_le64.

Lemma fsname_one_field_witness :
  wpt (add_fsname_option (initial_fuse_options 30) (str "/dev/a,b\c")) (fun r _ => match r with
    | Some s => fields [] s = [str "allow_other"; str "blkdev"; str "default_permissions"; str "fsname=/dev/a,b\c"]
    | None => True end) demo_forest.
Proof.
  apply (fsname_one_field (initial_fuse_options 30) (str "/dev/a,b\c") demo_forest).
  refine (bool_decide_unpack _ _); by vm_compute.
Defined.
