(* ===== verification/FuseSpec.v ===== *)
(** * FuseSpec: serving requests is safe (fuse/main.c)

    Every request to the file system ends, whatever the medium holds and whichever
    read, write or allocation fails.  It keeps the tree of nodes, uses no null and no
    freed pointer, and its references are those of the files that are open. *)

From Stdlib Require Import ZArith Lia.
From stdpp Require Import base numbers list gmap.
From S2P Require Import Prelude Bytes Monad Ondisk State Utf Bitmap Geometry Cluster FileIO Utils ExfatTime Entries EntriesSpec DirTerm NodeTerm NodeTree TreeSpec TreeReset Lookup LookupSpec TreeSafe TreeMove Dir DirSafe MoveSpec Fuse.

#[local] Open Scope Z_scope.

(** ** Requests *)

(** A request of the kernel.  An open file is given by its number in the list of open
    files, which stands for [fi->fh]. *)
Inductive request : Type :=
| Getattr (path : list Z)
| Truncate (path : list Z) (size : Z)
| Readdir (path : list Z)
| Open (path : list Z) (flags : Z)
| Create (path : list Z)
| Release (i : nat)
| Flush (i : nat)
| Fsync
| Read (i : nat) (buffer : list Z) (size offset : Z)
| Write (i : nat) (buffer : list Z) (size offset : Z)
| Unlink (path : list Z)
| Rmdir (path : list Z)
| Mknod (path : list Z)
| Mkdir (path : list Z)
| Rename (old_path new_path : list Z)
| Utimens (path : list Z) (atime mtime : Z)
| Chmod (mode : Z)
| Chown (uid gid : Z)
| Statfs.

(** What the kernel sees to: sizes and offsets are not negative, and the mount point is
    not removed. *)
Definition vfs_ok (r : request) : Prop :=
  match r with
  | Read _ _ size _ => 0 <= size
  | Write _ _ size offset => 0 <= size /\ offset < 2 ^ 63
  | Rmdir path => components path <> []
  | _ => True
  end.

Section FuseSpec.
Context `{Platform}.

(** The open files after a request that opens one. *)
Definition opened (handles : list ptr) (r : Z * option ptr) : list ptr :=
  match r with (_, Some p) => p :: handles | (_, None) => handles end.

(** Do [f] with an open file; libfuse hands over no other. *)
Definition with_handle (handles : list ptr) (i : nat) (f : ptr -> M world (list ptr)) : M world (list ptr) :=
  match handles !! i with Some p => f p | None => ret handles end.

(** A request, and the files that are open after it. *)
Definition serve (fuse_version : Z) (r : request) (handles : list ptr) : M world (list ptr) :=
  match r with
  | Getattr path => fuse_exfat_getattr path;; ret handles
  | Truncate path size => fuse_exfat_truncate path size;; ret handles
  | Readdir path => fuse_exfat_readdir path;; ret handles
  | Open path flags => let! reply := fuse_exfat_open fuse_version path flags in ret (opened handles reply)
  | Create path => let! reply := fuse_exfat_create path in ret (opened handles reply)
  | Release i => with_handle handles i (fun p => fuse_exfat_release (Some p);; ret (delete i handles))
  | Flush i => with_handle handles i (fun p => fuse_exfat_flush (Some p);; ret handles)
  | Fsync => fuse_exfat_fsync;; ret handles
  | Read i buffer size offset => with_handle handles i (fun p => fuse_exfat_read (Some p) buffer size offset;; ret handles)
  | Write i buffer size offset => with_handle handles i (fun p => fuse_exfat_write (Some p) buffer size offset;; ret handles)
  | Unlink path => fuse_exfat_unlink path;; ret handles
  | Rmdir path => fuse_exfat_rmdir path;; ret handles
  | Mknod path => fuse_exfat_mknod path;; ret handles
  | Mkdir path => fuse_exfat_mkdir path;; ret handles
  | Rename old_path new_path => fuse_exfat_rename old_path new_path;; ret handles
  | Utimens path atime mtime => fuse_exfat_utimens path atime mtime;; ret handles
  | Chmod mode => fuse_exfat_chmod mode;; ret handles
  | Chown uid gid => fuse_exfat_chown uid gid;; ret handles
  | Statfs => fuse_exfat_statfs;; ret handles
  end.

Fixpoint session (fuse_version : Z) (rs : list request) (handles : list ptr) : M world (list ptr) :=
  match rs with
  | [] => ret handles
  | r :: rs => let! handles := serve fuse_version r handles in session fuse_version rs handles
  end.

(** The references that open files hold. *)
Definition holding (handles : list ptr) (q : ptr) : Z := foldr (fun p n => one p 1 q + n) 0 handles.

Lemma holding_nonneg handles q : 0 <= holding handles q.
Proof.
  unfold holding. induction handles as [| p l IH]; cbn [foldr]; [lia |]. unfold one at 1. destruct (decide _); lia.
Qed.

Lemma holding_delete handles i p q : handles !! i = Some p -> holding handles q = one p 1 q + holding (delete i handles) q.
Proof.
  revert i. induction handles as [| a l IH]; intros [| i]; [done | done | by intros [= ->] |]. intros E.
  pose proof (IH i E) as IHi. change (one a 1 q + holding l q = one p 1 q + (one a 1 q + holding (delete i l) q)). lia.
Qed.

Lemma holding_elem handles i p : handles !! i = Some p -> 1 <= holding handles p.
Proof.
  intros E. rewrite (holding_delete _ _ _ _ E). pose proof (holding_nonneg (delete i handles) p).
  unfold one. rewrite decide_True by done. lia.
Qed.

(** ** Handlers on paths *)

Definition ready (w : world) : Prop := forest w /\ ef_upcase (w_ef w) <> [].

(** A handler that gets the node of a path with a reference to it, and [d] is what it
    does to the references, that one included. *)
Lemma with_path_wps {A} (fail : Z -> A) path (f : option ptr -> M world A) w (Q : A -> world -> Prop) : ready w ->
  (forall rc w', rc <> 0 -> intact (fun _ => 0) w w' -> Q (fail rc) w') ->
  (forall p w', later (one p 1) w w' -> linked w' p -> (w_root w' = Some p \/ attached (w_heap w') p) ->
     (components path <> [] -> attached (w_heap w') p) -> wps (f (Some p)) Q w') ->
  wps (with_path fail path f) Q w.
Proof.
  intros [Hf Hu] Hfail Hok. destruct (fo_root _ Hf) as (r & n & Hr & _). unfold with_path.
  eapply wps_step; [by apply wps_wpt, (exfat_lookup_later w path r) |].
  intros [rc node] w1; cbn beta; cbn [fst snd]. destruct (Z.eqb_spec rc 0) as [-> | Hrc]; cbn [negb].
  2: { intros [L _]. by apply wps_ret, Hfail, intact_later. }
  intros (p & -> & L & Hw). assert (Hr1 : w_root w1 = Some r) by (by rewrite (la_root _ _ _ L)).
  pose proof (la_forest _ _ _ L) as Hf1.
  assert (Hp : w_root w1 = Some p \/ attached (w_heap w1) p).
  { destruct (walk_root_or_attached _ _ _ _ _ Hw) as [-> |]; tauto. }
  apply Hok; [done | | done | by eapply walk_attached].
  destruct Hp; [by apply root_linked | by apply attached_is_linked].
Qed.

Lemma put_done w0 w p {A} (a : A) : ready w0 -> intact (one p 1) w0 w ->
  wps (exfat_put_node (Some p);; ret a) (fun r w' => r = a /\ intact (fun _ => 0) w0 w') w.
Proof.
  intros [Hf _] L. apply wps_wpt, (put_intact w0 w (fun _ => 0)); [exact L |].
  eapply intact_held; [exact Hf | exact L | unfold one; rewrite decide_True by done; lia].
Qed.

Lemma flush_put_done w0 w p : ready w0 -> intact (one p 1) w0 w ->
  wps (let! rc := exfat_flush_node (Some p) in exfat_put_node (Some p);; ret rc) (fun _ w' => intact (fun _ => 0) w0 w') w.
Proof.
  intros [Hf _] L. apply wps_wpt, (flush_put_intact w0 w (fun _ => 0)); [exact L |].
  eapply intact_held; [exact Hf | exact L | unfold one; rewrite decide_True by done; lia].
Qed.

Lemma getattr_safe w path : ready w -> wps (fuse_exfat_getattr path) (fun _ w' => intact (fun _ => 0) w w') w.
Proof.
  intros Hw. unfold fuse_exfat_getattr. apply with_path_wps; [exact Hw | by intros ? ? _ I |]. intros p w1 L (n & Hn & _) _ _.
  apply wps_bind, (wps_deref _ _ _ _ Hn), wps_bind, wps_get.
  eapply wps_mono; [apply (put_done w); [done | by apply intact_later] |]. by post r w' [_ I].
Qed.

Lemma truncate_safe w path size : ready w -> wps (fuse_exfat_truncate path size) (fun _ w' => intact (fun _ => 0) w w') w.
Proof.
  intros Hw. unfold fuse_exfat_truncate. apply with_path_wps; [exact Hw | by intros ? ? _ I |]. intros p w1 L (n & Hn & _) _ _. pose proof (la_forest _ _ _ L) as Hf1.
  eapply wps_step; [apply wps_wpt, (with_node_later _ _ _ n Hf1 Hn); apply steady_truncate, Z.mod_pos_bound; lia |]. post rc w2 L2.
  pose proof (intact_then _ _ _ _ (intact_later _ _ _ L) (intact_quiet _ _ L2)) as I2.
  destruct (negb _); [| by apply flush_put_done].
  eapply wps_step; [apply wps_wpt, flush_node_later; [apply I2 | eapply quiet_some; [exact L2 | eauto]] |]. post rc' w3 L3.
  eapply wps_mono; [apply (put_done w w3 p rc Hw (intact_then _ _ _ _ I2 (intact_quiet _ _ L3))) |]. by post r w' [_ I].
Qed.

Lemma utimens_safe w path atime mtime : ready w ->
  wps (fuse_exfat_utimens path atime mtime) (fun _ w' => intact (fun _ => 0) w w') w.
Proof.
  intros Hw. unfold fuse_exfat_utimens. apply with_path_wps; [exact Hw | by intros ? ? _ I |]. intros p w1 L (n & Hn & _) _ _. pose proof (la_forest _ _ _ L) as Hf1.
  eapply wps_step; [apply wps_wpt, (with_node_later _ _ _ n Hf1 Hn); by apply steady_set_node |]. post rc w2 L2.
  apply flush_put_done; [done |]. exact (intact_then _ _ _ _ (intact_later _ _ _ L) (intact_quiet _ _ L2)).
Qed.

(** Opening holds a reference to the node that is returned. *)
Definition opens (w : world) (r : Z * option ptr) (w' : world) : Prop :=
  intact (fun q => match r.2 with Some p => one p 1 q | None => 0 end) w w'.

Lemma open_safe v w path flags : ready w -> wps (fuse_exfat_open v path flags) (opens w) w.
Proof.
  intros Hw. unfold fuse_exfat_open. apply with_path_wps; [exact Hw | by intros ? ? _ I |]. intros p w1 L (n & Hn & _) _ _. pose proof (la_forest _ _ _ L) as Hf1.
  destruct (_ && _); [| by apply wps_ret, intact_later].
  eapply wps_step; [apply wps_wpt, (with_node_later _ _ _ n Hf1 Hn); apply steady_truncate; lia |]. post rc w2 L2.
  pose proof (intact_then _ _ _ _ (intact_later _ _ _ L) (intact_quiet _ _ L2)) as I2.
  destruct (negb _); [| by apply wps_ret].
  eapply wps_mono; [apply (put_done w w2 p (rc, None) Hw I2) |]. by post r w' [-> I].
Qed.

Lemma mknod_safe w path attrib : ready w -> wps (create path attrib) (fun _ w' => intact (fun _ => 0) w w') w.
Proof.
  intros [Hf Hu]. destruct (fo_root _ Hf) as (r & n & Hr & _). eapply wps_mono; [by eapply create_after |].
  post rc w' [A _]. by apply intact_grows.
Qed.

Lemma ready_intact d w w' : ready w -> intact d w w' -> ready w'.
Proof. intros [_ Hu] I. split; [apply I | by eapply intact_upcase]. Qed.

Lemma create_safe w path : ready w -> wps (fuse_exfat_create path) (opens w) w.
Proof.
  intros Hw. eapply wps_step; [by apply mknod_safe |]. post rc w1 I1. destruct (negb _); [by apply wps_ret |].
  apply with_path_wps; [by eapply ready_intact | |].
  - intros rc' w' _ I. by eapply intact_then.
  - intros p w2 L _ _ _. apply wps_ret. eapply intact_trans; [exact I1 | by apply intact_later | intros q; cbn [fst snd]; lia].
Qed.

(** Removing a node. *)
Lemma remove_safe w path (remove : option ptr -> M world Z) : ready w ->
  (forall p w', later (one p 1) w w' -> (w_root w' = Some p \/ attached (w_heap w') p) ->
     (components path <> [] -> attached (w_heap w') p) ->
     wps (remove (Some p)) (fun rc w'' => after {[p]} (fun _ => 0) w' w'' /\ is_Some (w_heap w'' !! p) /\
       (rc = 0 -> attached (w_heap w') p /\ removable w'' p)) w') ->
  wps (with_path id path (fun node =>
    let! rc := remove node in
    exfat_put_node node;;
    if negb (rc =? 0) then ret rc else exfat_cleanup_node node)) (fun _ w' => intact (fun _ => 0) w w') w.
Proof.
  intros Hw Hrm. apply with_path_wps; [exact Hw | by intros ? ? _ I |]. intros p w1 L _ Hp Hp'. eapply wps_step; [by apply Hrm |].
  post rc w2 (A2 & Hp2 & Hrc). pose proof (af_forest _ _ _ _ A2) as Hf2.
  apply wps_bind, wps_put_node; [done |]. intros Hr. pose proof (put_later p w2 Hf2 Hr) as L3.
  assert (I3 : intact (fun _ => 0) w (bump p (-1) w2)).
  { eapply (intact_trans (one p 1) (one p (-1))); [by apply intact_later | | refs_eq].
    eapply intact_trans; [by eapply intact_after | by apply intact_later | refs_eq]. }
  destruct (Z.eqb_spec rc 0) as [E | E]; cbn [negb]; [| by apply wps_ret]. destruct (Hrc E) as [Ha Hrem].
  eapply wps_mono; [apply wps_wpt, cleanup_after; [apply I3 | by eapply removable_later |] |].
  - rewrite (la_root _ _ _ L3), (af_root _ _ _ _ A2). apply attached_not_root; [apply L | done].
  - post ? w4 [A4 _]. eapply intact_then; [exact I3 | by eapply intact_after].
Qed.

Lemma unlink_safe w path : ready w -> wps (fuse_exfat_unlink path) (fun _ w' => intact (fun _ => 0) w w') w.
Proof.
  intros Hw. unfold fuse_exfat_unlink. apply remove_safe; [done |]. intros p w1 L Hp _.
  eapply wps_mono; [apply wps_wpt, unlink_later; [apply L | done] |]. post rc w2 (A & S & R & E). split_and!; [done | done |].
  intros Hrc. destruct (E Hrc). auto.
Qed.

Lemma rmdir_safe w path : ready w -> components path <> [] ->
  wps (fuse_exfat_rmdir path) (fun _ w' => intact (fun _ => 0) w w') w.
Proof.
  intros Hw Hc. unfold fuse_exfat_rmdir. apply remove_safe; [done |]. intros p w1 L _ Hp. specialize (Hp Hc).
  eapply wps_mono; [apply wps_wpt, rmdir_after; [apply L | done] |]. post rc w2 (A & R & _). split_and!; [done | | done].
  destruct R as (n & ? & _). eauto.
Qed.

(** *** Reading a directory *)

Lemma readdir_loop_safe d : forall l2 l1 fuel w buffer, forest w -> children (w_heap w) d (l1 ++ l2) ->
  (length l2 < fuel)%nat ->
  wpt (fuse_readdir_loop fuel (mk_exfat_iterator (Some d) (last_or None l1)) buffer)
    (fun r w' => it_parent r.2 = Some d /\ length r.1 = (length buffer + length l2)%nat /\ later (fun _ => 0) w w') w.
Proof.
  induction l2 as [| p l2 IH]; intros l1 [| fuel] w buffer Hf Hl Hfuel; cbn [length] in Hfuel; try lia; cbn [fuse_readdir_loop].
  - apply wpt_bind. unfold wpt at 1. rewrite (readdir_ok w d l1 [] Hl). apply wpt_ret.
    split_and!; [done | by rewrite Nat.add_0_r | by apply later_refl].
  - destruct (segment_elem _ _ _ _ _ p (ch_list _ _ _ Hl)) as [n Hn]; [set_solver |].
    apply wpt_bind. unfold wpt at 1. rewrite (readdir_ok w d l1 (p :: l2) Hl).
    pose proof (get_later p w Hf ltac:(eauto)) as L1. pose proof (la_forest _ _ _ L1) as Hf1.
    apply wpt_bind. eapply wpt_deref. { rewrite bump_lookup, decide_True, Hn by done. cbn. done. }
    apply wpt_bind, wpt_get_name. intros name. apply wpt_bind, wpt_get.
    apply wpt_bind, wpt_put_node; [eapply later_dom; [exact L1 | by eexists] |]. intros Hr.
    pose proof (put_later p _ Hf1 Hr) as L2.
    assert (L12 : later (fun _ => 0) w (bump p (-1) (bump p 1 w))) by (eapply later_trans; [exact L1 | exact L2 | refs_eq]).
    replace (Some p) with (last_or None (l1 ++ [p])) by (by rewrite last_or_app).
    eapply wpt_mono; [apply (IH (l1 ++ [p]) fuel); [apply L2 | | lia] |].
    { rewrite <- app_assoc. by do 2 apply bump_children. }
    post r w3 (Hit & Hlen & L3). split_and!; [done | | by eapply later_zero].
    rewrite Hlen, length_app. cbn [length]. lia.
Qed.

Lemma readdir_safe w path : ready w -> wps (fuse_exfat_readdir path) (fun _ w' => intact (fun _ => 0) w w') w.
Proof.
  intros Hw. unfold fuse_exfat_readdir. apply with_path_wps; [exact Hw | by intros ? ? _ I |].
  intros p w1 L Hp _ _. pose proof Hp as (n & Hn & _). pose proof (la_forest _ _ _ L) as Hf1. pose proof (intact_later _ _ _ L) as I1.
  (* the ways out that report an error *)
  assert (Herr : forall w2 (rc : Z) buffer, intact (one p 1) w w2 ->
    wps (exfat_put_node (Some p);; on_world_os exfat_error;; ret (rc, buffer : list dir_entry))
      (fun _ w' => intact (fun _ => 0) w w') w2).
  { intros w2 rc buffer I2. apply wps_bind, wps_put_node.
    { eapply intact_held; [apply Hw | exact I2 | unfold one; rewrite decide_True by done; lia]. }
    intros Hr. assert (I3 : intact (fun _ => 0) w (bump p (-1) w2)).
    { eapply intact_trans; [exact I2 | apply intact_later, put_later; [apply I2 | done] | refs_eq]. }
    eapply wps_step; [apply wps_wpt, os_later; [apply I3 | intros e; apply wpt_ret; exact I] |]. post ? w4 L4.
    apply wps_ret. by eapply intact_then, intact_quiet. }
  apply wps_bind, (wps_deref _ _ _ _ Hn). destruct (negb _); [by apply Herr |].
  eapply wps_step; [by apply wps_wpt, opendir_later |]. intros [rc it] w2; cbn beta; cbn [fst snd]. intros (-> & _ & L2 & _).
  destruct (Z.eqb_spec rc 0) as [-> | Hrc]; cbn [negb].
  2: { apply Herr. eapply intact_then; [exact I1 | by apply intact_later]. }
  pose proof (la_forest _ _ _ L2) as Hf2. apply wps_bind, wps_get.
  destruct (fo_list _ Hf2 p) as [l Hl]; [eapply later_dom; [exact L2 | by apply linked_some] |].
  pose proof (segment_heap_length _ _ _ Hl) as Hlen.
  eapply wps_step; [apply wps_wpt, (readdir_loop_safe p l []); [done | exact Hl | unfold tree_fuel; lia] |].
  intros [buffer it] w3; cbn beta; cbn [fst snd]. intros (Hit & _ & L3). unfold exfat_closedir. rewrite Hit.
  assert (I3 : intact (fun q => one p 1 q + one p 1 q) w w3).
  { eapply intact_trans; [exact I1 | eapply intact_then; [by apply intact_later | by apply intact_later] | refs_eq]. }
  apply wps_bind, wps_put_node.
  { eapply intact_held; [apply Hw | exact I3 | unfold one; rewrite decide_True by done; lia]. }
  intros Hr. eapply wps_mono; [apply (put_done w _ p (0, buffer) Hw) |]; [| by post r w' [_ I]].
  eapply intact_trans; [exact I3 | apply intact_later, put_later; [apply L3 | done] | refs_eq].
Qed.

(** ** Handlers on open files *)

Lemma release_safe w0 w d p : ready w0 -> intact (fun q => d q + one p 1 q) w0 w -> is_Some (w_heap w !! p) ->
  wps (fuse_exfat_release (Some p)) (fun _ w' => intact d w0 w') w.
Proof.
  intros Hw I1 Hp. unfold fuse_exfat_release.
  eapply wps_step; [apply wps_wpt, flush_node_later; [apply I1 | done] |]. post ? w1 L1.
  eapply wps_mono; [apply wps_wpt, (put_intact w0 w1 d p 0) |].
  - by eapply intact_then, intact_quiet.
  - by eapply quiet_some.
  - by post r w2 [_ I].
Qed.

Lemma fsync_safe w : ready w -> wps fuse_exfat_fsync (fun _ w' => intact (fun _ => 0) w w') w.
Proof.
  intros [Hf _]. unfold fuse_exfat_fsync. apply wps_and_then.
  eapply wps_mono; [by apply wps_wpt, exfat_flush_nodes_quiet |]. post rc w1 L1. destruct (negb _); [by apply intact_quiet |].
  apply wps_and_then. eapply wps_mono; [apply wps_wpt, vol_later; [by eapply quiet_forest | apply vsteady_flush] |].
  post rc' w2 L2. assert (L02 : quiet w w2) by (by eapply quiet_trans'). destruct (negb _); [by apply intact_quiet |].
  eapply wps_mono; [apply wps_wpt, os_later; [by eapply quiet_forest |] |].
  - intros e. unfold State.exfat_fsync, wpt, bind. by repeat (case_match || cbn).
  - post rc2 w3 L3. apply intact_quiet. by eapply quiet_trans'.
Qed.

Lemma with_node_safe {A B} (m : M nstate A) (k : A -> M world B) w p n : forest w -> w_heap w !! p = Some n ->
  steady m (mk_nstate (w_vol w) n) -> (forall a w', wps (k a) (fun _ w'' => w'' = w') w') ->
  wps (let! a := with_node (Some p) m in k a) (fun _ w' => intact (fun _ => 0) w w') w.
Proof.
  intros Hf Hp Hm Hk. eapply wps_step; [by apply wps_wpt, (with_node_later _ _ _ n) |]. post a w1 L1.
  eapply wps_mono; [apply Hk |]. post b w2 ->. by apply intact_quiet.
Qed.

Lemma read_safe w p buffer size offset : forest w -> is_Some (w_heap w !! p) -> 0 <= size ->
  wps (fuse_exfat_read (Some p) buffer size offset) (fun _ w' => intact (fun _ => 0) w w') w.
Proof.
  intros Hf [n Hp] Hs. unfold fuse_exfat_read. apply (with_node_safe _ _ w p n Hf Hp).
  - apply steady_pread; [by eapply forest_sizes64 | done].
  - intros [r b] w'. by apply wps_ret.
Qed.

Lemma write_safe w p buffer size offset : forest w -> is_Some (w_heap w !! p) -> 0 <= size -> offset < 2 ^ 63 ->
  wps (fuse_exfat_write (Some p) buffer size offset) (fun _ w' => intact (fun _ => 0) w w') w.
Proof.
  intros Hf [n Hp] Hs Ho. unfold fuse_exfat_write. apply (with_node_safe _ _ w p n Hf Hp).
  - apply steady_pwrite; [by eapply forest_sizes64 | done | lia].
  - intros r w'. by apply wps_ret.
Qed.

(** ** Sessions *)

(** A step of a session in which the open files hold [holding handles]. *)
Lemma serve_safe v r w0 w handles : ready w0 -> intact (holding handles) w0 w -> vfs_ok r ->
  wps (serve v r handles) (fun handles' w' => intact (holding handles') w0 w') w.
Proof.
  intros Hw0 I0 Hr. assert (Hw : ready w) by (by eapply ready_intact). destruct Hw as [Hf Hu] eqn:Ew. clear Ew.
  destruct (fo_root _ Hf) as (root & nr & Hroot & _).
  assert (Hkeep : forall A (m : M world A), wps m (fun _ w' => intact (fun _ => 0) w w') w ->
    wps (m;; ret handles) (fun handles' w' => intact (holding handles') w0 w') w).
  { intros A m Hm. eapply wps_step; [exact Hm |]. post a w1 I1. apply wps_ret. by eapply intact_then. }
  assert (Hopen : forall m : M world (Z * option ptr), wps m (opens w) w ->
    wps (let! reply := m in ret (opened handles reply)) (fun handles' w' => intact (holding handles') w0 w') w).
  { intros m Hm. eapply wps_step; [exact Hm |]. intros [rc [p |]] w1; unfold opens; cbn [fst snd opened]; intros I1; apply wps_ret.
    - eapply intact_trans; [exact I0 | exact I1 |]. intros q. change (holding (p :: handles) q) with (one p 1 q + holding handles q). cbn beta. lia.
    - by eapply intact_then. }
  assert (Hhandle : forall i (f : ptr -> M world (list ptr)),
    (forall p, handles !! i = Some p -> is_Some (w_heap w !! p) ->
       wps (f p) (fun handles' w' => intact (holding handles') w0 w') w) ->
    wps (with_handle handles i f) (fun handles' w' => intact (holding handles') w0 w') w).
  { intros i f Hi. unfold with_handle. destruct (handles !! i) as [p |] eqn:E; [| by apply wps_ret]. apply Hi; [done |].
    eapply intact_held; [apply Hw0 | exact I0 | by eapply holding_elem]. }
  destruct r; cbn [serve vfs_ok] in *.
  - by apply Hkeep, getattr_safe.
  - by apply Hkeep, truncate_safe.
  - by apply Hkeep, readdir_safe.
  - by apply Hopen, open_safe.
  - by apply Hopen, create_safe.
  - apply Hhandle. intros p Hi Hp. eapply wps_step; [apply (release_safe w0 w (holding (delete i handles)) p); [done | | done] |].
    + eapply intact_trans; [exact I0 | apply intact_quiet, quiet_refl, Hf | intros q; cbn beta; rewrite (holding_delete _ _ _ q Hi); lia].
    + post ? w1 I1. by apply wps_ret.
  - apply Hhandle. intros p _ Hp. apply Hkeep. eapply wps_mono; [by apply wps_wpt, flush_node_later |]. post ? w1 L1. by apply intact_quiet.
  - by apply Hkeep, fsync_safe.
  - apply Hhandle. intros p _ Hp. by apply Hkeep, read_safe.
  - apply Hhandle. intros p _ Hp. destruct Hr. by apply Hkeep, write_safe.
  - by apply Hkeep, unlink_safe.
  - by apply Hkeep, rmdir_safe.
  - by apply Hkeep, mknod_safe.
  - by eapply Hkeep, mkdir_intact.
  - by eapply Hkeep, rename_intact.
  - by apply Hkeep, utimens_safe.
  - by apply Hkeep, wps_ret, intact_quiet, quiet_refl.
  - apply Hkeep. by apply wps_bind, wps_get, wps_ret, intact_quiet, quiet_refl.
  - apply Hkeep. by apply wps_bind, wps_get, wps_ret, intact_quiet, quiet_refl.
Qed.

Lemma session_safe v rs : forall w0 w handles, ready w0 -> intact (holding handles) w0 w -> Forall vfs_ok rs ->
  wps (session v rs handles) (fun handles' w' => intact (holding handles') w0 w') w.
Proof.
  induction rs as [| r rs IH]; intros w0 w handles Hw0 I0 Hrs; cbn [session]; [by apply wps_ret |].
  apply Forall_cons in Hrs as [Hr Hrs]. eapply wps_step; [by apply serve_safe |]. post handles1 w1 I1. by apply IH.
Qed.
End FuseSpec.

(** C4: Any sequence of requests, on any medium, with any failures of the device and of
    the allocator: every request ends.  No handler uses a null pointer or a node that
    was freed; the nodes stay a tree of directories with proper lists of children; and
    after every request the references to a node are those of the open files (and those
    that were there before).  The process may only be stopped by [exfat_bug], or by the
    store of [find_slot] past its bitmap. *)
Theorem fuse_session_safe `{Platform} fuse_version rs w
  (Hf : forest w) (Hup : ef_upcase (w_ef w) <> []) (Hrs : Forall vfs_ok rs) :
  wps (session fuse_version rs []) (fun handles w' =>
    forest w' /\ same_volume w w' /\ w_root w' = w_root w /\
    forall q, refs w' q = refs w q + holding handles q) w.
Proof.
  eapply wps_mono; [apply (session_safe fuse_version rs w w []); [done | | done] |].
  - apply intact_quiet. by apply quiet_refl.
  - intros handles w' []. done.
Qed.

#[local] Existing Instance word_le64.

(** The file "/a" is opened twice, read and closed once; its directory is listed, and it is
    renamed to itself. *)
Definition demo_session : list request :=
  [Open [0x2f; 0x61] 0; Getattr [0x2f; 0x61]; Open [0x2f; 0x61] 0; Read 0 (zrepeat 0 4) 4 0; Release 1; Readdir [0x2f];
   Rename [0x2f; 0x61] [0x2f; 0x61]].

Example demo_session_handles : match session 26 (take 6 demo_session) [] demo_forest with Ok r _ => r = [2%N] | _ => False end.
Proof. by vm_compute. Qed.

Lemma fuse_session_safe_witness :
  wps (session 26 demo_session []) (fun handles w' =>
    forest w' /\ same_volume demo_forest w' /\ w_root w' = w_root demo_forest /\
    forall q, refs w' q = refs demo_forest q + holding handles q) demo_forest.
Proof.
  apply fuse_session_safe; [exact demo_forest_ok | done |]. repeat constructor. cbn. lia.
Defined.
