(* ===== verification/Fsck.v ===== *)
(** * Fsck: checking a volume (fsck/main.c)

    The walk over all directories, the check of the clusters of a node, and the
    program.  What [getopt] finds and whether the input is a terminal are arguments;
    a result of the program is its exit code and the two totals.  The walk follows
    the directories of the medium as deep as they go: its depth is an argument. *)

From Stdlib Require Import ZArith Lia.
From stdpp Require Import base numbers list gmap strings.
From S2P Require Import Prelude Bytes Monad Ondisk State Utf Bitmap Geometry Cluster FileIO Chain Truncate Content ReadWrite Utils ExfatTime Entries NodeTree Lookup LookupSpec Mount.

#[local] Open Scope Z_scope.

Section Fsck.
Context `{Platform}.

(** ** Definitions *)

(** The loop of [nodeck]: [clusters] turns from the cluster [c]. *)
Fixpoint nodeck_loop (clusters : nat) (c rc : Z) : M nstate Z :=
  match clusters with
  | O => ret rc
  | S clusters =>
      let! s := get_state in
      let ef := s_ef s in
      if CLUSTER_INVALID (ef_sb ef) c then
        let! _ := exfat_get_name (S := nstate) (s_node s) in
        on_os exfat_error;;
        ret 1
      else
        let! rc :=
          if negb (BMAP_GET (ef_cmap_chunk ef) (c - EXFAT_FIRST_DATA_CLUSTER)) then
            let! _ := exfat_get_name (S := nstate) (s_node s) in
            on_os exfat_error;;
            ret 1
          else ret rc in
        let! c := exfat_next_cluster c in
        nodeck_loop clusters c rc
  end.

Definition nodeck : M nstate Z :=
  let! s := get_state in
  let cluster_size := CLUSTER_SIZE (ef_sb (s_ef s)) in
  let clusters := u32 (u64 (n_size (s_node s) + cluster_size - 1) / cluster_size) in
  nodeck_loop (Z.to_nat clusters) (n_start_cluster (s_node s)) 0.

(** [files_count] and [directories_count] *)
Record totals : Type := mk_totals {
  files_count : Z;
  directories_count : Z
}.

(** [dirck] calls itself for the directories that it finds: [depth] bounds how deep
    they are nested.  The loop over one directory is the inner one. *)
Fixpoint dirck (depth : nat) (path : list Z) (t : totals) : M world totals :=
  match depth with
  | O => diverge
  | S depth =>
      let fix entries (fuel : nat) (it : exfat_iterator) (t : totals) : M world (exfat_iterator * totals) :=
        match fuel with
        | O => diverge
        | S fuel =>
            let! (node, it) := exfat_readdir it in
            match node with
            | None => ret (it, t)
            | Some _ =>
                let! n := deref node in
                let! name := exfat_get_name (S := world) n in
                let! t :=
                  if is_dir n then
                    dirck depth (path ++ [slash] ++ name)
                      (mk_totals (files_count t) (u64 (directories_count t + 1)))
                  else
                    with_node node nodeck;;
                    ret (mk_totals (u64 (files_count t + 1)) (directories_count t)) in
                exfat_flush_node node;;
                exfat_put_node node;;
                entries fuel it t
            end
        end in
      let! (rc, parent) := exfat_lookup path in
      if negb (rc =? 0) then exfat_bug
      else
        let! p := deref parent in
        if negb (is_dir p) then exfat_bug
        else
          let! rc := with_node parent nodeck in
          if negb (rc =? 0) then exfat_put_node parent;; ret t
          else
            let! ok := on_world_os malloc_ok in
            if negb ok then exfat_put_node parent;; on_world_os exfat_error;; ret t
            else
              let! (rc, it) := exfat_opendir parent in
              if negb (rc =? 0) then exfat_put_node parent;; ret t
              else
                let! w := get_state in
                let! (it, t) := entries (tree_fuel w) it t in
                exfat_closedir it;;
                exfat_flush_node parent;;
                exfat_put_node parent;;
                ret t
  end.

(** Whether checking has started, and the totals. *)
Definition fsck (depth : nat) (o : open_answers) (euid egid : Z) (options : list Z) : M world (bool * totals) :=
  let zero := mk_totals 0 0 in
  let! rc := exfat_mount o euid egid options in
  if rc =? - ENODEV then ret (false, zero)
  else if negb (rc =? 0) then ret (true, zero)
  else
    on_part (S := world) exfat_soil_super_block;;
    let! t := dirck depth [] zero in
    exfat_unmount;;
    ret (true, t).

(** The loop over the options: the mount options, or the exit code. *)
Fixpoint fsck_options (opts : list Z) (options : list Z) : Z + list Z :=
  match opts with
  | [] => inr options
  | opt :: opts =>
      if (opt =? char "a") || (opt =? char "p") || (opt =? char "y") then fsck_options opts (str "repair=2")
      else if opt =? char "n" then fsck_options opts (str "repair=0,ro")
      else if opt =? char "V" then inl 0
      else inl 1
  end.

(** [args] is the number of arguments that are no options. *)
Definition main (depth : nat) (o : open_answers) (euid egid : Z) (isatty : bool) (opts : list Z) (args : Z)
  : M world (Z * totals) :=
  let zero := mk_totals 0 0 in
  match fsck_options opts (if isatty then str "repair=1" else str "repair=0") with
  | inl code => ret (code, zero)
  | inr options =>
      if negb (args =? 1) then ret (1, zero)
      else
        let! (started, t) := fsck depth o euid egid options in
        if negb started then ret (1, t)
        else
          let! w := get_state in
          ret (if negb (os_errors (v_os (w_vol w)) =? 0) then 1 else 0, t)
  end.
End Fsck.

(** ** What [nodeck] accepts *)

Section Nodeck.
Context `{Platform}.

(** The cluster behind [c] in a file, and the [i]-th one from [c]. *)
Definition behind (s : nstate) (c : Z) : Z :=
  if n_is_contiguous (s_node s) then u32 (c + 1) else fat_next (v_sb (s_vol s)) (v_medium (s_vol s)) c.

Definition follow (s : nstate) (c : Z) (i : nat) : Z := Nat.iter i (behind s) c.

(** A cluster that a file may have. *)
Definition sound (s : nstate) (c : Z) : Prop := valid_cluster (v_sb (s_vol s)) c /\ used (s_vol s) c = true.

(** The same node and volume, and [k] more errors. *)
Definition with_errors (k : Z) (s : nstate) : nstate :=
  set_s_vol (set_v_os (set_os_errors (os_errors (s_os s) + k) (s_os s)) (s_vol s)) s.

Lemma with_errors_0 s : with_errors 0 s = s.
Proof. unfold with_errors. rewrite Z.add_0_r. by destruct s as [[? []] ?]. Qed.

Lemma with_errors_add j k s : with_errors j (with_errors k s) = with_errors (k + j) s.
Proof. unfold with_errors, s_os. cbn. by rewrite Z.add_assoc. Qed.

Lemma with_errors_ok k s : vol_ok (s_vol s) -> vol_ok (s_vol (with_errors k s)).
Proof. intros [A1 A2 A3 A4 A5]. by split. Qed.

Lemma error_with_errors s : on_os exfat_error s = Ok tt (with_errors 1 s).
Proof. done. Qed.

Lemma behind_u32 s c : in_u 32 (behind s c).
Proof.
  unfold behind. destruct (n_is_contiguous _); [apply u32_range |]. unfold fat_next, in_u.
  pose proof (le_val_range (mread (v_medium (s_vol s)) (fat_off (v_sb (s_vol s)) c) 4)) as Hr.
  rewrite zlen_mread in Hr by done. exact Hr.
Qed.

Lemma follow_S s c i : follow s c (S i) = follow s (behind s c) i.
Proof. unfold follow. by rewrite Nat.iter_succ_r. Qed.

Lemma nodeck_loop_spec n : forall s c rc, vol_ok (s_vol s) -> in_u 32 c ->
  wpt (nodeck_loop n c rc) (fun r s' => exists k, 0 <= k /\ s' = with_errors k s /\
    (r = 0 <-> rc = 0 /\ forall i, (i < n)%nat -> sound s (follow s c i)) /\ (rc = 0 -> (r = 0 <-> k = 0))) s.
Proof.
  induction n as [| n IH]; intros s c rc Hv Hc; cbn [nodeck_loop].
  { apply wpt_ret. exists 0. split_and!; [done | by rewrite with_errors_0 | | naive_solver].
    split; [intros ->; split; [done | lia] | tauto]. }
  pose proof (vo_geometry _ Hv) as Hg. apply wpt_bind, wpt_get. change (ef_sb (s_ef s)) with (v_sb (s_vol s)).
  rewrite CLUSTER_INVALID_spec by done. destruct (bool_decide_reflect (valid_cluster (v_sb (s_vol s)) c)) as [Hval | Hval]; cbn [negb].
  2: { apply wpt_bind, wpt_get_name. intros _. apply wpt_bind. unfold wpt at 1. rewrite error_with_errors.
       apply wpt_ret. exists 1. split_and!; [done | done | | done]. split; [done |]. intros [_ Hs]. by destruct (Hs 0%nat ltac:(lia)). }
  assert (Ebit : BMAP_GET (ef_cmap_chunk (s_ef s)) (c - EXFAT_FIRST_DATA_CLUSTER) = used (s_vol s) c).
  { unfold used, EXFAT_FIRST_DATA_CLUSTER. unfold valid_cluster in Hval. apply BMAP_GET_bit; [apply Hv | lia]. }
  rewrite Ebit. clear Ebit.
  assert (Hgo : forall k rc', 0 <= k -> (k = 0 <-> rc' = rc /\ used (s_vol s) c = true) ->
    (rc' = 0 <-> rc = 0 /\ used (s_vol s) c = true) ->
    wpt (let! c := exfat_next_cluster c in nodeck_loop n c rc') (fun r s' => exists k, 0 <= k /\ s' = with_errors k s /\
      (r = 0 <-> rc = 0 /\ forall i, (i < S n)%nat -> sound s (follow s c i)) /\ (rc = 0 -> (r = 0 <-> k = 0)))
      (with_errors k s)).
  { intros k rc' Hk Hk0 Hrc'. apply wpt_bind. unfold wpt at 1. rewrite next_cluster_spec; [| by apply with_errors_ok | unfold valid_cluster in Hval; lia].
    change (wpt (nodeck_loop n (behind s c) rc') (fun r s' => exists k, 0 <= k /\ s' = with_errors k s /\
      (r = 0 <-> rc = 0 /\ forall i, (i < S n)%nat -> sound s (follow s c i)) /\ (rc = 0 -> (r = 0 <-> k = 0))) (with_errors k s)).
    eapply wpt_mono; [apply IH; [by apply with_errors_ok | apply behind_u32] |]. intros r s' (j & Hj & -> & Hr & Hr0).
    exists (k + j). rewrite with_errors_add. split_and!; [lia | done | |].
    - rewrite Hr, Hrc'. split.
      + intros [[-> Hu] Hs]. split; [done |]. intros [| i] Hi; [done |]. rewrite follow_S. apply Hs. lia.
      + intros [-> Hs]. split; [split; [done | apply (Hs 0%nat ltac:(lia))] |]. intros i Hi.
        specialize (Hs (S i) ltac:(lia)). by rewrite follow_S in Hs.
    - intros ->. destruct (decide (rc' = 0)) as [-> | Hne].
      + rewrite (Hr0 eq_refl). destruct (proj1 Hrc' eq_refl) as [_ Hu]. assert (k = 0) by tauto. lia.
      + split; [intros ->; destruct (proj1 Hr eq_refl); done |]. intros E. assert (k = 0) as -> by lia. tauto. }
  destruct (used (s_vol s) c) eqn:Hu; cbn [negb].
  - apply wpt_bind, wpt_ret. pose proof (Hgo 0 rc) as Hgo0. rewrite with_errors_0 in Hgo0. apply Hgo0; tauto || lia.
  - apply wpt_bind, wpt_bind, wpt_get_name. intros _. apply wpt_bind. unfold wpt at 1. rewrite error_with_errors.
    apply wpt_ret. apply Hgo; [done | |]; (split; [done | by intros [_ ?]]).
Qed.
End Nodeck.

(** C26: What [exfatfsck] accepts.  On a device that does not fail, [nodeck] ends on
    every node, changes nothing but the number of errors, and returns 0 exactly when
    each of the clusters that the size asks for, followed from the first one, is a
    cluster of the volume and is allocated; it reports an error exactly when it does
    not return 0. *)
Theorem nodeck_iff `{Platform} s (Hv : vol_ok (s_vol s)) (Hc : in_u 32 (n_start_cluster (s_node s))) :
  wpt nodeck
    (fun r s' => exists k, 0 <= k /\ s' = with_errors k s /\ (r = 0 <-> k = 0) /\
       (r = 0 <-> forall i, (i < Z.to_nat (bytes2clusters (s_ef s) (n_size (s_node s))))%nat ->
          sound s (follow s (n_start_cluster (s_node s)) i))) s.
Proof.
  unfold nodeck. apply wpt_bind, wpt_get. eapply wpt_mono; [by apply nodeck_loop_spec |].
  intros r s' (k & Hk & -> & Hr & Hr0). exists k. split_and!; [done | done | by apply Hr0 |]. rewrite Hr. unfold bytes2clusters. tauto.
Qed.

#[local] Existing Instance word_le64.

Lemma nodeck_iff_witness :
  wpt nodeck
    (fun r s' => exists k, 0 <= k /\ s' = with_errors k demo_state /\ (r = 0 <-> k = 0) /\
       (r = 0 <-> forall i, (i < Z.to_nat (bytes2clusters (s_ef demo_state) 600))%nat ->
          sound demo_state (follow demo_state 4 i))) demo_state.
Proof. apply (nodeck_iff demo_state demo_vol_ok). by vm_compute. Defined.
