(* ===== verification/Dump.v ===== *)
(** * Dump: showing a volume (dump/main.c)

    What the program prints is its result: the numbers of the super block, the
    ranges of used sectors, and the fragments of a file. *)

From Stdlib Require Import ZArith Lia.
From stdpp Require Import base numbers list gmap strings.
From S2P Require Import Prelude Bytes Monad Ondisk State Utf Bitmap Geometry Cluster FileIO Chain Truncate Content ReadWrite Utils ExfatTime Entries NodeTree Lookup Mount.

#[local] Open Scope Z_scope.

Section Dump.
Context `{Platform}.

(** ** Definitions *)

(** A line that is printed: a label is known by its place. *)
Definition print_generic_info (sb : super_block) : list Z :=
  [sb_volume_serial sb; sb_version_major sb; sb_version_minor sb; SECTOR_SIZE sb; CLUSTER_SIZE sb].

Definition print_sector_info (sb : super_block) : list Z := [sb_sector_count sb].

Definition print_cluster_info (sb : super_block) : list Z := [sb_cluster_count sb].

Definition print_other_info (sb : super_block) : list Z :=
  [sb_sector_start sb; sb_fat_sector_start sb; sb_fat_sector_count sb; sb_cluster_sector_start sb;
   sb_rootdir_cluster sb; sb_volume_state sb; sb_fat_count sb; sb_drive_no sb; sb_allocated_percent sb].

(** The exit code, and what was printed. *)
Definition dump_sb (o : open_answers) : M world (Z * list Z) :=
  let! ok := on_world_os (exfat_open o EXFAT_MODE_RO) in
  if negb ok then ret (1, [])
  else
    let! r := on_world_os (exfat_pread 512 0) in
    match r with
    | None => on_world_os exfat_error;; ret (1, [])
    | Some bytes =>
        let sb := super_block_of bytes in
        if negb (bool_decide (sb_oem_name sb = oem_name)) then on_world_os exfat_error;; ret (1, [])
        else
          ret (0, print_generic_info sb ++ print_sector_info sb ++ print_cluster_info sb ++ print_other_info sb)
    end.

(** The loop of [dump_sectors]; each turn finds clusters behind the last ones. *)
Fixpoint dump_sectors_loop (fuel : nat) (ef : exfat) (a b : Z) : M world (list (Z * Z)) :=
  match fuel with
  | O => diverge
  | S fuel =>
      let! r := exfat_find_used_sectors ef a b in
      match r with
      | None => ret []
      | Some (a, b) =>
          let! more := dump_sectors_loop fuel ef a b in
          ret ((a, b) :: more)
      end
  end.

Definition dump_sectors : M world (list (Z * Z)) :=
  let! w := get_state in
  let ef := w_ef w in
  dump_sectors_loop (S (Z.to_nat (sb_cluster_count (ef_sb ef)))) ef 0 0.

(** What [dump_full] prints. *)
Record full_info : Type := mk_full_info {
  fi_label : list Z;
  fi_free_sectors : Z;
  fi_free_clusters : Z;
  fi_numbers : list Z;
  fi_used_sectors : list (Z * Z)
}.

Definition dump_full (o : open_answers) (euid egid : Z) (used_sectors : bool) : M world (Z * option full_info) :=
  let! rc := exfat_mount o euid egid (str "ro") in
  if negb (rc =? 0) then ret (1, None)
  else
    let! w := get_state in
    let ef := w_ef w in
    let sb := ef_sb ef in
    let free_clusters := exfat_count_free_clusters ef in
    let free_sectors := u64 (Z.shiftl free_clusters (sb_spc_bits sb)) in
    let! ranges := if used_sectors then dump_sectors else ret [] in
    exfat_unmount;;
    ret (0, Some {|
      fi_label := exfat_get_label ef;
      fi_free_sectors := free_sectors;
      fi_free_clusters := free_clusters;
      fi_numbers := print_generic_info sb ++ print_sector_info sb ++ print_cluster_info sb ++ print_other_info sb;
      fi_used_sectors := ranges |}).

(** The loop of [dump_file_fragments]: the exit code and the fragments that were
    printed.  A turn takes a cluster's size from [remainder]. *)
Fixpoint fragments_loop (fuel : nat) (cluster fragment_start_cluster fragment_size remainder : Z)
  : M nstate (Z * list (Z * Z)) :=
  if remainder <=? 0 then ret (0, [])
  else
    match fuel with
    | O => diverge
    | S fuel =>
        let! s := get_state in
        let ef := s_ef s in
        if CLUSTER_INVALID (ef_sb ef) cluster then on_os exfat_error;; ret (1, [])
        else
          let lsize := Z.min (CLUSTER_SIZE (ef_sb ef)) remainder in
          let fragment_size := fragment_size + lsize in
          let remainder := remainder - lsize in
          let! next_cluster := exfat_next_cluster cluster in
          if negb (next_cluster =? u32 (cluster + 1)) || (remainder =? 0) then
            let! offset := exfat_c2o ef fragment_start_cluster in
            let! (rc, more) := fragments_loop fuel next_cluster next_cluster 0 remainder in
            ret (rc, (offset, fragment_size) :: more)
          else fragments_loop fuel next_cluster fragment_start_cluster fragment_size remainder
    end.

(** [remainder] is a signed number. *)
Definition file_fragments : M nstate (Z * list (Z * Z)) :=
  let! s := get_state in
  let remainder := i64 (n_size (s_node s)) in
  fragments_loop (Z.to_nat (DIV_ROUND_UP remainder (CLUSTER_SIZE (ef_sb (s_ef s)))))
    (n_start_cluster (s_node s)) (n_start_cluster (s_node s)) 0 remainder.

Definition dump_file_fragments (o : open_answers) (euid egid : Z) (path : list Z) : M world (Z * list (Z * Z)) :=
  let! rc := exfat_mount o euid egid (str "ro") in
  if negb (rc =? 0) then ret (1, [])
  else
    let! (rc, node) := exfat_lookup path in
    if negb (rc =? 0) then
      exfat_unmount;;
      on_world_os exfat_error;;
      ret (1, [])
    else
      let! r := with_node node file_fragments in
      exfat_put_node node;;
      exfat_unmount;;
      ret r.

(** The options: only the super block, the used sectors, the path of a file. *)
Record dump_options : Type := mk_dump_options {
  sb_only : bool;
  used_sectors : bool;
  file_path : option (list Z)
}.

(** The loop over what [getopt] finds: a character and its argument. *)
Fixpoint dump_option_loop (opts : list (Z * list Z)) (d : dump_options) : Z + dump_options :=
  match opts with
  | [] => inr d
  | (opt, optarg) :: opts =>
      if opt =? char "s" then dump_option_loop opts (mk_dump_options true (used_sectors d) (file_path d))
      else if opt =? char "u" then dump_option_loop opts (mk_dump_options (sb_only d) true (file_path d))
      else if opt =? char "f" then dump_option_loop opts (mk_dump_options (sb_only d) (used_sectors d) (Some optarg))
      else if opt =? char "V" then inl 0
      else inl 1
  end.

Inductive dump_output : Type :=
| DumpNothing
| DumpNumbers (numbers : list Z)
| DumpFull (info : option full_info)
| DumpFragments (fragments : list (Z * Z)).

Definition main (o : open_answers) (euid egid : Z) (opts : list (Z * list Z)) (args : Z) : M world (Z * dump_output) :=
  match dump_option_loop opts (mk_dump_options false false None) with
  | inl code => ret (code, DumpNothing)
  | inr d =>
      if negb (args =? 1) then ret (1, DumpNothing)
      else
        match file_path d with
        | Some path =>
            let! (rc, fragments) := dump_file_fragments o euid egid path in ret (rc, DumpFragments fragments)
        | None =>
            if sb_only d then let! (rc, numbers) := dump_sb o in ret (rc, DumpNumbers numbers)
            else let! (rc, info) := dump_full o euid egid (used_sectors d) in ret (rc, DumpFull info)
        end
  end.
End Dump.

(** ** The fragments of a file *)

(** The bytes of the device that the fragments name. *)
Definition fragment_bytes (m : mem) (frags : list (Z * Z)) : list Z :=
  concat (map (fun f => mread m f.1 f.2) frags).

(** No fragment continues the one before it. *)
Fixpoint separate (frags : list (Z * Z)) : Prop :=
  match frags with
  | f :: (g :: _) as rest => f.1 + f.2 <> g.1 /\ separate rest
  | _ => True
  end.

Section Fragments.
Context `{Platform}.

(** Clusters in a row hold the bytes of the file in a row. *)
Lemma mread_run sb m cs k0 k l : 0 < CLUSTER_SIZE sb -> 0 <= k0 <= k -> 0 <= l <= CLUSTER_SIZE sb ->
  (forall i, k0 <= i <= k -> znth cs i = znth cs k0 + (i - k0)) ->
  mread m (cluster_off sb (znth cs k0)) ((k - k0) * CLUSTER_SIZE sb + l) =
  file_bytes sb m cs (k0 * CLUSTER_SIZE sb) ((k - k0) * CLUSTER_SIZE sb + l).
Proof.
  intros Hcs Hk Hl Hrun. set (CS := CLUSTER_SIZE sb) in *. apply znth_ext.
  - by rewrite zlen_mread, zlen_file_bytes by nia.
  - intros i Hi. rewrite zlen_mread in Hi by nia. rewrite znth_mread, znth_file_bytes by done.
    unfold file_byte, file_addr. fold CS. f_equal.
    pose proof (Z.div_mod i CS ltac:(lia)) as Hd. pose proof (Z.mod_pos_bound i CS Hcs) as Hm.
    assert (Hq : 0 <= i / CS) by (apply Z.div_pos; lia).
    replace (k0 * CS + i) with (i + k0 * CS) by ring. rewrite Z.div_add, Z.mod_add by lia.
    assert (Hq' : i / CS <= k - k0 \/ (i / CS = k - k0 + 1 /\ i mod CS < 0 )) by nia.
    rewrite (Hrun (i / CS + k0)) by nia. unfold cluster_off. fold CS. nia.
Qed.

Lemma file_bytes_app' sb m cs p p' n k : 0 <= n -> 0 <= k -> p' = p + n ->
  file_bytes sb m cs p (n + k) = file_bytes sb m cs p n ++ file_bytes sb m cs p' k.
Proof. intros ? ? ->. by apply file_bytes_app. Qed.

Lemma fragments_loop_spec fuel : forall s cs k0 k,
  vol_ok (s_vol s) -> open_chain s cs ->
  let sb := v_sb (s_vol s) in let CS := CLUSTER_SIZE sb in let m := v_medium (s_vol s) in
  forall size, 0 <= k0 <= k -> k * CS < size <= zlen cs * CS -> size - k * CS <= Z.of_nat fuel * CS ->
  (forall i, k0 <= i <= k -> znth cs i = znth cs k0 + (i - k0)) ->
  exists frags, fragments_loop fuel (znth cs k) (znth cs k0) ((k - k0) * CS) (size - k * CS) s = Ok (0, frags) s /\
    fragment_bytes m frags = file_bytes sb m cs (k0 * CS) (size - k0 * CS) /\
    Forall (fun f => 0 < f.2) frags /\ separate frags /\
    (exists n rest, frags = (cluster_off sb (znth cs k0), n) :: rest).
Proof.
  induction fuel as [| fuel IH]; intros s cs k0 k Hv Hch sb CS m size Hk Hsize Hfuel Hrun; [lia |].
  pose proof (vo_geometry _ Hv) as Hg. fold sb in Hg. pose proof (CS_pos sb Hg) as Hcs. fold CS in Hcs.
  cbn [fragments_loop]. destruct (Z.leb_spec (size - k * CS) 0); [lia |].
  assert (Hk' : 0 <= k < zlen cs) by nia.
  pose proof (znth_Forall _ _ k (oc_valid _ _ Hch) Hk') as Vk. fold sb in Vk.
  pose proof (znth_Forall _ _ k0 (oc_valid _ _ Hch) ltac:(lia)) as V0. fold sb in V0.
  rewrite (bind_ok _ _ _ s s) by done. unfold s_ef. change (ef_sb (v_ef (s_vol s))) with sb.
  rewrite (CLUSTER_INVALID_valid sb Hg _ Vk). fold CS.
  destruct (next_cluster_any s cs k Hv Hch Hk') as (c & En & Ec). rewrite (bind_ok _ _ _ _ _ En).
  set (l := Z.min CS (size - k * CS)). assert (Hl : 0 < l <= CS) by lia.
  rewrite (u32_small (znth cs k + 1)) by (pose proof (valid_cluster_u32 sb Hg _ Vk); destruct Hg; unfold valid_cluster, in_u, EXFAT_LAST_DATA_CLUSTER in *; lia).
  destruct (negb (c =? znth cs k + 1) || (size - k * CS - l =? 0)) eqn:Esplit.
  - erewrite bind_ok by (apply (exfat_c2o_valid (v_ef (s_vol s)) Hg); unfold valid_cluster in V0; lia).
    change (ef_sb (v_ef (s_vol s))) with sb.
    destruct (Z.eq_dec (size - k * CS - l) 0) as [Hend | Hmore].
    + erewrite bind_ok.
      2: { rewrite Hend. destruct fuel; done. }
      eexists. split; [done |]. split; [| split; [| split; [done | by eexists _, _]]].
      * unfold fragment_bytes. cbn [map concat fst snd]. rewrite app_nil_r, mread_run by (done || lia). f_equal. lia.
      * constructor; [cbn; nia | constructor].
    + assert (El : l = CS) by lia. assert (Hk1 : k + 1 < zlen cs) by nia. specialize (Ec Hk1). subst c.
      destruct (IH s cs (k + 1) (k + 1) Hv Hch size) as (more & E & Hb & Hpos & Hsep & n & rest & Hhead);
        fold sb CS; [lia | nia | nia | intros; replace i with (k + 1) by lia; lia |].
      fold sb CS m in E, Hb, Hhead. rewrite Z.sub_diag, Z.mul_0_l in E.
      replace (size - k * CS - l) with (size - (k + 1) * CS) by lia. rewrite (bind_ok _ _ _ _ _ E).
      eexists. split; [done |]. split; [| split; [| split; [| by eexists _, _]]].
      * unfold fragment_bytes in *. cbn [map concat fst snd]. rewrite Hb, mread_run by (done || lia).
        rewrite El. fold CS. rewrite <- file_bytes_app' with (p' := (k + 1) * CS) by nia. f_equal. lia.
      * constructor; [cbn; nia | done].
      * rewrite Hhead in *. cbn [separate fst snd]. split; [| done].
        rewrite orb_true_iff, negb_true_iff, Z.eqb_neq in Esplit. destruct Esplit as [Hne | Hz]; [| lia].
        rewrite El. pose proof (Hrun k ltac:(lia)). unfold cluster_off. fold CS. nia.
  - rewrite orb_false_iff, negb_false_iff, Z.eqb_eq, Z.eqb_neq in Esplit. destruct Esplit as [-> Hne].
    assert (El : l = CS) by lia. assert (Hk1 : k + 1 < zlen cs) by nia. specialize (Ec Hk1).
    destruct (IH s cs k0 (k + 1) Hv Hch size) as (frags & E & Hrest); fold sb CS; [lia | nia | nia | |].
    + intros i Hi. destruct (Z.eq_dec i (k + 1)) as [-> | Hi']; [| apply Hrun; lia].
      rewrite <- Ec, (Hrun k) by lia. lia.
    + exists frags. split; [| done]. fold sb CS in E. rewrite <- E, Ec. f_equal; lia.
Qed.
End Fragments.

(** The fragments that [dumpexfat -f] prints are the file.  On a volume whose
    device does not fail, for a file whose clusters form a chain, the loop of
    [dump_file_fragments] succeeds without a change of anything; the bytes of the
    device in the ranges that it prints, one after the other, are the bytes of the
    file; no range is empty, and none begins where the one before it ends. *)
Theorem file_fragments_cover `{Platform} s cs (Hf : file_ok s cs) :
  exists frags, file_fragments s = Ok (0, frags) s /\
    fragment_bytes (v_medium (s_vol s)) frags =
      file_bytes (v_sb (s_vol s)) (v_medium (s_vol s)) cs 0 (n_size (s_node s)) /\
    Forall (fun f => 0 < f.2) frags /\ separate frags.
Proof.
  pose proof (file_limit s cs Hf) as [_ Hlim]. pose proof (file_fits s cs Hf) as Hfit. destruct Hf as [Hv [Hch _] Hz Hval].
  pose proof (CS_pos _ (vo_geometry _ Hv)) as Hcs. unfold file_fragments. rewrite (bind_ok _ _ _ s s) by done.
  unfold i64, to_signed. rewrite Z.mod_small, Z.add_simpl_r by lia. change (ef_sb (s_ef s)) with (v_sb (s_vol s)).
  destruct (Z.eq_dec (n_size (s_node s)) 0) as [E0 | Hne].
  { rewrite E0. exists []. split; [by destruct (Z.to_nat _) |]. split; [by rewrite file_bytes_nil |]. done. }
  pose proof (DIV_ROUND_UP_spec (n_size (s_node s)) (CLUSTER_SIZE (v_sb (s_vol s))) Hcs) as Hd.
  rewrite (oc_start _ _ Hch).
  destruct (fragments_loop_spec (Z.to_nat (DIV_ROUND_UP (n_size (s_node s)) (CLUSTER_SIZE (v_sb (s_vol s))))) s cs 0 0 Hv Hch
    (n_size (s_node s))) as (frags & E & Hb & Hpos & Hsep & _); [lia | lia | rewrite Z2Nat.id by nia; lia | intros i Hi; assert (i = 0) as -> by lia; lia |].
  rewrite ?Z.sub_diag, ?Z.mul_0_l, ?Z.sub_0_r in *. exists frags. done.
Qed.

#[local] Existing Instance word_le64.

Lemma file_fragments_cover_witness :
  exists frags, file_fragments demo_state = Ok (0, frags) demo_state /\
    fragment_bytes (v_medium demo_vol) frags = file_bytes demo_sb (v_medium demo_vol) [4; 5] 0 600 /\
    Forall (fun f => 0 < f.2) frags /\ separate frags.
Proof. apply (file_fragments_cover demo_state [4; 5] demo_file). Defined.
