(* ===== verification/Tools.v ===== *)
(** * Tools: the attributes of a file and the label of a volume (attrib/main.c, label/main.c)

    A program returns its exit code and what it printed. *)

From Stdlib Require Import ZArith Lia.
From stdpp Require Import base numbers list gmap strings.
From S2P Require Import Prelude Bytes Monad Ondisk State Utf Bitmap Geometry Cluster FileIO Utils ExfatTime Entries NodeTree Lookup Dir Mount.

#[local] Open Scope Z_scope.

Section Tools.
Context `{Platform}.

(** ** Definitions *)

(** *** attrib/main.c *)

Definition print_attribute (attribs attrib : Z) : bool := negb (Z.land attribs attrib =? 0).

(** The flags in the order in which they are printed. *)
Definition attribute_list : list Z :=
  [EXFAT_ATTRIB_RO; EXFAT_ATTRIB_HIDDEN; EXFAT_ATTRIB_SYSTEM; EXFAT_ATTRIB_ARCH;
   EXFAT_ATTRIB_VOLUME; EXFAT_ATTRIB_DIR].

Definition attribute (node : option ptr) (add_flags clear_flags : Z) : M world (Z * list bool) :=
  let! n := deref node in
  if negb (Z.lor add_flags clear_flags =? 0) then
    let attrib := Z.ldiff (Z.lor (n_attrib n) add_flags) clear_flags in
    if negb (n_attrib n =? attrib) then
      assign node (fun n => set_n_is_dirty true (set_n_attrib attrib n));;
      let! ret_ := exfat_flush_node node in
      if negb (ret_ =? 0) then
        let! n := deref node in
        let! _ := exfat_get_name (S := world) n in
        on_world_os exfat_error;;
        ret (1, [])
      else ret (0, [])
    else ret (0, [])
  else ret (0, map (print_attribute (n_attrib n)) attribute_list).

(** What the options ask for: the flags to set and to clear, and whether a device
    was named. *)
Record attrib_options : Type := mk_attrib_options {
  add_flags : Z;
  clear_flags : Z;
  spec_given : bool
}.

(** The flag that an option character stands for: set it when [true]. *)
Definition attrib_flag (opt : Z) : option (bool * Z) :=
  if opt =? char "r" then Some (true, EXFAT_ATTRIB_RO)
  else if opt =? char "R" then Some (false, EXFAT_ATTRIB_RO)
  else if opt =? char "i" then Some (true, EXFAT_ATTRIB_HIDDEN)
  else if opt =? char "I" then Some (false, EXFAT_ATTRIB_HIDDEN)
  else if opt =? char "s" then Some (true, EXFAT_ATTRIB_SYSTEM)
  else if opt =? char "S" then Some (false, EXFAT_ATTRIB_SYSTEM)
  else if opt =? char "a" then Some (true, EXFAT_ATTRIB_ARCH)
  else if opt =? char "A" then Some (false, EXFAT_ATTRIB_ARCH)
  else None.

Fixpoint attrib_option_loop (opts : list Z) (a : attrib_options) : Z + attrib_options :=
  match opts with
  | [] => inr a
  | opt :: opts =>
      if opt =? char "V" then inl 0
      else if opt =? char "d" then attrib_option_loop opts (mk_attrib_options (add_flags a) (clear_flags a) true)
      else
        match attrib_flag opt with
        | Some (true, flag) =>
            attrib_option_loop opts (mk_attrib_options (Z.lor (add_flags a) flag) (clear_flags a) (spec_given a))
        | Some (false, flag) =>
            attrib_option_loop opts (mk_attrib_options (add_flags a) (Z.lor (clear_flags a) flag) (spec_given a))
        | None => inl 1
        end
  end.

(** [args] are the arguments that are no options. *)
Definition attrib_main (o : open_answers) (euid egid : Z) (opts : list Z) (args : list (list Z)) : M world (Z * list bool) :=
  match attrib_option_loop opts (mk_attrib_options 0 0 false) with
  | inl code => ret (code, [])
  | inr a =>
      if negb (Z.land (add_flags a) (clear_flags a) =? 0) then on_world_os exfat_error;; ret (1, [])
      else
        match spec_given a, args with
        | true, [file_path] =>
            let options := if Z.lor (add_flags a) (clear_flags a) =? 0 then str "ro" else [] in
            let! rc := exfat_mount o euid egid options in
            if negb (rc =? 0) then on_world_os exfat_error;; ret (1, [])
            else
              let! (rc, node) := exfat_lookup file_path in
              if negb (rc =? 0) then
                on_world_os exfat_error;;
                exfat_unmount;;
                ret (1, [])
              else
                let! r := attribute node (add_flags a) (clear_flags a) in
                exfat_put_node node;;
                exfat_unmount;;
                ret r
        | _, _ => ret (1, [])
        end
  end.

(** *** label/main.c *)

(** [args] are all the arguments of the program. *)
Definition label_main (o : open_answers) (euid egid : Z) (args : list (list Z)) : M world (Z * list Z) :=
  if existsb (fun arg => bool_decide (arg = str "-V")) args then ret (0, [])
  else
    match args with
    | [_; label] =>
        let! rc := exfat_mount o euid egid [] in
        if negb (rc =? 0) then ret (1, [])
        else
          let! rc := exfat_set_label label in
          exfat_unmount;;
          ret (if negb (rc =? 0) then 1 else 0, [])
    | [_] =>
        let! rc := exfat_mount o euid egid (str "ro") in
        if negb (rc =? 0) then ret (1, [])
        else
          let! w := get_state in
          let label := exfat_get_label (w_ef w) in
          exfat_unmount;;
          ret (0, label)
    | _ => ret (1, [])
    end.
End Tools.
