(* ===== verification/DevIo.v ===== *)
(** * DevIo: the block device of AmigaOS (amiga/dev_io.c)

    On AmigaOS the calls [exfat_pread] and [exfat_pwrite] of libexfat end at an Exec
    device, which transfers whole blocks and may accept only some addresses.  The
    code cuts a request into an unaligned head, an aligned middle and a tail, and
    keeps the block that a head or tail needed last.

    The device driver is not part of the program: [ExecDevice] are its commands and
    [ExecDeviceLaws] what their documentation promises.  The messages are left out. *)

From Stdlib Require Import ZArith Lia.
From stdpp Require Import base numbers list.
From S2P Require Import Prelude Bytes Monad State.

#[local] Open Scope Z_scope.

(** ** The driver *)

(** The fields of a request (struct IOExtTD) that the code sets. *)
Record ioreq : Type := {
  io_Command : Z;
  io_Length : Z;
  io_Offset : Z;
  io_Actual : Z
}.

(** What DoIO leaves: its result, [io_Actual] and the bytes at [io_Data]. *)
Record ioreply : Type := {
  rp_error : Z;
  rp_actual : Z;
  rp_data : list Z
}.

(** The answer to NSCMD_DEVICEQUERY; the commands are those before the zero that
    ends their list, [None] a null pointer. *)
Record NSDeviceQueryResult : Type := {
  nsdqr_SizeAvailable : Z;
  nsdqr_SupportedCommands : option (list Z)
}.

Definition CMD_READ : Z := 2.
Definition CMD_WRITE : Z := 3.
Definition CMD_UPDATE : Z := 4.
Definition TD_PROTSTATUS : Z := 15.
Definition TD_READ64 : Z := 24.
Definition TD_WRITE64 : Z := 25.
Definition NSCMD_DEVICEQUERY : Z := 0x4000.
Definition NSCMD_TD_READ64 : Z := 0xc000.
Definition NSCMD_TD_WRITE64 : Z := 0xc001.

Class ExecDevice (D : Type) := {
  DoIO : ioreq -> list Z -> D -> ioreply * D;
  DoIO_query : ioreq -> D -> ioreply * NSDeviceQueryResult * D;
  d_medium : D -> mem
}.

Definition is_read_command (c : Z) : bool := (c =? CMD_READ) || (c =? TD_READ64) || (c =? NSCMD_TD_READ64).
Definition is_write_command (c : Z) : bool := (c =? CMD_WRITE) || (c =? TD_WRITE64) || (c =? NSCMD_TD_WRITE64).

(** The byte offset of a request: the 32-bit commands have only [io_Offset]. *)
Definition io_byte_offset (r : ioreq) : Z :=
  if (io_Command r =? CMD_READ) || (io_Command r =? CMD_WRITE) then io_Offset r
  else Z.lor (Z.shiftl (io_Actual r) 32) (io_Offset r).

(** A transfer that reports success moved the bytes; one that fails left the
    medium outside of its range alone. *)
Class ExecDeviceLaws (D : Type) `{ExecDevice D} : Prop := {
  read_law r data d rp d' : DoIO r data d = (rp, d') ->
    is_read_command (io_Command r) = true -> zlen data = io_Length r ->
    d_medium d' ≡ d_medium d /\ zlen (rp_data rp) = zlen data /\
    (rp_error rp = 0 -> rp_actual rp = io_Length r ->
     rp_data rp = mread (d_medium d) (io_byte_offset r) (io_Length r));
  write_law r data d rp d' : DoIO r data d = (rp, d') ->
    is_write_command (io_Command r) = true -> zlen data = io_Length r ->
    rp_data rp = data /\
    (forall a, a < io_byte_offset r \/ io_byte_offset r + io_Length r <= a -> d_medium d' a = d_medium d a) /\
    (rp_error rp = 0 -> rp_actual rp = io_Length r ->
     d_medium d' ≡ mwrite (d_medium d) (io_byte_offset r) data);
  other_law r data d rp d' : DoIO r data d = (rp, d') ->
    is_read_command (io_Command r) = false -> is_write_command (io_Command r) = false ->
    d_medium d' ≡ d_medium d;
  query_law r d rp q d' : DoIO_query r d = (rp, q, d') -> d_medium d' ≡ d_medium d
}.

Section DevIo.
Context {D : Type} `{ExecDevice D}.

(** ** Definitions *)

(** struct ExfatDevSpec, without the name of the device. *)
Record ExfatDevSpec : Type := {
  ds_unit : Z;
  ds_flags : Z;
  ds_blocksize : Z;
  ds_maxtransfer : Z;
  ds_mask : Z;
  ds_firstbyte : Z;
  ds_length : Z
}.

(** struct exfat_dev; the message port and the request are there or not, and
    [None] is a null bounce buffer. *)
Record exfat_dev : Type := mk_exfat_dev {
  dv_port : bool;
  dv_req : bool;
  dv_devopen : bool;
  dv_mode : exfat_mode;
  dv_firstbyte : Z;
  dv_size : Z;
  dv_pos : Z;
  dv_blocksize : Z;
  dv_blockmask : Z;
  dv_maxtransfer : Z;
  dv_mask : Z;
  dv_cmd_read : Z;
  dv_cmd_write : Z;
  dv_bounce : option (list Z);
  dv_bounce_lba : Z
}.

Definition set_dv_port (v : bool) (x : exfat_dev) : exfat_dev :=
  mk_exfat_dev v (dv_req x) (dv_devopen x) (dv_mode x) (dv_firstbyte x) (dv_size x) (dv_pos x)
    (dv_blocksize x) (dv_blockmask x) (dv_maxtransfer x) (dv_mask x) (dv_cmd_read x)
    (dv_cmd_write x) (dv_bounce x) (dv_bounce_lba x).
Definition set_dv_req (v : bool) (x : exfat_dev) : exfat_dev :=
  mk_exfat_dev (dv_port x) v (dv_devopen x) (dv_mode x) (dv_firstbyte x) (dv_size x) (dv_pos x)
    (dv_blocksize x) (dv_blockmask x) (dv_maxtransfer x) (dv_mask x) (dv_cmd_read x)
    (dv_cmd_write x) (dv_bounce x) (dv_bounce_lba x).
Definition set_dv_devopen (v : bool) (x : exfat_dev) : exfat_dev :=
  mk_exfat_dev (dv_port x) (dv_req x) v (dv_mode x) (dv_firstbyte x) (dv_size x) (dv_pos x)
    (dv_blocksize x) (dv_blockmask x) (dv_maxtransfer x) (dv_mask x) (dv_cmd_read x)
    (dv_cmd_write x) (dv_bounce x) (dv_bounce_lba x).
Definition set_dv_mode (v : exfat_mode) (x : exfat_dev) : exfat_dev :=
  mk_exfat_dev (dv_port x) (dv_req x) (dv_devopen x) v (dv_firstbyte x) (dv_size x) (dv_pos x)
    (dv_blocksize x) (dv_blockmask x) (dv_maxtransfer x) (dv_mask x) (dv_cmd_read x)
    (dv_cmd_write x) (dv_bounce x) (dv_bounce_lba x).
Definition set_dv_firstbyte (v : Z) (x : exfat_dev) : exfat_dev :=
  mk_exfat_dev (dv_port x) (dv_req x) (dv_devopen x) (dv_mode x) v (dv_size x) (dv_pos x)
    (dv_blocksize x) (dv_blockmask x) (dv_maxtransfer x) (dv_mask x) (dv_cmd_read x)
    (dv_cmd_write x) (dv_bounce x) (dv_bounce_lba x).
Definition set_dv_size (v : Z) (x : exfat_dev) : exfat_dev :=
  mk_exfat_dev (dv_port x) (dv_req x) (dv_devopen x) (dv_mode x) (dv_firstbyte x) v (dv_pos x)
    (dv_blocksize x) (dv_blockmask x) (dv_maxtransfer x) (dv_mask x) (dv_cmd_read x)
    (dv_cmd_write x) (dv_bounce x) (dv_bounce_lba x).
Definition set_dv_pos (v : Z) (x : exfat_dev) : exfat_dev :=
  mk_exfat_dev (dv_port x) (dv_req x) (dv_devopen x) (dv_mode x) (dv_firstbyte x) (dv_size x) v
    (dv_blocksize x) (dv_blockmask x) (dv_maxtransfer x) (dv_mask x) (dv_cmd_read x)
    (dv_cmd_write x) (dv_bounce x) (dv_bounce_lba x).
Definition set_dv_blocksize (v : Z) (x : exfat_dev) : exfat_dev :=
  mk_exfat_dev (dv_port x) (dv_req x) (dv_devopen x) (dv_mode x) (dv_firstbyte x) (dv_size x)
    (dv_pos x) v (dv_blockmask x) (dv_maxtransfer x) (dv_mask x) (dv_cmd_read x) (dv_cmd_write x)
    (dv_bounce x) (dv_bounce_lba x).
Definition set_dv_blockmask (v : Z) (x : exfat_dev) : exfat_dev :=
  mk_exfat_dev (dv_port x) (dv_req x) (dv_devopen x) (dv_mode x) (dv_firstbyte x) (dv_size x)
    (dv_pos x) (dv_blocksize x) v (dv_maxtransfer x) (dv_mask x) (dv_cmd_read x) (dv_cmd_write x)
    (dv_bounce x) (dv_bounce_lba x).
Definition set_dv_maxtransfer (v : Z) (x : exfat_dev) : exfat_dev :=
  mk_exfat_dev (dv_port x) (dv_req x) (dv_devopen x) (dv_mode x) (dv_firstbyte x) (dv_size x)
    (dv_pos x) (dv_blocksize x) (dv_blockmask x) v (dv_mask x) (dv_cmd_read x) (dv_cmd_write x)
    (dv_bounce x) (dv_bounce_lba x).
Definition set_dv_mask (v : Z) (x : exfat_dev) : exfat_dev :=
  mk_exfat_dev (dv_port x) (dv_req x) (dv_devopen x) (dv_mode x) (dv_firstbyte x) (dv_size x)
    (dv_pos x) (dv_blocksize x) (dv_blockmask x) (dv_maxtransfer x) v (dv_cmd_read x)
    (dv_cmd_write x) (dv_bounce x) (dv_bounce_lba x).
Definition set_dv_cmd_read (v : Z) (x : exfat_dev) : exfat_dev :=
  mk_exfat_dev (dv_port x) (dv_req x) (dv_devopen x) (dv_mode x) (dv_firstbyte x) (dv_size x)
    (dv_pos x) (dv_blocksize x) (dv_blockmask x) (dv_maxtransfer x) (dv_mask x) v (dv_cmd_write x)
    (dv_bounce x) (dv_bounce_lba x).
Definition set_dv_cmd_write (v : Z) (x : exfat_dev) : exfat_dev :=
  mk_exfat_dev (dv_port x) (dv_req x) (dv_devopen x) (dv_mode x) (dv_firstbyte x) (dv_size x)
    (dv_pos x) (dv_blocksize x) (dv_blockmask x) (dv_maxtransfer x) (dv_mask x) (dv_cmd_read x) v
    (dv_bounce x) (dv_bounce_lba x).
Definition set_dv_bounce (v : option (list Z)) (x : exfat_dev) : exfat_dev :=
  mk_exfat_dev (dv_port x) (dv_req x) (dv_devopen x) (dv_mode x) (dv_firstbyte x) (dv_size x)
    (dv_pos x) (dv_blocksize x) (dv_blockmask x) (dv_maxtransfer x) (dv_mask x) (dv_cmd_read x)
    (dv_cmd_write x) v (dv_bounce_lba x).
Definition set_dv_bounce_lba (v : Z) (x : exfat_dev) : exfat_dev :=
  mk_exfat_dev (dv_port x) (dv_req x) (dv_devopen x) (dv_mode x) (dv_firstbyte x) (dv_size x)
    (dv_pos x) (dv_blocksize x) (dv_blockmask x) (dv_maxtransfer x) (dv_mask x) (dv_cmd_read x)
    (dv_cmd_write x) (dv_bounce x) v.

(** What the process holds of the system: the blocks of AllocVec, ports, requests, open
    devices and results of ReadArgs; [x_answers] are the outcomes of the next calls that
    get one of them ([true]: it succeeds; when the list is empty, they succeed). *)
Record exec : Type := mk_exec {
  x_answers : list bool;
  x_vecs : Z;
  x_ports : Z;
  x_reqs : Z;
  x_opens : Z;
  x_args : Z;
  x_drv : D
}.

Definition set_x_answers (v : list bool) (x : exec) : exec :=
  mk_exec v (x_vecs x) (x_ports x) (x_reqs x) (x_opens x) (x_args x) (x_drv x).
Definition set_x_vecs (v : Z) (x : exec) : exec :=
  mk_exec (x_answers x) v (x_ports x) (x_reqs x) (x_opens x) (x_args x) (x_drv x).
Definition set_x_ports (v : Z) (x : exec) : exec :=
  mk_exec (x_answers x) (x_vecs x) v (x_reqs x) (x_opens x) (x_args x) (x_drv x).
Definition set_x_reqs (v : Z) (x : exec) : exec :=
  mk_exec (x_answers x) (x_vecs x) (x_ports x) v (x_opens x) (x_args x) (x_drv x).
Definition set_x_opens (v : Z) (x : exec) : exec :=
  mk_exec (x_answers x) (x_vecs x) (x_ports x) (x_reqs x) v (x_args x) (x_drv x).
Definition set_x_args (v : Z) (x : exec) : exec :=
  mk_exec (x_answers x) (x_vecs x) (x_ports x) (x_reqs x) (x_opens x) v (x_drv x).
Definition set_x_drv (v : D) (x : exec) : exec :=
  mk_exec (x_answers x) (x_vecs x) (x_ports x) (x_reqs x) (x_opens x) (x_args x) v.

(** An open device and the system. *)
Record iostate : Type := mk_iostate {
  s_dev : exfat_dev;
  s_exec : exec
}.

Definition set_s_dev (d : exfat_dev) (s : iostate) : iostate := mk_iostate d (s_exec s).
Definition set_s_exec (x : exec) (s : iostate) : iostate := mk_iostate (s_dev s) x.
Definition s_medium (s : iostate) : mem := d_medium (x_drv (s_exec s)).

#[global] Instance part_exec : Part iostate exec.
Proof. refine {| part := s_exec; set_part := set_s_exec |}; done || by intros []. Defined.

Definition set_dev (f : exfat_dev -> exfat_dev) : M iostate unit := modify (fun s => set_s_dev (f (s_dev s)) s).

Definition NO_BLOCK : Z := 0xffffffffffffffff.

(** *** Choosing the commands *)

Definition do_io (r : ioreq) (data : list Z) : M exec ioreply := fun x =>
  let (rp, d) := DoIO r data (x_drv x) in Ok rp (set_x_drv d x).

Definition do_query (r : ioreq) : M exec (ioreply * NSDeviceQueryResult) := fun x =>
  let '(rp, q, d) := DoIO_query r (x_drv x) in Ok (rp, q) (set_x_drv d x).

(** The loop over the supported commands. *)
Fixpoint probe_loop (cmds : list Z) (dev : exfat_dev) : exfat_dev :=
  match cmds with
  | [] => dev
  | c :: cmds =>
      probe_loop cmds
        (if c =? NSCMD_TD_READ64 then set_dv_cmd_write NSCMD_TD_WRITE64 (set_dv_cmd_read NSCMD_TD_READ64 dev)
         else dev)
  end.

Definition probe_commands (dev : exfat_dev) : M exec exfat_dev :=
  let lastbyte := u64 (dv_firstbyte dev + u64 (dv_size dev)) in
  let need64 := 0xffffffff <? lastbyte in
  let dev := set_dv_cmd_write CMD_WRITE (set_dv_cmd_read CMD_READ dev) in
  let! (rp, nsd) :=
    do_query {| io_Command := NSCMD_DEVICEQUERY; io_Length := 16; io_Offset := 0; io_Actual := 0 |} in
  let dev :=
    match nsdqr_SupportedCommands nsd with
    | Some cmds =>
        if (rp_error rp =? 0) && (16 <=? nsdqr_SizeAvailable nsd) && (16 <=? rp_actual rp)
        then probe_loop cmds dev else dev
    | None => dev
    end in
  if (dv_cmd_read dev =? CMD_READ) && need64 then
    ret (set_dv_cmd_write TD_WRITE64 (set_dv_cmd_read TD_READ64 dev))
  else ret dev.

(** *** Transfers *)

(** The result code and the bytes at [buf] afterwards. *)
Definition raw_io (write : bool) (buf : list Z) (len off : Z) : M iostate (Z * list Z) :=
  let! s := get_state in
  let dev := s_dev s in
  let! rp := on_part (do_io {|
    io_Command := if write then dv_cmd_write dev else dv_cmd_read dev;
    io_Length := len;
    io_Offset := u32 (Z.land off 0xffffffff);
    io_Actual := u32 (Z.shiftr off 32) |} buf) in
  if negb (rp_error rp =? 0) then ret (rp_error rp, rp_data rp)
  else if negb (rp_actual rp =? len) then ret (-1, rp_data rp)
  else ret (0, rp_data rp).

Definition the_bounce (dev : exfat_dev) : list Z :=
  match dv_bounce dev with Some b => b | None => [] end.

(** [raw_io] on the bounce buffer. *)
Definition bounce_io (write : bool) (len off : Z) : M iostate Z :=
  let! s := get_state in
  let! (rc, b) := raw_io write (the_bounce (s_dev s)) len off in
  set_dev (set_dv_bounce (Some b));;
  ret rc.

(** The loop of [aligned_io]: [addr] is the address of the bytes [buf]. *)
Fixpoint aligned_loop (fuel : nat) (write : bool) (addr : Z) (buf : list Z) (len off : Z) : M iostate (Z * list Z) :=
  if len <=? 0 then ret (0, buf)
  else
    match fuel with
    | O => diverge
    | S fuel =>
        let! s := get_state in
        let dev := s_dev s in
        let chunk :=
          if negb (dv_maxtransfer dev =? 0) && (dv_maxtransfer dev <? len)
          then Z.land (dv_maxtransfer dev) (u32 (Z.lnot (dv_blockmask dev))) else len in
        let chunk := if chunk =? 0 then dv_blocksize dev else chunk in
        let bounced := negb (Z.land addr (u32 (Z.lnot (dv_mask dev))) =? 0) in
        let chunk := if bounced then dv_blocksize dev else chunk in
        let! (rc, done) :=
          if bounced then
            if write then
              set_dev (fun dev => set_dv_bounce (Some (splice (the_bounce dev) 0 (sub buf 0 chunk))) dev);;
              let! rc := bounce_io true chunk off in
              ret (rc, sub buf 0 chunk)
            else
              let! rc := bounce_io false chunk off in
              let! s := get_state in
              ret (rc, if rc =? 0 then sub (the_bounce (s_dev s)) 0 chunk else sub buf 0 chunk)
          else raw_io write (sub buf 0 chunk) chunk off in
        if negb (rc =? 0) then ret (-1, done ++ drop (Z.to_nat chunk) buf)
        else
          let! (rc, rest) :=
            aligned_loop fuel write (u32 (addr + chunk)) (drop (Z.to_nat chunk) buf) (len - chunk) (u64 (off + chunk)) in
          ret (rc, done ++ rest)
    end.

(** Every turn moves at least one byte. *)
Definition aligned_io (write : bool) (addr : Z) (buf : list Z) (len off : Z) : M iostate (Z * list Z) :=
  when write (set_dev (set_dv_bounce_lba NO_BLOCK));;
  aligned_loop (Z.to_nat len) write addr buf len off.

Definition fetch_block (blockoff : Z) : M iostate Z :=
  let! s := get_state in
  if dv_bounce_lba (s_dev s) =? blockoff then ret 0
  else
    set_dev (set_dv_bounce_lba NO_BLOCK);;
    let! rc := bounce_io false (dv_blocksize (s_dev s)) blockoff in
    if negb (rc =? 0) then ret (-1)
    else set_dev (set_dv_bounce_lba blockoff);; ret 0.

(** The bytes [at] of the block [blockoff], through the bounce buffer: a head or a
    tail of [partition_io].  The bytes [buf] go to the block or come from it. *)
Definition partial_block (write : bool) (blockoff at_ : Z) (buf : list Z) : M iostate (option (list Z)) :=
  let! rc := fetch_block blockoff in
  if negb (rc =? 0) then ret None
  else if write then
    set_dev (fun dev => set_dv_bounce (Some (splice (the_bounce dev) at_ buf)) dev);;
    let! s := get_state in
    let! rc := bounce_io true (dv_blocksize (s_dev s)) blockoff in
    if negb (rc =? 0) then set_dev (set_dv_bounce_lba NO_BLOCK);; ret None
    else ret (Some buf)
  else
    let! s := get_state in
    ret (Some (sub (the_bounce (s_dev s)) at_ (zlen buf))).

(** The result and the bytes of the buffer, of the address [addr], afterwards. *)
Definition partition_io (write : bool) (addr : Z) (buffer : list Z) (size offset : Z) : M iostate (Z * list Z) :=
  let! s := get_state in
  let dev := s_dev s in
  if (offset <? 0) || (size =? 0) then ret (0, buffer)
  else if dv_size dev <=? offset then ret (0, buffer)
  else if dv_size dev <? offset + size then ret (-1, buffer)
  else
    let abs := u64 (dv_firstbyte dev + u64 offset) in
    let head := u32 (Z.land abs (dv_blockmask dev)) in
    (* unaligned head *)
    let n := if head =? 0 then 0 else Z.min (u32 (dv_blocksize dev - head)) size in
    let! first :=
      if head =? 0 then ret (Some [])
      else partial_block write (abs - head) head (sub buffer 0 n) in
    match first with
    | None => ret (-1, buffer)
    | Some first =>
        let abs := u64 (abs + n) in
        let remaining := size - n in
        let rest := drop (Z.to_nat n) buffer in
        (* aligned middle *)
        let m := if dv_blocksize dev <=? remaining
                 then u32 (Z.land remaining (u32 (Z.lnot (dv_blockmask dev)))) else 0 in
        let! (rc, middle) :=
          if dv_blocksize dev <=? remaining
          then aligned_io write (u32 (addr + n)) (sub rest 0 m) m abs else ret (0, []) in
        if negb (rc =? 0) then ret (-1, first ++ middle ++ drop (Z.to_nat m) rest)
        else
          let abs := u64 (abs + m) in
          let remaining := remaining - m in
          let rest := drop (Z.to_nat m) rest in
          (* unaligned tail *)
          if 0 <? remaining then
            let! last := partial_block write abs 0 (sub rest 0 remaining) in
            match last with
            | None => ret (-1, first ++ middle ++ rest)
            | Some last => ret (i32 size, first ++ middle ++ last ++ drop (Z.to_nat remaining) rest)
            end
          else ret (i32 size, first ++ middle ++ rest)
    end.

(** *** The interface of libexfat *)

Definition answer : M exec bool := fun x =>
  match x_answers x with
  | [] => Ok true x
  | b :: rest => Ok b (set_x_answers rest x)
  end.

(** A call that gets something of the system: it is counted when it succeeds. *)
Definition acquire (count : exec -> exec) : M exec bool :=
  let! ok := answer in
  when ok (modify count);;
  ret ok.

Definition AllocVec : M exec bool := acquire (fun x => set_x_vecs (x_vecs x + 1) x).
Definition CreateMsgPort : M exec bool := acquire (fun x => set_x_ports (x_ports x + 1) x).
Definition CreateIORequest : M exec bool := acquire (fun x => set_x_reqs (x_reqs x + 1) x).
Definition OpenDevice : M exec bool := acquire (fun x => set_x_opens (x_opens x + 1) x).
Definition FreeVec : M exec unit := modify (fun x => set_x_vecs (x_vecs x - 1) x).
Definition DeleteMsgPort : M exec unit := modify (fun x => set_x_ports (x_ports x - 1) x).
Definition DeleteIORequest : M exec unit := modify (fun x => set_x_reqs (x_reqs x - 1) x).
Definition CloseDevice : M exec unit := modify (fun x => set_x_opens (x_opens x - 1) x).
Definition FreeArgs : M exec unit := modify (fun x => set_x_args (x_args x - 1) x).

(** The device structure after AllocVec with MEMF_CLEAR and the assignments. *)
Definition new_dev (devspec : ExfatDevSpec) (mode : exfat_mode) : exfat_dev := {|
  dv_port := false; dv_req := false; dv_devopen := false; dv_mode := mode;
  dv_firstbyte := ds_firstbyte devspec; dv_size := i64 (ds_length devspec); dv_pos := 0;
  dv_blocksize := ds_blocksize devspec; dv_blockmask := u32 (ds_blocksize devspec - 1);
  dv_maxtransfer := ds_maxtransfer devspec;
  dv_mask := if ds_mask devspec =? 0 then 0xffffffff else ds_mask devspec;
  dv_cmd_read := 0; dv_cmd_write := 0; dv_bounce := None; dv_bounce_lba := 0
|}.

(** A null pointer is closed as well; the device is gone afterwards. *)
Definition exfat_close (dev : option exfat_dev) : M exec Z :=
  match dev with
  | None => ret 0
  | Some dev =>
      when (bool_decide (dv_bounce dev <> None)) FreeVec;;
      when (dv_devopen dev) CloseDevice;;
      when (dv_req dev) DeleteIORequest;;
      when (dv_port dev) DeleteMsgPort;;
      FreeVec;;
      ret 0
  end.

(** The write-protection test of [exfat_open]. *)
Definition probe_protection (dev : exfat_dev) : M exec exfat_dev :=
  match dv_mode dev with
  | EXFAT_MODE_RO => ret dev
  | _ =>
      let! rp := do_io {| io_Command := TD_PROTSTATUS; io_Length := 0; io_Offset := 0; io_Actual := 0 |} [] in
      if (rp_error rp =? 0) && negb (rp_actual rp =? 0) then ret (set_dv_mode EXFAT_MODE_RO dev) else ret dev
  end.

Definition exfat_open (devspec : option ExfatDevSpec) (mode : exfat_mode) : M exec (option exfat_dev) :=
  match devspec with
  | None => ret None
  | Some devspec =>
      let! ok := AllocVec in
      if negb ok then ret None
      else
        let dev := new_dev devspec mode in
        if (dv_blocksize dev =? 0) || negb (Z.land (dv_blocksize dev) (dv_blockmask dev) =? 0) then
          FreeVec;; ret None
        else
          let! ok := CreateMsgPort in
          if negb ok then FreeVec;; ret None
          else
            let dev := set_dv_port true dev in
            let! ok := CreateIORequest in
            if negb ok then DeleteMsgPort;; FreeVec;; ret None
            else
              let dev := set_dv_req true dev in
              let! ok := OpenDevice in
              if negb ok then DeleteIORequest;; DeleteMsgPort;; FreeVec;; ret None
              else
                let dev := set_dv_bounce_lba NO_BLOCK (set_dv_devopen true dev) in
                let! ok := AllocVec in
                if negb ok then exfat_close (Some dev);; ret None
                else
                  let dev := set_dv_bounce (Some (zrepeat 0 (dv_blocksize dev))) dev in
                  let! dev := probe_commands dev in
                  let! dev := probe_protection dev in
                  ret (Some dev)
  end.

Definition exfat_fsync : M iostate Z :=
  let! s := get_state in
  match dv_mode (s_dev s) with
  | EXFAT_MODE_RO => ret 0
  | _ =>
      let! rp := on_part (do_io {| io_Command := CMD_UPDATE; io_Length := 0; io_Offset := 0; io_Actual := 0 |} []) in
      if negb (rp_error rp =? 0) then ret (- EIO) else ret 0
  end.

Definition exfat_get_mode (dev : exfat_dev) : exfat_mode := dv_mode dev.
Definition exfat_get_size (dev : exfat_dev) : Z := dv_size dev.

Definition SEEK_SET : Z := 0.
Definition SEEK_CUR : Z := 1.
Definition SEEK_END : Z := 2.

Definition exfat_seek (offset whence : Z) : M iostate Z :=
  let! s := get_state in
  let dev := s_dev s in
  if negb ((whence =? SEEK_SET) || (whence =? SEEK_CUR) || (whence =? SEEK_END)) then ret (-1)
  else
    let pos :=
      if whence =? SEEK_SET then offset
      else if whence =? SEEK_CUR then dv_pos dev + offset
      else dv_size dev + offset in
    if pos <? 0 then set_dev (set_dv_pos 0);; ret (-1)
    else set_dev (set_dv_pos pos);; ret pos.

(** [exfat_read] and [exfat_write]: at the position, which moves on. *)
Definition positioned_io (write : bool) (addr : Z) (buffer : list Z) (size : Z) : M iostate (Z * list Z) :=
  let! s := get_state in
  let! (n, buffer) := partition_io write addr buffer size (dv_pos (s_dev s)) in
  when (0 <? n) (set_dev (fun dev => set_dv_pos (dv_pos dev + n) dev));;
  ret (n, buffer).

Definition exfat_read (addr : Z) (buffer : list Z) (size : Z) : M iostate (Z * list Z) :=
  positioned_io false addr buffer size.

Definition exfat_write (addr : Z) (buffer : list Z) (size : Z) : M iostate Z :=
  let! (n, _) := positioned_io true addr buffer size in ret n.

Definition exfat_pread (addr : Z) (buffer : list Z) (size offset : Z) : M iostate (Z * list Z) :=
  partition_io false addr buffer size offset.

Definition exfat_pwrite (addr : Z) (buffer : list Z) (size offset : Z) : M iostate Z :=
  let! (n, _) := partition_io true addr buffer size offset in ret n.
End DevIo.
