(* ===== verification/DevIoSpec.v ===== *)
(** * DevIoSpec: requests of any bytes on a device of blocks (amiga/dev_io.c)

    [exfat_pread] and [exfat_pwrite] of dev_io.c do what the model of the device in
    State.v says, on any driver that keeps its promises: a refinement, with the block
    in the bounce buffer as the representation invariant. *)

From Stdlib Require Import ZArith Lia.
From stdpp Require Import base numbers list.
From S2P Require Import Prelude Bytes Monad State DevIo.

#[local] Open Scope Z_scope.

Section DevIoSpec.
Context {D : Type} `{ExecDeviceLaws D}.
Implicit Types s : iostate (D := D).

(** ** The invariant *)

(** A device as [exfat_open] leaves it. *)
Record dev_ok (dev : exfat_dev) : Prop := {
  do_block : exists k, 0 <= k < 32 /\ dv_blocksize dev = 2 ^ k;
  do_blockmask : dv_blockmask dev = dv_blocksize dev - 1;
  do_first : 0 <= dv_firstbyte dev;
  do_size : 0 <= dv_size dev;
  do_end : dv_firstbyte dev + dv_size dev <= 2 ^ 63;
  do_maxtransfer : in_u 32 (dv_maxtransfer dev);
  do_cmds :
    (dv_cmd_read dev = CMD_READ /\ dv_cmd_write dev = CMD_WRITE /\ dv_firstbyte dev + dv_size dev < 2 ^ 32) \/
    (dv_cmd_read dev = TD_READ64 /\ dv_cmd_write dev = TD_WRITE64) \/
    (dv_cmd_read dev = NSCMD_TD_READ64 /\ dv_cmd_write dev = NSCMD_TD_WRITE64);
  do_bounce : exists b, dv_bounce dev = Some b /\ zlen b = dv_blocksize dev
}.

(** The bounce buffer holds the block that it is said to hold. *)
Definition cache_ok s : Prop :=
  dv_bounce_lba (s_dev s) <> NO_BLOCK ->
  the_bounce (s_dev s) = mread (s_medium s) (dv_bounce_lba (s_dev s)) (dv_blocksize (s_dev s)).

(** The same device but for the bounce buffer. *)
Definition same_dev (d d' : exfat_dev) : Prop :=
  set_dv_bounce None (set_dv_bounce_lba 0 d') = set_dv_bounce None (set_dv_bounce_lba 0 d).

#[global] Instance same_dev_preorder : PreOrder same_dev.
Proof. split; [done |]. intros d1 d2 d3. unfold same_dev. by intros -> ->. Qed.

Lemma same_dev_fields d d' : same_dev d d' ->
  dv_firstbyte d' = dv_firstbyte d /\ dv_size d' = dv_size d /\ dv_blocksize d' = dv_blocksize d /\
  dv_blockmask d' = dv_blockmask d /\ dv_maxtransfer d' = dv_maxtransfer d /\ dv_mask d' = dv_mask d /\
  dv_cmd_read d' = dv_cmd_read d /\ dv_cmd_write d' = dv_cmd_write d.
Proof.
  intros E. pose proof (fun A (f : exfat_dev -> A) => f_equal f E) as F.
  split_and!; [apply (F _ dv_firstbyte) | apply (F _ dv_size) | apply (F _ dv_blocksize) | apply (F _ dv_blockmask) |
    apply (F _ dv_maxtransfer) | apply (F _ dv_mask) | apply (F _ dv_cmd_read) | apply (F _ dv_cmd_write)].
Qed.

Lemma dev_ok_same d d' b : dev_ok d -> same_dev d d' -> dv_bounce d' = Some b -> zlen b = dv_blocksize d -> dev_ok d'.
Proof.
  intros [] (E1 & E2 & E3 & E4 & E5 & E6 & E7 & E8)%same_dev_fields Hb Hl.
  split; rewrite ?E1, ?E2, ?E3, ?E4, ?E5, ?E6, ?E7, ?E8; try done. eauto.
Qed.

(** A step keeps the device but for the bounce buffer. *)
Definition steps s s' : Prop := dev_ok (s_dev s') /\ same_dev (s_dev s) (s_dev s').

Lemma the_bounce_len dev : dev_ok dev -> zlen (the_bounce dev) = dv_blocksize dev.
Proof. intros [] . destruct do_bounce0 as (b & E & Hb). unfold the_bounce. by rewrite E. Qed.

Lemma blocksize_pos dev : dev_ok dev -> 0 < dv_blocksize dev < 2 ^ 32.
Proof.
  intros []. destruct do_block0 as (k & Hk & ->). split; [by apply Z.pow_pos_nonneg; lia |].
  apply Z.pow_lt_mono_r; lia.
Qed.

Lemma land_blockmask dev x : dev_ok dev -> Z.land x (dv_blockmask dev) = x mod dv_blocksize dev.
Proof. intros []. destruct do_block0 as (k & Hk & E). rewrite do_blockmask0, E. apply land_low. lia. Qed.

(** [x & ~blockmask] *)
Lemma land_not_blockmask dev x : dev_ok dev -> in_u 32 x ->
  Z.land x (u32 (Z.lnot (dv_blockmask dev))) = x - x mod dv_blocksize dev.
Proof.
  intros Hok Hx. pose proof (land_blockmask dev x Hok) as E. destruct Hok. destruct do_block0 as (k & Hk & Eb).
  assert (Hl : Z.land x (u32 (Z.lnot (dv_blockmask dev))) = Z.ldiff x (dv_blockmask dev)).
  { apply Z.bits_inj'. intros n Hn. rewrite Z.land_spec, Z.ldiff_spec. unfold u32.
    destruct (Z.lt_ge_cases n 32).
    - rewrite Z.mod_pow2_bits_low, Z.lnot_spec by lia. done.
    - rewrite Z.mod_pow2_bits_high by lia. destruct (Z.eq_dec x 0) as [-> | Hx0]; [by rewrite Z.bits_0 |].
      rewrite (Z.bits_above_log2 x n); [done | unfold in_u in Hx; lia |].
      apply Z.lt_le_trans with 32; [| lia]. apply Z.log2_lt_pow2; unfold in_u in Hx; lia. }
  rewrite Hl, do_blockmask0, Eb. replace (2 ^ k - 1) with (Z.ones k) by (rewrite Z.ones_equiv; lia).
  rewrite Z.ldiff_ones_r, Z.shiftl_mul_pow2, Z.shiftr_div_pow2 by lia.
  pose proof (Z.div_mod x (2 ^ k)). lia.
Qed.

(** ** Transfers *)

(** The address in a request is the one that is meant. *)
Lemma request_offset dev write len off : dev_ok dev -> 0 <= off -> off < dv_firstbyte dev + dv_size dev ->
  io_byte_offset {| io_Command := if write : bool then dv_cmd_write dev else dv_cmd_read dev; io_Length := len;
    io_Offset := u32 (Z.land off 0xffffffff); io_Actual := u32 (Z.shiftr off 32) |} = off.
Proof.
  intros [] Ho Hoff. unfold io_byte_offset. cbn [io_Command io_Offset io_Actual].
  change 0xffffffff with (2 ^ 32 - 1). rewrite land_low, Z.shiftr_div_pow2 by lia.
  rewrite (u32_small (off mod 2 ^ 32)) by (apply Z.mod_pos_bound; lia).
  assert (Hhi : u32 (off / 2 ^ 32) = off / 2 ^ 32).
  { apply u32_small. split; [apply Z.div_pos; lia |]. apply Z.div_lt_upper_bound; lia. }
  assert (Hmod : Z.lor (Z.shiftl (u32 (off / 2 ^ 32)) 32) (off mod 2 ^ 32) = off).
  { rewrite Hhi, lor_shift_add by (try apply Z.mod_pos_bound; lia). pose proof (Z.div_mod off (2 ^ 32)). lia. }
  destruct do_cmds0 as [(E1 & E2 & Hlt) | [(E1 & E2) | (E1 & E2)]]; rewrite E1, E2; destruct write; cbn;
    try done; apply Z.mod_small; lia.
Qed.

(** The commands are of the right kind. *)
Lemma dev_commands dev : dev_ok dev ->
  is_read_command (dv_cmd_read dev) = true /\ is_write_command (dv_cmd_write dev) = true.
Proof. intros []. by destruct do_cmds0 as [(-> & -> & _) | [(-> & ->) | (-> & ->)]]. Qed.

(** The driver does every read in full. *)
Definition reliable : Prop := forall r data (d : D),
  is_read_command (io_Command r) = true ->
  rp_error (DoIO r data d).1 = 0 /\ rp_actual (DoIO r data d).1 = io_Length r.

Lemma raw_read s buf off : dev_ok (s_dev s) -> 0 <= off -> off < dv_firstbyte (s_dev s) + dv_size (s_dev s) ->
  wp (raw_io false buf (zlen buf) off)
    (fun r s' => s_dev s' = s_dev s /\ s_medium s' ≡ s_medium s /\ zlen r.2 = zlen buf /\
       (r.1 = 0 -> r.2 = mread (s_medium s) off (zlen buf)) /\ (reliable -> r.1 = 0)) s.
Proof.
  intros Hok Ho Hoff. unfold raw_io. wp_step. wp_step. wp_step. wp_step. unfold do_io, wp.
  destruct (DoIO _ _ _) as [rp d] eqn:E. cbn.
  destruct (read_law _ _ _ _ _ E (proj1 (dev_commands _ Hok)) eq_refl) as (L1 & L2 & L3).
  rewrite (request_offset _ false _ _ Hok Ho Hoff) in L3. cbn [io_Length] in L3.
  assert (Hrel : reliable -> rp_error rp = 0 /\ rp_actual rp = zlen buf).
  { intros Hr. lazymatch type of E with DoIO ?q ?l ?t = _ => pose proof (Hr q l t) as R end.
    rewrite E in R. apply R, dev_commands, Hok. }
  destruct (Z.eqb_spec (rp_error rp) 0) as [E0 |]; cbn.
  2: { split_and!; try done; intros Hr; first [congruence | by destruct (Hrel Hr)]. }
  destruct (Z.eqb_spec (rp_actual rp) (zlen buf)) as [E1 |]; cbn; (split_and!; try done);
    try (intros _; by apply L3); intros Hr; by destruct (Hrel Hr).
Qed.

Lemma raw_write s buf off : dev_ok (s_dev s) -> 0 <= off -> off < dv_firstbyte (s_dev s) + dv_size (s_dev s) ->
  wp (raw_io true buf (zlen buf) off)
    (fun r s' => s_dev s' = s_dev s /\ r.2 = buf /\
       (forall a, a < off \/ off + zlen buf <= a -> s_medium s' a = s_medium s a) /\
       (r.1 = 0 -> s_medium s' ≡ mwrite (s_medium s) off buf)) s.
Proof.
  intros Hok Ho Hoff. unfold raw_io. wp_step. wp_step. wp_step. wp_step. unfold do_io, wp.
  destruct (DoIO _ _ _) as [rp d] eqn:E. cbn.
  destruct (write_law _ _ _ _ _ E (proj2 (dev_commands _ Hok)) eq_refl) as (L1 & L2 & L3).
  rewrite (request_offset _ true _ _ Hok Ho Hoff) in L2, L3. cbn [io_Length] in L2, L3.
  destruct (Z.eqb_spec (rp_error rp) 0) as [E0 |]; cbn; [| split_and!; try done; intros ?; congruence].
  destruct (Z.eqb_spec (rp_actual rp) (zlen buf)) as [E1 |]; cbn; split_and!; try done; intros _; by apply L3.
Qed.

(** *** Through the bounce buffer *)

Ltac dev_step := first [wp_step | lazymatch goal with |- wp (set_dev _) _ _ => apply wp_modify end].

Lemma set_bounce_same d b : same_dev d (set_dv_bounce b d).
Proof. done. Qed.

Lemma set_lba_same d n : same_dev d (set_dv_bounce_lba n d).
Proof. done. Qed.

Lemma dev_ok_lba d n : dev_ok d -> dev_ok (set_dv_bounce_lba n d).
Proof. intros Hok. pose proof Hok as []. destruct do_bounce0 as (b & Hb & Hl). by eapply dev_ok_same. Qed.

Lemma dev_ok_bounce d b : dev_ok d -> zlen b = dv_blocksize d -> dev_ok (set_dv_bounce (Some b) d).
Proof. intros Hok Hl. by eapply dev_ok_same. Qed.

Lemma bounce_read s len off : dev_ok (s_dev s) -> 0 <= off -> off < dv_firstbyte (s_dev s) + dv_size (s_dev s) ->
  len = dv_blocksize (s_dev s) ->
  wp (bounce_io false len off)
    (fun rc s' => steps s s' /\ dv_bounce_lba (s_dev s') = dv_bounce_lba (s_dev s) /\ s_medium s' ≡ s_medium s /\
       (rc = 0 -> the_bounce (s_dev s') = mread (s_medium s) off len) /\ (reliable -> rc = 0)) s.
Proof.
  intros Hok Ho Hoff ->. unfold bounce_io. dev_step. dev_step. dev_step.
  pose proof (the_bounce_len _ Hok) as Hl. rewrite <- Hl.
  wp_apply raw_read; try done. intros [rc b] s' (E1 & E2 & E3 & E4 & E5). cbn [fst snd] in *.
  dev_step. dev_step. dev_step. rewrite E1. cbn. split_and!; try done.
  split; [apply dev_ok_bounce; [done | congruence] | apply set_bounce_same].
Qed.

Lemma bounce_write s len off : dev_ok (s_dev s) -> 0 <= off -> off < dv_firstbyte (s_dev s) + dv_size (s_dev s) ->
  len = dv_blocksize (s_dev s) ->
  wp (bounce_io true len off)
    (fun rc s' => steps s s' /\ dv_bounce_lba (s_dev s') = dv_bounce_lba (s_dev s) /\
       the_bounce (s_dev s') = the_bounce (s_dev s) /\
       (forall a, a < off \/ off + len <= a -> s_medium s' a = s_medium s a) /\
       (rc = 0 -> s_medium s' ≡ mwrite (s_medium s) off (the_bounce (s_dev s)))) s.
Proof.
  intros Hok Ho Hoff ->. unfold bounce_io. dev_step. dev_step. dev_step.
  pose proof (the_bounce_len _ Hok) as Hl. rewrite <- Hl.
  wp_apply raw_write; try done. intros [rc b] s' (E1 & E2 & E3 & E4). cbn [fst snd] in *.
  dev_step. dev_step. dev_step. rewrite E1. cbn. subst b. split_and!; try done.
  split; [apply dev_ok_bounce; [done | congruence] | apply set_bounce_same].
Qed.

Lemma fetch_block_spec s off : dev_ok (s_dev s) -> cache_ok s -> 0 <= off ->
  off < dv_firstbyte (s_dev s) + dv_size (s_dev s) ->
  wp (fetch_block off)
    (fun rc s' => steps s s' /\ cache_ok s' /\ s_medium s' ≡ s_medium s /\
       (rc = 0 -> dv_bounce_lba (s_dev s') = off /\
          the_bounce (s_dev s') = mread (s_medium s) off (dv_blocksize (s_dev s))) /\
       (reliable -> rc = 0)) s.
Proof.
  intros Hok Hc Ho Hoff. pose proof (do_end _ Hok). unfold fetch_block. dev_step. dev_step.
  destruct (Z.eqb_spec (dv_bounce_lba (s_dev s)) off) as [<- | Hne].
  { dev_step. split_and!; try done. intros _. split; [done |]. apply Hc. unfold NO_BLOCK. lia. }
  dev_step. dev_step. dev_step. wp_apply (bounce_read (set_s_dev (set_dv_bounce_lba NO_BLOCK (s_dev s)) s)); try done.
  { by apply dev_ok_lba. }
  intros rc s' ((E1 & E2) & E3 & E4 & E5 & E6). cbn in E2, E3, E4, E5.
  destruct (Z.eqb_spec rc 0) as [-> | Hrc]; cbn [negb].
  - do 3 dev_step. specialize (E5 eq_refl). cbn. split_and!; try done.
    + split; [by apply dev_ok_lba | done].
    + intros _. cbn. unfold the_bounce in *. cbn. rewrite E5. symmetry. destruct (same_dev_fields _ _ E2) as (_ & _ & E & _).
      cbn in E. rewrite E. cbn in *. by rewrite E4.
  - dev_step. split_and!; try done; intros Hn; [by destruct Hn | by destruct Hrc; apply E6].
Qed.

(** *** Heads and tails *)

Lemma steps_trans s s1 s2 : steps s s1 -> steps s1 s2 -> steps s s2.
Proof. intros [_ E1] [Hok E2]. split; [done | by etrans]. Qed.

Lemma steps_size s s' : steps s s' -> dv_blocksize (s_dev s') = dv_blocksize (s_dev s).
Proof. by intros [_ (_ & _ & E & _)%same_dev_fields]. Qed.

Lemma steps_room s s' : steps s s' ->
  dv_firstbyte (s_dev s') + dv_size (s_dev s') = dv_firstbyte (s_dev s) + dv_size (s_dev s).
Proof. intros [_ (E1 & E2 & _)%same_dev_fields]. by rewrite E1, E2. Qed.

Lemma partial_read s off at_ buf : dev_ok (s_dev s) -> cache_ok s -> 0 <= off ->
  off < dv_firstbyte (s_dev s) + dv_size (s_dev s) -> 0 <= at_ -> at_ + zlen buf <= dv_blocksize (s_dev s) ->
  wp (partial_block false off at_ buf)
    (fun r s' => steps s s' /\ cache_ok s' /\ s_medium s' ≡ s_medium s /\
       match r with Some l => l = mread (s_medium s) (off + at_) (zlen buf) | None => ~ reliable end) s.
Proof.
  intros Hok Hc Ho Hoff Ha Hl. unfold partial_block. dev_step. wp_apply fetch_block_spec; try done.
  intros rc s' (E1 & E2 & E3 & E4 & E5). destruct (Z.eqb_spec rc 0) as [-> | Hrc]; cbn [negb].
  2: { dev_step. split_and!; try done. intros Hr. by destruct Hrc; apply E5. }
  destruct (E4 eq_refl) as [_ Hb]. do 3 dev_step. split_and!; try done.
  pose proof (zlen_nonneg buf). rewrite Hb, mread_sub by lia. done.
Qed.

Lemma partial_write s off at_ buf : dev_ok (s_dev s) -> cache_ok s -> 0 <= off ->
  off < dv_firstbyte (s_dev s) + dv_size (s_dev s) -> 0 <= at_ -> at_ + zlen buf <= dv_blocksize (s_dev s) ->
  wp (partial_block true off at_ buf)
    (fun r s' => steps s s' /\ cache_ok s' /\
       (forall a, a < off \/ off + dv_blocksize (s_dev s) <= a -> s_medium s' a = s_medium s a) /\
       match r with Some l => l = buf /\ s_medium s' ≡ mwrite (s_medium s) (off + at_) buf | None => True end) s.
Proof.
  intros Hok Hc Ho Hoff Ha Hl. unfold partial_block. dev_step. wp_apply fetch_block_spec; try done.
  intros rc s1 (E1 & E2 & E3 & E4 & _). pose proof (zlen_nonneg buf) as Hn.
  destruct (Z.eqb_spec rc 0) as [-> | Hrc]; cbn [negb].
  2: { by dev_step. }
  destruct (E4 eq_refl) as [Hlba Hb]. clear E4. do 5 dev_step.
  set (b := splice (the_bounce (s_dev s1)) at_ buf). set (s2 := set_s_dev _ s1).
  pose proof (proj1 E1) as Hok1. pose proof (steps_size _ _ E1) as Hbs.
  assert (Hlb : zlen (the_bounce (s_dev s1)) = dv_blocksize (s_dev s1)) by by apply the_bounce_len.
  assert (Hlen : zlen b = dv_blocksize (s_dev s1)) by (unfold b; rewrite zlen_splice; lia).
  assert (Hs2 : steps s1 s2) by (split; [by apply dev_ok_bounce | done]).
  wp_apply (bounce_write s2); [apply Hs2 | done | by rewrite (steps_room _ _ Hs2), (steps_room _ _ E1) | done |].
  intros rc s3 (F1 & F2 & F3 & F4 & F5). cbn in F4.
  pose proof (steps_trans _ _ _ E1 (steps_trans _ _ _ Hs2 F1)) as Hs3.
  assert (Hfr : forall a, a < off \/ off + dv_blocksize (s_dev s) <= a -> s_medium s3 a = s_medium s a).
  { intros a Ha'. rewrite F4 by lia. apply E3. }
  destruct (Z.eqb_spec rc 0) as [-> | Hrc]; cbn [negb].
  - dev_step. specialize (F5 eq_refl). assert (Hw : s_medium s3 ≡ mwrite (s_medium s) (off + at_) buf).
    { intros a. rewrite (F5 a). change (the_bounce (s_dev s2)) with b. change (s_medium s2) with (s_medium s1).
      destruct (decide (off <= a < off + zlen b)) as [Hin | Hout].
      - rewrite mwrite_in by lia. unfold b. rewrite znth_splice by lia. rewrite Hb, znth_mread by lia. unfold mwrite.
        replace (a - (off + at_)) with (a - off - at_) by lia.
        destruct (Z.leb_spec at_ (a - off)), (Z.leb_spec (off + at_) a), (Z.ltb_spec (a - off) (at_ + zlen buf)),
          (Z.ltb_spec a (off + at_ + zlen buf)); cbn; try lia; try done; f_equal; lia.
      - rewrite mwrite_out by lia. rewrite mwrite_out by lia. apply E3. }
    split_and!; try done. intros _. rewrite F3, F2. change (dv_bounce_lba (s_dev s2)) with (dv_bounce_lba (s_dev s1)).
    rewrite Hlba, (steps_size _ _ F1). change (the_bounce (s_dev s2)) with b. change (dv_blocksize (s_dev s2)) with (dv_blocksize (s_dev s1)).
    rewrite F5. rewrite <- Hlen. change (the_bounce (s_dev s2)) with b. by rewrite mread_mwrite_same.
  - do 3 dev_step. split_and!; [| intros Hn'; by destruct Hn' | done | done].
    split; [apply dev_ok_lba, F1 | etrans; [apply Hs3 | done]].
Qed.
(** *** The aligned middle *)

Lemma zlen_nil_inv {A} (l : list A) : zlen l <= 0 -> l = [].
Proof. destruct l; [done |]. rewrite zlen_cons. pose proof (zlen_nonneg l). lia. Qed.


(** The driver accepts the addresses of the blocks of a buffer of [len] bytes. *)
Definition accepted (dev : exfat_dev) (addr len : Z) : Prop :=
  forall i, 0 <= i < len -> i mod dv_blocksize dev = 0 -> Z.land (u32 (addr + i)) (u32 (Z.lnot (dv_mask dev))) = 0.

Lemma accepted_next dev addr len c : dev_ok dev -> 0 <= c <= len -> c mod dv_blocksize dev = 0 ->
  accepted dev addr len -> accepted dev (u32 (addr + c)) (len - c).
Proof.
  intros Hok Hc Hm Ha i Hi Him. pose proof (blocksize_pos _ Hok).
  specialize (Ha (c + i) ltac:(lia)). rewrite Zplus_mod, Hm, Him, Z.mod_0_l in Ha by lia. specialize (Ha eq_refl).
  unfold u32 in *. rewrite Zplus_mod_idemp_l. by replace (addr + c + i) with (addr + (c + i)) by lia.
Qed.

(** The length of one transfer. *)
Definition chunk_of (dev : exfat_dev) (len : Z) : Z :=
  let chunk :=
    if negb (dv_maxtransfer dev =? 0) && (dv_maxtransfer dev <? len)
    then Z.land (dv_maxtransfer dev) (u32 (Z.lnot (dv_blockmask dev))) else len in
  if chunk =? 0 then dv_blocksize dev else chunk.

Lemma chunk_of_spec dev len : dev_ok dev -> 0 < len -> len mod dv_blocksize dev = 0 ->
  0 < chunk_of dev len <= len /\ chunk_of dev len mod dv_blocksize dev = 0.
Proof.
  intros Hok Hl Hm. pose proof (blocksize_pos _ Hok) as Hb. pose proof (do_maxtransfer _ Hok) as Hmt.
  unfold chunk_of. rewrite land_not_blockmask by done. set (mt := dv_maxtransfer dev) in *. set (bs := dv_blocksize dev) in *.
  assert (Hle : bs <= len) by (destruct (Z.lt_ge_cases len bs) as [Hlt |]; [rewrite Z.mod_small in Hm |]; lia).
  pose proof (Z.mod_pos_bound mt bs ltac:(lia)). unfold in_u in Hmt.
  destruct (negb _ && _) eqn:E; cbn.
  - apply andb_true_iff in E as [_ E%Z.ltb_lt].
    destruct (Z.eqb_spec (mt - mt mod bs) 0); [split; [lia | apply Z.mod_same; lia] |].
    split; [pose proof (Z.mod_le mt bs); lia |]. rewrite Zminus_mod_idemp_r, Z.sub_diag. done.
  - destruct (Z.eqb_spec len 0); [lia |]. split; [lia | done].
Qed.

Lemma mod_sub_0 a b m : 0 < m -> a mod m = 0 -> b mod m = 0 -> (a - b) mod m = 0.
Proof. intros Hm Ha Hb. rewrite Zminus_mod, Ha, Hb. done. Qed.

Lemma aligned_read fuel : forall s addr buf len off,
  dev_ok (s_dev s) -> zlen buf = len -> len <= Z.of_nat fuel -> len mod dv_blocksize (s_dev s) = 0 ->
  in_u 32 addr -> accepted (s_dev s) addr len ->
  0 <= off -> off + len <= dv_firstbyte (s_dev s) + dv_size (s_dev s) ->
  wp (aligned_loop fuel false addr buf len off)
    (fun r s' => s_dev s' = s_dev s /\ s_medium s' ≡ s_medium s /\
       (r.1 = 0 -> r.2 = mread (s_medium s) off len) /\ (reliable -> r.1 = 0)) s.
Proof.
  induction fuel as [| fuel IH]; intros s addr buf len off Hok Hlen Hf Hm Ha Hacc Ho Hend; cbn [aligned_loop];
    (destruct (Z.leb_spec len 0) as [Hl |]; [dev_step; split_and!; [done | done | | done]; intros _; cbn;
       rewrite mread_nil by done; apply zlen_nil_inv; lia |]); [lia |].
  pose proof (chunk_of_spec _ len Hok ltac:(done) Hm) as [Hc Hcm]. pose proof (do_end _ Hok). dev_step. dev_step.
  fold (chunk_of (s_dev s) len). set (c := chunk_of (s_dev s) len) in *.
  pose proof (blocksize_pos _ Hok).
  pose proof (Hacc 0 ltac:(lia) (Z.mod_0_l (dv_blocksize (s_dev s)) ltac:(lia))) as Ha0. rewrite Z.add_0_r, u32_small in Ha0 by done. rewrite Ha0. cbn [Z.eqb negb].
  dev_step. assert (Hlc : zlen (sub buf 0 c) = c) by (apply zlen_sub; lia). rewrite <- Hlc at 2.
  wp_apply raw_read; [done | done | lia |]. intros [rc done_] s1 (E1 & E2 & E3 & E4 & E5). cbn [fst snd] in *.
  destruct (Z.eqb_spec rc 0) as [-> | Hrc]; cbn [negb].
  2: { dev_step. split_and!; try done; cbn; intros Hr; by destruct Hrc; apply E5. }
  dev_step. wp_apply IH.
  - by rewrite E1.
  - rewrite zlen_drop by lia. lia.
  - lia.
  - rewrite E1. apply mod_sub_0; [apply blocksize_pos, Hok | done | done].
  - apply u32_range.
  - rewrite E1. apply accepted_next; [done | lia | done | done].
  - apply u64_range.
  - rewrite E1, u64_small by (unfold in_u; lia). lia.
  - intros [rc rest] s2 (F1 & F2 & F3 & F4). cbn [fst snd] in *. dev_step. split_and!; [congruence | by rewrite F2 | cbn | done].
    intros ->. rewrite E4, F3, E2, Hlc by done. rewrite u64_small by (unfold in_u; lia).
    rewrite <- mread_app by lia. f_equal. lia.
Qed.
Lemma splice_whole (l bs : list Z) : zlen bs = zlen l -> splice l 0 bs = bs.
Proof.
  intros E. pose proof (zlen_nonneg l). apply znth_ext; [rewrite zlen_splice; lia |].
  intros i Hi. rewrite zlen_splice in Hi by lia. rewrite znth_splice by lia.
  destruct (Z.leb_spec 0 i), (Z.ltb_spec i (0 + zlen bs)); cbn; try lia. f_equal. lia.
Qed.

(** One transfer of the loop of a write, through the bounce buffer or not. *)
Lemma aligned_chunk_write s addr buf c off : dev_ok (s_dev s) -> 0 < c <= zlen buf ->
  (Z.land addr (u32 (Z.lnot (dv_mask (s_dev s)))) <> 0 -> c = dv_blocksize (s_dev s)) ->
  0 <= off -> off < dv_firstbyte (s_dev s) + dv_size (s_dev s) ->
  wp (if negb (Z.land addr (u32 (Z.lnot (dv_mask (s_dev s)))) =? 0) then
        set_dev (fun dev => set_dv_bounce (Some (splice (the_bounce dev) 0 (sub buf 0 c))) dev);;
        let! rc := bounce_io true c off in
        ret (rc, sub buf 0 c)
      else raw_io true (sub buf 0 c) c off)
    (fun r s' => steps s s' /\ dv_bounce_lba (s_dev s') = dv_bounce_lba (s_dev s) /\ r.2 = sub buf 0 c /\
       (forall a, a < off \/ off + c <= a -> s_medium s' a = s_medium s a) /\
       (r.1 = 0 -> s_medium s' ≡ mwrite (s_medium s) off (sub buf 0 c))) s.
Proof.
  intros Hok Hc Hb Ho Hoff. assert (Hlc : zlen (sub buf 0 c) = c) by (apply zlen_sub; lia).
  destruct (Z.eqb_spec (Z.land addr (u32 (Z.lnot (dv_mask (s_dev s))))) 0) as [E | E]; cbn [negb].
  - rewrite <- Hlc at 2. wp_apply raw_write; [done | done | lia |]. intros [rc b] s' (E1 & E2 & E3 & E4).
    cbn [fst snd] in *. subst b. rewrite Hlc in E3. unfold steps. rewrite E1. split_and!; try done.
  - specialize (Hb E). dev_step. dev_step. dev_step.
    rewrite splice_whole by (rewrite Hlc, the_bounce_len by done; done). set (s1 := set_s_dev _ s).
    assert (Hs1 : steps s s1) by (split; [apply dev_ok_bounce; [done | lia] | done]).
    wp_apply (bounce_write s1); [apply Hs1 | done | by rewrite (steps_room _ _ Hs1) | done |].
    intros rc s' (F1 & F2 & F3 & F4 & F5). dev_step. cbn [fst snd].
    split_and!; [exact (steps_trans _ _ _ Hs1 F1) | by rewrite F2 | done | done | done].
Qed.

Lemma aligned_write fuel : forall s addr buf len off,
  dev_ok (s_dev s) -> zlen buf = len -> len <= Z.of_nat fuel -> len mod dv_blocksize (s_dev s) = 0 ->
  0 <= off -> off + len <= dv_firstbyte (s_dev s) + dv_size (s_dev s) ->
  wp (aligned_loop fuel true addr buf len off)
    (fun r s' => steps s s' /\ dv_bounce_lba (s_dev s') = dv_bounce_lba (s_dev s) /\ r.2 = buf /\
       (forall a, a < off \/ off + len <= a -> s_medium s' a = s_medium s a) /\
       (r.1 = 0 -> s_medium s' ≡ mwrite (s_medium s) off buf)) s.
Proof.
  induction fuel as [| fuel IH]; intros s addr buf len off Hok Hlen Hf Hm Ho Hend; cbn [aligned_loop];
    (destruct (Z.leb_spec len 0) as [Hl |]; [dev_step; split_and!; try done; intros _; cbn;
       rewrite (zlen_nil_inv buf) by lia; by rewrite mwrite_nil |]); [lia |].
  pose proof (chunk_of_spec _ len Hok ltac:(done) Hm) as [Hc Hcm]. pose proof (do_end _ Hok).
  pose proof (blocksize_pos _ Hok) as Hbs. dev_step. dev_step. fold (chunk_of (s_dev s) len).
  set (c := if negb _ then dv_blocksize (s_dev s) else chunk_of (s_dev s) len).
  assert (Hle : dv_blocksize (s_dev s) <= len).
  { destruct (Z.lt_ge_cases len (dv_blocksize (s_dev s))); [rewrite Z.mod_small in Hm |]; lia. }
  assert (Hc' : 0 < c <= len /\ c mod dv_blocksize (s_dev s) = 0).
  { unfold c. destruct (negb _); [| done]. split; [lia | apply Z.mod_same; lia]. }
  destruct Hc' as [Hc1 Hc2]. dev_step.
  wp_apply (aligned_chunk_write s addr buf c off); [done | lia | | done | lia |].
  { intros E. unfold c. by rewrite (proj2 (Z.eqb_neq _ _) E). }
  intros [rc done_] s1 (E1 & E2 & E3 & E4 & E5). cbn [fst snd] in *. subst done_.
  destruct (Z.eqb_spec rc 0) as [-> | Hrc]; cbn [negb].
  2: { dev_step. split_and!; try done; [apply sub_0_app | intros a Ha; apply E4; lia]. }
  dev_step. specialize (E5 eq_refl).
  wp_apply (IH s1); [apply E1 | rewrite zlen_drop; lia | lia | | apply u64_range | |].
  { rewrite (steps_size _ _ E1). apply mod_sub_0; [lia | done | done]. }
  { rewrite (steps_room _ _ E1), u64_small by (unfold in_u; lia). lia. }
  assert (Hlc : zlen (sub buf 0 c) = c) by (apply zlen_sub; lia).
  rewrite u64_small by (unfold in_u; lia). intros [rc rest] s2 (F1 & F2 & F3 & F4 & F5). cbn [fst snd] in *. subst rest.
  dev_step. cbn [fst snd]. split_and!.
  - exact (steps_trans _ _ _ E1 F1).
  - congruence.
  - apply sub_0_app.
  - intros a Ha. rewrite F4 by lia. apply E4. lia.
  - intros ->. rewrite F5, E5 by done. rewrite <- Hlc at 2. rewrite mwrite_app. by rewrite sub_0_app.
Qed.
(** *** Whole requests *)

(** The numbers of [partition_io] for a request inside of the partition: the bytes
    of the head, and those of the middle. *)
Definition head_len (dev : exfat_dev) (size offset : Z) : Z :=
  let head := (dv_firstbyte dev + offset) mod dv_blocksize dev in
  if head =? 0 then 0 else Z.min (dv_blocksize dev - head) size.

Definition middle_len (dev : exfat_dev) (remaining : Z) : Z :=
  if dv_blocksize dev <=? remaining then remaining - remaining mod dv_blocksize dev else 0.

(** A request inside of the partition. *)
Record request_ok (dev : exfat_dev) (buffer : list Z) (size offset : Z) : Prop := {
  rq_len : zlen buffer = size;
  rq_size : 0 < size < 2 ^ 31;
  rq_offset : 0 <= offset;
  rq_end : offset + size <= dv_size dev
}.

(** The head, middle and tail of a request: where they start and how long they are. *)
Lemma request_parts dev buffer size offset : dev_ok dev -> request_ok dev buffer size offset ->
  let bs := dv_blocksize dev in
  let abs := dv_firstbyte dev + offset in
  let n := head_len dev size offset in
  let m := middle_len dev (size - n) in
  0 <= n <= size /\ 0 <= abs mod bs < bs /\ (abs mod bs <> 0 -> abs mod bs + n <= bs) /\
  0 <= m <= size - n /\ m mod bs = 0 /\ 0 <= size - n - m < bs.
Proof.
  intros Hok [Hl Hs Ho He]. pose proof (blocksize_pos _ Hok). cbn zeta.
  set (bs := dv_blocksize dev) in *. pose proof (Z.mod_pos_bound (dv_firstbyte dev + offset) bs ltac:(lia)).
  unfold head_len, middle_len. fold bs. set (h := (dv_firstbyte dev + offset) mod bs) in *.
  set (n := if h =? 0 then 0 else Z.min (bs - h) size).
  assert (Hn : 0 <= n <= size /\ (h <> 0 -> h + n <= bs)) by (unfold n; destruct (Z.eqb_spec h 0); lia).
  pose proof (Z.mod_pos_bound (size - n) bs ltac:(lia)). pose proof (Z.mod_le (size - n) bs).
  destruct (Z.leb_spec bs (size - n)); split_and!; try lia; [| by rewrite Z.mod_0_l by lia].
  rewrite Zminus_mod_idemp_r, Z.sub_diag. by rewrite Z.mod_0_l by lia.
Qed.

(** [partition_io] on such a request. *)
Lemma partition_io_unfold write addr buffer size offset s :
  dev_ok (s_dev s) -> request_ok (s_dev s) buffer size offset ->
  let dev := s_dev s in
  let abs := dv_firstbyte dev + offset in
  let n := head_len dev size offset in
  let m := middle_len dev (size - n) in
  partition_io write addr buffer size offset s =
  (let head := abs mod dv_blocksize dev in
   let! first :=
     if head =? 0 then ret (Some [])
     else partial_block write (abs - head) head (sub buffer 0 n) in
   match first with
   | None => ret (-1, buffer)
   | Some first =>
       let rest := drop (Z.to_nat n) buffer in
       let! (rc, middle) :=
         if dv_blocksize dev <=? size - n
         then aligned_io write (u32 (addr + n)) (sub rest 0 m) m (abs + n) else ret (0, []) in
       if negb (rc =? 0) then ret (-1, first ++ middle ++ drop (Z.to_nat m) rest)
       else
         let rest := drop (Z.to_nat m) rest in
         if 0 <? size - n - m then
           let! last := partial_block write (abs + n + m) 0 (sub rest 0 (size - n - m)) in
           match last with
           | None => ret (-1, first ++ middle ++ rest)
           | Some last => ret (size, first ++ middle ++ last ++ drop (Z.to_nat (size - n - m)) rest)
           end
         else ret (size, first ++ middle ++ rest)
   end) s.
Proof.
  intros Hok Hrq. pose proof (request_parts _ _ _ _ Hok Hrq) as Hp. destruct Hrq as [Hl Hs Ho He]. cbn zeta in *.
  pose proof (do_first _ Hok). pose proof (do_size _ Hok). pose proof (do_end _ Hok). pose proof (blocksize_pos _ Hok).
  destruct Hp as (Hn & Hh & Hhn & Hm & Hmb & Ht).
  unfold partition_io. rewrite (bind_ok _ _ s s s) by done.
  rewrite (proj2 (Z.ltb_ge offset 0)), (proj2 (Z.eqb_neq size 0)), (proj2 (Z.leb_gt (dv_size (s_dev s)) offset)) by lia.
  cbn [orb].
  assert (Es : i32 size = size).
  { unfold i32, to_signed. rewrite Z.mod_small; lia. }
  rewrite Es, (proj2 (Z.ltb_ge (dv_size (s_dev s)) (offset + size))) by lia.
  rewrite (u64_small offset), (u64_small (dv_firstbyte (s_dev s) + offset)) by (unfold in_u; lia).
  rewrite land_blockmask by done. set (abs := dv_firstbyte (s_dev s) + offset) in *.
  rewrite (u32_small (abs mod _)) by (unfold in_u; lia).
  assert (En : (if abs mod dv_blocksize (s_dev s) =? 0 then 0
    else Z.min (u32 (dv_blocksize (s_dev s) - abs mod dv_blocksize (s_dev s))) size) = head_len (s_dev s) size offset).
  { unfold head_len. fold abs. destruct (Z.eqb_spec (abs mod dv_blocksize (s_dev s)) 0); [done |].
    by rewrite u32_small by (unfold in_u; lia). }
  rewrite En. set (n := head_len (s_dev s) size offset) in *.
  rewrite land_not_blockmask by (try done; unfold in_u; lia).
  assert (Em : (if dv_blocksize (s_dev s) <=? size - n then u32 (size - n - (size - n) mod dv_blocksize (s_dev s)) else 0) =
    middle_len (s_dev s) (size - n)).
  { unfold middle_len. destruct (Z.leb_spec (dv_blocksize (s_dev s)) (size - n)); [| done].
    pose proof (Z.mod_pos_bound (size - n) (dv_blocksize (s_dev s)) ltac:(lia)).
    pose proof (Z.mod_le (size - n) (dv_blocksize (s_dev s))). apply u32_small. unfold in_u. lia. }
  rewrite Em. set (m := middle_len (s_dev s) (size - n)) in *.
  rewrite (u64_small (abs + n)) by (unfold in_u, abs; lia). by rewrite (u64_small (abs + n + m)) by (unfold in_u, abs; lia).
Qed.
Definition inv s : Prop := dev_ok (s_dev s) /\ cache_ok s.

Lemma wp_eq_at {A} (m m' : M (iostate (D := D)) A) Q s : m s = m' s -> wp m' Q s -> wp m Q s.
Proof. unfold wp. by intros ->. Qed.

Lemma cache_ok_same s s' : s_dev s' = s_dev s -> s_medium s' ≡ s_medium s -> cache_ok s -> cache_ok s'.
Proof. unfold cache_ok. intros -> Em Hc Hn. by rewrite Em, <- Hc. Qed.

(** The part of a read before the first whole block. *)
Lemma read_head s buf abs : inv s -> 0 <= abs -> abs < dv_firstbyte (s_dev s) + dv_size (s_dev s) ->
  (abs mod dv_blocksize (s_dev s) = 0 -> buf = []) -> abs mod dv_blocksize (s_dev s) + zlen buf <= dv_blocksize (s_dev s) ->
  wp (if abs mod dv_blocksize (s_dev s) =? 0 then ret (Some [])
      else partial_block false (abs - abs mod dv_blocksize (s_dev s)) (abs mod dv_blocksize (s_dev s)) buf)
    (fun r s' => steps s s' /\ cache_ok s' /\ s_medium s' ≡ s_medium s /\
       match r with Some l => l = mread (s_medium s) abs (zlen buf) | None => ~ reliable end) s.
Proof.
  intros [Hok Hc] Ha He Hb Hl. pose proof (blocksize_pos _ Hok) as Hbs.
  pose proof (Z.mod_pos_bound abs (dv_blocksize (s_dev s)) ltac:(lia)).
  destruct (Z.eqb_spec (abs mod dv_blocksize (s_dev s)) 0) as [E0 | E0].
  - rewrite (Hb E0). dev_step. by rewrite mread_nil.
  - pose proof (Z.mod_le abs (dv_blocksize (s_dev s)) Ha ltac:(lia)).
    wp_apply partial_read; [done | done | lia | lia | lia | lia |].
    intros [l |] s1 (E1 & E2 & E3 & E4); (split_and!; try done). rewrite E4. f_equal. lia.
Qed.

(** The whole blocks of a read. *)
Lemma read_middle s addr buf len m off : dev_ok (s_dev s) -> cache_ok s -> zlen buf = m ->
  (len < dv_blocksize (s_dev s) -> m = 0) -> (dv_blocksize (s_dev s) <= len -> accepted (s_dev s) (u32 addr) m) ->
  m mod dv_blocksize (s_dev s) = 0 -> 0 <= off -> off + m <= dv_firstbyte (s_dev s) + dv_size (s_dev s) ->
  wp (if dv_blocksize (s_dev s) <=? len then aligned_io false (u32 addr) buf m off else ret (0, []))
    (fun r s' => steps s s' /\ cache_ok s' /\ s_medium s' ≡ s_medium s /\
       (r.1 = 0 -> r.2 = mread (s_medium s) off m) /\ (reliable -> r.1 = 0)) s.
Proof.
  intros Hok Hc Hl Hm0 Hacc Hmb Ho He. pose proof (zlen_nonneg buf).
  destruct (Z.leb_spec (dv_blocksize (s_dev s)) len) as [Hle | Hgt].
  - unfold aligned_io. dev_step. cbn [when]. dev_step.
    wp_apply aligned_read; [done | done | lia | done | apply u32_range | by apply Hacc | done | done |].
    intros r s2 (G1 & G2 & G3 & G4). split_and!; [unfold steps; by rewrite G1 | by eapply cache_ok_same | done | done | done].
  - dev_step. split_and!; try done. intros _. by rewrite (Hm0 Hgt), mread_nil.
Qed.

Lemma partition_read_spec s addr buffer size offset : inv s -> request_ok (s_dev s) buffer size offset ->
  accepted (s_dev s) (u32 (addr + head_len (s_dev s) size offset)) (size - head_len (s_dev s) size offset) ->
  wp (partition_io false addr buffer size offset)
    (fun r s' => inv s' /\ same_dev (s_dev s) (s_dev s') /\ s_medium s' ≡ s_medium s /\
       (r.1 = size /\ r.2 = mread (s_medium s) (dv_firstbyte (s_dev s) + offset) size \/ r.1 = -1 /\ ~ reliable)) s.
Proof.
  intros [Hok Hc] Hrq Hacc. pose proof (request_parts _ _ _ _ Hok Hrq) as Hp. pose proof Hrq as [Hl Hs Ho He].
  pose proof (do_first _ Hok). pose proof (blocksize_pos _ Hok). cbn zeta in Hp.
  apply (wp_eq_at _ _ _ _ (partition_io_unfold false addr buffer size offset s Hok Hrq)). cbn zeta.
  set (abs := dv_firstbyte (s_dev s) + offset) in *. set (n := head_len (s_dev s) size offset) in *.
  set (m := middle_len (s_dev s) (size - n)) in *. destruct Hp as (Hn & Hh & Hhn & Hm & Hmb & Ht).
  assert (Hln : zlen (sub buffer 0 n) = n) by (apply zlen_sub; lia).
  assert (Hn0 : abs mod dv_blocksize (s_dev s) = 0 -> n = 0) by (intros E0; unfold n, head_len; fold abs; by rewrite E0).
  dev_step. wp_apply (read_head s (sub buffer 0 n) abs); [done | unfold abs; lia | unfold abs; lia | | rewrite Hln |].
  { intros E0. apply zlen_nil_inv. by rewrite Hln, Hn0. }
  { destruct (decide (abs mod dv_blocksize (s_dev s) = 0)) as [E0 | E0]; [rewrite (Hn0 E0); lia | by apply Hhn]. }
  intros [first |] s1 (E1 & E2 & E3 & E4).
  2: { dev_step. split_and!; [split; [apply E1 | done] | apply E1 | done | by right]. }
  rewrite E4, Hln. clear E4. set (rest := drop (Z.to_nat n) buffer). assert (Hlr : zlen rest = size - n) by (unfold rest; rewrite zlen_drop; lia).
  pose proof (proj2 E1) as (K1 & K2 & K3 & _ & _ & K6 & _)%same_dev_fields.
  dev_step. rewrite <- K3. wp_apply (read_middle s1 (addr + n) (sub rest 0 m) (size - n) m (abs + n));
    [apply E1 | done | apply zlen_sub; lia | | | by rewrite K3 | unfold abs; lia | rewrite K1, K2; unfold abs; lia |].
  { rewrite K3. intros Hgt. unfold m, middle_len. by rewrite (proj2 (Z.leb_gt _ _) Hgt). }
  { intros _ i Hi Him. rewrite K6. rewrite K3 in Him. apply Hacc; [unfold n in *; lia | done]. }
  intros [rc middle] s2 (F1 & F2 & F3 & F4 & F5). apply (steps_trans _ _ _ E1) in F1. cbn [fst snd] in F4, F5.
  assert (F4' : rc = 0 -> middle = mread (s_medium s) (abs + n) m) by (intros E; rewrite F4 by done; by rewrite E3).
  clear F4. rename F4' into F4.
  assert (F3' : s_medium s2 ≡ s_medium s) by (by rewrite F3). clear F3. rename F3' into F3.
  destruct (Z.eqb_spec rc 0) as [-> | Hrc]; cbn [negb].
  2: { dev_step. split_and!; [split; [apply F1 | done] | apply F1 | done | right; split; [done | by intros ?%F5]]. }
  rewrite (F4 eq_refl). clear F4.
  destruct (Z.ltb_spec 0 (size - n - m)) as [Hpos | Hz].
  - assert (Hlt : zlen (sub (drop (Z.to_nat m) rest) 0 (size - n - m)) = size - n - m).
    { apply zlen_sub; rewrite ?zlen_drop; lia. }
    pose proof (steps_room _ _ F1). pose proof (steps_size _ _ F1).
    dev_step. wp_apply partial_read; [apply F1 | done | unfold abs; lia | unfold abs; lia | lia | lia |].
    intros [last |] s3 (G1 & G2 & G3 & G4); dev_step; cbn [fst snd].
    + pose proof (steps_trans _ _ _ F1 G1) as Hst. split_and!; [split; [apply G1 | done] | apply Hst | by rewrite G3 | left].
      split; [done |]. rewrite G4, Hlt, F3, Z.add_0_r.
      replace (drop _ (drop _ rest)) with (@nil Z) by (symmetry; apply zlen_nil_inv; rewrite !zlen_drop; rewrite ?zlen_drop; lia).
      rewrite app_nil_r, <- !mread_app by lia. f_equal. lia.
    + pose proof (steps_trans _ _ _ F1 G1) as Hst.
      split_and!; [split; [apply G1 | done] | apply Hst | by rewrite G3 | by right].
  - dev_step. cbn [fst snd]. split_and!; [split; [apply F1 | done] | apply F1 | done | left]. split; [done |].
    replace (drop _ rest) with (@nil Z) by (symmetry; apply zlen_nil_inv; rewrite zlen_drop; lia).
    rewrite app_nil_r, <- mread_app by lia. f_equal. lia.
Qed.
(** The bytes more than a block away from [off, off + len) are as they were. *)
Definition unchanged_beyond (bs : Z) (m m' : mem) (off len : Z) : Prop :=
  forall a, a + bs <= off \/ off + len + bs <= a -> m' a = m a.

Lemma unchanged_beyond_trans bs m m1 m2 off len off' len' : 0 <= bs ->
  unchanged_beyond bs m m1 off len -> unchanged_beyond bs m1 m2 off' len' ->
  off <= off' -> off' + len' <= off + len -> unchanged_beyond bs m m2 off len.
Proof. intros Hbs H1 H2 Ho Hl a Ha. rewrite H2 by lia. apply H1. lia. Qed.

(** The part of a write before the first whole block. *)
Lemma write_head s buf abs : inv s -> 0 <= abs -> abs < dv_firstbyte (s_dev s) + dv_size (s_dev s) ->
  (abs mod dv_blocksize (s_dev s) = 0 -> buf = []) -> abs mod dv_blocksize (s_dev s) + zlen buf <= dv_blocksize (s_dev s) ->
  wp (if abs mod dv_blocksize (s_dev s) =? 0 then ret (Some [])
      else partial_block true (abs - abs mod dv_blocksize (s_dev s)) (abs mod dv_blocksize (s_dev s)) buf)
    (fun r s' => steps s s' /\ cache_ok s' /\
       (forall size, zlen buf <= size -> unchanged_beyond (dv_blocksize (s_dev s)) (s_medium s) (s_medium s') abs size) /\
       match r with Some l => l = buf /\ s_medium s' ≡ mwrite (s_medium s) abs buf | None => True end) s.
Proof.
  intros [Hok Hc] Ha He Hb Hl. pose proof (zlen_nonneg buf). set (bs := dv_blocksize (s_dev s)) in *. pose proof (blocksize_pos _ Hok) as Hbs. fold bs in Hbs.
  pose proof (Z.mod_pos_bound abs bs ltac:(lia)). destruct (Z.eqb_spec (abs mod bs) 0) as [E0 | E0].
  - rewrite (Hb E0). dev_step. split_and!; try done. by rewrite mwrite_nil.
  - pose proof (Z.mod_le abs bs Ha ltac:(lia)).
    wp_apply partial_write; [done | done | lia | lia | lia | fold bs; lia |].
    intros r s1 (E1 & E2 & E3 & E4). fold bs in E3. split_and!; [done | done | intros size Hs a Hout; apply E3; lia |].
    destruct r as [l |]; [| done]. by replace (abs - abs mod bs + abs mod bs) with abs in E4 by lia.
Qed.

(** The whole blocks of a write. *)
Lemma write_middle s bs addr buf len m off : bs = dv_blocksize (s_dev s) -> dev_ok (s_dev s) -> cache_ok s -> zlen buf = m ->
  (len < bs -> m = 0) -> m mod bs = 0 ->
  0 <= off -> off + m <= dv_firstbyte (s_dev s) + dv_size (s_dev s) ->
  wp (if bs <=? len then aligned_io true addr buf m off else ret (0, []))
    (fun r s' => steps s s' /\ cache_ok s' /\
       unchanged_beyond bs (s_medium s) (s_medium s') off m /\
       (r.1 = 0 -> r.2 = buf /\ s_medium s' ≡ mwrite (s_medium s) off buf)) s.
Proof.
  intros -> Hok Hc Hl Hm0 Hmb Ho He. pose proof (blocksize_pos _ Hok) as Hbs. pose proof (zlen_nonneg buf) as Hz.
  destruct (Z.leb_spec (dv_blocksize (s_dev s)) len) as [Hle | Hgt].
  - unfold aligned_io. dev_step. cbn [when]. dev_step. set (s1 := set_s_dev _ s).
    assert (Hs1 : steps s s1) by (by split; [apply dev_ok_lba |]).
    wp_apply (aligned_write (Z.to_nat m) s1); [apply Hs1 | done | lia | by rewrite (steps_size _ _ Hs1) | done |
      by rewrite (steps_room _ _ Hs1) |].
    intros r s2 (F1 & F2 & F3 & F4 & F5). split_and!; [exact (steps_trans _ _ _ Hs1 F1) | | |].
    + intros Hlba. by destruct Hlba.
    + intros a Ha. rewrite F4 by lia. done.
    + intros E. split; [done | by apply F5].
  - assert (Eb : buf = []) by (apply zlen_nil_inv; specialize (Hm0 Hgt); lia). subst buf. dev_step.
    split_and!; try done. intros _. split; [done |]. by rewrite mwrite_nil.
Qed.

Lemma partition_write_spec s addr buffer size offset : inv s -> request_ok (s_dev s) buffer size offset ->
  wp (partition_io true addr buffer size offset)
    (fun r s' => inv s' /\ same_dev (s_dev s) (s_dev s') /\
       (r.1 = size /\ s_medium s' ≡ mwrite (s_medium s) (dv_firstbyte (s_dev s) + offset) buffer \/
        r.1 = -1 /\ unchanged_beyond (dv_blocksize (s_dev s)) (s_medium s) (s_medium s')
                      (dv_firstbyte (s_dev s) + offset) size)) s.
Proof.
  intros [Hok Hc] Hrq. pose proof (request_parts _ _ _ _ Hok Hrq) as Hp. pose proof Hrq as [Hl Hs Ho He].
  pose proof (do_first _ Hok). pose proof (blocksize_pos _ Hok) as Hbs. cbn zeta in Hp.
  apply (wp_eq_at _ _ _ _ (partition_io_unfold true addr buffer size offset s Hok Hrq)). cbn zeta.
  set (abs := dv_firstbyte (s_dev s) + offset) in *. set (n := head_len (s_dev s) size offset) in *.
  set (m := middle_len (s_dev s) (size - n)) in *. destruct Hp as (Hn & Hh & Hhn & Hm & Hmb & Ht).
  set (bs := dv_blocksize (s_dev s)) in *.
  set (rest := drop (Z.to_nat n) buffer). set (tail := drop (Z.to_nat m) rest).
  assert (Hln : zlen (sub buffer 0 n) = n) by (apply zlen_sub; lia).
  assert (Hlr : zlen rest = size - n) by (unfold rest; rewrite zlen_drop; lia).
  assert (Hlt : zlen tail = size - n - m) by (unfold tail; rewrite zlen_drop; lia).
  assert (Hlm : zlen (sub rest 0 m) = m) by (apply zlen_sub; lia).
  assert (Hbuf : buffer = sub buffer 0 n ++ sub rest 0 m ++ tail).
  { unfold tail. rewrite sub_0_app. unfold rest. by rewrite sub_0_app. }
  (* the head *)
  assert (Hn0 : abs mod bs = 0 -> n = 0) by (intros E0; unfold n, head_len; fold abs bs; by rewrite E0).
  assert (Hnb : abs mod bs + n <= bs) by (destruct (decide (abs mod bs = 0)) as [E0 | E0]; [rewrite (Hn0 E0); lia | by apply Hhn]).
  dev_step. wp_apply (write_head s (sub buffer 0 n) abs); [done | unfold abs; lia | unfold abs; lia | | by rewrite Hln |].
  { intros E0. apply zlen_nil_inv. by rewrite Hln, Hn0. }
  intros r1 s1 (E1 & E2 & E3 & E4). specialize (E3 size ltac:(lia)). fold bs in E3. pose proof (steps_room _ _ E1) as Hr1. pose proof (steps_size _ _ E1) as Hb1.
  destruct r1 as [first |].
  2: { dev_step. split_and!; [split; [apply E1 | done] | apply E1 | by right]. }
  destruct E4 as [-> E4].
  (* the middle *)
  dev_step. wp_apply (write_middle s1 bs (u32 (addr + n)) (sub rest 0 m) (size - n) m (abs + n)); [done | apply E1 | done | done | | done | unfold abs; lia | rewrite Hr1; unfold abs; lia |].
  { intros Hgt. unfold m, middle_len. fold bs. by rewrite (proj2 (Z.leb_gt _ _) Hgt). }
  intros [rc middle] s2 (F1 & F2 & F3 & F4). apply (steps_trans _ _ _ E1) in F1. cbn [fst snd] in F4.
  assert (U2 : unchanged_beyond bs (s_medium s) (s_medium s2) abs size).
  { eapply unchanged_beyond_trans; [lia | exact E3 | exact F3 | lia | lia]. }
  destruct (Z.eqb_spec rc 0) as [-> | Hrc]; cbn [negb].
  2: { dev_step. split_and!; [split; [apply F1 | done] | apply F1 | by right]. }
  destruct (F4 eq_refl) as [-> F5]. clear F4.
  assert (Hw : s_medium s2 ≡ mwrite (s_medium s) abs (sub buffer 0 n ++ sub rest 0 m)).
  { rewrite F5, E4. rewrite <- Hln at 2. apply mwrite_app. }
  fold tail. destruct (Z.ltb_spec 0 (size - n - m)) as [Hpos | Hz].
  - (* the tail *)
    pose proof (steps_room _ _ F1). pose proof (steps_size _ _ F1) as Hb2. rewrite <- Hlt, sub_all.
    dev_step. wp_apply partial_write; [apply F1 | done | unfold abs; lia | unfold abs; lia | lia | lia |].
    intros r3 s3 (G1 & G2 & G3 & G4). pose proof (steps_trans _ _ _ F1 G1) as Hst.
    rewrite Hb2 in G3. fold bs in G3. destruct r3 as [last |]; dev_step; cbn [fst snd].
    + destruct G4 as [-> G4]. split_and!; [split; [apply G1 | done] | apply Hst | left]. split; [done |].
      rewrite G4, Hw, Z.add_0_r.
      replace (abs + n + m) with (abs + zlen (sub buffer 0 n ++ sub rest 0 m)) by (rewrite zlen_app; lia).
      by rewrite mwrite_app, <- app_assoc, <- Hbuf.
    + split_and!; [split; [apply G1 | done] | apply Hst | right]. split; [done |].
      intros a Ha. rewrite G3 by lia. by apply U2.
  - dev_step. cbn [fst snd]. split_and!; [split; [apply F1 | done] | apply F1 | left]. split; [done |].
    assert (Et : tail = []) by (apply zlen_nil_inv; lia).
    rewrite Et, !app_nil_r in *. by rewrite Hw, <- Hbuf.
Qed.
(** ** The device of libexfat *)

(** The partition as a medium of its own. *)
Definition view s : mem := fun a => s_medium s (dv_firstbyte (s_dev s) + a).

(** The device of State.v that an open device stands for. *)
Definition represents s (e : env) : Prop := inv s /\ os_medium e ≡ view s.

Lemma mread_view s offset size : mread (view s) offset size = mread (s_medium s) (dv_firstbyte (s_dev s) + offset) size.
Proof.
  destruct (Z.lt_ge_cases size 0); [by rewrite !mread_nil by lia |].
  apply znth_ext; [by rewrite !zlen_mread |]. intros i Hi. rewrite zlen_mread in Hi by done.
  rewrite !znth_mread by done. unfold view. f_equal. lia.
Qed.

Lemma view_same s s' : same_dev (s_dev s) (s_dev s') -> s_medium s' ≡ s_medium s -> view s' ≡ view s.
Proof. intros (E & _)%same_dev_fields Em a. unfold view. rewrite E. apply Em. Qed.

Lemma view_write s s' offset data : same_dev (s_dev s) (s_dev s') ->
  s_medium s' ≡ mwrite (s_medium s) (dv_firstbyte (s_dev s) + offset) data -> view s' ≡ mwrite (view s) offset data.
Proof.
  intros (E & _)%same_dev_fields Em a. unfold view at 1. rewrite E, (Em _). unfold mwrite, view.
  replace (dv_firstbyte (s_dev s) + a - (dv_firstbyte (s_dev s) + offset)) with (a - offset) by lia.
  destruct (Z.leb_spec (dv_firstbyte (s_dev s) + offset) (dv_firstbyte (s_dev s) + a)), (Z.leb_spec offset a),
    (Z.ltb_spec (dv_firstbyte (s_dev s) + a) (dv_firstbyte (s_dev s) + offset + zlen data)),
    (Z.ltb_spec a (offset + zlen data)); cbn; done || lia.
Qed.

(** *** The stale block *)

(** A read of one block through the bounce buffer. *)
Lemma bounced_read s addr buffer offset : dev_ok (s_dev s) ->
  request_ok (s_dev s) buffer (dv_blocksize (s_dev s)) offset ->
  (dv_firstbyte (s_dev s) + offset) mod dv_blocksize (s_dev s) = 0 ->
  in_u 32 addr -> Z.land addr (u32 (Z.lnot (dv_mask (s_dev s)))) <> 0 ->
  wp (partition_io false addr buffer (dv_blocksize (s_dev s)) offset)
    (fun r s' => steps s s' /\ dv_bounce_lba (s_dev s') = dv_bounce_lba (s_dev s) /\ s_medium s' ≡ s_medium s /\
       (r.1 = dv_blocksize (s_dev s) ->
        the_bounce (s_dev s') = mread (s_medium s) (dv_firstbyte (s_dev s) + offset) (dv_blocksize (s_dev s)))) s.
Proof.
  intros Hok Hrq Hal Ha Hacc. pose proof Hrq as [Hl Hs Ho He]. pose proof (do_first _ Hok).
  apply (wp_eq_at _ _ _ _ (partition_io_unfold false addr buffer _ offset s Hok Hrq)). cbn zeta.
  set (bs := dv_blocksize (s_dev s)) in *. set (abs := dv_firstbyte (s_dev s) + offset) in *.
  assert (En : head_len (s_dev s) bs offset = 0) by (unfold head_len; fold abs bs; by rewrite Hal).
  rewrite En, Z.sub_0_r, Hal. cbn [Z.eqb].
  assert (Em : middle_len (s_dev s) bs = bs).
  { unfold middle_len. fold bs. rewrite Z.leb_refl, Z.mod_same by lia. lia. }
  rewrite Em, Z.leb_refl, Z.sub_diag, !Z.add_0_r, u32_small by done. cbn [Z.ltb Z.compare].
  dev_step. dev_step. cbn [Z.to_nat drop]. dev_step. unfold aligned_io. dev_step. cbn [when]. dev_step.
  destruct (Z.to_nat bs) as [| fuel] eqn:Ef; [lia |]. cbn [aligned_loop].
  destruct (Z.leb_spec bs 0); [lia |]. dev_step. dev_step. rewrite (proj2 (Z.eqb_neq _ _) Hacc). cbn [negb]. fold bs.
  dev_step. dev_step. wp_apply bounce_read; [done | unfold abs; lia | unfold abs; lia | done |].
  intros rc s1 (E1 & E2 & E3 & E4 & _). dev_step. dev_step. dev_step.
  destruct (Z.eqb_spec rc 0) as [-> | Hrc]; cbn [negb].
  - rewrite Z.sub_diag. dev_step. destruct fuel; cbn [aligned_loop Z.leb Z.compare]; do 2 dev_step; cbn [Z.eqb negb]; dev_step;
      (split_and!; [done | done | done | intros _; by apply E4]).
  - dev_step. cbn [Z.eqb negb]. dev_step. split_and!; try done. cbn. intros ?. lia.
Qed.

(** A small read from the block that the buffer is said to hold. *)
Lemma cached_read s addr buffer size offset : dev_ok (s_dev s) -> request_ok (s_dev s) buffer size offset ->
  size < dv_blocksize (s_dev s) -> (dv_firstbyte (s_dev s) + offset) mod dv_blocksize (s_dev s) = 0 ->
  dv_bounce_lba (s_dev s) = dv_firstbyte (s_dev s) + offset ->
  partition_io false addr buffer size offset s = Ok (size, sub (the_bounce (s_dev s)) 0 size) s.
Proof.
  intros Hok Hrq Hlt Hal Hlba. pose proof Hrq as [Hl Hs Ho He]. rewrite (partition_io_unfold _ _ _ _ _ _ Hok Hrq). cbn zeta.
  set (bs := dv_blocksize (s_dev s)) in *. set (abs := dv_firstbyte (s_dev s) + offset) in *.
  assert (En : head_len (s_dev s) size offset = 0) by (unfold head_len; fold abs bs; by rewrite Hal).
  assert (Em : middle_len (s_dev s) size = 0) by (unfold middle_len; fold bs; by rewrite (proj2 (Z.leb_gt _ _) Hlt)).
  rewrite En, Z.sub_0_r, Em, Z.sub_0_r, Hal, (proj2 (Z.leb_gt _ _) Hlt), !Z.add_0_r. change (Z.to_nat 0) with 0%nat. cbn [Z.eqb].
  rewrite !drop_0, (bind_ok _ _ s (Some []) s), (bind_ok _ _ s (0, []) s) by done. cbn [Z.eqb negb].
  rewrite (proj2 (Z.ltb_lt 0 size)) by lia. unfold partial_block, fetch_block.
  rewrite (bind_ok _ _ s (Some (sub (the_bounce (s_dev s)) 0 size)) s).
  - replace (drop (Z.to_nat size) buffer) with (@nil Z) by (symmetry; apply zlen_nil_inv; rewrite zlen_drop; lia).
    cbn [app]. by rewrite app_nil_r.
  - rewrite (bind_ok _ _ s 0 s).
    + cbn [Z.eqb negb]. rewrite (bind_ok _ _ s s s) by done. replace (zlen (sub buffer 0 size)) with size; [done |].
      by rewrite zlen_sub by lia.
    + rewrite (bind_ok _ _ s s s) by done. by rewrite (proj2 (Z.eqb_eq _ _) Hlba).
Qed.
End DevIoSpec.

(** C37: Refinement of reads: for a request inside of the partition whose whole blocks
    go to addresses that the driver accepts ([accepted]; C39 is the other case), the
    [exfat_pread] of AmigaOS ends and reads what the device of State.v reads at that
    offset, whatever the alignment of the request, the largest transfer of the driver
    and the block in the bounce buffer; it returns -1 instead only with a driver that
    fails a transfer ([reliable]).  Either way the device stands for the same medium
    afterwards. *)
Theorem exfat_pread_refines {D} `{ExecDeviceLaws D} (s : iostate (D := D)) e addr buffer size offset
  (Hs : represents s e) (Hrq : request_ok (s_dev s) buffer size offset) (Hacc : accepted (s_dev s) (u32 (addr + head_len (s_dev s) size offset)) (size - head_len (s_dev s) size offset))
  (He : os_rfail e offset size = false) :
  exists n data s', exfat_pread addr buffer size offset s = Ok (n, data) s' /\ represents s' e /\
    (n = size /\ State.exfat_pread size offset e = Ok (Some data) e \/ n = -1 /\ ~ reliable (D := D)).
Proof.
  destruct Hs as [Hinv Hv].
  destruct (proj1 (wp_ok _ _ _) (partition_read_spec s addr buffer size offset Hinv Hrq Hacc)) as
    ([n data] & s' & E & Hinv' & Hsame & Hm & Hr). cbn [fst snd] in Hr.
  exists n, data, s'. split; [exact E |]. split; [split; [done | by rewrite Hv, view_same] |].
  destruct Hr as [[-> ->] | [-> Hr]]; [left | by right]. split; [done |].
  unfold State.exfat_pread, gets. rewrite He. f_equal. f_equal. by rewrite Hv, mread_view.
Qed.

(** C38: Refinement of writes: the [exfat_pwrite] of AmigaOS stores the bytes at that
    offset of the partition as the device of State.v does, and no other byte of the
    medium changes, though whole blocks are written; or it returns -1 and no byte more
    than a block away from the request has changed. *)
Theorem exfat_pwrite_refines {D} `{ExecDeviceLaws D} (s : iostate (D := D)) e addr buffer size offset
  (Hs : represents s e) (Hrq : request_ok (s_dev s) buffer size offset)
  (He : os_wfail e offset (zlen buffer) = false) :
  exists n s', exfat_pwrite addr buffer size offset s = Ok n s' /\ inv s' /\
    ((n = size /\ exists e', State.exfat_pwrite buffer offset e = Ok true e' /\ represents s' e' /\
        s_medium s' ≡ mwrite (s_medium s) (dv_firstbyte (s_dev s) + offset) buffer) \/
     (n = -1 /\ unchanged_beyond (dv_blocksize (s_dev s)) (s_medium s) (s_medium s')
                  (dv_firstbyte (s_dev s) + offset) size)).
Proof.
  destruct Hs as [Hinv Hv].
  destruct (proj1 (wp_ok _ _ _) (partition_write_spec s addr buffer size offset Hinv Hrq)) as
    ([n data] & s' & E & Hinv' & Hsame & Hr). cbn [fst snd] in Hr.
  exists n, s'. split; [unfold exfat_pwrite; by rewrite (bind_ok _ _ _ _ _ E) |]. split; [done |].
  destruct Hr as [[-> Hm] | [-> Hm]]; [left | by right]. split; [done |].
  eexists. unfold State.exfat_pwrite. rewrite He. split; [done |]. split; [| done].
  split; [done |]. cbn [os_medium set_os_medium]. rewrite Hv. symmetry. by apply view_write.
Qed.

(** C39: A read can return the bytes of another block.  When the buffer holds the block
    at [offset] and one whole block [other] is read to an address that the driver does
    not accept, the bytes of [other] replace it, but the buffer is still said to hold
    the block at [offset]: the next small read there returns the bytes of [other]. *)
Theorem bounced_read_poisons_cache {D} `{ExecDeviceLaws D} (s s' : iostate (D := D)) addr addr' buffer buffer' other offset size data
  (Hok : dev_ok (s_dev s)) (Hrq : request_ok (s_dev s) buffer (dv_blocksize (s_dev s)) other)
  (Hrq' : request_ok (s_dev s) buffer' size offset) (Hsize : size < dv_blocksize (s_dev s))
  (Hother : (dv_firstbyte (s_dev s) + other) mod dv_blocksize (s_dev s) = 0)
  (Hoffset : (dv_firstbyte (s_dev s) + offset) mod dv_blocksize (s_dev s) = 0)
  (Hcached : dv_bounce_lba (s_dev s) = dv_firstbyte (s_dev s) + offset)
  (Haddr : in_u 32 addr) (Hmask : Z.land addr (u32 (Z.lnot (dv_mask (s_dev s)))) <> 0)
  (Hread : exfat_pread addr buffer (dv_blocksize (s_dev s)) other s = Ok (dv_blocksize (s_dev s), data) s') :
  exfat_pread addr' buffer' size offset s' = Ok (size, mread (view s) other size) s'.
Proof.
  pose proof (bounced_read s addr buffer other Hok Hrq Hother Haddr Hmask) as Hb.
  apply wp_ok in Hb as (r & s1 & E & Hst & Hlba & Hm & Hd). unfold exfat_pread in Hread. rewrite Hread in E. simplify_eq.
  specialize (Hd eq_refl). pose proof Hst as [Hok' (F1 & F2 & F3 & _)%same_dev_fields].
  unfold exfat_pread. rewrite cached_read.
  - rewrite Hd, mread_sub, mread_view, Z.add_0_r by (destruct Hrq'; lia). done.
  - done.
  - destruct Hrq'. split; try done. by rewrite F2.
  - by rewrite F3.
  - by rewrite F1, F3.
  - by rewrite Hlba, F1.
Qed.
