(* ===== verification/DevIoOpen.v ===== *)
(** * DevIoOpen: opening the device of AmigaOS (amiga/dev_io.c)

    [exfat_open] gets a block of memory, a port, a request, the device and a buffer,
    and any of these may fail.  It gives back what it got, or returns a device that
    is as the transfers of DevIoSpec.v need it.  The second half of the file is a
    driver in memory, on which the theorems are applied. *)

From Stdlib Require Import ZArith Lia.
From stdpp Require Import base numbers list.
From S2P Require Import Prelude Bytes Monad State Geometry DevIo DevIoSpec.

#[local] Open Scope Z_scope.

(** [b & (b - 1)] is zero only for the powers of two. *)
Lemma power_of_two b : 0 < b -> Z.land b (b - 1) = 0 -> b = 2 ^ Z.log2 b.
Proof.
  intros Hb Hl. pose proof (Z.log2_spec b Hb) as [H1 H2]. pose proof (Z.log2_nonneg b) as Hn.
  destruct (Z.eq_dec b (2 ^ Z.log2 b)) as [E | Hne]; [done |]. exfalso.
  assert (Hbit : forall x, 2 ^ Z.log2 b <= x < 2 ^ Z.succ (Z.log2 b) -> Z.testbit x (Z.log2 b) = true).
  { intros x Hx. rewrite Z.testbit_true by done.
    replace (x / 2 ^ Z.log2 b) with 1; [done |]. apply Z.div_unique with (x - 2 ^ Z.log2 b);
      rewrite Z.pow_succ_r in Hx by done; lia. }
  assert (E : Z.testbit (Z.land b (b - 1)) (Z.log2 b) = true).
  { rewrite Z.land_spec, !Hbit by lia. done. }
  rewrite Hl, Z.bits_0 in E. done.
Qed.

Section DevIoOpen.
Context {D : Type} `{ExecDeviceLaws D}.
Implicit Types x : exec (D := D).

(** A description of a partition that fits 63 bits. *)
Record spec_ok (ds : ExfatDevSpec) : Prop := {
  so_block : in_u 32 (ds_blocksize ds);
  so_maxtransfer : in_u 32 (ds_maxtransfer ds);
  so_first : 0 <= ds_firstbyte ds;
  so_length : 0 <= ds_length ds;
  so_end : ds_firstbyte ds + ds_length ds < 2 ^ 63
}.

(** What the process holds of the system. *)
Definition held x := (x_vecs x, x_ports x, x_reqs x, x_opens x).

(** The test of the block size. *)
Lemma block_test ds mode : spec_ok ds ->
  (dv_blocksize (new_dev ds mode) =? 0) || negb (Z.land (dv_blocksize (new_dev ds mode)) (dv_blockmask (new_dev ds mode)) =? 0) = false ->
  exists k, 0 <= k < 32 /\ ds_blocksize ds = 2 ^ k /\ dv_blockmask (new_dev ds mode) = ds_blocksize ds - 1.
Proof.
  intros [Hb _ _ _ _] (E1 & E2)%orb_false_iff. cbn [new_dev dv_blocksize dv_blockmask] in *.
  apply Z.eqb_neq in E1. apply negb_false_iff, Z.eqb_eq in E2. unfold in_u in Hb.
  rewrite u32_small in E2 by (unfold in_u; lia). rewrite u32_small by (unfold in_u; lia).
  exists (Z.log2 (ds_blocksize ds)). split_and!; [apply Z.log2_nonneg | | apply power_of_two; [lia | done] | done].
  apply Z.log2_lt_pow2; lia.
Qed.

(** Both commands are chosen together, and 32-bit ones only for a partition below 4 GB. *)
Definition set_cmds (r w : Z) (dev : exfat_dev) : exfat_dev := set_dv_cmd_write w (set_dv_cmd_read r dev).

Lemma probe_loop_spec cmds dev :
  probe_loop cmds dev = dev \/ probe_loop cmds dev = set_cmds NSCMD_TD_READ64 NSCMD_TD_WRITE64 dev.
Proof.
  revert dev. induction cmds as [| c cmds IH]; intros dev; cbn [probe_loop]; [by left |].
  destruct (c =? NSCMD_TD_READ64); [| apply IH]. right. by destruct (IH (set_cmds NSCMD_TD_READ64 NSCMD_TD_WRITE64 dev)).
Qed.

Lemma probe_commands_spec dev x : 0 <= dv_firstbyte dev -> 0 <= dv_size dev -> dv_firstbyte dev + dv_size dev < 2 ^ 63 ->
  exists r w x', probe_commands dev x = Ok (set_cmds r w dev) x' /\ held x' = held x /\
    x_answers x' = x_answers x /\ d_medium (x_drv x') ≡ d_medium (x_drv x) /\
    ((r = CMD_READ /\ w = CMD_WRITE /\ dv_firstbyte dev + dv_size dev < 2 ^ 32) \/
     (r = TD_READ64 /\ w = TD_WRITE64) \/ (r = NSCMD_TD_READ64 /\ w = NSCMD_TD_WRITE64)).
Proof.
  intros Hf Hs He. unfold probe_commands, do_query. unfold bind at 1.
  destruct (DoIO_query _ _) as [[rp nsd] d] eqn:E. pose proof (query_law _ _ _ _ _ E) as Hm.
  rewrite (u64_small (dv_size dev)), u64_small by (unfold in_u; lia).
  set (dev0 := set_dv_cmd_write CMD_WRITE (set_dv_cmd_read CMD_READ dev)).
  set (dev1 := match nsdqr_SupportedCommands nsd with Some _ => _ | None => dev0 end).
  assert (Hd : dev1 = set_cmds CMD_READ CMD_WRITE dev \/ dev1 = set_cmds NSCMD_TD_READ64 NSCMD_TD_WRITE64 dev).
  { unfold dev1. destruct (nsdqr_SupportedCommands nsd) as [cmds |]; [| by left]. destruct (_ && _ && _); [| by left].
    destruct (probe_loop_spec cmds dev0) as [-> | ->]; [by left | by right]. }
  assert (Hx : held (set_x_drv d x) = held x) by done.
  destruct Hd as [-> | ->]; cbn [dv_cmd_read set_cmds set_dv_cmd_write set_dv_cmd_read].
  - destruct (Z.ltb_spec 0xffffffff (dv_firstbyte dev + dv_size dev)); cbn [Z.eqb Pos.eqb CMD_READ andb].
    + exists TD_READ64, TD_WRITE64, (set_x_drv d x). split_and!; try done. by right; left.
    + exists CMD_READ, CMD_WRITE, (set_x_drv d x). split_and!; try done. left. split_and!; try done. lia.
  - exists NSCMD_TD_READ64, NSCMD_TD_WRITE64, (set_x_drv d x). split_and!; try done. by right; right.
Qed.

Lemma probe_protection_spec dev x : exists m x', probe_protection dev x = Ok (set_dv_mode m dev) x' /\
  held x' = held x /\ d_medium (x_drv x') ≡ d_medium (x_drv x).
Proof.
  unfold probe_protection.
  assert (Ho : exists m x', (let! rp := do_io {| io_Command := TD_PROTSTATUS; io_Length := 0; io_Offset := 0; io_Actual := 0 |} [] in
      if (rp_error rp =? 0) && negb (rp_actual rp =? 0) then ret (set_dv_mode EXFAT_MODE_RO dev) else ret dev) x =
      Ok (set_dv_mode m dev) x' /\ held x' = held x /\ d_medium (x_drv x') ≡ d_medium (x_drv x)).
  { unfold do_io, bind. destruct (DoIO _ _ _) as [rp d] eqn:E.
    pose proof (other_law _ _ _ _ _ E eq_refl eq_refl) as Hm.
    destruct (_ && _); [exists EXFAT_MODE_RO | exists (dv_mode dev)]; exists (set_x_drv d x);
      (split_and!; try done); unfold ret; f_equal; by destruct dev. }
  destruct (dv_mode dev) eqn:E; [| done | done].
  exists EXFAT_MODE_RO, x. split_and!; try done. rewrite <- E. unfold ret. f_equal. by destruct dev.
Qed.

Lemma acquire_spec f x : exists b x1, acquire f x = Ok b (if b : bool then f x1 else x1) /\
  held x1 = held x /\ x_drv x1 = x_drv x.
Proof.
  unfold acquire, answer, bind. destruct (x_answers x) as [| [] rest].
  - by exists true, x.
  - by exists true, (set_x_answers rest x).
  - by exists false, (set_x_answers rest x).
Qed.
(** What [exfat_close] gives back. *)
Definition dev_held (dev : exfat_dev) : Z * Z * Z * Z :=
  ((if dv_bounce dev then 2 else 1), Z.b2z (dv_port dev), Z.b2z (dv_req dev), Z.b2z (dv_devopen dev)).

Definition minus4 (a b : Z * Z * Z * Z) : Z * Z * Z * Z :=
  let '(a1, a2, a3, a4) := a in let '(b1, b2, b3, b4) := b in (a1 - b1, a2 - b2, a3 - b3, a4 - b4).

(** Equal counts. *)
Ltac held_lia :=
  unfold held, dev_held, minus4 in *; cbn in *; simplify_eq; repeat (apply (f_equal2 pair); [| lia]); lia.

Lemma exfat_close_spec dev x : exists x', exfat_close (Some dev) x = Ok 0 x' /\
  held x' = minus4 (held x) (dev_held dev) /\ x_drv x' = x_drv x.
Proof.
  unfold exfat_close, dev_held. set (b := bool_decide _).
  assert (Hb : b = if dv_bounce dev then true else false).
  { unfold b. destruct (dv_bounce dev); [by apply bool_decide_true | apply bool_decide_false; by intros []]. }
  rewrite Hb. clear b Hb.
  destruct (dv_bounce dev), (dv_devopen dev), (dv_req dev), (dv_port dev); eexists; (split; [reflexivity |]);
    (split; [| done]); held_lia.
Qed.

(** One more thing that may fail. *)
Lemma wp_acquire {B} f (k : bool -> M exec B) Q x :
  (forall x1, held x1 = held x -> x_drv x1 = x_drv x -> wp (k true) Q (f x1)) ->
  (forall x1, held x1 = held x -> x_drv x1 = x_drv x -> wp (k false) Q x1) ->
  wp (let! ok := acquire f in k ok) Q x.
Proof.
  intros Ht Hf. destruct (acquire_spec f x) as (b & x1 & E & Hh & Hd). unfold wp. rewrite (bind_ok _ _ _ _ _ E).
  destruct b; [by apply Ht | by apply Hf].
Qed.

Definition opened (ds : ExfatDevSpec) x (r : option exfat_dev) x' : Prop :=
  d_medium (x_drv x') ≡ d_medium (x_drv x) /\
  match r with
  | None => held x' = held x
  | Some dev => dev_ok dev /\ dv_bounce_lba dev = NO_BLOCK /\ minus4 (held x') (dev_held dev) = held x /\
      dv_firstbyte dev = ds_firstbyte ds /\ dv_size dev = ds_length ds
  end.

Lemma opened_none ds x x' : x_drv x' = x_drv x -> held x' = held x -> opened ds x None x'.
Proof. intros E1 E2. split; [by rewrite E1 | done]. Qed.

Lemma i64_small z : 0 <= z < 2 ^ 63 -> i64 z = z.
Proof. intros Hz. unfold i64, to_signed. rewrite Z.mod_small; lia. Qed.

(** The rest of [exfat_open] once everything is there. *)
Lemma open_last ds mode x x5 k dev : spec_ok ds -> 0 <= k < 32 -> ds_blocksize ds = 2 ^ k ->
  dv_blockmask (new_dev ds mode) = ds_blocksize ds - 1 ->
  dev = set_dv_bounce (Some (zrepeat 0 (ds_blocksize ds))) (set_dv_bounce_lba NO_BLOCK (set_dv_devopen true
    (set_dv_req true (set_dv_port true (new_dev ds mode))))) ->
  minus4 (held x5) (2, 1, 1, 1) = held x -> x_drv x5 = x_drv x ->
  wp (let! dev := probe_commands dev in let! dev := probe_protection dev in ret (Some dev)) (opened ds x) x5.
Proof.
  intros [Hb Hmt Hf Hl He] Hk Ek Hbm -> Hh Hd. set (dev := set_dv_bounce _ _).
  assert (Hsz : dv_size dev = ds_length ds) by (apply i64_small; lia).
  destruct (probe_commands_spec dev x5) as (r & w & x6 & E & Hh6 & _ & Hm6 & Hc);
    [done | by rewrite Hsz | rewrite Hsz; exact He |].
  destruct (probe_protection_spec (set_cmds r w dev) x6) as (m & x7 & E7 & Hh7 & Hm7).
  unfold wp. rewrite (bind_ok _ _ _ _ _ E), (bind_ok _ _ _ _ _ E7). cbn [ret]. unfold ret.
  split; [by rewrite Hm7, Hm6, Hd |]. split_and!; [| done | by rewrite Hh7, Hh6 | done | done].
  split; cbn.
  - by exists k.
  - done.
  - done.
  - by change (0 <= dv_size dev); rewrite Hsz.
  - change (ds_firstbyte ds + dv_size dev <= 2 ^ 63). rewrite Hsz. lia.
  - done.
  - exact Hc.
  - eexists. split; [done |]. apply zlen_zrepeat. apply Hb.
Qed.

Lemma exfat_open_spec ds mode x : spec_ok ds -> wp (exfat_open (Some ds) mode) (opened ds x) x.
Proof.
  intros Hds. unfold exfat_open. apply wp_acquire; intros x1 Hh1 Hd1; cbn [negb];
    [| by apply opened_none].
  destruct (_ || negb _) eqn:Et.
  { apply opened_none; [done |]. held_lia. }
  destruct (block_test ds mode Hds Et) as (k & Hk & Ek & Hbm). clear Et.
  apply wp_acquire; intros x2 Hh2 Hd2; cbn [negb].
  2: { apply opened_none; [cbn; by rewrite Hd2 |]. held_lia. }
  apply wp_acquire; intros x3 Hh3 Hd3; cbn [negb].
  2: { apply opened_none; [cbn; by rewrite Hd3; cbn; rewrite Hd2 |]. held_lia. }
  apply wp_acquire; intros x4 Hh4 Hd4; cbn [negb].
  2: { apply opened_none; [cbn; by rewrite Hd4; cbn; rewrite Hd3; cbn; rewrite Hd2 |].
    held_lia. }
  apply wp_acquire; intros x5 Hh5 Hd5; cbn [negb].
  2: { destruct (exfat_close_spec (set_dv_bounce_lba NO_BLOCK (set_dv_devopen true (set_dv_req true (set_dv_port true (new_dev ds mode))))) x5)
      as (x6 & E6 & Hh6 & Hd6). unfold wp. rewrite (bind_ok _ _ _ _ _ E6). apply opened_none.
    - rewrite Hd6, Hd5. cbn. rewrite Hd4. cbn. rewrite Hd3. cbn. by rewrite Hd2.
    - rewrite Hh6. held_lia. }
  apply (open_last ds mode x _ k); try done.
  - held_lia.
  - cbn. rewrite Hd5. cbn. rewrite Hd4. cbn. rewrite Hd3. cbn. by rewrite Hd2.
Qed.
End DevIoOpen.

(** C40: Opening a device takes everything or nothing: when any of the five calls of
    the system fails, or the block size is no power of two, all that was got is given
    back and no device is returned; else the device is ready for transfers
    ([dev_ok]: among others, the 32-bit commands are chosen only when the partition
    ends below 4 GB) with nothing in its buffer, and [exfat_close] gives everything
    back.  The medium is not changed. *)
Theorem exfat_open_all_or_nothing {D} `{ExecDeviceLaws D} ds mode (x : exec (D := D)) (Hds : spec_ok ds) :
  exists r x', exfat_open (Some ds) mode x = Ok r x' /\ d_medium (x_drv x') ≡ d_medium (x_drv x) /\
    match r with
    | None => held x' = held x
    | Some dev =>
        inv (mk_iostate dev x') /\ dv_firstbyte dev = ds_firstbyte ds /\ dv_size dev = ds_length ds /\
        exists x'', exfat_close (Some dev) x' = Ok 0 x'' /\ held x'' = held x
    end.
Proof.
  destruct (proj1 (wp_ok _ _ _) (exfat_open_spec ds mode x Hds)) as (r & x' & E & Hm & Hr).
  exists r, x'. split; [done |]. split; [done |]. destruct r as [dev |]; [| done].
  destruct Hr as (Hok & Hlba & Hh & Hf & Hs). destruct (exfat_close_spec dev x') as (x'' & Ec & Hc & _).
  split_and!; [split; [done |] | done | done | exists x''; by rewrite Hc].
  intros Hn. by destruct Hn.
Qed.

(** ** A driver in memory *)

#[global] Instance ram_device : ExecDevice mem := {
  DoIO r data m :=
    if is_read_command (io_Command r) then
      ({| rp_error := 0; rp_actual := io_Length r; rp_data := mread m (io_byte_offset r) (zlen data) |}, m)
    else if is_write_command (io_Command r) then
      ({| rp_error := 0; rp_actual := io_Length r; rp_data := data |}, mwrite m (io_byte_offset r) data)
    else ({| rp_error := 0; rp_actual := 0; rp_data := data |}, m);
  DoIO_query r m :=
    ({| rp_error := 0; rp_actual := 16; rp_data := [] |},
     {| nsdqr_SizeAvailable := 16; nsdqr_SupportedCommands := Some [CMD_READ; CMD_WRITE; NSCMD_TD_READ64] |}, m);
  d_medium m := m
}.

#[global] Instance ram_device_laws : ExecDeviceLaws mem.
Proof.
  split.
  - intros r data m rp m' E Hr Hl. cbn in E. rewrite Hr in E. injection E as <- <-. cbn.
    pose proof (zlen_nonneg data). split_and!; [done | by rewrite zlen_mread | intros; by rewrite Hl].
  - intros r data m rp m' E Hw Hl. cbn in E. assert (Hr : is_read_command (io_Command r) = false).
    { unfold is_write_command, is_read_command, CMD_WRITE, TD_WRITE64, NSCMD_TD_WRITE64, CMD_READ, TD_READ64,
        NSCMD_TD_READ64 in *. lia. }
    rewrite Hr, Hw in E. injection E as <- <-. cbn. split_and!; [done | | done].
    intros a Ha. apply mwrite_out. lia.
  - intros r data m rp m' E Hr Hw. cbn in E. rewrite Hr, Hw in E. by injection E as <- <-.
  - intros r m rp q m' E. cbn in E. by injection E as <- <- <-.
Qed.

Definition demo_medium : mem := fun a => a mod 251.
Definition demo_spec : ExfatDevSpec := {|
  ds_unit := 0; ds_flags := 0; ds_blocksize := 8; ds_maxtransfer := 0x20; ds_mask := 0xfffffffe;
  ds_firstbyte := 100; ds_length := 1000 |}.
Definition demo_exec : exec := mk_exec [] 0 0 0 0 0 demo_medium.

(** The device that [exfat_open] makes of them. *)
Definition demo_dev : exfat_dev :=
  mk_exfat_dev true true true EXFAT_MODE_RW 100 1000 0 8 7 0x20 0xfffffffe NSCMD_TD_READ64 NSCMD_TD_WRITE64
    (Some (zrepeat 0 8)) NO_BLOCK.
Definition demo_io : iostate := mk_iostate demo_dev (mk_exec [] 2 1 1 1 0 demo_medium).
Definition demo_env : env := set_os_medium (view demo_io) demo_os.

Lemma demo_open : exfat_open (Some demo_spec) EXFAT_MODE_RW demo_exec = Ok (Some demo_dev) (s_exec demo_io).
Proof. reflexivity. Qed.

Lemma demo_dev_ok : dev_ok demo_dev.
Proof. split; try (vm_compute; done); [by exists 3 | by right; right | by eexists]. Qed.

Lemma demo_represents : represents demo_io demo_env.
Proof. split; [split; [apply demo_dev_ok | intros Hn; by destruct Hn] | done]. Qed.

Lemma exfat_open_all_or_nothing_witness :
  exists r x', exfat_open (Some demo_spec) EXFAT_MODE_RW demo_exec = Ok r x' /\ d_medium (x_drv x') ≡ d_medium (x_drv demo_exec) /\
    match r with
    | None => held x' = held demo_exec
    | Some dev =>
        inv (mk_iostate dev x') /\ dv_firstbyte dev = 100 /\ dv_size dev = 1000 /\
        exists x'', exfat_close (Some dev) x' = Ok 0 x'' /\ held x'' = held demo_exec
    end.
Proof. apply (exfat_open_all_or_nothing demo_spec EXFAT_MODE_RW demo_exec). split; by vm_compute. Defined.

(** 30 bytes from byte 1: a head, three blocks and a tail.  The head makes the
    address of the blocks even. *)
(** The device in memory is one of the drivers that never fail a read. *)
Lemma ram_device_reliable : reliable (D := mem).
Proof. intros r data m Hr. cbn. by rewrite Hr. Qed.

Lemma exfat_pread_refines_witness :
  exists n data s', exfat_pread 63 (zrepeat 0 30) 30 1 demo_io = Ok (n, data) s' /\ represents s' demo_env /\
    (n = 30 /\ State.exfat_pread 30 1 demo_env = Ok (Some data) demo_env \/ n = -1 /\ ~ reliable (D := mem)).
Proof.
  apply (exfat_pread_refines demo_io demo_env 63 (zrepeat 0 30) 30 1).
  - apply demo_represents.
  - split; by vm_compute.
  - intros i Hi Hm. change (head_len (s_dev demo_io) 30 1) with 3 in *. change (dv_blocksize (s_dev demo_io)) with 8 in *.
    apply Z.mod_divide in Hm as [q ->]; [| done].
    assert (Hq : q = 0 \/ q = 1 \/ q = 2 \/ q = 3) by lia. destruct Hq as [-> | [-> | [-> | ->]]]; by vm_compute.
  - done.
Defined.

Lemma exfat_pwrite_refines_witness :
  exists n s', exfat_pwrite 63 (zrepeat 7 30) 30 1 demo_io = Ok n s' /\ inv s' /\
    ((n = 30 /\ exists e', State.exfat_pwrite (zrepeat 7 30) 1 demo_env = Ok true e' /\ represents s' e' /\
        s_medium s' ≡ mwrite (s_medium demo_io) 101 (zrepeat 7 30)) \/
     (n = -1 /\ unchanged_beyond 8 (s_medium demo_io) (s_medium s') 101 30)).
Proof.
  apply (exfat_pwrite_refines demo_io demo_env 63 (zrepeat 7 30) 30 1).
  - apply demo_represents.
  - split; by vm_compute.
  - done.
Defined.

(** After two bytes of the block at 4 were read: the block at 12 goes to an odd
    address, and the bytes at 4 are then those at 12. *)
Definition demo_cached : iostate :=
  set_s_dev (set_dv_bounce_lba 104 (set_dv_bounce (Some (mread demo_medium 104 8)) demo_dev)) demo_io.
Definition demo_stale : iostate :=
  set_s_dev (set_dv_bounce_lba 104 (set_dv_bounce (Some (mread demo_medium 112 8)) demo_dev)) demo_io.

Example demo_cached_read : exfat_pread 64 [0; 0] 2 4 demo_io = Ok (2, [104; 105]) demo_cached.
Proof. reflexivity. Qed.

Lemma bounced_read_poisons_cache_witness :
  exfat_pread 64 [0; 0] 2 4 demo_stale = Ok (2, [112; 113]) demo_stale.
Proof.
  change [112; 113] with (mread (view demo_cached) 12 2).
  apply (bounced_read_poisons_cache demo_cached demo_stale 65 64 (zrepeat 0 8) [0; 0] 12 4 2 (mread demo_medium 112 8));
    try (by vm_compute).
  eapply dev_ok_same; [apply demo_dev_ok | done | done | done].
Defined.
