(* ===== verification/PartTable.v ===== *)
(** * PartTable: partition tables (amiga/parttable.c)

    Finding the exFAT volumes of a device: a volume without a table, the MBR, the
    chain of extended boot records, and the GPT.  The device is an interface,
    [BlockDevice]: a read of some bytes, which may fail, and the allocator.  A read
    of a buffer outside of its bounds stops the process. *)

From Stdlib Require Import ZArith Lia.
From stdpp Require Import base numbers list strings.
From S2P Require Import Prelude Bytes Monad Ondisk State Geometry Utils.

#[local] Open Scope Z_scope.

(** ** The device *)

Class BlockDevice (S : Type) := {
  read_at : Z -> Z -> M S (option (list Z));
  AllocVec : M S bool;
  medium_of : S -> mem
}.

(** A read and an allocation change nothing; a read that succeeds gives the bytes of
    the medium. *)
Class BlockDeviceLaws (S : Type) `{BlockDevice S} : Prop := {
  read_at_law size off s : exists r s', read_at size off s = Ok r s' /\ medium_of s' = medium_of s /\
    (r = None \/ r = Some (mread (medium_of s) off size));
  alloc_law s : exists ok s', AllocVec s = Ok ok s' /\ medium_of s' = medium_of s
}.

(** The device of libexfat is one. *)
#[export] Instance env_device : BlockDevice env := {|
  read_at := exfat_pread;
  AllocVec := malloc_ok;
  medium_of := os_medium
|}.

#[export] Instance env_device_laws : BlockDeviceLaws env.
Proof.
  split.
  - intros size off e. cbn. unfold exfat_pread, gets. do 2 eexists. split; [done |]. split; [done |].
    destruct (os_rfail e off size); [by left | by right].
  - intros e. cbn. by do 2 eexists.
Qed.

Section PartTable.
Context {D : Type} `{BlockDevice D}.

(** ** Definitions *)

Definition MBR_TABLE : Z := 446.
Definition MBR_ENTRY_SIZE : Z := 16.
Definition MBR_ENTRIES : Z := 4.
Definition MBR_SIG : Z := 510.
Definition MBR_TYPE_GPT : Z := 0xee.
Definition MBR_TYPE_EXT_CHS : Z := 0x05.
Definition MBR_TYPE_EXT_LBA : Z := 0x0f.
Definition MBR_TYPE_EXT_LINUX : Z := 0x85.
Definition EBR_MAX_LINKS : nat := 16.
Definition GPT_SIG : Z := 0.
Definition GPT_ENT_LBA : Z := 72.
Definition GPT_ENT_COUNT : Z := 80.
Definition GPT_ENT_SIZE : Z := 84.

(** [n] bytes of a buffer from [off]. *)
Definition load (buf : list Z) (off n : Z) : M D (list Z) :=
  if (off <? 0) || (zlen buf <? off + n) then fun s => Halt OutOfBounds s else ret (sub buf off n).

Definition le32at (buf : list Z) (off : Z) : M D Z := let! b := load buf off 4 in ret (le_val b).
Definition le16at (buf : list Z) (off : Z) : M D Z := let! b := load buf off 2 in ret (le_val b).
Definition le64at (buf : list Z) (off : Z) : M D Z := let! b := load buf off 8 in ret (le_val b).
Definition byte_at (buf : list Z) (off : Z) : M D Z := let! b := load buf off 1 in ret (le_val b).

(** [memcmp(buf + off, s, strlen(s)) == 0] *)
Definition matches_at (buf : list Z) (off : Z) (s : list Z) : M D bool :=
  let! b := load buf off (zlen s) in ret (bool_decide (b = s)).

(** The offset of a block, as [exfat_off_t]. *)
Definition block_offset (lba blocksize : Z) : Z := i64 (u64 (lba * blocksize)).

Definition is_exfat_at (lba blocksize : Z) : M D bool :=
  let! r := read_at blocksize (block_offset lba blocksize) in
  match r with
  | None => ret false
  | Some buf => matches_at buf 3 (str "EXFAT   ")
  end.

(** [struct ExfatPartition] *)
Record ExfatPartition : Type := mk_partition {
  first_lba : Z;
  sectors : Z
}.

(** [out] are the partitions that were found so far. *)
Definition add (out : list ExfatPartition) (max first count : Z) : list ExfatPartition :=
  if max <=? zlen out then out else out ++ [mk_partition first count].

Definition is_extended_type (type : Z) : bool :=
  (type =? MBR_TYPE_EXT_CHS) || (type =? MBR_TYPE_EXT_LBA) || (type =? MBR_TYPE_EXT_LINUX).

(** The loop over the chain of extended boot records: [links] turns are left. *)
Fixpoint scan_extended_loop (links : nat) (blocksize ext_start here : Z) (out : list ExfatPartition) (max : Z)
  : M D (list ExfatPartition) :=
  match links with
  | O => ret out
  | S links =>
      if max <=? zlen out then ret out
      else
        let! r := read_at blocksize (block_offset here blocksize) in
        match r with
        | None => ret out
        | Some ebr =>
            let! sig := le16at ebr MBR_SIG in
            if negb (sig =? 0xaa55) then ret out
            else
              let logical := MBR_TABLE in
              let next := MBR_TABLE + MBR_ENTRY_SIZE in
              let! rel := le32at ebr (logical + 8) in
              let first := u64 (here + rel) in
              let! count := le32at ebr (logical + 12) in
              let! type := byte_at ebr (logical + 4) in
              let! found :=
                if negb (type =? 0) && negb (count =? 0) then is_exfat_at first blocksize else ret false in
              let out := if found then add out max first count else out in
              let! nextrel := le32at ebr (next + 8) in
              let! nexttype := byte_at ebr (next + 4) in
              if (nexttype =? 0) || (nextrel =? 0) then ret out
              else scan_extended_loop links blocksize ext_start (u64 (ext_start + nextrel)) out max
        end
  end.

Definition scan_extended (blocksize ext_start max : Z) : M D (list ExfatPartition) :=
  let! ok := AllocVec in
  if negb ok then ret [] else scan_extended_loop EBR_MAX_LINKS blocksize ext_start ext_start [] max.

(** Whether [n] words from [off] are all zero; the first that is not ends the test. *)
Fixpoint zero_words (n : nat) (buf : list Z) (off : Z) : M D bool :=
  match n with
  | O => ret true
  | S n => let! v := le32at buf off in if v =? 0 then zero_words n buf (off + 4) else ret false
  end.

(** The loop over the entries of the GPT from entry [i]: [n] entries are left. *)
Fixpoint scan_gpt_loop (n : nat) (blocksize ent_lba ent_size i : Z) (out : list ExfatPartition) (max : Z)
  : M D (list ExfatPartition) :=
  match n with
  | O => ret out
  | S n =>
      if max <=? zlen out then ret out
      else
        let lba := u64 (ent_lba + u32 (i * ent_size) / blocksize) in
        let off := u32 (i * ent_size) mod blocksize in
        let! r := read_at blocksize (block_offset lba blocksize) in
        match r with
        | None => ret out
        | Some hdr =>
            let! unused := zero_words 4 hdr off in
            if unused then
              scan_gpt_loop n blocksize ent_lba ent_size (i + 1) out max
            else
              let! first := le64at hdr (off + 32) in
              let! last := le64at hdr (off + 40) in
              if last <? first then scan_gpt_loop n blocksize ent_lba ent_size (i + 1) out max
              else
                let! found := is_exfat_at first blocksize in
                let out := if found then add out max first (u64 (last - first + 1)) else out in
                scan_gpt_loop n blocksize ent_lba ent_size (i + 1) out max
        end
  end.

Definition scan_gpt (blocksize max : Z) : M D (list ExfatPartition) :=
  let! ok := AllocVec in
  if negb ok then ret []
  else
    let! r := read_at blocksize blocksize in
    match r with
    | None => ret []
    | Some hdr =>
        let! sig := matches_at hdr GPT_SIG (str "EFI PART") in
        if negb sig then ret []
        else
          let! ent_lba := le64at hdr GPT_ENT_LBA in
          let! ent_count := le32at hdr GPT_ENT_COUNT in
          let! ent_size := le32at hdr GPT_ENT_SIZE in
          let ent_count :=
            if (ent_size =? 0) || (blocksize <? ent_size) || (128 <? ent_count)
            then (if 128 <? ent_count then 128 else ent_count) else ent_count in
          scan_gpt_loop (Z.to_nat ent_count) blocksize ent_lba ent_size 0 [] max
    end.

(** The loop over the entries of the MBR from entry [i]: [n] entries are left; [buf]
    is the boot record, which is read again after the buffer was used to probe. *)
Fixpoint scan_mbr_loop (n : nat) (blocksize i : Z) (buf : list Z) (out : list ExfatPartition) (max : Z)
  : M D (list ExfatPartition) :=
  match n with
  | O => ret out
  | S n =>
      if max <=? zlen out then ret out
      else
        let e := MBR_TABLE + i * MBR_ENTRY_SIZE in
        let! type := byte_at buf (e + 4) in
        let! first := le32at buf (e + 8) in
        let! count := le32at buf (e + 12) in
        if (type =? 0) || (count =? 0) then scan_mbr_loop n blocksize (i + 1) buf out max
        else
          let! out :=
            if type =? MBR_TYPE_GPT then
              let! more := scan_gpt blocksize (max - zlen out) in ret (out ++ more)
            else if is_extended_type type then
              let! more := scan_extended blocksize first (max - zlen out) in ret (out ++ more)
            else
              let! found := is_exfat_at first blocksize in
              ret (if found then add out max first count else out) in
          if i + 1 <? MBR_ENTRIES then
            let! r := read_at blocksize 0 in
            match r with
            | None => ret out
            | Some buf => scan_mbr_loop n blocksize (i + 1) buf out max
            end
          else scan_mbr_loop n blocksize (i + 1) buf out max
  end.

(** The partitions that are stored in [out]; their number is the result of the code. *)
Definition exfat_amiga_scan_partitions (blocksize total_sectors max : Z) : M D (list ExfatPartition) :=
  let! ok := AllocVec in
  if negb ok then ret []
  else
    let! r := read_at blocksize 0 in
    match r with
    | None => ret []
    | Some buf =>
        let! superfloppy := matches_at buf 3 (str "EXFAT   ") in
        if superfloppy then ret (add [] max 0 total_sectors)
        else
          let! sig := le16at buf MBR_SIG in
          if negb (sig =? 0xaa55) then ret []
          else scan_mbr_loop (Z.to_nat MBR_ENTRIES) blocksize 0 buf [] max
    end.
End PartTable.

(** ** What is found *)

(** The bytes of a block. *)
Definition block (m : mem) (blocksize lba : Z) : list Z := mread m (block_offset lba blocksize) blocksize.

(** There is the boot record of an exFAT volume. *)
Definition exfat_at (m : mem) (blocksize lba : Z) : bool :=
  bool_decide (sub (block m blocksize lba) 3 8 = str "EXFAT   ").

(** At most [max] partitions, and each of them starts with an exFAT boot record. *)
Definition sound (m : mem) (blocksize max : Z) (out : list ExfatPartition) : Prop :=
  zlen out <= max /\ Forall (fun p => exfat_at m blocksize (first_lba p) = true) out.

(** The entries of the GPT, if there is one, do not cross the ends of blocks. *)
Definition gpt_aligned (m : mem) (blocksize : Z) : Prop :=
  let hdr := mread m blocksize blocksize in
  let size := le_val (sub hdr GPT_ENT_SIZE 4) in
  sub hdr GPT_SIG 8 = str "EFI PART" -> 48 <= size /\ (size | blocksize).

Section Scan.
Context {D : Type} `{BlockDeviceLaws D} (m : mem) (blocksize : Z) (Hbs : 512 <= blocksize <= 2 ^ 24).

Lemma zlen_block lba : zlen (block m blocksize lba) = blocksize.
Proof. apply zlen_mread. lia. Qed.

(** [f] ends, keeps the medium, and its result satisfies [Q]; it is stopped at a read
    past a buffer only if the entries of the GPT cross the ends of blocks. *)
Definition probes {A} (f : M D A) (Q : A -> Prop) : Prop :=
  forall s, medium_of s = m ->
    match f s with
    | Ok a s' => medium_of s' = m /\ Q a
    | Halt OutOfBounds _ => ~ gpt_aligned m blocksize
    | _ => False
    end.

Lemma probes_ret {A} (a : A) (Q : A -> Prop) : Q a -> probes (ret a) Q.
Proof. intros HQ s Hs. done. Qed.

Lemma probes_bind {A B} (f : M D A) (g : A -> M D B) (Q : A -> Prop) R :
  probes f Q -> (forall a, Q a -> probes (g a) R) -> probes (bind f g) R.
Proof.
  intros Hf Hg s Hs. specialize (Hf s Hs). unfold bind. destruct (f s) as [a s' | |]; [| done ..].
  destruct Hf as [Hs' Ha]. by apply Hg.
Qed.

Lemma probes_if {A} (b : bool) (f g : M D A) Q : (b = true -> probes f Q) -> (b = false -> probes g Q) ->
  probes (if b then f else g) Q.
Proof. destruct b; auto. Qed.

Lemma probes_mono {A} (f : M D A) (Q R : A -> Prop) : probes f Q -> (forall a, Q a -> R a) -> probes f R.
Proof. intros Hf HQ s Hs. specialize (Hf s Hs). destruct (f s) as [a s' | |]; [| done ..]. destruct Hf. auto. Qed.

Lemma probes_read size off : probes (read_at size off) (fun r => r = None \/ r = Some (mread m off size)).
Proof. intros s Hs. destruct (read_at_law size off s) as (r & s' & E & Hm & Hr). rewrite E, Hm, <- Hs. done. Qed.

Lemma probes_alloc : probes AllocVec (fun _ => True).
Proof. intros s Hs. destruct (alloc_law s) as (ok & s' & E & Hm). by rewrite E, Hm. Qed.

Lemma load_ok buf off n (s : D) : 0 <= off -> off + n <= zlen buf -> load buf off n s = Ok (sub buf off n) s.
Proof. intros Ho Hn. unfold load. by rewrite (proj2 (Z.ltb_ge _ _) Ho), (proj2 (Z.ltb_ge _ _) Hn). Qed.

(** Reading from a buffer; what lies inside of it if the GPT is aligned may lie outside
    of it if it is not. *)
Lemma probes_load buf off n : 0 <= off -> (gpt_aligned m blocksize -> off + n <= zlen buf) ->
  probes (load buf off n) (fun b => b = sub buf off n).
Proof.
  intros Ho Hn s Hs. unfold load. rewrite (proj2 (Z.ltb_ge _ _) Ho). cbn [orb].
  destruct (Z.ltb_spec (zlen buf) (off + n)); [| done]. intros Ha. specialize (Hn Ha). lia.
Qed.

(** A number. *)
Lemma probes_le_gpt {A} buf off n (g : Z -> M D A) R : 0 <= off -> (gpt_aligned m blocksize -> off + n <= zlen buf) ->
  probes (g (le_val (sub buf off n))) R -> probes (bind (let! b := load buf off n in ret (le_val b)) g) R.
Proof.
  intros Ho Hn Hg. eapply (probes_bind _ _ (fun v => v = le_val (sub buf off n))).
  - eapply probes_bind; [by apply probes_load |]. intros b ->. by apply probes_ret.
  - by intros v ->.
Qed.

Lemma probes_le {A} buf off n (g : Z -> M D A) R : 0 <= off -> off + n <= zlen buf ->
  probes (g (le_val (sub buf off n))) R -> probes (bind (let! b := load buf off n in ret (le_val b)) g) R.
Proof. intros Ho Hn. by apply probes_le_gpt. Qed.

Lemma probes_matches {A} buf off t (g : bool -> M D A) R : 0 <= off -> off + zlen t <= zlen buf ->
  probes (g (bool_decide (sub buf off (zlen t) = t))) R -> probes (bind (matches_at buf off t) g) R.
Proof.
  intros Ho Hn Hg. eapply (probes_bind _ _ (fun b => b = bool_decide (sub buf off (zlen t) = t))).
  - eapply probes_bind; [by apply probes_load |]. intros b ->. by apply probes_ret.
  - by intros b ->.
Qed.

Lemma probes_exfat lba : probes (is_exfat_at lba blocksize) (fun b => b = true -> exfat_at m blocksize lba = true).
Proof.
  eapply probes_bind; [apply probes_read |]. intros r [-> | ->]; [by apply probes_ret |].
  fold (block m blocksize lba). eapply probes_bind.
  - apply probes_load; [done |]. intros _. rewrite zlen_block. change (zlen (str "EXFAT   ")) with 8. lia.
  - intros b ->. apply probes_ret. intros E. exact E.
Qed.

Lemma sound_nil max : 0 <= max -> sound m blocksize max [].
Proof. intros Hm. split; [done | constructor]. Qed.

Lemma sound_add max out first count : sound m blocksize max out -> exfat_at m blocksize first = true ->
  sound m blocksize max (add out max first count).
Proof.
  intros [Hl Hf] He. unfold add. destruct (Z.leb_spec max (zlen out)); [done |]. split.
  - rewrite zlen_app, zlen_cons, zlen_nil. lia.
  - apply Forall_app. split; [done |]. by constructor.
Qed.

Lemma sound_app max out more : sound m blocksize max out -> sound m blocksize (max - zlen out) more ->
  sound m blocksize max (out ++ more).
Proof. intros [H1 H2] [H3 H4]. split; [rewrite zlen_app; lia | by apply Forall_app]. Qed.

(** The number of the places left. *)
Lemma sound_room max out : sound m blocksize max out -> 0 <= max - zlen out.
Proof. intros [Hl _]. lia. Qed.

(** Probe for a volume and note it. *)
Lemma probes_maybe (b : bool) lba :
  probes (if b then is_exfat_at lba blocksize else ret false) (fun f => f = true -> exfat_at m blocksize lba = true).
Proof. destruct b; [apply probes_exfat | by apply probes_ret]. Qed.

Lemma sound_found max out (found : bool) first count : sound m blocksize max out ->
  (found = true -> exfat_at m blocksize first = true) ->
  sound m blocksize max (if found then add out max first count else out).
Proof. intros Ho Hf. destruct found; [by apply sound_add; [| apply Hf] | done]. Qed.

Lemma extended_loop_sound links : forall ext_start here out max, sound m blocksize max out ->
  probes (scan_extended_loop links blocksize ext_start here out max) (sound m blocksize max).
Proof.
  induction links as [| links IH]; intros ext_start here out max Ho; cbn [scan_extended_loop]; [by apply probes_ret |].
  apply probes_if; intros _; [by apply probes_ret |].
  eapply probes_bind; [apply probes_read |]. intros r [-> | ->]; [by apply probes_ret |].
  fold (block m blocksize here). unfold MBR_SIG, MBR_TABLE, MBR_ENTRY_SIZE, le16at, le32at, byte_at.
  apply probes_le; [lia | rewrite zlen_block; lia |]. apply probes_if; intros _; [by apply probes_ret |]. cbv zeta.
  do 3 (apply probes_le; [lia | rewrite zlen_block; lia |]).
  eapply probes_bind; [apply probes_maybe |]. intros found Hfound.
  pose proof (sound_found _ _ found _ (le_val (sub (block m blocksize here) (446 + 12) 4)) Ho Hfound) as Ho'.
  do 2 (apply probes_le; [lia | rewrite zlen_block; lia |]).
  apply probes_if; intros _; [by apply probes_ret | by apply IH].
Qed.

Lemma probes_zero n : forall buf off, 0 <= off -> (gpt_aligned m blocksize -> off + 4 * Z.of_nat n <= zlen buf) ->
  probes (zero_words n buf off) (fun _ => True).
Proof.
  induction n as [| n IH]; intros buf off Ho Hn; cbn [zero_words]; [by apply probes_ret |].
  apply probes_le_gpt; [lia | intros Ha; specialize (Hn Ha); lia |].
  apply probes_if; intros _; [apply IH; [lia | intros Ha; specialize (Hn Ha); lia] | by apply probes_ret].
Qed.

(** An entry of a size that divides the block lies in its block. *)
Lemma entry_inside size i : 48 <= size -> (size | blocksize) -> 0 <= i < 128 ->
  u32 (i * size) mod blocksize + 48 <= blocksize.
Proof.
  intros Hsize Hdiv Hi. assert (Hle : size <= blocksize) by (apply Z.divide_pos_le; [lia | done]).
  rewrite u32_small by (unfold in_u; nia). destruct Hdiv as [k Hk].
  rewrite Hk, Z.mul_mod_distr_r by nia. pose proof (Z.mod_pos_bound i k ltac:(nia)). nia.
Qed.

Lemma gpt_loop_sound n size : (gpt_aligned m blocksize -> 48 <= size /\ (size | blocksize)) ->
  forall ent_lba i out max, sound m blocksize max out -> 0 <= i -> i + Z.of_nat n <= 128 ->
  probes (scan_gpt_loop n blocksize ent_lba size i out max) (sound m blocksize max).
Proof.
  intros Hal. induction n as [| n IH]; intros ent_lba i out max Ho Hi Hn; cbn [scan_gpt_loop]; [by apply probes_ret |].
  apply probes_if; intros _; [by apply probes_ret |]. cbv zeta. set (off := u32 (i * size) mod blocksize).
  assert (Ho0 : 0 <= off) by (apply Z.mod_pos_bound; lia).
  assert (Hoff : forall e, e <= 48 -> gpt_aligned m blocksize -> off + e <= blocksize).
  { intros e He Ha. destruct (Hal Ha) as [H1 H2]. pose proof (entry_inside size i H1 H2 ltac:(lia)). unfold off. lia. }
  eapply probes_bind; [apply probes_read |]. intros r [-> | ->]; [by apply probes_ret |].
  fold (block m blocksize (u64 (ent_lba + u32 (i * size) / blocksize))). unfold le32at, le64at.
  eapply probes_bind; [apply (probes_zero 4); [lia | rewrite zlen_block; apply (Hoff 16); lia] |]. intros unused _.
  apply probes_if; intros _; [apply IH; (done || lia) |].
  do 2 (apply probes_le_gpt; [lia | rewrite zlen_block, <- Z.add_assoc; apply Hoff; lia |]).
  apply probes_if; intros _; [apply IH; (done || lia) |].
  eapply probes_bind; [apply probes_exfat |]. intros found Hfound. apply IH; [by apply sound_found | lia | lia].
Qed.

Lemma gpt_sound max : 0 <= max -> probes (scan_gpt blocksize max) (sound m blocksize max).
Proof.
  intros Hm. unfold scan_gpt. eapply probes_bind; [apply probes_alloc |]. intros ok _.
  apply probes_if; intros _; [by apply probes_ret, sound_nil |].
  eapply probes_bind; [apply probes_read |]. intros r [-> | ->]; [by apply probes_ret, sound_nil |].
  assert (Hz : zlen (mread m blocksize blocksize) = blocksize) by (apply zlen_mread; lia).
  apply probes_matches; [done | rewrite Hz; change (zlen (str "EFI PART")) with 8; unfold GPT_SIG; lia |].
  change (zlen (str "EFI PART")) with 8.
  apply probes_if; intros Hsig; [by apply probes_ret, sound_nil |]. apply negb_false_iff, bool_decide_eq_true in Hsig.
  unfold le64at, le32at.
  do 3 (apply probes_le; [unfold GPT_ENT_LBA, GPT_ENT_COUNT, GPT_ENT_SIZE; lia | rewrite Hz; unfold GPT_ENT_LBA, GPT_ENT_COUNT, GPT_ENT_SIZE; lia |]).
  cbv zeta. set (count := le_val (sub _ GPT_ENT_COUNT 4)).
  assert (Hc : 0 <= count) by apply le_val_range.
  apply gpt_loop_sound; [intros Ha; by apply Ha | by apply sound_nil | done |].
  repeat case_match; lia.
Qed.

Lemma mbr_loop_sound n : forall i buf out max, zlen buf = blocksize ->
  0 <= i -> i + Z.of_nat n <= 4 -> sound m blocksize max out ->
  probes (scan_mbr_loop n blocksize i buf out max) (sound m blocksize max).
Proof.
  induction n as [| n IH]; intros i buf out max Hz Hi Hn Ho; cbn [scan_mbr_loop]; [by apply probes_ret |].
  apply probes_if; intros _; [by apply probes_ret |]. unfold MBR_TABLE, MBR_ENTRY_SIZE, byte_at, le32at. cbv zeta.
  do 3 (apply probes_le; [lia | lia |]).
  apply probes_if; intros _; [apply IH; (done || lia) |]. pose proof (sound_room _ _ Ho) as Hroom.
  eapply (probes_bind _ _ (sound m blocksize max)).
  - apply probes_if; intros _; [| apply probes_if; intros _].
    + eapply probes_bind; [by apply gpt_sound |]. intros more Hmore. by apply probes_ret, sound_app.
    + eapply probes_bind; [apply (probes_bind _ _ (fun _ => True)); [apply probes_alloc |] |].
      { intros ok _. apply probes_if; intros _; [by apply probes_ret, sound_nil |]. by apply extended_loop_sound, sound_nil. }
      intros more Hmore. by apply probes_ret, sound_app.
    + eapply probes_bind; [apply probes_exfat |]. intros found Hfound. by apply probes_ret, sound_found.
  - intros out' Ho'. apply probes_if; intros _; [| apply IH; (done || lia)].
    eapply probes_bind; [apply probes_read |]. intros r [-> | ->]; [by apply probes_ret |].
    apply IH; [apply zlen_mread; lia | lia | lia | done].
Qed.
End Scan.

(** C27: Every partition that is found is one.  On every device that returns the bytes
    of its medium, and may fail to read any of them, [exfat_amiga_scan_partitions]
    ends: chains of extended boot records that lead back into themselves are no
    danger; it stores at most [max] partitions; and the first block of each of them is
    an exFAT boot record.  It reads its buffers within their bounds, unless the medium
    has a GPT whose entries cross the ends of blocks. *)
Theorem scan_partitions_sound {D} `{BlockDeviceLaws D} (s : D) blocksize total_sectors max
  (Hbs : 512 <= blocksize <= 2 ^ 24) (Hmax : 0 <= max) :
  match exfat_amiga_scan_partitions blocksize total_sectors max s with
  | Ok out s' => medium_of s' = medium_of s /\ sound (medium_of s) blocksize max out
  | Halt OutOfBounds _ => ~ gpt_aligned (medium_of s) blocksize
  | _ => False
  end.
Proof.
  apply (fun P : probes (medium_of s) blocksize _ _ => P s eq_refl). unfold exfat_amiga_scan_partitions.
  eapply probes_bind; [apply probes_alloc |]. intros ok _. apply probes_if; intros _; [by apply probes_ret, sound_nil |].
  eapply probes_bind; [apply probes_read |]. intros r [-> | ->]; [by apply probes_ret, sound_nil |].
  assert (Hz : zlen (mread (medium_of s) 0 blocksize) = blocksize) by (apply zlen_mread; lia).
  apply probes_matches; [done | rewrite Hz; change (zlen (str "EXFAT   ")) with 8; lia |].
  apply probes_if.
  - intros Hex. apply probes_ret, sound_add; [by apply sound_nil |]. exact Hex.
  - intros _. apply probes_le; [done | rewrite Hz; unfold MBR_SIG; lia |].
    apply probes_if; intros _; [by apply probes_ret, sound_nil |].
    apply mbr_loop_sound; (done || lia || by apply sound_nil).
Qed.

(** ** Logical partitions *)

(** A field of the boot record of a block. *)
Definition field (m : mem) (blocksize lba off n : Z) : Z := le_val (sub (block m blocksize lba) off n).

(** The chain of extended boot records from the block [here]: each describes one
    partition, relative to itself, and the next record, relative to the extended
    partition at [ext]. *)
Inductive ebr_chain (m : mem) (blocksize ext : Z) : Z -> list ExfatPartition -> Prop :=
| ebr_last here :
    field m blocksize here 510 2 = 0xaa55 -> field m blocksize here 450 1 <> 0 -> field m blocksize here 458 4 <> 0 ->
    field m blocksize here 466 1 = 0 \/ field m blocksize here 470 4 = 0 ->
    ebr_chain m blocksize ext here [mk_partition (here + field m blocksize here 454 4) (field m blocksize here 458 4)]
| ebr_link here l :
    field m blocksize here 510 2 = 0xaa55 -> field m blocksize here 450 1 <> 0 -> field m blocksize here 458 4 <> 0 ->
    field m blocksize here 466 1 <> 0 -> field m blocksize here 470 4 <> 0 ->
    ebr_chain m blocksize ext (ext + field m blocksize here 470 4) l ->
    ebr_chain m blocksize ext here
      (mk_partition (here + field m blocksize here 454 4) (field m blocksize here 458 4) :: l).

Definition is_exfat (m : mem) (blocksize : Z) (p : ExfatPartition) : bool := exfat_at m blocksize (first_lba p).

Section Extended.
Context {D : Type} `{BlockDevice D} (m : mem) (blocksize : Z) (Hbs : 512 <= blocksize).
Context (works : D -> Prop).
Context (Hread : forall size off s, works s -> exists s', read_at size off s = Ok (Some (mread m off size)) s' /\ works s').

Lemma field_ok lba off n (s : D) : 0 <= off -> off + n <= 512 ->
  (let! b := load (block m blocksize lba) off n in ret (le_val b)) s = Ok (field m blocksize lba off n) s.
Proof.
  intros Ho Hn. by rewrite (bind_ok _ _ _ _ _ (load_ok (block m blocksize lba) off n s Ho ltac:(unfold block; rewrite zlen_mread; lia))).
Qed.

Lemma is_exfat_ok lba (s : D) : works s ->
  exists s', is_exfat_at lba blocksize s = Ok (exfat_at m blocksize lba) s' /\ works s'.
Proof.
  intros Hs. destruct (Hread blocksize (block_offset lba blocksize) s Hs) as (s' & E & Hs'). exists s'. split; [| done].
  unfold is_exfat_at. rewrite (bind_ok _ _ _ _ _ E). unfold matches_at.
  rewrite (bind_ok _ _ _ _ _ (load_ok (block m blocksize lba) 3 8 s' ltac:(done) ltac:(unfold block; rewrite zlen_mread by lia; lia))). done.
Qed.

Lemma field_range lba off : 0 <= off -> off + 4 <= 512 -> in_u 32 (field m blocksize lba off 4).
Proof.
  intros Ho Hn. apply (le_val_sub_range _ off 4); [done | done |]. unfold block. rewrite zlen_mread; lia.
Qed.

Lemma extended_loop_chain ext here l : in_u 32 ext -> ebr_chain m blocksize ext here l ->
  forall links out max s, works s -> 0 <= here < 2 ^ 33 -> (length l <= links)%nat ->
  zlen out + zlen l <= max ->
  exists s', scan_extended_loop links blocksize ext here out max s =
    Ok (out ++ List.filter (is_exfat m blocksize) l) s' /\ works s'.
Proof.
  intros Hext Hc.
  assert (Hstep : forall here, 0 <= here < 2 ^ 33 ->
    field m blocksize here 510 2 = 0xaa55 -> field m blocksize here 450 1 <> 0 -> field m blocksize here 458 4 <> 0 ->
    forall links out max s, works s -> zlen out < max ->
    let p := mk_partition (here + field m blocksize here 454 4) (field m blocksize here 458 4) in
    exists s', works s' /\ scan_extended_loop (S links) blocksize ext here out max s =
      (let out := out ++ List.filter (is_exfat m blocksize) [p] in
       if (field m blocksize here 466 1 =? 0) || (field m blocksize here 470 4 =? 0) then ret out
       else scan_extended_loop links blocksize ext (u64 (ext + field m blocksize here 470 4)) out max) s').
  { clear Hc. intros b Hb Hsig Htype Hcount links out max s Hs Hmax p. cbn [scan_extended_loop].
    rewrite (proj2 (Z.leb_gt _ _) Hmax).
    destruct (Hread blocksize (block_offset b blocksize) s Hs) as (s1 & E1 & Hs1). rewrite (bind_ok _ _ _ _ _ E1).
    fold (block m blocksize b). unfold le16at, le32at, byte_at, MBR_SIG, MBR_TABLE, MBR_ENTRY_SIZE. cbv zeta.
    change (446 + 16 + 8) with 470. change (446 + 16 + 4) with 466. change (446 + 8) with 454.
    change (446 + 12) with 458. change (446 + 4) with 450.
    rewrite (bind_ok _ _ _ _ _ (field_ok b 510 2 s1 ltac:(lia) ltac:(lia))), Hsig. cbn [Z.eqb Pos.eqb negb].
    rewrite (bind_ok _ _ _ _ _ (field_ok b 454 4 s1 ltac:(lia) ltac:(lia))).
    rewrite (bind_ok _ _ _ _ _ (field_ok b 458 4 s1 ltac:(lia) ltac:(lia))).
    rewrite (bind_ok _ _ _ _ _ (field_ok b 450 1 s1 ltac:(lia) ltac:(lia))).
    rewrite (proj2 (Z.eqb_neq _ _) Htype), (proj2 (Z.eqb_neq _ _) Hcount). cbn [negb andb].
    pose proof (field_range b 454 ltac:(lia) ltac:(lia)) as Hf.
    rewrite (u64_small (b + _)) by (unfold in_u in *; lia).
    destruct (is_exfat_ok (b + field m blocksize b 454 4) s1 Hs1) as (s2 & E2 & Hs2). rewrite (bind_ok _ _ _ _ _ E2).
    rewrite (bind_ok _ _ _ _ _ (field_ok b 470 4 s2 ltac:(lia) ltac:(lia))).
    rewrite (bind_ok _ _ _ _ _ (field_ok b 466 1 s2 ltac:(lia) ltac:(lia))).
    exists s2. split; [done |]. unfold add. rewrite (proj2 (Z.leb_gt _ _) Hmax).
    cbn [List.filter]. unfold is_exfat. subst p. cbn [first_lba].
    destruct (exfat_at _ _ _); rewrite ?app_nil_r; done. }
  induction Hc as [here H1 H2 H3 H4 | here l H1 H2 H3 H4 H5 Hc IH]; intros [| links] out max s Hs Hb Hl Hmax; cbn [length] in Hl; try lia;
    rewrite zlen_cons in Hmax; pose proof (zlen_nonneg out).
  - rewrite (zlen_nil (A := ExfatPartition)) in Hmax.
    destruct (Hstep here Hb H1 H2 H3 links out max s Hs ltac:(lia)) as (s' & Hs' & ->). exists s'. split; [| done]. cbv zeta.
    replace (_ || _) with true; [done |]. symmetry. apply orb_true_iff. rewrite !Z.eqb_eq. exact H4.
  - pose proof (zlen_nonneg l). destruct (Hstep here Hb H1 H2 H3 links out max s Hs ltac:(lia)) as (s1 & Hs1 & ->). cbv zeta.
    rewrite (proj2 (Z.eqb_neq _ _) H4), (proj2 (Z.eqb_neq _ _) H5). cbn [orb].
    pose proof (field_range here 470 ltac:(lia) ltac:(lia)) as Hf. unfold in_u in *. rewrite u64_small by (unfold in_u; lia).
    destruct (IH links (out ++ List.filter (is_exfat m blocksize) [mk_partition (here + field m blocksize here 454 4) (field m blocksize here 458 4)])
      max s1 Hs1 ltac:(lia) ltac:(lia)) as (s2 & -> & Hs2).
    + rewrite zlen_app. cbn [List.filter]. destruct (is_exfat _ _ _); rewrite ?zlen_cons, (zlen_nil (A := ExfatPartition)); lia.
    + exists s2. split; [| done]. f_equal. rewrite <- app_assoc. f_equal. cbn [List.filter].
      by destruct (is_exfat _ _ _).
Qed.
End Extended.

(** C28: Logical partitions.  On a device that reads without failures, an extended
    partition at block [ext] whose chain of at most 16 extended boot records describes
    the partitions [l]: [scan_extended] finds those of [l] that hold exFAT volumes, all
    of them, in their order; the start of a partition counts from its own boot record
    and the link to the next record from the start of the extended partition. *)
Theorem scan_extended_chain {D} `{BlockDevice D} (s : D) m blocksize ext l max
  (works : D -> Prop) (Hbs : 512 <= blocksize) (Hext : in_u 32 ext)
  (Hread : forall size off s, works s -> exists s', read_at size off s = Ok (Some (mread m off size)) s' /\ works s')
  (Halloc : exists s', AllocVec s = Ok true s' /\ works s')
  (Hl : ebr_chain m blocksize ext ext l) (Hlen : (length l <= EBR_MAX_LINKS)%nat) (Hmax : zlen l <= max) :
  exists s', scan_extended blocksize ext max s = Ok (List.filter (is_exfat m blocksize) l) s' /\ works s'.
Proof.
  destruct Halloc as (s1 & E1 & Hs1). unfold scan_extended. rewrite (bind_ok _ _ _ _ _ E1). cbn [negb].
  apply (extended_loop_chain m blocksize Hbs works Hread ext ext l Hext Hl EBR_MAX_LINKS [] max s1 Hs1); [unfold in_u in Hext; lia | done |].
  rewrite (zlen_nil (A := ExfatPartition)). lia.
Qed.

(** ** A medium with tables *)

(** Block 0: an extended partition at block 10; block 1: a GPT whose entries have
    [size] bytes; blocks 10 and 30: boot records; block 11: an exFAT volume. *)
Definition demo_table_medium (size : Z) : mem :=
  foldr (fun w m => mwrite m w.1 w.2) (fun _ => 0) [
    (450, [0x0f]); (454, le_bytes 4 10); (458, le_bytes 4 100); (510, [0x55; 0xaa]);
    (512, str "EFI PART"); (512 + 72, le_bytes 8 2); (512 + 80, le_bytes 4 4); (512 + 84, le_bytes 4 size);
    (10 * 512 + 450, [7]); (10 * 512 + 454, le_bytes 4 1); (10 * 512 + 458, le_bytes 4 5);
    (10 * 512 + 466, [5]); (10 * 512 + 470, le_bytes 4 20); (10 * 512 + 510, [0x55; 0xaa]);
    (11 * 512 + 3, str "EXFAT   ");
    (30 * 512 + 450, [7]); (30 * 512 + 454, le_bytes 4 2); (30 * 512 + 458, le_bytes 4 6); (30 * 512 + 510, [0x55; 0xaa]);
    (2 * 512, [1]); (2 * 512 + 400, [1])].

Definition demo_table_env (size : Z) : env := set_os_medium (demo_table_medium size) (v_os demo_vol).

Example demo_scan : match exfat_amiga_scan_partitions 512 1000 8 (demo_table_env 128) with
  | Ok out _ => out = [mk_partition 11 5] | _ => False end.
Proof. by vm_compute. Qed.

Lemma scan_partitions_sound_witness :
  match exfat_amiga_scan_partitions 512 1000 8 (demo_table_env 128) with
  | Ok out s' => medium_of s' = medium_of (demo_table_env 128) /\ sound (medium_of (demo_table_env 128)) 512 8 out
  | Halt OutOfBounds _ => ~ gpt_aligned (medium_of (demo_table_env 128)) 512
  | _ => False
  end.
Proof. apply scan_partitions_sound; lia. Defined.

(** A device of that medium which does not fail. *)
Definition demo_works (e : env) : Prop := os_medium e = demo_table_medium 128 /\ forall off size, os_rfail e off size = false.

Lemma scan_extended_chain_witness :
  exists s', scan_extended 512 10 8 (demo_table_env 128) =
    Ok (List.filter (is_exfat (demo_table_medium 128) 512) [mk_partition 11 5; mk_partition 32 6]) s' /\
    demo_works s'.
Proof.
  apply (scan_extended_chain (demo_table_env 128) (demo_table_medium 128) 512 10 [mk_partition 11 5; mk_partition 32 6] 8 demo_works).
  - done.
  - done.
  - intros size off e [Em Ef]. exists e. split; [| done]. cbn. unfold exfat_pread, gets. by rewrite Ef, Em.
  - eexists. split; [done |]. done.
  - apply (ebr_link (demo_table_medium 128) 512 10 10 [mk_partition 32 6]); [by vm_compute .. |].
    apply (ebr_last (demo_table_medium 128) 512 10 30); [by vm_compute .. |]. left. by vm_compute.
  - cbn. unfold EBR_MAX_LINKS. lia.
  - done.
Defined.

(** An entry of the GPT that crosses the end of a block is read past the end of the
    buffer: the check of the size of the entries lets 500 bytes pass. *)
Theorem gpt_entry_crosses_block :
  match scan_gpt 512 8 (demo_table_env 500) with Halt OutOfBounds _ => True | _ => False end.
Proof. by vm_compute. Qed.
