(* ===== verification/MbrScan.v ===== *)
(** * MbrScan: listing the partitions of a device (amiga/mbrscan.c)

    The program looks for exFAT volumes on a device that it opens itself.  The lines
    that it prints are its result.  The driver and the system are those of DevIo.v; what
    [ReadArgs] finds is an argument.  A string of it must not be read after [FreeArgs]. *)

From Stdlib Require Import ZArith Lia.
From stdpp Require Import base numbers list strings.
From S2P Require Import Prelude Bytes Monad Ondisk State Geometry Utils DevIo DevIoOpen PartTable.

#[local] Open Scope Z_scope.

(** What a candidate turns out to be. *)
Inductive verdict : Type :=
| ReadFailed
| IsExfat (low_cyl high_cyl : Z)
| IsNtfs
| BootSector
| NoSignature.

(** The lines of the report. *)
Inductive line : Type :=
| MbrEntry (i type start count : Z) (v : verdict)
| ProtectiveEntry (i : Z)
| NoGptHeader
| GptHeader (nents entsize entlba : Z)
| GptEntry (i first count : Z) (v : verdict)
| CannotRead
| Superfloppy
| NoTable
| AllEmpty.

Section MbrScan.
Context {D : Type} `{ExecDevice D}.
#[local] Abbreviation exec := (exec (D := D)).

(** ** Definitions *)

Definition SECSIZE : Z := 512.

Definition le32 (buf : list Z) (off : Z) : M exec Z := le32at buf off.
Definition le16 (buf : list Z) (off : Z) : M exec Z := le16at buf off.
Definition le64 (buf : list Z) (off : Z) : M exec Z := le64at buf off.

(** The bytes of the block, or [None] when the read fails. *)
Definition readblock (readcmd lba : Z) : M exec (option (list Z)) :=
  let off := u64 (lba * SECSIZE) in
  let! rp := do_io {| io_Command := readcmd; io_Length := SECSIZE; io_Offset := u32 off; io_Actual := Z.shiftr off 32 |}
               (zrepeat 0 SECSIZE) in
  if negb (rp_error rp =? 0) then ret None
  else if negb (rp_actual rp =? SECSIZE) then ret None
  else ret (Some (rp_data rp)).

(** [None] when there is no memory: then nothing is printed. *)
Definition check_candidate (readcmd start count : Z) : M exec (option verdict) :=
  let! ok := DevIo.AllocVec in
  if negb ok then ret None
  else
    let! r := readblock readcmd start in
    let! v :=
      match r with
      | None => ret ReadFailed
      | Some vbr =>
          let! exfat := matches_at vbr 3 (str "EXFAT   ") in
          if exfat then ret (IsExfat start (if 0 <? count then u64 (start + count - 1) else start))
          else
            let! ntfs := matches_at vbr 3 (str "NTFS    ") in
            if ntfs then ret IsNtfs
            else
              let! sig := le16 vbr 510 in
              ret (if sig =? 0xaa55 then BootSector else NoSignature)
      end in
    FreeVec;;
    ret (Some v).

(** The line of a candidate, if one is printed. *)
Definition candidate_line (f : verdict -> line) (v : option verdict) : list line :=
  match v with None => [] | Some v => [f v] end.

(** The loop over the entries of the GPT from entry [i]. *)
Fixpoint gpt_entries (n : nat) (readcmd entlba entsize i : Z) (out : list line) : M exec (list line) :=
  match n with
  | O => ret out
  | S n =>
      let lba := u64 (entlba + u32 (i * entsize) / SECSIZE) in
      let off := u32 (i * entsize) mod SECSIZE in
      let! r := readblock readcmd lba in
      match r with
      | None => ret out
      | Some ent =>
          let! unused := zero_words 4 ent off in
          if unused then gpt_entries n readcmd entlba entsize (i + 1) out
          else
            let! first := le64 ent (off + 32) in
            let! last := le64 ent (off + 40) in
            let count := if first <=? last then u64 (last - first + 1) else 0 in
            let! v := check_candidate readcmd first count in
            gpt_entries n readcmd entlba entsize (i + 1) (out ++ candidate_line (GptEntry i first count) v)
      end
  end.

(** Both buffers are freed on every way out. *)
Definition mbr_scan_gpt (readcmd : Z) : M exec (list line) :=
  let! hdr := DevIo.AllocVec in
  let! ent := DevIo.AllocVec in
  let! out :=
    if negb hdr || negb ent then ret []
    else
      let! r := readblock readcmd 1 in
      match r with
      | None => ret [NoGptHeader]
      | Some bytes =>
          let! sig := matches_at bytes 0 (str "EFI PART") in
          if negb sig then ret [NoGptHeader]
          else
            let! entlba := le64 bytes 72 in
            let! nents := le32 bytes 80 in
            let! entsize := le32 bytes 84 in
            let out := [GptHeader nents entsize entlba] in
            if (entsize =? 0) || (SECSIZE <? entsize) then ret out
            else gpt_entries (Z.to_nat (Z.min nents 128)) readcmd entlba entsize 0 out
      end in
  when hdr FreeVec;;
  when ent FreeVec;;
  ret out.

(** The loop over the entries of the MBR from entry [i]; [found] counts those in use. *)
Fixpoint mbr_entries (n : nat) (readcmd i : Z) (buf : list Z) (found : Z) (out : list line) : M exec (Z * list line) :=
  match n with
  | O => ret (found, out)
  | S n =>
      let e := 446 + i * 16 in
      let! type := byte_at buf (e + 4) in
      let! start := le32 buf (e + 8) in
      let! count := le32 buf (e + 12) in
      if (type =? 0) || (count =? 0) then mbr_entries n readcmd (i + 1) buf found out
      else
        let found := found + 1 in
        if type =? 0xee then
          let! more := mbr_scan_gpt readcmd in
          mbr_entries n readcmd (i + 1) buf found (out ++ ProtectiveEntry i :: more)
        else
          let! v := check_candidate readcmd start count in
          mbr_entries n readcmd (i + 1) buf found (out ++ candidate_line (MbrEntry i type start count) v)
  end.

(** The part of [main] after the allocation of [buf]. *)
Definition scan_table (readcmd : Z) : M exec (list line) :=
  let! r := readblock readcmd 0 in
  match r with
  | None => ret [CannotRead]
  | Some buf =>
      let! exfat := matches_at buf 3 (str "EXFAT   ") in
      if exfat then ret [Superfloppy]
      else
        let! sig := le16 buf 510 in
        if negb (sig =? 0xaa55) then ret [NoTable]
        else
          let! (found, out) := mbr_entries 4 readcmd 0 buf 0 [] in
          ret (if found =? 0 then out ++ [AllEmpty] else out)
  end.

(** The read command: the 64-bit one of the new style devices when the driver lists
    it, else the one of trackdisk64. *)
Definition choose_read : M exec Z :=
  let! (rp, nsd) :=
    do_query {| io_Command := NSCMD_DEVICEQUERY; io_Length := 16; io_Offset := 0; io_Actual := 0 |} in
  let readcmd :=
    match nsdqr_SupportedCommands nsd with
    | Some cmds => if (rp_error rp =? 0) && existsb (Z.eqb NSCMD_TD_READ64) cmds then NSCMD_TD_READ64 else CMD_READ
    | None => CMD_READ
    end in
  ret (if readcmd =? CMD_READ then TD_READ64 else readcmd).

Definition RETURN_OK : Z := 0.
Definition RETURN_ERROR : Z := 10.
Definition RETURN_FAIL : Z := 20.

(** The arguments that [ReadArgs] finds; the name is a string of its result. *)
Record mbr_args : Type := {
  ARG_DEVICE : option (list Z);
  ARG_UNIT : option Z
}.

(** [ReadArgs]: its result is held until [FreeArgs]. *)
Definition ReadArgs (args : option mbr_args) : M exec (option mbr_args) :=
  when (bool_decide (args <> None)) (modify (fun x => set_x_args (x_args x + 1) x));;
  ret args.

(** The name of the device is read: the constant, or the string of the arguments, which
    are [freed] or not. *)
Definition read_devname (freed : bool) (a : mbr_args) : M exec unit :=
  if bool_decide (ARG_DEVICE a <> None) && freed then bad_pointer else ret tt.

Definition mbrscan_main (args : option mbr_args) : M exec (Z * list line) :=
  let! rda := ReadArgs args in
  match rda with
  | None => ret (RETURN_ERROR, [])
  | Some a =>
      FreeArgs;;
      let! ok := CreateMsgPort in
      if negb ok then ret (RETURN_FAIL, [])
      else
        let! ok := CreateIORequest in
        if negb ok then DeleteMsgPort;; ret (RETURN_FAIL, [])
        else
          read_devname true a;;
          let! ok := OpenDevice in
          if negb ok then DeleteIORequest;; DeleteMsgPort;; ret (RETURN_FAIL, [])
          else
            let! readcmd := choose_read in
            let! ok := DevIo.AllocVec in
            let! out := if negb ok then ret [] else scan_table readcmd in
            when ok FreeVec;;
            CloseDevice;;
            DeleteIORequest;;
            DeleteMsgPort;;
            ret (RETURN_OK, out)
  end.
End MbrScan.

(** ** What it gives back *)

Create HintDb mbrscan.

(** What the program holds of the system. *)
Inductive resource : Type := Vec | Port | Req | Opened | Args.

#[global] Instance resource_eq_dec : EqDecision resource.
Proof. solve_decision. Defined.

Section Balance.
Context {D : Type} `{ExecDeviceLaws D} (m : mem) (bad : Prop).
#[local] Abbreviation exec := (exec (D := D)).

Definition held (x : exec) (r : resource) : Z :=
  match r with Vec => x_vecs x | Port => x_ports x | Req => x_reqs x | Opened => x_opens x | Args => x_args x end.

Definition one (r : resource) (r' : resource) : Z := if decide (r = r') then 1 else 0.

Definition drive (x : exec) : mem := d_medium (x_drv x).

(** [f] ends, leaves the medium [m] alone, holds [d] more than before, and its result
    satisfies [Q]; it reads past a buffer only if the entries of the GPT cross the ends
    of blocks, and uses a freed string only if [bad]. *)
Definition holds {A} (d : resource -> Z) (f : M exec A) (Q : A -> Prop) : Prop :=
  forall x, drive x ≡ m ->
    match f x with
    | Ok a x' => drive x' ≡ m /\ (forall r, held x' r = held x r + d r) /\ Q a
    | Halt OutOfBounds _ => ~ gpt_aligned m SECSIZE
    | Halt BadPointer _ => bad
    | _ => False
    end.

#[local] Abbreviation balanced f Q := (holds (fun _ => 0) f Q).

Lemma holds_ret {A} d (a : A) (Q : A -> Prop) : (forall r, d r = 0) -> Q a -> holds d (ret a) Q.
Proof. intros Hd HQ x Hx. split_and!; [done | | done]. intros r. rewrite (Hd r). lia. Qed.

Lemma holds_bind {A B} d (f : M exec A) (g : A -> M exec B) (P : A -> Prop) Q :
  balanced f P -> (forall a, P a -> holds d (g a) Q) -> holds d (bind f g) Q.
Proof.
  intros Hf Hg x Hx. specialize (Hf x Hx). unfold bind. destruct (f x) as [a x1 | |]; [| done ..].
  destruct Hf as (Hx1 & H1 & HP). specialize (Hg a HP x1 Hx1). destruct (g a x1) as [b x2 | |]; [| done ..].
  destruct Hg as (? & H2 & ?). split_and!; [done | | done]. intros r. rewrite H2, H1. lia.
Qed.

Lemma holds_assoc {A B C} d (f : M exec A) (g : A -> M exec B) (h : B -> M exec C) Q :
  holds d (let! a := f in let! b := g a in h b) Q -> holds d (let! b := bind f g in h b) Q.
Proof. intros Hh x Hx. specialize (Hh x Hx). unfold bind in *. by destruct (f x) as [a x1 | |]. Qed.

Lemma holds_step {A B} d (f : M exec A) (g : A -> M exec B) Q :
  balanced f (fun _ => True) -> (forall a, holds d (g a) Q) -> holds d (bind f g) Q.
Proof. intros Hf Hg. by eapply holds_bind. Qed.

Lemma holds_weaken {A} d (f : M exec A) (P Q : A -> Prop) : holds d f P -> (forall a, P a -> Q a) -> holds d f Q.
Proof. intros Hf HQ x Hx. specialize (Hf x Hx). destruct (f x) as [a x1 | |]; [| done ..]. destruct Hf as (? & ? & ?). auto. Qed.

(** Getting something, and giving it back. *)
Lemma holds_gain {A} a d (c : exec -> exec) (g : unit -> M exec A) Q : (forall x r, held (c x) r = held x r + a r) ->
  (forall x, x_drv (c x) = x_drv x) -> holds (fun r => d r - a r) (g tt) Q -> holds d (bind (modify c) g) Q.
Proof.
  intros Hc Hd Hg x Hx. change (bind (modify c) g x) with (g tt (c x)). unfold drive in Hx. rewrite <- Hd in Hx.
  specialize (Hg (c x) Hx). destruct (g tt (c x)) as [b x1 | |]; [| done ..].
  destruct Hg as (? & H1 & ?). split_and!; [done | | done]. intros r. rewrite H1, Hc. lia.
Qed.

Lemma holds_acquire {A} a d c (g : bool -> M exec A) Q : (forall x r, held (c x) r = held x r + a r) ->
  (forall x, x_drv (c x) = x_drv x) -> holds d (g false) Q -> holds (fun r => d r - a r) (g true) Q ->
  holds d (bind (acquire c) g) Q.
Proof.
  intros Hc Hd Hf Ht. pose proof (holds_gain a d c (fun _ => g true) Q Hc Hd Ht) as Hyes. intros x Hx.
  destruct x as [[| [] rest] v p r o k drv]; [apply (Hyes _ Hx) | exact (Hyes (mk_exec rest v p r o k drv) Hx) |].
  exact (Hf (mk_exec rest v p r o k drv) Hx).
Qed.

Ltac counted := intros ? []; cbv [one decide decide_rel resource_eq_dec]; cbn; lia.

Lemma holds_vec {A} d (g : bool -> M exec A) Q : holds d (g false) Q -> holds (fun r => d r - one Vec r) (g true) Q ->
  holds d (bind DevIo.AllocVec g) Q.
Proof. apply holds_acquire; [counted | done]. Qed.

Lemma holds_free_vec {A} d (g : unit -> M exec A) Q : holds (fun r => d r - - one Vec r) (g tt) Q -> holds d (bind FreeVec g) Q.
Proof. apply holds_gain; [counted | done]. Qed.

(** *** Buffers *)

Lemma balanced_load buf off n : 0 <= off -> (gpt_aligned m SECSIZE -> off + n <= zlen buf) ->
  balanced (load buf off n) (fun b => b = sub buf off n).
Proof.
  intros Ho Hn x Hx. unfold load. rewrite (proj2 (Z.ltb_ge _ _) Ho). cbn [orb].
  destruct (Z.ltb_spec (zlen buf) (off + n)); [intros Ha; specialize (Hn Ha); lia |].
  by apply holds_ret.
Qed.

Lemma balanced_number buf off n : 0 <= off -> (gpt_aligned m SECSIZE -> off + n <= zlen buf) ->
  balanced (let! b := load buf off n in ret (le_val b)) (fun v => v = le_val (sub buf off n)).
Proof. intros Ho Hn. eapply holds_bind; [by apply balanced_load |]. intros b ->. by apply holds_ret. Qed.

Lemma balanced_matches buf off s : 0 <= off -> off + zlen s <= zlen buf ->
  balanced (matches_at buf off s) (fun b => b = bool_decide (sub buf off (zlen s) = s)).
Proof. intros Ho Hn. eapply holds_bind; [by apply balanced_load |]. intros b ->. by apply holds_ret. Qed.

Lemma balanced_zero_words n : forall buf off, 0 <= off -> (gpt_aligned m SECSIZE -> off + 4 * Z.of_nat n <= zlen buf) ->
  balanced (zero_words n buf off) (fun _ => True).
Proof.
  induction n as [| n IH]; intros buf off Ho Hn; cbn [zero_words]; [by apply holds_ret |].
  eapply holds_bind; [apply balanced_number; [done | intros Ha; specialize (Hn Ha); lia] |]. intros v _.
  destruct (v =? 0); [apply IH; [lia | intros Ha; specialize (Hn Ha); lia] | by apply holds_ret].
Qed.

(** *** Blocks *)

(** A block of the medium. *)
Definition block_at (lba : Z) (r : option (list Z)) : Prop :=
  match r with None => True | Some b => zlen b = SECSIZE /\ b = mread m (u64 (lba * SECSIZE)) SECSIZE end.

Definition reads64 (readcmd : Z) : Prop := readcmd = NSCMD_TD_READ64 \/ readcmd = TD_READ64.

Lemma balanced_readblock readcmd lba : reads64 readcmd -> balanced (readblock readcmd lba) (block_at lba).
Proof.
  intros Hc x Hx. unfold readblock. set (off := u64 (lba * SECSIZE)).
  set (r := {| io_Command := readcmd; io_Length := SECSIZE; io_Offset := u32 off; io_Actual := Z.shiftr off 32 |}).
  unfold bind, do_io. destruct (DoIO r (zrepeat 0 SECSIZE) (x_drv x)) as [rp d'] eqn:E.
  destruct (read_law r _ _ _ _ E) as (Hm & Hl & Hd); [by destruct Hc as [-> | ->] | done |].
  assert (Hoff : io_byte_offset r = off).
  { assert (Hu : in_u 64 off) by apply u64_range. unfold io_byte_offset, r. cbn [io_Command io_Offset io_Actual].
    replace ((readcmd =? CMD_READ) || (readcmd =? CMD_WRITE)) with false by (by destruct Hc as [-> | ->]).
    unfold u32. rewrite Z.shiftr_div_pow2 by lia.
    rewrite lor_shift_add by (pose proof (Z.mod_pos_bound off (2 ^ 32)); lia).
    pose proof (Z.div_mod off (2 ^ 32)). lia. }
  assert (Hx' : drive (set_x_drv d' x) ≡ m) by (by rewrite <- Hx; apply Hm).
  assert (Hh : forall r0, held (set_x_drv d' x) r0 = held x r0 + 0) by (intros []; cbn; lia).
  destruct (Z.eqb_spec (rp_error rp) 0) as [He |]; cbn [negb]; [| done].
  destruct (Z.eqb_spec (rp_actual rp) SECSIZE) as [Ha |]; cbn [negb]; [| done]. unfold ret, block_at. split_and!; try done.
  fold off. rewrite (Hd He Ha), Hoff. by rewrite <- Hx.
Qed.
#[local] Hint Resolve balanced_readblock : mbrscan.

Lemma balanced_choose_read : balanced choose_read reads64.
Proof.
  intros x Hx. unfold choose_read, bind, do_query. destruct (DoIO_query _ _) as [[rp nsd] d'] eqn:E.
  assert (Hm : drive (set_x_drv d' x) ≡ m) by (by rewrite <- Hx; apply (query_law _ _ _ _ _ E)).
  assert (Hh : forall r0, held (set_x_drv d' x) r0 = held x r0 + 0) by (intros []; cbn; lia).
  unfold ret, reads64. split_and!; [done | done |]. destruct (nsdqr_SupportedCommands nsd) as [cmds |]; [| by right].
  destruct (_ && _); [by left | by right].
Qed.

Lemma balanced_verdict (start count : Z) r : block_at start r ->
  balanced (match r with
    | None => ret ReadFailed
    | Some vbr =>
        let! exfat := matches_at vbr 3 (str "EXFAT   ") in
        if exfat then ret (IsExfat start (if 0 <? count then u64 (start + count - 1) else start))
        else
          let! ntfs := matches_at vbr 3 (str "NTFS    ") in
          if ntfs then ret IsNtfs
          else
            let! sig := le16 vbr 510 in
            ret (if sig =? 0xaa55 then BootSector else NoSignature)
    end) (fun _ => True).
Proof.
  destruct r as [vbr |]; [intros [Hl _] | intros _; by apply holds_ret]. unfold SECSIZE in Hl.
  eapply holds_bind; [apply balanced_matches; [done | rewrite Hl; by vm_compute] |]. intros [] _; [by apply holds_ret |].
  eapply holds_bind; [apply balanced_matches; [done | rewrite Hl; by vm_compute] |]. intros [] _; [by apply holds_ret |].
  eapply holds_bind; [apply balanced_number; [done | rewrite Hl; lia] |]. intros v _. by apply holds_ret.
Qed.

Lemma balanced_check_candidate readcmd start count : reads64 readcmd -> balanced (check_candidate readcmd start count) (fun _ => True).
Proof.
  intros Hc. unfold check_candidate. apply holds_vec; [by apply holds_ret |]. cbn [negb].
  eapply holds_bind; [by apply balanced_readblock |]. intros r Hr. eapply holds_bind; [by apply balanced_verdict |].
  intros v _. apply holds_free_vec, holds_ret; [intros r'; lia | done].
Qed.

Lemma balanced_gpt_entries n entsize : (gpt_aligned m SECSIZE -> 48 <= entsize /\ (entsize | SECSIZE)) ->
  forall readcmd entlba i out, reads64 readcmd -> 0 <= i -> i + Z.of_nat n <= 128 ->
  balanced (gpt_entries n readcmd entlba entsize i out) (fun _ => True).
Proof.
  intros Hal. induction n as [| n IH]; intros readcmd entlba i out Hc Hi Hn; cbn [gpt_entries]; [by apply holds_ret |].
  set (off := u32 (i * entsize) mod SECSIZE). assert (Ho : 0 <= off) by (apply Z.mod_pos_bound; done).
  assert (Hin : forall e, e <= 48 -> gpt_aligned m SECSIZE -> off + e <= SECSIZE).
  { intros e He Ha. destruct (Hal Ha) as [H1 H2].
    pose proof (entry_inside SECSIZE ltac:(unfold SECSIZE; lia) entsize i H1 H2 ltac:(lia)). unfold off. lia. }
  eapply holds_bind; [by apply balanced_readblock |]. intros [ent |]; [intros [Hl _] | intros _; by apply holds_ret].
  eapply holds_bind; [apply (balanced_zero_words 4); [done | rewrite Hl; apply (Hin 16); lia] |]. intros unused _.
  destruct unused; [apply IH; (done || lia) |].
  do 2 (eapply holds_bind; [apply balanced_number; [lia | rewrite Hl, <- Z.add_assoc; apply Hin; lia] |]; intros ? _).
  eapply holds_bind; [by apply balanced_check_candidate |]. intros v _. apply IH; (done || lia).
Qed.

(** The entries behind a GPT header. *)
Lemma balanced_header readcmd r : reads64 readcmd -> block_at 1 r ->
  balanced (match r with
    | None => ret [NoGptHeader]
    | Some bytes =>
        let! sig := matches_at bytes 0 (str "EFI PART") in
        if negb sig then ret [NoGptHeader]
        else
          let! entlba := le64 bytes 72 in
          let! nents := le32 bytes 80 in
          let! entsize := le32 bytes 84 in
          let out := [GptHeader nents entsize entlba] in
          if (entsize =? 0) || (SECSIZE <? entsize) then ret out
          else gpt_entries (Z.to_nat (Z.min nents 128)) readcmd entlba entsize 0 out
    end) (fun _ => True).
Proof.
  intros Hc. destruct r as [bytes |]; [intros [Hl Hb] | intros _; by apply holds_ret]. unfold SECSIZE in Hl.
  eapply holds_bind; [apply balanced_matches; [done | rewrite Hl; by vm_compute] |]. change (zlen (str "EFI PART")) with 8.
  intros sig ->. case_bool_decide as Hsig; cbn [negb]; [| by apply holds_ret].
  eapply holds_bind; [apply balanced_number; [done | rewrite Hl; lia] |]. intros entlba _.
  eapply holds_bind; [apply balanced_number; [done | rewrite Hl; lia] |]. intros nents ->.
  eapply holds_bind; [apply balanced_number; [done | rewrite Hl; lia] |]. intros entsize ->.
  destruct (_ || _); [by apply holds_ret |]. pose proof (proj1 (le_val_range (sub bytes 80 4))) as Hn.
  apply balanced_gpt_entries; [| done | done | lia]. intros Ha. rewrite Hb in *. by apply Ha.
Qed.

Lemma balanced_scan_gpt readcmd : reads64 readcmd -> balanced (mbr_scan_gpt readcmd) (fun _ => True).
Proof.
  intros Hc. unfold mbr_scan_gpt.
  assert (Hfree : forall (b c : bool) d (out : list line), (forall r, d r + (if b then one Vec r else 0) + (if c then one Vec r else 0) = 0) ->
    holds d (when b FreeVec;; when c FreeVec;; ret out) (fun _ => True)).
  { intros b c d out Hd. assert (H2 : forall d', (forall r, d' r + (if c then one Vec r else 0) = 0) -> holds d' (when c FreeVec;; ret out) (fun _ => True)).
    { intros d' Hd'. destruct c; [apply holds_free_vec |]; apply holds_ret; try done; intros r; specialize (Hd' r); lia. }
    destruct b; [apply holds_free_vec |]; apply H2; intros r; specialize (Hd r); lia. }
  apply holds_vec; (apply holds_vec; cbn [negb orb]; [apply holds_step; [by apply holds_ret |]; intros out; apply Hfree; intros r; lia |]).
  - apply holds_step; [by apply holds_ret |]. intros out. apply Hfree. intros r. lia.
  - apply holds_step; [| intros out; apply Hfree; intros r; lia].
    eapply holds_bind; [by apply balanced_readblock |]. intros r Hr. by apply balanced_header.
Qed.

Lemma balanced_mbr_entries n : forall readcmd i buf found out, reads64 readcmd -> zlen buf = SECSIZE -> 0 <= i -> i + Z.of_nat n <= 4 ->
  balanced (mbr_entries n readcmd i buf found out) (fun _ => True).
Proof.
  induction n as [| n IH]; intros readcmd i buf found out Hc Hl Hi Hn; cbn [mbr_entries]; [by apply holds_ret |]. unfold SECSIZE in *.
  do 3 (eapply holds_bind; [apply balanced_number; [lia | rewrite Hl; lia] |]; intros ? _).
  destruct (_ || _); [apply IH; (done || lia) |]. destruct (_ =? 0xee).
  - eapply holds_bind; [by apply balanced_scan_gpt |]. intros more _. apply IH; (done || lia).
  - eapply holds_bind; [by apply balanced_check_candidate |]. intros v _. apply IH; (done || lia).
Qed.

Lemma balanced_scan_table readcmd : reads64 readcmd -> balanced (scan_table readcmd) (fun _ => True).
Proof.
  intros Hc. eapply holds_bind; [by apply balanced_readblock |]. intros [buf |]; [intros [Hl _] | intros _; by apply holds_ret].
  eapply holds_bind; [apply balanced_matches; [done | rewrite Hl; by vm_compute] |]. intros [] _; [by apply holds_ret |].
  eapply holds_bind; [apply balanced_number; [done | rewrite Hl; unfold SECSIZE; lia] |]. intros sig _.
  destruct (negb _); [by apply holds_ret |].
  eapply holds_bind; [by apply balanced_mbr_entries |]. intros [found out] _. by apply holds_ret.
Qed.

(** *** The program *)

Lemma holds_devname {A} d a (k : unit -> M exec A) Q : (is_Some (ARG_DEVICE a) -> bad) -> holds d (k tt) Q ->
  holds d (bind (read_devname true a) k) Q.
Proof.
  intros Hbad Hk x Hx. specialize (Hk x Hx). unfold bind, read_devname. destruct (ARG_DEVICE a) as [name |]; [| exact Hk].
  cbn. by apply Hbad.
Qed.

Ltac give_back r := apply (holds_gain (fun r' => - one r r')); [counted | done |].

(** The end of the program: the device, the request and the port are given back. *)
Lemma holds_close (out : list line) d : (forall r, d r = - one Opened r - one Req r - one Port r) ->
  holds d (CloseDevice;; DeleteIORequest;; DeleteMsgPort;; ret (RETURN_OK, out)) (fun _ => True).
Proof.
  intros Hd. give_back Opened. give_back Req. give_back Port. apply holds_ret; [intros r; rewrite Hd; lia | done].
Qed.

Lemma holds_session a d : (is_Some (ARG_DEVICE a) -> bad) -> (forall r, d r = - one Req r - one Port r) -> holds d
  (read_devname true a;;
   let! ok := OpenDevice in
   if negb ok then DeleteIORequest;; DeleteMsgPort;; ret (RETURN_FAIL, [])
   else
     let! readcmd := choose_read in
     let! ok := DevIo.AllocVec in
     let! out := if negb ok then ret [] else scan_table readcmd in
     when ok FreeVec;;
     CloseDevice;;
     DeleteIORequest;;
     DeleteMsgPort;;
     ret (RETURN_OK, out)) (fun _ => True).
Proof.
  intros Hbad Hd. apply holds_devname; [done |]. apply (holds_acquire (one Opened)); [counted | done | |]; cbn [negb].
  { give_back Req. give_back Port. apply holds_ret; [intros r; rewrite Hd; lia | done]. }
  eapply holds_bind; [apply balanced_choose_read |]. intros readcmd Hc. apply holds_vec; cbn [negb when].
  - apply holds_step; [by apply holds_ret |]. intros out. apply holds_step; [by apply holds_ret |]. intros _.
    apply holds_close. intros r. rewrite Hd. lia.
  - apply holds_step; [by apply balanced_scan_table |]. intros out. apply holds_free_vec, holds_close.
    intros r. rewrite Hd. lia.
Qed.

Lemma balanced_main args : (forall a, args = Some a -> is_Some (ARG_DEVICE a) -> bad) ->
  balanced (mbrscan_main args) (fun _ => True).
Proof.
  intros Hbad. unfold mbrscan_main, ReadArgs. destruct args as [a |]; [| by apply holds_ret].
  rewrite bool_decide_true by done. cbn [when]. apply holds_assoc.
  apply (holds_gain (one Args)); [counted | done |]. eapply (holds_bind _ _ _ (fun rda => rda = Some a)).
  { by apply holds_ret. }
  intros rda ->. give_back Args. apply (holds_acquire (one Port)); [counted | done | |]; cbn [negb]; [apply holds_ret; [intros r; lia | done] |].
  apply (holds_acquire (one Req)); [counted | done | |]; cbn [negb].
  - give_back Port. apply holds_ret; [intros r; lia | done].
  - apply holds_session; [by apply Hbad | intros r; lia].
Qed.
End Balance.

(** C29: [mbrscan] ends for every driver that keeps its promises, whatever the medium
    holds, however many reads fail and whichever calls of the system fail: the port, the
    request, the device, the buffers and the arguments that it gets, it gives back, and it
    writes nothing.  Two defects are set apart: it may read past a buffer, only on a medium
    whose GPT has entries that cross the ends of blocks; and it reads the name of the
    device after FreeArgs, only when one was given. *)
Theorem mbrscan_balanced {D} `{ExecDeviceLaws D} (args : option mbr_args) (x : exec (D := D)) :
  match mbrscan_main args x with
  | Ok _ x' => x_vecs x' = x_vecs x /\ x_ports x' = x_ports x /\ x_reqs x' = x_reqs x /\ x_opens x' = x_opens x /\
      x_args x' = x_args x /\ d_medium (x_drv x') ≡ d_medium (x_drv x)
  | Halt OutOfBounds _ => ~ gpt_aligned (d_medium (x_drv x)) SECSIZE
  | Halt BadPointer _ => exists a, args = Some a /\ is_Some (ARG_DEVICE a)
  | _ => False
  end.
Proof.
  set (bad := exists a, args = Some a /\ is_Some (ARG_DEVICE a)).
  pose proof (balanced_main (d_medium (x_drv x)) bad args ltac:(intros a Ha Hd; by exists a) x (reflexivity _)) as Hb.
  destruct (mbrscan_main args x) as [r x' | |]; [| done ..]. destruct Hb as (Hm & Hh & _).
  pose proof (Hh Vec); pose proof (Hh Port); pose proof (Hh Req); pose proof (Hh Opened); pose proof (Hh Args).
  cbn in *. split_and!; done || lia.
Qed.

(** A name of a device that was given is read when its arguments are freed. *)
Theorem device_name_freed {D} `{ExecDevice D} name unit (x : exec (D := D)) : x_answers x = [] ->
  exists x', mbrscan_main (Some {| ARG_DEVICE := Some name; ARG_UNIT := unit |}) x = Halt BadPointer x' /\ x_args x' = x_args x.
Proof. destruct x as [answers v p r o k drv]. cbn. intros ->. eexists. split; [reflexivity |]. cbn. lia. Qed.

(** The medium of PartTable.v in the driver of DevIoOpen.v. *)
Definition demo_scan_exec : exec (D := mem) := mk_exec [] 0 0 0 0 0 (demo_table_medium 128).

Definition demo_args : mbr_args := {| ARG_DEVICE := None; ARG_UNIT := None |}.

Example demo_mbrscan : match mbrscan_main (Some demo_args) demo_scan_exec with
  | Ok r _ => r = (RETURN_OK, [MbrEntry 0 0x0f 10 100 BootSector]) | _ => False end.
Proof. by vm_compute. Qed.

Lemma mbrscan_balanced_witness :
  match mbrscan_main (Some demo_args) demo_scan_exec with
  | Ok _ x' => x_vecs x' = x_vecs demo_scan_exec /\ x_ports x' = x_ports demo_scan_exec /\
      x_reqs x' = x_reqs demo_scan_exec /\ x_opens x' = x_opens demo_scan_exec /\
      x_args x' = x_args demo_scan_exec /\ d_medium (x_drv x') ≡ d_medium (x_drv demo_scan_exec)
  | Halt OutOfBounds _ => ~ gpt_aligned (d_medium (x_drv demo_scan_exec)) SECSIZE
  | Halt BadPointer _ => exists a, Some demo_args = Some a /\ is_Some (ARG_DEVICE a)
  | _ => False
  end.
Proof. apply (mbrscan_balanced (Some demo_args) demo_scan_exec). Defined.
