(* ===== verification/Small.v ===== *)
(** * Small: arithmetic and strings of the AmigaOS handler (amiga/small.c)

    The 64-bit division that replaces the one of the compiler's library, and
    [strstr].  Both are proved equal to the operations that they stand for. *)

From Stdlib Require Import ZArith Lia.
From stdpp Require Import base numbers list strings.
From S2P Require Import Prelude Utils.

#[local] Open Scope Z_scope.

(** ** Definitions *)

(** [while ((d >> shift) != 1) shift++;], for a [d] of 64 bits that is not zero. *)
Fixpoint shift_of (fuel : nat) (d shift : Z) : Z :=
  match fuel with
  | O => shift
  | S fuel => if Z.shiftr d shift =? 1 then shift else shift_of fuel d (shift + 1)
  end.

(** The loop over the bits of [n] from bit [i - 1] down. *)
Fixpoint divmod_loop (i : nat) (n d q r : Z) : Z * Z :=
  match i with
  | O => (q, r)
  | S i =>
      let r := Z.lor (u64 (Z.shiftl r 1)) (Z.land (Z.shiftr n (Z.of_nat i)) 1) in
      if d <=? r then divmod_loop i n d (Z.lor q (u64 (Z.shiftl 1 (Z.of_nat i)))) (u64 (r - d))
      else divmod_loop i n d q r
  end.

(** The quotient and [*rem]. *)
Definition exfat_small_udivmod64 (n d : Z) : Z * Z :=
  if d =? 0 then (0, 0)
  else if Z.land d (u64 (d - 1)) =? 0 then
    let shift := shift_of 64 d 0 in
    (Z.shiftr n shift, Z.land n (u64 (d - 1)))
  else if (Z.shiftr n 32 =? 0) && (Z.shiftr d 32 =? 0) then
    let a := u32 n in
    let b := u32 d in
    (a / b, a mod b)
  else divmod_loop 64 n d 0 0.

Definition __udivdi3 (n d : Z) : Z := (exfat_small_udivmod64 n d).1.

Definition __umoddi3 (n d : Z) : Z := (exfat_small_udivmod64 n d).2.

Definition __divdi3 (n d : Z) : Z :=
  let (n, neg) := if n <? 0 then (- n, true) else (n, false) in
  let (d, neg) := if d <? 0 then (- d, negb neg) else (d, neg) in
  let q := (exfat_small_udivmod64 (u64 n) (u64 d)).1 in
  if neg then - i64 q else i64 q.

(** [while (i < nlen && haystack[i] == needle[i]) i++;]: whether it ends at [nlen]. *)
Fixpoint same_from (haystack needle : list Z) : bool :=
  match needle with
  | [] => true
  | c :: needle =>
      match haystack with
      | [] => false
      | h :: haystack => if h =? c then same_from haystack needle else false
      end
  end.

(** The loop over [haystack], at offset [from]. *)
Fixpoint strstr_loop (haystack needle : list Z) (from : nat) : option nat :=
  match haystack with
  | [] => None
  | _ :: rest => if same_from haystack needle then Some from else strstr_loop rest needle (S from)
  end.

(** The offset of the place that is found. *)
Definition strstr (haystack needle : list Z) : option nat :=
  match needle with
  | [] => Some O
  | _ => strstr_loop haystack needle O
  end.

(** ** Division *)

Lemma shift_of_spec k : forall fuel shift, 0 <= shift <= k -> k - shift < Z.of_nat fuel ->
  shift_of fuel (2 ^ k) shift = k.
Proof.
  induction fuel as [| fuel IH]; intros shift Hs Hf; [lia |]. cbn [shift_of].
  assert (E : Z.shiftr (2 ^ k) shift = 2 ^ (k - shift)).
  { rewrite Z.shiftr_div_pow2, <- Z.pow_sub_r by lia. done. }
  rewrite E. destruct (Z.eqb_spec (2 ^ (k - shift)) 1) as [H1 | H1].
  - destruct (Z.eq_dec shift k) as [-> | Hne]; [done |].
    pose proof (Z.pow_gt_1 2 (k - shift) ltac:(lia)). lia.
  - apply IH; [| lia]. destruct (Z.eq_dec shift k) as [-> | Hne]; [| lia].
    by rewrite Z.sub_diag in H1.
Qed.

(** A number that shares no bit with its predecessor is a power of two. *)
Lemma land_pred_power d : 0 < d -> Z.land d (d - 1) = 0 -> d = 2 ^ Z.log2 d.
Proof.
  intros Hd Hl. pose proof (Z.log2_spec d Hd) as [H1 H2]. pose proof (Z.log2_nonneg d) as Hn.
  destruct (Z.eq_dec d (2 ^ Z.log2 d)) as [E | Hne]; [done |]. exfalso.
  rewrite Z.pow_succ_r in H2 by done.
  assert (Hbit : forall x, 2 ^ Z.log2 d <= x < 2 * 2 ^ Z.log2 d -> Z.testbit x (Z.log2 d) = true).
  { intros x Hx. rewrite Z.testbit_true by done. replace (x / 2 ^ Z.log2 d) with 1; [done |].
    apply Z.div_unique with (x - 2 ^ Z.log2 d); lia. }
  assert (E : Z.testbit (Z.land d (d - 1)) (Z.log2 d) = true) by (rewrite Z.land_spec, !Hbit by lia; done).
  rewrite Hl, Z.bits_0 in E. done.
Qed.

(** The next bit of [n] behind the bits from [i + 1] on. *)
Lemma next_bit n i : 0 <= i -> n / 2 ^ i = 2 * (n / 2 ^ (i + 1)) + Z.land (Z.shiftr n i) 1.
Proof.
  intros Hi. change 1 with (2 ^ 1 - 1) at 2. rewrite land_low by lia. change (2 ^ 1) with 2.
  rewrite Z.shiftr_div_pow2, Z.pow_add_r, <- Z.div_div by lia. change (2 ^ 1) with 2.
  apply Z.div_mod. lia.
Qed.

(** The quotient so far has no bit below [i]. *)
Lemma lor_low_bit q i : 0 <= i -> (2 ^ (i + 1) | q) -> Z.lor q (2 ^ i) = q + 2 ^ i.
Proof.
  intros Hi [c ->]. replace (c * 2 ^ (i + 1)) with (Z.shiftl c (i + 1)) by (by rewrite Z.shiftl_mul_pow2 by lia).
  rewrite lor_shift_add; [by rewrite Z.shiftl_mul_pow2 by lia | lia |].
  split; [lia |]. apply Z.pow_lt_mono_r; lia.
Qed.

Lemma divmod_loop_spec n d : 0 <= n < 2 ^ 64 -> 0 < d < 2 ^ 64 -> forall i q r, (i <= 64)%nat ->
  n / 2 ^ Z.of_nat i * 2 ^ Z.of_nat i = q * d + r * 2 ^ Z.of_nat i -> 0 <= r < d -> 0 <= q < 2 ^ 64 ->
  (2 ^ Z.of_nat i | q) -> divmod_loop i n d q r = (n / d, n mod d).
Proof.
  intros Hn Hd. induction i as [| i IH]; intros q r Hi E Hr Hq Hdiv; cbn [divmod_loop].
  - rewrite Z.div_1_r, !Z.mul_1_r in E. f_equal.
    + apply Z.div_unique with r; lia.
    + apply Z.mod_unique with q; lia.
  - assert (Hp : 0 < 2 ^ Z.of_nat i) by lia. set (k := Z.of_nat i) in *. assert (Hk : 0 <= k < 64) by lia.
    replace (Z.of_nat (S i)) with (k + 1) in * by lia.
    pose proof (next_bit n k ltac:(lia)) as Hbit. set (b := Z.land (Z.shiftr n k) 1) in *.
    assert (Hb : 0 <= b < 2).
    { unfold b. change 1 with (2 ^ 1 - 1). rewrite land_low by lia. apply Z.mod_pos_bound. lia. }
    pose proof (lor_low_bit q k ltac:(lia) Hdiv) as Hlor.
    assert (Hpow : 2 ^ (k + 1) = 2 * 2 ^ k) by (rewrite Z.pow_add_r by lia; lia).
    rewrite Hpow in *. set (P := 2 ^ k) in *. set (N1 := n / (2 * P)) in *.
    (* the bits of [n] from [k + 1] on bound the remainder *)
    assert (HN : 0 <= N1 < 2 ^ 63).
    { unfold N1. split; [apply Z.div_pos; lia |]. apply Z.div_lt_upper_bound; [lia |]. change (2 ^ 64) with (2 * 2 ^ 63) in Hn. nia. }
    assert (HrN : r <= N1) by nia.
    assert (Eshift : u64 (Z.shiftl r 1) = 2 * r).
    { rewrite Z.shiftl_mul_pow2, u64_small by (unfold in_u; lia). lia. }
    assert (Eor : Z.lor (u64 (Z.shiftl r 1)) b = 2 * r + b).
    { rewrite Eshift. replace (Z.lor (2 * r) b) with (Z.lor (Z.shiftl r 1) b) by (rewrite Z.shiftl_mul_pow2 by lia; f_equal; lia).
      rewrite lor_shift_add by lia. lia. }
    rewrite Eor. destruct (Z.leb_spec d (2 * r + b)) as [Hge | Hlt].
    + assert (HP : u64 (Z.shiftl 1 k) = P).
      { rewrite Z.shiftl_mul_pow2, Z.mul_1_l, u64_small by (try split; try lia; apply Z.pow_lt_mono_r; lia). done. }
      rewrite HP, Hlor. clear Hlor. destruct Hdiv as [c ->].
      rewrite (u64_small (2 * r + b - d)) by (unfold in_u; lia).
      apply IH; [lia | | lia | | exists (2 * c + 1); ring].
      * rewrite Hbit. nia.
      * assert ((c * (2 * P) + P) * d <= n); [| nia].
        pose proof (Z.mul_div_le n P ltac:(lia)). rewrite Hbit in *. nia.
    + apply IH; [lia | | lia | lia | destruct Hdiv as [c ->]; exists (2 * c); ring]. rewrite Hbit. nia.
Qed.

Lemma udivmod64_ok n d : in_u 64 n -> 0 < d < 2 ^ 64 -> exfat_small_udivmod64 n d = (n / d, n mod d).
Proof.
  intros Hn Hd. unfold in_u in Hn. unfold exfat_small_udivmod64. rewrite (proj2 (Z.eqb_neq d 0)) by lia.
  rewrite u64_small by (unfold in_u; lia). destruct (Z.eqb_spec (Z.land d (d - 1)) 0) as [E | _].
  - apply land_pred_power in E; [| lia]. pose proof (Z.log2_nonneg d) as Hl. set (k := Z.log2 d) in *.
    assert (Hk : k < 64) by (apply (Z.pow_lt_mono_r_iff 2); lia). rewrite E.
    rewrite shift_of_spec by lia. by rewrite Z.shiftr_div_pow2, land_low by lia.
  - destruct (Z.eqb_spec (Z.shiftr n 32) 0) as [E1 | _]; cbn [andb]; [destruct (Z.eqb_spec (Z.shiftr d 32) 0) as [E2 | _] |].
    2, 3: apply divmod_loop_spec; [lia | lia | lia | | lia | lia | apply Z.divide_0_r];
      change (Z.of_nat 64) with 64; rewrite Z.div_small by lia; lia.
    rewrite Z.shiftr_div_pow2 in E1, E2 by lia. apply Z.div_small_iff in E1; [| lia]. apply Z.div_small_iff in E2; [| lia].
    rewrite !u32_small by (unfold in_u; lia). done.
Qed.

(** The 64-bit division of the handler is the division: for any dividend and any divisor
    that is not zero it returns the quotient and the remainder. *)
Theorem udivmod64_divides n d (Hn : in_u 64 n) (Hd : in_u 64 d) (Hd0 : d <> 0) :
  exfat_small_udivmod64 n d = (n / d, n mod d).
Proof. apply udivmod64_ok; unfold in_u in *; lia. Qed.

Lemma udivmod64_divides_witness :
  exfat_small_udivmod64 (2 ^ 64 - 1) (2 ^ 63 + 1) = ((2 ^ 64 - 1) / (2 ^ 63 + 1), (2 ^ 64 - 1) mod (2 ^ 63 + 1)).
Proof. apply udivmod64_divides; unfold in_u; lia. Defined.

(** The signed division rounds towards zero. *)
Lemma divdi3_quot n d : - 2 ^ 63 < n < 2 ^ 63 -> - 2 ^ 63 < d < 2 ^ 63 -> d <> 0 -> __divdi3 n d = Z.quot n d.
Proof.
  intros Hn Hd Hd0.
  assert (Hq : forall a b, 0 <= a < 2 ^ 63 -> 0 < b < 2 ^ 63 ->
    i64 (exfat_small_udivmod64 (u64 a) (u64 b)).1 = Z.quot a b).
  { intros a b Ha Hb. rewrite !u64_small, udivmod64_ok by (unfold in_u; lia). cbn [fst].
    rewrite Z.quot_div_nonneg by lia. assert (0 <= a / b <= a) by (split; [apply Z.div_pos; lia | apply Z.div_le_upper_bound; nia]).
    unfold i64, to_signed. rewrite Z.mod_small; lia. }
  unfold __divdi3. destruct (Z.ltb_spec n 0) as [H1 | H1], (Z.ltb_spec d 0) as [H2 | H2]; cbn [negb]; rewrite Hq by lia.
  - by rewrite Z.quot_opp_opp.
  - rewrite Z.quot_opp_l by lia. lia.
  - rewrite Z.quot_opp_r by lia. lia.
  - done.
Qed.

(** ** Search *)

Lemma same_from_prefix needle : forall haystack, same_from haystack needle = is_prefix needle haystack.
Proof.
  induction needle as [| c needle IH]; intros haystack; [by destruct haystack |].
  destruct haystack as [| h haystack]; [done |]. cbn [same_from is_prefix]. by rewrite IH, (Z.eqb_sym h c).
Qed.

Lemma strstr_loop_spec needle : needle <> [] -> forall haystack from,
  strstr_loop haystack needle from = option_map (fun k => (from + k)%nat) (Utils.strstr haystack needle).
Proof.
  intros Hne. induction haystack as [| h haystack IH]; intros from; cbn [strstr_loop Utils.strstr].
  - rewrite <- same_from_prefix. destruct needle; [done |]. done.
  - rewrite same_from_prefix. destruct (is_prefix needle (h :: haystack)); cbn [option_map]; [f_equal; lia |].
    rewrite IH. destruct (Utils.strstr haystack needle); cbn [option_map]; [f_equal; lia | done].
Qed.

(** [strstr] is the one of the C library, which the options are parsed with elsewhere. *)
Lemma strstr_same haystack needle : strstr haystack needle = Utils.strstr haystack needle.
Proof.
  destruct needle as [| c needle].
  - destruct haystack; done.
  - unfold strstr. rewrite strstr_loop_spec by done. destruct (Utils.strstr haystack (c :: needle)); done.
Qed.
