(* ===== verification/Amigaos.v ===== *)
(** * Amigaos: the run-time support of the AmigaOS handler (amiga/amigaos.c)

    A printf subset, the conversions between UTF-8 and the 8-bit characters of
    AmigaOS, time stamps, the allocator and strtol.  Pointers and [size_t] have 32
    bits there.  A read behind the null byte of a C string and an argument of
    another type than the conversion asks for are undefined: the result is [None]. *)

From Stdlib Require Import ZArith Lia.
From stdpp Require Import base numbers list strings.
From S2P Require Import Prelude Bytes Monad State Utf Utils Mount.

#[local] Open Scope Z_scope.

(** ** Definitions *)

(** *** Formatted output *)

(** [struct sbuf]; [sb_out] is what was stored. *)
Record sbuf : Type := mk_sbuf {
  sb_out : list Z;
  sb_left : Z;
  sb_count : Z
}.

Definition sb_putc (c : Z) (sb : sbuf) : sbuf :=
  let count := u32 (sb_count sb + 1) in
  if 0 <? sb_left sb then mk_sbuf (sb_out sb ++ [c]) (sb_left sb - 1) count
  else mk_sbuf (sb_out sb) (sb_left sb) count.

Fixpoint sb_putcs (s : list Z) (sb : sbuf) : sbuf :=
  match s with
  | [] => sb
  | c :: s => sb_putcs s (sb_putc c sb)
  end.

Definition sb_puts (s : option (list Z)) (sb : sbuf) : sbuf :=
  sb_putcs (match s with None => str "(null)" | Some s => s end) sb.

(** [digits[d]] *)
Definition digit_char (upper : bool) (d : Z) : Z :=
  if d <? 10 then 0x30 + d else (if upper then 0x41 else 0x61) + (d - 10).

(** The digits in [tmp], the last one first; [tmp] has room for [fuel] of them. *)
Fixpoint putu_digits (fuel : nat) (v base : Z) (upper : bool) : list Z :=
  match fuel with
  | O => []
  | S fuel => if v =? 0 then [] else digit_char upper (v mod base) :: putu_digits fuel (v / base) base upper
  end.

Definition sb_putu (v base : Z) (upper : bool) (width pad : Z) (sb : sbuf) : sbuf :=
  let tmp := if v =? 0 then [0x30] else putu_digits 24 v base upper in
  sb_putcs (rev tmp) (sb_putcs (zrepeat pad (width - zlen tmp)) sb).

Definition sb_putd (v width pad : Z) (sb : sbuf) : sbuf :=
  if v <? 0 then sb_putu (u64 (u64 (- (v + 1)) + 1)) 10 false (if 0 <? width then width - 1 else 0) pad (sb_putc 0x2d sb)
  else sb_putu (u64 v) 10 false width pad sb.

(** An argument: a number of 32 bits or less, which is passed as 32 bits, a number of 64
    bits, or a string, which may be null. *)
Inductive va : Type :=
| VLong (v : Z)
| VLongLong (v : Z)
| VStr (s : option (list Z)).

Definition is_digit (c : Z) : bool := (0x30 <=? c) && (c <=? 0x39).

(** '-', '+', ' ', '#' and '0' *)
Definition is_flag (c : Z) : bool :=
  (c =? 0x2d) || (c =? 0x2b) || (c =? 0x20) || (c =? 0x23) || (c =? 0x30).

Fixpoint fmt_flags (fmt : list Z) (pad : Z) : list Z * Z :=
  match fmt with
  | c :: rest => if is_flag c then fmt_flags rest (if c =? 0x30 then 0x30 else pad) else (fmt, pad)
  | [] => ([], pad)
  end.

Fixpoint fmt_width (fmt : list Z) (width : Z) : list Z * Z :=
  match fmt with
  | c :: rest => if is_digit c then fmt_width rest (width * 10 + (c - 0x30)) else (fmt, width)
  | [] => ([], width)
  end.

Fixpoint skip_digits (fmt : list Z) : list Z :=
  match fmt with
  | c :: rest => if is_digit c then skip_digits rest else fmt
  | [] => []
  end.

Definition fmt_precision (fmt : list Z) : list Z :=
  match fmt with
  | c :: rest => if c =? 0x2e then skip_digits rest else fmt
  | [] => []
  end.

(** The modifiers 'l', 'h', 'z', 'j' and 't'. *)
Fixpoint fmt_length (fmt : list Z) (longs : Z) : list Z * Z :=
  match fmt with
  | c :: rest =>
      if c =? char "l" then fmt_length rest (longs + 1)
      else if c =? char "h" then fmt_length rest longs
      else if (c =? char "z") || (c =? char "j") || (c =? char "t") then
        fmt_length rest (if c =? char "j" then 2 else longs)
      else (fmt, longs)
  | [] => ([], longs)
  end.

(** [va_arg] for a number that is passed in 32 bits, or in 64 when [longs >= 2]. *)
Definition va_number (longs : Z) (ap : list va) : option (Z * list va) :=
  match ap with
  | VLong v :: ap => if 2 <=? longs then None else Some (v, ap)
  | VLongLong v :: ap => if 2 <=? longs then Some (v, ap) else None
  | _ => None
  end.

Definition va_signed (longs v : Z) : Z := if 2 <=? longs then i64 v else i32 v.
Definition va_unsigned (longs v : Z) : Z := if 2 <=? longs then u64 v else u32 v.

(** The switch over the conversion character. *)
Definition convert (c longs width pad : Z) (ap : list va) (sb : sbuf) : option (list va * sbuf) :=
  if c =? char "s" then
    match ap with VStr s :: ap => Some (ap, sb_puts s sb) | _ => None end
  else if c =? char "c" then
    match ap with VLong v :: ap => Some (ap, sb_putc (u8 v) sb) | _ => None end
  else if (c =? char "d") || (c =? char "i") then
    match va_number longs ap with
    | Some (v, ap) => Some (ap, sb_putd (va_signed longs v) width pad sb)
    | None => None
    end
  else if c =? char "u" then
    match va_number longs ap with
    | Some (v, ap) => Some (ap, sb_putu (va_unsigned longs v) 10 false width pad sb)
    | None => None
    end
  else if (c =? char "x") || (c =? char "X") then
    match va_number longs ap with
    | Some (v, ap) => Some (ap, sb_putu (va_unsigned longs v) 16 (c =? char "X") width pad sb)
    | None => None
    end
  else if c =? char "p" then
    match ap with
    | VLong v :: ap => Some (ap, sb_putu (u32 v) 16 false 8 0x30 (sb_puts (Some (str "0x")) sb))
    | _ => None
    end
  else Some (ap, sb_putc c sb).

(** The loop over the format; a turn takes a character at least. *)
Fixpoint vsnprintf_loop (fuel : nat) (fmt : list Z) (ap : list va) (sb : sbuf) : option sbuf :=
  match fmt, fuel with
  | [], _ => Some sb
  | _, O => None
  | c :: fmt, S fuel =>
      if negb (c =? char "%") then vsnprintf_loop fuel fmt ap (sb_putc c sb)
      else
        let (fmt, pad) := fmt_flags fmt 0x20 in
        let (fmt, width) := fmt_width fmt 0 in
        let fmt := fmt_precision fmt in
        let (fmt, longs) := fmt_length fmt 0 in
        match fmt with
        | [] => Some sb
        | c :: fmt =>
            match convert c longs width pad ap sb with
            | None => None
            | Some (ap, sb) => vsnprintf_loop fuel fmt ap sb
            end
        end
  end.

(** The bytes that are stored in [buf], and the result. *)
Definition exfat_amiga_vsnprintf (size : Z) (fmt : list Z) (ap : list va) : option (list Z * Z) :=
  let sb := mk_sbuf [] (if 0 <? size then size - 1 else 0) 0 in
  match vsnprintf_loop (length fmt) fmt ap sb with
  | None => None
  | Some sb => Some (sb_out sb ++ (if 0 <? size then [0] else []), i32 (sb_count sb))
  end.

Definition exfat_amiga_snprintf (size : Z) (fmt : list Z) (ap : list va) : option (list Z * Z) :=
  exfat_amiga_vsnprintf size fmt ap.

(** *** Characters *)

Definition EXFAT_AMIGA_SUBST : Z := 0x3f.

(** The byte at the offset [i] of a C string; its null byte is behind the last one. *)
Definition cstr_byte (s : list Z) (i : nat) : option Z :=
  if (i =? length s)%nat then Some 0 else s !! i.

Definition utf8_next (s : list Z) (i : nat) : option (Z * nat) :=
  match cstr_byte s i with
  | None => None
  | Some c =>
      if c <? 0x80 then Some (c, S i)
      else if Z.land c 0xe0 =? 0xc0 then
        match cstr_byte s (i + 1) with
        | Some c1 => Some (Z.lor (Z.shiftl (Z.land c 0x1f) 6) (Z.land c1 0x3f), (i + 2)%nat)
        | None => None
        end
      else if Z.land c 0xf0 =? 0xe0 then
        match cstr_byte s (i + 1), cstr_byte s (i + 2) with
        | Some c1, Some c2 =>
            Some (Z.lor (Z.lor (Z.shiftl (Z.land c 0x0f) 12) (Z.shiftl (Z.land c1 0x3f) 6)) (Z.land c2 0x3f), (i + 3)%nat)
        | _, _ => None
        end
      else if Z.land c 0xf8 =? 0xf0 then
        match cstr_byte s (i + 1), cstr_byte s (i + 2), cstr_byte s (i + 3) with
        | Some c1, Some c2, Some c3 =>
            Some (Z.lor (Z.lor (Z.lor (Z.shiftl (Z.land c 0x07) 18) (Z.shiftl (Z.land c1 0x3f) 12))
                           (Z.shiftl (Z.land c2 0x3f) 6)) (Z.land c3 0x3f), (i + 4)%nat)
        | _, _, _ => None
        end
      else Some (EXFAT_AMIGA_SUBST, S i)
  end.

(** The loop of [exfat_amiga_name_to_bstr]: [room] characters may follow. *)
Fixpoint name_to_bstr_loop (room : nat) (utf8 : list Z) (i : nat) (chars : list Z) : option (list Z) :=
  match cstr_byte utf8 i with
  | None => None
  | Some b =>
      if b =? 0 then Some chars
      else
        match room with
        | O => Some chars
        | S room =>
            match utf8_next utf8 i with
            | None => None
            | Some (c, i) => name_to_bstr_loop room utf8 i (chars ++ [if c <? 0x100 then c else EXFAT_AMIGA_SUBST])
            end
        end
  end.

(** The bytes that are stored in [bstr]. *)
Definition exfat_amiga_name_to_bstr (utf8 : list Z) (maxlen : Z) : option (list Z) :=
  match name_to_bstr_loop (Z.to_nat maxlen) utf8 0 [] with
  | None => None
  | Some chars => Some (u8 (zlen chars) :: chars ++ (if zlen chars <? maxlen then [0] else []))
  end.

(** The UTF-8 form of a character of AmigaOS. *)
Definition latin1_utf8 (c : Z) : list Z :=
  if c <? 0x80 then [c] else [Z.lor 0xc0 (Z.shiftr c 6); Z.lor 0x80 (Z.land c 0x3f)].

(** The loop over the characters, while [n < maxlen - 3]; [n] bytes were stored. *)
Fixpoint latin1_loop (src : list Z) (utf8 : list Z) (maxlen : Z) : list Z :=
  match src with
  | [] => utf8
  | c :: src => if zlen utf8 <? maxlen - 3 then latin1_loop src (utf8 ++ latin1_utf8 c) maxlen else utf8
  end.

(** The bytes that are stored in [utf8]. *)
Definition exfat_amiga_cstr_to_utf8 (src : list Z) (maxlen : Z) : list Z := latin1_loop src [] maxlen ++ [0].

(** The first byte of [bstr] is the number of the characters that follow. *)
Definition exfat_amiga_bstr_to_utf8 (bstr : list Z) (maxlen : Z) : list Z :=
  latin1_loop (sub bstr 1 (znth bstr 0)) [] maxlen ++ [0].

(** *** Time *)

Record DateStamp : Type := mk_DateStamp {
  ds_Days : Z;
  ds_Minute : Z;
  ds_Tick : Z
}.

Definition TICKS_PER_SECOND : Z := 50.
Definition SECS_PER_DAY : Z := 24 * 60 * 60.
Definition DAYS_1970_TO_1978 : Z := 2922.

Definition exfat_amiga_time_to_datestamp (t : Z) : DateStamp :=
  let secs := i32 t in
  let secs := if secs <? 0 then 0 else secs in
  let days := secs / SECS_PER_DAY in
  let secs := secs - days * SECS_PER_DAY in
  let days := days - DAYS_1970_TO_1978 in
  let '(days, secs) := if days <? 0 then (0, 0) else (days, secs) in
  mk_DateStamp days (secs / 60) (secs mod 60 * TICKS_PER_SECOND).

(** A [LONG] has 32 bits; the products are taken as the processor takes them. *)
Definition exfat_amiga_datestamp_to_time (ds : DateStamp) : Z :=
  let days := if ds_Days ds <? 0 then 0 else ds_Days ds in
  let secs := i32 (ds_Minute ds * 60 + Z.quot (ds_Tick ds) TICKS_PER_SECOND) in
  i32 ((days + DAYS_1970_TO_1978) * SECS_PER_DAY + secs).

(** [time]: [None] when dos.library cannot be opened, else what [DateStamp] stores. *)
Definition amiga_time (stamp : option DateStamp) : Z :=
  match stamp with
  | None => 0
  | Some ds => i32 ((ds_Days ds + DAYS_1970_TO_1978) * SECS_PER_DAY + ds_Minute ds * 60 + Z.quot (ds_Tick ds) TICKS_PER_SECOND)
  end.

(** *** The allocator *)

Definition ALLOC_HDR : Z := 8.

(** A block that [malloc] returned: the size in its header, and the bytes that
    AllocVec() gave behind the header. *)
Record block : Type := mk_block {
  bl_size : Z;
  bl_bytes : list Z
}.

(** [vec] is what AllocVec() returns for a size: the memory, with any content. *)
Definition amiga_malloc (vec : Z -> option (list Z)) (size : Z) : option block :=
  let size := if size =? 0 then 1 else size in
  match vec (u32 (size + ALLOC_HDR)) with
  | None => None
  | Some bytes => Some (mk_block size (drop (Z.to_nat ALLOC_HDR) bytes))
  end.

(** A store of [bs] at the start of a block, [None] when it leaves the block. *)
Definition fill (bs : list Z) (b : block) : option block :=
  if zlen (bl_bytes b) <? zlen bs then None else Some (mk_block (bl_size b) (splice (bl_bytes b) 0 bs)).

(** The block, if one could be allocated, or [None] when a store leaves it. *)
Definition amiga_calloc (vec : Z -> option (list Z)) (count size : Z) : option (option block) :=
  let total := u32 (count * size) in
  match amiga_malloc vec total with
  | None => Some None
  | Some p => match fill (zrepeat 0 total) p with None => None | Some p => Some (Some p) end
  end.

(** [ptr] is the old block; it is freed unless the new one cannot be allocated. *)
Definition amiga_realloc (vec : Z -> option (list Z)) (ptr : option block) (size : Z) : option (option block) :=
  match ptr with
  | None => Some (amiga_malloc vec size)
  | Some old =>
      if size =? 0 then Some None
      else
        match amiga_malloc vec size with
        | None => Some None
        | Some fresh =>
            match fill (sub (bl_bytes old) 0 (Z.min (bl_size old) size)) fresh with
            | None => None
            | Some fresh => Some (Some fresh)
            end
        end
  end.

(** *** strtol *)

Definition is_blank (c : Z) : bool := (c =? 0x20) || (c =? 9) || (c =? 10) || (c =? 13).

Fixpoint skip_blanks (p : list Z) : list Z :=
  match p with
  | c :: rest => if is_blank c then skip_blanks rest else p
  | [] => []
  end.

(** The value of a digit in any base up to 36. *)
Definition digit_value (c : Z) : option Z :=
  if is_digit c then Some (c - 0x30)
  else if (0x61 <=? c) && (c <=? 0x7a) then Some (c - 0x61 + 10)
  else if (0x41 <=? c) && (c <=? 0x5a) then Some (c - 0x41 + 10)
  else None.

(** The value, whether there was a digit, and the rest of the string. *)
Fixpoint strtol_loop (p : list Z) (base value : Z) (digits : bool) : Z * bool * list Z :=
  match p with
  | c :: rest =>
      match digit_value c with
      | Some d => if base <=? d then (value, digits, p) else strtol_loop rest base (i32 (value * base + d)) true
      | None => (value, digits, p)
      end
  | [] => (value, digits, [])
  end.

(** The prefix of a number: the base and the rest. *)
Definition strtol_base (p : list Z) (base : Z) : Z * list Z :=
  match p with
  | c :: x :: rest =>
      if ((base =? 0) || (base =? 16)) && (c =? 0x30) && ((x =? 0x78) || (x =? 0x58)) then (16, rest)
      else if (base =? 0) && (c =? 0x30) then (8, x :: rest)
      else if base =? 0 then (10, p)
      else (base, p)
  | c :: [] => if (base =? 0) && (c =? 0x30) then (8, []) else if base =? 0 then (10, p) else (base, p)
  | [] => if base =? 0 then (10, p) else (base, p)
  end.

(** The value and what [*endptr] points to. *)
Definition amiga_strtol (nptr : list Z) (base : Z) : Z * list Z :=
  let p := skip_blanks nptr in
  let '(negative, p) :=
    match p with
    | c :: rest => if c =? 0x2d then (true, rest) else if c =? 0x2b then (false, rest) else (false, p)
    | [] => (false, p)
    end in
  let (base, p) := strtol_base p base in
  let '(value, digits, rest) := strtol_loop p base 0 false in
  (if negative then - value else value, if digits : bool then rest else nptr).

(** ** Formatted output *)

(** [sb] holds the text [full], of which [size - 1] bytes fit. *)
Definition holds (size : Z) (full : list Z) (sb : sbuf) : Prop :=
  let room := if 0 <? size then size - 1 else 0 in
  sb_out sb = take (Z.to_nat room) full /\ sb_left sb = Z.max 0 (room - zlen full) /\ sb_count sb = u32 (zlen full).

Lemma holds_putc size full c sb : 0 <= size -> holds size full sb -> holds size (full ++ [c]) (sb_putc c sb).
Proof.
  intros Hs (Ho & Hl & Hc). unfold holds, sb_putc. set (room := if 0 <? size then size - 1 else 0) in *.
  assert (Hroom : 0 <= room) by (unfold room; destruct (Z.ltb_spec 0 size); lia).
  assert (Ecount : u32 (sb_count sb + 1) = u32 (zlen (full ++ [c]))).
  { rewrite Hc, zlen_app. change (zlen [c]) with 1. unfold u32. by rewrite Zplus_mod_idemp_l. }
  rewrite Ecount, Ho, Hl, zlen_app. change (zlen [c]) with 1. unfold zlen in *.
  destruct (Z.ltb_spec 0 (Z.max 0 (room - Z.of_nat (length full)))); cbn; (split_and!; [| lia | done]).
  - rewrite !take_ge; [done | rewrite length_app; cbn; lia | lia].
  - by rewrite take_app_le by lia.
Qed.

Lemma holds_putcs size s : forall full sb, 0 <= size -> holds size full sb -> holds size (full ++ s) (sb_putcs s sb).
Proof.
  induction s as [| c s IH]; intros full sb Hs H; cbn [sb_putcs]; [by rewrite app_nil_r |].
  rewrite (app_assoc full [c] s : full ++ c :: s = _). by apply IH, holds_putc.
Qed.

Definition puts_text (s : option (list Z)) : list Z := match s with None => str "(null)" | Some s => s end.

Definition putu_text (v base : Z) (upper : bool) (width pad : Z) : list Z :=
  let tmp := if v =? 0 then [0x30] else putu_digits 24 v base upper in
  zrepeat pad (width - zlen tmp) ++ rev tmp.

Definition putd_text (v width pad : Z) : list Z :=
  if v <? 0 then 0x2d :: putu_text (u64 (u64 (- (v + 1)) + 1)) 10 false (if 0 <? width then width - 1 else 0) pad
  else putu_text (u64 v) 10 false width pad.

Lemma holds_putu size full v base upper width pad sb : 0 <= size -> holds size full sb ->
  holds size (full ++ putu_text v base upper width pad) (sb_putu v base upper width pad sb).
Proof. intros Hs H. unfold putu_text, sb_putu. rewrite app_assoc. by apply holds_putcs, holds_putcs. Qed.

Lemma holds_putd size full v width pad sb : 0 <= size -> holds size full sb ->
  holds size (full ++ putd_text v width pad) (sb_putd v width pad sb).
Proof.
  intros Hs H. unfold putd_text, sb_putd. destruct (v <? 0); [| by apply holds_putu].
  match goal with |- holds _ (_ ++ ?c :: ?t) _ => rewrite (app_assoc full [c] t : full ++ c :: t = _) end.
  by apply holds_putu, holds_putc.
Qed.

(** What a conversion adds to the text does not depend on the buffer. *)
Lemma convert_text c longs width pad ap :
  (forall sb, convert c longs width pad ap sb = None) \/
  exists ap' text, forall size full sb, 0 <= size -> holds size full sb ->
    exists sb', convert c longs width pad ap sb = Some (ap', sb') /\ holds size (full ++ text) sb'.
Proof.
  assert (Hsome : forall ap' text (f : sbuf -> sbuf),
    (forall size full sb, 0 <= size -> holds size full sb -> holds size (full ++ text) (f sb)) ->
    (forall sb, Some (ap', f sb) = @None (list va * sbuf)) \/
    exists ap'' text, forall size full sb, 0 <= size -> holds size full sb ->
      exists sb', Some (ap', f sb) = Some (ap'', sb') /\ holds size (full ++ text) sb').
  { intros ap' text f Hf. right. exists ap', text. intros size full sb Hs H. exists (f sb). auto. }
  unfold convert, va_number.
  destruct (c =? char "s"); [destruct ap as [| [| | s] ap]; try (by left) |].
  { apply (Hsome ap (puts_text s) (sb_puts s)). intros. by apply holds_putcs. }
  destruct (c =? char "c"); [destruct ap as [| [v | |] ap]; try (by left) |].
  { apply (Hsome ap [u8 v] (sb_putc (u8 v))). intros. by apply holds_putc. }
  destruct ((c =? char "d") || (c =? char "i")).
  { destruct ap as [| [v | v |] ap]; try (by left); destruct (2 <=? longs) eqn:E; try (by left);
      eapply Hsome; intros; by apply holds_putd. }
  destruct (c =? char "u").
  { destruct ap as [| [v | v |] ap]; try (by left); destruct (2 <=? longs) eqn:E; try (by left);
      eapply Hsome; intros; by apply holds_putu. }
  destruct ((c =? char "x") || (c =? char "X")).
  { destruct ap as [| [v | v |] ap]; try (by left); destruct (2 <=? longs) eqn:E; try (by left);
      eapply Hsome; intros; by apply holds_putu. }
  destruct (c =? char "p"); [destruct ap as [| [v | |] ap]; try (by left) |].
  { apply (Hsome ap (puts_text (Some (str "0x")) ++ putu_text (u32 v) 16 false 8 0x30)
             (fun sb => sb_putu (u32 v) 16 false 8 0x30 (sb_puts (Some (str "0x")) sb))).
    intros size full sb Hs H. rewrite app_assoc. by apply holds_putu, holds_putcs. }
  apply (Hsome ap [c] (sb_putc c)). intros. by apply holds_putc.
Qed.

Lemma vsnprintf_loop_text fuel : forall fmt ap,
  (forall sb, vsnprintf_loop fuel fmt ap sb = None) \/
  exists text, forall size full sb, 0 <= size -> holds size full sb ->
    exists sb', vsnprintf_loop fuel fmt ap sb = Some sb' /\ holds size (full ++ text) sb'.
Proof.
  assert (Hdone : forall (g : sbuf -> option sbuf), (forall sb, g sb = Some sb) -> (forall sb, g sb = None) \/
    exists text, forall size full sb, 0 <= size -> holds size full sb ->
      exists sb', g sb = Some sb' /\ holds size (full ++ text) sb').
  { intros g Hg. right. exists []. intros size full sb Hs H. exists sb. rewrite app_nil_r. auto. }
  induction fuel as [| fuel IH]; intros [| c fmt] ap; cbn [vsnprintf_loop]; try (by apply Hdone); [by left |].
  destruct (negb (c =? char "%")).
  - destruct (IH fmt ap) as [Hn | (text & Ht)]; [by left | right]. exists (c :: text). intros size full sb Hs H.
    rewrite (app_assoc full [c] text : full ++ c :: text = _). by apply Ht, holds_putc.
  - destruct (fmt_flags fmt 0x20) as [fmt1 pad]. destruct (fmt_width fmt1 0) as [fmt2 width].
    destruct (fmt_length (fmt_precision fmt2) 0) as [fmt3 longs]. destruct fmt3 as [| c' fmt3]; [by apply Hdone |].
    destruct (convert_text c' longs width pad ap) as [Hn | (ap' & text1 & H1)].
    { left. intros sb. by rewrite Hn. }
    destruct (IH fmt3 ap') as [Hn | (text2 & H2)].
    + left. intros sb. destruct (convert c' longs width pad ap sb) as [[ap'' sb'] |] eqn:E; [| done].
      (* the arguments that are left do not depend on the buffer *)
      assert (ap'' = ap') as ->; [| apply Hn].
      destruct (H1 1 [] (mk_sbuf [] 0 0)) as (sb0 & E0 & _); [lia | by split_and! |].
      clear - E E0. unfold convert, va_number in *. repeat case_match; by simplify_eq.
    + right. exists (text1 ++ text2). intros size full sb Hs H. destruct (H1 size full sb Hs H) as (sb1 & -> & Hh1).
      destruct (H2 size _ sb1 Hs Hh1) as (sb2 & -> & Hh2). exists sb2. by rewrite app_assoc.
Qed.

Lemma vsnprintf_text fmt ap :
  (forall size, exfat_amiga_vsnprintf size fmt ap = None) \/
  exists text, forall size, 0 <= size ->
    exfat_amiga_vsnprintf size fmt ap =
      Some (if 0 <? size then take (Z.to_nat (size - 1)) text ++ [0] else [], i32 (u32 (zlen text))).
Proof.
  unfold exfat_amiga_vsnprintf.
  destruct (vsnprintf_loop_text (length fmt) fmt ap) as [Hn | (text & Ht)]; [left; intros size; by rewrite Hn | right].
  exists text. intros size Hs. destruct (Ht size [] (mk_sbuf [] (if 0 <? size then size - 1 else 0) 0) Hs) as (sb & -> & Ho & _ & Hc).
  { unfold holds. cbn. rewrite take_nil. split_and!; [done | | done]. change (zlen []) with 0. destruct (Z.ltb_spec 0 size); lia. }
  cbn [app] in Ho, Hc. rewrite Ho, Hc. by destruct (0 <? size).
Qed.

(** C33: snprintf: for every format and arguments there is one text (or the call is
    undefined, whatever the buffer); of it, a buffer of [size] bytes gets the first
    [size - 1] and a null byte, and an empty buffer gets nothing; the result is the
    length of the whole text. *)
Theorem snprintf_contract fmt ap :
  (forall size, exfat_amiga_snprintf size fmt ap = None) \/
  exists text, forall size, 0 <= size ->
    exfat_amiga_snprintf size fmt ap =
      Some (if 0 <? size then take (Z.to_nat (size - 1)) text ++ [0] else [], i32 (u32 (zlen text))).
Proof. apply vsnprintf_text. Qed.

Example snprintf_hex : exfat_amiga_snprintf 32 (str "%s: %08lx %5ld%%") [VStr (Some (str "lba")); VLong 48879; VLong (-42)] =
  Some (str "lba: 0000beef -  42%" ++ [0], 20).
Proof. by vm_compute. Qed.

(** The digits are those of the number. *)
Lemma putu_digits_decimal n : forall v acc, 0 < v < 10 ^ Z.of_nat n -> forall fuel, (n <= fuel)%nat -> forall fuel', (n <= fuel')%nat ->
  rev (putu_digits fuel v 10 false) ++ acc = decimal_loop fuel' v acc.
Proof.
  induction n as [| n IH]; intros v acc Hv fuel Hf fuel' Hf'; [cbn in Hv; lia |].
  destruct fuel as [| fuel]; [lia |]. destruct fuel' as [| fuel']; [lia |]. cbn [putu_digits decimal_loop].
  rewrite (proj2 (Z.eqb_neq v 0)) by lia. cbn [rev]. rewrite <- app_assoc. cbn [app].
  assert (Ed : digit_char false (v mod 10) = 0x30 + v mod 10).
  { unfold digit_char. pose proof (Z.mod_pos_bound v 10 ltac:(lia)). by rewrite (proj2 (Z.ltb_lt _ _)) by lia. }
  rewrite Ed. destruct (Z.ltb_spec v 10) as [Hlt | Hge].
  - rewrite Z.div_small by lia. by destruct fuel.
  - apply IH; [| lia | lia]. replace (Z.of_nat (S n)) with (Z.of_nat n + 1) in Hv by lia.
    rewrite Z.pow_add_r in Hv by lia. split; [apply Z.div_str_pos; lia | apply Z.div_lt_upper_bound; lia].
Qed.

Lemma putu_text_decimal v : in_u 64 v -> putu_text v 10 false 0 0x20 = decimal v.
Proof.
  intros Hv. unfold in_u in Hv. unfold putu_text, decimal. rewrite (proj2 (Z.ltb_ge v 0)) by lia.
  destruct (Z.eqb_spec v 0) as [-> | Hne]; [done |].
  assert (Hz : forall l : list Z, zrepeat 0x20 (0 - zlen l) = []).
  { intros l. unfold zrepeat. pose proof (zlen_nonneg l). by replace (Z.to_nat (0 - zlen l)) with 0%nat by lia. }
  rewrite Hz. cbn [app]. rewrite <- (app_nil_r (rev _)). apply (putu_digits_decimal 20); [| lia | lia].
  split; [lia |]. apply Z.lt_trans with (2 ^ 64); [lia | done].
Qed.

(** ** Characters *)

Lemma cstr_byte_at pre b post : cstr_byte (pre ++ b :: post) (length pre) = Some b.
Proof.
  unfold cstr_byte. rewrite length_app. cbn [length].
  rewrite (proj2 (Nat.eqb_neq _ _)) by lia. by apply list_lookup_middle.
Qed.

Lemma cstr_byte_end s : cstr_byte s (length s) = Some 0.
Proof. unfold cstr_byte. by rewrite Nat.eqb_refl. Qed.

(** The same, a few bytes further on. *)
Lemma cstr_byte_1 pre a b post : cstr_byte (pre ++ a :: b :: post) (length pre + 1) = Some b.
Proof. rewrite (cons_middle a pre (b :: post)), app_assoc. replace (length pre + 1)%nat with (length (pre ++ [a])) by (rewrite length_app; done). apply cstr_byte_at. Qed.

Lemma cstr_byte_2 pre a b c post : cstr_byte (pre ++ a :: b :: c :: post) (length pre + 2) = Some c.
Proof.
  rewrite (cons_middle a pre (b :: c :: post)), app_assoc. replace (length pre + 2)%nat with (length (pre ++ [a]) + 1)%nat by (rewrite length_app; cbn; lia).
  apply cstr_byte_1.
Qed.

Lemma cstr_byte_3 pre a b c d post : cstr_byte (pre ++ a :: b :: c :: d :: post) (length pre + 3) = Some d.
Proof.
  rewrite (cons_middle a pre (b :: c :: d :: post)), app_assoc. replace (length pre + 3)%nat with (length (pre ++ [a]) + 2)%nat by (rewrite length_app; cbn; lia).
  apply cstr_byte_2.
Qed.

Lemma utf8_next_scalar pre c post : 0 <= c <= 0x10ffff ->
  utf8_next (pre ++ utf8_of c ++ post) (length pre) = Some (c, (length pre + length (utf8_of c))%nat).
Proof.
  intros Hc. unfold utf8_of, utf8_next.
  destruct (Z.leb_spec c 0x7f); [| destruct (Z.leb_spec c 0x7ff); [| destruct (Z.leb_spec c 0xffff)]]; cbn [app length].
  - rewrite cstr_byte_at. rewrite (proj2 (Z.ltb_lt c 0x80)) by lia. f_equal. f_equal. lia.
  - assert (H1 : 0 <= c / 64 < 32) by (to_equations; lia). assert (H2 : 0 <= c mod 64 < 64) by (to_equations; lia).
    rewrite cstr_byte_at, cstr_byte_1.
    rewrite (proj2 (Z.ltb_ge _ 0x80)) by lia. rewrite mask_e0 by lia. zdec. cbn [andb].
    rewrite low_1f, low_3f by lia. rewrite lor_shift_add by lia. f_equal. f_equal. change (2 ^ 6) with 64. to_equations; lia.
  - assert (H2 : 0 <= c / 4096 < 16) by (to_equations; lia). assert (H3 : 0 <= c / 64 mod 64 < 64) by (to_equations; lia).
    assert (H4 : 0 <= c mod 64 < 64) by (to_equations; lia).
    rewrite cstr_byte_at, cstr_byte_1, cstr_byte_2.
    rewrite (proj2 (Z.ltb_ge _ 0x80)) by lia. rewrite mask_e0, mask_f0 by lia. zdec. cbn [andb].
    rewrite low_0f, !low_3f by lia. rewrite <- Z.lor_assoc, (lor_shift_add (c / 64 mod 64)) by lia.
    rewrite lor_shift_add by lia. f_equal. f_equal. change (2 ^ 6) with 64. change (2 ^ 12) with 4096. to_equations; lia.
  - assert (H2 : 0 <= c / 262144 < 8) by (to_equations; lia). assert (H3 : 0 <= c / 4096 mod 64 < 64) by (to_equations; lia).
    assert (H4 : 0 <= c / 64 mod 64 < 64) by (to_equations; lia). assert (H5 : 0 <= c mod 64 < 64) by (to_equations; lia).
    rewrite cstr_byte_at, cstr_byte_1, cstr_byte_2, cstr_byte_3.
    rewrite (proj2 (Z.ltb_ge _ 0x80)) by lia. rewrite mask_e0, mask_f0, mask_f8 by lia. zdec. cbn [andb].
    rewrite low_07, !low_3f by lia. rewrite <- !Z.lor_assoc, (lor_shift_add (c / 64 mod 64)), (lor_shift_add (c / 4096 mod 64)) by lia.
    rewrite lor_shift_add by lia. f_equal. f_equal. change (2 ^ 6) with 64. change (2 ^ 12) with 4096. change (2 ^ 18) with 262144.
    to_equations; lia.
Qed.

Lemma utf8_of_head c : 0 < c -> exists b tl, utf8_of c = b :: tl /\ b <> 0.
Proof.
  intros Hc. unfold utf8_of. destruct (Z.leb_spec c 0x7f); [| destruct (Z.leb_spec c 0x7ff); [| destruct (Z.leb_spec c 0xffff)]];
    do 2 eexists; (split; [done |]); to_equations; lia.
Qed.

(** The character that AmigaOS shows for a code point. *)
Definition shown (c : Z) : Z := if c <? 0x100 then c else EXFAT_AMIGA_SUBST.

Lemma name_to_bstr_loop_scalars cs : forall room pre chars, Forall code_point cs ->
  name_to_bstr_loop room (pre ++ name_bytes cs) (length pre) chars = Some (chars ++ map shown (take room cs)).
Proof.
  induction cs as [| c cs IH]; intros room pre chars Hcs.
  - change (name_bytes []) with (@nil Z). rewrite app_nil_r, take_nil. cbn [map]. rewrite app_nil_r.
    destruct room; cbn [name_to_bstr_loop]; by rewrite cstr_byte_end.
  - apply Forall_cons in Hcs as [[Hc Hs] Hcs]. rewrite name_bytes_cons.
    destruct (utf8_of_head c ltac:(lia)) as (b & tl & Eb & Hb).
    assert (Ehead : cstr_byte (pre ++ utf8_of c ++ name_bytes cs) (length pre) = Some b).
    { rewrite Eb. apply cstr_byte_at. }
    destruct room as [| room]; cbn [name_to_bstr_loop]; rewrite Ehead, (proj2 (Z.eqb_neq b 0)) by done.
    + cbn [take map]. by rewrite app_nil_r.
    + rewrite utf8_next_scalar by lia. rewrite <- length_app, app_assoc, IH by done. cbn [take map]. by rewrite <- app_assoc.
Qed.

(** A well-formed UTF-8 string becomes the BSTR of its first [maxlen] code points, those
    above 255 as a question mark; nothing behind the null byte of the string is read. *)
Theorem name_to_bstr_shows cs maxlen (Hcs : Forall code_point cs) (Hm : 0 <= maxlen <= 255) :
  exfat_amiga_name_to_bstr (name_bytes cs) maxlen =
    let chars := map shown (take (Z.to_nat maxlen) cs) in
    Some (zlen chars :: chars ++ if zlen chars <? maxlen then [0] else []).
Proof.
  pose proof (name_to_bstr_loop_scalars cs (Z.to_nat maxlen) [] [] Hcs) as E. cbn [app length] in E.
  unfold exfat_amiga_name_to_bstr. rewrite E. cbv zeta. rewrite u8_small; [done |]. unfold in_u, zlen. rewrite length_map, length_take. lia.
Qed.

Lemma name_to_bstr_shows_witness :
  exfat_amiga_name_to_bstr (name_bytes [0x41; 0xe9; 0x20ac]) 106 = Some [3; 0x41; 0xe9; 0x3f; 0].
Proof. apply (name_to_bstr_shows [0x41; 0xe9; 0x20ac] 106); [repeat constructor; lia | lia]. Defined.

Lemma latin1_utf8_of c : 0 < c < 256 -> latin1_utf8 c = utf8_of c.
Proof.
  intros Hc. unfold latin1_utf8, utf8_of. destruct (Z.ltb_spec c 0x80), (Z.leb_spec c 0x7f); try lia; [done |].
  rewrite (proj2 (Z.leb_le c 0x7ff)) by lia. rewrite land_3f. change 0x3f with (2 ^ 6 - 1).
  rewrite Z.shiftr_div_pow2 by lia. change (2 ^ 6) with 64.
  rewrite lor_head_c0, lor_tail_80 by (to_equations; lia). done.
Qed.

Lemma latin1_loop_whole chars : forall acc maxlen, zlen acc + 2 * zlen chars <= maxlen - 2 ->
  latin1_loop chars acc maxlen = acc ++ (chars ≫= latin1_utf8).
Proof.
  induction chars as [| c chars IH]; intros acc maxlen Hl; cbn [latin1_loop].
  - by rewrite app_nil_r.
  - rewrite zlen_cons in Hl. pose proof (zlen_nonneg chars). rewrite (proj2 (Z.ltb_lt _ _)) by lia.
    assert (zlen (latin1_utf8 c) <= 2) by (unfold latin1_utf8; destruct (c <? 0x80); unfold zlen; cbn; lia).
    rewrite IH by (rewrite zlen_app; lia). by rewrite <- app_assoc.
Qed.

(** The loop stores at most [maxlen - 1] bytes. *)
Lemma latin1_loop_bound src : forall acc maxlen, zlen acc <= maxlen - 1 -> zlen (latin1_loop src acc maxlen) <= maxlen - 1.
Proof.
  induction src as [| c src IH]; intros acc maxlen Ha; cbn [latin1_loop]; [done |].
  destruct (Z.ltb_spec (zlen acc) (maxlen - 3)); [| done]. apply IH. rewrite zlen_app.
  unfold latin1_utf8. destruct (c <? 0x80); unfold zlen in *; cbn; lia.
Qed.

Lemma bstr_to_utf8_bound bstr maxlen : 1 <= maxlen -> zlen (exfat_amiga_bstr_to_utf8 bstr maxlen) <= maxlen.
Proof.
  intros Hm. unfold exfat_amiga_bstr_to_utf8. rewrite zlen_app.
  pose proof (latin1_loop_bound (sub bstr 1 (znth bstr 0)) [] maxlen ltac:(rewrite zlen_nil; lia)).
  change (zlen [0]) with 1. lia.
Qed.

(** A name of Latin-1 characters survives the way to a program and back: what
    EXAMINE shows for the UTF-8 form of the name, a program hands back, and the UTF-8
    form that is looked up is the same. *)
Theorem latin1_name_roundtrip chars maxlen
  (Hc : Forall (fun c => 0 < c < 256) chars) (Hl : zlen chars < maxlen <= 255) :
  exists bstr, exfat_amiga_name_to_bstr (name_bytes chars) maxlen = Some bstr /\
    exfat_amiga_bstr_to_utf8 bstr 1024 = name_bytes chars ++ [0].
Proof.
  pose proof (zlen_nonneg chars) as Hn. assert (Hs : Forall code_point chars).
  { eapply Forall_impl; [exact Hc |]. intros c Hc'. cbn beta in Hc'. unfold code_point. lia. }
  assert (Hshow : map shown chars = chars).
  { rewrite <- (map_id chars) at 2. apply map_ext_Forall. eapply Forall_impl; [exact Hc |].
    intros c Hc'. cbn beta in Hc'. unfold shown. by rewrite (proj2 (Z.ltb_lt _ _)) by lia. }
  assert (Hbytes : chars ≫= latin1_utf8 = name_bytes chars).
  { clear - Hc. induction Hc as [| c chars Hc _ IH]; [done |]. rewrite bind_cons, IH, latin1_utf8_of by lia. done. }
  eexists. rewrite name_to_bstr_shows by (done || lia). cbv zeta.
  rewrite (take_ge chars) by (unfold zlen in *; lia). rewrite Hshow. split; [reflexivity |].
  unfold exfat_amiga_bstr_to_utf8. change (znth (zlen chars :: ?l) 0) with (zlen chars).
  assert (E : forall tl, sub (zlen chars :: chars ++ tl) 1 (zlen chars) = chars).
  { intros tl. unfold sub, zlen. rewrite Nat2Z.id. change (drop (Z.to_nat 1) (?a :: ?l)) with l. by rewrite take_app_length. }
  rewrite E, latin1_loop_whole by (rewrite zlen_nil; lia). cbn [app]. by rewrite Hbytes.
Qed.

Lemma latin1_name_roundtrip_witness : exists bstr,
  exfat_amiga_name_to_bstr (name_bytes [0x41; 0xe9]) 106 = Some bstr /\
  exfat_amiga_bstr_to_utf8 bstr 1024 = name_bytes [0x41; 0xe9] ++ [0].
Proof. apply (latin1_name_roundtrip [0x41; 0xe9] 106); [repeat constructor; lia | by vm_compute]. Defined.

(** ** Time *)

Lemma i32_small x : - 2 ^ 31 <= x < 2 ^ 31 -> i32 x = x.
Proof. intros Hx. unfold i32, to_signed. rewrite Z.mod_small; lia. Qed.

(** From 1978 to 2038 a time survives the conversion to a DateStamp and back. *)
Lemma datestamp_roundtrip t : DAYS_1970_TO_1978 * SECS_PER_DAY <= t < 2 ^ 31 ->
  exfat_amiga_datestamp_to_time (exfat_amiga_time_to_datestamp t) = t.
Proof.
  unfold DAYS_1970_TO_1978, SECS_PER_DAY. intros Ht. unfold exfat_amiga_time_to_datestamp, SECS_PER_DAY, DAYS_1970_TO_1978, TICKS_PER_SECOND.
  rewrite i32_small by lia. rewrite (proj2 (Z.ltb_ge t 0)) by lia.
  set (d := t / (24 * 60 * 60)). assert (Hd : 2922 <= d <= 24855) by (unfold d; to_equations; lia).
  rewrite (proj2 (Z.ltb_ge (d - 2922) 0)) by lia.
  assert (Hr : 0 <= t - d * (24 * 60 * 60) < 86400) by (unfold d; to_equations; lia). set (s := t - d * (24 * 60 * 60)) in *.
  unfold exfat_amiga_datestamp_to_time, SECS_PER_DAY, DAYS_1970_TO_1978, TICKS_PER_SECOND. cbn [ds_Days ds_Minute ds_Tick].
  rewrite (proj2 (Z.ltb_ge (d - 2922) 0)) by lia. rewrite Z.quot_mul by lia.
  assert (Es : s / 60 * 60 + s mod 60 = s) by (to_equations; lia). rewrite Es, (i32_small s) by lia.
  unfold s. rewrite i32_small; lia.
Qed.

(** Every DateStamp of the range is valid: minutes of a day and ticks of a minute. *)
Lemma time_to_datestamp_valid t :
  let ds := exfat_amiga_time_to_datestamp t in
  0 <= ds_Days ds /\ 0 <= ds_Minute ds < 1440 /\ 0 <= ds_Tick ds < 60 * TICKS_PER_SECOND.
Proof.
  unfold exfat_amiga_time_to_datestamp, TICKS_PER_SECOND, SECS_PER_DAY, DAYS_1970_TO_1978.
  set (secs := if i32 t <? 0 then 0 else i32 t). assert (Hs : 0 <= secs) by (unfold secs; destruct (Z.ltb_spec (i32 t) 0); lia).
  set (d := secs / (24 * 60 * 60)). assert (Hr : 0 <= secs - d * (24 * 60 * 60) < 86400) by (unfold d; to_equations; lia).
  destruct (Z.ltb_spec (d - 2922) 0); cbn [ds_Days ds_Minute ds_Tick]; [split_and!; (lia || done) |].
  set (s := secs - d * (24 * 60 * 60)) in *. split_and!; to_equations; lia.
Qed.

(** A file dated after January 2038 gets a time before 1970. *)
Lemma datestamp_2038 : exfat_amiga_datestamp_to_time (mk_DateStamp 22000 0 0) = - 2141706496.
Proof. by vm_compute. Qed.

(** ** The allocator *)

(** AllocVec() gives as many bytes as it was asked for. *)
Definition vec_law (vec : Z -> option (list Z)) : Prop := forall n bytes, vec n = Some bytes -> zlen bytes = n.

(** A block has the room that was asked for, unless the size with the header passes 4 GB. *)
Lemma malloc_room vec size b : vec_law vec -> 0 <= size < 2 ^ 32 - ALLOC_HDR -> amiga_malloc vec size = Some b ->
  bl_size b = Z.max 1 size /\ zlen (bl_bytes b) = Z.max 1 size.
Proof.
  intros Hv Hs. unfold amiga_malloc, ALLOC_HDR in *. set (n := if size =? 0 then 1 else size).
  assert (Hn : n = Z.max 1 size) by (unfold n; destruct (Z.eqb_spec size 0); lia).
  rewrite u32_small by (unfold in_u; lia). destruct (vec (n + 8)) as [bytes |] eqn:E; [| done].
  intros [= <-]. cbn. apply Hv in E. split; [done |]. unfold zlen in *. rewrite length_drop. lia.
Qed.

(** realloc keeps the bytes of the old block that fit, and stays inside both blocks. *)
Lemma realloc_keeps vec old size : vec_law vec -> 0 < size < 2 ^ 32 - ALLOC_HDR -> 0 <= bl_size old <= zlen (bl_bytes old) ->
  exists r, amiga_realloc vec (Some old) size = Some r /\
    match r with
    | None => vec (size + ALLOC_HDR) = None
    | Some b => bl_size b = size /\ zlen (bl_bytes b) = size /\
        take (Z.to_nat (Z.min (bl_size old) size)) (bl_bytes b) = take (Z.to_nat (Z.min (bl_size old) size)) (bl_bytes old)
    end.
Proof.
  intros Hv Hs Ho. unfold amiga_realloc. rewrite (proj2 (Z.eqb_neq size 0)) by lia.
  destruct (amiga_malloc vec size) as [b |] eqn:E.
  2: { exists None. split; [done |]. unfold amiga_malloc, ALLOC_HDR in *. rewrite (proj2 (Z.eqb_neq size 0)) in E by lia.
       rewrite u32_small in E by (unfold in_u; lia). by destruct (vec (size + 8)). }
  destruct (malloc_room vec size b Hv ltac:(unfold ALLOC_HDR in *; lia) E) as [E1 E2]. rewrite Z.max_r in E1, E2 by lia.
  set (m := Z.min (bl_size old) size) in *. assert (Hm : zlen (sub (bl_bytes old) 0 m) = m) by (apply zlen_sub; lia).
  unfold fill. rewrite Hm, (proj2 (Z.ltb_ge _ _)) by lia. eexists. split; [done |]. cbn. rewrite E1. split; [done |].
  split; [rewrite zlen_splice by lia; done |]. unfold splice, sub. rewrite drop_0. cbn [app].
  change (Z.to_nat 0) with 0%nat. rewrite take_0. cbn [app]. rewrite take_app_le; [by rewrite take_take, Nat.min_id |].
  unfold zlen, sub in *. rewrite length_take in *. rewrite drop_0 in *. lia.
Qed.

(** calloc multiplies in 32 bits: a call for 65536 elements of 65537 bytes succeeds with
    a block of 64 KB. *)
Theorem calloc_product_wraps vec bytes (Hv : vec_law vec) (Ha : vec (0x10000 + ALLOC_HDR) = Some bytes) :
  exists b, amiga_calloc vec 0x10000 0x10001 = Some (Some b) /\ zlen (bl_bytes b) = 0x10000.
Proof.
  unfold amiga_calloc. change (u32 (0x10000 * 0x10001)) with 0x10000.
  destruct (amiga_malloc vec 0x10000) as [b |] eqn:E.
  - destruct (malloc_room vec 0x10000 b Hv ltac:(unfold ALLOC_HDR; lia) E) as [_ E2]. change (Z.max 1 0x10000) with 0x10000 in E2.
    unfold fill. rewrite zlen_zrepeat, E2 by lia. rewrite (proj2 (Z.ltb_ge _ _)) by lia. eexists. split; [done |]. cbn [bl_bytes].
    rewrite zlen_splice; [done | lia | rewrite zlen_zrepeat by lia; lia].
  - unfold amiga_malloc in E. change (vec (u32 ((if 0x10000 =? 0 then 1 else 0x10000) + ALLOC_HDR))) with (vec (0x10000 + ALLOC_HDR)) in E.
    by rewrite Ha in E.
Qed.


(** Memory that is as large as it was asked for. *)
Definition demo_vec (n : Z) : option (list Z) := if n <? 0 then None else Some (zrepeat 0xa5 n).

Lemma demo_vec_law : vec_law demo_vec.
Proof.
  intros n bytes. unfold demo_vec. destruct (Z.ltb_spec n 0); [done |]. intros [= <-]. by apply zlen_zrepeat.
Qed.

Lemma calloc_product_wraps_witness :
  exists b, amiga_calloc demo_vec 0x10000 0x10001 = Some (Some b) /\ zlen (bl_bytes b) = 0x10000.
Proof. by eapply calloc_product_wraps; [exact demo_vec_law |]. Defined.

(** ** strtol *)

Lemma digits_grow base : 1 <= base <= 10 -> forall p a, 0 <= a -> a <= Mount.digits base a p.
Proof.
  intros Hb. induction p as [| x p IH]; intros a Ha; cbn [Mount.digits]; [lia |].
  destruct (Z.leb_spec 0x30 x), (Z.ltb_spec x (0x30 + base)); cbn [andb]; try lia.
  etrans; [| apply IH; nia]. nia.
Qed.

(** A character that is no digit of a base of at most ten. *)
Lemma no_digit base c : 1 <= base <= 10 -> (0x30 <=? c) && (c <? 0x30 + base) = false ->
  match digit_value c with Some d => base <= d | None => True end.
Proof.
  intros Hb E. unfold digit_value, is_digit.
  destruct (Z.leb_spec 0x30 c), (Z.ltb_spec c (0x30 + base)), (Z.leb_spec c 0x39), (Z.leb_spec 0x61 c), (Z.leb_spec c 0x7a),
    (Z.leb_spec 0x41 c), (Z.leb_spec c 0x5a); cbn [andb] in *; done || lia.
Qed.

Lemma strtol_loop_digits base : 1 <= base <= 10 -> forall p value digits, 0 <= value ->
  Mount.digits base value p < 2 ^ 31 ->
  (strtol_loop p base value digits).1.1 = Mount.digits base value p.
Proof.
  intros Hb. induction p as [| c p IH]; intros value digits Hv Hlt; cbn [strtol_loop Mount.digits] in *; [done |].
  destruct ((0x30 <=? c) && (c <? 0x30 + base)) eqn:E.
  - apply andb_true_iff in E as [E1%Z.leb_le E2%Z.ltb_lt]. unfold digit_value, is_digit.
    rewrite (proj2 (Z.leb_le 0x30 c)), (proj2 (Z.leb_le c 0x39)) by lia. cbn [andb].
    rewrite (proj2 (Z.leb_gt base (c - 0x30))) by lia.
    assert (Hn : 0 <= value * base + (c - 0x30)) by nia. pose proof (digits_grow base Hb p _ Hn).
    rewrite i32_small by lia. by apply IH.
  - pose proof (no_digit base c Hb E) as Hd. destruct (digit_value c) as [d |]; [| done].
    by rewrite (proj2 (Z.leb_le base d)).
Qed.

Lemma skip_same p : (forall c, c ∈ p -> c <> 11 /\ c <> 12) -> skip_blanks p = Mount.skip_spaces p.
Proof.
  induction p as [| c p IH]; intros Hp; cbn [skip_blanks Mount.skip_spaces]; [done |].
  assert (E : is_blank c = Mount.is_space c).
  { destruct (Hp c ltac:(by left)) as [H1 H2]. unfold is_blank, Mount.is_space.
    destruct (Z.eqb_spec c 0x20), (Z.eqb_spec c 9), (Z.eqb_spec c 10), (Z.eqb_spec c 13), (Z.leb_spec 9 c), (Z.leb_spec c 13);
      cbn; done || lia. }
  rewrite E. destruct (Mount.is_space c); [| done]. apply IH. intros x Hx. apply Hp. by right.
Qed.

Lemma strtol_base_fixed p base : base <> 0 -> base <> 16 -> strtol_base p base = (base, p).
Proof.
  intros H1 H2. unfold strtol_base. rewrite (proj2 (Z.eqb_neq base 0)), (proj2 (Z.eqb_neq base 16)) by done.
  by destruct p as [| c [| x p]].
Qed.

(** strtol reads the numbers of mount options as the one of the C library does: in a
    base of at most ten, without vertical tabs and form feeds, and below 2^31. *)
Theorem strtol_agrees p base (Hb : 1 <= base <= 10) (Hp : forall c, c ∈ p -> c <> 11 /\ c <> 12)
  (Hv : Z.abs (Mount.strtol p base) < 2 ^ 31) :
  (amiga_strtol p base).1 = Mount.strtol p base.
Proof.
  unfold amiga_strtol, Mount.strtol in *. rewrite skip_same by done. set (q := Mount.skip_spaces p) in *.
  assert (Hread : forall r, Mount.digits base 0 r < 2 ^ 31 ->
    (let (base, r) := strtol_base r base in let '(value, _, _) := strtol_loop r base 0 false in value) = Mount.digits base 0 r).
  { intros r Hr. rewrite strtol_base_fixed by lia. rewrite <- (strtol_loop_digits base Hb r 0 false) by lia.
    by destruct (strtol_loop r base 0 false) as [[? ?] ?]. }
  assert (Hpos : forall r, 0 <= Mount.digits base 0 r) by (intros r; by apply digits_grow).
  assert (Hgo : forall (neg : bool) r, Z.abs (Z.max (- 2 ^ 63) (Z.min (2 ^ 63 - 1) (if neg then - Mount.digits base 0 r else Mount.digits base 0 r))) < 2 ^ 31 ->
    (let (base, r) := strtol_base r base in
     let '(value, digits, rest) := strtol_loop r base 0 false in
     (if neg then - value else value, if digits : bool then rest else p)).1 =
    Z.max (- 2 ^ 63) (Z.min (2 ^ 63 - 1) (if neg then - Mount.digits base 0 r else Mount.digits base 0 r))).
  { intros neg r Hr. specialize (Hpos r). assert (Hlt : Mount.digits base 0 r < 2 ^ 31) by (destruct neg; lia).
    specialize (Hread r Hlt). destruct (strtol_base r base) as [b r']. destruct (strtol_loop r' b 0 false) as [[value d] rest].
    cbn [fst]. rewrite Hread. destruct neg; lia. }
  destruct q as [| c q']; [by apply (Hgo false []) |].
  destruct (c =? 0x2d); [by apply (Hgo true) |]. destruct (c =? 0x2b); by apply (Hgo false).
Qed.

Lemma strtol_agrees_witness : (amiga_strtol (str " -755,x") 8).1 = Mount.strtol (str " -755,x") 8.
Proof.
  apply strtol_agrees; [lia | | by vm_compute].
  intros c Hc. assert (Hall : Forall (fun c => c <> 11 /\ c <> 12) (str " -755,x")) by (repeat constructor; done).
  rewrite Forall_forall in Hall. by apply Hall.
Defined.

(** In base 0 the number "0" is taken for a prefix: no digit is left, and [*endptr] is the
    start of the string, as if there was no number. *)
Lemma strtol_zero : amiga_strtol (str "0") 0 = (0, str "0").
Proof. by vm_compute. Qed.
