(* ===== verification/Log.v ===== *)
(** * Log: the messages (libexfat/log.c)

    Everywhere else a message is its effect on the control flow and on the count of
    errors ([exfat_bug] of Monad.v, [exfat_error] of State.v).  Here it is what is
    written, on POSIX systems to stderr and to syslog, on AmigaOS to the debug channel
    through a buffer of fixed size.  What vfprintf() makes of a format and its arguments
    is the argument [render]; on AmigaOS it is [exfat_amiga_vsnprintf]. *)

From Stdlib Require Import ZArith Lia.
From stdpp Require Import base numbers list gmap strings.
From S2P Require Import Prelude Bytes Monad State Utils Amigaos.

#[local] Open Scope Z_scope.

(** ** Definitions *)

Inductive priority : Type := LOG_CRIT | LOG_ERR | LOG_WARNING | LOG_DEBUG.

(** What a message does: flush stdout, write to stderr, or send to syslog. *)
Inductive log_effect : Type :=
| FlushStdout
| PutStderr (text : list Z)
| SysLog (p : priority) (text : list Z).

Record logger : Type := mk_logger {
  lg_trace : list log_effect;
  lg_isatty : bool;
  lg_errors : Z
}.

Definition put (es : list log_effect) : M logger unit :=
  modify (fun l => mk_logger (lg_trace l ++ es) (lg_isatty l) (lg_errors l)).

Section Posix.
Context (render : list Z -> list va -> list Z).

(** The part that the four functions share. *)
Definition message (prefix : list Z) (p : priority) (format : list Z) (ap : list va) : M logger unit :=
  put [FlushStdout; PutStderr prefix; PutStderr (render format ap); PutStderr (str "." ++ [10])];;
  let! l := get_state in
  when (negb (lg_isatty l)) (put [SysLog p (render format ap)]).

(** [exfat_errors++] *)
Definition exfat_errors_bump : M logger unit :=
  modify (fun l => mk_logger (lg_trace l) (lg_isatty l) (lg_errors l + 1)).

Definition exfat_bug {A} (format : list Z) (ap : list va) : M logger A :=
  message (str "BUG: ") LOG_CRIT format ap;;
  Monad.exfat_bug.

Definition exfat_error (format : list Z) (ap : list va) : M logger unit :=
  exfat_errors_bump;;
  message (str "ERROR: ") LOG_ERR format ap.

Definition exfat_warn (format : list Z) (ap : list va) : M logger unit :=
  message (str "WARN: ") LOG_WARNING format ap.

Definition exfat_debug (format : list Z) (ap : list va) : M logger unit :=
  message (str "DEBUG: ") LOG_DEBUG format ap.
End Posix.

(** *** AmigaOS *)

Definition EXFAT_LOGBUF_SIZE : Z := 512.

(** The bytes of the buffer; [None] where the format and the arguments do not fit. *)
Definition exfat_render (format : list Z) (ap : list va) : option (list Z) :=
  option_map fst (exfat_amiga_vsnprintf EXFAT_LOGBUF_SIZE format ap).

(** The channels of the debug facility. *)
Inductive debug_effect : Type :=
| Debug_Error (text : list Z)
| Debug_Warn (text : list Z)
| Debug_Info (text : list Z).

Definition debug (channel : list Z -> debug_effect) (prefix format : list Z) (ap : list va) : M (list debug_effect) unit :=
  match exfat_render format ap with
  | None => fun t => Halt OutOfBounds t
  | Some buf => modify (fun t => t ++ [channel (prefix ++ c_string buf)])
  end.

(** The process waits for ever. *)
Definition amiga_exfat_bug {A} (format : list Z) (ap : list va) : M (list debug_effect) A :=
  debug Debug_Error (str "BUG: ") format ap;;
  Monad.exfat_bug.
Definition amiga_exfat_error (format : list Z) (ap : list va) : M (list debug_effect) unit := debug Debug_Error [] format ap.
Definition amiga_exfat_warn (format : list Z) (ap : list va) : M (list debug_effect) unit := debug Debug_Warn [] format ap.
Definition amiga_exfat_debug (format : list Z) (ap : list va) : M (list debug_effect) unit := debug Debug_Info [] format ap.

(** ** Facts *)

(** The messages of AmigaOS fit their buffer, whatever their text, and end in it. *)
Lemma exfat_render_fits format ap buf : exfat_render format ap = Some buf ->
  exists text, buf = take 511 text ++ [0] /\ zlen buf <= EXFAT_LOGBUF_SIZE.
Proof.
  unfold exfat_render. destruct (vsnprintf_text format ap) as [Hn | (text & Ht)]; [by rewrite Hn |].
  rewrite (Ht EXFAT_LOGBUF_SIZE) by done. intros [= <-]. exists text. split; [done |].
  unfold zlen, EXFAT_LOGBUF_SIZE. rewrite length_app, length_take. cbn. lia.
Qed.

(** An error is counted once, as [State.exfat_error] has it, and shown once, after what
    was printed before it. *)
Lemma exfat_error_counts render format ap l :
  wp (exfat_error render format ap) (fun _ l' => lg_errors l' = lg_errors l + 1 /\
    exists rest, lg_trace l' = lg_trace l ++ FlushStdout :: PutStderr (str "ERROR: ") :: rest) l.
Proof.
  unfold wp, exfat_error, exfat_errors_bump, message, bind, put, modify, when, get_state, ret. cbn -[str].
  destruct (lg_isatty l); cbn -[str]; (split; [done |]); [by eexists |]. eexists. by rewrite <- app_assoc.
Qed.

(** exfat_bug writes its message and does not return. *)
Lemma exfat_bug_halts {A} render format ap l : exists l', exfat_bug (A := A) render format ap l = Halt ExfatBug l' /\
  exists rest, lg_trace l' = lg_trace l ++ FlushStdout :: PutStderr (str "BUG: ") :: rest.
Proof.
  unfold exfat_bug, message, bind, put, modify, when, get_state, ret. cbn -[str].
  destruct (lg_isatty l); cbn -[str]; eexists; (split; [done |]); cbn -[str]; [by eexists |]. eexists. by rewrite <- app_assoc.
Qed.
