(* ===== verification/Mkfs.v ===== *)
(** * Mkfs: creating a file system (mkfs/*.c)

    The volume consists of six objects, one behind the other: the boot record twice,
    the FAT, the bitmap of clusters, the up-case table and the root directory.
    [get_position] adds up their sizes; [mkfs] erases them and writes them with the
    sequential calls of libexfat/io.c.  The parameters of the volume are an argument
    where the code has the variable [param]. *)

From Stdlib Require Import ZArith Lia.
From stdpp Require Import base numbers list.
From S2P Require Import Prelude Bytes Monad Ondisk State Checksum Utf Bitmap Utils Uctc.

#[local] Open Scope Z_scope.

(** ** Definitions *)

(** *** The sequential calls of io.c *)

(** An open file: the device and the offset of the descriptor. *)
Record file_state : Type := mk_file_state {
  f_env : env;
  f_pos : Z
}.

Definition set_f_env (e : env) (s : file_state) : file_state := mk_file_state e (f_pos s).
Definition set_f_pos (p : Z) (s : file_state) : file_state := mk_file_state (f_env s) p.

#[global] Instance part_file : Part file_state env.
Proof. refine {| part := f_env; set_part := set_f_env |}; done || by intros []. Defined.

(** [lseek] with SEEK_SET: the new offset, or -1. *)
Definition exfat_seek (offset : Z) : M file_state Z :=
  if offset <? 0 then ret (-1) else modify (set_f_pos offset);; ret offset.

(** [None] stands for a negative result. *)
Definition exfat_read (size : Z) : M file_state (option (list Z)) :=
  let! s := get_state in
  let! r := on_part (exfat_pread size (f_pos s)) in
  match r with
  | Some bytes => modify (set_f_pos (f_pos s + zlen bytes));; ret (Some bytes)
  | None => ret None
  end.

Definition exfat_write (data : list Z) : M file_state bool :=
  let! s := get_state in
  let! ok := on_part (exfat_pwrite data (f_pos s)) in
  when ok (modify (set_f_pos (f_pos s + zlen data)));;
  ret ok.

(** *** The parameters (main.c) *)

Record param : Type := mk_param {
  p_sector_bits : Z;
  p_spc_bits : Z;
  p_volume_size : Z;
  p_volume_label : list Z;
  p_volume_serial : Z;
  p_first_sector : Z
}.

Definition get_sector_size (p : param) : Z := Z.shiftl 1 (p_sector_bits p).
Definition get_cluster_size (p : param) : Z := Z.shiftl (get_sector_size p) (p_spc_bits p).

Definition spc_for (sector_bits bits : Z) : Z := Z.max 0 (bits - sector_bits).

(** The last loop of [setup_spc_bits]; [1 << i] is an [int]. *)
Fixpoint spc_loop (fuel : nat) (sector_bits volume_size i : Z) : option Z :=
  match fuel with
  | O => None
  | S fuel =>
      if DIV_ROUND_UP volume_size (Z.shiftl 1 i) <=? EXFAT_LAST_DATA_CLUSTER then Some (spc_for sector_bits i)
      else spc_loop fuel sector_bits volume_size (i + 1)
  end.

(** [user_defined] is -1 when the user asks for nothing; [Some (-1)] is the error, and
    [None] a volume of more than [2 ^ 62] bytes, for which the loop does not end. *)
Definition setup_spc_bits (sector_bits user_defined volume_size : Z) : option Z :=
  if negb (user_defined =? -1) then
    let cluster_size := Z.shiftl (Z.shiftl 1 sector_bits) user_defined in
    if EXFAT_LAST_DATA_CLUSTER <? volume_size / cluster_size then Some (-1) else Some user_defined
  else if volume_size <? 256 * 1024 * 1024 then Some (spc_for sector_bits 12)
  else if volume_size <? 32 * 1024 * 1024 * 1024 then Some (spc_for sector_bits 15)
  else spc_loop 14 sector_bits volume_size 17.

(** [None] is a null pointer. *)
Definition setup_volume_label (s : option (list Z)) : Z * list Z :=
  let label := zrepeat 0 (EXFAT_ENAME_MAX + 1) in
  match s with
  | None => (0, label)
  | Some s =>
      let (rc, units) := exfat_utf8_to_utf16 s (EXFAT_ENAME_MAX + 1) (zlen s) in
      (rc, splice label 0 units)
  end.

(** [now] is what [gettimeofday] returns: seconds and microseconds, or an error. *)
Definition setup_volume_serial (now : option (Z * Z)) (user_defined : Z) : Z :=
  if negb (user_defined =? 0) then user_defined
  else
    match now with
    | None => 0
    | Some (tv_sec, tv_usec) => u32 (Z.lor (Z.shiftl tv_sec 20) tv_usec)
    end.

(** The loop of [logarithm2] from [i]. *)
Fixpoint logarithm2_loop (fuel : nat) (n i : Z) : Z :=
  match fuel with
  | O => -1
  | S fuel => if Z.shiftl 1 i =? n then i else logarithm2_loop fuel n (i + 1)
  end.

Definition logarithm2 (n : Z) : Z := logarithm2_loop 31 n 0.

(** *** The objects *)

Inductive fs_object := vbr | fat | cbm | uct | rootdir.

#[global] Instance fs_object_eq_dec : EqDecision fs_object.
Proof. solve_decision. Defined.

Definition objects : list fs_object := [vbr; vbr; fat; cbm; uct; rootdir].

Section Params.
Context `{Platform} (p : param).

Definition get_alignment (o : fs_object) : Z :=
  match o with
  | vbr => get_sector_size p
  | fat => 128 * get_sector_size p
  | cbm | uct | rootdir => get_cluster_size p
  end.

(** The loop of [get_position]: the sizes of the objects before [object]. *)
Fixpoint position_loop (get_size : fs_object -> Z) (pp : list fs_object) (object : fs_object) (position : Z) : option Z :=
  match pp with
  | [] => None
  | o :: pp =>
      let position := ROUND_UP position (get_alignment o) in
      if decide (o = object) then Some position
      else position_loop get_size pp object (position + get_size o)
  end.

(** The sizes when the bitmap starts at [cbm_position]. *)
Definition size_from (cbm_position : Z) (o : fs_object) : Z :=
  match o with
  | vbr => 12 * get_sector_size p
  | fat => u64 (p_volume_size p / get_cluster_size p * 4)
  | cbm => DIV_ROUND_UP ((p_volume_size p - cbm_position) / get_cluster_size p) 8
  | uct => zlen upcase_table
  | rootdir => get_cluster_size p
  end.

(** Where the bitmap starts depends on the objects before it only, whose sizes do
    not depend on that. *)
Definition cbm_position : Z :=
  match position_loop (size_from 0) objects cbm 0 with Some position => position | None => 0 end.

Definition get_size (o : fs_object) : Z := size_from cbm_position o.

Definition get_position (o : fs_object) : Z :=
  match position_loop get_size objects o 0 with Some position => position | None => 0 end.

(** *** The boot record (vbr.c) *)

Definition init_sb : super_block :=
  let clusters_max := u32 (p_volume_size p / get_cluster_size p) in
  let fat_sectors := u32 (DIV_ROUND_UP (clusters_max * 4) (get_sector_size p)) in
  let fat_sector_start := u32 (get_alignment fat / get_sector_size p) in
  let fat_sector_count :=
    u32 (u32 (ROUND_UP (u32 (fat_sector_start + fat_sectors)) (Z.shiftl 1 (p_spc_bits p))) - fat_sector_start) in
  {| sb_jump := [0xeb; 0x76; 0x90];
     sb_oem_name := [0x45; 0x58; 0x46; 0x41; 0x54; 0x20; 0x20; 0x20];
     sb___unused1 := zrepeat 0 53;
     sb_sector_start := u64 (p_first_sector p);
     sb_sector_count := u64 (p_volume_size p / get_sector_size p);
     sb_fat_sector_start := fat_sector_start;
     sb_fat_sector_count := fat_sector_count;
     sb_cluster_sector_start := u32 (get_position cbm / get_sector_size p);
     sb_cluster_count :=
       u32 (clusters_max - Z.shiftr (u32 (fat_sector_start + fat_sector_count)) (p_spc_bits p));
     sb_rootdir_cluster :=
       u32 ((get_position rootdir - get_position cbm) / get_cluster_size p + EXFAT_FIRST_DATA_CLUSTER);
     sb_volume_serial := u32 (p_volume_serial p);
     sb_version_minor := 0;
     sb_version_major := 1;
     sb_volume_state := 0;
     sb_sector_bits := u8 (p_sector_bits p);
     sb_spc_bits := u8 (p_spc_bits p);
     sb_fat_count := 1;
     sb_drive_no := 0x80;
     sb_allocated_percent := 0;
     sb___unused2 := zrepeat 0 397;
     sb_boot_signature := 0xaa55 |}.

(** [n] copies of the sector, each added to the checksum: [None] when a write failed. *)
Fixpoint write_sectors (n : nat) (sector : list Z) (checksum : Z) : M file_state (option Z) :=
  match n with
  | O => ret (Some checksum)
  | S n =>
      let! ok := exfat_write sector in
      if negb ok then on_part exfat_error;; ret None
      else write_sectors n sector (exfat_vbr_add_checksum sector checksum)
  end.

(** A sector of zeros, with a signature as its last word. *)
Definition signature_sector : list Z :=
  splice (zrepeat 0 (get_sector_size p)) ((get_sector_size p / 4 - 1) * 4) (le_bytes 4 0xaa550000).

(** The checksum in every word. *)
Definition checksum_sector (checksum : Z) : list Z :=
  concat (replicate (Z.to_nat (get_sector_size p / 4)) (le_bytes 4 checksum)).

Definition vbr_write : M file_state Z :=
  let! ok := on_part malloc_ok in
  if negb ok then on_part exfat_error;; ret 1
  else
    let sb := super_block_bytes init_sb in
    let! ok := exfat_write sb in
    if negb ok then on_part exfat_error;; ret 1
    else
      let checksum := exfat_vbr_start_checksum sb in
      let! r := write_sectors 8 signature_sector checksum in
      match r with
      | None => ret 1
      | Some checksum =>
          let! r := write_sectors 2 (zrepeat 0 (get_sector_size p)) checksum in
          match r with
          | None => ret 1
          | Some checksum =>
              let! ok := exfat_write (checksum_sector checksum) in
              if negb ok then on_part exfat_error;; ret 1 else ret 0
          end
      end.

(** *** The FAT (fat.c) *)

(** The next cluster, or 0. *)
Definition fat_write_entry (cluster value : Z) : M file_state Z :=
  let! ok := exfat_write (le_bytes 4 value) in
  if negb ok then on_part exfat_error;; ret 0 else ret (u32 (cluster + 1)).

(** The loop of [fat_write_entries]: [None] when a write failed. *)
Fixpoint fat_entries_loop (fuel : nat) (cluster last : Z) : M file_state (option Z) :=
  if cluster <? last then
    match fuel with
    | O => diverge
    | S fuel =>
        let! cluster := fat_write_entry cluster (u32 (cluster + 1)) in
        if cluster =? 0 then ret None else fat_entries_loop fuel cluster last
    end
  else ret (Some cluster).

Definition fat_write_entries (cluster length : Z) : M file_state Z :=
  let end_ := u32 (cluster + DIV_ROUND_UP length (get_cluster_size p)) in
  let last := u32 (end_ - 1) in
  let! r := fat_entries_loop (Z.to_nat last) cluster last in
  match r with
  | None => ret 0
  | Some cluster => fat_write_entry cluster EXFAT_CLUSTER_END
  end.

Definition fat_write : M file_state Z :=
  let! c := fat_write_entry 0 0xfffffff8 in
  if c =? 0 then ret 1 else
  let! c := fat_write_entry c 0xffffffff in
  if c =? 0 then ret 1 else
  let! c := fat_write_entries c (get_size cbm) in
  if c =? 0 then ret 1 else
  let! c := fat_write_entries c (get_size uct) in
  if c =? 0 then ret 1 else
  let! c := fat_write_entries c (get_size rootdir) in
  if c =? 0 then ret 1 else ret 0.

(** *** The bitmap (cbm.c) *)

Definition allocated_clusters : Z :=
  u32 (DIV_ROUND_UP (get_size cbm) (get_cluster_size p) + DIV_ROUND_UP (get_size uct) (get_cluster_size p) +
       DIV_ROUND_UP (get_size rootdir) (get_cluster_size p)).

Definition cbm_write : M file_state Z :=
  let bitmap_size := ROUND_UP allocated_clusters 8 in
  let! ok := on_part malloc_ok in
  if negb ok then on_part exfat_error;; ret 1
  else
    let bitmap := foldl BMAP_SET (zrepeat 0 (BMAP_SIZE bitmap_size)) (zseq 0 allocated_clusters) in
    let! ok := exfat_write (sub bitmap 0 (bitmap_size / 8)) in
    if negb ok then on_part exfat_error;; ret 1 else ret 0.

(** *** The up-case table (uct.c) *)

Definition uct_write : M file_state Z :=
  let! ok := exfat_write upcase_table in
  if negb ok then on_part exfat_error;; ret 1 else ret 0.

(** *** The root directory (rootdir.c) *)

Definition init_label_entry : entry_label :=
  if exfat_utf16_length (p_volume_label p) =? 0 then
    {| el_type := Z.lxor EXFAT_ENTRY_LABEL EXFAT_ENTRY_VALID; el_length := 0; el_name := zrepeat 0 EXFAT_ENAME_MAX |}
  else
    {| el_type := Z.lor (Z.lxor EXFAT_ENTRY_LABEL EXFAT_ENTRY_VALID) EXFAT_ENTRY_VALID;
       el_length := u8 (exfat_utf16_length (p_volume_label p));
       el_name := sub (p_volume_label p) 0 EXFAT_ENAME_MAX |}.

Definition init_bitmap_entry : entry_bitmap := {|
  eb_type := EXFAT_ENTRY_BITMAP; eb___unknown1 := zrepeat 0 19;
  eb_start_cluster := EXFAT_FIRST_DATA_CLUSTER; eb_size := u64 (get_size cbm)
|}.

Definition upcase_sum : Z :=
  foldl (fun sum b => u32 (u32 (Z.lor (u32 (Z.shiftl sum 31)) (Z.shiftr sum 1)) + b)) 0 upcase_table.

Definition init_upcase_entry : entry_upcase := {|
  eu_type := EXFAT_ENTRY_UPCASE; eu___unknown1 := zrepeat 0 3; eu_checksum := upcase_sum;
  eu___unknown2 := zrepeat 0 12;
  eu_start_cluster :=
    u32 ((get_position uct - get_position cbm) / get_cluster_size p + EXFAT_FIRST_DATA_CLUSTER);
  eu_size := zlen upcase_table
|}.

Definition rootdir_write : M file_state Z :=
  let! ok := exfat_write (entry_label_bytes init_label_entry) in
  if negb ok then ret 1 else
  let! ok := exfat_write (entry_bitmap_bytes init_bitmap_entry) in
  if negb ok then ret 1 else
  let! ok := exfat_write (entry_upcase_bytes init_upcase_entry) in
  if negb ok then ret 1 else ret 0.

Definition object_write (o : fs_object) : M file_state Z :=
  match o with
  | vbr => vbr_write
  | fat => fat_write
  | cbm => cbm_write
  | uct => uct_write
  | rootdir => rootdir_write
  end.

(** *** The whole volume (mkexfat.c) *)

(** The loop of [check_size]. *)
Definition end_position : Z :=
  foldl (fun position o => ROUND_UP position (get_alignment o) + get_size o) 0 objects.

Definition check_size (volume_size : Z) : M file_state Z :=
  if volume_size <? end_position then on_part exfat_error;; ret 1 else ret 0.

(** The loop of [erase_object] from the offset [i]. *)
Fixpoint erase_loop (fuel : nat) (block : list Z) (size i : Z) : M file_state Z :=
  if i <? size then
    match fuel with
    | O => diverge
    | S fuel =>
        let! ok := exfat_write (sub block 0 (Z.min (size - i) (zlen block))) in
        if negb ok then on_part exfat_error;; ret 1
        else erase_loop fuel block size (i + zlen block)
    end
  else ret 0.

Definition erase_object (block : list Z) (start size : Z) : M file_state Z :=
  let! r := exfat_seek start in
  if r =? -1 then on_part exfat_error;; ret 1
  else erase_loop (Z.to_nat (DIV_ROUND_UP size (zlen block))) block size 0.

(** The loops of [erase] and [create] over the objects that are left. *)
Fixpoint erase_all (pp : list fs_object) (block : list Z) (position : Z) : M file_state Z :=
  match pp with
  | [] => ret 0
  | o :: pp =>
      let position := ROUND_UP position (get_alignment o) in
      let! rc := erase_object block position (get_size o) in
      if negb (rc =? 0) then ret 1 else erase_all pp block (position + get_size o)
  end.

Definition erase : M file_state Z :=
  let! ok := on_part malloc_ok in
  if negb ok then on_part exfat_error;; ret 1
  else erase_all objects (zrepeat 0 (1024 * 1024)) 0.

Fixpoint create_all (pp : list fs_object) (position : Z) : M file_state Z :=
  match pp with
  | [] => ret 0
  | o :: pp =>
      let position := ROUND_UP position (get_alignment o) in
      let! r := exfat_seek position in
      if r =? -1 then on_part exfat_error;; ret 1
      else
        let! rc := object_write o in
        if negb (rc =? 0) then ret 1 else create_all pp (position + get_size o)
  end.

Definition create : M file_state Z := create_all objects 0.

Definition mkfs (volume_size : Z) : M file_state Z :=
  let! rc := check_size volume_size in
  if negb (rc =? 0) then ret 1 else
  let! rc := erase in
  if negb (rc =? 0) then ret 1 else
  let! rc := create in
  if negb (rc =? 0) then ret 1 else
  let! rc := on_part exfat_fsync in
  if negb (rc =? 0) then ret 1 else ret 0.
End Params.

(** [setup] (main.c); the sector size is that of its caller. *)
Definition setup `{Platform} (sector_bits spc_bits : Z) (volume_label : option (list Z)) (now : option (Z * Z))
    (volume_serial first_sector : Z) : M file_state Z :=
  let! s := get_state in
  let volume_size := os_size (f_env s) in
  match setup_spc_bits sector_bits spc_bits volume_size with
  | None => diverge
  | Some spc_bits =>
      if spc_bits =? -1 then on_part exfat_error;; ret 1
      else
        let (rc, label) := setup_volume_label volume_label in
        if negb (rc =? 0) then ret 1
        else
          let serial := setup_volume_serial now volume_serial in
          if serial =? 0 then ret 1
          else
            let p := mk_param sector_bits spc_bits volume_size label serial first_sector in
            mkfs p volume_size
  end.
