(* ===== verification/Posix.v ===== *)
(** * Posix: the device on POSIX systems, and mkexfatfs (libexfat/io.c, mkfs/main.c)

    Opening a device is [Mount.exfat_open] seen from the other components.  Here it is
    as io.c has it, with the table of descriptors: the descriptors 0, 1 and 2 are
    opened first when they are closed, so that none of them becomes the device.  The
    state [posix] has the open descriptors, the structures exfat_dev that are allocated
    and the [env] of the device.  An open() gives the lowest descriptor that is free,
    as POSIX demands, or fails; which calls fail is an argument.  The code is that of
    Linux without ublio. *)

From Stdlib Require Import ZArith Lia.
From stdpp Require Import base numbers list gmap strings.
From S2P Require Import Prelude Bytes Monad Ondisk State Utf Bitmap Truncate Utils Mount Mkfs.

#[local] Open Scope Z_scope.

(** ** Definitions *)

Record posix : Type := mk_posix {
  px_env : env;
  px_fds : list Z;
  px_devs : Z;
  px_null : list bool
}.

Definition set_px_env (v : env) (s : posix) : posix := mk_posix v (px_fds s) (px_devs s) (px_null s).
Definition set_px_fds (v : list Z) (s : posix) : posix := mk_posix (px_env s) v (px_devs s) (px_null s).
Definition set_px_devs (v : Z) (s : posix) : posix := mk_posix (px_env s) (px_fds s) v (px_null s).
Definition set_px_null (v : list bool) (s : posix) : posix := mk_posix (px_env s) (px_fds s) (px_devs s) v.

#[global] Instance part_posix : Part posix env.
Proof. refine {| part := px_env; set_part := set_px_env |}; done || by intros []. Defined.

(** What the system answers for the device: [pa_blkroget] is nothing when the ioctl
    fails, as it does for a regular file. *)
Record posix_answers : Type := mk_posix_answers {
  pa_open_rw : bool;
  pa_blkroget : option bool;
  pa_open_ro : bool;
  pa_fstat : bool;
  pa_device_or_file : bool;
  pa_seek_end : Z;
  pa_seek_set : bool;
  pa_close : bool
}.

(** [struct exfat_dev] *)
Record exfat_dev : Type := mk_exfat_dev {
  dev_fd : Z;
  dev_mode : exfat_mode;
  dev_size : Z
}.

(** *** Descriptors *)

(** The lowest descriptor from [fd] on that is free. *)
Fixpoint free_from (fuel : nat) (fds : list Z) (fd : Z) : Z :=
  match fuel with
  | O => fd
  | S fuel => if bool_decide (fd ∈ fds) then free_from fuel fds (fd + 1) else fd
  end.

Definition lowest_free (fds : list Z) : Z := free_from (length fds) fds 0.

Definition open (ok : bool) : M posix Z :=
  if ok then
    let! s := get_state in
    let fd := lowest_free (px_fds s) in
    modify (set_px_fds (fd :: px_fds s));;
    ret fd
  else ret (-1).

(** [close]; whether it reports success, the descriptor is closed. *)
Definition close (fd : Z) : M posix unit := modify (fun s => set_px_fds (List.filter (fun k => negb (k =? fd)) (px_fds s)) s).

Definition is_open (fd : Z) : M posix bool := gets (fun s => bool_decide (fd ∈ px_fds s)).

(** The next answer to open("/dev/null"). *)
Definition open_null : M posix Z :=
  let! s := get_state in
  match px_null s with
  | [] => open true
  | ok :: rest => modify (set_px_null rest);; open ok
  end.

Definition open_ro (pa : posix_answers) : M posix Z := open (pa_open_ro pa).

Definition open_rw (pa : posix_answers) : M posix Z :=
  let! fd := open (pa_open_rw pa) in
  if negb (fd =? -1) && bool_decide (pa_blkroget pa = Some true) then
    close fd;;
    ret (-1)
  else ret fd.

(** The loop that protects the descriptors 0, 1 and 2; [false] is the error. *)
Fixpoint protect_loop (fuel : nat) : M posix bool :=
  match fuel with
  | O => diverge
  | S fuel =>
      let! in_open := is_open 0 in
      let! out_open := if in_open then is_open 1 else ret false in
      let! err_open := if out_open then is_open 2 else ret false in
      if err_open then ret true
      else
        let! fd := open_null in
        if fd =? -1 then on_part exfat_error;; ret false
        else protect_loop fuel
  end.

(** [free(dev)] *)
Definition free_dev : M posix unit := modify (fun s => set_px_devs (px_devs s - 1) s).

(** [close(dev->fd); free(dev); exfat_error(...); return NULL;] *)
Definition open_fails (fd : Z) : M posix (option exfat_dev) :=
  close fd;;
  free_dev;;
  on_part exfat_error;;
  ret None.

(** The switch over the mode: the descriptor, or -1, and the mode of the device. *)
Definition open_by_mode (pa : posix_answers) (mode : exfat_mode) : M posix (Z * exfat_mode) :=
  match mode with
  | EXFAT_MODE_RO => let! fd := open_ro pa in ret (fd, EXFAT_MODE_RO)
  | EXFAT_MODE_RW => let! fd := open_rw pa in ret (fd, EXFAT_MODE_RW)
  | EXFAT_MODE_ANY =>
      let! fd := open_rw pa in
      if negb (fd =? -1) then ret (fd, EXFAT_MODE_RW)
      else let! fd := open_ro pa in ret (fd, EXFAT_MODE_RO)
  end.

Definition exfat_open (pa : posix_answers) (mode : exfat_mode) : M posix (option exfat_dev) :=
  let! protected := protect_loop 4 in
  if negb protected then ret None
  else
    let! ok := on_part malloc_ok in
    if negb ok then on_part exfat_error;; ret None
    else
      modify (fun s => set_px_devs (px_devs s + 1) s);;
      let! (fd, mode) := open_by_mode pa mode in
      if fd =? -1 then free_dev;; on_part exfat_error;; ret None
      else if negb (pa_fstat pa) then open_fails fd
      else if negb (pa_device_or_file pa) then open_fails fd
      else if pa_seek_end pa <=? 0 then open_fails fd
      else if negb (pa_seek_set pa) then open_fails fd
      else ret (Some (mk_exfat_dev fd mode (pa_seek_end pa))).

Definition exfat_close (pa : posix_answers) (dev : exfat_dev) : M posix Z :=
  close (dev_fd dev);;
  let! rc := if pa_close pa then ret 0 else on_part exfat_error;; ret (- EIO) in
  free_dev;;
  ret rc.

Definition exfat_get_mode (dev : exfat_dev) : exfat_mode := dev_mode dev.
Definition exfat_get_size (dev : exfat_dev) : Z := dev_size dev.

(** *** mkexfatfs *)

(** The value of a character as a digit, at most 36. *)
Definition digit_of (c : Z) : Z :=
  if (0x30 <=? c) && (c <=? 0x39) then c - 0x30
  else if (0x41 <=? c) && (c <=? 0x5a) then c - 0x41 + 10
  else if (0x61 <=? c) && (c <=? 0x7a) then c - 0x61 + 10
  else 36.

Fixpoint digits_in (base acc : Z) (p : list Z) : Z :=
  match p with
  | c :: p => if digit_of c <? base then digits_in base (acc * base + digit_of c) p else acc
  | [] => acc
  end.

(** The prefix 0x that strtol skips for base 16, if a digit is behind it. *)
Definition skip_0x (p : list Z) : list Z :=
  match p with
  | z :: x :: (d :: _) as rest => if (z =? 0x30) && ((x =? 0x58) || (x =? 0x78)) && (digit_of d <? 16) then drop 2 p else p
  | _ => p
  end.

(** [strtol(p, NULL, 16)] *)
Definition strtol_16 (p : list Z) : Z :=
  let p := skip_spaces p in
  let v :=
    match p with
    | c :: p' =>
        if c =? 0x2d then - digits_in 16 0 (skip_0x p')
        else if c =? 0x2b then digits_in 16 0 (skip_0x p')
        else digits_in 16 0 (skip_0x p)
    | [] => 0
    end in
  Z.max (- 2 ^ 63) (Z.min (2 ^ 63 - 1) v).

Record mkfs_options : Type := mk_mkfs_options {
  mo_spc_bits : Z;
  mo_volume_label : option (list Z);
  mo_volume_serial : Z;
  mo_first_sector : Z
}.

(** The loop over what [getopt] finds: a character and its argument.  On the left is an
    exit code. *)
Fixpoint mkfs_option_loop (opts : list (Z * list Z)) (o : mkfs_options) : Z + mkfs_options :=
  match opts with
  | [] => inr o
  | (opt, optarg) :: opts =>
      if opt =? char "i" then
        mkfs_option_loop opts (mk_mkfs_options (mo_spc_bits o) (mo_volume_label o) (u32 (strtol_16 optarg)) (mo_first_sector o))
      else if opt =? char "n" then
        mkfs_option_loop opts (mk_mkfs_options (mo_spc_bits o) (Some optarg) (mo_volume_serial o) (mo_first_sector o))
      else if opt =? char "p" then
        mkfs_option_loop opts (mk_mkfs_options (mo_spc_bits o) (mo_volume_label o) (mo_volume_serial o) (u64 (strtol optarg 10)))
      else if opt =? char "s" then
        let spc_bits := logarithm2 (i32 (strtol optarg 10)) in
        if spc_bits <? 0 then inl 1
        else mkfs_option_loop opts (mk_mkfs_options spc_bits (mo_volume_label o) (mo_volume_serial o) (mo_first_sector o))
      else if opt =? char "V" then inl 0
      else inl 1
  end.

(** A function on the device that was opened: its descriptor is at the start. *)
Definition on_file {A} (dev : exfat_dev) (m : M file_state A) : M posix A := fun s =>
  match m (mk_file_state (set_os_size (dev_size dev) (set_os_mode (dev_mode dev) (px_env s))) 0) with
  | Ok a f => Ok a (set_px_env (f_env f) s)
  | Halt r f => Halt r (set_px_env (f_env f) s)
  | Diverge => Diverge
  end.

(** [main]: [args] is the number of arguments behind the options, [now] what
    gettimeofday() returns. *)
Definition mkfs_main `{Platform} (pa : posix_answers) (now : option (Z * Z)) (opts : list (Z * list Z)) (args : Z) : M posix Z :=
  match mkfs_option_loop opts (mk_mkfs_options (-1) None 0 0) with
  | inl code => ret code
  | inr o =>
      if negb (args =? 1) then ret 1
      else
        let! dev := exfat_open pa EXFAT_MODE_RW in
        match dev with
        | None => ret 1
        | Some dev =>
            let! rc := on_file dev (setup 9 (mo_spc_bits o) (mo_volume_label o) now (mo_volume_serial o) (mo_first_sector o)) in
            if negb (rc =? 0) then exfat_close pa dev;; ret 1
            else
              let! rc := exfat_close pa dev in
              ret (if negb (rc =? 0) then 1 else 0)
        end
  end.

(** ** Facts *)

Lemma free_from_spec fds n : forall fd, let r := free_from n fds fd in
  fd <= r <= fd + Z.of_nat n /\ (forall k, fd <= k < r -> k ∈ fds) /\ (r ∉ fds \/ r = fd + Z.of_nat n).
Proof.
  induction n as [| n IH]; intros fd; cbn [free_from]; [split_and!; [lia | lia | lia | right; lia] |].
  case_bool_decide as Hin; [| split_and!; [lia | lia | lia | by left]].
  destruct (IH (fd + 1)) as (Hr & Hall & Hend). split_and!; [lia | lia | | destruct Hend; [by left | right; lia]].
  intros k Hk. destruct (decide (k = fd)) as [-> |]; [done | apply Hall; lia].
Qed.

Lemma lowest_free_spec fds : lowest_free fds ∉ fds /\ 0 <= lowest_free fds /\
  forall k, 0 <= k < lowest_free fds -> k ∈ fds.
Proof.
  destruct (free_from_spec fds (length fds) 0) as (Hr & Hall & Hend). fold (lowest_free fds) in *.
  split_and!; [| lia | exact Hall]. destruct Hend as [| Hend]; [done |]. intros Hin.
  assert (Hsub : zseq 0 (zlen fds + 1) ⊆+ fds).
  { apply NoDup_submseteq; [apply NoDup_zseq |]. intros k Hk%elem_of_zseq. destruct (decide (k = lowest_free fds)) as [-> |]; [done |].
    apply Hall. unfold zlen in Hk. lia. }
  apply submseteq_length in Hsub. pose proof (zlen_zseq 0 (zlen fds + 1) ltac:(unfold zlen; lia)). unfold zlen in *. lia.
Qed.

Lemma close_last fd fds : fd ∉ fds -> List.filter (fun k => negb (k =? fd)) (fd :: fds) = fds.
Proof.
  intros Hfd. cbn. rewrite Z.eqb_refl. cbn. induction fds as [| k fds IH]; [done |]. cbn.
  destruct (Z.eqb_spec k fd) as [-> |]; cbn; [exfalso; set_solver |]. f_equal. apply IH. set_solver.
Qed.

Lemma wp_open ok (Q : Z -> posix -> Prop) s : Q (-1) s ->
  (forall fd, fd ∉ px_fds s -> 0 <= fd -> (forall k, 0 <= k < fd -> k ∈ px_fds s) -> Q fd (set_px_fds (fd :: px_fds s) s)) ->
  wp (open ok) Q s.
Proof.
  intros H0 H1. destruct ok; [| by apply wp_ret]. apply wp_bind, wp_get; cbv zeta. apply wp_bind, wp_modify, wp_ret.
  destruct (lowest_free_spec (px_fds s)) as (? & ? & ?). by apply H1.
Qed.

(** *** The first three descriptors *)

(** Those that are open. *)
Definition protected (fds : list Z) : Prop := 0 ∈ fds /\ 1 ∈ fds /\ 2 ∈ fds.

(** Descriptors that were opened for protection. *)
Definition spare (fds nulls : list Z) (fds' : list Z) : Prop :=
  fds' = nulls ++ fds /\ Forall (fun k => 0 <= k <= 2) nulls.

Definition closed (fd : Z) (fds : list Z) : nat := if decide (fd ∈ fds) then 0 else 1.
Definition missing (fds : list Z) : nat := (closed 0 fds + closed 1 fds + closed 2 fds)%nat.

Lemma closed_cons fd k fds : closed k (fd :: fds) = if decide (k = fd) then 0%nat else closed k fds.
Proof. unfold closed. repeat case_decide; set_solver. Qed.

Lemma missing_less fd fds : ~ protected fds -> fd ∉ fds -> 0 <= fd -> (forall k, 0 <= k < fd -> k ∈ fds) ->
  fd <= 2 /\ (missing (fd :: fds) < missing fds)%nat.
Proof.
  intros Hp Hfd H0 Hall. assert (Hle : fd <= 2).
  { destruct (decide (fd <= 2)); [done |]. destruct Hp. split_and!; apply Hall; lia. }
  split; [done |]. assert (Hc : closed fd fds = 1%nat) by (unfold closed; by rewrite decide_False).
  assert (fd = 0 \/ fd = 1 \/ fd = 2) as Hcase by lia. unfold missing. rewrite !closed_cons.
  destruct Hcase as [-> | [-> | ->]]; repeat case_decide; lia.
Qed.

Lemma protect_loop_spec n : forall s, (missing (px_fds s) < n)%nat ->
  wp (protect_loop n) (fun ok s' => exists nulls, spare (px_fds s) nulls (px_fds s') /\ px_devs s' = px_devs s /\
    if ok : bool then protected (px_fds s') /\ px_env s' = px_env s else ~ protected (px_fds s')) s.
Proof.
  induction n as [| n IH]; intros s Hn; [lia |]. cbn [protect_loop]. apply wp_bind, wp_gets, wp_bind.
  apply (wp_mono _ (fun b s' => s' = s /\ b = bool_decide (0 ∈ px_fds s /\ 1 ∈ px_fds s))).
  { case_bool_decide as H0; [apply wp_gets | apply wp_ret]; (split; [done |]);
      [apply bool_decide_ext; tauto | symmetry; apply bool_decide_eq_false; tauto]. }
  intros b s1 [-> ->]. apply wp_bind. apply (wp_mono _ (fun b s' => s' = s /\ b = bool_decide (protected (px_fds s)))).
  { unfold protected. case_bool_decide as H0; [apply wp_gets | apply wp_ret]; (split; [done |]);
      [apply bool_decide_ext; tauto | symmetry; apply bool_decide_eq_false; tauto]. }
  intros b s1 [-> ->]. case_bool_decide as Hp; [apply wp_ret; exists []; by split_and! |].
  apply wp_bind. apply (wp_mono _ (fun fd s' => px_devs s' = px_devs s /\ px_env s' = px_env s /\
    ((fd = -1 /\ px_fds s' = px_fds s) \/ (px_fds s' = fd :: px_fds s /\ 0 <= fd <= 2 /\ (missing (px_fds s') < missing (px_fds s))%nat)))).
  { apply wp_bind, wp_get. assert (Ho : forall ok s1, px_fds s1 = px_fds s -> px_devs s1 = px_devs s -> px_env s1 = px_env s ->
      wp (open ok) (fun fd s' => px_devs s' = px_devs s /\ px_env s' = px_env s /\
        ((fd = -1 /\ px_fds s' = px_fds s) \/ (px_fds s' = fd :: px_fds s /\ 0 <= fd <= 2 /\ (missing (px_fds s') < missing (px_fds s))%nat))) s1).
    { intros ok s1 E1 E2 E3. apply wp_open; [split_and!; [done.. | by left] |]. rewrite E1. intros fd Hfd H0 Hall.
      destruct (missing_less fd _ Hp Hfd H0 Hall). split_and!; [done.. | right; cbn; rewrite ?E1; split_and!; [done | lia | lia | done]]. }
    destruct (px_null s); [by apply Ho | by apply wp_bind, wp_modify, Ho]. }
  intros fd s1 (Ed & Ee & [[-> Ef] | (Ef & Hfd & Hm)]).
  - apply wp_bind, wp_on_part, wp_modify, wp_ret. exists []. unfold spare. cbn. by rewrite Ef.
  - destruct (Z.eqb_spec fd (-1)); [lia |]. eapply wp_mono; [apply IH; lia |]. intros ok s2 (nulls & [E2 Hall] & Ed2 & Hok).
    exists (nulls ++ [fd]). split_and!; [split | congruence | by rewrite <- Ee].
    + by rewrite E2, Ef, <- app_assoc.
    + apply Forall_app. split; [done | by apply Forall_singleton].
Qed.

(** *** Opening the device *)

(** The answers as the other components know them. *)
Definition answers (pa : posix_answers) : open_answers :=
  mk_open_answers (pa_open_rw pa && negb (bool_decide (pa_blkroget pa = Some true))) (pa_open_ro pa) (pa_fstat pa)
    (pa_device_or_file pa) (pa_seek_end pa) (pa_seek_set pa).

Lemma wp_open_some ok (Q : Z -> posix -> Prop) s : protected (px_fds s) ->
  (ok = false -> Q (-1) s) -> (forall fd, ok = true -> fd ∉ px_fds s -> 3 <= fd -> Q fd (set_px_fds (fd :: px_fds s) s)) -> wp (open ok) Q s.
Proof.
  intros (P0 & P1 & P2) H0 H1. destruct ok; [| by apply wp_ret, H0]. apply wp_bind, wp_get; cbv zeta. apply wp_bind, wp_modify, wp_ret.
  destruct (lowest_free_spec (px_fds s)) as (Hn & Hpos & _). apply H1; [done | done |].
  assert (lowest_free (px_fds s) <> 0 /\ lowest_free (px_fds s) <> 1 /\ lowest_free (px_fds s) <> 2) by (split_and!; congruence). lia.
Qed.

Lemma open_rw_spec pa (Q : Z -> posix -> Prop) s : protected (px_fds s) -> (can_open_rw (answers pa) = false -> Q (-1) s) ->
  (forall fd, can_open_rw (answers pa) = true -> fd ∉ px_fds s -> 3 <= fd -> Q fd (set_px_fds (fd :: px_fds s) s)) -> wp (open_rw pa) Q s.
Proof.
  intros P H0 H1. cbn in H0, H1. apply wp_bind, wp_open_some; [done | |].
  - intros E. rewrite E in H0. apply wp_ret. by apply H0.
  - intros fd E Hfd H3. rewrite E in H0, H1. destruct (Z.eqb_spec fd (-1)); [lia |]. cbn [negb andb] in *.
    case_bool_decide; cbn [negb] in *; [| by apply wp_ret, H1]. apply wp_bind, wp_modify, wp_ret. cbn [px_fds set_px_fds].
    rewrite close_last by done. replace (set_px_fds _ _) with s by (by destruct s). by apply H0.
Qed.

(** What [open_by_mode] does, as [open_mode] tells it. *)
Lemma open_by_mode_spec pa mode (Q : Z * exfat_mode -> posix -> Prop) s : protected (px_fds s) ->
  (forall m, open_mode (answers pa) mode = None -> Q (-1, m) s) ->
  (forall fd m, open_mode (answers pa) mode = Some m -> fd ∉ px_fds s -> 3 <= fd -> Q (fd, m) (set_px_fds (fd :: px_fds s) s)) ->
  wp (open_by_mode pa mode) Q s.
Proof.
  intros P H0 H1. destruct mode; cbn [open_by_mode open_mode] in *.
  - apply wp_bind, wp_open_some; [done | |].
    + intros E. apply wp_ret, H0. cbn. by rewrite E.
    + intros fd E Hfd H3. apply wp_ret, H1; [cbn; by rewrite E | done..].
  - apply wp_bind, open_rw_spec; [done | |].
    + intros E. apply wp_ret, H0. by rewrite E.
    + intros fd E Hfd H3. apply wp_ret, H1; [by rewrite E | done..].
  - apply wp_bind, open_rw_spec; [done | |].
    + intros E. cbn [Z.eqb negb]. apply wp_bind, wp_open_some; [done | |].
      * intros E'. apply wp_ret, H0. rewrite E. cbn. by rewrite E'.
      * intros fd E' Hfd H3. apply wp_ret, H1; [rewrite E; cbn; by rewrite E' | done..].
    + intros fd E Hfd H3. destruct (Z.eqb_spec fd (-1)); [lia |]. apply wp_ret, H1; [by rewrite E | done..].
Qed.

(** What the other components see when the device is open. *)
Definition as_opened (dev : exfat_dev) (e : env) : env := set_os_size (dev_size dev) (set_os_mode (dev_mode dev) e).

Section Open.
Variables (pa : posix_answers) (mode : exfat_mode) (s : posix).

(** How [exfat_open] of io.c relates to the one of Mount.v: the descriptors that it adds
    are spare ones and, on success, that of the device. *)
Definition opens_as (r : option exfat_dev) (s' : posix) : Prop := exists nulls, Forall (fun k => 0 <= k <= 2) nulls /\
  match r with
  | Some dev =>
      px_fds s' = dev_fd dev :: nulls ++ px_fds s /\ protected (nulls ++ px_fds s) /\
      dev_fd dev ∉ nulls ++ px_fds s /\ 3 <= dev_fd dev /\ px_devs s' = px_devs s + 1 /\
      Mount.exfat_open (answers pa) mode (px_env s) = Ok true (as_opened dev (px_env s'))
  | None =>
      px_fds s' = nulls ++ px_fds s /\ px_devs s' = px_devs s /\
      (protected (px_fds s') -> exists m, Mount.exfat_open (answers pa) mode (px_env s) = Ok false (set_os_mode m (px_env s')))
  end.

Lemma set_os_mode_id e : set_os_mode (os_mode e) e = e.
Proof. by destruct e. Qed.

Lemma posix_open_spec : wp (exfat_open pa mode) opens_as s.
Proof.
  apply wp_bind. eapply wp_mono; [apply protect_loop_spec; unfold missing, closed; repeat case_decide; lia |].
  intros ok s1 (nulls & [E1 Hall] & Ed1 & Hok). destruct ok; cbn [negb].
  2: { apply wp_ret. exists nulls. split_and!; [done.. |]. by intros ?%Hok. }
  destruct Hok as [P Ee1]. assert (Hmal : malloc_ok (px_env s) = Ok (negb (os_malloc_fails (px_env s) (os_mallocs (px_env s)))) (set_os_mallocs (S (os_mallocs (px_env s))) (px_env s))) by done.
  set (e1 := set_os_mallocs _ _) in Hmal. set (okm := negb _) in Hmal.
  assert (Hopen : Mount.exfat_open (answers pa) mode (px_env s) = (if negb okm then exfat_error;; ret false else
    match open_mode (answers pa) mode with
    | None => exfat_error;; ret false
    | Some mode => modify (set_os_mode mode);;
        if negb (fstat_ok (answers pa)) then exfat_error;; ret false
        else if negb (is_device_or_file (answers pa)) then exfat_error;; ret false
        else if seek_end (answers pa) <=? 0 then exfat_error;; ret false
        else if negb (seek_set_ok (answers pa)) then exfat_error;; ret false
        else modify (set_os_size (seek_end (answers pa)));; ret true
    end) e1) by (unfold Mount.exfat_open; by rewrite (bind_ok _ _ _ _ _ Hmal)).
  apply wp_bind, wp_on_part. apply wp_eq with (a := okm) (s' := e1); [cbn; by rewrite Ee1 |]. clearbody e1 okm. clear Hmal.
  destruct okm; cbn [negb] in *.
  2: { apply wp_bind, wp_on_part, wp_modify, wp_ret. exists nulls. split_and!; [done.. |]. intros _. rewrite Hopen.
       exists (os_mode e1). by rewrite <- (set_os_mode_id e1) at 2. }
  apply wp_bind, wp_modify, wp_bind. cbn [set_part part_posix]. set (s2 := set_px_devs _ _).
  assert (Es2 : px_fds s2 = px_fds s1 /\ px_devs s2 = px_devs s + 1 /\ px_env s2 = e1) by (cbn; rewrite <- Ed1; done).
  destruct Es2 as (Ef2 & Ed2 & Ee2). clearbody s2. apply open_by_mode_spec; [by rewrite Ef2 | |].
  - intros m E. cbn [Z.eqb]. rewrite E in Hopen. apply wp_bind, wp_modify, wp_bind, wp_on_part, wp_modify, wp_ret. exists nulls.
    split_and!; [done | cbn; congruence | cbn; lia |]. intros _. rewrite Hopen. exists (os_mode e1). cbn. rewrite Ee2.
    by rewrite <- (set_os_mode_id e1) at 2.
  - intros fd m E Hfd H3. rewrite E in Hopen. destruct (Z.eqb_spec fd (-1)); [lia |].
    assert (Hfail : Mount.exfat_open (answers pa) mode (px_env s) = (exfat_error;; ret false) (set_os_mode m e1) ->
      wp (open_fails fd) opens_as (set_px_fds (fd :: px_fds s2) s2)).
    { intros Hm. apply wp_bind, wp_modify, wp_bind, wp_modify, wp_bind, wp_on_part, wp_modify, wp_ret. exists nulls.
      cbn -[List.filter Mount.exfat_open]. rewrite close_last by done. split_and!; [done | congruence | lia |]. intros _. rewrite Hm. exists m. by rewrite Ee2. }
    unfold bind at 1, modify at 1 in Hopen. cbn [fstat_ok is_device_or_file seek_end seek_set_ok answers] in Hopen.
    destruct (negb (pa_fstat pa)); [by apply Hfail |]. destruct (negb (pa_device_or_file pa)); [by apply Hfail |].
    destruct (pa_seek_end pa <=? 0); [by apply Hfail |]. destruct (negb (pa_seek_set pa)); [by apply Hfail |].
    apply wp_ret. exists nulls. cbn -[Mount.exfat_open]. rewrite <- E1, <- Ef2. split_and!; [done | done | by rewrite Ef2 | done | done | done |].
    by rewrite Hopen, Ee2.
Qed.
End Open.

(** C15: Opening a device on POSIX is what the other components take it for
    ([Mount.exfat_open] with the answers of the system), and more: the descriptors 0, 1
    and 2 are open before the device is, so that the device never gets one of them; the
    loop that sees to it ends after at most three descriptors; and whichever call
    fails, no descriptor but those three and no structure is left behind. *)
Theorem exfat_open_refines pa mode s : wp (exfat_open pa mode) (opens_as pa mode s) s.
Proof. apply posix_open_spec. Qed.

(** With only the descriptor 1 open, 0 and 2 are opened. *)
Example protect_from_one (e : env) : protect_loop 4 (mk_posix e [1] 0 []) = Ok true (mk_posix e [2; 0; 1] 0 []).
Proof. reflexivity. Qed.

(** Closing gives back what opening took. *)
Lemma posix_close_spec pa mode s dev s1 : opens_as pa mode s (Some dev) s1 -> forall s2, px_fds s2 = px_fds s1 -> px_devs s2 = px_devs s1 ->
  wp (exfat_close pa dev) (fun rc s' => (rc = 0 \/ rc = - EIO) /\ px_devs s' = px_devs s /\
    exists nulls, Forall (fun k => 0 <= k <= 2) nulls /\ px_fds s' = nulls ++ px_fds s) s2.
Proof.
  intros (nulls & Hall & Ef & _ & Hn & _ & Ed & _) s2 Ef2 Ed2. apply wp_bind, wp_modify.
  assert (Ec : List.filter (fun k => negb (k =? dev_fd dev)) (px_fds s2) = nulls ++ px_fds s) by (rewrite Ef2, Ef; by apply close_last).
  apply wp_bind. destruct (pa_close pa).
  - apply wp_ret, wp_bind, wp_modify, wp_ret. split; [by left |]. split; [cbn; lia |]. by exists nulls.
  - apply wp_bind, wp_on_part, wp_modify, wp_ret, wp_bind, wp_modify, wp_ret. split; [by right |]. split; [cbn; lia |]. by exists nulls.
Qed.

(** mkexfatfs leaves no device open, and its exit code is 0 only when the volume was
    made, or when it was only asked for its version. *)
Lemma mkfs_main_closes `{Platform} pa now opts args s rc s' : mkfs_main pa now opts args s = Ok rc s' ->
  px_devs s' = px_devs s /\ (exists nulls, Forall (fun k => 0 <= k <= 2) nulls /\ px_fds s' = nulls ++ px_fds s) /\
  (rc = 0 -> forall o, mkfs_option_loop opts (mk_mkfs_options (-1) None 0 0) = inr o -> exists dev e f,
     setup 9 (mo_spc_bits o) (mo_volume_label o) now (mo_volume_serial o) (mo_first_sector o) (mk_file_state (as_opened dev e) 0) = Ok 0 f).
Proof.
  intros E. assert (Hid : px_devs s = px_devs s /\ exists nulls, Forall (fun k => 0 <= k <= 2) nulls /\ px_fds s = nulls ++ px_fds s)
    by (split; [done |]; by exists []).
  unfold mkfs_main in E. destruct (mkfs_option_loop _ _) as [code | o] eqn:Eo; [injection E as <- <-; split_and!; [apply Hid.. | done] |].
  destruct (negb (args =? 1)); [injection E as <- <-; split_and!; [apply Hid.. | done] |].
  apply bind_inv in E as (r & s1 & E1 & E). pose proof (posix_open_spec pa EXFAT_MODE_RW s) as Ho. rewrite (wp_eq _ _ _ _ _ E1) in Ho.
  destruct r as [dev |].
  2: { injection E as <- <-. destruct Ho as (nulls & Hall & Ef & Ed & _). split_and!; [done | by exists nulls | done]. }
  apply bind_inv in E as (rc1 & s2 & E2 & E). unfold on_file in E2. fold (as_opened dev (px_env s1)) in E2.
  destruct (setup _ _ _ _ _ _ _) as [rc' f | |] eqn:Es; [| done..]. injection E2 as -> <-.
  pose proof (posix_close_spec _ _ _ _ _ Ho (set_px_env (f_env f) s1) eq_refl eq_refl) as Hc. unfold wp in Hc.
  destruct (Z.eqb_spec rc1 0) as [-> |]; cbn [negb] in E.
  - apply bind_inv in E as (rc2 & s3 & E3 & E). rewrite E3 in Hc. destruct Hc as (_ & Hd & Hf).
    injection E as <- <-. split_and!; [done | done |]. intros _ o' [= <-]. by exists dev, (px_env s1), f.
  - apply bind_inv in E as (rc2 & s3 & E3 & E). rewrite E3 in Hc. destruct Hc as (_ & Hd & Hf).
    injection E as <- <-. split_and!; [done | done |]. done.
Qed.

(** What the options give: "mkexfatfs -s 64 -i 0xBEEF". *)
Example mkfs_options_read : mkfs_option_loop [(char "s", str "64"); (char "i", str "0xBEEF")] (mk_mkfs_options (-1) None 0 0)
  = inr (mk_mkfs_options 6 None 0xBEEF 0).
Proof. reflexivity. Qed.
