(* ===== verification/MkfsSpec.v ===== *)
(** * MkfsSpec: the layout of a new volume (mkfs/*.c)

    The numbers that [init_sb] puts into the super block describe parts of the volume
    that do not overlap and are large enough, and the boot record that [vbr_write]
    leaves is one that mounting accepts. *)

From Stdlib Require Import ZArith Lia.
From stdpp Require Import base numbers list gmap.
From S2P Require Import Prelude Bytes Monad Ondisk State Checksum Utf Bitmap Geometry Utils Entries NodeTree Mount MountSpec Uctc Mkfs.

#[local] Open Scope Z_scope.

(** Two multiples of [d] in the same window of length [d] are equal. *)
Lemma multiple_unique d a b x : 0 < d -> x <= a * d < x + d -> x <= b * d < x + d -> a = b.
Proof. intros. nia. Qed.

Lemma ROUND_UP_multiple x d : 0 < d -> exists k, ROUND_UP x d = k * d /\ x <= k * d < x + d.
Proof.
  intros Hd. exists (DIV_ROUND_UP x d). pose proof (DIV_ROUND_UP_spec x d Hd). unfold ROUND_UP. split; [done | nia].
Qed.

Section Layout.
Context `{Platform} (p : param).

(** The parameters that [setup] passes on. *)
Record param_ok : Prop := {
  po_sector_bits : 9 <= p_sector_bits p;
  po_spc_bits : 0 <= p_spc_bits p;
  po_bits : p_sector_bits p + p_spc_bits p <= 25;
  po_clusters : 0 <= p_volume_size p / get_cluster_size p <= EXFAT_LAST_DATA_CLUSTER;
  po_fits : end_position p <= p_volume_size p
}.

Notation SS := (get_sector_size p).
Notation CS := (get_cluster_size p).
Notation V := (p_volume_size p).

Lemma sector_size_pow : 0 <= p_sector_bits p -> SS = 2 ^ p_sector_bits p.
Proof. intros. unfold get_sector_size. by rewrite Z.shiftl_1_l. Qed.

Lemma cluster_size_eq : 0 <= p_spc_bits p -> CS = SS * 2 ^ p_spc_bits p.
Proof. intros. unfold get_cluster_size. by rewrite Z.shiftl_mul_pow2. Qed.

Record sizes : Prop := {
  sz_ss : 512 <= SS;
  sz_spc : 1 <= 2 ^ p_spc_bits p;
  sz_cs : CS = SS * 2 ^ p_spc_bits p;
  sz_max : CS <= 2 ^ 25
}.

Lemma param_sizes : param_ok -> sizes.
Proof.
  intros []. assert (E1 : SS = 2 ^ p_sector_bits p) by (apply sector_size_pow; lia).
  assert (E2 : CS = SS * 2 ^ p_spc_bits p) by (by apply cluster_size_eq). split.
  - rewrite E1. change 512 with (2 ^ 9). by apply Z.pow_le_mono_r.
  - pose proof (Z.pow_pos_nonneg 2 (p_spc_bits p)). lia.
  - done.
  - rewrite E2, E1, <- Z.pow_add_r by lia. apply Z.pow_le_mono_r; lia.
Qed.

(** The clusters that the volume would have without anything before its heap. *)
Definition clusters_max : Z := V / CS.

(** Where the objects start. *)
Lemma ROUND_UP_exact x d : 0 < d -> ROUND_UP (x * d) d = x * d.
Proof. intros Hd. destruct (ROUND_UP_multiple (x * d) d Hd) as (k & -> & Hk). f_equal. nia. Qed.

Lemma vbr_positions : sizes ->
  ROUND_UP 0 SS = 0 /\ ROUND_UP (0 + 12 * SS) SS = 12 * SS /\
  ROUND_UP (12 * SS + 12 * SS) (128 * SS) = 128 * SS.
Proof.
  intros []. split_and!.
  - apply (ROUND_UP_exact 0). lia.
  - by rewrite Z.add_0_l, ROUND_UP_exact by lia.
  - destruct (ROUND_UP_multiple (12 * SS + 12 * SS) (128 * SS) ltac:(lia)) as (k & -> & Hk).
    assert (k = 1) as -> by nia. lia.
Qed.

Definition heap_start : Z := ROUND_UP (128 * SS + get_size p fat) CS.

Lemma positions : sizes ->
  get_position p fat = 128 * SS /\
  get_position p cbm = heap_start /\ cbm_position p = heap_start /\
  get_position p uct = ROUND_UP (heap_start + get_size p cbm) CS /\
  get_position p rootdir = ROUND_UP (get_position p uct + zlen upcase_table) CS /\
  end_position p = get_position p rootdir + CS.
Proof.
  intros Hs. destruct (vbr_positions Hs) as (E1 & E2 & E3).
  unfold get_position, cbm_position, end_position, heap_start, objects.
  cbn [position_loop get_alignment foldl]. unfold get_size at 1 3 5 7 9 11 13 15. cbn [size_from].
  repeat (rewrite decide_False by done || rewrite decide_True by done).
  cbn [size_from] in *. unfold get_size in *. cbn [size_from] in *. rewrite E1, E2, E3. done.
Qed.
(** The numbers of the layout: the clusters before the heap, the sectors of the FAT,
    and the cluster of the root directory. *)
Record numbers (k f r : Z) : Prop := {
  nu_start : heap_start = k * CS;
  nu_fat : f = DIV_ROUND_UP (clusters_max * 4) SS;
  nu_before : ROUND_UP (128 + f) (2 ^ p_spc_bits p) = k * 2 ^ p_spc_bits p;
  nu_root : get_position p rootdir = r * CS;
  nu_order : 1 <= k <= r;
  nu_end : r + 1 <= clusters_max;
  nu_bitmap : get_size p cbm = DIV_ROUND_UP (clusters_max - k) 8
}.

Lemma fat_size_eq : param_ok -> get_size p fat = clusters_max * 4.
Proof.
  intros []. unfold get_size. cbn [size_from]. apply u64_small. unfold in_u, clusters_max, EXFAT_LAST_DATA_CLUSTER in *. lia.
Qed.

Lemma layout_numbers : param_ok -> exists k f r, numbers k f r.
Proof.
  intros Hp. pose proof (param_sizes Hp) as Hs. destruct (positions Hs) as (E1 & E2 & E3 & E4 & E5 & E6).
  pose proof Hs as [S1 S2 S3 S4]. pose proof (po_fits Hp) as Hfit. pose proof (po_clusters Hp) as Hcl.
  fold clusters_max in Hcl. set (q := 2 ^ p_spc_bits p) in *.
  destruct (ROUND_UP_multiple (128 * SS + get_size p fat) CS ltac:(nia)) as (k & Ek & Hk). fold heap_start in Ek.
  rewrite (fat_size_eq Hp) in Hk. set (f := DIV_ROUND_UP (clusters_max * 4) SS).
  pose proof (DIV_ROUND_UP_spec (clusters_max * 4) SS ltac:(lia)) as Hf. fold f in Hf.
  destruct (ROUND_UP_multiple (get_position p uct + zlen upcase_table) CS ltac:(nia)) as (r & Er & Hr).
  rewrite <- E5 in Er.
  destruct (ROUND_UP_multiple (heap_start + get_size p cbm) CS ltac:(nia)) as (u & Eu & Hu). rewrite <- E4 in Eu.
  assert (Hdiv : (V - k * CS) / CS = clusters_max - k).
  { unfold clusters_max. replace (V - k * CS) with (V + (- k) * CS) by lia. rewrite Z.div_add by nia. lia. }
  assert (Hcbm : get_size p cbm = DIV_ROUND_UP (clusters_max - k) 8).
  { unfold get_size. cbn [size_from]. by rewrite E3, Ek, Hdiv. }
  assert (Hr1 : r + 1 <= clusters_max).
  { apply Z.div_le_lower_bound; [nia |]. rewrite E6, Er in Hfit. lia. }
  assert (Hlt : zlen upcase_table = 5836) by (vm_compute; reflexivity). rewrite Hlt in Hr.
  assert (Hcs0 : 0 < CS) by nia.
  assert (Hkr : k <= r).
  { destruct (Z.le_gt_cases k clusters_max) as [Hk' | Hk'].
    - pose proof (DIV_ROUND_UP_nonneg (clusters_max - k) 8 ltac:(lia) ltac:(lia)).
      rewrite Hcbm, Ek in Hu. rewrite Eu in Hr. nia.
    - exfalso. assert (Hneg : DIV_ROUND_UP (clusters_max - k) 8 > clusters_max - k - 1).
      { pose proof (DIV_ROUND_UP_spec (clusters_max - k) 8 ltac:(lia)). lia. }
      rewrite Hcbm, Ek in Hu. rewrite Eu in Hr. nia. }
  exists k, f, r. split; try done; [| split; [nia | done]].
  fold q. destruct (ROUND_UP_multiple (128 + f) q ltac:(lia)) as (k' & -> & Hk'). f_equal.
  apply (multiple_unique q k' k (128 + f)); [lia | done |]. split.
  - assert (SS * (f - 1 + 128) < SS * (k * q)) by nia. nia.
  - nia.
Qed.
(** The fields of the super block. *)
Lemma init_sb_numbers k f r : param_ok -> numbers k f r ->
  let sb := init_sb p in
  SECTOR_SIZE sb = SS /\ CLUSTER_SIZE sb = CS /\ sb_fat_sector_start sb = 128 /\
  sb_fat_sector_count sb = k * 2 ^ p_spc_bits p - 128 /\ f <= k * 2 ^ p_spc_bits p - 128 /\
  sb_cluster_sector_start sb = k * 2 ^ p_spc_bits p /\ sb_cluster_count sb = clusters_max - k /\
  sb_rootdir_cluster sb = r - k + 2.
Proof.
  intros Hp [Ek Ef Eb Er Ho He _]. pose proof (param_sizes Hp) as Hs.
  destruct (positions Hs) as (E1 & E2 & _). pose proof Hs as [S1 S2 S3 S4].
  pose proof (po_bits Hp). pose proof (po_sector_bits Hp). pose proof (po_spc_bits Hp). pose proof (po_clusters Hp) as Hcl.
  fold clusters_max in Hcl. unfold EXFAT_LAST_DATA_CLUSTER in Hcl.
  pose proof (ROUND_UP_spec (128 + f) (2 ^ p_spc_bits p) ltac:(lia)) as [Hru _]. rewrite Eb in Hru.
  pose proof (DIV_ROUND_UP_spec (clusters_max * 4) SS ltac:(lia)) as Hf. rewrite <- Ef in Hf.
  set (q := 2 ^ p_spc_bits p) in *. assert (Hq : q <= 2 ^ 16) by (unfold q; apply Z.pow_le_mono_r; lia).
  assert (Hf0 : 0 <= f) by (rewrite Ef; apply DIV_ROUND_UP_nonneg; lia).
  assert (Hfmax : f <= 2 ^ 26) by nia.
  assert (Ecm : u32 (V / CS) = clusters_max) by (apply u32_small; unfold in_u, clusters_max in *; lia).
  assert (Efs : u32 (DIV_ROUND_UP (clusters_max * 4) SS) = f) by (rewrite <- Ef; apply u32_small; unfold in_u; lia).
  assert (Est : u32 (get_alignment p fat / SS) = 128) by (cbn [get_alignment]; rewrite Z.div_mul by lia; done).
  cbn zeta. unfold init_sb. cbn [sb_fat_sector_start sb_fat_sector_count sb_cluster_sector_start sb_cluster_count
    sb_rootdir_cluster SECTOR_SIZE CLUSTER_SIZE sb_sector_bits sb_spc_bits].
  rewrite Ecm, Efs, Est, Z.shiftl_1_l. fold q.
  assert (Er1 : u32 (128 + f) = 128 + f) by (apply u32_small; unfold in_u; lia).
  assert (Er2 : u32 (k * q) = k * q) by (apply u32_small; unfold in_u; lia).
  assert (Er3 : u32 (k * q - 128) = k * q - 128) by (apply u32_small; unfold in_u; lia).
  rewrite Er1, Eb, Er2, Er3. replace (128 + (k * q - 128)) with (k * q) by lia. rewrite Er2.
  assert (Ekq : Z.shiftr (k * q) (p_spc_bits p) = k).
  { rewrite Z.shiftr_div_pow2 by lia. apply Z.div_mul. lia. }
  rewrite Ekq, E2, Ek, Er, S3. fold q.
  assert (Ecss : k * (SS * q) / SS = k * q).
  { replace (k * (SS * q)) with (k * q * SS) by lia. apply Z.div_mul. lia. }
  rewrite Ecss, Er2, <- Z.mul_sub_distr_r, Z.div_mul by nia.
  unfold SECTOR_SIZE, CLUSTER_SIZE, SECTOR_SIZE. cbn [sb_sector_bits sb_spc_bits].
  rewrite !u8_small by (unfold in_u; lia). rewrite !u32_small by (unfold in_u, EXFAT_FIRST_DATA_CLUSTER; lia).
  split_and!; try done; lia || (unfold EXFAT_FIRST_DATA_CLUSTER; lia) || done.
Qed.
End Layout.

(** C31: The layout of a new volume, for any sector and cluster size and any volume that
    [check_size] accepts: the two boot records end before the FAT, the FAT ends where
    the heap of clusters starts, the heap ends inside of the volume and leaves less
    than a cluster, the bitmap has a bit for every cluster, the root directory is a
    valid cluster, and the FAT has an entry for every cluster but the last, and for the
    last one too if at least two clusters lie before the heap (as they do for the cluster
    sizes that mkfs chooses, C32; a user may choose one that leaves the last cluster
    without an entry, [custom_cluster_size_short_fat]).  None of the numbers is cut off
    at 32 bits. *)
Theorem new_volume_layout `{Platform} p (Hp : param_ok p) :
  let sb := init_sb p in
  SECTOR_SIZE sb = get_sector_size p /\ CLUSTER_SIZE sb = get_cluster_size p /\
  24 <= sb_fat_sector_start sb /\
  sb_fat_sector_start sb + sb_fat_sector_count sb = sb_cluster_sector_start sb /\
  sb_cluster_sector_start sb * SECTOR_SIZE sb = get_position p cbm /\
  0 <= p_volume_size p - (get_position p cbm + sb_cluster_count sb * CLUSTER_SIZE sb) < CLUSTER_SIZE sb /\
  get_size p cbm = DIV_ROUND_UP (sb_cluster_count sb) 8 /\
  CLUSTER_INVALID sb (sb_rootdir_cluster sb) = false /\
  get_position p rootdir = get_position p cbm + (sb_rootdir_cluster sb - 2) * CLUSTER_SIZE sb /\
  (sb_cluster_count sb + 1) * 4 <= sb_fat_sector_count sb * SECTOR_SIZE sb /\
  (2 * CLUSTER_SIZE sb <= get_position p cbm ->
   (sb_cluster_count sb + 2) * 4 <= sb_fat_sector_count sb * SECTOR_SIZE sb).
Proof.
  destruct (layout_numbers p Hp) as (k & f & r & Hn). pose proof (init_sb_numbers p k f r Hp Hn) as Hi. cbn zeta in *.
  pose proof (param_sizes p Hp) as Hs. destruct (positions p Hs) as (_ & E2 & _). pose proof Hs as [S1 S2 S3 S4].
  destruct Hn as [Ek Ef Eb Er Ho He Hbm]. destruct Hi as (I1 & I2 & I3 & I4 & I5 & I6 & I7 & I8).
  pose proof (po_clusters p Hp) as Hcl. unfold EXFAT_LAST_DATA_CLUSTER in Hcl. fold (clusters_max p) in Hcl.
  pose proof (DIV_ROUND_UP_spec (clusters_max p * 4) (get_sector_size p) ltac:(lia)) as Hf. rewrite <- Ef in Hf.
  pose proof (Z.div_mod (p_volume_size p) (get_cluster_size p) ltac:(nia)) as Hdm.
  pose proof (Z.mod_pos_bound (p_volume_size p) (get_cluster_size p) ltac:(nia)) as Hmb. fold (clusters_max p) in Hdm.
  rewrite S3 in Hdm, Hmb. set (q := 2 ^ p_spc_bits p) in *.
  assert (Hinv : CLUSTER_INVALID (init_sb p) (r - k + 2) = false).
  { unfold CLUSTER_INVALID, EXFAT_FIRST_DATA_CLUSTER. rewrite I7, u32_small by (unfold in_u; lia). lia. }
  assert (Hc0 : 0 < get_sector_size p * q) by nia.
  assert (Hroom : f * get_sector_size p <= (k * q - 128) * get_sector_size p) by (apply Z.mul_le_mono_nonneg_r; lia).
  assert (Hfat : 2 * (get_sector_size p * q) <= k * (get_sector_size p * q) ->
    (clusters_max p - k + 2) * 4 <= (k * q - 128) * get_sector_size p).
  { intros H2. assert (2 <= k) by (clear - H2 Hc0; nia). lia. }
  rewrite I1, I2, I3, I4, I6, I7, I8, E2, Ek, Er, S3. set (c := get_sector_size p * q) in *.
  assert (Eh : k * c + (clusters_max p - k) * c = c * clusters_max p) by ring.
  rewrite Eh. split_and!; try done; try lia; unfold c; ring.
Qed.

(** ** The cluster size *)

Lemma spc_loop_spec fuel V : forall i s, spc_loop fuel 9 V i = Some s ->
  exists j, i <= j /\ s = spc_for 9 j /\ DIV_ROUND_UP V (2 ^ j) <= EXFAT_LAST_DATA_CLUSTER /\
    (forall i', i <= i' < j -> EXFAT_LAST_DATA_CLUSTER < DIV_ROUND_UP V (2 ^ i')).
Proof.
  induction fuel as [| fuel IH]; intros i s E; cbn [spc_loop] in E; [done |]. rewrite Z.shiftl_1_l in E.
  destruct (Z.leb_spec (DIV_ROUND_UP V (2 ^ i)) EXFAT_LAST_DATA_CLUSTER) as [Hle | Hgt].
  - exists i. split; [lia |]. split; [congruence |]. split; [done |]. intros i' Hi. lia.
  - destruct (IH (i + 1) s E) as (j & Hj & Es & Hd & Hn). exists j. split_and!; [lia | done | done |].
    intros i' Hi. destruct (Z.eq_dec i' i) as [-> | Hne]; [done |]. apply Hn. lia.
Qed.

(** The cluster size that [setup] chooses: [2 ^ j] bytes. *)
Lemma default_spc V spc : 0 <= V <= 2 ^ 56 -> setup_spc_bits 9 (-1) V = Some spc ->
  exists j, 12 <= j <= 25 /\ spc = j - 9 /\ V / 2 ^ j <= EXFAT_LAST_DATA_CLUSTER /\
    2 * 2 ^ j <= 128 * 512 + V / 2 ^ j * 4.
Proof.
  intros HV. unfold setup_spc_bits, spc_for, EXFAT_LAST_DATA_CLUSTER. cbn [Z.eqb Pos.eqb negb].
  pose proof (fun j Hj => Z.div_pos V (2 ^ j) (proj1 HV) Hj) as Hdiv.
  destruct (Z.ltb_spec V (256 * 1024 * 1024)) as [H1 | H1].
  { intros [= <-]. exists 12. split_and!; try lia.
    - apply Z.div_le_upper_bound; lia.
    - specialize (Hdiv 12 ltac:(lia)). lia. }
  destruct (Z.ltb_spec V (32 * 1024 * 1024 * 1024)) as [H2 | H2].
  { intros [= <-]. exists 15. split_and!; try lia.
    - apply Z.div_le_upper_bound; lia.
    - specialize (Hdiv 15 ltac:(lia)). lia. }
  intros E. apply spc_loop_spec in E as (j & Hj & -> & Hd & Hn). unfold spc_for, EXFAT_LAST_DATA_CLUSTER in *.
  assert (Hp : 0 < 2 ^ j) by (apply Z.pow_pos_nonneg; lia).
  pose proof (DIV_ROUND_UP_spec V (2 ^ j) Hp) as Hs. pose proof (Z.mul_div_le V (2 ^ j) Hp).
  assert (Hj25 : j <= 25).
  { destruct (Z.le_gt_cases j 25); [done |]. specialize (Hn 25 ltac:(lia)).
    pose proof (DIV_ROUND_UP_spec V (2 ^ 25) ltac:(lia)). lia. }
  exists j. split_and!; [lia | lia | lia | nia |].
  destruct (Z.eq_dec j 17) as [-> | Hne].
  { assert (2 ^ 35 / 2 ^ 17 <= V / 2 ^ 17) by (apply Z.div_le_mono; lia).
    change (2 ^ 35 / 2 ^ 17) with (2 ^ 18) in *. lia. }
  specialize (Hn (j - 1) ltac:(lia)).
  assert (Hp' : 2 ^ j = 2 * 2 ^ (j - 1)) by (rewrite <- Z.pow_succ_r by lia; f_equal; lia).
  pose proof (DIV_ROUND_UP_spec V (2 ^ (j - 1)) ltac:(lia)).
  assert (2 ^ 30 <= V / 2 ^ j) by (apply Z.div_le_lower_bound; nia).
  assert (2 ^ j <= 2 ^ 25) by (apply Z.pow_le_mono_r; lia). lia.
Qed.

(** C32: The cluster size that mkfs chooses by itself gives a FAT with an entry for every
    cluster, for every volume of up to 64 PB that is large enough for the objects, and
    parameters that mounting accepts. *)
Theorem default_fat_holds_clusters `{Platform} V spc label serial first
  (HV : 0 <= V <= 2 ^ 56) (Hspc : setup_spc_bits 9 (-1) V = Some spc)
  (Hfit : end_position (mk_param 9 spc V label serial first) <= V) :
  let sb := init_sb (mk_param 9 spc V label serial first) in
  9 <= sb_sector_bits sb /\ sb_sector_bits sb + sb_spc_bits sb <= 25 /\
  (sb_cluster_count sb + 2) * 4 <= sb_fat_sector_count sb * SECTOR_SIZE sb.
Proof.
  set (p := mk_param 9 spc V label serial first) in *.
  destruct (default_spc V spc HV Hspc) as (j & Hj & Es & Hc & H2).
  assert (Ess : get_sector_size p = 512) by done.
  assert (Ecs : get_cluster_size p = 2 ^ j).
  { unfold get_cluster_size. cbn [p p_spc_bits]. rewrite Ess, Z.shiftl_mul_pow2 by lia.
    change 512 with (2 ^ 9). rewrite <- Z.pow_add_r by lia. f_equal. lia. }
  assert (Hp : param_ok p).
  { split; cbn [p p_sector_bits p_spc_bits p_volume_size]; rewrite ?Ecs; try lia.
    split; [| done]. apply Z.div_pos; [lia |]. apply Z.pow_pos_nonneg; lia. }
  destruct (layout_numbers p Hp) as (k & f & r & Hn). pose proof (init_sb_numbers p k f r Hp Hn) as Hi. cbn zeta in *.
  destruct Hi as (I1 & I2 & I3 & I4 & I5 & I6 & I7 & I8). destruct Hn as [Ek Ef Eb Er Ho He Hbm].
  rewrite I1, I4, I7. cbn [sb_sector_bits sb_spc_bits init_sb p p_sector_bits p_spc_bits].
  rewrite !u8_small by (unfold in_u; lia). split_and!; [lia | lia |].
  pose proof (DIV_ROUND_UP_spec (clusters_max p * 4) (get_sector_size p) ltac:(lia)) as Hf. rewrite <- Ef, Ess in Hf.
  assert (Hk : 2 * 2 ^ j <= k * 2 ^ j).
  { rewrite <- Ecs, <- Ek. unfold heap_start. rewrite Ess, (fat_size_eq p Hp).
    pose proof (ROUND_UP_spec (128 * 512 + clusters_max p * 4) (get_cluster_size p)) as [Hru _]; [rewrite Ecs; lia |].
    unfold clusters_max in *. rewrite Ecs in *. cbn [p_volume_size p] in *. lia. }
  assert (2 <= k) by (assert (0 < 2 ^ j) by (apply Z.pow_pos_nonneg; lia); nia).
  change (p_spc_bits p) with spc in *. rewrite Ess. lia.
Qed.

(** With the cluster size that a user asks for, the FAT can be too small.  On a
    volume of 2 GB with clusters of 256 sectors ([-s 256]), which [setup_spc_bits] and
    [check_size] accept, the FAT has no entry for the last cluster. *)
Theorem custom_cluster_size_short_fat `{Platform} :
  let p := mk_param 9 8 (2 ^ 31) (zrepeat 0 16) 1 0 in
  let sb := init_sb p in
  setup_spc_bits 9 (logarithm2 256) (2 ^ 31) = Some 8 /\ param_ok p /\
  sb_fat_sector_count sb * SECTOR_SIZE sb < (sb_cluster_count sb + 2) * 4.
Proof.
  cbn zeta. split_and!; [done | | done].
  split; try (by vm_compute).
Qed.

(** ** Writing the boot record *)

Section Write.
Context `{Platform}.
Implicit Types s : file_state.

Definition f_medium s : mem := os_medium (f_env s).

(** A device on which nothing fails. *)
Record works s : Prop := {
  wk_write : forall o n, os_wfail (f_env s) o n = false;
  wk_malloc : forall n, os_malloc_fails (f_env s) n = false
}.

(** The bytes [data] were written at the position. *)
Record wrote s (data : list Z) s' : Prop := {
  wr_medium : f_medium s' ≡ mwrite (f_medium s) (f_pos s) data;
  wr_pos : f_pos s' = f_pos s + zlen data;
  wr_works : works s'
}.

Lemma wrote_nil s : works s -> wrote s [] s.
Proof. intros Hw. split; [by rewrite mwrite_nil | rewrite zlen_nil; lia | done]. Qed.

Lemma wrote_app s a s1 b s2 : wrote s a s1 -> wrote s1 b s2 -> wrote s (a ++ b) s2.
Proof.
  intros [A1 A2 A3] [B1 B2 B3]. split; [| rewrite B2, A2, zlen_app; lia | done].
  rewrite B1, A2, A1. apply mwrite_app.
Qed.

Lemma write_spec data s : works s -> wp (exfat_write data) (fun ok s' => ok = true /\ wrote s data s') s.
Proof.
  intros [Hw Hm]. unfold exfat_write, wp, bind, get_state, on_part, exfat_pwrite, when. cbn. rewrite Hw. cbn.
  split; [done |]. split; [done | done |]. by split.
Qed.

Lemma wp_write {A} data (k : bool -> M file_state A) Q s : works s ->
  (forall s', wrote s data s' -> wp (k true) Q s') -> wp (let! ok := exfat_write data in k ok) Q s.
Proof. intros Hw Hk. wp_step. wp_apply write_spec; [done |]. intros ok s' [-> Hs']. by apply Hk. Qed.

Lemma wp_malloc {A} (k : bool -> M file_state A) Q s : works s ->
  (forall s', f_medium s' = f_medium s -> f_pos s' = f_pos s -> works s' -> wp (k true) Q s') ->
  wp (let! ok := on_part malloc_ok in k ok) Q s.
Proof.
  intros [Hw Hm] Hk. unfold wp, bind, on_part, malloc_ok. cbn. rewrite Hm. cbn. by apply Hk.
Qed.

Definition sum_list (sum : Z) (sectors : list (list Z)) : Z := foldl (fun sum sector => exfat_vbr_add_checksum sector sum) sum sectors.

Lemma write_sectors_spec n sector : forall sum s, works s ->
  wp (write_sectors n sector sum)
    (fun r s' => r = Some (sum_list sum (replicate n sector)) /\ wrote s (concat (replicate n sector)) s') s.
Proof.
  induction n as [| n IH]; intros sum s Hw; cbn [write_sectors]; [wp_step; split; [done | by apply wrote_nil] |].
  apply wp_write; [done |]. intros s1 H1. cbn [negb]. wp_apply IH; [apply H1 |].
  intros r s2 [-> H2]. split; [done |]. cbn [replicate concat]. by eapply wrote_app.
Qed.

(** The checksum of sectors that lie one behind the other. *)
Lemma sum_sectors_list m ss sectors : 0 <= ss -> Forall (fun sector => zlen sector = ss) sectors -> forall i sum, 0 <= i ->
  mread m (i * ss) (zlen (concat sectors)) = concat sectors ->
  sum_sectors (length sectors) m ss i sum = sum_list sum sectors.
Proof.
  intros Hss. induction 1 as [| e sectors Hs Hall IH]; intros i sum Hi Hm; cbn [length sum_sectors concat]; [done |].
  cbn [concat] in Hm. rewrite zlen_app, mread_app in Hm by (lia || apply zlen_nonneg).
  apply app_inj_1 in Hm as [H1 H2].
  2: { apply Nat2Z.inj. fold (zlen (mread m (i * ss) (zlen e))). fold (zlen e). rewrite zlen_mread; lia. }
  rewrite Hs in H1, H2. rewrite H1. unfold sum_list in *. cbn [foldl]. apply IH; [lia |].
  replace ((i + 1) * ss) with (i * ss + ss) by lia. done.
Qed.

Lemma mread_mwrite_sub m off data o n : 0 <= o -> 0 <= n -> o + n <= zlen data ->
  mread (mwrite m off data) (off + o) n = sub data o n.
Proof. intros. rewrite <- (mread_sub _ off (zlen data)) by lia. by rewrite mread_mwrite_same. Qed.

(** Words that all are the checksum. *)
Lemma check_words_all n sector sum : forall i v,
  (forall k, i <= k < i + Z.of_nat n -> le_val (sub sector (4 * k) 4) = sum) ->
  check_vbr_words n i sector sum v = Ok true v.
Proof.
  induction n as [| n IH]; intros i v Hk; cbn [check_vbr_words]; [done |].
  rewrite (Hk i) by lia. rewrite Z.eqb_refl. cbn [negb]. apply IH. intros k Hk'. apply Hk. lia.
Qed.

Lemma sub_concat_replicate (w : list Z) n k : zlen w = 4 -> 0 <= k < Z.of_nat n ->
  sub (concat (replicate n w)) (4 * k) 4 = w.
Proof.
  intros Hw. revert k. induction n as [| n IH]; intros k Hk; [lia |]. cbn [replicate concat].
  destruct (Z.eq_dec k 0) as [-> | Hk0].
  - change (4 * 0) with 0. rewrite sub_app_l by lia. rewrite <- Hw. apply sub_all.
  - rewrite sub_app_r by lia. rewrite Hw. replace (4 * k - 4) with (4 * (k - 1)) by lia. apply IH. lia.
Qed.
(** The sectors of the boot record after the first. *)
Definition boot_sectors (p : param) : list (list Z) :=
  replicate 8 (signature_sector p) ++ replicate 2 (zrepeat 0 (get_sector_size p)).

Definition boot_sum (p : param) : Z :=
  sum_list (exfat_vbr_start_checksum (super_block_bytes (init_sb p))) (boot_sectors p).

Definition boot_bytes (p : param) : list Z :=
  super_block_bytes (init_sb p) ++ concat (boot_sectors p) ++ checksum_sector p (boot_sum p).

Lemma vbr_write_spec p s : works s -> wp (vbr_write p) (fun rc s' => rc = 0 /\ exists s1,
  f_medium s1 = f_medium s /\ f_pos s1 = f_pos s /\ wrote s1 (boot_bytes p) s') s.
Proof.
  intros Hw. unfold vbr_write. apply wp_malloc; [done |]. intros s1 E1 E2 Hw1. cbn [negb].
  apply wp_write; [done |]. intros s2 H2. cbn [negb]. wp_step.
  wp_apply write_sectors_spec; [apply H2 |]. intros r s3 [-> H3]. wp_step.
  wp_apply write_sectors_spec; [apply H3 |]. intros r s4 [-> H4].
  apply wp_write; [apply H4 |]. intros s5 H5. cbn [negb]. wp_step. split; [done |]. exists s1. split_and!; try done.
  pose proof (wrote_app _ _ _ _ _ (wrote_app _ _ _ _ _ (wrote_app _ _ _ _ _ H2 H3) H4) H5) as Hall.
  unfold boot_bytes, boot_sum, boot_sectors. rewrite concat_app, <- !app_assoc in *.
  unfold sum_list in *. by rewrite foldl_app.
Qed.

Lemma init_sb_ok p : super_block_ok (init_sb p).
Proof.
  unfold super_block_ok, init_sb. cbn -[u32 u64 u16 u8 zrepeat get_position get_size get_alignment get_cluster_size get_sector_size].
  assert (Hz : forall n, bytes_ok (zrepeat 0 n)).
  { intros n. apply Forall_replicate. unfold is_byte. lia. }
  split_and!; try apply u32_range; try apply u64_range; try apply u8_range; try apply Hz; try (by vm_compute);
    refine (bool_decide_unpack _ _); by vm_compute.
Qed.
End Write.

Section Verify.
Context `{Platform}.

(** The parts of the boot record on the medium. *)
Lemma boot_parts p : p_sector_bits p = 9 ->
  Forall (fun sector => zlen sector = 512) (boot_sectors p) /\ zlen (concat (boot_sectors p)) = 5120 /\
  zlen (checksum_sector p (boot_sum p)) = 512 /\ zlen (boot_bytes p) = 6144.
Proof.
  intros Eb. assert (Ess : get_sector_size p = 512) by (unfold get_sector_size; by rewrite Eb).
  assert (H1 : zlen (signature_sector p) = 512).
  { unfold signature_sector. rewrite Ess, zlen_splice; [by rewrite zlen_zrepeat | done |].
    rewrite zlen_zrepeat, zlen_le_bytes by lia. by vm_compute. }
  assert (H2 : zlen (zrepeat 0 (get_sector_size p)) = 512) by (rewrite Ess; by rewrite zlen_zrepeat).
  assert (Hall : Forall (fun sector => zlen sector = 512) (boot_sectors p)).
  { unfold boot_sectors. apply Forall_app. split; by apply Forall_replicate. }
  assert (H3 : zlen (concat (boot_sectors p)) = 5120).
  { unfold boot_sectors. cbn [replicate app concat]. rewrite !zlen_app, H1, H2, zlen_nil. lia. }
  assert (H4 : zlen (checksum_sector p (boot_sum p)) = 512).
  { unfold checksum_sector. rewrite Ess. change (Z.to_nat (512 / 4)) with 128%nat.
    assert (Hr : forall n (l : list Z), zlen l = 4 -> zlen (concat (replicate n l)) = 4 * Z.of_nat n).
    { intros n l Hl. induction n as [| n IH]; [done |]. cbn [replicate concat]. rewrite zlen_app, IH. lia. }
    rewrite Hr by apply zlen_le_bytes. done. }
  split_and!; try done. unfold boot_bytes. rewrite !zlen_app, H3, H4, (zlen_super_block_bytes _ (init_sb_ok p)). lia.
Qed.

Lemma sum_list_range sum sectors : in_u 32 sum -> in_u 32 (sum_list sum sectors).
Proof.
  unfold sum_list. revert sum. induction sectors as [| l sectors IH]; intros sum Hs; [done |]. cbn [foldl]. apply IH.
  unfold exfat_vbr_add_checksum. revert sum Hs. induction l as [| b l IHl]; intros sum Hs; [done |]. cbn [foldl].
  apply IHl, vbr_step_range.
Qed.

Lemma start_sum_range l : in_u 32 (exfat_vbr_start_checksum l).
Proof.
  unfold exfat_vbr_start_checksum. assert (Hg : forall l i sum, in_u 32 sum -> in_u 32 (vbr_start_loop sum i l)).
  { induction l0 as [| b l0 IH]; intros i sum Hs; cbn [vbr_start_loop]; [done |]. apply IH.
    destruct (_ && _); [apply vbr_step_range | done]. }
  apply Hg. unfold in_u. lia.
Qed.

(** A medium that holds the boot record. *)
Lemma boot_medium p m v : p_sector_bits p = 9 -> v_medium v ≡ mwrite m 0 (boot_bytes p) -> reads_ok v ->
  SECTOR_SIZE (v_sb v) = 512 ->
  mread (v_medium v) 0 512 = super_block_bytes (init_sb p) /\ verify_vbr_checksum v = Ok true v.
Proof.
  intros Eb Hm Hr Hss. destruct (boot_parts p Eb) as (Hall & L1 & L2 & L3).
  pose proof (zlen_super_block_bytes _ (init_sb_ok p)) as L0.
  assert (Hat : forall o n, 0 <= o -> 0 <= n -> o + n <= 6144 -> mread (v_medium v) o n = sub (boot_bytes p) o n).
  { intros o n Ho Hn He. rewrite Hm. apply (mread_mwrite_sub m 0); lia. }
  assert (H0 : mread (v_medium v) 0 512 = super_block_bytes (init_sb p)).
  { rewrite Hat by lia. unfold boot_bytes. rewrite sub_app_l by lia. rewrite <- L0. apply sub_all. }
  split; [exact H0 |]. rewrite verify_vbr_unfold by (try done; rewrite Hss; lia). rewrite Hss.
  assert (Hsum : vbr_sum (v_medium v) 512 = boot_sum p).
  { unfold vbr_sum, boot_sum. rewrite H0. change 10%nat with (length (boot_sectors p)).
    apply sum_sectors_list; [lia | done | lia |]. change (1 * 512) with 512. rewrite Hat by lia.
    unfold boot_bytes. rewrite sub_app_r by lia. rewrite L0, sub_app_l by lia. apply sub_all. }
  rewrite Hsum. apply check_words_all. intros k Hk. rewrite Hat by lia.
  assert (E : sub (boot_bytes p) (11 * 512) 512 = checksum_sector p (boot_sum p)).
  { unfold boot_bytes. rewrite sub_app_r, L0, sub_app_r, L1 by lia. etrans; [| apply sub_all]. by rewrite L2. }
  rewrite E. unfold checksum_sector, get_sector_size. rewrite Eb.
  rewrite sub_concat_replicate; [| apply zlen_le_bytes | exact Hk].
  apply le_val_field. apply sum_list_range, start_sum_range.
Qed.
End Verify.

(** *** The checks of mounting *)

(** A world with the boot record on its medium, read by [exfat_mount], and a device as
    large as it was for mkfs, on which nothing fails. *)
Record fresh_volume `{Platform} (p : param) (m : mem) (w : world) : Prop := {
  fv_sb : ef_sb (w_ef w) = super_block_of (mread (v_medium (w_vol w)) 0 512);
  fv_medium : v_medium (w_vol w) ≡ m;
  fv_reads : reads_ok (w_vol w);
  fv_malloc : forall n, os_malloc_fails (v_os (w_vol w)) n = false;
  fv_size : os_size (v_os (w_vol w)) = p_volume_size p
}.

(** A call of malloc() that succeeds. *)
Definition after_malloc (w : world) : world :=
  set_w_vol (set_v_os (set_os_mallocs (S (os_mallocs (v_os (w_vol w)))) (v_os (w_vol w))) (w_vol w)) w.

Lemma world_malloc {A} (k : bool -> M world A) Q w : (forall n, os_malloc_fails (v_os (w_vol w)) n = false) ->
  wp (k true) Q (after_malloc w) -> wp (let! ok := on_world_os malloc_ok in k ok) Q w.
Proof. intros Hm Hk. unfold wp, bind, on_world_os, on_part, malloc_ok. cbn. rewrite Hm. exact Hk. Qed.

Lemma mount_fails_rc rc w : wp (mount_fails rc) (fun rc' _ => rc' = rc) w.
Proof. unfold wp, mount_fails, bind, exfat_free, on_world_os, on_part, modify, get_state, exfat_error. cbn. by destruct (w_root w). Qed.

Section Checks.
Context `{Platform} (p : param) (m : mem).
Hypothesis Hbits : p_sector_bits p = 9.

Lemma fresh_sb w : fresh_volume p (mwrite m 0 (boot_bytes p)) w ->
  ef_sb (w_ef w) = init_sb p /\ verify_vbr_checksum (w_vol w) = Ok true (w_vol w).
Proof.
  intros [F1 F2 F3 _ _]. assert (Hsb : super_block_of (super_block_bytes (init_sb p)) = init_sb p) by apply super_block_of_bytes, init_sb_ok.
  assert (H0 : mread (v_medium (w_vol w)) 0 512 = super_block_bytes (init_sb p)).
  { rewrite F2. destruct (boot_parts p Hbits) as (_ & _ & _ & L). pose proof (zlen_super_block_bytes _ (init_sb_ok p)) as L0.
    rewrite (mread_mwrite_sub m 0 _ 0 512) by lia. unfold boot_bytes. rewrite sub_app_l by lia. rewrite <- L0. apply sub_all. }
  rewrite H0, Hsb in F1. split; [done |]. apply (boot_medium p m); try done.
  change (v_sb (w_vol w)) with (ef_sb (w_ef w)). rewrite F1. unfold SECTOR_SIZE, init_sb. cbn [sb_sector_bits]. by rewrite Hbits.
Qed.

Lemma fresh_after_malloc m' w : fresh_volume p m' w -> fresh_volume p m' (after_malloc w).
Proof. by intros []. Qed.

(** The parameters of [param_ok] pass. *)
Lemma mount_checks_accept w : param_ok p -> fresh_volume p (mwrite m 0 (boot_bytes p)) w -> wp mount_checks (fun rc _ => rc = 0) w.
Proof.
  intros Hp F. pose proof (fresh_sb w F) as [E _]. pose proof (fresh_sb _ (fresh_after_malloc _ _ F)) as [_ V].
  destruct (new_volume_layout p Hp) as (_ & _ & _ & _ & _ & L & _). cbn zeta in L.
  pose proof (po_spc_bits p Hp). pose proof (po_bits p Hp).
  assert (Hpos : 0 <= get_position p cbm).
  { destruct (layout_numbers p Hp) as (k & f & r & [Ek _ _ _ Ho _ _]). destruct (positions p (param_sizes p Hp)) as (_ & -> & _).
    pose proof (param_sizes p Hp) as [S1 S2 S3 _]. rewrite Ek. nia. }
  unfold mount_checks. apply wp_bind, wp_get. rewrite E. change (sb_oem_name (init_sb p)) with oem_name.
  rewrite bool_decide_true by done. cbn [negb]. change (sb_sector_bits (init_sb p)) with (u8 (p_sector_bits p)).
  change (sb_spc_bits (init_sb p)) with (u8 (p_spc_bits p)). rewrite Hbits, (u8_small (p_spc_bits p)) by (unfold in_u; lia).
  change (u8 9) with 9. cbn [Z.ltb Z.compare Pos.compare Pos.compare_cont].
  rewrite (proj2 (Z.ltb_ge 25 (9 + p_spc_bits p))) by lia.
  apply world_malloc; [apply F |]. cbn [negb]. apply wp_bind, wp_on_part. change (part (after_malloc w)) with (w_vol (after_malloc w)).
  unfold wp at 1. rewrite V. cbn [negb]. change (sb_version_major (init_sb p)) with 1. change (sb_version_minor (init_sb p)) with 0.
  change (sb_fat_count (init_sb p)) with 1. cbn [Z.eqb Pos.eqb negb orb]. apply wp_bind, wp_get.
  change (os_size _) with (os_size (v_os (w_vol w))). rewrite (fv_size _ _ _ F).
  rewrite (proj2 (Z.ltb_ge (p_volume_size p) _)) by lia. by apply wp_ret.
Qed.

(** Clusters of more than 32 MB do not. *)
Lemma mount_checks_refuse w : 16 < p_spc_bits p < 256 -> fresh_volume p (mwrite m 0 (boot_bytes p)) w ->
  wp mount_checks (fun rc _ => rc = - EIO) w.
Proof.
  intros Hs F. pose proof (fresh_sb w F) as [E _].
  unfold mount_checks. apply wp_bind, wp_get. rewrite E. change (sb_oem_name (init_sb p)) with oem_name.
  rewrite bool_decide_true by done. cbn [negb]. change (sb_sector_bits (init_sb p)) with (u8 (p_sector_bits p)).
  change (sb_spc_bits (init_sb p)) with (u8 (p_spc_bits p)). rewrite Hbits, (u8_small (p_spc_bits p)) by (unfold in_u; lia).
  change (u8 9) with 9. cbn [Z.ltb Z.compare Pos.compare Pos.compare_cont].
  rewrite (proj2 (Z.ltb_lt 25 (9 + p_spc_bits p))) by lia. apply mount_fails_rc.
Qed.
End Checks.

(** C30: mkfs and mount agree on the boot record.  On a device on which nothing fails,
    [vbr_write] writes twelve sectors from the position on.  When [exfat_mount] reads a
    medium that holds them at its start, it gets the super block of [init_sb],
    [verify_vbr_checksum] accepts it, whether or not repairs are asked for, and
    [mount_checks], which is all that [exfat_mount] tests before it reads the root
    directory, passes for every volume with clusters of at most 32 MB that [check_size]
    accepts.  With larger clusters, which [setup_spc_bits] lets a user ask for,
    mounting fails. *)
Theorem vbr_write_verified `{Platform} p s (Hbits : p_sector_bits p = 9) (Hpos : f_pos s = 0) (Hworks : works s) :
  exists s', vbr_write p s = Ok 0 s' /\ f_pos s' = 12 * 512 /\
    (forall a, 12 * 512 <= a -> f_medium s' a = f_medium s a) /\
    forall w, fresh_volume p (f_medium s') w ->
      ef_sb (w_ef w) = init_sb p /\ verify_vbr_checksum (w_vol w) = Ok true (w_vol w) /\
      (param_ok p -> wp mount_checks (fun rc _ => rc = 0) w) /\
      (16 < p_spc_bits p < 256 -> wp mount_checks (fun rc _ => rc = - EIO) w).
Proof.
  destruct (proj1 (wp_ok _ _ _) (vbr_write_spec p s Hworks)) as (rc & s' & E & -> & s1 & E1 & E2 & [W1 W2 W3]).
  destruct (boot_parts p Hbits) as (_ & _ & _ & L). rewrite E1, E2, Hpos in *. exists s'. split_and!; [done | lia | |].
  - intros a Ha. rewrite (W1 a). apply mwrite_out. lia.
  - intros w [F1 F2 F3 F4 F5]. assert (F : fresh_volume p (mwrite (f_medium s) 0 (boot_bytes p)) w) by (split; try done; by rewrite F2).
    destruct (fresh_sb p (f_medium s) Hbits w F) as [Hsb Hv]. split_and!; [done | done | |].
    + intros Hp. by apply (mount_checks_accept p (f_medium s)).
    + intros Hs. by apply (mount_checks_refuse p (f_medium s)).
Qed.

(** A user can ask for such clusters: on 1 TB with [-s 131072], mkfs takes its parameters. *)
Example user_clusters_refused `{Platform} :
  setup_spc_bits 9 (logarithm2 131072) (2 ^ 40) = Some 17 /\
  end_position (mk_param 9 17 (2 ^ 40) (zrepeat 0 16) 1 0) <= 2 ^ 40.
Proof. split; by vm_compute. Qed.

(** ** A volume of one megabyte *)

#[local] Existing Instance word_le64.

Definition demo_param : param := mk_param 9 3 (2 ^ 20) (splice (zrepeat 0 16) 0 [0x41; 0x42]) 0x12345678 0.
Definition demo_file_state : file_state := mk_file_state demo_os 0.

Lemma demo_param_ok : param_ok demo_param.
Proof. split; try (by vm_compute). Qed.

Lemma new_volume_layout_witness :
  let sb := init_sb demo_param in
  SECTOR_SIZE sb = get_sector_size demo_param /\ CLUSTER_SIZE sb = get_cluster_size demo_param /\
  24 <= sb_fat_sector_start sb /\
  sb_fat_sector_start sb + sb_fat_sector_count sb = sb_cluster_sector_start sb /\
  sb_cluster_sector_start sb * SECTOR_SIZE sb = get_position demo_param cbm /\
  0 <= p_volume_size demo_param - (get_position demo_param cbm + sb_cluster_count sb * CLUSTER_SIZE sb) < CLUSTER_SIZE sb /\
  get_size demo_param cbm = DIV_ROUND_UP (sb_cluster_count sb) 8 /\
  CLUSTER_INVALID sb (sb_rootdir_cluster sb) = false /\
  get_position demo_param rootdir = get_position demo_param cbm + (sb_rootdir_cluster sb - 2) * CLUSTER_SIZE sb /\
  (sb_cluster_count sb + 1) * 4 <= sb_fat_sector_count sb * SECTOR_SIZE sb /\
  (2 * CLUSTER_SIZE sb <= get_position demo_param cbm ->
   (sb_cluster_count sb + 2) * 4 <= sb_fat_sector_count sb * SECTOR_SIZE sb).
Proof. apply (new_volume_layout demo_param). apply demo_param_ok. Defined.

Lemma default_fat_holds_clusters_witness :
  let sb := init_sb (mk_param 9 3 (2 ^ 20) (zrepeat 0 16) 1 0) in
  9 <= sb_sector_bits sb /\ sb_sector_bits sb + sb_spc_bits sb <= 25 /\
  (sb_cluster_count sb + 2) * 4 <= sb_fat_sector_count sb * SECTOR_SIZE sb.
Proof. apply (default_fat_holds_clusters (2 ^ 20) 3 (zrepeat 0 16) 1 0); by vm_compute. Defined.

Lemma vbr_write_verified_witness :
  exists s', vbr_write demo_param demo_file_state = Ok 0 s' /\ f_pos s' = 12 * 512 /\
    (forall a, 12 * 512 <= a -> f_medium s' a = f_medium demo_file_state a) /\
    forall w, fresh_volume demo_param (f_medium s') w ->
      ef_sb (w_ef w) = init_sb demo_param /\ verify_vbr_checksum (w_vol w) = Ok true (w_vol w) /\
      (param_ok demo_param -> wp mount_checks (fun rc _ => rc = 0) w) /\
      (16 < p_spc_bits demo_param < 256 -> wp mount_checks (fun rc _ => rc = - EIO) w).
Proof. apply (vbr_write_verified demo_param demo_file_state); [done | done | by split]. Defined.
