(* ===== verification/Format.v ===== *)
(** * Format: making a volume on AmigaOS (amiga/format.c)

    The parameters that [exfat_amiga_format] gives to mkfs.  They are the ones that
    the command of mkfs/main.c would choose, which is proved below.  The parameters are
    reached through the process there; here they are an argument of mkfs. *)

From Stdlib Require Import ZArith Lia.
From stdpp Require Import base numbers list.
From S2P Require Import Prelude Bytes Monad Ondisk Utf DevIo State Bitmap Amigaos Mkfs.

#[local] Open Scope Z_scope.

(** ** Definitions *)

(** The last loop of [choose_spc_bits]; [1LL << i] has 64 bits. *)
Fixpoint choose_loop (fuel : nat) (sector_bits volume_size i : Z) : Z :=
  match fuel with
  | O => -1
  | S fuel =>
      if DIV_ROUND_UP volume_size (Z.shiftl 1 i) <=? EXFAT_LAST_DATA_CLUSTER then Z.max 0 (i - sector_bits)
      else choose_loop fuel sector_bits volume_size (i + 1)
  end.

Definition choose_spc_bits (sector_bits volume_size : Z) : Z :=
  if volume_size <? 256 * 1024 * 1024 then Z.max 0 (12 - sector_bits)
  else if volume_size <? 32 * 1024 * 1024 * 1024 then Z.max 0 (15 - sector_bits)
  else choose_loop 15 sector_bits volume_size 17.

(** [None] when dos.library cannot be opened. *)
Definition make_serial (now : option DateStamp) : Z :=
  match now with
  | None => 1
  | Some ds =>
      let serial :=
        Z.lxor (Z.lxor (u32 (Z.shiftl (u32 (ds_Days ds)) 20)) (u32 (Z.shiftl (u32 (ds_Minute ds)) 10))) (u32 (ds_Tick ds)) in
      if negb (serial =? 0) then serial else 1
  end.

(** The label, in the 16 units of [param.volume_label]; one that does not fit is left out. *)
Definition format_label (label : list Z) : list Z :=
  let empty := zrepeat 0 (EXFAT_ENAME_MAX + 1) in
  match label with
  | [] => empty
  | _ =>
      let (rc, units) := exfat_utf8_to_utf16 label (EXFAT_ENAME_MAX + 1) (zlen label) in
      if negb (rc =? 0) then empty else splice empty 0 units
  end.

(** [opens] tells whether [exfat_open] returns a device, which has the size of the
    partition; its file pointer is at 0. *)
Definition exfat_amiga_format `{Platform} (opens : bool) (now : option DateStamp) (spec : ExfatDevSpec) (label_utf8 : list Z)
  : M file_state Z :=
  let sector_bits := logarithm2 (ds_blocksize spec) in
  if (sector_bits <? 9) || (12 <? sector_bits) then ret (-1)
  else
    let first_sector := ds_firstbyte spec / ds_blocksize spec in
    if negb opens then ret (-1)
    else
      modify (fun s => mk_file_state (set_os_size (ds_length spec) (f_env s)) 0);;
      let volume_size := ds_length spec in
      let spc_bits := choose_spc_bits sector_bits volume_size in
      if spc_bits <? 0 then ret (-1)
      else
        let p := mk_param sector_bits spc_bits volume_size (format_label label_utf8) (make_serial now) first_sector in
        let! rc := mkfs p volume_size in
        ret (if negb (rc =? 0) then -1 else 0).

(** ** The layout *)

Lemma choose_loop_same sb size n : forall i k, spc_loop n sb size i = Some k -> forall m, (n <= m)%nat -> choose_loop m sb size i = k.
Proof.
  induction n as [| n IH]; intros i k Hk m Hm; cbn [spc_loop] in Hk; [done |]. destruct m as [| m]; [lia |].
  cbn [choose_loop]. destruct (_ <=? _); [injection Hk as <-; done |]. apply (IH _ _ Hk). lia.
Qed.

(** The clusters of a volume that is formatted on AmigaOS have the size that the mkfs of
    a host chooses: wherever its loop ends, the two choices are equal. *)
Theorem choose_spc_bits_as_mkfs sector_bits volume_size k
  (Hk : setup_spc_bits sector_bits (-1) volume_size = Some k) :
  choose_spc_bits sector_bits volume_size = k.
Proof.
  unfold setup_spc_bits, choose_spc_bits, spc_for in *. change (negb (-1 =? -1)) with false in Hk. cbn iota in Hk.
  destruct (_ <? _); [by injection Hk |]. destruct (_ <? _); [by injection Hk |]. apply (choose_loop_same _ _ 14 17 k Hk 15). lia.
Qed.

Lemma choose_spc_bits_as_mkfs_witness : choose_spc_bits 9 (2 ^ 40) = 8.
Proof. apply (choose_spc_bits_as_mkfs 9 (2 ^ 40) 8). by vm_compute. Defined.

(** The serial number of a volume is never zero and has 32 bits. *)
Lemma make_serial_range now : 0 < make_serial now < 2 ^ 32.
Proof.
  unfold make_serial. destruct now as [ds |]; [| lia]. set (a := Z.lxor (Z.lxor _ _) _).
  assert (Ha : in_u 32 a).
  { unfold a, in_u. assert (Hx : forall x y, 0 <= x < 2 ^ 32 -> 0 <= y < 2 ^ 32 -> 0 <= Z.lxor x y < 2 ^ 32).
    { intros x y Hx Hy. assert (E : Z.lxor x y = Z.lxor x y mod 2 ^ 32).
      { rewrite <- Z.land_ones by lia. rewrite Z.land_comm. apply Z.bits_inj'. intros n Hn.
        rewrite Z.land_spec, Z.lxor_spec. destruct (Z.lt_ge_cases n 32).
        - rewrite Z.ones_spec_low by lia. done.
        - rewrite Z.ones_spec_high by lia. rewrite <- (Z.mod_small x (2 ^ 32)), <- (Z.mod_small y (2 ^ 32)) by done.
          by rewrite !Z.mod_pow2_bits_high by lia. }
      rewrite E. apply Z.mod_pos_bound. lia. }
    repeat apply Hx; apply u32_range. }
  unfold in_u in Ha. destruct (Z.eqb_spec a 0); cbn [negb]; lia.
Qed.

Lemma zlen_format_label label : zlen (format_label label) = EXFAT_ENAME_MAX + 1.
Proof.
  unfold format_label. set (empty := zrepeat 0 _). assert (He : zlen empty = EXFAT_ENAME_MAX + 1) by (by vm_compute).
  destruct label as [| c label]; [done |]. pose proof (conversion_stays_in (c :: label) (EXFAT_ENAME_MAX + 1) (zlen (c :: label)) ltac:(by vm_compute)) as [_ Hs].
  destruct (exfat_utf8_to_utf16 _ _ _) as [rc units]. destruct (negb (rc =? 0)); [done |].
  unfold stays_in in Hs. rewrite zlen_splice; [done | lia |]. cbn [snd] in Hs. rewrite He. destruct Hs as [Hs _]. cbn in *. lia.
Qed.
