(* ===== verification/Handler.v ===== *)
(** * Handler: the AmigaDOS side of the file system (amiga/handler.c)

    A process that serves packets.  Its state is [handler]: the volume with its nodes
    ([h_world]), the locks and open files that programs hold, the volume node of
    AmigaDOS and the place of the volume on the device.  A packet is a value of the
    type [packet], with its arguments at their types; pointers to locks and files are
    addresses, which a program can only have from an earlier reply.

    What a packet does to the rest of the system is appended to [h_trace]: replies,
    stores into the memory of the sender, and calls of dos.library.  The answers that
    AmigaOS gives are of two kinds.  Calls that succeed or fail take the next element of
    [h_answers] (and succeed when none is left).  What the handler reads of other
    processes' data while it serves a packet is the argument [sv], a [system_view].

    The medium of the volume is the medium of [h_world] seen from [h_origin], the first
    byte of the extent that was opened last. *)

From Stdlib Require Import ZArith Lia.
From stdpp Require Import base numbers list gmap strings.
From S2P Require Import Prelude Bytes Monad Ondisk DevIo State Utf Bitmap Geometry Cluster FileIO Utils Entries NodeTree Lookup Dir Mount PartTable Amigaos Mkfs Format.

#[local] Open Scope Z_scope.

(** ** Definitions *)

(** *** Numbers of AmigaDOS *)

Definition DOSTRUE : Z := -1.
Definition DOSFALSE : Z := 0.
Definition SHARED_LOCK : Z := -2.
Definition EXCLUSIVE_LOCK : Z := -1.
Definition OFFSET_BEGINNING : Z := -1.
Definition OFFSET_CURRENT : Z := 0.
Definition OFFSET_END : Z := 1.
Definition ST_ROOT : Z := 1.
Definition ST_USERDIR : Z := 2.
Definition ST_FILE : Z := -3.
Definition FIBF_DELETE : Z := 1.
Definition FIBF_WRITE : Z := 4.
Definition FIBF_ARCHIVE : Z := 16.
Definition ID_WRITE_PROTECTED : Z := 80.
Definition ID_VALIDATED : Z := 82.
Definition ID_DOS_DISK : Z := 0x444f5300.
Definition EXFAT_ID_BUSY : Z := 0x42555359.
Definition EXFAT_DOSTYPE : Z := 0x46415458.
Definition FSEF_STACKSIZE : Z := 16.
Definition FSEF_SEGLIST : Z := 128.
Definition FSEF_GLOBALVEC : Z := 256.
Definition EXFAT_STACKSIZE : Z := 65536.
Definition EXFAT_MAX_PARTITIONS : Z := 8.
Definition DE_DOSTYPE : Z := 16.
Definition MAX_PATH_UTF8 : Z := 1024.

Definition ERROR_NO_FREE_STORE : Z := 103.
Definition ERROR_BAD_NUMBER : Z := 115.
Definition ERROR_INVALID_RESIDENT_LIBRARY : Z := 122.
Definition ERROR_OBJECT_IN_USE : Z := 202.
Definition ERROR_OBJECT_EXISTS : Z := 203.
Definition ERROR_OBJECT_NOT_FOUND : Z := 205.
Definition ERROR_ACTION_NOT_KNOWN : Z := 209.
Definition ERROR_INVALID_COMPONENT_NAME : Z := 210.
Definition ERROR_INVALID_LOCK : Z := 211.
Definition ERROR_OBJECT_WRONG_TYPE : Z := 212.
Definition ERROR_DISK_WRITE_PROTECTED : Z := 214.
Definition ERROR_DIRECTORY_NOT_EMPTY : Z := 216.
Definition ERROR_SEEK_ERROR : Z := 219.
Definition ERROR_DISK_FULL : Z := 221.
Definition ERROR_WRITE_PROTECTED : Z := 223.
Definition ERROR_NOT_A_DOS_DISK : Z := 225.
Definition ERROR_NO_MORE_ENTRIES : Z := 232.
Definition RETURN_OK : Z := 0.
Definition RETURN_FAIL : Z := 20.

(** *** Data *)

(** The address of something that the handler allocated. *)
Definition addr : Type := N.

(** [struct ExfatLock], less the pointers to the handler and to its port. *)
Record ExfatLock : Type := mk_lock {
  fl_Link : option addr;
  fl_Key : Z;
  fl_Access : Z;
  fl_Volume : option addr;
  lk_node : option ptr;
  lk_scan_next : option ptr;
  lk_scan_index : Z
}.

Definition set_fl_Link (v : option addr) (l : ExfatLock) : ExfatLock :=
  mk_lock v (fl_Key l) (fl_Access l) (fl_Volume l) (lk_node l) (lk_scan_next l) (lk_scan_index l).
Definition set_lk_scan_next (v : option ptr) (l : ExfatLock) : ExfatLock :=
  mk_lock (fl_Link l) (fl_Key l) (fl_Access l) (fl_Volume l) (lk_node l) v (lk_scan_index l).
Definition set_lk_scan_index (v : Z) (l : ExfatLock) : ExfatLock :=
  mk_lock (fl_Link l) (fl_Key l) (fl_Access l) (fl_Volume l) (lk_node l) (lk_scan_next l) v.

(** [struct ExfatFile] *)
Record ExfatFile : Type := mk_file {
  fi_node : option ptr;
  fi_pos : Z;
  fi_writable : bool
}.

Definition set_fi_pos (v : Z) (f : ExfatFile) : ExfatFile := mk_file (fi_node f) v (fi_writable f).

(** [struct FileInfoBlock]; of the comment the length only. *)
Record FileInfoBlock : Type := mk_fib {
  fib_DiskKey : Z;
  fib_DirEntryType : Z;
  fib_FileName : list Z;
  fib_Protection : Z;
  fib_EntryType : Z;
  fib_Size : Z;
  fib_NumBlocks : Z;
  fib_Date : DateStamp;
  fib_Comment : Z;
  fib_OwnerUID : Z;
  fib_OwnerGID : Z;
  fib_Reserved : list Z
}.

(** [struct InfoData] *)
Record InfoData : Type := mk_info {
  id_NumSoftErrors : Z;
  id_UnitNumber : Z;
  id_DiskState : Z;
  id_NumBlocks : Z;
  id_NumBlocksUsed : Z;
  id_BytesPerBlock : Z;
  id_DiskType : Z;
  id_VolumeNode : option addr;
  id_InUse : Z
}.

(** Our volume node, a [struct DeviceList], less its date and its type; [dl_Task] tells
    whether it is our port, and the name is a buffer. *)
Record DeviceList : Type := mk_volume {
  dl_addr : addr;
  dl_Name : addr;
  dl_Task : bool;
  dl_LockList : option addr
}.

Definition set_dl_Name (v : addr) (d : DeviceList) : DeviceList := mk_volume (dl_addr d) v (dl_Task d) (dl_LockList d).
Definition set_dl_Task (v : bool) (d : DeviceList) : DeviceList := mk_volume (dl_addr d) (dl_Name d) v (dl_LockList d).
Definition set_dl_LockList (v : option addr) (d : DeviceList) : DeviceList := mk_volume (dl_addr d) (dl_Name d) (dl_Task d) v.

(** [struct DosEnvec], as far as it is read. *)
Record DosEnvec : Type := mk_envec {
  de_TableSize : Z;
  de_SizeBlock : Z;
  de_Surfaces : Z;
  de_BlocksPerTrack : Z;
  de_LowCyl : Z;
  de_HighCyl : Z;
  de_MaxTransfer : Z;
  de_Mask : Z;
  de_DosType : Z
}.

(** [struct FileSysStartupMsg] *)
Record FileSysStartupMsg : Type := mk_fssm {
  fssm_Unit : Z;
  fssm_Device : option (list Z);
  fssm_Environ : option DosEnvec;
  fssm_Flags : Z
}.

(** [struct DeviceNode]; a segment list, a handler's path and a stack are numbers. *)
Record DeviceNode : Type := mk_device {
  dn_Name : list Z;
  dn_Startup : option FileSysStartupMsg;
  dn_Handler : Z;
  dn_SegList : Z;
  dn_StackSize : Z;
  dn_Priority : Z;
  dn_GlobalVec : Z
}.

(** [struct FileSysEntry], as far as it is used. *)
Record FileSysEntry : Type := mk_fse {
  fse_DosType : Z;
  fse_Version : Z;
  fse_PatchFlags : Z;
  fse_StackSize : Z;
  fse_SegList : Z;
  fse_GlobalVec : Z
}.

(** Our DLT_DEVICE entry; [dol_Task] tells whether it is our port. *)
Record DosList : Type := mk_doslist {
  dol_Name : option (list Z);
  dol_Task : bool;
  dol_Handler : Z;
  dol_StackSize : Z;
  dol_Priority : Z;
  dol_GlobVec : Z
}.

Definition set_dol_Task (v : bool) (d : DosList) : DosList :=
  mk_doslist (dol_Name d) v (dol_Handler d) (dol_StackSize d) (dol_Priority d) (dol_GlobVec d).

(** What the system looks like while a packet is served: whether the device can be opened
    and is write-protected, user and group of the process, the addresses on the list of
    AmigaDOS and its device nodes, the entries of FileSystem.resource, and the time. *)
Record system_view : Type := mk_view {
  sv_opens : bool;
  sv_protected : bool;
  sv_euid : Z;
  sv_egid : Z;
  sv_doslist : list addr;
  sv_devices : list DeviceNode;
  sv_filesystems : option (list FileSysEntry);
  sv_now : option DateStamp
}.

(** The second result of a packet that returns a pointer. *)
Inductive dos_result : Type :=
| Num (z : Z)
| LockPtr (a : addr)
| VolumePtr (a : option addr).

(** What the handler does to the rest of the system. *)
Inductive effect : Type :=
| ReplyPkt (res1 : dos_result) (res2 : Z)
| StoreFib (fib : FileInfoBlock)
| StoreInfo (id : InfoData)
| StoreHandle (fh_Arg1 : addr)
| StoreData (bytes : list Z)
| MakeDosEntry (volume : addr) (name : list Z)
| AddDosEntry (volume : addr)
| RemDosEntry (volume : addr)
| FreeDosEntry (volume : addr)
| FreeName (name : addr)
| AddDevice (node : DeviceNode)
| Activate (names : list (list Z))
| AddSemaphore (name : list Z)
| RemSemaphore (name : list Z).

(** [struct ExfatHandler]: [h_world] is [ef]; [h_names] are the buffers of names and
    [h_locks], [h_files] the locks and files that were allocated; [h_origin] is where the
    medium of [h_world] starts on the device. *)
Record handler : Type := mk_handler {
  h_world : world;
  h_mounted : bool;
  h_inhibited : bool;
  h_quit : bool;
  h_nlocks : Z;
  h_nfiles : Z;
  h_volume : option DeviceList;
  h_volname : option addr;
  h_volname_orig : option addr;
  h_names : gmap addr (list Z);
  h_locks : gmap addr ExfatLock;
  h_files : gmap addr ExfatFile;
  h_fresh : addr;
  h_devlist : DosList;
  h_spec : ExfatDevSpec;
  h_devname : list Z;
  h_origin : Z;
  h_lowcyl : Z;
  h_envec : DosEnvec;
  h_published : list (list Z);
  h_next_name_idx : Z;
  h_claim : option (list Z);
  h_answers : list bool;
  h_trace : list effect
}.

Definition set_h_world (v : world) (h : handler) : handler :=
  mk_handler v (h_mounted h) (h_inhibited h) (h_quit h) (h_nlocks h) (h_nfiles h) (h_volume h) (h_volname h)
    (h_volname_orig h) (h_names h) (h_locks h) (h_files h) (h_fresh h) (h_devlist h) (h_spec h) (h_devname h)
    (h_origin h) (h_lowcyl h) (h_envec h) (h_published h) (h_next_name_idx h) (h_claim h) (h_answers h)
    (h_trace h).
Definition set_h_mounted (v : bool) (h : handler) : handler :=
  mk_handler (h_world h) v (h_inhibited h) (h_quit h) (h_nlocks h) (h_nfiles h) (h_volume h) (h_volname h)
    (h_volname_orig h) (h_names h) (h_locks h) (h_files h) (h_fresh h) (h_devlist h) (h_spec h) (h_devname h)
    (h_origin h) (h_lowcyl h) (h_envec h) (h_published h) (h_next_name_idx h) (h_claim h) (h_answers h)
    (h_trace h).
Definition set_h_inhibited (v : bool) (h : handler) : handler :=
  mk_handler (h_world h) (h_mounted h) v (h_quit h) (h_nlocks h) (h_nfiles h) (h_volume h) (h_volname h)
    (h_volname_orig h) (h_names h) (h_locks h) (h_files h) (h_fresh h) (h_devlist h) (h_spec h) (h_devname h)
    (h_origin h) (h_lowcyl h) (h_envec h) (h_published h) (h_next_name_idx h) (h_claim h) (h_answers h)
    (h_trace h).
Definition set_h_quit (v : bool) (h : handler) : handler :=
  mk_handler (h_world h) (h_mounted h) (h_inhibited h) v (h_nlocks h) (h_nfiles h) (h_volume h) (h_volname h)
    (h_volname_orig h) (h_names h) (h_locks h) (h_files h) (h_fresh h) (h_devlist h) (h_spec h) (h_devname h)
    (h_origin h) (h_lowcyl h) (h_envec h) (h_published h) (h_next_name_idx h) (h_claim h) (h_answers h)
    (h_trace h).
Definition set_h_nlocks (v : Z) (h : handler) : handler :=
  mk_handler (h_world h) (h_mounted h) (h_inhibited h) (h_quit h) v (h_nfiles h) (h_volume h) (h_volname h)
    (h_volname_orig h) (h_names h) (h_locks h) (h_files h) (h_fresh h) (h_devlist h) (h_spec h) (h_devname h)
    (h_origin h) (h_lowcyl h) (h_envec h) (h_published h) (h_next_name_idx h) (h_claim h) (h_answers h)
    (h_trace h).
Definition set_h_nfiles (v : Z) (h : handler) : handler :=
  mk_handler (h_world h) (h_mounted h) (h_inhibited h) (h_quit h) (h_nlocks h) v (h_volume h) (h_volname h)
    (h_volname_orig h) (h_names h) (h_locks h) (h_files h) (h_fresh h) (h_devlist h) (h_spec h) (h_devname h)
    (h_origin h) (h_lowcyl h) (h_envec h) (h_published h) (h_next_name_idx h) (h_claim h) (h_answers h)
    (h_trace h).
Definition set_h_volume (v : option DeviceList) (h : handler) : handler :=
  mk_handler (h_world h) (h_mounted h) (h_inhibited h) (h_quit h) (h_nlocks h) (h_nfiles h) v (h_volname h)
    (h_volname_orig h) (h_names h) (h_locks h) (h_files h) (h_fresh h) (h_devlist h) (h_spec h) (h_devname h)
    (h_origin h) (h_lowcyl h) (h_envec h) (h_published h) (h_next_name_idx h) (h_claim h) (h_answers h)
    (h_trace h).
Definition set_h_volname (v : option addr) (h : handler) : handler :=
  mk_handler (h_world h) (h_mounted h) (h_inhibited h) (h_quit h) (h_nlocks h) (h_nfiles h) (h_volume h) v
    (h_volname_orig h) (h_names h) (h_locks h) (h_files h) (h_fresh h) (h_devlist h) (h_spec h) (h_devname h)
    (h_origin h) (h_lowcyl h) (h_envec h) (h_published h) (h_next_name_idx h) (h_claim h) (h_answers h)
    (h_trace h).
Definition set_h_volname_orig (v : option addr) (h : handler) : handler :=
  mk_handler (h_world h) (h_mounted h) (h_inhibited h) (h_quit h) (h_nlocks h) (h_nfiles h) (h_volume h)
    (h_volname h) v (h_names h) (h_locks h) (h_files h) (h_fresh h) (h_devlist h) (h_spec h) (h_devname h)
    (h_origin h) (h_lowcyl h) (h_envec h) (h_published h) (h_next_name_idx h) (h_claim h) (h_answers h)
    (h_trace h).
Definition set_h_names (v : gmap addr (list Z)) (h : handler) : handler :=
  mk_handler (h_world h) (h_mounted h) (h_inhibited h) (h_quit h) (h_nlocks h) (h_nfiles h) (h_volume h)
    (h_volname h) (h_volname_orig h) v (h_locks h) (h_files h) (h_fresh h) (h_devlist h) (h_spec h)
    (h_devname h) (h_origin h) (h_lowcyl h) (h_envec h) (h_published h) (h_next_name_idx h) (h_claim h)
    (h_answers h) (h_trace h).
Definition set_h_locks (v : gmap addr ExfatLock) (h : handler) : handler :=
  mk_handler (h_world h) (h_mounted h) (h_inhibited h) (h_quit h) (h_nlocks h) (h_nfiles h) (h_volume h)
    (h_volname h) (h_volname_orig h) (h_names h) v (h_files h) (h_fresh h) (h_devlist h) (h_spec h)
    (h_devname h) (h_origin h) (h_lowcyl h) (h_envec h) (h_published h) (h_next_name_idx h) (h_claim h)
    (h_answers h) (h_trace h).
Definition set_h_files (v : gmap addr ExfatFile) (h : handler) : handler :=
  mk_handler (h_world h) (h_mounted h) (h_inhibited h) (h_quit h) (h_nlocks h) (h_nfiles h) (h_volume h)
    (h_volname h) (h_volname_orig h) (h_names h) (h_locks h) v (h_fresh h) (h_devlist h) (h_spec h)
    (h_devname h) (h_origin h) (h_lowcyl h) (h_envec h) (h_published h) (h_next_name_idx h) (h_claim h)
    (h_answers h) (h_trace h).
Definition set_h_fresh (v : addr) (h : handler) : handler :=
  mk_handler (h_world h) (h_mounted h) (h_inhibited h) (h_quit h) (h_nlocks h) (h_nfiles h) (h_volume h)
    (h_volname h) (h_volname_orig h) (h_names h) (h_locks h) (h_files h) v (h_devlist h) (h_spec h)
    (h_devname h) (h_origin h) (h_lowcyl h) (h_envec h) (h_published h) (h_next_name_idx h) (h_claim h)
    (h_answers h) (h_trace h).
Definition set_h_devlist (v : DosList) (h : handler) : handler :=
  mk_handler (h_world h) (h_mounted h) (h_inhibited h) (h_quit h) (h_nlocks h) (h_nfiles h) (h_volume h)
    (h_volname h) (h_volname_orig h) (h_names h) (h_locks h) (h_files h) (h_fresh h) v (h_spec h)
    (h_devname h) (h_origin h) (h_lowcyl h) (h_envec h) (h_published h) (h_next_name_idx h) (h_claim h)
    (h_answers h) (h_trace h).
Definition set_h_spec (v : ExfatDevSpec) (h : handler) : handler :=
  mk_handler (h_world h) (h_mounted h) (h_inhibited h) (h_quit h) (h_nlocks h) (h_nfiles h) (h_volume h)
    (h_volname h) (h_volname_orig h) (h_names h) (h_locks h) (h_files h) (h_fresh h) (h_devlist h) v
    (h_devname h) (h_origin h) (h_lowcyl h) (h_envec h) (h_published h) (h_next_name_idx h) (h_claim h)
    (h_answers h) (h_trace h).
Definition set_h_devname (v : list Z) (h : handler) : handler :=
  mk_handler (h_world h) (h_mounted h) (h_inhibited h) (h_quit h) (h_nlocks h) (h_nfiles h) (h_volume h)
    (h_volname h) (h_volname_orig h) (h_names h) (h_locks h) (h_files h) (h_fresh h) (h_devlist h) (h_spec h)
    v (h_origin h) (h_lowcyl h) (h_envec h) (h_published h) (h_next_name_idx h) (h_claim h) (h_answers h)
    (h_trace h).
Definition set_h_origin (v : Z) (h : handler) : handler :=
  mk_handler (h_world h) (h_mounted h) (h_inhibited h) (h_quit h) (h_nlocks h) (h_nfiles h) (h_volume h)
    (h_volname h) (h_volname_orig h) (h_names h) (h_locks h) (h_files h) (h_fresh h) (h_devlist h) (h_spec h)
    (h_devname h) v (h_lowcyl h) (h_envec h) (h_published h) (h_next_name_idx h) (h_claim h) (h_answers h)
    (h_trace h).
Definition set_h_lowcyl (v : Z) (h : handler) : handler :=
  mk_handler (h_world h) (h_mounted h) (h_inhibited h) (h_quit h) (h_nlocks h) (h_nfiles h) (h_volume h)
    (h_volname h) (h_volname_orig h) (h_names h) (h_locks h) (h_files h) (h_fresh h) (h_devlist h) (h_spec h)
    (h_devname h) (h_origin h) v (h_envec h) (h_published h) (h_next_name_idx h) (h_claim h) (h_answers h)
    (h_trace h).
Definition set_h_envec (v : DosEnvec) (h : handler) : handler :=
  mk_handler (h_world h) (h_mounted h) (h_inhibited h) (h_quit h) (h_nlocks h) (h_nfiles h) (h_volume h)
    (h_volname h) (h_volname_orig h) (h_names h) (h_locks h) (h_files h) (h_fresh h) (h_devlist h) (h_spec h)
    (h_devname h) (h_origin h) (h_lowcyl h) v (h_published h) (h_next_name_idx h) (h_claim h) (h_answers h)
    (h_trace h).
Definition set_h_published (v : list (list Z)) (h : handler) : handler :=
  mk_handler (h_world h) (h_mounted h) (h_inhibited h) (h_quit h) (h_nlocks h) (h_nfiles h) (h_volume h)
    (h_volname h) (h_volname_orig h) (h_names h) (h_locks h) (h_files h) (h_fresh h) (h_devlist h) (h_spec h)
    (h_devname h) (h_origin h) (h_lowcyl h) (h_envec h) v (h_next_name_idx h) (h_claim h) (h_answers h)
    (h_trace h).
Definition set_h_next_name_idx (v : Z) (h : handler) : handler :=
  mk_handler (h_world h) (h_mounted h) (h_inhibited h) (h_quit h) (h_nlocks h) (h_nfiles h) (h_volume h)
    (h_volname h) (h_volname_orig h) (h_names h) (h_locks h) (h_files h) (h_fresh h) (h_devlist h) (h_spec h)
    (h_devname h) (h_origin h) (h_lowcyl h) (h_envec h) (h_published h) v (h_claim h) (h_answers h)
    (h_trace h).
Definition set_h_claim (v : option (list Z)) (h : handler) : handler :=
  mk_handler (h_world h) (h_mounted h) (h_inhibited h) (h_quit h) (h_nlocks h) (h_nfiles h) (h_volume h)
    (h_volname h) (h_volname_orig h) (h_names h) (h_locks h) (h_files h) (h_fresh h) (h_devlist h) (h_spec h)
    (h_devname h) (h_origin h) (h_lowcyl h) (h_envec h) (h_published h) (h_next_name_idx h) v (h_answers h)
    (h_trace h).
Definition set_h_answers (v : list bool) (h : handler) : handler :=
  mk_handler (h_world h) (h_mounted h) (h_inhibited h) (h_quit h) (h_nlocks h) (h_nfiles h) (h_volume h)
    (h_volname h) (h_volname_orig h) (h_names h) (h_locks h) (h_files h) (h_fresh h) (h_devlist h) (h_spec h)
    (h_devname h) (h_origin h) (h_lowcyl h) (h_envec h) (h_published h) (h_next_name_idx h) (h_claim h) v
    (h_trace h).
Definition set_h_trace (v : list effect) (h : handler) : handler :=
  mk_handler (h_world h) (h_mounted h) (h_inhibited h) (h_quit h) (h_nlocks h) (h_nfiles h) (h_volume h)
    (h_volname h) (h_volname_orig h) (h_names h) (h_locks h) (h_files h) (h_fresh h) (h_devlist h) (h_spec h)
    (h_devname h) (h_origin h) (h_lowcyl h) (h_envec h) (h_published h) (h_next_name_idx h) (h_claim h)
    (h_answers h) v.


#[export] Instance handler_world : Part handler world.
Proof. refine {| part := h_world; set_part := set_h_world |}; [done | by intros [] | done]. Defined.

(** Packets, with their arguments.  [fh] tells whether the pointer to the FileHandle is not
    null; [base] and [lock] are locks, [file] is the [fh_Arg1] of an open file. *)
Inductive packet : Type :=
| ACTION_LOCATE_OBJECT (base : option addr) (name : list Z)
| ACTION_FREE_LOCK (lock : option addr)
| ACTION_COPY_DIR (lock : option addr)
| ACTION_COPY_DIR_FH (file : option addr)
| ACTION_PARENT_FH (file : option addr)
| ACTION_PARENT (lock : option addr)
| ACTION_SAME_LOCK (a b : option addr)
| ACTION_EXAMINE_OBJECT (lock : option addr) (fib : FileInfoBlock)
| ACTION_EXAMINE_NEXT (lock : option addr) (fib : FileInfoBlock)
| ACTION_EXAMINE_FH (file : option addr) (fib : option FileInfoBlock)
| ACTION_FINDINPUT (fh : bool) (base : option addr) (name : list Z)
| ACTION_FINDOUTPUT (fh : bool) (base : option addr) (name : list Z)
| ACTION_FINDUPDATE (fh : bool) (base : option addr) (name : list Z)
| ACTION_FH_FROM_LOCK (fh : bool) (lock : option addr)
| ACTION_READ (file : option addr) (buffer : list Z) (length : Z)
| ACTION_WRITE (file : option addr) (buffer : list Z) (length : Z)
| ACTION_SEEK (file : option addr) (offset mode : Z)
| ACTION_SET_FILE_SIZE (file : option addr) (offset mode : Z)
| ACTION_END (file : option addr)
| ACTION_SET_PROTECT (base : option addr) (name : list Z) (bits : Z)
| ACTION_SET_DATE (base : option addr) (name : list Z) (ds : option DateStamp)
| ACTION_SET_COMMENT (base : option addr) (name : list Z) (comment : option (list Z))
| ACTION_DELETE_OBJECT (base : option addr) (name : list Z)
| ACTION_CREATE_DIR (base : option addr) (name : list Z)
| ACTION_RENAME_OBJECT (srcbase : option addr) (src : list Z) (dstbase : option addr) (dst : list Z)
| ACTION_RENAME_DISK (name : option (list Z))
| ACTION_FORMAT (label : option (list Z))
| ACTION_INFO
| ACTION_DISK_INFO
| ACTION_CURRENT_VOLUME
| ACTION_IS_FILESYSTEM
| ACTION_FLUSH
| ACTION_INHIBIT (on : Z)
| ACTION_DIE
| ACTION_OTHER (type : Z).

Section Handler.
Context `{Platform}.

(** *** Calls *)

(** A call of libexfat on [h->ef]. *)
Definition on_ef {A} (m : M world A) : M handler A := on_part m.

Definition emit (e : effect) : M handler unit := modify (fun h => set_h_trace (h_trace h ++ [e]) h).

Definition reply (res1 res2 : Z) : M handler unit := emit (ReplyPkt (Num res1) res2).

(** A call that AmigaOS may refuse. *)
Definition ask : M handler bool := fun h =>
  match h_answers h with
  | [] => Ok true h
  | b :: answers => Ok b (set_h_answers answers h)
  end.

(** The next address of the allocator, or [None]. *)
Definition AllocVec : M handler (option addr) :=
  let! ok := ask in
  if negb ok then ret None
  else
    let! h := get_state in
    modify (set_h_fresh (h_fresh h + 1)%N);;
    ret (Some (h_fresh h)).

Definition deref_lock (lock : option addr) : M handler ExfatLock :=
  match lock with
  | None => bad_pointer
  | Some a => fun h => match h_locks h !! a with Some l => Ok l h | None => Halt BadPointer h end
  end.

Definition set_lock (a : addr) (l : ExfatLock) : M handler unit := modify (fun h => set_h_locks (<[a := l]> (h_locks h)) h).

Definition assign_lock (lock : option addr) (f : ExfatLock -> ExfatLock) : M handler unit :=
  let! l := deref_lock lock in
  match lock with None => bad_pointer | Some a => set_lock a (f l) end.

Definition deref_file (file : option addr) : M handler ExfatFile :=
  match file with
  | None => bad_pointer
  | Some a => fun h => match h_files h !! a with Some f => Ok f h | None => Halt BadPointer h end
  end.

Definition set_file (a : addr) (f : ExfatFile) : M handler unit := modify (fun h => set_h_files (<[a := f]> (h_files h)) h).

Definition set_volume (f : DeviceList -> DeviceList) : M handler unit :=
  modify (fun h => set_h_volume (option_map f (h_volume h)) h).

(** The node of a lock, or the root for a null lock. *)
Definition lock_node (lock : option addr) : M handler (option ptr) :=
  match lock with
  | None => gets (fun h => w_root (h_world h))
  | Some _ => let! l := deref_lock lock in ret (lk_node l)
  end.

(** [h->ef.ro] *)
Definition read_only (h : handler) : bool := negb (ef_ro (w_ef (h_world h)) =? 0).

(** *** Locks *)

(** The lock takes over the caller's reference to [node]. *)
Definition exfat_amiga_makelock (node : option ptr) (access : Z) : M handler (option addr) :=
  let! a := AllocVec in
  match a with
  | None => ret None
  | Some a =>
      let! n := on_ef (deref node) in
      let! h := get_state in
      set_lock a {|
        fl_Link := match h_volume h with Some v => dl_LockList v | None => None end;
        fl_Key := i32 (n_start_cluster n);
        fl_Access := access;
        fl_Volume := option_map dl_addr (h_volume h);
        lk_node := node;
        lk_scan_next := None;
        lk_scan_index := -1 |};;
      set_volume (set_dl_LockList (Some a));;
      modify (fun h => set_h_nlocks (u32 (h_nlocks h + 1)) h);;
      ret (Some a)
  end.

(** [*prev = next], where [prev] is the list head or the link of a lock. *)
Definition set_link (prev next : option addr) : M handler unit :=
  match prev with
  | None => set_volume (set_dl_LockList next)
  | Some _ => assign_lock prev (set_fl_Link next)
  end.

(** The loop that takes a lock off the list. *)
Fixpoint unlink_lock (fuel : nat) (prev cur : option addr) (lock : addr) : M handler unit :=
  match cur with
  | None => ret tt
  | Some a =>
      match fuel with
      | O => diverge
      | S fuel =>
          let! l := deref_lock cur in
          if bool_decide (a = lock) then set_link prev (fl_Link l)
          else unlink_lock fuel cur (fl_Link l) lock
      end
  end.

(** A turn for each lock is enough. *)
Definition lock_fuel (h : handler) : nat := S (size (h_locks h)).

Definition exfat_amiga_freelock (lock : option addr) : M handler unit :=
  match lock with
  | None => ret tt
  | Some a =>
      let! h := get_state in
      match h_volume h with
      | Some v => unlink_lock (lock_fuel h) None (dl_LockList v) a
      | None => ret tt
      end;;
      let! l := deref_lock lock in
      match lk_node l with
      | Some _ => on_ef (exfat_put_node (lk_node l))
      | None => ret tt
      end;;
      modify (fun h => set_h_nlocks (u32 (h_nlocks h - 1)) (set_h_locks (delete a (h_locks h)) h))
  end.

(** [ReplyPkt(pkt, (LONG)MKBADDR(lock), 0)] when there is a lock; else the reference is given
    back. *)
Definition reply_lock (node : option ptr) (lock : option addr) : M handler unit :=
  match lock with
  | None => on_ef (exfat_put_node node);; reply DOSFALSE ERROR_NO_FREE_STORE
  | Some a => emit (ReplyPkt (LockPtr a) 0)
  end.

(** *** Names *)

Definition is_lead (u : Z) : bool := Z.land u 0xfc00 =? 0xd800.
Definition is_trail (u : Z) : bool := Z.land u 0xfc00 =? 0xdc00.

(** The loop of [name_is_sane] from the unit [i] on, the head of [name];
    [n = EXFAT_NAME_MAX - i]. *)
Fixpoint name_sane_loop (n : nat) (name : list Z) : bool :=
  match n with
  | O => true
  | S n' =>
      let u := hd 0 name in
      if u =? 0 then true
      else if is_lead u then
        match n' with
        | O => false
        | S n'' => if negb (is_trail (hd 0 (tl name))) then false else name_sane_loop n'' (tl (tl name))
        end
      else if is_trail u then false
      else name_sane_loop n' (tl name)
  end.

Definition name_is_sane (node : exfat_node) : bool := name_sane_loop (Z.to_nat EXFAT_NAME_MAX) (n_name node).

Definition safe_get_name {S} (node : exfat_node) : M S (list Z) :=
  if name_is_sane node then exfat_get_name node else ret (str "<bad name>").

(** *** Paths *)

(** The loop that climbs to the root; [fuel = 64 - depth].  The nodes on the way, the
    highest one first. *)
Fixpoint path_chain (fuel : nat) (node : option ptr) (chain : list ptr) : M world (option (list ptr)) :=
  match fuel with
  | O => ret None
  | S fuel =>
      match node with
      | None => ret (Some chain)
      | Some p =>
          let! w := get_state in
          if bool_decide (node = w_root w) then ret (Some chain)
          else
            let! n := deref node in
            path_chain fuel (n_parent n) (p :: chain)
      end
  end.

(** The loop that joins the names; [buf] is what was stored. *)
Fixpoint join_path (chain : list ptr) (size : Z) (buf : list Z) : M world (option (list Z)) :=
  match chain with
  | [] => ret (Some buf)
  | p :: chain =>
      let! n := deref (Some p) in
      let! name := safe_get_name n in
      if size <? zlen buf + zlen name + 2 then ret None
      else join_path chain size (buf ++ name ++ match chain with [] => [] | _ => [slash] end)
  end.

Definition node_abs_path (node : option ptr) (size : Z) : M world (option (list Z)) :=
  let! chain := path_chain 64 node [] in
  match chain with
  | None => ret None
  | Some chain => join_path chain size [slash]
  end.

Definition colon : Z := 0x3a.

(** [strchr(s, c)]: the bytes before [c] and those behind it. *)
Fixpoint split_at (c : Z) (s : list Z) : option (list Z * list Z) :=
  match s with
  | [] => None
  | x :: s => if x =? c then Some ([], s) else match split_at c s with Some (a, b) => Some (x :: a, b) | None => None end
  end.

(** What is left of [abs] when the bytes behind its last slash are dropped, and the slash;
    the argument is [abs] backwards. *)
Fixpoint climb_rev (abs : list Z) : list Z :=
  match abs with
  | [] => []
  | c :: abs => if c =? slash then abs else climb_rev abs
  end.

Definition climb (abs : list Z) : list Z := rev (climb_rev (rev abs)).

(** The loop over the components; a turn takes a byte of [p] at least. *)
Fixpoint path_loop (fuel : nat) (p abs : list Z) : option (list Z) :=
  match p, fuel with
  | [], _ => Some abs
  | _, O => None
  | c :: rest, S fuel =>
      if c =? slash then path_loop fuel rest (climb abs)
      else
        let '(comp, p) := match split_at slash p with Some (comp, rest) => (comp, rest) | None => (p, []) end in
        if MAX_PATH_UTF8 <? zlen abs + zlen comp + 2 then None
        else path_loop fuel p (abs ++ slash :: comp)
  end.

(** [None] when the path does not fit. *)
Definition resolve_path (base : option addr) (bpath : list Z) : M handler (option (list Z)) :=
  let rel := c_string (exfat_amiga_bstr_to_utf8 bpath MAX_PATH_UTF8) in
  let '(base, p) :=
    match split_at colon rel with
    | Some ([], rest) => (None, rest)
    | Some (_, rest) => (base, rest)
    | None => (base, rel)
    end in
  let! abs :=
    match base with
    | None => ret (Some [slash])
    | Some _ =>
        let! l := deref_lock base in
        on_ef (node_abs_path (lk_node l) MAX_PATH_UTF8)
    end in
  match abs with
  | None => ret None
  | Some abs =>
      let abs := if (1 <? zlen abs) && (List.last abs 0 =? slash) then List.removelast abs else abs in
      let abs := if zlen abs =? 1 then [] else abs in
      match path_loop (length p) p abs with
      | None => ret None
      | Some abs =>
          let abs := match abs with [] => [slash] | _ => abs end in
          if MAX_PATH_UTF8 <? zlen abs + 1 then ret None else ret (Some abs)
      end
  end.

(** *** FileInfoBlock *)

(** The bytes of [fib_FileName]: a BSTR of at most [maxlen] characters in 108 zeros. *)
Definition fib_name (utf8 : list Z) (maxlen : Z) : M handler (list Z) :=
  match exfat_amiga_name_to_bstr utf8 maxlen with
  | None => fun h => Halt OutOfBounds h
  | Some bytes => ret (splice (zrepeat 0 108) 0 bytes)
  end.

Definition fill_fib (node : option ptr) (fib : FileInfoBlock) (diskkey : Z) (is_root : bool) : M handler FileInfoBlock :=
  let! n := on_ef (deref node) in
  let! h := get_state in
  let ef := w_ef (h_world h) in
  let clustersize := u32 (CLUSTER_SIZE (ef_sb ef)) in
  let! name :=
    if is_root then fib_name (c_string (exfat_get_label ef)) 30
    else (let! name := safe_get_name n in fib_name name 106) in
  let type := if is_root then ST_ROOT else if is_dir n then ST_USERDIR else ST_FILE in
  let protection :=
    Z.lor (if read_only h || negb (Z.land (n_attrib n) EXFAT_ATTRIB_RO =? 0) then Z.lor FIBF_WRITE FIBF_DELETE else 0)
          (if negb (Z.land (n_attrib n) EXFAT_ATTRIB_ARCH =? 0) then FIBF_ARCHIVE else 0) in
  ret {|
    fib_DiskKey := diskkey;
    fib_DirEntryType := type;
    fib_FileName := name;
    fib_Protection := protection;
    fib_EntryType := type;
    fib_Size := if is_dir n then 0 else if 0x7fffffff <? n_size n then 0x7fffffff else n_size n;
    fib_NumBlocks := if is_dir n then 0 else i32 (u64 (n_size n + clustersize - 1) / clustersize);
    fib_Date := exfat_amiga_time_to_datestamp (n_mtime n);
    fib_Comment := 0;
    fib_OwnerUID := 0;
    fib_OwnerGID := 0;
    fib_Reserved := fib_Reserved fib |}.

(** *** Packets about locks *)

Definition do_locate_object (base : option addr) (name : list Z) : M handler unit :=
  let! path := resolve_path base name in
  match path with
  | None => reply DOSFALSE ERROR_OBJECT_NOT_FOUND
  | Some path =>
      let! (rc, node) := on_ef (exfat_lookup path) in
      if negb (rc =? 0) then reply DOSFALSE ERROR_OBJECT_NOT_FOUND
      else
        let! lock := exfat_amiga_makelock node SHARED_LOCK in
        reply_lock node lock
  end.

(** Another lock on a node. *)
Definition share (node : option ptr) : M handler unit :=
  on_ef (exfat_get_node node);;
  let! lock := exfat_amiga_makelock node SHARED_LOCK in
  reply_lock node lock.

Definition do_copy_dir (src : option addr) : M handler unit :=
  let! node := lock_node src in
  share node.

Definition do_lock_from_fh (file : option addr) (want_parent : bool) : M handler unit :=
  match file with
  | None => reply 0 ERROR_INVALID_LOCK
  | Some _ =>
      let! f := deref_file file in
      match fi_node f with
      | None => reply 0 ERROR_INVALID_LOCK
      | Some _ =>
          if want_parent then
            let! n := on_ef (deref (fi_node f)) in
            let! h := get_state in
            share (match n_parent n with None => w_root (h_world h) | parent => parent end)
          else share (fi_node f)
      end
  end.

Definition do_parent (src : option addr) : M handler unit :=
  match src with
  | None => reply 0 0
  | Some _ =>
      let! l := deref_lock src in
      let! h := get_state in
      if bool_decide (lk_node l = w_root (h_world h)) then reply 0 0
      else
        let! n := on_ef (deref (lk_node l)) in
        match n_parent n with
        | None => reply 0 0
        | parent => share parent
        end
  end.

Definition do_same_lock (a b : option addr) : M handler unit :=
  let! na := lock_node a in
  let! nb := lock_node b in
  reply (if bool_decide (na = nb) then DOSTRUE else DOSFALSE) 0.

Definition set_scan (lock : option addr) (next : option ptr) (index : Z) : M handler unit :=
  match lock with
  | None => ret tt
  | Some _ => assign_lock lock (fun l => set_lk_scan_index index (set_lk_scan_next next l))
  end.

Definition do_examine_object (lock : option addr) (fib : FileInfoBlock) : M handler unit :=
  let! node := lock_node lock in
  let! h := get_state in
  let! fib := fill_fib node fib 0 (bool_decide (node = w_root (h_world h))) in
  emit (StoreFib fib);;
  set_scan lock None (-1);;
  reply DOSTRUE 0.

(** The loop of [do_examine_next] over the directory: whether the entry was found. *)
Fixpoint examine_loop (fuel : nat) (lock : option addr) (fib : FileInfoBlock) (it : exfat_iterator) (want index : Z)
  : M handler (bool * exfat_iterator) :=
  match fuel with
  | O => diverge
  | S fuel =>
      let! (node, it) := on_ef (exfat_readdir it) in
      match node with
      | None => ret (false, it)
      | Some _ =>
          if index =? want then
            let! fib := fill_fib node fib (i32 (want + 1)) false in
            emit (StoreFib fib);;
            let! n := on_ef (deref node) in
            set_scan lock (n_next n) (i32 (want + 1));;
            on_ef (exfat_put_node node);;
            ret (true, it)
          else
            on_ef (exfat_put_node node);;
            examine_loop fuel lock fib it want (index + 1)
      end
  end.

(** The entry that the lock remembers, when it can be used. *)
Definition scan_hit (lock : option addr) (dir : exfat_node) (want : Z) : M handler (option ptr) :=
  match lock with
  | None => ret None
  | Some _ =>
      let! l := deref_lock lock in
      ret (if (lk_scan_index l =? want) && n_is_cached dir then lk_scan_next l else None)
  end.

Definition do_examine_next (lock : option addr) (fib : FileInfoBlock) : M handler unit :=
  let! dir := lock_node lock in
  let! d := on_ef (deref dir) in
  if negb (is_dir d) then reply DOSFALSE ERROR_OBJECT_WRONG_TYPE
  else
    let want := fib_DiskKey fib in
    let! hit := scan_hit lock d want in
    match hit with
    | Some _ =>
        let! fib := fill_fib hit fib (i32 (want + 1)) false in
        emit (StoreFib fib);;
        let! n := on_ef (deref hit) in
        set_scan lock (n_next n) (i32 (want + 1));;
        reply DOSTRUE 0
    | None =>
        let! (rc, it) := on_ef (exfat_opendir dir) in
        if negb (rc =? 0) then reply DOSFALSE ERROR_NO_MORE_ENTRIES
        else
          let! h := get_state in
          let! (found, it) := examine_loop (tree_fuel (h_world h)) lock fib it want 0 in
          on_ef (exfat_closedir it);;
          if found : bool then reply DOSTRUE 0
          else
            set_scan lock None (-1);;
            reply DOSFALSE ERROR_NO_MORE_ENTRIES
    end.

Definition map_errno (rc : Z) : Z :=
  let e := Z.abs rc in
  if e =? 0 then 0
  else if e =? ENOENT then ERROR_OBJECT_NOT_FOUND
  else if e =? EEXIST then ERROR_OBJECT_EXISTS
  else if e =? ENOSPC then ERROR_DISK_FULL
  else if e =? EROFS then ERROR_DISK_WRITE_PROTECTED
  else if (e =? EISDIR) || (e =? ENOTDIR) then ERROR_OBJECT_WRONG_TYPE
  else if e =? ENOTEMPTY then ERROR_DIRECTORY_NOT_EMPTY
  else if (e =? EACCES) || (e =? EPERM) then ERROR_WRITE_PROTECTED
  else if e =? ENAMETOOLONG then ERROR_INVALID_COMPONENT_NAME
  else if e =? ENOMEM then ERROR_NO_FREE_STORE
  else if e =? EIO then ERROR_SEEK_ERROR
  else ERROR_OBJECT_NOT_FOUND.

(** *** Packets about files *)

(** [None] for an unknown mode. *)
Definition resolve_offset (arg mode current end_ : Z) : option Z :=
  if mode =? OFFSET_BEGINNING then Some (u32 arg)
  else if mode =? OFFSET_CURRENT then Some (current + arg)
  else if mode =? OFFSET_END then Some (end_ - u32 (- arg))
  else None.

Inductive open_kind := OPEN_OLD | OPEN_NEW | OPEN_UPDATE.

#[global] Instance open_kind_eq_dec : EqDecision open_kind.
Proof. solve_decision. Defined.

(** The end of [do_open]: the file takes over the reference to [node]. *)
Definition open_file (node : option ptr) (writable : bool) : M handler unit :=
  let! a := AllocVec in
  match a with
  | None => on_ef (exfat_put_node node);; reply DOSFALSE ERROR_NO_FREE_STORE
  | Some a =>
      set_file a (mk_file node 0 writable);;
      emit (StoreHandle a);;
      modify (fun h => set_h_nfiles (u32 (h_nfiles h + 1)) h);;
      reply DOSTRUE 0
  end.

Definition do_open (fh : bool) (base : option addr) (name : list Z) (mode : open_kind) : M handler unit :=
  let want_write := negb (bool_decide (mode = OPEN_OLD)) in
  let! path := if fh then resolve_path base name else ret None in
  match path with
  | None => reply DOSFALSE ERROR_OBJECT_NOT_FOUND
  | Some path =>
      let! h := get_state in
      if want_write && (h_inhibited h || read_only h) then reply DOSFALSE ERROR_DISK_WRITE_PROTECTED
      else
        let! (rc, node) := on_ef (exfat_lookup path) in
        if negb (rc =? 0) then
          if negb want_write then reply DOSFALSE ERROR_OBJECT_NOT_FOUND
          else
            let! rc := on_ef (exfat_mknod path) in
            let! (rc, node) := if rc =? 0 then on_ef (exfat_lookup path) else ret (rc, None) in
            if negb (rc =? 0) then reply DOSFALSE (map_errno rc)
            else open_file node want_write
        else
          let! n := on_ef (deref node) in
          if is_dir n then
            on_ef (exfat_put_node node);;
            reply DOSFALSE ERROR_OBJECT_WRONG_TYPE
          else if bool_decide (mode = OPEN_NEW) then
            let! rc := on_ef (with_node node (exfat_truncate 0 true)) in
            if negb (rc =? 0) then
              on_ef (exfat_flush_node node);;
              on_ef (exfat_put_node node);;
              reply DOSFALSE (map_errno rc)
            else open_file node want_write
          else open_file node want_write
  end.

Definition do_examine_fh (file : option addr) (fib : option FileInfoBlock) : M handler unit :=
  match file, fib with
  | Some _, Some fib =>
      let! f := deref_file file in
      match fi_node f with
      | None => reply DOSFALSE ERROR_INVALID_LOCK
      | Some _ =>
          let! fib := fill_fib (fi_node f) fib 0 false in
          emit (StoreFib fib);;
          reply DOSTRUE 0
      end
  | _, _ => reply DOSFALSE ERROR_INVALID_LOCK
  end.

Definition do_fh_from_lock (fh : bool) (lock : option addr) : M handler unit :=
  match fh, lock with
  | true, Some _ =>
      let! l := deref_lock lock in
      match lk_node l with
      | None => reply DOSFALSE ERROR_INVALID_LOCK
      | Some _ =>
          let! n := on_ef (deref (lk_node l)) in
          if is_dir n then reply DOSFALSE ERROR_OBJECT_WRONG_TYPE
          else
            let! a := AllocVec in
            match a with
            | None => reply DOSFALSE ERROR_NO_FREE_STORE
            | Some a =>
                on_ef (exfat_get_node (lk_node l));;
                set_file a (mk_file (lk_node l) 0 (fl_Access l =? EXCLUSIVE_LOCK));;
                exfat_amiga_freelock lock;;
                emit (StoreHandle a);;
                modify (fun h => set_h_nfiles (u32 (h_nfiles h + 1)) h);;
                reply DOSTRUE 0
            end
      end
  | _, _ => reply DOSFALSE ERROR_INVALID_LOCK
  end.

(** [file->pos = pos] *)
Definition set_pos (file : option addr) (pos : Z) : M handler unit :=
  let! f := deref_file file in
  match file with None => bad_pointer | Some a => set_file a (set_fi_pos pos f) end.

Definition do_write (file : option addr) (buffer : list Z) (length : Z) : M handler unit :=
  match file with
  | None => reply (-1) ERROR_INVALID_LOCK
  | Some _ =>
      if length <? 0 then reply (-1) ERROR_INVALID_LOCK
      else
        let! f := deref_file file in
        let! h := get_state in
        if h_inhibited h || read_only h || negb (fi_writable f) then reply (-1) ERROR_DISK_WRITE_PROTECTED
        else if length =? 0 then reply 0 0
        else
          let! n := on_ef (with_node (fi_node f) (exfat_generic_pwrite buffer length (fi_pos f))) in
          if n <? 0 then reply (-1) (map_errno n)
          else
            set_pos file (fi_pos f + n);;
            reply (i32 n) 0
  end.

Definition do_set_file_size (file : option addr) (offset mode : Z) : M handler unit :=
  match file with
  | None => reply (-1) ERROR_INVALID_LOCK
  | Some _ =>
      let! f := deref_file file in
      let! h := get_state in
      if h_inhibited h || read_only h || negb (fi_writable f) then reply (-1) ERROR_DISK_WRITE_PROTECTED
      else
        let! n := on_ef (deref (fi_node f)) in
        match resolve_offset offset mode (fi_pos f) (i64 (n_size n)) with
        | None => reply (-1) ERROR_SEEK_ERROR
        | Some newsize =>
            if newsize <? 0 then reply (-1) ERROR_SEEK_ERROR
            else
              let! rc := on_ef (with_node (fi_node f) (exfat_truncate (u64 newsize) true)) in
              if negb (rc =? 0) then reply (-1) (map_errno rc)
              else
                (if newsize <? fi_pos f then set_pos file newsize else ret tt);;
                reply (i32 (u32 newsize)) 0
        end
  end.

Definition do_end (file : option addr) : M handler unit :=
  let! err :=
    match file with
    | None => ret 0
    | Some a =>
        let! f := deref_file file in
        let! h := get_state in
        let! err :=
          if negb (read_only h) && negb (h_inhibited h) then
            let! rc := on_ef (exfat_flush_node (fi_node f)) in
            ret (if negb (rc =? 0) then ERROR_DISK_FULL else 0)
          else ret 0 in
        on_ef (exfat_put_node (fi_node f));;
        modify (fun h => set_h_nfiles (u32 (h_nfiles h - 1)) (set_h_files (delete a (h_files h)) h));;
        ret err
    end in
  reply (if negb (err =? 0) then DOSFALSE else DOSTRUE) err.

Definition do_read (file : option addr) (buffer : list Z) (length : Z) : M handler unit :=
  match file with
  | None => reply (-1) ERROR_INVALID_LOCK
  | Some _ =>
      if length <? 0 then reply (-1) ERROR_INVALID_LOCK
      else if length =? 0 then reply 0 0
      else
        let! f := deref_file file in
        let! (n, buffer) := on_ef (with_node (fi_node f) (exfat_generic_pread buffer length (fi_pos f))) in
        emit (StoreData buffer);;
        if n <? 0 then reply (-1) ERROR_SEEK_ERROR
        else
          set_pos file (fi_pos f + n);;
          reply (i32 n) 0
  end.

Definition do_seek (file : option addr) (offset mode : Z) : M handler unit :=
  match file with
  | None => reply (-1) ERROR_INVALID_LOCK
  | Some _ =>
      let! f := deref_file file in
      let oldpos := fi_pos f in
      let! n := on_ef (deref (fi_node f)) in
      let newpos :=
        if mode =? OFFSET_BEGINNING then Some (u32 offset)
        else if mode =? OFFSET_CURRENT then Some (oldpos + offset)
        else if mode =? OFFSET_END then Some (i64 (n_size n) - u32 (- offset))
        else None in
      match newpos with
      | None => reply (-1) ERROR_SEEK_ERROR
      | Some newpos =>
          if (newpos <? 0) || (n_size n <? newpos) then reply (-1) ERROR_SEEK_ERROR
          else
            set_pos file newpos;;
            reply (i32 (u32 oldpos)) 0
      end
  end.

(** *** Packets about objects *)

(** The node that a lock and a path name, or an error. *)
Definition lookup_arg23 (base : option addr) (name : list Z) : M handler (option ptr * Z) :=
  let! path := resolve_path base name in
  match path with
  | None => ret (None, ERROR_OBJECT_NOT_FOUND)
  | Some path =>
      let! (rc, node) := on_ef (exfat_lookup path) in
      if negb (rc =? 0) then ret (None, map_errno rc) else ret (node, 0)
  end.

(** [ReplyPkt(pkt, err ? DOSFALSE : DOSTRUE, err)] *)
Definition reply_err (err : Z) : M handler unit := reply (if negb (err =? 0) then DOSFALSE else DOSTRUE) err.

(** Write the node back; the error code. *)
Definition flush_err (node : option ptr) : M handler Z :=
  let! rc := on_ef (exfat_flush_node node) in
  ret (if negb (rc =? 0) then ERROR_DISK_FULL else 0).

Definition do_set_protect (base : option addr) (name : list Z) (bits : Z) : M handler unit :=
  let! h := get_state in
  if h_inhibited h || read_only h then reply DOSFALSE ERROR_DISK_WRITE_PROTECTED
  else
    let! (node, err) := lookup_arg23 base name in
    match node with
    | None => reply DOSFALSE err
    | Some _ =>
        let! n := on_ef (deref node) in
        let attrib :=
          if negb (Z.land bits (Z.lor FIBF_WRITE FIBF_DELETE) =? 0) then Z.lor (n_attrib n) EXFAT_ATTRIB_RO
          else Z.ldiff (n_attrib n) EXFAT_ATTRIB_RO in
        let attrib :=
          if negb (Z.land bits FIBF_ARCHIVE =? 0) then Z.lor attrib EXFAT_ATTRIB_ARCH
          else Z.ldiff attrib EXFAT_ATTRIB_ARCH in
        let! err :=
          if negb (attrib =? n_attrib n) then
            on_ef (assign node (fun n => set_n_is_dirty true (set_n_attrib attrib n)));;
            flush_err node
          else ret err in
        on_ef (exfat_put_node node);;
        reply_err err
    end.

Definition do_set_date (base : option addr) (name : list Z) (ds : option DateStamp) : M handler unit :=
  let! h := get_state in
  if read_only h then reply DOSFALSE ERROR_DISK_WRITE_PROTECTED
  else
    match ds with
    | None => reply DOSFALSE ERROR_BAD_NUMBER
    | Some ds =>
        let! (node, err) := lookup_arg23 base name in
        match node with
        | None => reply DOSFALSE err
        | Some _ =>
            on_ef (assign node (fun n => set_n_is_dirty true (set_n_mtime (exfat_amiga_datestamp_to_time ds) n)));;
            let! err := flush_err node in
            on_ef (exfat_put_node node);;
            reply_err err
        end
    end.

Definition do_set_comment (base : option addr) (name : list Z) (comment : option (list Z)) : M handler unit :=
  let! h := get_state in
  if h_inhibited h || read_only h then reply DOSFALSE ERROR_DISK_WRITE_PROTECTED
  else if match comment with Some comment => negb (znth comment 0 =? 0) | None => false end then
    reply DOSFALSE ERROR_ACTION_NOT_KNOWN
  else
    let! (node, err) := lookup_arg23 base name in
    match node with
    | None => reply DOSFALSE err
    | Some _ =>
        on_ef (exfat_put_node node);;
        reply DOSTRUE 0
    end.

(** A walk along the locks of the volume that changes each of them. *)
Fixpoint scan_walk (fuel : nat) (b : option addr) (f : ExfatLock -> ExfatLock) : M handler unit :=
  match b with
  | None => ret tt
  | Some a =>
      match fuel with
      | O => diverge
      | S fuel =>
          let! l := deref_lock b in
          set_lock a (f l);;
          scan_walk fuel (fl_Link l) f
      end
  end.

(** Scans that are about to return [node] go on behind it. *)
Definition scan_skip_node (node : option ptr) : M handler unit :=
  let! h := get_state in
  match h_volume h with
  | None => ret tt
  | Some v =>
      let! n := on_ef (deref node) in
      scan_walk (lock_fuel h) (dl_LockList v)
        (fun l => if bool_decide (lk_scan_next l = node) then set_lk_scan_next (n_next n) l else l)
  end.

Definition scan_invalidate_all : M handler unit :=
  let! h := get_state in
  match h_volume h with
  | None => ret tt
  | Some v => scan_walk (lock_fuel h) (dl_LockList v) (set_lk_scan_next None)
  end.

Definition do_delete_object (base : option addr) (name : list Z) : M handler unit :=
  let! h := get_state in
  if h_inhibited h || read_only h then reply DOSFALSE ERROR_DISK_WRITE_PROTECTED
  else
    let! path := resolve_path base name in
    match path with
    | None => reply DOSFALSE ERROR_OBJECT_NOT_FOUND
    | Some path =>
        let! (rc, node) := on_ef (exfat_lookup path) in
        if negb (rc =? 0) then reply DOSFALSE (map_errno rc)
        else
          let! h := get_state in
          if bool_decide (node = w_root (h_world h)) then
            on_ef (exfat_put_node node);;
            reply DOSFALSE ERROR_OBJECT_WRONG_TYPE
          else
            let! n := on_ef (deref node) in
            if 1 <? n_references n then
              on_ef (exfat_put_node node);;
              reply DOSFALSE ERROR_OBJECT_IN_USE
            else
              scan_skip_node node;;
              let! n := on_ef (deref node) in
              let! rc := on_ef (if is_dir n then exfat_rmdir node else exfat_unlink node) in
              on_ef (exfat_put_node node);;
              if negb (rc =? 0) then reply DOSFALSE (map_errno rc)
              else
                let! rc := on_ef (exfat_cleanup_node node) in
                if negb (rc =? 0) then reply DOSFALSE (map_errno rc) else reply DOSTRUE 0
    end.

Definition do_create_dir (base : option addr) (name : list Z) : M handler unit :=
  let! h := get_state in
  if h_inhibited h || read_only h then reply 0 ERROR_DISK_WRITE_PROTECTED
  else
    let! path := resolve_path base name in
    match path with
    | None => reply 0 ERROR_OBJECT_NOT_FOUND
    | Some path =>
        let! rc := on_ef (exfat_mkdir path) in
        let! (rc, node) := if rc =? 0 then on_ef (exfat_lookup path) else ret (rc, None) in
        if negb (rc =? 0) then reply 0 (map_errno rc)
        else
          let! lock := exfat_amiga_makelock node EXCLUSIVE_LOCK in
          reply_lock node lock
    end.

Definition do_rename_object (srcbase : option addr) (src : list Z) (dstbase : option addr) (dst : list Z) : M handler unit :=
  let! h := get_state in
  if h_inhibited h || read_only h then reply DOSFALSE ERROR_DISK_WRITE_PROTECTED
  else
    let! srcpath := resolve_path srcbase src in
    match srcpath with
    | None => reply DOSFALSE ERROR_OBJECT_NOT_FOUND
    | Some srcpath =>
        let! dstpath := resolve_path dstbase dst in
        match dstpath with
        | None => reply DOSFALSE ERROR_OBJECT_NOT_FOUND
        | Some dstpath =>
            let! rc := on_ef (exfat_rename srcpath dstpath) in
            if negb (rc =? 0) then reply DOSFALSE (map_errno rc)
            else
              scan_invalidate_all;;
              reply DOSTRUE 0
        end
    end.

(** *** The volume *)

(** The new buffer for the name of the volume; the old one is freed unless AmigaDOS owns it. *)
Definition rename_volume (v : DeviceList) (bname : list Z) : M handler unit :=
  let! newname := AllocVec in
  match newname with
  | None => ret tt
  | Some newname =>
      let! h := get_state in
      modify (set_h_names (<[newname := sub bname 0 (znth bname 0 + 1)]> (h_names h)));;
      (match h_volname_orig h with
       | None => modify (set_h_volname_orig (Some (dl_Name v)))
       | Some _ => ret tt
       end);;
      modify (set_h_volname (Some newname));;
      set_volume (set_dl_Name newname);;
      match h_volname h with
      | None => ret tt
      | Some previous =>
          emit (FreeName previous);;
          modify (fun h => set_h_names (delete previous (h_names h)) h)
      end
  end.

Definition do_rename_disk (bname : option (list Z)) : M handler unit :=
  let! h := get_state in
  if h_inhibited h || read_only h then reply DOSFALSE ERROR_DISK_WRITE_PROTECTED
  else
    match bname with
    | None => reply DOSFALSE ERROR_INVALID_COMPONENT_NAME
    | Some bname =>
        if znth bname 0 =? 0 then reply DOSFALSE ERROR_INVALID_COMPONENT_NAME
        else
          let label := c_string (exfat_amiga_bstr_to_utf8 bname EXFAT_UTF8_ENAME_BUFFER_MAX) in
          let! rc := on_ef (exfat_set_label label) in
          if negb (rc =? 0) then reply DOSFALSE (map_errno rc)
          else
            (match h_volume h with
             | None => ret tt
             | Some v => rename_volume v bname
             end);;
            reply DOSTRUE 0
    end.

Definition set_volume_dirty (dirty : bool) : M handler Z :=
  let! h := get_state in
  if read_only h then ret 0
  else
    on_ef (on_part (on_part (S := vol) (modify (fun ef =>
      let sb := ef_sb ef in
      let state := sb_volume_state sb in
      let state := if dirty : bool then Z.lor state EXFAT_STATE_MOUNTED else Z.ldiff state EXFAT_STATE_MOUNTED in
      set_ef_sb (set_sb_state state (sb_allocated_percent sb) sb) ef))));;
    let! h := get_state in
    let! ok := on_ef (on_world_os (exfat_pwrite (super_block_bytes (ef_sb (w_ef (h_world h)))) 0)) in
    if negb ok then ret ERROR_DISK_FULL
    else
      let! rc := on_ef (on_world_os exfat_fsync) in
      ret (if negb (rc =? 0) then ERROR_DISK_FULL else 0).

(** What identifies a volume. *)
Definition identity (sb : super_block) : Z * Z * Z * Z * Z :=
  (sb_volume_serial sb, sb_sector_bits sb, sb_spc_bits sb, sb_cluster_count sb, sb_rootdir_cluster sb).

(** Whether the medium is the volume of this mount. *)
Definition same_volume : M handler bool :=
  let! h := get_state in
  if negb (h_mounted h) then ret false
  else
    let! r := on_ef (on_world_os (exfat_pread 512 0)) in
    match r with
    | None => ret false
    | Some bytes =>
        let sb := super_block_of bytes in
        let old := ef_sb (w_ef (h_world h)) in
        ret (bool_decide (sb_oem_name sb = oem_name) && bool_decide (identity sb = identity old))
    end.

(** The recursion of [discard_dirty_nodes]; the loop over the children takes turns of the
    same fuel. *)
Fixpoint discard_dirty_nodes (fuel : nat) (n : option ptr) : M world unit :=
  match fuel with
  | O => diverge
  | S fuel =>
      assign n (set_n_is_dirty false);;
      let! d := deref n in
      (fix loop (k : nat) (c : option ptr) : M world unit :=
         match c with
         | None => ret tt
         | Some _ =>
             match k with
             | O => diverge
             | S k =>
                 discard_dirty_nodes fuel c;;
                 let! child := deref c in
                 loop k (n_next child)
             end
         end) fuel (n_child d)
  end.

Definition discard_dirty_state : M handler unit :=
  let! h := get_state in
  if negb (h_mounted h) then ret tt
  else
    on_ef (discard_dirty_nodes (tree_fuel (h_world h)) (w_root (h_world h)));;
    on_ef (on_part (on_part (S := vol) (modify (set_ef_cmap_dirty false)))).

Definition unmount_fs : M handler unit :=
  let! h := get_state in
  if negb (h_mounted h) then ret tt
  else
    on_ef exfat_unmount;;
    modify (set_h_mounted false).

Definition release_mount : M handler unit :=
  let! h := get_state in
  if negb (h_mounted h) then ret tt
  else
    let! same := same_volume in
    if same then unmount_fs
    else
      discard_dirty_state;;
      on_ef (on_part (on_part (S := vol) (modify (set_ef_ro 1))));;
      unmount_fs.

(** The label, or a name for a volume without one. *)
Definition volume_name (ef : exfat) : list Z :=
  match c_string (exfat_get_label ef) with
  | [] => str "Untitled"
  | label => label
  end.

Definition add_volume : M handler unit :=
  let! h := get_state in
  let name := sub (volume_name (w_ef (h_world h))) 0 63 in
  let! vol := AllocVec in
  match vol with
  | None => ret tt
  | Some vol =>
      (* MakeDosEntry() allocates the name as well *)
      let! h := get_state in
      let dl_name := h_fresh h in
      modify (set_h_fresh (dl_name + 1)%N);;
      emit (MakeDosEntry vol name);;
      let! ok := ask in
      if negb ok then emit (FreeDosEntry vol)
      else
        emit (AddDosEntry vol);;
        modify (set_h_volume (Some (mk_volume vol dl_name true None)))
  end.

(** Whether our volume is on the list of AmigaDOS. *)
Definition volume_listed (doslist : list addr) (volume : addr) : bool := existsb (N.eqb volume) doslist.

Definition remove_volume (sv : system_view) : M handler unit :=
  let! h := get_state in
  match h_volume h with
  | None => ret tt
  | Some v =>
      let! locked := ask in
      (if locked : bool then
         (match h_volname_orig h with
          | Some orig => set_volume (set_dl_Name orig)
          | None => ret tt
          end);;
         (if volume_listed (sv_doslist sv) (dl_addr v) then emit (RemDosEntry (dl_addr v)) else ret tt);;
         emit (FreeDosEntry (dl_addr v))
       else ret tt);;
      (match h_volname h with
       | None => ret tt
       | Some name =>
           emit (FreeName name);;
           modify (fun h => set_h_volname None (set_h_names (delete name (h_names h)) h))
       end);;
      modify (fun h => set_h_volume None (set_h_volname_orig None h))
  end.

Definition release_if_idle (sv : system_view) : M handler unit :=
  let! h := get_state in
  if h_inhibited h && h_mounted h && (h_nlocks h =? 0) && (h_nfiles h =? 0) then
    remove_volume sv;;
    release_mount
  else ret tt.

(** *** The place of the volume *)

Definition spec_from_envec : M handler unit :=
  let! h := get_state in
  let de := h_envec h in
  let blocksize := u32 (de_SizeBlock de * 4) in
  let blocks_per_cyl := u64 (de_Surfaces de * de_BlocksPerTrack de) in
  let first_block := u64 (de_LowCyl de * blocks_per_cyl) in
  let block_count := u64 (u64 (de_HighCyl de - de_LowCyl de + 1) * blocks_per_cyl) in
  modify (fun h => set_h_lowcyl (de_LowCyl de) (set_h_spec {|
    ds_unit := ds_unit (h_spec h);
    ds_flags := ds_flags (h_spec h);
    ds_blocksize := blocksize;
    ds_maxtransfer := de_MaxTransfer de;
    ds_mask := de_Mask de;
    ds_firstbyte := u64 (first_block * blocksize);
    ds_length := u64 (block_count * blocksize) |} h)).

(** The extent of a partition on the device that [spec] describes. *)
Definition narrow (part : ExfatPartition) (spec : ExfatDevSpec) : ExfatDevSpec := {|
  ds_unit := ds_unit spec;
  ds_flags := ds_flags spec;
  ds_blocksize := ds_blocksize spec;
  ds_maxtransfer := ds_maxtransfer spec;
  ds_mask := ds_mask spec;
  ds_firstbyte := u64 (ds_firstbyte spec + u64 (first_lba part * ds_blocksize spec));
  ds_length := u64 (sectors part * ds_blocksize spec) |}.

(** Opening the device of [h->spec]: offsets count from its first byte from now on. *)
Definition open_spec : M handler unit :=
  let! h := get_state in
  let first := ds_firstbyte (h_spec h) in
  on_ef (on_world_os (modify (fun e => set_os_medium (fun a => os_medium e (a + (first - h_origin h))) e)));;
  modify (set_h_origin first).

(** The bytes that [exfat_amiga_snprintf] leaves in a buffer, as a string. *)
Definition format_text (size : Z) (fmt : list Z) (ap : list va) : list Z :=
  match exfat_amiga_snprintf size fmt ap with
  | Some (bytes, _) => c_string bytes
  | None => []
  end.

(** [name] without its digits at the end; the argument is the name backwards. *)
Fixpoint drop_digits (name : list Z) : list Z :=
  match name with
  | c :: rest => if is_digit c then drop_digits rest else name
  | [] => []
  end.

Definition sibling_name (dol_name : option (list Z)) (size idx : Z) : list Z :=
  let mine := match dol_name with Some name => name | None => [] end in
  let len := match dol_name with Some name => znth name 0 | None => 0 end in
  if (len =? 0) || (size - 4 <? len) then format_text size (str "EXF%ld") [VLong idx]
  else
    let stem := rev (drop_digits (rev (sub mine 1 len))) in
    stem ++ format_text (size - zlen stem) (str "%ld") [VLong idx].

(** Whether a device node is for [part] on our device and unit. *)
Definition is_sibling (devname : list Z) (unit : Z) (part : ExfatPartition) (dn : DeviceNode) : bool :=
  match dn_Startup dn with
  | None => false
  | Some fssm =>
      (fssm_Unit fssm =? unit) &&
      match fssm_Device fssm with
      | None => false
      | Some dev =>
          bool_decide (dev = devname) &&
          match fssm_Environ fssm with
          | None => false
          | Some de =>
              (DE_DOSTYPE <=? de_TableSize de) && (de_DosType de =? EXFAT_DOSTYPE) && (de_Surfaces de =? 1) &&
              (de_BlocksPerTrack de =? 1) && (de_LowCyl de =? u32 (first_lba part)) &&
              (de_HighCyl de =? u32 (first_lba part + sectors part - 1))
          end
      end
  end.

Definition find_sibling_node (sv : system_view) (h : handler) (part : ExfatPartition) : option DeviceNode :=
  List.find (is_sibling (h_devname h) (ds_unit (h_spec h)) part) (sv_devices sv).

(** The entry of FileSystem.resource for our DosType. *)
Definition find_filesystem (fsr : option (list FileSysEntry)) : option FileSysEntry :=
  match fsr with
  | None => None
  | Some entries => List.find (fun e => fse_DosType e =? EXFAT_DOSTYPE) entries
  end.

(** A name goes to [h->published] while there is room: 8 arrays of 34 bytes. *)
Definition publish_name (name : list Z) : M handler unit :=
  let! h := get_state in
  if zlen (h_published h) <? EXFAT_MAX_PARTITIONS then modify (set_h_published (h_published h ++ [name])) else ret tt.

(** The device node that MakeDosNode() builds of the parameter packet. *)
Definition partition_node (h : handler) (name : list Z) (part : ExfatPartition) : DeviceNode := {|
  dn_Name := name;
  dn_Startup := Some {|
    fssm_Unit := ds_unit (h_spec h);
    fssm_Device := Some (h_devname h);
    fssm_Environ := Some {|
      de_TableSize := 19;
      de_SizeBlock := Z.shiftr (ds_blocksize (h_spec h)) 2;
      de_Surfaces := 1;
      de_BlocksPerTrack := 1;
      de_LowCyl := u32 (first_lba part);
      de_HighCyl := u32 (first_lba part + sectors part - 1);
      de_MaxTransfer := ds_maxtransfer (h_spec h);
      de_Mask := ds_mask (h_spec h);
      de_DosType := EXFAT_DOSTYPE |};
    fssm_Flags := ds_flags (h_spec h) |};
  dn_Handler := 0;
  dn_SegList := 0;
  dn_StackSize := 0;
  dn_Priority := 0;
  dn_GlobalVec := 0 |}.

(** How AmigaDOS starts a handler for the node: [None] when it cannot. *)
Definition set_handler (fse : option FileSysEntry) (mine : DosList) (dn : DeviceNode) : option DeviceNode :=
  let stack := if negb (dol_StackSize mine =? 0) then dol_StackSize mine else EXFAT_STACKSIZE in
  match fse with
  | Some fse =>
      let globalvec := if negb (Z.land (fse_PatchFlags fse) FSEF_GLOBALVEC =? 0) then fse_GlobalVec fse else dn_GlobalVec dn in
      let globalvec := if fse_SegList fse =? 0 then dol_GlobVec mine else globalvec in
      Some (mk_device (dn_Name dn) (dn_Startup dn) (dn_Handler dn) (fse_SegList fse) stack (dol_Priority mine) globalvec)
  | None =>
      if negb (dol_Handler mine =? 0) then
        Some (mk_device (dn_Name dn) (dn_Startup dn) (dol_Handler mine) (dn_SegList dn) stack (dol_Priority mine)
                (if dn_SegList dn =? 0 then dol_GlobVec mine else dn_GlobalVec dn))
      else None
  end.

(** The loop over the names; [n] attempts are left. *)
Fixpoint publish_loop (n : nat) (sv : system_view) (attempt : Z) (part : ExfatPartition) : M handler bool :=
  match n with
  | O => ret false
  | S n =>
      let! h := get_state in
      let name := sibling_name (dol_Name (h_devlist h)) 32 (h_next_name_idx h + attempt) in
      let! made := ask in
      if negb made then ret false
      else
        match set_handler (find_filesystem (sv_filesystems sv)) (h_devlist h) (partition_node h name part) with
        | None => ret false
        | Some dn =>
            let! added := ask in
            if negb added then publish_loop n sv (attempt + 1) part
            else
              emit (AddDevice dn);;
              modify (set_h_next_name_idx (h_next_name_idx h + (attempt + 1)));;
              publish_name (format_text 34 (str "%s:") [VStr (Some name)]);;
              ret true
        end
  end.

Definition publish_partition (sv : system_view) (part : ExfatPartition) (revalidating : bool) : M handler bool :=
  let! h := get_state in
  match (if revalidating then find_sibling_node sv h part else None) with
  | Some old =>
      publish_name (sub (dn_Name old) 0 32 ++ [colon]);;
      ret true
  | None =>
      let! opened := ask in
      if negb opened then ret false else publish_loop 32 sv 0 part
  end.

(** [for (i = 1; i < n; i++) publish_partition(...)] *)
Fixpoint publish_all (sv : system_view) (parts : list ExfatPartition) (revalidating : bool) : M handler unit :=
  match parts with
  | [] => ret tt
  | part :: parts =>
      publish_partition sv part revalidating;;
      publish_all sv parts revalidating
  end.

Definition resolve_extent (sv : system_view) (publish : bool) : M handler bool :=
  modify (set_h_published []);;
  let! h := get_state in
  if negb (h_lowcyl h =? 0) then ret true
  else if negb (sv_opens sv) then ret false
  else
    open_spec;;
    let spec := h_spec h in
    let total_sectors := ds_length spec / ds_blocksize spec in
    let! parts := on_ef (on_world_os (exfat_amiga_scan_partitions (ds_blocksize spec) total_sectors EXFAT_MAX_PARTITIONS)) in
    match parts with
    | [] => ret false
    | part :: rest =>
        if (zlen parts =? 1) && (first_lba part =? 0) then ret true
        else
          modify (fun h => set_h_spec (narrow part (h_spec h)) h);;
          publish_all sv rest (negb publish);;
          ret true
    end.

(** *** Exclusive use *)

Definition claim_name (h : handler) : list Z :=
  format_text 80 (str "exfat/%s/%lu/%lu:%lu")
    [VStr (Some (h_devname h)); VLong (ds_unit (h_spec h)); VLong (Z.shiftr (ds_firstbyte (h_spec h)) 32);
     VLong (u32 (ds_firstbyte (h_spec h)))].

(** [ask] is whether FindSemaphore() finds none. *)
Definition claim_partition : M handler bool :=
  let! h := get_state in
  let name := claim_name h in
  let! unclaimed := ask in
  if negb unclaimed then ret false
  else
    let! sem := AllocVec in
    match sem with
    | None => ret false
    | Some _ =>
        emit (AddSemaphore name);;
        modify (set_h_claim (Some name));;
        ret true
    end.

Definition release_partition : M handler unit :=
  let! h := get_state in
  match h_claim h with
  | None => ret tt
  | Some name =>
      emit (RemSemaphore name);;
      modify (set_h_claim None)
  end.

(** *** Mounting *)

(** What [exfat_open] of dev_io.c finds: a device of the length of the partition. *)
Definition device_answers (sv : system_view) (h : handler) : open_answers := {|
  can_open_rw := sv_opens sv && negb (sv_protected sv);
  can_open_ro := sv_opens sv;
  fstat_ok := true;
  is_device_or_file := true;
  seek_end := ds_length (h_spec h);
  seek_set_ok := true |}.

Definition mount_fs (sv : system_view) : M handler bool :=
  open_spec;;
  let! h := get_state in
  let! rc := on_ef (exfat_mount (device_answers sv h) (sv_euid sv) (sv_egid sv) (str "ro_fallback,noatime")) in
  if negb (rc =? 0) then ret false
  else
    modify (set_h_mounted true);;
    let! h := get_state in
    (if negb (read_only h) then
       on_ef (on_part (S := world) exfat_soil_super_block);;
       ret tt
     else ret tt);;
    ret true.

(** A call of the process that wakes the siblings. *)
Inductive activation : Type :=
| Inhibit (name : list Z) (flag : Z)
| Lock (name : list Z) (mode : Z)
| UnLock (name : list Z).

(** The calls of that process; [locked] tells which of the names can be locked. *)
Fixpoint activation_proc (names : list (list Z)) (locked : list Z -> bool) : list activation :=
  match names with
  | [] => []
  | name :: names =>
      [Inhibit name DOSFALSE; Lock name SHARED_LOCK] ++
      (if locked name then [UnLock name] else []) ++ activation_proc names locked
  end.

(** The process that uninhibits the siblings is started with their names. *)
Definition activate_partitions : M handler unit :=
  let! h := get_state in
  if zlen (h_published h) =? 0 then ret tt
  else
    let! am := AllocVec in
    match am with
    | None => ret tt
    | Some _ =>
        let! started := ask in
        if negb started then ret tt else emit (Activate (h_published h))
    end.

(** [dp_Arg3] is our device entry, [dp_Arg2] the startup message. *)
Definition startup (sv : system_view) (devlist : DosList) (fssm : option FileSysStartupMsg) : M handler bool :=
  modify (set_h_devlist devlist);;
  match fssm with
  | None => ret false
  | Some fssm =>
      match fssm_Environ fssm with
      | None => ret false
      | Some de =>
          match fssm_Device fssm with
          | None => bad_pointer
          | Some devname =>
              modify (fun h => set_h_next_name_idx 1 (set_h_envec de (set_h_devname devname (set_h_spec {|
                ds_unit := fssm_Unit fssm;
                ds_flags := fssm_Flags fssm;
                ds_blocksize := ds_blocksize (h_spec h);
                ds_maxtransfer := ds_maxtransfer (h_spec h);
                ds_mask := ds_mask (h_spec h);
                ds_firstbyte := ds_firstbyte (h_spec h);
                ds_length := ds_length (h_spec h) |} h))));;
              spec_from_envec;;
              let! ok := resolve_extent sv true in
              if negb ok then ret false
              else
                modify (fun h => set_h_devlist (set_dol_Task true (h_devlist h)) h);;
                mount_fs sv
          end
      end
  end.

(** *** Inhibiting *)

(** The part of [do_inhibit] for a volume that is in use: what cannot be written is dropped. *)
Definition park : M handler unit :=
  let! h := get_state in
  (if negb (read_only h) then
     let! rc := on_ef exfat_flush_nodes in
     let! rc := if negb (rc =? 0) then ret rc else on_ef (on_part (S := world) exfat_flush) in
     let! flushed :=
       if negb (rc =? 0) then ret false
       else
         let! err := set_volume_dirty false in
         ret (err =? 0) in
     if flushed then ret tt else discard_dirty_state
   else ret tt);;
  set_volume (set_dl_Task false).

(** The volume is attached again, and listed if it was unlisted. *)
Definition reattach (sv : system_view) : M handler unit :=
  let! h := get_state in
  match h_volume h with
  | None => ret tt
  | Some v =>
      let! locked := ask in
      let listed := if locked : bool then volume_listed (sv_doslist sv) (dl_addr v) else true in
      set_volume (set_dl_Task true);;
      if listed then ret tt
      else
        let! ok := ask in
        if ok : bool then emit (AddDosEntry (dl_addr v)) else ret tt
  end.

Definition do_inhibit (sv : system_view) (on : Z) : M handler unit :=
  let on := negb (on =? 0) in
  let! h := get_state in
  if on && negb (h_inhibited h) then
    (if (h_nlocks h =? 0) && (h_nfiles h =? 0) then
       remove_volume sv;;
       release_mount
     else park);;
    modify (set_h_inhibited true);;
    reply_err 0
  else if negb on && h_inhibited h then
    if negb (h_mounted h) then
      spec_from_envec;;
      let! found := resolve_extent sv false in
      let! ok := if found : bool then mount_fs sv else ret false in
      if negb ok then reply DOSFALSE ERROR_NOT_A_DOS_DISK
      else
        add_volume;;
        modify (set_h_inhibited false);;
        reply DOSTRUE 0;;
        activate_partitions
    else
      let! same := same_volume in
      if negb same then reply DOSFALSE ERROR_OBJECT_IN_USE
      else
        let! err := if negb (read_only h) then set_volume_dirty true else ret 0 in
        (if err =? 0 then
           reattach sv;;
           modify (set_h_inhibited false)
         else ret tt);;
        reply_err err
  else reply_err 0.

Definition needs_medium (pkt : packet) : bool :=
  match pkt with
  | ACTION_LOCATE_OBJECT _ _ | ACTION_COPY_DIR _ | ACTION_COPY_DIR_FH _ | ACTION_PARENT _ | ACTION_PARENT_FH _
  | ACTION_EXAMINE_OBJECT _ _ | ACTION_EXAMINE_NEXT _ _ | ACTION_EXAMINE_FH _ _ | ACTION_FINDINPUT _ _ _
  | ACTION_FINDOUTPUT _ _ _ | ACTION_FINDUPDATE _ _ _ | ACTION_FH_FROM_LOCK _ _ | ACTION_READ _ _ _
  | ACTION_WRITE _ _ _ | ACTION_SEEK _ _ _ | ACTION_SET_FILE_SIZE _ _ _ | ACTION_SET_PROTECT _ _ _
  | ACTION_SET_DATE _ _ _ | ACTION_SET_COMMENT _ _ _ | ACTION_DELETE_OBJECT _ _ | ACTION_CREATE_DIR _ _
  | ACTION_RENAME_OBJECT _ _ _ _ | ACTION_RENAME_DISK _ => true
  | _ => false
  end.

(** A function on a device that was just opened: its file pointer is at the start. *)
Definition on_device {A} (m : M file_state A) : M env A := fun e =>
  match m (mk_file_state e 0) with
  | Ok a s => Ok a (f_env s)
  | Halt r s => Halt r (f_env s)
  | Diverge => Diverge
  end.

(** The volume is made on the extent of [h->spec]. *)
Definition do_format (sv : system_view) (blabel : option (list Z)) : M handler unit :=
  let! h := get_state in
  if read_only h && h_mounted h then reply DOSFALSE ERROR_DISK_WRITE_PROTECTED
  else if negb (h_inhibited h) || h_mounted h then reply DOSFALSE ERROR_OBJECT_IN_USE
  else
    let label :=
      match blabel with
      | Some blabel =>
          if negb (znth blabel 0 =? 0) then c_string (exfat_amiga_bstr_to_utf8 blabel EXFAT_UTF8_ENAME_BUFFER_MAX) else []
      | None => []
      end in
    open_spec;;
    let! rc := on_ef (on_world_os (on_device (exfat_amiga_format (sv_opens sv) (sv_now sv) (h_spec h) label))) in
    if negb (rc =? 0) then reply DOSFALSE ERROR_NOT_A_DOS_DISK
    else reply DOSTRUE 0.

Definition fill_infodata (h : handler) : InfoData :=
  if negb (h_mounted h) then {|
    id_NumSoftErrors := 0;
    id_UnitNumber := i32 (ds_unit (h_spec h));
    id_DiskState := ID_VALIDATED;
    id_NumBlocks := 0;
    id_NumBlocksUsed := 0;
    id_BytesPerBlock := 0;
    id_DiskType := EXFAT_ID_BUSY;
    id_VolumeNode := None;
    id_InUse := 0 |}
  else
    let ef := w_ef (h_world h) in
    let total := sb_cluster_count (ef_sb ef) in
    let freec := exfat_count_free_clusters ef in
    {|
    id_NumSoftErrors := 0;
    id_UnitNumber := i32 (ds_unit (h_spec h));
    id_DiskState := if read_only h then ID_WRITE_PROTECTED else ID_VALIDATED;
    id_NumBlocks := i32 total;
    id_NumBlocksUsed := i32 (u32 (total - freec));
    id_BytesPerBlock := i32 (CLUSTER_SIZE (ef_sb ef));
    id_DiskType := if h_inhibited h then EXFAT_ID_BUSY else ID_DOS_DISK;
    id_VolumeNode := option_map dl_addr (h_volume h);
    id_InUse := if negb (h_nlocks h =? 0) || negb (h_nfiles h =? 0) then DOSTRUE else DOSFALSE |}.

Definition do_info : M handler unit :=
  let! h := get_state in
  emit (StoreInfo (fill_infodata h));;
  reply DOSTRUE 0.

Definition do_flush : M handler unit :=
  let! h := get_state in
  let! err :=
    if negb (read_only h) && h_mounted h && negb (h_inhibited h) then
      let! rc := on_ef exfat_flush_nodes in
      let! rc := if negb (rc =? 0) then ret rc else on_ef (on_part (S := world) exfat_flush) in
      let! rc := if negb (rc =? 0) then ret rc else on_ef (on_world_os exfat_fsync) in
      ret (if negb (rc =? 0) then ERROR_DISK_FULL else 0)
    else ret 0 in
  reply_err err.

Definition do_die : M handler unit :=
  let! h := get_state in
  if negb (h_nlocks h =? 0) || negb (h_nfiles h =? 0) then reply DOSFALSE ERROR_OBJECT_IN_USE
  else
    modify (set_h_quit true);;
    reply DOSTRUE 0.

(** *** The packet loop *)

(** A packet for the medium that comes while inhibited. *)
Definition refuse (pkt : packet) : M handler unit :=
  let rws := match pkt with ACTION_READ _ _ _ | ACTION_WRITE _ _ _ | ACTION_SEEK _ _ _ => true | _ => false end in
  reply (if rws then -1 else DOSFALSE) ERROR_NOT_A_DOS_DISK.

(** The switch over the type of the packet. *)
Definition dispatch (sv : system_view) (pkt : packet) : M handler unit :=
  match pkt with
  | ACTION_LOCATE_OBJECT base name => do_locate_object base name
  | ACTION_FREE_LOCK lock =>
      exfat_amiga_freelock lock;;
      reply DOSTRUE 0;;
      release_if_idle sv
  | ACTION_COPY_DIR lock => do_copy_dir lock
  | ACTION_COPY_DIR_FH file => do_lock_from_fh file false
  | ACTION_PARENT_FH file => do_lock_from_fh file true
  | ACTION_PARENT lock => do_parent lock
  | ACTION_SAME_LOCK a b => do_same_lock a b
  | ACTION_EXAMINE_OBJECT lock fib => do_examine_object lock fib
  | ACTION_EXAMINE_NEXT lock fib => do_examine_next lock fib
  | ACTION_EXAMINE_FH file fib => do_examine_fh file fib
  | ACTION_FINDINPUT fh base name => do_open fh base name OPEN_OLD
  | ACTION_FINDOUTPUT fh base name => do_open fh base name OPEN_NEW
  | ACTION_FINDUPDATE fh base name => do_open fh base name OPEN_UPDATE
  | ACTION_FH_FROM_LOCK fh lock => do_fh_from_lock fh lock
  | ACTION_READ file buffer length => do_read file buffer length
  | ACTION_WRITE file buffer length => do_write file buffer length
  | ACTION_SEEK file offset mode => do_seek file offset mode
  | ACTION_SET_FILE_SIZE file offset mode => do_set_file_size file offset mode
  | ACTION_END file =>
      do_end file;;
      release_if_idle sv
  | ACTION_SET_PROTECT base name bits => do_set_protect base name bits
  | ACTION_SET_DATE base name ds => do_set_date base name ds
  | ACTION_SET_COMMENT base name comment => do_set_comment base name comment
  | ACTION_DELETE_OBJECT base name => do_delete_object base name
  | ACTION_CREATE_DIR base name => do_create_dir base name
  | ACTION_RENAME_OBJECT srcbase src dstbase dst => do_rename_object srcbase src dstbase dst
  | ACTION_RENAME_DISK name => do_rename_disk name
  | ACTION_FORMAT label => do_format sv label
  | ACTION_INFO | ACTION_DISK_INFO => do_info
  | ACTION_CURRENT_VOLUME =>
      let! h := get_state in
      emit (ReplyPkt (VolumePtr (option_map dl_addr (h_volume h))) 0)
  | ACTION_IS_FILESYSTEM => reply DOSTRUE 0
  | ACTION_FLUSH => do_flush
  | ACTION_INHIBIT on => do_inhibit sv on
  | ACTION_DIE => do_die
  | ACTION_OTHER _ => reply DOSFALSE ERROR_ACTION_NOT_KNOWN
  end.

(** The body of the inner loop of [exfat_handler_main]. *)
Definition serve (sv : system_view) (pkt : packet) : M handler unit :=
  let! h := get_state in
  if h_inhibited h && needs_medium pkt then refuse pkt else dispatch sv pkt.

(** [while ((msg = GetMsg(h->port)) != NULL)]: the packets that are waiting at the port. *)
Fixpoint drain (pkts : list (system_view * packet)) : M handler unit :=
  match pkts with
  | [] => ret tt
  | (sv, pkt) :: pkts =>
      serve sv pkt;;
      drain pkts
  end.

(** [while (!h->quit)]: each batch is what is at the port when the process wakes up.
    Whether the loop ended; when the batches are used up, the process waits. *)
Fixpoint packet_loop (batches : list (list (system_view * packet))) : M handler bool :=
  let! h := get_state in
  if h_quit h then ret true
  else
    match batches with
    | [] => ret false
    | batch :: batches =>
        drain batch;;
        packet_loop batches
    end.

(** [exfat_handler_main] once it has memory for the handler structure. *)
Definition handler_process (sv : system_view) (devlist : DosList) (fssm : option FileSysStartupMsg)
  (batches : list (list (system_view * packet))) : M handler (option Z) :=
  let! dos := ask in
  if negb dos then reply DOSFALSE ERROR_INVALID_RESIDENT_LIBRARY;; ret (Some RETURN_FAIL)
  else
    let! ok := startup sv devlist fssm in
    if negb ok then
      let! h := get_state in
      (if h_mounted h then on_ef exfat_unmount else ret tt);;
      reply DOSFALSE ERROR_OBJECT_IN_USE;;
      release_partition;;
      ret (Some RETURN_FAIL)
    else
      reply DOSTRUE 0;;
      add_volume;;
      activate_partitions;;
      let! quit := packet_loop batches in
      if negb quit then ret None
      else
        remove_volume sv;;
        modify (fun h => set_h_devlist (set_dol_Task false (h_devlist h)) h);;
        unmount_fs;;
        release_partition;;
        ret (Some RETURN_OK).

(** From the start of the process to its end, or to a wait for packets ([None]).  The
    handler structure of the code is the state, cleared when it is allocated; without
    memory for it the process ends before it has taken the startup packet. *)
Definition exfat_handler_main (sv : system_view) (devlist : DosList) (fssm : option FileSysStartupMsg)
  (batches : list (list (system_view * packet))) : M handler (option Z) :=
  let! mem := AllocVec in
  match mem with
  | None => ret (Some RETURN_FAIL)
  | Some _ => handler_process sv devlist fssm batches
  end.
End Handler.
