(* ===== verification/Resident.v ===== *)
(** * Resident: making the handler known to AmigaOS (amiga/romtag.c, exfatres.c)

    FileSystem.resource holds a list of [FileSysEntry]s.  A mounter takes the first
    entry of a DosType ([find_filesystem] in Handler.v) and starts the handler from the
    segment list in it.  The tag of the ROM module ([exfat_rom_init]) and the Shell
    command ([install]) add an entry for 'FATX'.

    The state is [exec]: the resource, the memory, what was allocated and loaded, and
    the nesting of Forbid().  AllocMem() and LoadSeg() take the next of the answers
    that are given with the state; 0 is the failure of the call.  Text that goes to the
    serial port or to the Shell is left out; what [show] prints is its result. *)

From Stdlib Require Import ZArith Lia.
From stdpp Require Import base numbers list gmap strings.
From S2P Require Import Prelude Bytes Monad Utils PartTable Amigaos Handler.

#[local] Open Scope Z_scope.

(** ** Definitions *)

(** *** The system *)

(** A [struct FileSysEntry] with its address and the name of its node. *)
Record FseNode : Type := mk_fse_node {
  fn_addr : Z;
  fn_Name : option (list Z);
  fn_entry : FileSysEntry
}.

(** [struct FileSysResource]; the entries are [None] when the head of the list is null,
    that is, when the list was not initialised. *)
Record FileSysResource : Type := mk_fsr {
  fsr_Creator : option (list Z);
  fsr_FileSysEntries : option (list FseNode)
}.

(** The blocks are pairs of address and size, the segment lists pairs of address and file. *)
Record exec : Type := mk_exec {
  x_resource : option FileSysResource;
  x_memory : mem;
  x_blocks : list (Z * Z);
  x_segs : list (Z * list Z);
  x_forbid : Z;
  x_memory_answers : list Z;
  x_seg_answers : list Z
}.

Definition set_x_resource (v : option FileSysResource) (x : exec) : exec :=
  mk_exec v (x_memory x) (x_blocks x) (x_segs x) (x_forbid x) (x_memory_answers x) (x_seg_answers x).
Definition set_x_memory (v : mem) (x : exec) : exec :=
  mk_exec (x_resource x) v (x_blocks x) (x_segs x) (x_forbid x) (x_memory_answers x) (x_seg_answers x).
Definition set_x_blocks (v : list (Z * Z)) (x : exec) : exec :=
  mk_exec (x_resource x) (x_memory x) v (x_segs x) (x_forbid x) (x_memory_answers x) (x_seg_answers x).
Definition set_x_segs (v : list (Z * list Z)) (x : exec) : exec :=
  mk_exec (x_resource x) (x_memory x) (x_blocks x) v (x_forbid x) (x_memory_answers x) (x_seg_answers x).
Definition set_x_forbid (v : Z) (x : exec) : exec :=
  mk_exec (x_resource x) (x_memory x) (x_blocks x) (x_segs x) v (x_memory_answers x) (x_seg_answers x).
Definition set_x_memory_answers (v : list Z) (x : exec) : exec :=
  mk_exec (x_resource x) (x_memory x) (x_blocks x) (x_segs x) (x_forbid x) v (x_seg_answers x).
Definition set_x_seg_answers (v : list Z) (x : exec) : exec :=
  mk_exec (x_resource x) (x_memory x) (x_blocks x) (x_segs x) (x_forbid x) (x_memory_answers x) v.

(** The list without its first element that satisfies [f], if there is one. *)
Fixpoint give_back {A} (f : A -> bool) (l : list A) : option (list A) :=
  match l with
  | [] => None
  | a :: l => if f a then Some l else option_map (cons a) (give_back f l)
  end.

Definition Forbid : M exec unit := modify (fun x => set_x_forbid (x_forbid x + 1) x).
Definition Permit : M exec unit := modify (fun x => set_x_forbid (x_forbid x - 1) x).

(** [AllocMem(size, MEMF_PUBLIC | MEMF_CLEAR)] *)
Definition AllocMem (size : Z) : M exec Z :=
  let! x := get_state in
  match x_memory_answers x with
  | [] => ret 0
  | a :: rest =>
      modify (set_x_memory_answers rest);;
      if a =? 0 then ret 0
      else
        modify (fun x => set_x_memory (mwrite (x_memory x) a (zrepeat 0 size)) (set_x_blocks ((a, size) :: x_blocks x) x));;
        ret a
  end.

Definition FreeMem (a size : Z) : M exec unit :=
  let! x := get_state in
  match give_back (fun b => bool_decide (b = (a, size))) (x_blocks x) with
  | Some blocks => modify (set_x_blocks blocks)
  | None => bad_pointer
  end.

Definition LoadSeg (path : list Z) : M exec Z :=
  let! x := get_state in
  match x_seg_answers x with
  | [] => ret 0
  | seg :: rest =>
      modify (set_x_seg_answers rest);;
      if seg =? 0 then ret 0 else modify (fun x => set_x_segs ((seg, path) :: x_segs x) x);; ret seg
  end.

Definition UnLoadSeg (seg : Z) : M exec unit :=
  let! x := get_state in
  match give_back (fun s => s.1 =? seg) (x_segs x) with
  | Some segs => modify (set_x_segs segs)
  | None => bad_pointer
  end.

(** The nodes of the list, which must have been initialised. *)
Definition walk_entries : M exec (list FseNode) :=
  let! x := get_state in
  match x_resource x with
  | Some (mk_fsr _ (Some nodes)) => ret nodes
  | _ => bad_pointer
  end.

(** [AddHead(&fsr->fsr_FileSysEntries, &fse->fse_Node)] *)
Definition AddHead (node : FseNode) : M exec unit :=
  let! x := get_state in
  match x_resource x with
  | Some (mk_fsr creator (Some nodes)) => modify (set_x_resource (Some (mk_fsr creator (Some (node :: nodes)))))
  | _ => bad_pointer
  end.

Definition MKBADDR (a : Z) : Z := Z.shiftr a 2.
Definition BADDR (b : Z) : Z := u32 (Z.shiftl b 2).

(** The loop that looks for an entry of 'FATX'. *)
Definition is_fatx (node : FseNode) : bool := fse_DosType (fn_entry node) =? EXFAT_DOSTYPE.
Definition find_fatx : M exec bool :=
  let! nodes := walk_entries in
  ret (List.existsb is_fatx nodes).

(** [sizeof(struct FileSysEntry)] *)
Definition SIZEOF_FSE : Z := 62.

(** *** The tag of the ROM module *)

(** [EXFAT_ROMTAG_RAMSEG], [EXFAT_ROMTAG_NOADD], [EXFAT_VER] and [EXFAT_REV] *)
Record rom_build : Type := mk_build {
  rb_ramseg : bool;
  rb_noadd : bool;
  rb_ver : Z;
  rb_rev : Z
}.

Definition opcode_at (m : mem) (p : Z) : Z := u16 (Z.lor (Z.shiftl (m p) 8) (m (p + 1))).
Definition operand_at (m : mem) (p : Z) : Z :=
  Z.lor (Z.lor (Z.shiftl (m p) 24) (Z.shiftl (m (p + 1)) 16)) (Z.lor (Z.shiftl (m (p + 2)) 8) (m (p + 3))).

(** JMP <absolute long> *)
Definition JMP : Z := 0x4EF9.

(** [struct ExfatRomSeg], in memory in the order of the 68k. *)
Record ExfatRomSeg : Type := mk_rom_seg {
  seg_size : Z;
  seg_next : Z;
  seg_jmp : Z;
  seg_entry : Z
}.
Definition SIZEOF_ROM_SEG : Z := 14.

Definition rom_seg_bytes (s : ExfatRomSeg) : list Z :=
  rev (le_bytes 4 (seg_size s)) ++ rev (le_bytes 4 (seg_next s)) ++ rev (le_bytes 2 (seg_jmp s)) ++ rev (le_bytes 4 (seg_entry s)).

Definition exfat_rom_name : list Z := str "exfat-handler".

(** The fields of the new entry. *)
Definition rom_entry (b : rom_build) (seglist : Z) : FileSysEntry := {|
  fse_DosType := EXFAT_DOSTYPE;
  fse_Version := Z.lor (u32 (Z.shiftl (u32 (rb_ver b)) 16)) (u32 (rb_rev b));
  fse_PatchFlags := Z.lor (Z.lor FSEF_STACKSIZE FSEF_SEGLIST) FSEF_GLOBALVEC;
  fse_StackSize := EXFAT_STACKSIZE;
  fse_SegList := seglist;
  fse_GlobalVec := -1
|}.

(** From the label [registered] on. *)
Definition rom_register (b : rom_build) (fse seglist : Z) : M exec Z :=
  Forbid;;
  (if rb_noadd b then ret tt else AddHead (mk_fse_node fse (Some exfat_rom_name) (rom_entry b seglist)));;
  Permit;;
  ret 0.

(** The segment that jumps to the handler, in memory, and what it is read back as. *)
Definition rom_segment (b : rom_build) (entry fse : Z) : M exec Z :=
  let! seg := AllocMem SIZEOF_ROM_SEG in
  if seg =? 0 then FreeMem fse SIZEOF_FSE;; ret 0
  else
    modify (fun x => set_x_memory (mwrite (x_memory x) seg (rom_seg_bytes (mk_rom_seg SIZEOF_ROM_SEG 0 JMP entry))) x);;
    let seglist := MKBADDR (u32 (seg + 4)) in
    let! x := get_state in
    let code := u32 (BADDR seglist + 4) in
    if negb (opcode_at (x_memory x) code =? JMP) || negb (operand_at (x_memory x) (u32 (code + 2)) =? entry) then
      FreeMem seg SIZEOF_ROM_SEG;;
      FreeMem fse SIZEOF_FSE;;
      ret 0
    else rom_register b fse seglist.

(** [entry] is the address of exfat_handler_entry, the first byte of the module. *)
Definition exfat_rom_init (b : rom_build) (entry : Z) : M exec Z :=
  let! x := get_state in
  if negb (opcode_at (x_memory x) entry =? JMP) then ret 0
  else
    match x_resource x with
    | None | Some (mk_fsr _ None) => ret 0
    | Some (mk_fsr _ (Some _)) =>
        Forbid;;
        let! found := find_fatx in
        Permit;;
        if found then ret 0
        else
          let! fse := AllocMem SIZEOF_FSE in
          if fse =? 0 then ret 0
          else if negb (rb_ramseg b) && (Z.land entry 3 =? 0) then rom_register b fse (MKBADDR (u32 (entry - 4)))
          else rom_segment b entry fse
    end.

(** *** The Shell command *)

Definition RETURN_WARN : Z := 5.
Definition DEFAULT_HANDLER : list Z := str "L:exfat-handler".

(** A line that [show] prints: the three letters of the DosType and its last byte,
    version and revision, flags, segment list, stack and name. *)
Record show_row : Type := mk_row {
  row_letters : list Z;
  row_byte : Z;
  row_version : Z * Z;
  row_flags : Z;
  row_seglist : Z;
  row_stack : Z;
  row_name : list Z
}.

Definition show_node (node : FseNode) : show_row :=
  let e := fn_entry node in
  let t := fse_DosType e in
  mk_row [u8 (Z.shiftr t 24); u8 (Z.shiftr t 16); u8 (Z.shiftr t 8)] (Z.land t 0xff)
    (Z.shiftr (fse_Version e) 16, Z.land (fse_Version e) 0xffff) (fse_PatchFlags e) (fse_SegList e) (i32 (fse_StackSize e))
    (default (str "?") (fn_Name node)).

(** The creator of the resource, the rows and the number of entries. *)
Definition show : M exec (list Z * list show_row * Z) :=
  let! x := get_state in
  let creator := default (str "?") (x_resource x ≫= fsr_Creator) in
  Forbid;;
  let! nodes := walk_entries in
  Permit;;
  ret (creator, map show_node nodes, zlen nodes).

Definition res_entry (seg : Z) : FileSysEntry := {|
  fse_DosType := EXFAT_DOSTYPE;
  fse_Version := 1;
  fse_PatchFlags := Z.lor (Z.lor FSEF_STACKSIZE FSEF_SEGLIST) FSEF_GLOBALVEC;
  fse_StackSize := EXFAT_STACKSIZE;
  fse_SegList := seg;
  fse_GlobalVec := -1
|}.

(** [install] up to the next call that lets other processes run; its result is where it
    goes on. *)
Inductive installer : Type :=
| Checking
| Loading
| Allocating (seg : Z)
| Adding (seg fse : Z)
| Finished (rc : Z).

Definition install_turn (path : list Z) (pc : installer) : M exec installer :=
  match pc with
  | Checking =>
      Forbid;;
      let! found := find_fatx in
      Permit;;
      ret (if found then Finished RETURN_WARN else Loading)
  | Loading =>
      let! seg := LoadSeg path in
      ret (if seg =? 0 then Finished RETURN_FAIL else Allocating seg)
  | Allocating seg =>
      let! fse := AllocMem SIZEOF_FSE in
      if fse =? 0 then UnLoadSeg seg;; ret (Finished RETURN_FAIL) else ret (Adding seg fse)
  | Adding seg fse =>
      Forbid;;
      AddHead (mk_fse_node fse (Some (str "exfatres")) (res_entry seg));;
      Permit;;
      ret (Finished RETURN_OK)
  | Finished rc => ret (Finished rc)
  end.

(** The whole of it. *)
Definition install (path : list Z) : M exec Z :=
  Forbid;;
  let! found := find_fatx in
  Permit;;
  if found then ret RETURN_WARN
  else
    let! seg := LoadSeg path in
    if seg =? 0 then ret RETURN_FAIL
    else
      let! fse := AllocMem SIZEOF_FSE in
      if fse =? 0 then UnLoadSeg seg;; ret RETURN_FAIL
      else
        Forbid;;
        AddHead (mk_fse_node fse (Some (str "exfatres")) (res_entry seg));;
        Permit;;
        ret RETURN_OK.

(** [main]: [args] are the arguments that ReadArgs() found, or nothing when it failed.
    With the exit code comes what is shown; the arguments are freed on every path. *)
Definition exfatres_main (args : option (list Z * option (list Z))) : M exec (Z * option (list Z * list show_row * Z)) :=
  match args with
  | None => ret (RETURN_FAIL, None)
  | Some (cmd, file) =>
      let! x := get_state in
      match x_resource x with
      | None => ret (RETURN_FAIL, None)
      | Some _ =>
          let c := znth cmd 0 in
          if (c =? 108) || (c =? 76) then
            let! shown := show in
            ret (RETURN_OK, Some shown)
          else if (c =? 105) || (c =? 73) then
            let! rc := install (default DEFAULT_HANDLER file) in
            ret (rc, None)
          else ret (RETURN_FAIL, None)
      end
  end.

(** ** Facts *)

Lemma wp_AllocMem size (Q : Z -> exec -> Prop) x :
  (hd 0 (x_memory_answers x) = 0 -> Q 0 (set_x_memory_answers (tail (x_memory_answers x)) x)) ->
  (forall a, a <> 0 -> x_memory_answers x = a :: tail (x_memory_answers x) -> Q a (set_x_memory (mwrite (x_memory x) a (zrepeat 0 size))
    (set_x_blocks ((a, size) :: x_blocks x) (set_x_memory_answers (tail (x_memory_answers x)) x)))) ->
  wp (AllocMem size) Q x.
Proof.
  intros H0 H1. apply wp_bind, wp_get. destruct x as [r m bl sg f [| a rest] sa]; [by apply H0 |]. cbn in *.
  apply wp_bind, wp_modify. destruct (Z.eqb_spec a 0) as [-> | Ha]; [by apply H0 |]. by apply wp_bind, wp_modify, (H1 a Ha).
Qed.

Lemma wp_FreeMem a size blocks (Q : unit -> exec -> Prop) x : x_blocks x = (a, size) :: blocks ->
  Q tt (set_x_blocks blocks x) -> wp (FreeMem a size) Q x.
Proof. intros E HQ. apply wp_bind, wp_get. rewrite E. cbn. rewrite bool_decide_true by done. by apply wp_modify. Qed.

Lemma wp_LoadSeg path (Q : Z -> exec -> Prop) x :
  Q 0 (set_x_seg_answers (tail (x_seg_answers x)) x) ->
  (forall seg, seg <> 0 -> Q seg (set_x_segs ((seg, path) :: x_segs x) (set_x_seg_answers (tail (x_seg_answers x)) x))) ->
  wp (LoadSeg path) Q x.
Proof.
  intros H0 H1. apply wp_bind, wp_get. destruct x as [r m bl sg f ma [| s rest]]; [exact H0 |]. cbn in *.
  apply wp_bind, wp_modify. destruct (Z.eqb_spec s 0) as [-> | Hs]; [exact H0 |]. by apply wp_bind, wp_modify, (H1 s Hs).
Qed.

(** The list of the resource. *)
Definition entries (x : exec) : option (list FseNode) := x_resource x ≫= fsr_FileSysEntries.

Definition add_node (node : FseNode) (x : exec) : exec :=
  set_x_resource (option_map (fun fsr => mk_fsr (fsr_Creator fsr) (option_map (cons node) (fsr_FileSysEntries fsr))) (x_resource x)) x.

Lemma wp_find_fatx nodes (Q : bool -> exec -> Prop) x : entries x = Some nodes ->
  Q (List.existsb is_fatx nodes) x -> wp find_fatx Q x.
Proof.
  intros E HQ. apply wp_bind, wp_bind, wp_get. unfold entries in E. destruct (x_resource x) as [[c [l |]] |]; [| done..].
  cbn in E. injection E as ->. exact HQ.
Qed.

Lemma wp_AddHead nodes node (Q : unit -> exec -> Prop) x : entries x = Some nodes -> Q tt (add_node node x) -> wp (AddHead node) Q x.
Proof.
  intros E HQ. apply wp_bind, wp_get. unfold entries, add_node in *. destruct (x_resource x) as [[c [l |]] |]; [| done..].
  exact HQ.
Qed.

Lemma entries_add nodes node x : entries x = Some nodes -> entries (add_node node x) = Some (node :: nodes).
Proof. unfold entries, add_node. destruct x as [[[c [l |]] |]]; try done. cbn. by intros [= ->]. Qed.

Lemma BADDR_MKBADDR a : 0 <= a < 2 ^ 32 -> Z.land a 3 = 0 -> BADDR (MKBADDR a) = a.
Proof.
  intros Ha Hz. unfold BADDR, MKBADDR. change 3 with (Z.ones 2) in Hz. rewrite Z.land_ones in Hz by lia.
  rewrite Z.shiftl_mul_pow2, Z.shiftr_div_pow2 by lia. int_lia.
Qed.

Lemma opcode_away m a bs p : a + zlen bs <= p \/ p + 2 <= a -> opcode_at (mwrite m a bs) p = opcode_at m p.
Proof.
  intros H. unfold opcode_at, mwrite. pose proof (zlen_nonneg bs).
  do 2 (replace ((a <=? _) && (_ <? a + zlen bs)) with false by (symmetry; apply andb_false_iff; lia)). done.
Qed.

(** What AmigaDOS jumps to when it starts a process from a segment list: the entry of
    the handler, which was seen to be a jump, or a jump there. *)
Definition starts_handler (m : mem) (entry seglist : Z) : Prop :=
  let code := u32 (BADDR seglist + 4) in
  opcode_at m code = JMP /\ (code = entry \/ operand_at m (u32 (code + 2)) = entry).

(** What a mounter that uses the resource puts into the nodes that it makes
    ([set_handler] in Handler.v, and sagasd.device likewise). *)
Definition offers (x : exec) (seglist : Z) : Prop := forall mine dn, exists dn',
  set_handler (find_filesystem (option_map (map fn_entry) (entries x))) mine dn = Some dn' /\
  dn_SegList dn' = seglist /\ dn_GlobalVec dn' = -1.

Lemma add_offers nodes a name e seglist x : entries x = Some nodes ->
  fse_DosType e = EXFAT_DOSTYPE -> fse_SegList e = seglist -> fse_GlobalVec e = -1 -> seglist <> 0 ->
  Z.land (fse_PatchFlags e) FSEF_GLOBALVEC <> 0 -> offers (add_node (mk_fse_node a name e) x) seglist.
Proof.
  intros E Et Es Eg Hs Ef mine dn. rewrite (entries_add nodes) by done. cbn. rewrite Et. cbn. eexists. split; [done |]. cbn.
  rewrite Es, Eg. split; [done |]. destruct (Z.eqb_spec seglist 0); [done |]. by destruct (Z.eqb_spec (Z.land (fse_PatchFlags e) FSEF_GLOBALVEC) 0).
Qed.

Lemma operand_bytes a b c d : 0 <= b < 256 -> 0 <= c < 256 -> 0 <= d < 256 ->
  Z.lor (Z.lor (Z.shiftl a 24) (Z.shiftl b 16)) (Z.lor (Z.shiftl c 8) d) = a * 2 ^ 24 + b * 2 ^ 16 + c * 2 ^ 8 + d.
Proof.
  intros Hb Hc Hd. replace (Z.shiftl a 24) with (Z.shiftl (Z.shiftl a 8) 16) by (by rewrite Z.shiftl_shiftl).
  rewrite <- Z.shiftl_lor, (lor_shift_add a), (lor_shift_add c) by lia. rewrite lor_shift_add by lia. lia.
Qed.

(** The segment that was built, read back. *)
Lemma rom_seg_read m seg entry : 0 <= seg -> 0 <= entry < 2 ^ 32 ->
  let m' := mwrite m seg (rom_seg_bytes (mk_rom_seg SIZEOF_ROM_SEG 0 JMP entry)) in
  opcode_at m' (seg + 8) = JMP /\ operand_at m' (seg + 10) = entry.
Proof.
  intros Hs He m'. assert (R : forall i, 0 <= i < 14 -> m' (seg + i) = znth (rom_seg_bytes (mk_rom_seg SIZEOF_ROM_SEG 0 JMP entry)) i).
  { intros i Hi. unfold m', mwrite. change (zlen _) with 14. rewrite Z.add_simpl_l.
    destruct (Z.leb_spec seg (seg + i)); [| lia]. by destruct (Z.ltb_spec (seg + i) (seg + 14)); [| lia]. }
  unfold opcode_at, operand_at. rewrite <- !Z.add_assoc. cbn [Z.add Pos.add Pos.succ]. rewrite !R by lia. split; [reflexivity |].
  change (znth _ 10) with ((entry / 256 / 256 / 256) mod 256). change (znth _ (10 + 1)) with ((entry / 256 / 256) mod 256).
  change (znth _ (10 + 2)) with ((entry / 256) mod 256). change (znth _ (10 + 3)) with (entry mod 256).
  rewrite operand_bytes by (apply Z.mod_pos_bound; lia). clear R m'. to_equations. lia.
Qed.

(** ** The tag of the ROM module *)

Section Rom.
Variables (b : rom_build) (entry : Z) (x0 : exec).

(** Memory that is not the jump at the start of the module. *)
Definition apart (a : Z) : Prop := 0 <= a < 2 ^ 32 - SIZEOF_FSE /\ (a + SIZEOF_FSE <= entry \/ entry + 6 <= a).

(** What was allocated for a segment list: the entry alone, when the segment list is the
    module itself, else the segment too. *)
Definition rom_blocks (fse seglist : Z) (blocks : list (Z * Z)) : Prop :=
  (blocks = [(fse, SIZEOF_FSE)] /\ seglist = MKBADDR (u32 (entry - 4))) \/
  exists seg, blocks = [(seg, SIZEOF_ROM_SEG); (fse, SIZEOF_FSE)] /\ seglist = MKBADDR (u32 (seg + 4)).

(** What a call of [exfat_rom_init] leaves behind: nothing, when the module was not
    relocated, when there is no list, or one with an entry, or when there was no memory
    for both structures; else an entry. *)
Definition able : Prop :=
  opcode_at (x_memory x0) entry = JMP /\ (exists nodes, entries x0 = Some nodes /\ List.existsb is_fatx nodes = false) /\
  exists fse seg rest, x_memory_answers x0 = fse :: seg :: rest /\ fse <> 0 /\ seg <> 0 /\ Z.land seg 3 = 0.
Definition rom_left (x : exec) : Prop := x_resource x = x_resource x0 /\ x_blocks x = x_blocks x0 /\ ~ able.
Definition rom_added (x : exec) : Prop :=
  exists nodes fse seglist blocks, entries x0 = Some nodes /\ List.existsb is_fatx nodes = false /\
    entries x = Some (mk_fse_node fse (Some exfat_rom_name) (rom_entry b seglist) :: nodes) /\
    rom_blocks fse seglist blocks /\ x_blocks x = blocks ++ x_blocks x0 /\
    starts_handler (x_memory x) entry seglist /\ offers x seglist.
Definition rom_outcome (rc : Z) (x : exec) : Prop :=
  rc = 0 /\ x_forbid x = x_forbid x0 /\ x_segs x = x_segs x0 /\ (rom_left x \/ rom_added x).

Hypothesis Hadd : rb_noadd b = false.

(** The state in which nothing happened yet but allocations. *)
Definition allocated (blocks : list (Z * Z)) (x : exec) : Prop :=
  x_resource x = x_resource x0 /\ x_forbid x = x_forbid x0 /\ x_segs x = x_segs x0 /\ x_blocks x = blocks ++ x_blocks x0.

Lemma rom_gave_up x : allocated [] x -> ~ able -> rom_outcome 0 x.
Proof. intros (Er & Ef & Es & Eb) Hn. split_and!; [done.. | by left]. Qed.

Lemma rom_register_spec fse seglist blocks nodes x : allocated blocks x -> entries x0 = Some nodes ->
  List.existsb is_fatx nodes = false -> rom_blocks fse seglist blocks -> seglist <> 0 ->
  starts_handler (x_memory x) entry seglist -> wp (rom_register b fse seglist) rom_outcome x.
Proof.
  intros (Er & Ef & Es & Eb) En Hn Hb Hl Hs. apply wp_bind, wp_modify. rewrite Hadd.
  assert (En' : entries (set_x_forbid (x_forbid x + 1) x) = Some nodes) by (unfold entries in *; cbn; by rewrite Er).
  apply wp_bind, (wp_AddHead nodes); [done |]. apply wp_bind, wp_modify, wp_ret. split_and!; [done | cbn; lia | done |].
  right. exists nodes, fse, seglist, blocks. split_and!; [done | done | | done | done | done |].
  - exact (entries_add _ _ _ En').
  - exact (add_offers nodes fse _ (rom_entry b seglist) seglist _ En' eq_refl eq_refl eq_refl Hl ltac:(done)).
Qed.

Lemma rom_undo seg fse x : allocated [(seg, SIZEOF_ROM_SEG); (fse, SIZEOF_FSE)] x -> ~ able ->
  wp (FreeMem seg SIZEOF_ROM_SEG;; FreeMem fse SIZEOF_FSE;; ret 0) rom_outcome x.
Proof.
  intros (Er & Ef & Es & Eb) Hn. apply wp_bind, (wp_FreeMem _ _ ((fse, SIZEOF_FSE) :: x_blocks x0)); [done |].
  apply wp_bind, (wp_FreeMem _ _ (x_blocks x0)); [done |]. by apply wp_ret, rom_gave_up.
Qed.

Lemma rom_segment_spec fse nodes x : allocated [(fse, SIZEOF_FSE)] x -> entries x0 = Some nodes ->
  List.existsb is_fatx nodes = false -> Forall apart (x_memory_answers x) ->
  x_memory_answers x0 = fse :: x_memory_answers x -> 0 <= entry < 2 ^ 32 -> wp (rom_segment b entry fse) rom_outcome x.
Proof.
  intros (Er & Ef & Es & Eb) En Hn Hm Hx He. apply wp_bind, wp_AllocMem.
  { intros H0. apply wp_bind, (wp_FreeMem _ _ (x_blocks x0)); [done |]. apply wp_ret, rom_gave_up; [done |].
    intros (_ & _ & ? & ? & ? & E & _ & ? & _). rewrite Hx in E. by injection E as <- E; rewrite E in H0. }
  intros seg Hseg Hin. rewrite Hin in Hm, Hx. apply Forall_cons in Hm as [Hsa _]. destruct (Z.eqb_spec seg 0); [done |].
  apply wp_bind, wp_modify, wp_bind, wp_get. cbv zeta. set (x1 := set_x_memory _ _). set (code := u32 _).
  assert (A1 : allocated [(seg, SIZEOF_ROM_SEG); (fse, SIZEOF_FSE)] x1) by (split_and!; [done.. | cbn; by rewrite Eb]).
  assert (Hread : able -> opcode_at (x_memory x1) code = JMP /\ operand_at (x_memory x1) (u32 (code + 2)) = entry).
  { intros (_ & _ & ? & ? & ? & E & _ & _ & Hal). rewrite Hx in E. injection E as <- <- <-.
    unfold apart, SIZEOF_FSE in Hsa. change 3 with (Z.ones 2) in Hal. rewrite Z.land_ones in Hal by lia.
    assert (Ec : code = seg + 8).
    { unfold code. rewrite (u32_small (seg + 4)) by (unfold in_u; lia). rewrite BADDR_MKBADDR; [int_lia | lia |].
      change 3 with (Z.ones 2). rewrite Z.land_ones by lia. int_lia. }
    rewrite Ec. rewrite (u32_small (seg + 8 + 2)) by (unfold in_u; lia). rewrite <- Z.add_assoc. apply rom_seg_read; lia. }
  clearbody x1. destruct (Z.eqb_spec (opcode_at (x_memory x1) code) JMP) as [Ho | Ho]; cbn [negb orb]; [| apply rom_undo; tauto].
  destruct (Z.eqb_spec (operand_at (x_memory x1) (u32 (code + 2))) entry) as [Hop | Hop]; cbn [negb]; [| apply rom_undo; tauto].
  apply (rom_register_spec _ _ _ nodes _ A1); [done | done | right; by exists seg | | split; [done | by right]].
  unfold MKBADDR, apart, SIZEOF_FSE in *. rewrite Z.shiftr_div_pow2 by lia. int_lia.
Qed.

Lemma exfat_rom_init_spec : 8 <= entry < 2 ^ 32 -> Forall apart (x_memory_answers x0) ->
  wp (exfat_rom_init b entry) rom_outcome x0.
Proof.
  intros He Hm. assert (A0 : allocated [] x0) by done. apply wp_bind, wp_get.
  destruct (Z.eqb_spec (opcode_at (x_memory x0) entry) JMP) as [Ho |]; cbn [negb]; [| by apply wp_ret, rom_gave_up; [| intros []]].
  destruct (x_resource x0) as [[c [nodes |]] |] eqn:Er;
    [| by apply wp_ret, rom_gave_up; [| intros (_ & (? & E & _) & _); unfold entries in E; rewrite Er in E]..].
  assert (En : entries x0 = Some nodes) by (unfold entries; by rewrite Er).
  apply wp_bind, wp_modify, wp_bind, (wp_find_fatx nodes); [done |]. apply wp_bind, wp_modify.
  set (x' := set_x_forbid _ _). assert (A' : allocated [] x') by (split_and!; [done | cbn; lia | done..]).
  assert (Em : x_memory x' = x_memory x0 /\ x_memory_answers x' = x_memory_answers x0) by done. clearbody x'. destruct Em as [Em Ea].
  destruct (List.existsb is_fatx nodes) eqn:Hn.
  { apply wp_ret, rom_gave_up; [done |]. intros (_ & (? & E & E') & _). congruence. }
  apply wp_bind, wp_AllocMem; rewrite Ea.
  { intros H0. apply wp_ret, rom_gave_up; [done |]. intros (_ & _ & ? & ? & ? & E & ? & _). by rewrite E in H0. }
  intros fse Hfse Hin. assert (Ha : apart fse) by (rewrite Hin in Hm; by apply Forall_cons in Hm as []).
  destruct (Z.eqb_spec fse 0); [done |]. set (x1 := set_x_memory _ _).
  assert (A1 : allocated [(fse, SIZEOF_FSE)] x1) by (destruct A' as (? & ? & ? & Eb); split_and!; [done.. | cbn; by rewrite Eb]).
  assert (Hx1 : x_memory_answers x1 = tail (x_memory_answers x0)) by done.
  assert (Ho1 : opcode_at (x_memory x1) entry = JMP).
  { cbn. rewrite opcode_away, Em; [done |]. rewrite zlen_zrepeat by done. unfold apart, SIZEOF_FSE in *. lia. }
  clearbody x1. destruct (negb (rb_ramseg b) && (Z.land entry 3 =? 0)) eqn:Hal.
  2: { apply (rom_segment_spec _ nodes); [done..| rewrite Hx1; destruct Hm; by cbn | by rewrite Hx1 | lia]. }
  apply andb_true_iff in Hal as [_ Hal%Z.eqb_eq]. assert (Ecode : u32 (BADDR (MKBADDR (u32 (entry - 4))) + 4) = entry).
  { rewrite BADDR_MKBADDR; [int_lia | int_lia |]. rewrite u32_small by (unfold in_u; lia).
    change 3 with (Z.ones 2) in *. rewrite Z.land_ones in * by lia. int_lia. }
  apply (rom_register_spec _ _ _ nodes _ A1); [done | done | by left | |].
  - unfold MKBADDR. rewrite Z.shiftr_div_pow2 by lia. int_lia.
  - unfold starts_handler. rewrite Ecode. split; [done | by left].
Qed.
End Rom.

(** C13: The ROM module makes itself known or leaves no trace, whatever the memory that
    AllocMem() returns: either nothing is registered and nothing stays allocated, which
    happens only when it was not relocated, when there is no list or an entry of 'FATX'
    in it, or when there is no memory; or its entry is at the head of the list, what is
    allocated is what the entry uses, a process that starts from the segment list runs
    the handler, and a mounter that asks for 'FATX' makes nodes with that segment list
    and the GlobalVec of a C program.  Forbid() and Permit() are balanced. *)
Theorem exfat_rom_init_registers b entry x (Hadd : rb_noadd b = false) (He : 8 <= entry < 2 ^ 32)
  (Hm : Forall (apart entry) (x_memory_answers x)) : wp (exfat_rom_init b entry) (rom_outcome b entry x) x.
Proof. by apply exfat_rom_init_spec. Qed.

(** A module that starts on a two-byte boundary, so that a segment is built for it. *)
Definition demo_build : rom_build := mk_build false false 1 11.
Definition demo_exec : exec :=
  mk_exec (Some (mk_fsr None (Some []))) (mwrite (fun _ => 0) 0xF80002 [0x4E; 0xF9]) [] [] 0 [0x1000; 0x2000] [0x4000; 0x5000].

Lemma exfat_rom_init_registers_witness :
  able 0xF80002 demo_exec /\ wp (exfat_rom_init demo_build 0xF80002) (rom_outcome demo_build 0xF80002 demo_exec) demo_exec.
Proof.
  split; [split_and!; [done | by exists [] | by exists 0x1000, 0x2000, []] |].
  apply exfat_rom_init_registers; [done | lia |]. cbn.
  apply Forall_cons; split; [unfold apart, SIZEOF_FSE; lia |]. apply Forall_cons; split; [unfold apart, SIZEOF_FSE; lia |]. by apply Forall_nil.
Defined.

(** ** The Shell command *)

Section Installs.
Context (x0 : exec) (nodes0 : list FseNode).

(** Several processes run the command: the file of each, and where it goes on. *)
Notation process := (list Z * installer)%type.
Definition system : Type := exec * list process.

Inductive turn : system -> system -> Prop :=
| process_turn x x' ps i path pc pc' : ps !! i = Some (path, pc) -> (forall rc, pc <> Finished rc) ->
    install_turn path pc x = Ok pc' x' -> turn (x, ps) (x', <[i := (path, pc')]> ps).

(** What a process has that is not listed yet. *)
Definition seg_of (p : process) : list Z :=
  match p.2 with Allocating seg | Adding seg _ => [seg] | _ => [] end.
Definition block_of (p : process) : list (Z * Z) := match p.2 with Adding _ fse => [(fse, SIZEOF_FSE)] | _ => [] end.
Definition done_of (p : process) : list unit := match p.2 with Finished rc => if rc =? RETURN_OK then [tt] else [] | _ => [] end.

(** The turns that a process has left at most. *)
Definition turns_left (pc : installer) : nat :=
  match pc with Checking => 4 | Loading => 3 | Allocating _ => 2 | Adding _ _ => 1 | Finished _ => 0 end.

(** The node of an entry, and what is held for it. *)
Definition res_node (e : Z * Z) : FseNode := mk_fse_node e.1 (Some (str "exfatres")) (res_entry e.2).

(** Everything that was loaded or allocated belongs to an entry or to a process that is
    not done, and there is an entry for each process that returned RETURN_OK. *)
Definition accounts (segs : list Z) (blocks : list (Z * Z)) (oks : nat) (x : exec) : Prop :=
  x_forbid x = x_forbid x0 /\ exists added : list (Z * Z),
    entries x = Some (map res_node added ++ nodes0) /\
    map fst (x_segs x) ≡ₚ map snd added ++ segs ++ map fst (x_segs x0) /\
    x_blocks x ≡ₚ map (fun e => (e.1, SIZEOF_FSE)) added ++ blocks ++ x_blocks x0 /\
    length added = oks.
Definition accounted (s : system) : Prop :=
  accounts (s.2 ≫= seg_of) (s.2 ≫= block_of) (length (s.2 ≫= done_of)) s.1.

(** One element of a list and the rest. *)
Lemma bind_lookup {A B} (f : A -> list B) l i a : l !! i = Some a ->
  l ≫= f ≡ₚ f a ++ (take i l ++ drop (S i) l) ≫= f.
Proof.
  intros E. rewrite <- (take_drop_middle l i a E) at 1. rewrite !bind_app, bind_cons.
  by rewrite app_assoc, (Permutation_app_comm (_ ≫= f)), <- app_assoc.
Qed.

Lemma bind_insert {A B} (f : A -> list B) l i a b : l !! i = Some a ->
  <[i := b]> l ≫= f ≡ₚ f b ++ (take i l ++ drop (S i) l) ≫= f.
Proof.
  intros E%lookup_lt_Some. rewrite insert_take_drop by done. rewrite !bind_app, bind_cons.
  by rewrite app_assoc, (Permutation_app_comm (_ ≫= f)), <- app_assoc.
Qed.

Lemma give_back_Some {A} (f : A -> bool) l k : give_back f l = Some k -> exists a, f a = true /\ l ≡ₚ a :: k.
Proof.
  revert k. induction l as [| a l IH]; intros k; cbn; [done |]. destruct (f a) eqn:Hf; [by intros [= <-]; eauto |].
  destruct (give_back f l) as [k' |]; [| done]. intros [= <-]. destruct (IH k' eq_refl) as (c & Hc & Hp). exists c.
  split; [done |]. rewrite Hp. apply Permutation_swap.
Qed.

Lemma give_back_in {A} (f : A -> bool) l a : a ∈ l -> f a = true -> exists k, give_back f l = Some k.
Proof.
  induction l as [| b l IH]; [by intros ?%elem_of_nil |]. intros [-> | Hin]%elem_of_cons Hf; cbn; [rewrite Hf; eauto |].
  destruct (f b); [eauto |]. destruct (IH Hin Hf) as [k ->]. by eexists.
Qed.

Lemma wp_UnLoadSeg seg (Q : unit -> exec -> Prop) x : seg ∈ map fst (x_segs x) ->
  (forall segs, map fst (x_segs x) ≡ₚ seg :: map fst segs -> Q tt (set_x_segs segs x)) -> wp (UnLoadSeg seg) Q x.
Proof.
  intros Hin HQ. apply (list_elem_of_fmap_1 fst) in Hin as ([s p] & -> & Hin). apply wp_bind, wp_get. cbn in *.
  destruct (give_back_in (fun q : Z * list Z => q.1 =? s) _ _ Hin (Z.eqb_refl _)) as [k E]. rewrite E.
  apply give_back_Some in E as ([s' p'] & Hs%Z.eqb_eq & Hp). cbn in Hs. subst s'. apply wp_modify, HQ. by rewrite Hp.
Qed.
(** The account of one process, the others being [R]. *)
Definition accounts_at (R : list process) (p : process) (x : exec) : Prop :=
  accounts (seg_of p ++ (R ≫= seg_of)) (block_of p ++ (R ≫= block_of)) (length (done_of p ++ (R ≫= done_of))) x.

Lemma accounts_proper segs segs' blocks blocks' oks x : segs ≡ₚ segs' -> blocks ≡ₚ blocks' ->
  accounts segs blocks oks x -> accounts segs' blocks' oks x.
Proof.
  intros Es Eb (Ef & added & En & Hs & Hb & Ho). split; [done |]. exists added. by rewrite <- Es, <- Eb.
Qed.

Lemma accounted_at x ps i p : ps !! i = Some p -> accounted (x, ps) -> accounts_at (take i ps ++ drop (S i) ps) p x.
Proof.
  intros E A. unfold accounts_at. rewrite <- (bind_lookup done_of ps i p E).
  eapply accounts_proper; [exact (bind_lookup seg_of ps i p E) | exact (bind_lookup block_of ps i p E) | exact A].
Qed.

Lemma accounted_insert x ps i p p' : ps !! i = Some p -> accounts_at (take i ps ++ drop (S i) ps) p' x ->
  accounted (x, <[i := p']> ps).
Proof.
  intros E A. unfold accounts_at in A. rewrite <- (bind_insert done_of ps i p p' E) in A.
  eapply accounts_proper; [symmetry; exact (bind_insert seg_of ps i p p' E) | symmetry; exact (bind_insert block_of ps i p p' E) | exact A].
Qed.

Lemma turn_accounts R path pc x : accounts_at R (path, pc) x -> (forall rc, pc <> Finished rc) ->
  wp (install_turn path pc) (fun pc' x' => accounts_at R (path, pc') x' /\ (turns_left pc' < turns_left pc)%nat) x.
Proof.
  intros (Ef & added & En & Hs & Hb & Ho) Hpc. destruct pc as [| | seg | seg fse | rc]; cbn [seg_of block_of done_of snd app] in *.
  - apply wp_bind, wp_modify, wp_bind, (wp_find_fatx (map res_node added ++ nodes0)); [done |]. apply wp_bind, wp_modify, wp_ret.
    split; [| by destruct (List.existsb _ _); cbn; lia]. destruct (List.existsb _ _); (split; [cbn; lia | by exists added]).
  - apply wp_bind, wp_LoadSeg; [apply wp_ret; split; [| cbn; lia]; split; [done | by exists added] |].
    intros seg Hseg. apply wp_ret. destruct (Z.eqb_spec seg 0); [done |]. split; [| cbn; lia].
    split; [done |]. exists added. split_and!; [done | | done | done]. cbn. rewrite Hs. by rewrite Permutation_middle.
  - apply wp_bind, wp_AllocMem.
    + intros _. apply wp_bind, wp_UnLoadSeg; [cbn; rewrite Hs; set_solver |]. intros segs Hp. apply wp_ret. split; [| cbn; lia].
      split; [done |]. exists added. split_and!; [done | | done | done]. cbn in *. apply (Permutation_cons_inv (a := seg)).
      rewrite <- Hp, Hs. symmetry. apply Permutation_middle.
    + intros fse Hfse _. destruct (Z.eqb_spec fse 0); [done |]. apply wp_ret. split; [| cbn; lia].
      split; [done |]. exists added. split_and!; [done | done | | done]. cbn. rewrite Hb. by rewrite Permutation_middle.
  - apply wp_bind, wp_modify, wp_bind, (wp_AddHead (map res_node added ++ nodes0)); [done |]. apply wp_bind, wp_modify, wp_ret.
    split; [| cbn; lia]. split; [cbn; lia |]. exists ((fse, seg) :: added). split_and!.
    + exact (entries_add _ (res_node (fse, seg)) _ En).
    + cbn. rewrite Hs. symmetry. apply Permutation_middle.
    + cbn. rewrite Hb. symmetry. apply Permutation_middle.
    + cbn. by rewrite Ho.
  - by destruct (Hpc rc).
Qed.
(** The turns that all processes have left. *)
Definition all_turns (ps : list process) : nat := sum_list_with (fun p => turns_left p.2) ps.

Lemma turns_insert ps i p p' : ps !! i = Some p ->
  (all_turns (<[i := p']> ps) + turns_left p.2 = all_turns ps + turns_left p'.2)%nat.
Proof.
  intros E. unfold all_turns. rewrite <- (take_drop_middle ps i p E) at 2.
  rewrite insert_take_drop by (by eapply lookup_lt_Some). rewrite !sum_list_with_app. cbn. lia.
Qed.

Lemma turn_accounted s s' : accounted s -> turn s s' -> accounted s' /\ (all_turns s'.2 < all_turns s.2)%nat.
Proof.
  intros A Ht. revert A. destruct Ht as [x x' ps i path pc pc' H H0 H1]. intros A. pose proof (turn_accounts _ _ _ _ (accounted_at _ _ _ _ H A) H0) as Hw.
  unfold wp in Hw. rewrite H1 in Hw.
  destruct Hw as [A' Ht]. split; [by eapply accounted_insert |]. pose proof (turns_insert ps i _ (path, pc') H). cbn [snd] in *. lia.
Qed.

Lemma turns_accounted n s s' : accounted s -> nsteps turn n s s' -> accounted s' /\ (n + all_turns s'.2 <= all_turns s.2)%nat.
Proof.
  intros A Hn. revert A. induction Hn as [s | n s1 s2 s3 Hs Hn IH]; intros A; [split; [done | lia] |].
  destruct (turn_accounted _ _ A Hs) as [A2 ?]. destruct (IH A2). split; [done | lia].
Qed.

(** The processes at their start. *)
Definition started (paths : list (list Z)) : list process := map (fun path => (path, Checking)) paths.

Lemma accounted_start paths : entries x0 = Some nodes0 -> accounted (x0, started paths).
Proof.
  intros E. split; [done |]. exists []. assert (H : forall B (f : process -> list B), (forall path, f (path, Checking) = []) -> started paths ≫= f = []).
  { intros B f Hf. induction paths as [| path paths IH]; [done |]. unfold started in *. cbn. by rewrite Hf, IH. }
  cbn. rewrite !H by done. done.
Qed.

Lemma all_turns_start paths : all_turns (started paths) = (4 * length paths)%nat.
Proof. unfold all_turns, started. induction paths as [| path paths IH]; cbn in *; lia. Qed.
End Installs.

(** C14: Any number of Shells may run the command at the same time, in any interleaving:
    no call of it fails to give a result, it takes at most four turns each, and at every
    point what was loaded and allocated is what the entries and the processes that go
    on hold, with one entry for each process that returned RETURN_OK; so that a failure
    at any point leaks nothing and frees nothing that is listed. *)
Theorem installs_accounted x0 nodes0 paths n s (He : entries x0 = Some nodes0)
  (Hs : nsteps turn n (x0, started paths) s) :
  accounted x0 nodes0 s /\ (n <= 4 * length paths)%nat /\
  forall i path pc, s.2 !! i = Some (path, pc) -> (forall rc, pc <> Finished rc) -> exists s', turn s s'.
Proof.
  destruct (turns_accounted x0 nodes0 _ _ _ (accounted_start x0 nodes0 paths He) Hs) as [A Hn].
  cbn [snd] in Hn. rewrite all_turns_start in Hn. split_and!; [done | lia |]. intros i path pc Hi Hpc. destruct s as [x ps].
  pose proof (turn_accounts x0 nodes0 _ _ _ x (accounted_at _ _ _ _ _ _ Hi A) Hpc) as Hw. apply wp_ok in Hw as (pc' & x' & E & _).
  eexists. by eapply process_turn.
Qed.

#[local] Notation demo_paths := [DEFAULT_HANDLER; DEFAULT_HANDLER].

(** The processes [turns], one turn each. *)
Fixpoint run_turns (turns : list nat) (s : system) : option system :=
  match turns with
  | [] => Some s
  | i :: turns =>
      match s.2 !! i with
      | None | Some (_, Finished _) => None
      | Some (path, pc) =>
          match install_turn path pc s.1 with
          | Ok pc' x' => run_turns turns (x', <[i := (path, pc')]> s.2)
          | _ => None
          end
      end
  end.

Lemma run_turns_sound turns s s' : run_turns turns s = Some s' -> nsteps turn (length turns) s s'.
Proof.
  revert s. induction turns as [| i turns IH]; intros [x ps]; cbn; [intros [= ->]; constructor |].
  destruct (ps !! i) as [[path pc] |] eqn:Hi; [| done].
  assert (H : match install_turn path pc x with Ok pc' x' => run_turns turns (x', <[i := (path, pc')]> ps) | _ => None end = Some s' ->
    (forall rc, pc <> Finished rc) -> nsteps turn (S (length turns)) (x, ps) s').
  { intros H Hpc. destruct (install_turn path pc x) as [pc' x' | |] eqn:E; [| done..].
    econstructor; [by eapply process_turn | by apply IH]. }
  destruct pc; [by intros ?; apply H.. | done].
Qed.

Lemma installs_accounted_witness :
  let s := default (demo_exec, []) (run_turns [0; 1; 1]%nat (demo_exec, started demo_paths)) in
  accounted demo_exec [] s /\ (3 <= 4 * 2)%nat /\
  forall i path pc, s.2 !! i = Some (path, pc) -> (forall rc, pc <> Finished rc) -> exists s', turn s s'.
Proof. intros s. apply (installs_accounted demo_exec [] demo_paths 3 s); [reflexivity | apply (run_turns_sound [0; 1; 1]%nat); reflexivity]. Defined.

(** The test for an entry and AddHead() are two sections under Forbid(): with two Shells
    both can find no entry and both add theirs, which the test was there to prevent. *)
Lemma installs_race : exists s, nsteps turn 8 (demo_exec, started demo_paths) s /\
  option_map (map (fun node => fse_SegList (fn_entry node))) (entries s.1) = Some [0x5000; 0x4000].
Proof.
  set (turns := [0; 1; 0; 1; 0; 1; 0; 1]%nat).
  assert (E : (s ← run_turns turns (demo_exec, started demo_paths); map (fun node => fse_SegList (fn_entry node)) <$> entries s.1)
    = Some [0x5000; 0x4000]) by (vm_compute; reflexivity).
  destruct (run_turns turns _) as [s |] eqn:R; [| done]. exists s. split; [exact (run_turns_sound _ _ _ R) | exact E].
Qed.

(** The turns of one process without another between them are [install]. *)
Fixpoint turns_of (n : nat) (path : list Z) (pc : installer) : M exec Z :=
  match pc, n with
  | Finished rc, _ => ret rc
  | _, O => diverge
  | _, S n => let! pc := install_turn path pc in turns_of n path pc
  end.

Lemma install_turns path x : install path x = turns_of 4 path Checking x.
Proof.
  unfold install, turns_of, install_turn, bind, Forbid, Permit, modify, ret. destruct (find_fatx _) as [found x1 | |]; [| done..].
  destruct found; [done |]. destruct (LoadSeg path _) as [seg x2 | |]; [| done..]. destruct (seg =? 0); [done |].
  destruct (AllocMem _ x2) as [fse x3 | |]; [| done..]. destruct (fse =? 0); [by destruct (UnLoadSeg seg x3) |].
  by destruct (AddHead _ _).
Qed.

(** One process alone: an entry that mounters find, or everything as it was. *)
Theorem install_alone path x nodes : entries x = Some nodes ->
  wp (install path) (fun rc x' => x_forbid x' = x_forbid x /\
    ((rc = RETURN_OK /\ List.existsb is_fatx nodes = false /\ exists fse seg,
        entries x' = Some (res_node (fse, seg) :: nodes) /\ x_segs x' = (seg, path) :: x_segs x /\ offers x' seg) \/
     (rc <> RETURN_OK /\ x_resource x' = x_resource x /\ x_segs x' = x_segs x /\ x_blocks x' = x_blocks x))) x.
Proof.
  intros En. apply wp_bind, wp_modify, wp_bind, (wp_find_fatx nodes); [done |]. apply wp_bind, wp_modify.
  destruct (List.existsb is_fatx nodes) eqn:Hn; [apply wp_ret; split; [cbn; lia | by right] |].
  apply wp_bind, wp_LoadSeg; [apply wp_ret; split; [cbn; lia | by right] |]. intros seg Hseg.
  destruct (Z.eqb_spec seg 0); [done |]. apply wp_bind, wp_AllocMem.
  - intros _. cbn. apply wp_bind, wp_bind, wp_get. cbn. rewrite Z.eqb_refl. apply wp_modify, wp_ret. split; [cbn; lia | by right].
  - intros fse Hfse _. destruct (Z.eqb_spec fse 0); [done |]. apply wp_bind, wp_modify, wp_bind, (wp_AddHead nodes); [done |].
    apply wp_bind, wp_modify, wp_ret. split; [cbn; lia |]. left. split_and!; [done | done |]. exists fse, seg. split_and!; [| done |].
    + exact (entries_add _ (res_node (fse, seg)) _ En).
    + exact (add_offers nodes fse _ (res_entry seg) seg _ En eq_refl eq_refl eq_refl Hseg ltac:(done)).
Qed.

(** The command itself, with the arguments that ReadArgs() found. *)
Lemma exfatres_main_ends args x : entries x <> None -> wp (exfatres_main args) (fun r x' => x_forbid x' = x_forbid x) x.
Proof.
  intros He. destruct (entries x) as [nodes |] eqn:En; [| done]. destruct args as [[cmd file] |]; [| by apply wp_ret].
  apply wp_bind, wp_get. pose proof En as En'. unfold entries in En'. destruct (x_resource x) as [[c l] |] eqn:Er; [| done]. cbn in En'. subst l.
  cbv zeta. generalize (znth cmd 0). intros c1. destruct (_ || _); [| destruct ((c1 =? 105) || _)]; [| | by apply wp_ret].
  - apply wp_bind, wp_bind, wp_get; cbv zeta. apply wp_bind, wp_modify, wp_bind, wp_bind, wp_get. cbn. rewrite Er. apply wp_ret, wp_bind, wp_modify, wp_ret, wp_ret. cbn. lia.
  - apply wp_bind. eapply wp_mono; [by apply install_alone |]. intros rc x' [Ef _]. by apply wp_ret.
Qed.
