(* ===== verification/HandlerLocks.v ===== *)
(** * HandlerLocks: locks, open files and references (amiga/handler.c)

    What the handler owns: every lock and every open file holds one reference to its
    node, the locks are the list of the volume, and the scan that a lock remembers goes
    on at a node that is there.  The steps that packets share keep this. *)

From Stdlib Require Import ZArith Lia.
From stdpp Require Import base numbers list gmap.
From S2P Require Import Prelude Bytes Monad Ondisk State Utf Bitmap Geometry Cluster FileIO Utils ExfatTime Entries EntriesSpec DirTerm NodeTerm NodeTree TreeSpec TreeReset Lookup LookupSpec TreeSafe TreeMove Dir DirSafe FuseSpec Amigaos Handler.

#[local] Open Scope Z_scope.

(** ** References of a table *)

(** The references that the entries of [m] hold to [q]. *)
Definition refs_of {A} (node : A -> option ptr) (m : gmap addr A) (q : ptr) : Z :=
  map_fold (fun _ x n => (if decide (node x = Some q) then 1 else 0) + n) 0 m.

Section RefsOf.
Context {A : Type} (node : A -> option ptr).
Implicit Types m : gmap addr A.

Lemma refs_of_insert m a x q : m !! a = None ->
  refs_of node (<[a := x]> m) q = (if decide (node x = Some q) then 1 else 0) + refs_of node m q.
Proof. intros Ha. unfold refs_of. rewrite map_fold_insert_L; [done | lia | done]. Qed.

Lemma refs_of_delete m a x q : m !! a = Some x ->
  refs_of node m q = (if decide (node x = Some q) then 1 else 0) + refs_of node (delete a m) q.
Proof. intros Ha. rewrite <- (insert_delete_id m a x) at 1 by done. apply refs_of_insert, lookup_delete_eq. Qed.

Lemma refs_of_update m a x x' q : m !! a = Some x -> node x' = node x ->
  refs_of node (<[a := x']> m) q = refs_of node m q.
Proof.
  intros Ha Hx. rewrite <- insert_delete_eq, refs_of_insert by apply lookup_delete_eq.
  by rewrite Hx, <- refs_of_delete.
Qed.

Lemma refs_of_fmap (f : A -> A) m q : (forall x, node (f x) = node x) -> refs_of node (f <$> m) q = refs_of node m q.
Proof.
  intros Hf. induction m as [| a x m Ha IH] using map_ind; [by rewrite fmap_empty |].
  rewrite fmap_insert, !refs_of_insert, Hf, IH; [done | done |]. by rewrite lookup_fmap, Ha.
Qed.

Lemma refs_of_nonneg m q : 0 <= refs_of node m q.
Proof.
  induction m as [| a x m Ha IH] using map_ind; [done |]. rewrite refs_of_insert by done. case_decide; lia.
Qed.

Lemma refs_of_elem m a x q : m !! a = Some x -> node x = Some q -> 1 <= refs_of node m q.
Proof. intros Ha Hx. rewrite (refs_of_delete m a x) by done. pose proof (refs_of_nonneg (delete a m) q). case_decide; [lia | done]. Qed.
End RefsOf.

(** ** The list of locks *)

Fixpoint chain (m : gmap addr ExfatLock) (head : option addr) (l : list addr) : Prop :=
  match l with
  | [] => head = None
  | a :: l => head = Some a /\ exists k, m !! a = Some k /\ chain m (fl_Link k) l
  end.

Lemma chain_frame m m' : forall l head,
  (forall a k, a ∈ l -> m !! a = Some k -> exists k', m' !! a = Some k' /\ fl_Link k' = fl_Link k) ->
  chain m head l -> chain m' head l.
Proof.
  induction l as [| a l IH]; intros head Hm; [done |]. cbn [chain]. intros (-> & k & Hk & Hc).
  destruct (Hm a k ltac:(set_solver) Hk) as (k' & Hk' & E). split; [done |]. exists k'. split; [done |]. rewrite E.
  apply IH; [| done]. intros b kb Hb. apply Hm. set_solver.
Qed.

Lemma chain_elem m : forall l head a, chain m head l -> a ∈ l -> is_Some (m !! a).
Proof.
  induction l as [| b l IH]; intros head a; [set_solver |]. cbn [chain]. intros (-> & k & Hk & Hc).
  intros [-> | Ha]%elem_of_cons; [eauto | by eapply IH].
Qed.

(** Distinct locks are no more than the table has. *)
Lemma lock_chain_length m head l : chain m head l -> NoDup l -> (length l <= size m)%nat.
Proof.
  intros Hc Hl. rewrite <- size_dom, <- (size_list_to_set (C := gset addr) l) by done.
  apply subseteq_size. intros a. rewrite elem_of_list_to_set, elem_of_dom. by eapply chain_elem.
Qed.

(** Write the link in front of a lock that is taken out. *)
Lemma chain_cut m a k l2 : forall l1 head, chain m head (l1 ++ a :: l2) -> NoDup (l1 ++ a :: l2) -> m !! a = Some k ->
  match last_or None l1 with
  | None => l1 = [] /\ chain (delete a m) (fl_Link k) l2
  | Some b => exists kb, m !! b = Some kb /\ b <> a /\ chain (delete a (<[b := set_fl_Link (fl_Link k) kb]> m)) head (l1 ++ l2)
  end.
Proof.
  intros l1. destruct (last_case l1) as [-> | (l & b & ->)].
  - cbn [last_or app chain]. intros head (-> & k' & Hk' & Hc) [Ha Hnd]%NoDup_cons Hk. split; [done |].
    assert (k' = k) as -> by congruence. eapply chain_frame; [| exact Hc].
    intros b kb Hb Hkb. exists kb. split; [| done]. rewrite lookup_delete_ne; [done | set_solver].
  - rewrite last_or_app. cbn [last_or]. induction l as [| c l IH]; intros head.
    + cbn [app chain]. intros (-> & kb & Hkb & E & k' & Hk' & Hc) Hnd Hk. assert (k' = k) as -> by congruence.
      apply NoDup_cons in Hnd as [Hb [Ha Hnd]%NoDup_cons]. assert (b <> a) by set_solver.
      exists kb. split_and!; [done.. |]. exists (set_fl_Link (fl_Link k) kb).
      rewrite lookup_delete_ne, lookup_insert_eq by done. split; [done |]. cbn [fl_Link set_fl_Link].
      eapply chain_frame; [| exact Hc]. intros c kc Hc' Hkc. exists kc. split; [| done].
      by rewrite lookup_delete_ne, lookup_insert_ne by set_solver.
    + cbn [app chain]. intros (-> & kc & Hkc & Hc) [Hc' Hnd]%NoDup_cons Hk.
      destruct (IH _ Hc Hnd Hk) as (kb & Hkb & Hba & Hcut). exists kb. split_and!; [done.. |]. exists kc.
      split; [| done]. by rewrite lookup_delete_ne, lookup_insert_ne by set_solver.
Qed.

Section Walks.
Context `{Platform}.

Lemma deref_lock_ok a l h : h_locks h !! a = Some l -> deref_lock (Some a) h = Ok l h.
Proof. intros Ha. cbn. by rewrite Ha. Qed.

Lemma deref_file_ok a f h : h_files h !! a = Some f -> deref_file (Some a) h = Ok f h.
Proof. intros Ha. cbn. by rewrite Ha. Qed.

(** The search for a lock ends at the link in front of it. *)
Lemma unlink_lock_ok h a k l2 : forall l1 fuel prev head, chain (h_locks h) head (l1 ++ a :: l2) -> a ∉ l1 ->
  h_locks h !! a = Some k -> (length l1 < fuel)%nat ->
  unlink_lock fuel prev head a h = set_link (last_or prev l1) (fl_Link k) h.
Proof.
  induction l1 as [| b l1 IH]; intros fuel prev head Hc Ha Hk Hf; (destruct fuel as [| fuel]; [cbn in Hf; lia |]).
  - destruct Hc as (-> & k' & Hk' & Hc). cbn [unlink_lock last_or].
    rewrite (bind_ok _ _ _ _ _ (deref_lock_ok a k h Hk)), bool_decide_true by done. done.
  - destruct Hc as (-> & kb & Hkb & Hc). cbn [unlink_lock last_or].
    rewrite (bind_ok _ _ _ _ _ (deref_lock_ok b kb h Hkb)), bool_decide_false by set_solver.
    apply IH; [done | set_solver | done | cbn in Hf; lia].
Qed.

(** A walk along the locks changes all of them. *)
Lemma scan_walk_ok f : (forall k, fl_Link (f k) = fl_Link k) -> forall l fuel head h, chain (h_locks h) head l ->
  (length l <= fuel)%nat -> NoDup l ->
  exists m, scan_walk fuel head f h = Ok tt (set_h_locks m h) /\
    (forall a, a ∉ l -> m !! a = h_locks h !! a) /\ (forall a, a ∈ l -> m !! a = f <$> h_locks h !! a).
Proof.
  intros Hf. induction l as [| a l IH]; intros fuel head h.
  - cbn [chain]. intros -> _ _. exists (h_locks h). destruct fuel; cbn [scan_walk]; (split_and!; [by destruct h | done | set_solver]).
  - cbn [chain]. intros (-> & k & Hk & Hc) Hl [Ha Hnd]%NoDup_cons. destruct fuel as [| fuel]; [cbn in Hl; lia |].
    cbn [scan_walk]. rewrite (bind_ok _ _ _ _ _ (deref_lock_ok a k h Hk)).
    edestruct (IH fuel (fl_Link k) (set_h_locks (<[a := f k]> (h_locks h)) h)) as (m & E & M1 & M2); [| cbn in Hl; lia | done |].
    { cbn [h_locks set_h_locks]. eapply chain_frame; [| exact Hc]. intros b kb Hb Hkb. exists kb. split; [| done].
      rewrite lookup_insert_ne; [done | set_solver]. }
    exists m. split_and!.
    + unfold set_lock, bind, modify. by rewrite E.
    + intros b Hb. rewrite M1 by set_solver. cbn [h_locks set_h_locks]. rewrite lookup_insert_ne; [done | set_solver].
    + intros b [-> | Hb]%elem_of_cons.
      * rewrite M1 by done. cbn [h_locks set_h_locks]. by rewrite lookup_insert_eq, Hk.
      * rewrite M2 by done. cbn [h_locks set_h_locks]. rewrite lookup_insert_ne; [done | set_solver].
Qed.
End Walks.

(** ** The invariant *)

Definition none : ptr -> Z := fun _ => 0.

(** Read a field of a changed handler. *)
Ltac hs := cbn [h_world h_mounted h_inhibited h_quit h_nlocks h_nfiles h_volume h_volname h_volname_orig h_names h_locks
  h_files h_fresh h_trace set_h_world set_h_mounted set_h_inhibited set_h_quit set_h_nlocks set_h_nfiles set_h_volume
  set_h_volname set_h_volname_orig set_h_names set_h_locks set_h_files set_h_fresh set_h_devlist set_h_spec
  set_h_answers set_h_trace set_h_published set_h_next_name_idx] in *; cbn beta in *.

Section Serving.
Context `{Platform} (w0 : world).

(** Since [w0] the tree of nodes is whole, and the references are those of the locks, of
    the open files, and [d]; the list of the volume has every lock once. *)
Record serving (d : ptr -> Z) (h : handler) : Prop := {
  sv_intact : intact (fun q => refs_of lk_node (h_locks h) q + refs_of fi_node (h_files h) q + d q) w0 (h_world h);
  sv_locks : forall a l, h_locks h !! a = Some l -> is_Some (lk_node l);
  sv_files : forall a f, h_files h !! a = Some f -> is_Some (fi_node f);
  sv_nlocks : h_nlocks h = u32 (Z.of_nat (size (h_locks h)));
  sv_nfiles : h_nfiles h = u32 (Z.of_nat (size (h_files h)));
  sv_chain : exists v l, h_volume h = Some v /\ NoDup l /\ chain (h_locks h) (dl_LockList v) l /\
    forall a, a ∈ l <-> is_Some (h_locks h !! a);
  sv_fresh : forall a, is_Some (h_locks h !! a) \/ is_Some (h_files h !! a) -> (a < h_fresh h)%N
}.

(** Every scan goes on at a node that is there. *)
Definition scans_live (h : handler) : Prop := forall a l q,
  h_locks h !! a = Some l -> lk_scan_next l = Some q -> is_Some (w_heap (h_world h) !! q).

Definition live (d : ptr -> Z) (h : handler) : Prop := serving d h /\ scans_live h.

(** What AmigaDOS passes for a lock or a file: null, or one that it was given. *)
Definition lock_ok (h : handler) (lock : option addr) : Prop :=
  match lock with None => True | Some a => is_Some (h_locks h !! a) end.
Definition file_ok (h : handler) (file : option addr) : Prop :=
  match file with None => True | Some a => is_Some (h_files h !! a) end.

Hypothesis Hw0 : ready w0.

Lemma serving_forest d h : serving d h -> forest (h_world h).
Proof. intros S. apply S. Qed.

Lemma serving_ready d h : serving d h -> ready (h_world h).
Proof. intros S. eapply ready_intact; [exact Hw0 | apply S]. Qed.

Lemma serving_root d h : serving d h -> exists r, w_root (h_world h) = Some r /\ is_Some (w_heap (h_world h) !! r).
Proof. intros S. destruct (fo_root _ (serving_forest _ _ S)) as (r & n & Hr & Hn & _). eauto. Qed.

Lemma sum_nonneg h q : 0 <= refs_of lk_node (h_locks h) q + refs_of fi_node (h_files h) q.
Proof. pose proof (refs_of_nonneg lk_node (h_locks h) q). pose proof (refs_of_nonneg fi_node (h_files h) q). lia. Qed.

(** A node that something refers to is there. *)
Lemma serving_held d h q : serving d h -> (forall q, 0 <= d q) ->
  1 <= refs_of lk_node (h_locks h) q + refs_of fi_node (h_files h) q + d q -> is_Some (w_heap (h_world h) !! q).
Proof. intros S Hd Hq. eapply intact_held; [apply Hw0 | apply S | done]. Qed.

Lemma serving_lock_node d h a l p : serving d h -> (forall q, 0 <= d q) -> h_locks h !! a = Some l -> lk_node l = Some p ->
  is_Some (w_heap (h_world h) !! p).
Proof.
  intros S Hd Ha Hp. eapply serving_held; [done | done |].
  pose proof (refs_of_elem lk_node _ a l p Ha Hp). pose proof (refs_of_nonneg fi_node (h_files h) p). specialize (Hd p). lia.
Qed.

Lemma serving_file_node d h a f p : serving d h -> (forall q, 0 <= d q) -> h_files h !! a = Some f -> fi_node f = Some p ->
  is_Some (w_heap (h_world h) !! p).
Proof.
  intros S Hd Ha Hp. eapply serving_held; [done | done |].
  pose proof (refs_of_elem fi_node _ a f p Ha Hp). pose proof (refs_of_nonneg lk_node (h_locks h) p). specialize (Hd p). lia.
Qed.

(** *** Calls of libexfat *)

Lemma wps_ef {A B} (m : M world A) (k : A -> M handler B) Q h :
  wps m (fun a w' => wps (k a) Q (set_h_world w' h)) (h_world h) -> wps (let! a := on_ef m in k a) Q h.
Proof. intros Hm. apply wps_bind, wps_on_part. exact Hm. Qed.

Lemma serving_intact d e d' h w' : serving d h -> intact e (h_world h) w' -> (forall q, d' q = d q + e q) ->
  serving d' (set_h_world w' h).
Proof.
  intros [] I Hd. constructor; try done. eapply intact_trans; [done | exact I |]. intros q. hs. rewrite Hd. lia.
Qed.

Lemma live_mild d e d' h w' : live d h -> mild e (h_world h) w' -> (forall q, d' q = d q + e q) -> live d' (set_h_world w' h).
Proof.
  intros [S L] I Hd. split; [eapply serving_intact; [done | apply I | done] |].
  intros a l q Ha Hq. apply (mi_nodes _ _ _ I). by eapply L.
Qed.

Lemma live_later d e d' h w' : live d h -> later e (h_world h) w' -> (forall q, d' q = d q + e q) -> live d' (set_h_world w' h).
Proof. intros L I. by eapply live_mild, mild_later. Qed.

Lemma live_quiet d h w' : live d h -> quiet (h_world h) w' -> live d (set_h_world w' h).
Proof. intros L I. eapply live_mild; [done | by apply mild_quiet | intros; hs; lia]. Qed.

Lemma live_ext d d' h : live d h -> (forall q, d' q = d q) -> live d' h.
Proof.
  intros [[] L] Hd. split; [constructor; try done | done]. eapply intact_trans; [done | apply (intact_quiet _ _ (quiet_refl _ ltac:(apply sv_intact0))) |].
  intros q. hs. rewrite Hd. lia.
Qed.

(** A reference that is given back. *)
Lemma put_live {B} d p (k : M handler B) Q h : live (fun q => d q + one p 1 q) h -> (forall q, 0 <= d q) ->
  (forall w', live d (set_h_world w' h) -> wps k Q (set_h_world w' h)) ->
  wps (on_ef (exfat_put_node (Some p));; k) Q h.
Proof.
  intros L Hd Hk. apply wps_ef.
  assert (Hp : is_Some (w_heap (h_world h) !! p)).
  { destruct L as [S _]. eapply serving_held; [exact S | intros q; specialize (Hd q); unfold one; case_decide; lia |].
    pose proof (sum_nonneg h p). specialize (Hd p). unfold one. rewrite decide_True by done. lia. }
  apply wps_put_node; [done |]. intros Hr. apply Hk. destruct L as [S L].
  eapply live_later; [by split | apply put_later; [by eapply serving_forest | done] |]. refs_eq.
Qed.

Lemma get_live {B} d p (k : option ptr -> M handler B) Q h : live d h -> is_Some (w_heap (h_world h) !! p) ->
  (forall w', live (fun q => d q + one p 1 q) (set_h_world w' h) -> wps (k (Some p)) Q (set_h_world w' h)) ->
  wps (let! r := on_ef (exfat_get_node (Some p)) in k r) Q h.
Proof.
  intros L Hp Hk. apply wps_ef, wps_get_node; [done |]. apply Hk.
  eapply live_later; [done | apply get_later; [apply L | done] | done].
Qed.

(** The other fields do not matter. *)
Lemma live_same d h h' : live d h -> h_world h' = h_world h -> h_locks h' = h_locks h -> h_files h' = h_files h ->
  h_nlocks h' = h_nlocks h -> h_nfiles h' = h_nfiles h -> h_volume h' = h_volume h -> (h_fresh h <= h_fresh h')%N ->
  live d h'.
Proof.
  intros [[] L] Ew El Ef En1 En2 Ev Efr. split; [constructor |]; rewrite ?Ew, ?El, ?Ef, ?En1, ?En2, ?Ev; try done.
  - intros a Ha. specialize (sv_fresh0 a Ha). lia.
  - unfold scans_live. by rewrite Ew, El.
Qed.

(** *** Allocation *)

Lemma ask_live d h : live d h -> wps ask (fun _ h' => live d h' /\ exists answers, h' = set_h_answers answers h) h.
Proof.
  intros L. unfold wps, ask. destruct (h_answers h) as [| b ans] eqn:E.
  - split; [done |]. exists (h_answers h). by destruct h.
  - split; [by apply (live_same d h) | by exists ans].
Qed.

(** The address of something new. *)
Lemma alloc_live d h : live d h -> wps AllocVec (fun a h' => live d h' /\ h_locks h' = h_locks h /\ h_files h' = h_files h /\
  h_world h' = h_world h /\ h_volume h' = h_volume h /\
  forall a', a = Some a' -> h_locks h !! a' = None /\ h_files h !! a' = None /\ (a' < h_fresh h')%N) h.
Proof.
  intros L. unfold AllocVec. apply wps_bind. eapply wps_mono; [by apply ask_live |]. cbn beta.
  intros ok h1 (L1 & ans & ->). destruct ok; cbn [negb]; [| by apply wps_ret].
  apply wps_bind, wps_get, wps_bind, wps_modify, wps_ret.
  split_and!; try done.
  - eapply live_same; [exact L1 | done.. |]. hs. lia.
  - intros a' [= <-]. hs. destruct L as [S _]. pose proof (sv_fresh _ _ S (h_fresh h)) as Hn.
    split_and!; [apply eq_None_not_Some; intros E | apply eq_None_not_Some; intros E | lia];
      [specialize (Hn (or_introl E)) | specialize (Hn (or_intror E))]; lia.
Qed.

(** *** Making and freeing a lock *)

Lemma intact_ext d d' w w' : intact d w w' -> (forall q, d' q = d q) -> intact d' w w'.
Proof. intros [] Hd. constructor; try done. intros q. by rewrite Hd. Qed.

Lemma u32_succ n : u32 (u32 (Z.of_nat n) + 1) = u32 (Z.of_nat (S n)).
Proof. unfold u32. rewrite Zplus_mod_idemp_l. f_equal. lia. Qed.

Lemma u32_pred n : u32 (u32 (Z.of_nat (S n)) - 1) = u32 (Z.of_nat n).
Proof. unfold u32. rewrite Zminus_mod_idemp_l. f_equal. lia. Qed.

Lemma makelock_live p access h : live (one p 1) h ->
  wps (exfat_amiga_makelock (Some p) access) (fun a h' => match a with
    | Some a => live none h' /\ is_Some (h_locks h' !! a)
    | None => live (one p 1) h' end) h.
Proof.
  intros L. unfold exfat_amiga_makelock. eapply wps_step; [by apply alloc_live |]. cbn beta.
  intros [a |] h1 (L1 & El & Ef & Ew & Ev & Ha); [| by apply wps_ret]. destruct (Ha a eq_refl) as (Hal & Haf & Hfr).
  rewrite <- El in Hal. clear Ha. destruct L1 as [S1 Sc1]. pose proof S1 as [I Hls Hfs Hnl Hnf (v & l & Hv & Hnd & Hc & Hin) Hfresh].
  assert (Hp : is_Some (w_heap (h_world h1) !! p)).
  { eapply serving_held; [exact S1 | intros q; unfold one; case_decide; lia |]. pose proof (sum_nonneg h1 p).
    unfold one. rewrite decide_True by done. lia. }
  destruct Hp as [n Hn]. apply wps_ef. eapply wps_deref; [exact Hn |]. apply wps_bind, wps_get, wps_bind, wps_modify, wps_bind, wps_modify,
    wps_bind, wps_modify, wps_ret. hs.
  split; [split; [constructor | unfold scans_live] |]; hs.
  - eapply intact_ext; [exact I |]. intros q. hs. rewrite refs_of_insert by done. unfold one, none. cbn [lk_node].
    repeat case_decide; simplify_eq; lia.
  - intros b k [[<- <-] | [_ Hb]]%lookup_insert_Some; [done | by eapply Hls].
  - done.
  - rewrite Hnl, map_size_insert_None by done. apply u32_succ.
  - done.
  - exists (set_dl_LockList (Some a) v), (a :: l). rewrite Hv. cbn [option_map dl_LockList set_dl_LockList].
    assert (Hal' : a ∉ l) by (rewrite Hin, Hal; by intros []).
    split_and!; [done | by constructor | |].
    + split; [done |]. eexists. split; [by rewrite lookup_insert_eq |]. cbn [fl_Link].
      eapply chain_frame; [| exact Hc]. intros b k Hb Hk. exists k. split; [| done]. rewrite lookup_insert_ne; [done | set_solver].
    + intros b. rewrite elem_of_cons, lookup_insert_is_Some', Hin. naive_solver.
  - intros b. rewrite lookup_insert_is_Some'. intros [[<- | Hb] | Hb]; [done | apply Hfresh; by left | apply Hfresh; by right].
  - intros b k q [[<- <-] | [_ Hb]]%lookup_insert_Some; [done |]. by eapply Sc1.
  - rewrite lookup_insert_eq. eauto.
Qed.

(** The table and the list without a lock. *)
Lemma unlink_live d h a k p : live d h -> h_locks h !! a = Some k -> lk_node k = Some p ->
  exists v h1, h_volume h = Some v /\
    unlink_lock (lock_fuel h) None (dl_LockList v) a h = Ok tt h1 /\ h_world h1 = h_world h /\
    (exists k', h_locks h1 !! a = Some k' /\ lk_node k' = Some p) /\
    live (fun q => d q + one p 1 q)
      (set_h_nlocks (u32 (h_nlocks h1 - 1)) (set_h_locks (delete a (h_locks h1)) h1)).
Proof.
  intros [S Sc] Ha Hp. destruct S as [I Hls Hfs Hnl Hnf (v & l & Hv & Hnd & Hc & Hin) Hfresh].
  assert (Hal : a ∈ l) by (apply Hin; eauto). pose proof (lock_chain_length _ _ _ Hc Hnd) as Hlen.
  apply list_elem_of_split in Hal as (l1 & l2 & ->).
  assert (Hal1 : a ∉ l1) by (apply NoDup_app in Hnd as (_ & Hd & _); intros Hx; apply (Hd a Hx); set_solver).
  assert (Hnd' : NoDup (l1 ++ l2) /\ a ∉ l1 ++ l2).
  { rewrite <- Permutation_middle in Hnd. by apply NoDup_cons in Hnd as [? ?]. }
  destruct Hnd' as [Hnd' Hal12]. pose proof (chain_cut _ _ _ _ _ _ Hc Hnd Ha) as Hcut.
  assert (Hsz : exists n, size (h_locks h) = S n /\ size (delete a (h_locks h)) = n).
  { exists (size (delete a (h_locks h))). split; [| done]. rewrite <- (insert_delete_id (h_locks h) a k) at 1 by done.
    apply map_size_insert_None, lookup_delete_eq. }
  destruct Hsz as (n & Hn1 & Hn2).
  exists v. assert (Eu : unlink_lock (lock_fuel h) None (dl_LockList v) a h = set_link (last_or None l1) (fl_Link k) h).
  { apply (unlink_lock_ok h a k l2 l1); [done.. |]. rewrite length_app in Hlen. cbn in Hlen. unfold lock_fuel. lia. }
  destruct (last_or None l1) as [b |] eqn:El.
  - destruct Hcut as (kb & Hkb & Hba & Hcut).
    exists (set_h_locks (<[b := set_fl_Link (fl_Link k) kb]> (h_locks h)) h). split_and!; try done.
    + rewrite Eu. transitivity (set_link (Some b) (fl_Link k) h); [f_equal; exact El |].
      unfold set_link, assign_lock. by rewrite (bind_ok _ _ _ _ _ (deref_lock_ok b kb h Hkb)).
    + exists k. hs. by rewrite lookup_insert_ne.
    + assert (Esz : size (delete a (<[b := set_fl_Link (fl_Link k) kb]> (h_locks h))) = n).
      { rewrite <- insert_delete_ne, map_size_insert_Some by (rewrite ?lookup_delete_ne; done || (by eexists; rewrite lookup_delete_ne)). done. }
      split; [constructor | unfold scans_live]; hs; try done.
      * eapply intact_ext; [exact I |]. intros q. hs.
        rewrite (refs_of_delete lk_node (h_locks h) a k) by done.
        rewrite <- insert_delete_ne by done. rewrite (refs_of_update _ _ b kb) by (rewrite ?lookup_delete_ne; done).
        rewrite Hp. unfold one. repeat case_decide; simplify_eq; lia.
      * intros c kc [Hca Hc']%lookup_delete_Some. apply lookup_insert_Some in Hc' as [[<- <-] | [_ Hc']]; [| by eapply Hls].
        cbn. by eapply Hls.
      * rewrite Hnl, Hn1, Esz. apply u32_pred.
      * exists v, (l1 ++ l2). split_and!; [done.. |]. intros c. rewrite lookup_delete_is_Some, lookup_insert_is_Some', <- Hin.
        assert (Hb : b ∈ l1 ++ a :: l2) by (apply Hin; eauto). rewrite elem_of_app, elem_of_cons in Hb.
        rewrite !elem_of_app, elem_of_cons. rewrite elem_of_app in Hal12.
        destruct (decide (a = c)) as [<- |]; [intuition congruence |].
        destruct (decide (b = c)) as [<- |]; intuition congruence.
      * intros c. rewrite lookup_delete_is_Some, lookup_insert_is_Some'. intros [[Hca [<- | Hc']] | Hc']; apply Hfresh; eauto.
      * intros c kc q [Hca Hc']%lookup_delete_Some Hq. apply lookup_insert_Some in Hc' as [[<- <-] | [_ Hc']]; [| by eapply Sc].
        by eapply Sc.
  - destruct Hcut as [-> Hcut]. exists (set_h_volume (option_map (set_dl_LockList (fl_Link k)) (h_volume h)) h).
    split; [done |]. split.
    { rewrite Eu. transitivity (set_link None (fl_Link k) h); [f_equal; exact El | done]. }
    split; [done |]. split; [by exists k |].
    split; [constructor | unfold scans_live]; hs; try done.
    + eapply intact_ext; [exact I |]. intros q. hs. rewrite (refs_of_delete lk_node (h_locks h) a k) by done.
      rewrite Hp. unfold one. repeat case_decide; simplify_eq; lia.
    + intros c kc [Hca Hc']%lookup_delete_Some. by eapply Hls.
    + rewrite Hnl, Hn1, Hn2. apply u32_pred.
    + exists (set_dl_LockList (fl_Link k) v), l2. rewrite Hv. split_and!; [done.. |]. intros c. rewrite lookup_delete_is_Some, <- Hin.
      cbn [app]. rewrite elem_of_cons. cbn [app] in Hal12. destruct (decide (a = c)) as [<- |]; intuition congruence.
    + intros c. rewrite lookup_delete_is_Some. intros [[Hca Hc'] | Hc']; apply Hfresh; eauto.
    + intros c kc q [Hca Hc']%lookup_delete_Some Hq. by eapply Sc.
Qed.

Lemma unlink_lock_files fuel : forall prev cur lock h h', unlink_lock fuel prev cur lock h = Ok tt h' -> h_files h' = h_files h.
Proof.
  induction fuel as [| fuel IH]; intros prev cur lock h h'; (destruct cur as [b |]; [| by intros [= <-]]); [done |].
  cbn [unlink_lock]. unfold bind, deref_lock. destruct (h_locks h !! b) as [kb |]; [| done].
  case_bool_decide; [| apply IH]. destruct prev as [c |]; unfold set_link; [| by intros [= <-]].
  unfold assign_lock, deref_lock, bind. destruct (h_locks h !! c); [| done]. by intros [= <-].
Qed.

Lemma freelock_live d lock h : live d h -> (forall q, 0 <= d q) -> lock_ok h lock ->
  wps (exfat_amiga_freelock lock) (fun _ h' => live d h' /\ h_files h' = h_files h) h.
Proof.
  intros L Hd. destruct lock as [a |]; [| intros _; by apply wps_ret]. intros [k Hk].
  destruct (sv_locks _ _ (proj1 L) a k Hk) as [p Hp].
  destruct (unlink_live d h a k p L Hk Hp) as (v & h1 & Hv & Eu & Ew & (k' & Hk' & Hp') & L1).
  pose proof (unlink_lock_files _ _ _ _ _ _ Eu) as Ef.
  unfold exfat_amiga_freelock. apply wps_bind, wps_get. rewrite Hv. apply wps_bind. unfold wps at 1. rewrite Eu.
  apply wps_bind. unfold wps at 1. rewrite (deref_lock_ok a k' h1 Hk'). rewrite Hp'. apply wps_ef.
  assert (Hp1 : is_Some (w_heap (h_world h1) !! p)) by (rewrite Ew; by eapply serving_lock_node; [apply L | | |]).
  apply wps_put_node; [done |]. intros Hr. apply wps_modify. split; [| done].
  change (live d (set_h_world (bump p (-1) (h_world h1)) (set_h_nlocks (u32 (h_nlocks h1 - 1)) (set_h_locks (delete a (h_locks h1)) h1)))).
  eapply live_later; [exact L1 | apply put_later; [apply L1 | done] | refs_eq].
Qed.

(** *** Scans *)

Lemma walk_serving d f h : (forall k, fl_Link (f k) = fl_Link k /\ lk_node (f k) = lk_node k) -> serving d h ->
  exists v, h_volume h = Some v /\
    scan_walk (lock_fuel h) (dl_LockList v) f h = Ok tt (set_h_locks (f <$> h_locks h) h) /\
    serving d (set_h_locks (f <$> h_locks h) h).
Proof.
  intros Hf [I Hls Hfs Hnl Hnf (v & l & Hv & Hnd & Hc & Hin) Hfresh]. exists v. pose proof (lock_chain_length _ _ _ Hc Hnd).
  destruct (scan_walk_ok f ltac:(intros; apply Hf) l (lock_fuel h) (dl_LockList v) h) as (m & E & M1 & M2);
    [done | unfold lock_fuel; lia | done |].
  assert (m = f <$> h_locks h) as ->.
  { apply map_eq. intros a. rewrite lookup_fmap. destruct (decide (a ∈ l)) as [Ha | Ha]; [by apply M2 |].
    rewrite M1 by done. rewrite Hin in Ha. by apply eq_None_not_Some in Ha as ->. }
  split_and!; [done | exact E |]. constructor; hs; try done.
  - eapply intact_ext; [exact I |]. intros q. hs. rewrite refs_of_fmap; [lia | apply Hf].
  - intros a k. rewrite lookup_fmap. destruct (h_locks h !! a) as [k0 |] eqn:Ek; [| done]. intros [= <-].
    rewrite (proj2 (Hf k0)). by eapply Hls.
  - by rewrite map_size_fmap.
  - exists v, l. split_and!; [done | done | |].
    + eapply chain_frame; [| exact Hc]. intros a k Ha Hk. exists (f k). rewrite lookup_fmap, Hk. split; [done | apply Hf].
    + intros a. rewrite Hin, lookup_fmap, fmap_is_Some. done.
  - intros a. rewrite lookup_fmap, fmap_is_Some. apply Hfresh.
Qed.

Lemma invalidate_live d h : serving d h -> wps scan_invalidate_all (fun _ h' => live d h') h.
Proof.
  intros S. unfold scan_invalidate_all. apply wps_bind, wps_get.
  destruct (walk_serving d (set_lk_scan_next None) h) as (v & Hv & E & S'); [done | done |].
  rewrite Hv. unfold wps. rewrite E. split; [done |]. intros a k q. hs. rewrite lookup_fmap.
  destruct (h_locks h !! a); [| done]. by intros [= <-].
Qed.

(** Before [p] is freed, no scan is left at it. *)
Lemma skip_live d h p n : live d h -> w_heap (h_world h) !! p = Some n ->
  (forall q, n_next n = Some q -> q <> p /\ is_Some (w_heap (h_world h) !! q)) ->
  wps (scan_skip_node (Some p)) (fun _ h' => live d h' /\ h_world h' = h_world h /\
    forall a k, h_locks h' !! a = Some k -> lk_scan_next k <> Some p) h.
Proof.
  intros [S Sc] Hp Hn. unfold scan_skip_node. apply wps_bind, wps_get.
  set (f := fun l => if bool_decide (lk_scan_next l = Some p) then set_lk_scan_next (n_next n) l else l).
  destruct (walk_serving d f h) as (v & Hv & E & S').
  { intros k. unfold f. by case_bool_decide. }
  { done. }
  rewrite Hv. apply wps_ef. eapply wps_deref; [exact Hp |]. assert (Eh : set_h_world (h_world h) h = h) by (by destruct h).
  rewrite Eh. fold f. unfold wps. rewrite E. hs. split_and!; [split; [done |] | done |].
  - intros a k q. hs. rewrite lookup_fmap. destruct (h_locks h !! a) as [k0 |] eqn:Ek; [| done]. intros [= <-]. unfold f.
    case_bool_decide; cbn [lk_scan_next set_lk_scan_next]; [by intros Hq; apply Hn |]. by eapply Sc.
  - intros a k. hs. rewrite lookup_fmap. destruct (h_locks h !! a) as [k0 |] eqn:Ek; [| done]. intros [= <-]. unfold f.
    case_bool_decide; cbn [lk_scan_next set_lk_scan_next]; [| done]. intros Hq. by destruct (Hn p Hq) as [? _].
Qed.

(** A lock that changes beside its links and its node. *)
Lemma set_lock_serving d h a k k' : serving d h -> h_locks h !! a = Some k -> lk_node k' = lk_node k -> fl_Link k' = fl_Link k ->
  serving d (set_h_locks (<[a := k']> (h_locks h)) h).
Proof.
  intros [I Hls Hfs Hnl Hnf (v & l & Hv & Hnd & Hc & Hin) Hfresh] Ha Hn Hl. constructor; hs; try done.
  - eapply intact_ext; [exact I |]. intros q. hs. by rewrite (refs_of_update _ _ a k).
  - intros b kb [[<- <-] | [_ Hb]]%lookup_insert_Some; [rewrite Hn |]; by eapply Hls.
  - rewrite map_size_insert_Some; [done | eauto].
  - exists v, l. split_and!; [done | done | |].
    + eapply chain_frame; [| exact Hc]. intros b kb Hb Hkb. destruct (decide (a = b)) as [<- |].
      * exists k'. rewrite lookup_insert_eq. split; [done |]. congruence.
      * exists kb. by rewrite lookup_insert_ne.
    + intros b. rewrite Hin, lookup_insert_is_Some'. split; [by right | intros [<- | ?]; eauto].
  - intros b. rewrite lookup_insert_is_Some'. intros [[<- | Hb] | Hb]; apply Hfresh; eauto.
Qed.

Lemma set_scan_live d h lock next index : live d h -> lock_ok h lock ->
  (forall q, next = Some q -> is_Some (w_heap (h_world h) !! q)) ->
  wps (set_scan lock next index) (fun _ h' => live d h' /\ h_world h' = h_world h /\ lock_ok h' lock) h.
Proof.
  intros [S Sc] Ho Hq. destruct lock as [a |]; [| by apply wps_ret]. destruct Ho as [k Hk].
  unfold set_scan, assign_lock. apply wps_bind. unfold wps at 1. rewrite (deref_lock_ok a k h Hk). apply wps_modify.
  split_and!; [split; [by eapply set_lock_serving |] | done |].
  - unfold scans_live. hs. intros b kb q [[<- <-] | [_ Hb]]%lookup_insert_Some; [apply Hq | by eapply Sc].
  - unfold lock_ok. hs. rewrite lookup_insert_eq. eauto.
Qed.

(** *** Files *)

Lemma set_pos_live d h a pos : live d h -> is_Some (h_files h !! a) -> wps (set_pos (Some a) pos) (fun _ h' => live d h') h.
Proof.
  intros [S Sc] [f Hf]. unfold set_pos. apply wps_bind. unfold wps at 1. rewrite (deref_file_ok a f h Hf). apply wps_modify.
  split; [| exact Sc]. destruct S as [I Hls Hfs Hnl Hnf Hch Hfresh]. constructor; hs; try done.
  - eapply intact_ext; [exact I |]. intros q. hs. by rewrite (refs_of_update _ _ a f).
  - intros b kb [[<- <-] | [_ Hb]]%lookup_insert_Some; [cbn |]; by eapply Hfs.
  - rewrite map_size_insert_Some; [done | eauto].
  - intros b. rewrite lookup_insert_is_Some'. intros [Hb | [<- | Hb]]; apply Hfresh; eauto.
Qed.

(** A new file takes over a reference; it is counted later. *)
Lemma new_file_live h a p b : live (one p 1) h -> h_files h !! a = None -> (a < h_fresh h)%N ->
  live none (set_h_nfiles (u32 (h_nfiles h + 1)) (set_h_files (<[a := mk_file (Some p) 0 b]> (h_files h)) h)).
Proof.
  intros [[I Hls Hfs Hnl Hnf Hch Hfresh] Sc] Ha Hfr. split; [| exact Sc]. constructor; hs; try done.
  - eapply intact_ext; [exact I |]. intros q. hs. rewrite refs_of_insert by done. unfold one, none. cbn [fi_node].
    repeat case_decide; simplify_eq; lia.
  - intros c f [[<- <-] | [_ Hc]]%lookup_insert_Some; [done | by eapply Hfs].
  - rewrite Hnf, map_size_insert_None by done. apply u32_succ.
  - intros c. rewrite lookup_insert_is_Some'. intros [Hc | [<- | Hc]]; [apply Hfresh; by left | done | apply Hfresh; by right].
Qed.

(** A closed file gives its reference back. *)
Lemma close_file_live h a f p : live none h -> h_files h !! a = Some f -> fi_node f = Some p ->
  live (one p 1) (set_h_nfiles (u32 (h_nfiles h - 1)) (set_h_files (delete a (h_files h)) h)).
Proof.
  intros [[I Hls Hfs Hnl Hnf Hch Hfresh] Sc] Ha Hp. split; [| exact Sc].
  assert (Hsz : size (h_files h) = S (size (delete a (h_files h)))).
  { rewrite <- (insert_delete_id (h_files h) a f) at 1 by done. apply map_size_insert_None, lookup_delete_eq. }
  constructor; hs; try done.
  - eapply intact_ext; [exact I |]. intros q. hs. rewrite (refs_of_delete fi_node (h_files h) a f) by done. rewrite Hp.
    unfold one, none. repeat case_decide; simplify_eq; lia.
  - intros c kc [Hca Hc]%lookup_delete_Some. by eapply Hfs.
  - rewrite Hnf, Hsz. apply u32_pred.
  - intros c. rewrite lookup_delete_is_Some. intros [Hc | [_ Hc]]; apply Hfresh; eauto.
Qed.
End Serving.

(** ** The count of files while a lock is freed *)

Section Recount.
Context `{Platform}.

(** [m] neither reads nor writes [h_nfiles]. *)
Definition blind {A} (m : M handler A) : Prop := forall k h,
  m (set_h_nfiles k h) = match m h with
    | Ok a h' => Ok a (set_h_nfiles k h')
    | Halt r h' => Halt r (set_h_nfiles k h')
    | Diverge => Diverge
    end.

Lemma blind_bind {A B} (m : M handler A) (f : A -> M handler B) : blind m -> (forall a, blind (f a)) -> blind (bind m f).
Proof. intros Hm Hf k h. unfold bind. rewrite Hm. destruct (m h); [apply Hf | done | done]. Qed.

Lemma blind_ef {A} (m : M world A) : blind (on_ef m).
Proof. intros k h. unfold on_ef, on_part. cbn. by destruct (m (h_world h)). Qed.

Lemma blind_deref_lock lock : blind (deref_lock lock).
Proof. intros k h. destruct lock as [a |]; [| done]. cbn. by destruct (h_locks h !! a). Qed.

Lemma blind_unlink_lock lock : forall fuel prev cur, blind (unlink_lock fuel prev cur lock).
Proof.
  induction fuel as [| fuel IH]; intros prev [a |]; try done. cbn [unlink_lock]. apply blind_bind; [apply blind_deref_lock |].
  intros l. case_bool_decide; [| apply IH]. destruct prev as [b |]; unfold set_link; [| by intros k h].
  unfold assign_lock. apply blind_bind; [apply blind_deref_lock | by intros lb k h].
Qed.

Lemma blind_get {A} (f : handler -> M handler A) : (forall k h, f (set_h_nfiles k h) = f h) -> (forall h, blind (f h)) ->
  blind (bind get_state f).
Proof. intros Hf Hb k h. unfold bind, get_state. rewrite Hf. apply Hb. Qed.

Lemma blind_freelock lock : blind (exfat_amiga_freelock lock).
Proof.
  destruct lock as [a |]; [| done]. apply blind_get; [done |]. intros h.
  apply blind_bind; [destruct (h_volume h); [apply blind_unlink_lock | done] |]. intros _.
  apply blind_bind; [apply blind_deref_lock |]. intros l.
  apply blind_bind; [destruct (lk_node l); [apply blind_ef | done] |]. done.
Qed.

(** Freeing a lock with another count of files. *)
Lemma freelock_recount lock k Q h : wps (exfat_amiga_freelock lock) Q (set_h_nfiles k h) ->
  wps (exfat_amiga_freelock lock) (fun a h' => Q a (set_h_nfiles k h') /\ h_nfiles h' = h_nfiles h) h.
Proof.
  pose proof (blind_freelock lock (h_nfiles h) h) as Hid. assert (Eh : set_h_nfiles (h_nfiles h) h = h) by (by destruct h). rewrite Eh in Hid.
  unfold wps. rewrite (blind_freelock lock k h). destruct (exfat_amiga_freelock lock h) as [a h' | [] h' |]; try done.
  intros HQ. split; [done |]. injection Hid as E. by rewrite E.
Qed.
End Recount.
