(* ===== verification/HandlerSpec.v ===== *)
(** * HandlerSpec: serving packets is safe (amiga/handler.c)

    Every packet for a volume ends, whatever the medium holds and whichever request to
    the device or to AmigaOS fails; it uses no null and no freed pointer, and it leaves
    one reference for every lock and every open file. *)

From Stdlib Require Import ZArith Lia.
From stdpp Require Import base numbers list gmap.
From S2P Require Import Prelude Bytes Monad Ondisk State Utf Bitmap Geometry Cluster FileIO Utils ExfatTime Entries EntriesSpec DirTerm NodeTerm NodeTree TreeSpec TreeReset Lookup LookupSpec TreeSafe TreeMove Dir DirSafe MoveSpec FuseSpec Amigaos Handler HandlerLocks.

#[local] Open Scope Z_scope.

Section HandlerSpec.
Context `{Platform}.

(** ** Steps that change nothing *)

Lemma set_world_id h : set_h_world (h_world h) h = h.
Proof. by destruct h. Qed.

Lemma wps_same {A B S} (m : M S A) (k : A -> M S B) Q s :
  wps m (fun _ s' => s' = s) s -> (forall a, wps (k a) Q s) -> wps (bind m k) Q s.
Proof. intros Hm Hk. eapply wps_step; [exact Hm |]. cbn beta. intros a s' ->. apply Hk. Qed.

Lemma ef_same {A} (m : M world A) h : wps m (fun _ w' => w' = h_world h) (h_world h) -> wps (on_ef m) (fun _ h' => h' = h) h.
Proof. intros Hm. apply wps_on_part. eapply wps_mono; [exact Hm |]. cbn beta. intros a w' ->. apply set_world_id. Qed.

Lemma safe_get_name_same {S} n (s : S) : wps (safe_get_name n) (fun _ s' => s' = s) s.
Proof. unfold safe_get_name. destruct (name_is_sane n); [by apply wps_wpt, wpt_get_name | by apply wps_ret]. Qed.

(** The nodes above a node are there. *)
Lemma path_chain_same w : forest w -> forall fuel node acc, (forall p, node = Some p -> is_Some (w_heap w !! p)) ->
  (forall p, p ∈ acc -> is_Some (w_heap w !! p)) ->
  wps (path_chain fuel node acc) (fun r w' => w' = w /\ forall l p, r = Some l -> p ∈ l -> is_Some (w_heap w !! p)) w.
Proof.
  intros Hf. induction fuel as [| fuel IH]; intros node acc Hn Ha; [by apply wps_ret |]. cbn [path_chain].
  destruct node as [p |]; [| apply wps_ret; split; [done |]; by intros l q [= <-] Hq; apply Ha].
  apply wps_bind, wps_get. case_bool_decide; [apply wps_ret; split; [done |]; by intros l q [= <-] Hq; apply Ha |].
  destruct (Hn p eq_refl) as [n Hp]. apply wps_bind. eapply wps_deref; [exact Hp |]. apply IH.
  - intros d Hd. by eapply parent_some.
  - intros q [-> | Hq]%elem_of_cons; [eauto | by apply Ha].
Qed.

Lemma join_path_same w size : forall chain buf, (forall p, p ∈ chain -> is_Some (w_heap w !! p)) ->
  wps (join_path chain size buf) (fun _ w' => w' = w) w.
Proof.
  induction chain as [| p chain IH]; intros buf Hc; [by apply wps_ret |]. cbn [join_path].
  destruct (Hc p ltac:(left)) as [n Hn]. apply wps_bind. eapply wps_deref; [exact Hn |].
  eapply wps_same; [apply safe_get_name_same |]. intros name. destruct (_ <? _); [by apply wps_ret |].
  apply IH. intros q Hq. apply Hc. by right.
Qed.

Lemma node_abs_path_same w p size : forest w -> is_Some (w_heap w !! p) -> wps (node_abs_path (Some p) size) (fun _ w' => w' = w) w.
Proof.
  intros Hf Hp. unfold node_abs_path. eapply wps_step; [apply (path_chain_same w Hf); [by intros q [= <-] | set_solver] |].
  cbn beta. intros [chain |] w' [-> Hc]; [| by apply wps_ret]. apply join_path_same. intros q. by apply Hc.
Qed.

(** ** Packets on a volume *)

Section Packets.
Context (w0 : world) (Hw0 : ready w0).

Notation live := (live w0).

Lemma none_nonneg : forall q, 0 <= none q.
Proof. done. Qed.

Lemma one_nonneg p : forall q, 0 <= one p 1 q.
Proof. intros q. unfold one. case_decide; lia. Qed.

Hint Resolve none_nonneg one_nonneg : core.

Lemma resolve_same h base name : live none h -> lock_ok h base -> wps (resolve_path base name) (fun _ h' => h' = h) h.
Proof.
  intros L Hb. unfold resolve_path.
  set (bp := match split_at colon _ with Some ([], rest) => _ | Some (_ :: _, rest) => _ | None => _ end).
  assert (Hbp : bp.1 = None \/ bp.1 = base) by (unfold bp; destruct (split_at _ _) as [[[] ?] |]; auto).
  destruct bp as [base' p]. cbn [fst] in Hbp. apply wps_same; [| intros []; [| by apply wps_ret]].
  - destruct base' as [a |]; [| by apply wps_ret]. destruct Hbp as [| <-]; [done |]. destruct Hb as [l Hl].
    apply wps_bind. unfold wps at 1. rewrite (deref_lock_ok a l h Hl). destruct (sv_locks _ _ _ (proj1 L) a l Hl) as [q Hq].
    rewrite Hq. apply ef_same, node_abs_path_same; [apply L |]. by eapply serving_lock_node; [| apply L | | |].
  - destruct (path_loop _ _ _); [| by apply wps_ret]. destruct (_ <? _); by apply wps_ret.
Qed.

Lemma fib_name_same name n (h : handler) : wps (fib_name name n) (fun _ h' => h' = h) h.
Proof. unfold fib_name. by destruct (exfat_amiga_name_to_bstr _ _). Qed.

Lemma fill_fib_same h p fib key root : is_Some (w_heap (h_world h) !! p) -> wps (fill_fib (Some p) fib key root) (fun _ h' => h' = h) h.
Proof.
  intros [n Hn]. unfold fill_fib. apply wps_same; [apply ef_same; by eapply wps_deref |]. intros n'. apply wps_bind, wps_get.
  apply wps_same; [| intros name; by apply wps_ret]. destruct root; [apply fib_name_same |].
  apply wps_same; [apply safe_get_name_same | intros name; apply fib_name_same].
Qed.

(** *** Effects *)

Lemma emit_live {B} d e (k : M handler B) Q h : live d h ->
  (forall h', live d h' -> h_world h' = h_world h -> h_locks h' = h_locks h -> h_files h' = h_files h -> wps k Q h') ->
  wps (emit e;; k) Q h.
Proof. intros L Hk. apply wps_bind, wps_modify. apply Hk; [by apply (live_same w0 d h) | done..]. Qed.

Lemma reply_live d a b h : live d h -> wps (reply a b) (fun _ h' => live d h') h.
Proof. intros L. apply wps_modify. by apply (live_same w0 d h). Qed.

Lemma put_reply d p a b h : live (fun q => d q + one p 1 q) h -> (forall q, 0 <= d q) ->
  wps (on_ef (exfat_put_node (Some p));; reply a b) (fun _ h' => live d h') h.
Proof. intros L Hd. eapply put_live; [done | exact L | done |]. intros w' L'. by apply reply_live. Qed.

Lemma live_zero d h : live (fun q => none q + d q) h <-> live d h.
Proof. split; intros L; (eapply live_ext; [exact L |]); intros q; unfold none; lia. Qed.

(** A path that is looked up. *)
Lemma lookup_live {B} path (k : Z * option ptr -> M handler B) Q h : live none h ->
  (forall p w', later (one p 1) (h_world h) w' -> (w_root w' = Some p \/ attached (w_heap w') p) ->
     live (one p 1) (set_h_world w' h) -> wps (k (0, Some p)) Q (set_h_world w' h)) ->
  (forall rc node w', rc <> 0 -> live none (set_h_world w' h) -> wps (k (rc, node)) Q (set_h_world w' h)) ->
  wps (let! r := on_ef (exfat_lookup path) in k r) Q h.
Proof.
  intros L Hok Hfail. destruct (serving_ready w0 Hw0 _ _ (proj1 L)) as [Hf Hu]. destruct (fo_root _ Hf) as (r & n & Hr & _).
  apply wps_ef. eapply wps_mono; [by apply wps_wpt, (exfat_lookup_later (h_world h) path r) |].
  intros [rc node] w1; cbn beta; cbn [fst snd]. destruct (Z.eqb_spec rc 0) as [-> | Hrc].
  2: { intros [L1 _]. apply Hfail; [done |]. eapply live_later; [exact L | exact L1 | intros; hs; lia]. }
  intros (p & -> & L1 & Hw). apply Hok; [done | |].
  - rewrite (la_root _ _ _ L1), Hr. destruct (walk_root_or_attached _ _ _ _ _ Hw) as [-> |]; tauto.
  - eapply live_later; [exact L | exact L1 | refs_eq].
Qed.

(** A node that is referred to. *)
Lemma one_some p h : live (one p 1) h -> is_Some (w_heap (h_world h) !! p).
Proof.
  intros [S _]. eapply serving_held; [done | exact S | done |]. pose proof (sum_nonneg h p). unfold one.
  rewrite decide_True by done. lia.
Qed.

(** *** Locks *)

Lemma give_lock p access h : live (one p 1) h ->
  wps (let! lock := exfat_amiga_makelock (Some p) access in reply_lock (Some p) lock) (fun _ h' => live none h') h.
Proof.
  intros L. eapply wps_step; [by apply (makelock_live w0 Hw0) |]. cbn beta. intros [a |] h1.
  - intros [L1 _]. apply wps_modify. by apply (live_same w0 none h1).
  - intros L1. apply put_reply; [by apply live_zero | done].
Qed.

Lemma locate_object_live h base name : live none h -> lock_ok h base ->
  wps (do_locate_object base name) (fun _ h' => live none h') h.
Proof.
  intros L Hb. unfold do_locate_object. apply wps_same; [by apply resolve_same |]. intros [path |]; [| by apply reply_live].
  apply lookup_live; [done | |].
  - intros p w' _ _ L1. cbn [Z.eqb negb]. by apply give_lock.
  - intros rc node w' Hrc L1. rewrite (proj2 (Z.eqb_neq rc 0) Hrc). cbn [negb]. by apply reply_live.
Qed.

Lemma share_live h p : live none h -> is_Some (w_heap (h_world h) !! p) -> wps (share (Some p)) (fun _ h' => live none h') h.
Proof.
  intros L Hp. unfold share. eapply get_live; [exact L | exact Hp |]. intros w' L1. apply give_lock. by apply live_zero.
Qed.

Lemma lock_node_same h lock : live none h -> lock_ok h lock ->
  wps (lock_node lock) (fun n h' => h' = h /\ exists p, n = Some p /\ is_Some (w_heap (h_world h) !! p)) h.
Proof.
  intros L Ho. destruct lock as [a |]; cbn [lock_node].
  - destruct Ho as [l Hl]. apply wps_bind. unfold wps at 1. rewrite (deref_lock_ok a l h Hl). apply wps_ret. split; [done |].
    destruct (sv_locks _ _ _ (proj1 L) a l Hl) as [p Hp]. exists p. split; [done |]. by eapply serving_lock_node; [| apply L | | |].
  - apply wps_gets. split; [done |]. destruct (serving_root w0 _ _ (proj1 L)) as (r & -> & Hr). by exists r.
Qed.

Lemma copy_dir_live h src : live none h -> lock_ok h src -> wps (do_copy_dir src) (fun _ h' => live none h') h.
Proof.
  intros L Ho. unfold do_copy_dir. eapply wps_step; [by apply lock_node_same |]. cbn beta. intros n h' (-> & p & -> & Hp).
  by apply share_live.
Qed.

(** What a file that AmigaDOS passes is. *)
Lemma deref_file_live h a : live none h -> is_Some (h_files h !! a) -> exists f p, deref_file (Some a) h = Ok f h /\
  h_files h !! a = Some f /\ fi_node f = Some p /\ is_Some (w_heap (h_world h) !! p).
Proof.
  intros L [f Hf]. destruct (sv_files _ _ _ (proj1 L) a f Hf) as [p Hp]. exists f, p.
  split_and!; [by apply deref_file_ok | done | done |]. by eapply serving_file_node; [| apply L | | |].
Qed.

Lemma deref_lock_live h a : live none h -> is_Some (h_locks h !! a) -> exists l p, deref_lock (Some a) h = Ok l h /\
  h_locks h !! a = Some l /\ lk_node l = Some p /\ is_Some (w_heap (h_world h) !! p).
Proof.
  intros L [l Hl]. destruct (sv_locks _ _ _ (proj1 L) a l Hl) as [p Hp]. exists l, p.
  split_and!; [by apply deref_lock_ok | done | done |]. by eapply serving_lock_node; [| apply L | | |].
Qed.

Lemma lock_from_fh_live h file parent : live none h -> file_ok h file ->
  wps (do_lock_from_fh file parent) (fun _ h' => live none h') h.
Proof.
  intros L Ho. unfold do_lock_from_fh. destruct file as [a |]; [| by apply reply_live].
  destruct (deref_file_live h a L Ho) as (f & p & E & _ & Hp & Hn). apply wps_bind. unfold wps at 1. rewrite E, Hp.
  destruct parent; [| by apply share_live]. destruct Hn as [n Hn].
  apply wps_ef. eapply wps_deref; [exact Hn |]. rewrite set_world_id. apply wps_bind, wps_get.
  destruct (n_parent n) as [d |] eqn:Hd; [apply share_live; [done |]; eapply parent_some; [apply L | done..] |].
  destruct (serving_root w0 _ _ (proj1 L)) as (r & -> & Hr). by apply share_live.
Qed.

Lemma parent_live h src : live none h -> lock_ok h src -> wps (do_parent src) (fun _ h' => live none h') h.
Proof.
  intros L Ho. unfold do_parent. destruct src as [a |]; [| by apply reply_live].
  destruct (deref_lock_live h a L Ho) as (l & p & E & _ & Hp & [n Hn]). apply wps_bind. unfold wps at 1. rewrite E, Hp.
  apply wps_bind, wps_get. case_bool_decide; [by apply reply_live |].
  apply wps_ef. eapply wps_deref; [exact Hn |]. rewrite set_world_id.
  destruct (n_parent n) as [d |] eqn:Hd; [| by apply reply_live]. apply share_live; [done |]. eapply parent_some; [apply L | done..].
Qed.

Lemma same_lock_live h a b : live none h -> lock_ok h a -> lock_ok h b -> wps (do_same_lock a b) (fun _ h' => live none h') h.
Proof.
  intros L Ha Hb. unfold do_same_lock. eapply wps_step; [by apply lock_node_same |]. cbn beta. intros n h' (-> & _).
  eapply wps_step; [by apply lock_node_same |]. cbn beta. intros m h' (-> & _). by apply reply_live.
Qed.

(** *** Scans *)

(** The node behind another one. *)
Lemma next_some w p n q : forest w -> w_heap w !! p = Some n -> n_next n = Some q -> q <> p /\ is_Some (w_heap w !! q).
Proof.
  intros Hf Hp Hq. destruct (n_parent n) as [d |] eqn:Hd; [| by rewrite (fo_next _ Hf p n Hp Hd) in Hq].
  destruct (fo_parent _ Hf p n d Hp Hd) as (l & Hl & Hin). apply list_elem_of_split in Hin as (l1 & l2 & ->).
  destruct Hl as [Hnd _ Hs]. apply segment_app in Hs as [_ [(m & Hm & _ & _ & Hn) Hs]].
  assert (m = n) as -> by congruence. rewrite Hq in Hn. destruct l2 as [| q' l2]; [done |]. injection Hn as ->.
  split; [| eapply segment_elem; [exact Hs | left]].
  intros ->. apply NoDup_cons in Hnd as [_ Hnd]. apply NoDup_app in Hnd as (_ & _ & [Hn _]%NoDup_cons). apply Hn. left.
Qed.

Lemma examine_object_live h lock fib : live none h -> lock_ok h lock -> wps (do_examine_object lock fib) (fun _ h' => live none h') h.
Proof.
  intros L Ho. unfold do_examine_object. eapply wps_step; [by apply lock_node_same |]. cbn beta. intros n h' (-> & p & -> & Hp).
  apply wps_bind, wps_get, wps_same; [by apply fill_fib_same |]. intros fib'. eapply emit_live; [exact L |].
  intros h1 L1 _ El _. eapply wps_step; [apply (set_scan_live w0 none h1 lock None (-1)); [done | | done] |].
  { destruct lock; [| done]. cbn. by rewrite El. }
  cbn beta. intros _ h2 (L2 & _ & _). by apply reply_live.
Qed.

(** An entry is found: it is shown, and the scan moves behind it. *)
Lemma show_entry {B} d lock p fib key1 key2 (k : M handler B) Q h : live d h -> lock_ok h lock -> is_Some (w_heap (h_world h) !! p) ->
  (forall h', live d h' -> h_world h' = h_world h -> lock_ok h' lock -> wps k Q h') ->
  wps (let! fib := fill_fib (Some p) fib key1 false in
       emit (StoreFib fib);;
       let! n := on_ef (deref (Some p)) in
       set_scan lock (n_next n) key2;; k) Q h.
Proof.
  intros L Ho Hp Hk. apply wps_same; [by apply fill_fib_same |]. intros fib'. eapply emit_live; [exact L |].
  intros h1 L1 Ew El _. destruct Hp as [n Hn]. apply wps_ef. rewrite Ew. eapply wps_deref; [exact Hn |]. rewrite <- Ew, set_world_id.
  eapply wps_step; [apply (set_scan_live w0 d h1); [exact L1 | |] |].
  - destruct lock; [| done]. cbn. by rewrite El.
  - intros q Hq. rewrite Ew. eapply (next_some _ p n); [apply L | done..].
  - cbn beta. intros _ h2 (L2 & Ew2 & Ho2). apply Hk; [done | congruence | done].
Qed.

(** The loop over the directory [d], whose entries from [l2] on are to come. *)
Lemma examine_loop_live d lock fib want : forall l2 l1 fuel h index, live (one d 1) h ->
  children (w_heap (h_world h)) d (l1 ++ l2) -> (length l2 < fuel)%nat -> lock_ok h lock ->
  wps (examine_loop fuel lock fib (mk_exfat_iterator (Some d) (last_or None l1)) want index)
    (fun r h' => live (one d 1) h' /\ it_parent r.2 = Some d /\ lock_ok h' lock) h.
Proof.
  induction l2 as [| p l2 IH]; intros l1 [| fuel] h index L Hl Hfuel Ho; cbn [length] in Hfuel; try lia; cbn [examine_loop];
    apply wps_ef; unfold wps at 1.
  - rewrite (readdir_ok (h_world h) d l1 [] Hl), set_world_id. by apply wps_ret.
  - rewrite (readdir_ok (h_world h) d l1 (p :: l2) Hl). pose proof (serving_forest w0 _ _ (proj1 L)) as Hf.
    assert (Hp : is_Some (w_heap (h_world h) !! p)) by (eapply segment_elem; [apply Hl | set_solver]).
    assert (L1 : live (fun q => one d 1 q + one p 1 q) (set_h_world (bump p 1 (h_world h)) h)).
    { eapply live_later; [exact L | by apply get_later | done]. }
    destruct (index =? want).
    + eapply show_entry; [exact L1 | done | by eapply later_dom; [apply get_later |] |].
      intros h2 L2 _ Ho2. eapply put_live; [done | exact L2 | done |]. intros w3 L3. by apply wps_ret.
    + eapply wps_ef, wps_put_node; [by eapply later_dom; [apply get_later |] |]. hs. intros Hr.
      pose proof (put_later p _ (serving_forest w0 _ _ (proj1 L1)) Hr) as L2. hs.
      replace (Some p) with (last_or None (l1 ++ [p])) by (by rewrite last_or_app).
      apply IH; [| | lia | done].
      * eapply live_later; [exact L1 | exact L2 | refs_eq].
      * hs. rewrite <- app_assoc. by do 2 apply bump_children.
Qed.

Lemma examine_next_live h lock fib : live none h -> lock_ok h lock -> wps (do_examine_next lock fib) (fun _ h' => live none h') h.
Proof.
  intros L Ho. unfold do_examine_next. eapply wps_step; [by apply lock_node_same |]. cbn beta. intros dir h' (-> & d & -> & [nd Hd]).
  apply wps_ef. eapply wps_deref; [exact Hd |]. rewrite set_world_id. destruct (negb _); [by apply reply_live |].
  eapply (wps_step _ _ (fun hit h' => h' = h /\ forall q, hit = Some q -> is_Some (w_heap (h_world h) !! q))).
  { destruct lock as [a |]; [| by apply wps_ret]. destruct Ho as [l Hl]. unfold scan_hit. apply wps_bind. unfold wps at 1.
    rewrite (deref_lock_ok a l h Hl). apply wps_ret. split; [done |]. intros q Hq. destruct (_ && _); [| done]. by eapply (proj2 L). }
  cbn beta. intros hit h' [-> Hhit]. destruct hit as [q |].
  - eapply show_entry; [exact L | done | by apply Hhit |]. intros h2 L2 _ _. by apply reply_live.
  - apply wps_ef. pose proof (serving_forest w0 _ _ (proj1 L)) as Hf.
    eapply wps_mono; [apply wps_wpt, opendir_some; [done | eauto] |]. intros [rc it] w1; cbn beta; cbn [fst snd].
    intros (-> & _ & L1 & _). destruct (Z.eqb_spec rc 0) as [-> | Hrc]; cbn [negb].
    2: { apply reply_live. eapply live_later; [exact L | exact L1 | intros; unfold none; lia]. }
    assert (L1' : live (one d 1) (set_h_world w1 h)) by (eapply live_later; [exact L | exact L1 | intros; unfold none; lia]).
    apply wps_bind, wps_get. hs. destruct (fo_list _ (la_forest _ _ _ L1) d) as [l Hl]; [by eapply later_dom |].
    pose proof (segment_heap_length _ _ _ Hl) as Hlen.
    eapply wps_step; [apply (examine_loop_live d lock fib (fib_DiskKey fib) l []); [exact L1' | exact Hl | unfold tree_fuel; lia | done] |].
    intros [found it] h2; cbn beta; cbn [fst snd]. intros (L2 & Hit & Ho2). unfold exfat_closedir. rewrite Hit.
    eapply (put_live w0 Hw0 none d); [by apply live_zero | done |]. intros w3 L3. destruct found; [by apply reply_live |].
    eapply wps_step; [by apply (set_scan_live w0 none (set_h_world w3 h2) lock None (-1)) |].
    cbn beta. intros _ h4 (L4 & _ & _). by apply reply_live.
Qed.

(** *** Files *)

Lemma open_file_live h p b : live (one p 1) h -> wps (open_file (Some p) b) (fun _ h' => live none h') h.
Proof.
  intros L. unfold open_file. eapply wps_step; [by apply (alloc_live w0) |]. cbn beta.
  intros [a |] h1 (L1 & El & Ef & Ew & Ev & Ha); [| apply put_reply; [by apply live_zero | done]].
  destruct (Ha a eq_refl) as (_ & Haf & Hfr). rewrite <- Ef in Haf. pose proof (new_file_live w0 h1 a p b L1 Haf Hfr) as L2.
  apply wps_bind, wps_modify, wps_bind, wps_modify, wps_bind, wps_modify, reply_live. by eapply live_same; [exact L2 | ..].
Qed.

(** A steady operation on a node. *)
Lemma with_node_live {A B} d p (m : M nstate A) (k : A -> M handler B) Q h : live d h -> is_Some (w_heap (h_world h) !! p) ->
  (forall n, w_heap (h_world h) !! p = Some n -> steady m (mk_nstate (w_vol (h_world h)) n)) ->
  (forall a w', live d (set_h_world w' h) -> is_Some (w_heap w' !! p) -> wps (k a) Q (set_h_world w' h)) ->
  wps (let! a := on_ef (with_node (Some p) m) in k a) Q h.
Proof.
  intros L [n Hp] Hm Hk. apply wps_ef. eapply wps_mono; [apply wps_wpt, (with_node_later m _ p n); [apply L | done | by apply Hm] |].
  cbn beta. intros a w' Lw. apply Hk; [by eapply live_quiet | by eapply quiet_some; eauto].
Qed.

(** Write a node back. *)
Lemma flush_live {B} d p (k : Z -> M handler B) Q h : live d h -> is_Some (w_heap (h_world h) !! p) ->
  (forall rc w', live d (set_h_world w' h) -> is_Some (w_heap w' !! p) -> wps (k rc) Q (set_h_world w' h)) ->
  wps (let! rc := on_ef (exfat_flush_node (Some p)) in k rc) Q h.
Proof.
  intros L Hp Hk. apply wps_ef. eapply wps_mono; [apply wps_wpt, flush_node_later; [apply L | done] |].
  cbn beta. intros rc w' Lw. apply Hk; [by eapply live_quiet | by eapply quiet_some].
Qed.

(** A call that frees nothing. *)
Lemma mild_live {A B} d (m : M world A) (k : A -> M handler B) Q h : live d h ->
  wps m (fun _ w' => mild none (h_world h) w') (h_world h) ->
  (forall a w', live d (set_h_world w' h) -> wps (k a) Q (set_h_world w' h)) -> wps (let! a := on_ef m in k a) Q h.
Proof.
  intros L Hm Hk. apply wps_ef. eapply wps_mono; [exact Hm |]. cbn beta. intros a w' I. apply Hk.
  eapply live_mild; [exact L | exact I | intros; unfold none; lia].
Qed.

Lemma mknod_mild w path : ready w -> wps (exfat_mknod path) (fun _ w' => mild none w w') w.
Proof.
  intros [Hf Hu]. destruct (fo_root _ Hf) as (r & n & Hr & _). unfold exfat_mknod. eapply wps_mono; [by eapply create_after |].
  cbn beta. intros rc w' [A _]. by apply mild_new.
Qed.

Lemma open_live h fh base name mode : live none h -> lock_ok h base -> wps (do_open fh base name mode) (fun _ h' => live none h') h.
Proof.
  intros L Hb. unfold do_open. apply wps_same; [destruct fh; [by apply resolve_same | by apply wps_ret] |].
  intros [path |]; [| by apply reply_live]. apply wps_bind, wps_get. destruct (_ && _); [by apply reply_live |].
  apply lookup_live; [done | |].
  - intros p w1 L1 _ Lh1. cbn [Z.eqb negb]. destruct (one_some _ _ Lh1) as [n Hn]. hs. apply wps_ef. hs.
    eapply wps_deref; [exact Hn |]. destruct (is_dir n); [by apply put_reply; [apply live_zero |] |].
    case_bool_decide; [| by apply open_file_live]. eapply (with_node_live (one p 1)); [exact Lh1 | hs; eauto | |].
    + intros n' _. by apply steady_truncate.
    + intros rc w2 L2 Hp2. destruct (negb _); [| by apply open_file_live].
      eapply (flush_live (one p 1)); [exact L2 | done |]. intros rc' w3 L3 _. apply put_reply; [by apply live_zero | done].
  - intros rc node w1 Hrc L1. rewrite (proj2 (Z.eqb_neq rc 0) Hrc). cbn [negb]. destruct (negb _); [by apply reply_live |].
    eapply mild_live; [exact L1 | apply mknod_mild; eapply (serving_ready w0 Hw0), L1 |]. hs. intros rc' w2 L2.
    destruct (Z.eqb_spec rc' 0) as [-> | Hrc'].
    2: { apply wps_bind, wps_ret. rewrite (proj2 (Z.eqb_neq rc' 0) Hrc'). by apply reply_live. }
    apply lookup_live; [exact L2 | |].
    + intros p w3 _ _ L3. cbn [Z.eqb negb]. by apply open_file_live.
    + intros rc3 node3 w3 Hrc3 L3. rewrite (proj2 (Z.eqb_neq rc3 0) Hrc3). cbn [negb]. by apply reply_live.
Qed.

Lemma examine_fh_live h file fib : live none h -> file_ok h file -> wps (do_examine_fh file fib) (fun _ h' => live none h') h.
Proof.
  intros L Ho. destruct file as [a |], fib as [fib |]; try by apply reply_live. unfold do_examine_fh.
  destruct (deref_file_live h a L Ho) as (f & p & E & _ & Hp & Hn). apply wps_bind. unfold wps at 1. rewrite E, Hp.
  apply wps_same; [by apply fill_fib_same |]. intros fib'. eapply emit_live; [exact L |]. intros h1 L1 _ _ _. by apply reply_live.
Qed.

Lemma fh_from_lock_live h fh lock : live none h -> lock_ok h lock -> wps (do_fh_from_lock fh lock) (fun _ h' => live none h') h.
Proof.
  intros L Ho. destruct fh, lock as [a |]; try by apply reply_live. unfold do_fh_from_lock.
  destruct (deref_lock_live h a L Ho) as (l & p & E & Hl & Hp & [n Hn]). apply wps_bind. unfold wps at 1. rewrite E, Hp.
  apply wps_ef. eapply wps_deref; [exact Hn |]. rewrite set_world_id. destruct (is_dir n); [by apply reply_live |].
  eapply wps_step; [by apply (alloc_live w0) |]. cbn beta.
  intros [b |] h1 (L1 & El & Ef & Ew & Ev & Hb); [| by apply reply_live]. destruct (Hb b eq_refl) as (_ & Hbf & Hfr).
  rewrite <- Ef in Hbf. eapply (get_live w0 none p); [exact L1 | rewrite Ew; eauto |]. intros w2 L2. apply live_zero in L2.
  pose proof (new_file_live w0 _ b p (fl_Access l =? EXCLUSIVE_LOCK) L2 Hbf Hfr) as L3. apply wps_bind, wps_modify.
  set (h2 := set_h_files _ _). change (live none (set_h_nfiles (u32 (h_nfiles h2 + 1)) h2)) in L3.
  eapply wps_step; [apply freelock_recount, (freelock_live w0 Hw0 none); [exact L3 | done |] |].
  { unfold h2. cbn. rewrite El, Hl. eauto. }
  cbn beta. intros _ h3 [[L4 _] En]. apply wps_bind, wps_modify, wps_bind, wps_modify, reply_live.
  eapply live_same; [exact L4 | done.. | | done | done]. hs. by rewrite En.
Qed.

Lemma set_pos_reply h a pos b c : live none h -> is_Some (h_files h !! a) ->
  wps (set_pos (Some a) pos;; reply b c) (fun _ h' => live none h') h.
Proof. intros L Ha. eapply wps_step; [by apply (set_pos_live w0 none) |]. cbn beta. intros _ h1 L1. by apply reply_live. Qed.

(** A position of a file that is written stays in the range of the type. *)
Definition pos_ok (h : handler) (file : option addr) : Prop := forall a f, file = Some a -> h_files h !! a = Some f -> fi_pos f < 2 ^ 63.

Lemma write_live h file buffer length : live none h -> file_ok h file -> pos_ok h file ->
  wps (do_write file buffer length) (fun _ h' => live none h') h.
Proof.
  intros L Ho Hpos. unfold do_write. destruct file as [a |]; [| by apply reply_live].
  destruct (Z.ltb_spec length 0) as [| Hlen]; [by apply reply_live |].
  destruct (deref_file_live h a L Ho) as (f & p & E & Hf & Hp & Hn). apply wps_bind. unfold wps at 1. rewrite E, Hp.
  apply wps_bind, wps_get. destruct (_ || _); [by apply reply_live |]. destruct (length =? 0); [by apply reply_live |].
  eapply (with_node_live none); [exact L | exact Hn | |].
  - intros n Hn'. specialize (Hpos a f eq_refl Hf). apply steady_pwrite; [eapply forest_sizes64; [apply L | done] | lia | lia].
  - intros r w' L1 _. destruct (r <? 0); [by apply reply_live |]. by apply set_pos_reply.
Qed.

Lemma read_live h file buffer length : live none h -> file_ok h file -> wps (do_read file buffer length) (fun _ h' => live none h') h.
Proof.
  intros L Ho. unfold do_read. destruct file as [a |]; [| by apply reply_live].
  destruct (Z.ltb_spec length 0) as [| Hlen]; [by apply reply_live |]. destruct (length =? 0); [by apply reply_live |].
  destruct (deref_file_live h a L Ho) as (f & p & E & Hf & Hp & Hn). apply wps_bind. unfold wps at 1. rewrite E, Hp.
  eapply (with_node_live none); [exact L | exact Hn | |].
  - intros n Hn'. apply steady_pread; [eapply forest_sizes64; [apply L | done] | lia].
  - intros [r bytes] w' L1 _. eapply emit_live; [exact L1 |]. intros h2 L2 _ _ Ef. destruct (r <? 0); [by apply reply_live |].
    apply set_pos_reply; [done |]. rewrite Ef. done.
Qed.

Lemma set_file_size_live h file offset mode : live none h -> file_ok h file ->
  wps (do_set_file_size file offset mode) (fun _ h' => live none h') h.
Proof.
  intros L Ho. unfold do_set_file_size. destruct file as [a |]; [| by apply reply_live].
  destruct (deref_file_live h a L Ho) as (f & p & E & Hf & Hp & [n Hn]). apply wps_bind. unfold wps at 1. rewrite E, Hp.
  apply wps_bind, wps_get. destruct (_ || _); [by apply reply_live |]. apply wps_ef. eapply wps_deref; [exact Hn |].
  rewrite set_world_id. destruct (resolve_offset _ _ _ _) as [size |]; [| by apply reply_live].
  destruct (size <? 0); [by apply reply_live |]. eapply (with_node_live none); [exact L | eauto | |].
  - intros n' _. apply steady_truncate. apply Z.mod_pos_bound. lia.
  - intros rc w' L1 _. destruct (negb _); [by apply reply_live |]. destruct (size <? fi_pos f).
    + by apply set_pos_reply.
    + apply wps_bind, wps_ret. by apply reply_live.
Qed.

Lemma seek_live h file offset mode : live none h -> file_ok h file -> wps (do_seek file offset mode) (fun _ h' => live none h') h.
Proof.
  intros L Ho. unfold do_seek. destruct file as [a |]; [| by apply reply_live].
  destruct (deref_file_live h a L Ho) as (f & p & E & Hf & Hp & [n Hn]). apply wps_bind. unfold wps at 1. rewrite E, Hp.
  apply wps_ef. eapply wps_deref; [exact Hn |]. rewrite set_world_id.
  set (newpos := if mode =? OFFSET_BEGINNING then _ else _). destruct newpos as [pos |]; [| by apply reply_live].
  destruct (_ || _); [by apply reply_live |]. by apply set_pos_reply.
Qed.

Lemma end_live h file : live none h -> file_ok h file -> wps (do_end file) (fun _ h' => live none h') h.
Proof.
  intros L Ho. unfold do_end. destruct file as [a |]; [| apply wps_bind, wps_ret; by apply reply_live].
  destruct (deref_file_live h a L Ho) as (f & p & E & Hf & Hp & Hn).
  assert (Hclose : forall w1 (err : Z), live none (set_h_world w1 h) -> is_Some (w_heap w1 !! p) ->
    wps (on_ef (exfat_put_node (Some p));;
         modify (fun h => set_h_nfiles (u32 (h_nfiles h - 1)) (set_h_files (delete a (h_files h)) h));; ret err)
      (fun _ h' => live none h') (set_h_world w1 h)).
  { intros w1 err L1 Hp1. pose proof (close_file_live w0 _ a f p L1 Hf Hp) as L2.
    apply wps_ef, wps_put_node; [exact Hp1 |]. intros Hr. apply wps_bind, wps_modify, wps_ret.
    pose proof (put_later p _ (serving_forest w0 _ _ (proj1 L1)) Hr) as Lp.
    assert (L3 : live none (set_h_world (bump p (-1) w1) (set_h_nfiles (u32 (h_nfiles (set_h_world w1 h) - 1))
      (set_h_files (delete a (h_files (set_h_world w1 h))) (set_h_world w1 h))))).
    { eapply live_later; [exact L2 | exact Lp | refs_eq]. }
    exact L3. }
  eapply (wps_step _ _ (fun _ h' => live none h')); [| cbn beta; intros err h1 L1; by apply reply_live].
  apply wps_bind. unfold wps at 1. rewrite E, Hp. apply wps_bind, wps_get.
  destruct (_ && _).
  - apply wps_bind. eapply (flush_live none); [exact L | done |].
    intros rc w' L1 Hp1. apply wps_ret. by apply Hclose.
  - apply wps_bind, wps_ret. specialize (Hclose (h_world h) 0). rewrite set_world_id in Hclose. by apply Hclose.
Qed.

(** *** Objects *)

Lemma lookup_arg23_live h base name : live none h -> lock_ok h base ->
  wps (lookup_arg23 base name) (fun r h' => match r.1 with Some p => live (one p 1) h' | None => live none h' end) h.
Proof.
  intros L Hb. unfold lookup_arg23. apply wps_same; [by apply resolve_same |]. intros [path |]; [| by apply wps_ret].
  apply lookup_live; [done | |].
  - intros p w' _ _ L1. cbn [Z.eqb negb]. by apply wps_ret.
  - intros rc node w' Hrc L1. rewrite (proj2 (Z.eqb_neq rc 0) Hrc). cbn [negb]. by apply wps_ret.
Qed.

(** Bits beside those of [c]. *)
Lemma land_lor_out a b c : Z.land b c = 0 -> Z.land (Z.lor a b) c = Z.land a c.
Proof. intros E. by rewrite Z.land_lor_distr_l, E, Z.lor_0_r. Qed.

Lemma land_ldiff_out a b c : Z.land b c = 0 -> Z.land (Z.ldiff a b) c = Z.land a c.
Proof.
  intros E. rewrite Z.ldiff_land, <- Z.land_assoc. f_equal. apply Z.bits_inj'. intros i Hi.
  rewrite Z.land_spec, Z.lnot_spec by done. pose proof (f_equal (fun x => Z.testbit x i) E) as Ei.
  cbn beta in Ei. rewrite Z.land_spec, Z.bits_0 in Ei. by destruct (Z.testbit b i), (Z.testbit c i).
Qed.

(** Other attributes, with the same bit for directories. *)
Lemma set_attrib_live {B} p n a (k : M handler B) Q h : live (one p 1) h -> w_heap (h_world h) !! p = Some n ->
  Z.land a EXFAT_ATTRIB_DIR = Z.land (n_attrib n) EXFAT_ATTRIB_DIR ->
  (forall w', live (one p 1) (set_h_world w' h) -> is_Some (w_heap w' !! p) -> wps k Q (set_h_world w' h)) ->
  wps (on_ef (assign (Some p) (fun n => set_n_is_dirty true (set_n_attrib a n)));; k) Q h.
Proof.
  intros L Hn Ha Hk. apply wps_ef. unfold wps at 1. rewrite (assign_ok _ _ _ _ Hn). pose proof (serving_forest w0 _ _ (proj1 L)) as Hf.
  assert (Hd : forall d, is_dir (set_n_is_dirty d (set_n_attrib a n)) = is_dir n) by (intros d; unfold is_dir; cbn; by rewrite Ha).
  assert (A : after {[p]} (fun _ => 0) (h_world h) (set_w_heap (<[p := set_n_is_dirty true (set_n_attrib a n)]> (w_heap (h_world h))) (h_world h))).
  { eapply set_after; try done.
    - destruct (fo_node _ Hf p n Hn) as [? ? ? ? ? Hc ?]. constructor; try done. rewrite Hd. exact Hc.
    - intros Hr. destruct (fo_root _ Hf) as (r & m & Hr' & Hm & _ & D & U). rewrite Hr in Hr'. simplify_eq. split; [by rewrite Hd | done].
    - set_solver. }
  assert (Hp : is_Some (<[p := set_n_is_dirty true (set_n_attrib a n)]> (w_heap (h_world h)) !! p)) by (rewrite lookup_insert_eq; eauto).
  apply Hk; [| exact Hp]. eapply live_mild; [exact L | by eapply mild_after; [exact A |] | intros; hs; lia].
Qed.

Lemma reply_err_live d err h : live d h -> wps (reply_err err) (fun _ h' => live d h') h.
Proof. apply reply_live. Qed.

Lemma put_reply_err p err h : live (one p 1) h -> wps (on_ef (exfat_put_node (Some p));; reply_err err) (fun _ h' => live none h') h.
Proof. intros L. by apply put_reply; [apply live_zero |]. Qed.

Lemma flush_err_live {B} p (k : Z -> M handler B) Q h : live (one p 1) h -> is_Some (w_heap (h_world h) !! p) ->
  (forall err w', live (one p 1) (set_h_world w' h) -> wps (k err) Q (set_h_world w' h)) ->
  wps (let! err := flush_err (Some p) in k err) Q h.
Proof.
  intros L Hp Hk. apply wps_bind. unfold flush_err. eapply (flush_live (one p 1)); [exact L | done |].
  intros rc w' L1 _. by apply wps_ret, Hk.
Qed.

Lemma set_protect_live h base name bits : live none h -> lock_ok h base ->
  wps (do_set_protect base name bits) (fun _ h' => live none h') h.
Proof.
  intros L Hb. unfold do_set_protect. apply wps_bind, wps_get. destruct (_ || _); [by apply reply_live |].
  eapply wps_step; [by apply lookup_arg23_live |]. intros [[p |] err] h1; cbn beta; cbn [fst snd]; intros L1; [| by apply reply_live].
  destruct (one_some _ _ L1) as [n Hn]. apply wps_ef. eapply wps_deref; [exact Hn |]. rewrite set_world_id.
  set (attrib := if negb (Z.land bits FIBF_ARCHIVE =? 0) then _ else _).
  assert (Ha : Z.land attrib EXFAT_ATTRIB_DIR = Z.land (n_attrib n) EXFAT_ATTRIB_DIR).
  { unfold attrib. destruct (negb _), (negb _); repeat first [rewrite land_lor_out by done | rewrite land_ldiff_out by done]; done. }
  eapply (wps_step _ _ (fun _ h' => live (one p 1) h')); [| cbn beta; intros; by apply put_reply_err].
  destruct (negb (attrib =? n_attrib n)); [| by apply wps_ret].
  eapply set_attrib_live; [exact L1 | exact Hn | exact Ha |]. intros w2 L2 Hp2.
  unfold flush_err. eapply (flush_live (one p 1)); [exact L2 | done |]. intros rc w3 L3 _. by apply wps_ret.
Qed.

Lemma set_date_live h base name ds : live none h -> lock_ok h base -> wps (do_set_date base name ds) (fun _ h' => live none h') h.
Proof.
  intros L Hb. unfold do_set_date. apply wps_bind, wps_get. destruct (read_only h); [by apply reply_live |].
  destruct ds as [ds |]; [| by apply reply_live].
  eapply wps_step; [by apply lookup_arg23_live |]. intros [[p |] err] h1; cbn beta; cbn [fst snd]; intros L1; [| by apply reply_live].
  destruct (one_some _ _ L1) as [n Hn]. apply wps_ef.
  eapply wps_mono; [apply wps_wpt, assign_later; [apply L1 | exact Hn | done | done] |]. cbn beta. intros _ w2 [L2 Hn2].
  assert (Lh2 : live (one p 1) (set_h_world w2 h1)) by (by eapply live_quiet).
  eapply flush_err_live; [exact Lh2 | hs; eauto |]. intros err' w3 L3. by apply put_reply_err.
Qed.

Lemma set_comment_live h base name comment : live none h -> lock_ok h base ->
  wps (do_set_comment base name comment) (fun _ h' => live none h') h.
Proof.
  intros L Hb. unfold do_set_comment. apply wps_bind, wps_get. destruct (_ || _); [by apply reply_live |].
  set (some := match comment with Some _ => _ | None => _ end). destruct some; [by apply reply_live |].
  eapply wps_step; [by apply lookup_arg23_live |]. intros [[p |] err] h1; cbn beta; cbn [fst snd]; intros L1; [| by apply reply_live].
  by apply put_reply; [apply live_zero |].
Qed.

(** Removing a node that no scan is at. *)
Lemma cleanup_live h p : live none h -> removable (h_world h) p -> w_root (h_world h) <> Some p ->
  (forall a l, h_locks h !! a = Some l -> lk_scan_next l <> Some p) ->
  wps (let! rc := on_ef (exfat_cleanup_node (Some p)) in
       if negb (rc =? 0) then reply DOSFALSE (map_errno rc) else reply DOSTRUE 0) (fun _ h' => live none h') h.
Proof.
  intros [S Sc] Hr Hroot Hno. apply wps_ef. eapply wps_mono; [apply wps_wpt, cleanup_after; [apply S | done | done] |].
  cbn beta. intros rc w' [A _]. assert (L1 : live none (set_h_world w' h)).
  { split; [eapply serving_intact; [exact S | by eapply intact_after | intros; hs; lia] |].
    intros a l q Ha Hq. eapply after_dom; [exact A | by eapply Sc |]. intros ->%elem_of_singleton. by eapply Hno. }
  destruct (negb _); by apply reply_live.
Qed.

Lemma remove_step w p n : forest w -> w_heap w !! p = Some n -> attached (w_heap w) p ->
  wps (if is_dir n then exfat_rmdir (Some p) else exfat_unlink (Some p)) (fun _ w' => mild none w w' /\ w_root w' = w_root w /\ removable w' p) w.
Proof.
  intros Hf Hn Ha. destruct (is_dir n).
  - eapply wps_mono; [by apply wps_wpt, rmdir_after |]. cbn beta. intros rc w' (A & R & _). split_and!; [| apply A | done].
    eapply mild_after; [exact A |]. destruct R as (m & ? & _). eauto.
  - eapply wps_mono; [apply wps_wpt, unlink_later; [done | by right] |]. cbn beta. intros rc w' (A & Hs & R & _).
    split_and!; [by eapply mild_after | apply A | by apply R].
Qed.

Lemma delete_object_live h base name : live none h -> lock_ok h base ->
  wps (do_delete_object base name) (fun _ h' => live none h') h.
Proof.
  intros L Hb. unfold do_delete_object. apply wps_bind, wps_get. destruct (_ || _); [by apply reply_live |].
  apply wps_same; [by apply resolve_same |]. intros [path |]; [| by apply reply_live]. apply lookup_live; [done | |].
  2: { intros rc node w' Hrc L1. rewrite (proj2 (Z.eqb_neq rc 0) Hrc). cbn [negb]. by apply reply_live. }
  intros p w1 _ Hp L1. cbn [Z.eqb negb]. apply wps_bind, wps_get.
  case_bool_decide as Hroot; [by apply put_reply; [apply live_zero |] |].
  assert (Ha : attached (w_heap w1) p) by (destruct Hp as [Hp |]; [by rewrite <- Hp in Hroot | done]).
  destruct (one_some _ _ L1) as [n Hn]. apply wps_ef. eapply wps_deref; [exact Hn |]. rewrite set_world_id. hs.
  destruct (_ <? _); [by apply put_reply; [apply live_zero |] |].
  eapply wps_step; [apply (skip_live w0 (one p 1) _ p n); [exact L1 | exact Hn |] |].
  { intros q. eapply next_some; [apply (serving_forest w0 _ _ (proj1 L1)) | exact Hn]. }
  cbn beta. intros _ h2 (L2 & Ew2 & Hno). hs. rewrite <- Ew2 in Hn, Ha, Hroot.
  apply wps_ef. eapply wps_deref; [exact Hn |]. rewrite set_world_id. pose proof (serving_forest w0 _ _ (proj1 L2)) as Hf2.
  apply wps_ef. eapply wps_mono; [by apply remove_step |]. cbn beta. intros rc w3 (I3 & Er & Hrem).
  assert (L3 : live (one p 1) (set_h_world w3 h2)) by (eapply live_mild; [exact L2 | exact I3 | intros; unfold none; lia]).
  pose proof (serving_forest w0 _ _ (proj1 L3)) as Hf3. apply wps_ef, wps_put_node; [apply (one_some _ _ L3) |]. hs. intros Hr.
  pose proof (put_later p w3 Hf3 Hr) as Lp.
  assert (L4 : live none (set_h_world (bump p (-1) w3) (set_h_world w3 h2))).
  { eapply live_later; [exact L3 | exact Lp |]. refs_eq. }
  destruct (negb _); [by apply reply_live |]. apply cleanup_live; [exact L4 | by eapply removable_later | | exact Hno].
  change (w_root w3 <> Some p). rewrite Er. congruence.
Qed.

Lemma create_dir_live h base name : live none h -> lock_ok h base ->
  wps (do_create_dir base name) (fun _ h' => live none h') h.
Proof.
  intros L Hb. unfold do_create_dir. apply wps_bind, wps_get. destruct (_ || _); [by apply reply_live |].
  apply wps_same; [by apply resolve_same |]. intros [path |]; [| by apply reply_live].
  destruct (serving_ready w0 Hw0 _ _ (proj1 L)) as [Hf Hu]. destruct (fo_root _ Hf) as (r & n & Hr & _).
  eapply mild_live; [exact L | by eapply mkdir_mild |]. intros rc w1 L1. destruct (Z.eqb_spec rc 0) as [-> | Hrc].
  - apply lookup_live; [exact L1 | |].
    + intros p w2 _ _ L2. cbn [Z.eqb negb]. by apply give_lock.
    + intros rc2 node w2 Hrc2 L2. rewrite (proj2 (Z.eqb_neq rc2 0) Hrc2). cbn [negb]. by apply reply_live.
  - apply wps_bind, wps_ret. rewrite (proj2 (Z.eqb_neq rc 0) Hrc). cbn [negb]. by apply reply_live.
Qed.

(** The packet was answered with [DOSTRUE]. *)
Definition granted (h h' : handler) : Prop := h_trace h' = h_trace h ++ [ReplyPkt (Num DOSTRUE) 0].

(** A rename that is refused may have freed the node that had the new name. *)
Lemma rename_object_serving h srcbase src dstbase dst : live none h -> lock_ok h srcbase -> lock_ok h dstbase ->
  wps (do_rename_object srcbase src dstbase dst) (fun _ h' => serving w0 none h' /\ (granted h h' -> scans_live h')) h.
Proof.
  intros L Hs Hd. unfold do_rename_object.
  assert (Hrep : forall a b, wps (reply a b) (fun _ h' => serving w0 none h' /\ (granted h h' -> scans_live h')) h).
  { intros a b. eapply wps_mono; [by apply reply_live |]. by intros _ h' []. }
  apply wps_bind, wps_get. destruct (_ || _); [apply Hrep |].
  apply wps_same; [by apply resolve_same |]. intros [srcpath |]; [| apply Hrep].
  apply wps_same; [by apply resolve_same |]. intros [dstpath |]; [| apply Hrep].
  destruct (serving_ready w0 Hw0 _ _ (proj1 L)) as [Hf Hu]. destruct (fo_root _ Hf) as (r & n & Hr & _).
  apply wps_ef. eapply wps_mono; [by eapply rename_intact |]. cbn beta. intros rc w1 I1.
  assert (S1 : serving w0 none (set_h_world w1 h)) by (eapply serving_intact; [apply L | exact I1 | intros; unfold none; lia]).
  destruct (Z.eqb_spec rc 0) as [-> | Hrc]; cbn [negb].
  - eapply wps_step; [by apply invalidate_live |]. cbn beta. intros _ h2 L2. eapply wps_mono; [by apply reply_live |].
    by intros _ h' [].
  - apply wps_modify. split.
    + destruct S1. by constructor.
    + unfold granted. cbn. intros E%app_inv_head. done.
Qed.

(** *** The volume *)

Lemma rename_volume_live h v name : live none h -> h_volume h = Some v -> wps (rename_volume v name) (fun _ h' => live none h') h.
Proof.
  intros L Hv. unfold rename_volume. eapply wps_step; [by apply (alloc_live w0) |]. cbn beta.
  intros [a |] h1 (L1 & _ & _ & _ & Ev & _); [| by apply wps_ret]. apply wps_bind, wps_get, wps_bind, wps_modify.
  assert (Hname : forall h2, live none h2 -> live none (set_h_volume (option_map (set_dl_Name a) (h_volume h2)) h2)).
  { intros h2 [[I Hls Hfs Hnl Hnf (v2 & l & Hv2 & Hnd & Hc & Hin) Hfr] Sc]. split; [| exact Sc]. constructor; try done.
    exists (set_dl_Name a v2), l. split_and!; try done. hs. by rewrite Hv2. }
  eapply (wps_step _ _ (fun _ h' => live none h')).
  { destruct (h_volname_orig h1); [apply wps_ret | apply wps_modify]; by apply (live_same w0 none h1). }
  cbn beta. intros _ h2 L2. apply wps_bind, wps_modify, wps_bind, wps_modify.
  pose proof (Hname _ L2) as L3. destruct (h_volname h1).
  - apply wps_bind, wps_modify, wps_modify. by eapply (live_same w0 none); [exact L3 | ..].
  - apply wps_ret. by eapply (live_same w0 none); [exact L3 | ..].
Qed.

Lemma rename_disk_live h name : live none h -> wps (do_rename_disk name) (fun _ h' => live none h') h.
Proof.
  intros L. unfold do_rename_disk. apply wps_bind, wps_get. destruct (_ || _); [by apply reply_live |].
  destruct name as [name |]; [| by apply reply_live]. destruct (_ =? 0); [by apply reply_live |].
  eapply mild_live; [exact L | |].
  { eapply wps_mono; [apply set_label_quiet, L |]. cbn beta. intros rc w' Lq. by apply mild_quiet. }
  intros rc w1 L1. destruct (negb _); [by apply reply_live |].
  eapply (wps_step _ _ (fun _ h' => live none h')); [| cbn beta; intros _ h2 L2; by apply reply_live].
  hs. destruct (h_volume h) as [v |] eqn:Hv; [by apply rename_volume_live | by apply wps_ret].
Qed.

Lemma flush_packet_live h : live none h -> wps do_flush (fun _ h' => live none h') h.
Proof.
  intros L. unfold do_flush. apply wps_bind, wps_get.
  eapply (wps_step _ _ (fun _ h' => live none h')); [| cbn beta; intros err h1 L1; by apply reply_live].
  destruct (_ && _); [| by apply wps_ret].
  apply wps_ef. eapply wps_mono; [apply wps_wpt, exfat_flush_nodes_quiet, L |]. cbn beta. intros rc w1 Q1.
  assert (L1 : live none (set_h_world w1 h)) by (by eapply live_quiet).
  eapply (wps_step _ _ (fun _ h' => live none h')).
  { destruct (negb _); [by apply wps_ret |]. apply wps_on_part.
    eapply wps_mono; [apply wps_wpt, vol_later; [apply L1 | apply vsteady_flush] |]. cbn beta. intros r w2 Q2. by eapply live_quiet. }
  cbn beta. intros rc2 h2 L2. eapply (wps_step _ _ (fun _ h' => live none h')); [| cbn beta; intros rc3 h3 L3; by apply wps_ret].
  destruct (negb _); [by apply wps_ret |]. apply wps_on_part.
  eapply wps_mono; [apply wps_wpt, os_later; [apply L2 |] |].
  { intros e. unfold State.exfat_fsync, wpt, bind. by repeat (case_match || cbn). }
 cbn beta. intros r w3 Q3. by eapply live_quiet.
Qed.
End Packets.
End HandlerSpec.
