(* ===== verification/HandlerReply.v ===== *)
(** * HandlerReply: one answer for each packet (amiga/handler.c)

    What a function of the handler appends to the trace, and which fields it leaves
    alone, read off its code: for every path through it, whatever libexfat, the device
    and AmigaOS answer. *)

From Stdlib Require Import ZArith Lia.
From stdpp Require Import base numbers list gmap.
From S2P Require Import Prelude Bytes Monad Ondisk State Utf Bitmap Geometry Cluster FileIO Utils ExfatTime Entries NodeTree Lookup Dir Mount PartTable Amigaos Mkfs Format Handler.

#[local] Open Scope Z_scope.

(** ** Replies *)

Definition is_reply (e : effect) : bool := match e with ReplyPkt _ _ => true | _ => false end.

(** The replies in a piece of the trace. *)
Definition replies (t : list effect) : nat := length (List.filter is_reply t).

Lemma replies_app t1 t2 : replies (t1 ++ t2) = (replies t1 + replies t2)%nat.
Proof. unfold replies. by rewrite List.filter_app, length_app. Qed.

(** What decides which packets are served. *)
Definition mode (h : handler) : bool * bool * bool := (h_mounted h, h_inhibited h, h_quit h).

(** When [m] returns, it has sent [n] replies and done nothing to the trace but append to
    it; and if [keep], the mode is the same. *)
Definition replying {A} (keep : bool) (n : nat) (m : M handler A) : Prop := forall h a h', m h = Ok a h' ->
  (exists t, h_trace h' = h_trace h ++ t /\ replies t = n) /\ (keep = true -> mode h' = mode h).

Section Replying.
Context {keep : bool}.

Lemma replying_ret {A} (a : A) : replying keep 0 (ret a).
Proof. intros h b h' [= <- <-]. split; [| done]. exists []. by rewrite app_nil_r. Qed.

Lemma replying_bind {A B} n1 n2 n (m : M handler A) (f : A -> M handler B) :
  replying keep n1 m -> (forall a, replying keep n2 (f a)) -> n = (n1 + n2)%nat -> replying keep n (bind m f).
Proof.
  intros Hm Hf -> h b h'. unfold bind. destruct (m h) as [a h1 | |] eqn:E; [| done..]. intros E'.
  destruct (Hm _ _ _ E) as [(t1 & T1 & R1) K1], (Hf _ _ _ _ E') as [(t2 & T2 & R2) K2]. split.
  - exists (t1 ++ t2). by rewrite T2, T1, app_assoc, replies_app, R1, R2.
  - intros Hk. by rewrite K2, K1.
Qed.

Lemma replying_get {A} n (f : handler -> M handler A) : (forall h, replying keep n (f h)) -> replying keep n (bind get_state f).
Proof. intros Hf h a h'. apply Hf. Qed.

Lemma replying_gets {A} (f : handler -> A) : replying keep 0 (gets f).
Proof. intros h a h' [= <- <-]. split; [| done]. exists []. by rewrite app_nil_r. Qed.

Lemma replying_modify f : (forall h, h_trace (f h) = h_trace h) -> (keep = true -> forall h, mode (f h) = mode h) ->
  replying keep 0 (modify f).
Proof. intros Hf Hm h a h' [= <- <-]. split; [| auto]. exists []. by rewrite Hf, app_nil_r. Qed.

Lemma replying_ef {A} (m : M world A) : replying keep 0 (on_ef m).
Proof.
  intros h a h'. unfold on_ef, on_part. destruct (m (part h)); [| done..]. intros [= <- <-]. split; [| done].
  exists []. by rewrite app_nil_r.
Qed.

Lemma replying_emit e : replying keep (if is_reply e then 1 else 0) (emit e).
Proof.
  intros h a h' [= <- <-]. split; [| done]. exists [e]. split; [done |]. unfold replies. cbn. by destruct (is_reply e).
Qed.

Lemma replying_note e : is_reply e = false -> replying keep 0 (emit e).
Proof. intros E. pose proof (replying_emit e) as Hr. by rewrite E in Hr. Qed.

Lemma replying_answer e : is_reply e = true -> replying keep 1 (emit e).
Proof. intros E. pose proof (replying_emit e) as Hr. by rewrite E in Hr. Qed.

Lemma replying_reply a b : replying keep 1 (reply a b).
Proof. apply (replying_emit (ReplyPkt _ _)). Qed.

Lemma replying_halt {A} n r : replying keep n (fun h => Halt r h : outcome handler A).
Proof. done. Qed.

Lemma replying_bad {A} n : replying keep n (bad_pointer : M handler A).
Proof. done. Qed.

Lemma replying_diverge {A} n : replying keep n (diverge : M handler A).
Proof. done. Qed.

Lemma replying_ask : replying keep 0 ask.
Proof. intros h a h'. unfold ask. destruct (h_answers h); intros [= <- <-]; (split; [| done]); exists []; by rewrite app_nil_r. Qed.

Lemma replying_deref_lock lock : replying keep 0 (deref_lock lock).
Proof.
  destruct lock as [a |]; [| done]. intros h l h'. cbn. destruct (h_locks h !! a); [| done]. intros [= <- <-]. split; [| done].
  exists []. by rewrite app_nil_r.
Qed.

Lemma replying_deref_file file : replying keep 0 (deref_file file).
Proof.
  destruct file as [a |]; [| done]. intros h l h'. cbn. destruct (h_files h !! a); [| done]. intros [= <- <-]. split; [| done].
  exists []. by rewrite app_nil_r.
Qed.
End Replying.

Create HintDb replying.
#[export] Hint Resolve replying_ret replying_gets replying_ef replying_reply replying_halt replying_bad replying_diverge
  replying_ask replying_deref_lock replying_deref_file : replying.

(** Follow the code: a step for each [bind], a case for each branch.  [emit] and
    [modify] are looked at, calls are found in the database. *)
Ltac replying_step :=
  lazymatch goal with
  | |- replying _ _ (bind get_state _) => apply replying_get; intros
  | |- replying _ _ (bind _ _) => eapply replying_bind; [| intros | try reflexivity]
  | |- replying _ _ (emit _) => first [by apply replying_note | by apply replying_answer]
  | |- replying _ _ (modify _) => apply replying_modify; [by intros [] | by intros ? []]
  | |- replying _ _ (match ?x with _ => _ end) => destruct x
  | |- replying _ _ _ => solve [eauto with replying]
  | |- _ = _ => reflexivity
  end.
Ltac replying := repeat (cbn beta iota zeta; replying_step).

(** ** The functions of the handler *)

Section HandlerReply.
Context `{Platform} {keep : bool}.
Notation replying := (replying keep).

Lemma replying_AllocVec : replying 0 AllocVec.
Proof. unfold AllocVec. replying. Qed.
Hint Resolve replying_AllocVec : replying.

Lemma replying_assign_lock lock f : replying 0 (assign_lock lock f).
Proof. unfold assign_lock, set_lock. replying. Qed.
Hint Resolve replying_assign_lock : replying.

Lemma replying_lock_node lock : replying 0 (lock_node lock).
Proof. unfold lock_node. replying. Qed.

Lemma replying_makelock node access : replying 0 (exfat_amiga_makelock node access).
Proof. unfold exfat_amiga_makelock, set_lock, set_volume. replying. Qed.
Hint Resolve replying_lock_node replying_makelock : replying.

Lemma replying_unlink_lock lock : forall fuel prev cur, replying 0 (unlink_lock fuel prev cur lock).
Proof. induction fuel as [| fuel IH]; intros prev cur; cbn [unlink_lock]; unfold set_link, set_volume; replying. Qed.
Hint Resolve replying_unlink_lock : replying.

Lemma replying_freelock lock : replying 0 (exfat_amiga_freelock lock).
Proof. unfold exfat_amiga_freelock. replying. Qed.

Lemma replying_reply_lock node lock : replying 1 (reply_lock node lock).
Proof. unfold reply_lock. replying. Qed.

Lemma replying_safe_get_name n : replying 0 (safe_get_name (S := handler) n).
Proof.
  unfold safe_get_name. destruct (name_is_sane n); [| replying]. intros h a h'. unfold exfat_get_name.
  destruct (exfat_utf16_to_utf8 _ _ _) as [rc bytes]. destruct (negb _); [done |]. intros [= <- <-]. split; [| done].
  exists []. by rewrite app_nil_r.
Qed.
Hint Resolve replying_freelock replying_reply_lock replying_safe_get_name : replying.

Lemma replying_resolve_path base name : replying 0 (resolve_path base name).
Proof. unfold resolve_path. replying. Qed.

Lemma replying_fib_name name n : replying 0 (fib_name name n).
Proof. unfold fib_name. replying. Qed.
Hint Resolve replying_resolve_path replying_fib_name : replying.

Lemma replying_fill_fib node fib key root : replying 0 (fill_fib node fib key root).
Proof. unfold fill_fib. replying. Qed.
Hint Resolve replying_fill_fib : replying.

Lemma replying_locate_object base name : replying 1 (do_locate_object base name).
Proof. unfold do_locate_object. replying. Qed.

Lemma replying_share node : replying 1 (share node).
Proof. unfold share. replying. Qed.
Hint Resolve replying_locate_object replying_share : replying.

Lemma replying_copy_dir src : replying 1 (do_copy_dir src).
Proof. unfold do_copy_dir. replying. Qed.

Lemma replying_lock_from_fh file parent : replying 1 (do_lock_from_fh file parent).
Proof. unfold do_lock_from_fh. replying. Qed.

Lemma replying_parent src : replying 1 (do_parent src).
Proof. unfold do_parent. replying. Qed.

Lemma replying_same_lock a b : replying 1 (do_same_lock a b).
Proof. unfold do_same_lock. replying. Qed.

Lemma replying_set_scan lock next index : replying 0 (set_scan lock next index).
Proof. unfold set_scan. replying. Qed.
Hint Resolve replying_copy_dir replying_lock_from_fh replying_parent replying_same_lock replying_set_scan : replying.

Lemma replying_examine_object lock fib : replying 1 (do_examine_object lock fib).
Proof. unfold do_examine_object. replying. Qed.

Lemma replying_examine_loop lock want : forall fuel fib it index, replying 0 (examine_loop fuel lock fib it want index).
Proof. induction fuel as [| fuel IH]; intros fib it index; cbn [examine_loop]; replying. Qed.

Lemma replying_scan_hit lock dir want : replying 0 (scan_hit lock dir want).
Proof. unfold scan_hit. replying. Qed.
Hint Resolve replying_examine_object replying_examine_loop replying_scan_hit : replying.

Lemma replying_examine_next lock fib : replying 1 (do_examine_next lock fib).
Proof. unfold do_examine_next. replying. Qed.

Lemma replying_open_file node b : replying 1 (open_file node b).
Proof. unfold open_file, set_file. replying. Qed.
Hint Resolve replying_examine_next replying_open_file : replying.

Lemma replying_open fh base name kind : replying 1 (do_open fh base name kind).
Proof. unfold do_open. replying. Qed.

Lemma replying_examine_fh file fib : replying 1 (do_examine_fh file fib).
Proof. unfold do_examine_fh. replying. Qed.

Lemma replying_fh_from_lock fh lock : replying 1 (do_fh_from_lock fh lock).
Proof. unfold do_fh_from_lock, set_file. replying. Qed.

Lemma replying_set_pos file pos : replying 0 (set_pos file pos).
Proof. unfold set_pos, set_file. replying. Qed.
Hint Resolve replying_open replying_examine_fh replying_fh_from_lock replying_set_pos : replying.

Lemma replying_write file buffer length : replying 1 (do_write file buffer length).
Proof. unfold do_write. replying. Qed.

Lemma replying_read file buffer length : replying 1 (do_read file buffer length).
Proof. unfold do_read. replying. Qed.

Lemma replying_set_file_size file offset m : replying 1 (do_set_file_size file offset m).
Proof. unfold do_set_file_size. replying. Qed.

Lemma replying_seek file offset m : replying 1 (do_seek file offset m).
Proof. unfold do_seek. replying. Qed.

Lemma replying_end file : replying 1 (do_end file).
Proof. unfold do_end. replying. Qed.

Lemma replying_lookup_arg23 base name : replying 0 (lookup_arg23 base name).
Proof. unfold lookup_arg23. replying. Qed.

Lemma replying_reply_err err : replying 1 (reply_err err).
Proof. unfold reply_err. replying. Qed.

Lemma replying_flush_err node : replying 0 (flush_err node).
Proof. unfold flush_err. replying. Qed.
Hint Resolve replying_write replying_read replying_set_file_size replying_seek replying_end replying_lookup_arg23
  replying_reply_err replying_flush_err : replying.

Lemma replying_set_protect base name bits : replying 1 (do_set_protect base name bits).
Proof. unfold do_set_protect. replying. Qed.

Lemma replying_set_date base name ds : replying 1 (do_set_date base name ds).
Proof. unfold do_set_date. replying. Qed.

Lemma replying_set_comment base name comment : replying 1 (do_set_comment base name comment).
Proof. unfold do_set_comment. replying. Qed.

Lemma replying_scan_walk f : forall fuel b, replying 0 (scan_walk fuel b f).
Proof. induction fuel as [| fuel IH]; intros b; cbn [scan_walk]; unfold set_lock; replying. Qed.
Hint Resolve replying_set_protect replying_set_date replying_set_comment replying_scan_walk : replying.

Lemma replying_skip node : replying 0 (scan_skip_node node).
Proof. unfold scan_skip_node. replying. Qed.

Lemma replying_invalidate : replying 0 scan_invalidate_all.
Proof. unfold scan_invalidate_all. replying. Qed.
Hint Resolve replying_skip replying_invalidate : replying.

Lemma replying_delete_object base name : replying 1 (do_delete_object base name).
Proof. unfold do_delete_object. replying. Qed.

Lemma replying_create_dir base name : replying 1 (do_create_dir base name).
Proof. unfold do_create_dir. replying. Qed.

Lemma replying_rename_object srcbase src dstbase dst : replying 1 (do_rename_object srcbase src dstbase dst).
Proof. unfold do_rename_object. replying. Qed.

Lemma replying_rename_volume v name : replying 0 (rename_volume v name).
Proof. unfold rename_volume, set_volume. replying. Qed.
Hint Resolve replying_delete_object replying_create_dir replying_rename_object replying_rename_volume : replying.

Lemma replying_rename_disk name : replying 1 (do_rename_disk name).
Proof. unfold do_rename_disk. replying. Qed.

Lemma replying_info : replying 1 do_info.
Proof. unfold do_info. replying. Qed.

Lemma replying_flush : replying 1 do_flush.
Proof. unfold do_flush. replying. Qed.

Lemma replying_open_spec : replying 0 open_spec.
Proof. unfold open_spec. replying. Qed.
Hint Resolve replying_rename_disk replying_info replying_flush replying_open_spec : replying.

Lemma replying_format sv label : replying 1 (do_format sv label).
Proof. unfold do_format. replying. Qed.

Lemma replying_refuse pkt : replying 1 (refuse pkt).
Proof. unfold refuse. replying. Qed.
Hint Resolve replying_format replying_refuse : replying.

(** *** The life of a mount *)

Lemma replying_set_volume_dirty dirty : replying 0 (set_volume_dirty dirty).
Proof. unfold set_volume_dirty. replying. Qed.

Lemma replying_same_volume : replying 0 same_volume.
Proof. unfold same_volume. replying. Qed.

Lemma replying_discard_dirty_state : replying 0 discard_dirty_state.
Proof. unfold discard_dirty_state. replying. Qed.
Hint Resolve replying_set_volume_dirty replying_same_volume replying_discard_dirty_state : replying.

Lemma replying_add_volume : replying 0 add_volume.
Proof. unfold add_volume. replying. Qed.

Lemma replying_remove_volume sv : replying 0 (remove_volume sv).
Proof. unfold remove_volume, set_volume. replying. Qed.

Lemma replying_spec_from_envec : replying 0 spec_from_envec.
Proof. unfold spec_from_envec. replying. Qed.

Lemma replying_publish_name name : replying 0 (publish_name name).
Proof. unfold publish_name. replying. Qed.
Hint Resolve replying_add_volume replying_remove_volume replying_spec_from_envec replying_publish_name : replying.

Lemma replying_publish_loop sv part : forall n attempt, replying 0 (publish_loop n sv attempt part).
Proof. induction n as [| n IH]; intros attempt; cbn [publish_loop]; replying. Qed.
Hint Resolve replying_publish_loop : replying.

Lemma replying_publish_partition sv part again : replying 0 (publish_partition sv part again).
Proof. unfold publish_partition. replying. Qed.
Hint Resolve replying_publish_partition : replying.

Lemma replying_publish_all sv again : forall parts, replying 0 (publish_all sv parts again).
Proof. induction parts as [| part parts IH]; cbn [publish_all]; replying. Qed.
Hint Resolve replying_publish_all : replying.

Lemma replying_resolve_extent sv publish : replying 0 (resolve_extent sv publish).
Proof. unfold resolve_extent. replying. Qed.

Lemma replying_activate : replying 0 activate_partitions.
Proof. unfold activate_partitions. replying. Qed.

Lemma replying_park : replying 0 park.
Proof. unfold park, set_volume. replying. Qed.

Lemma replying_reattach sv : replying 0 (reattach sv).
Proof. unfold reattach, set_volume. replying. Qed.
End HandlerReply.

#[export] Hint Resolve replying_locate_object replying_freelock replying_copy_dir replying_lock_from_fh replying_parent
  replying_same_lock replying_examine_object replying_examine_next replying_examine_fh replying_open replying_fh_from_lock
  replying_read replying_write replying_seek replying_set_file_size replying_end replying_set_protect replying_set_date
  replying_set_comment replying_delete_object replying_create_dir replying_rename_object replying_rename_disk replying_format
  replying_info replying_flush replying_refuse replying_reply_err replying_discard_dirty_state replying_same_volume
  replying_set_volume_dirty replying_add_volume replying_remove_volume replying_spec_from_envec replying_resolve_extent
  replying_activate replying_park replying_reattach replying_open_spec : replying.

(** ** The functions that change the mode *)

Section Mode.
Context `{Platform}.
Notation replying := (replying false).

Lemma replying_unmount_fs : replying 0 unmount_fs.
Proof. unfold unmount_fs. replying. Qed.
Hint Resolve replying_unmount_fs : replying.

Lemma replying_release_mount : replying 0 release_mount.
Proof. unfold release_mount. replying. Qed.
Hint Resolve replying_release_mount : replying.

Lemma replying_release_if_idle sv : replying 0 (release_if_idle sv).
Proof. unfold release_if_idle. replying. Qed.

Lemma replying_mount_fs sv : replying 0 (mount_fs sv).
Proof. unfold mount_fs. replying. Qed.
Hint Resolve replying_release_if_idle replying_mount_fs : replying.

Lemma replying_inhibit sv on : replying 1 (do_inhibit sv on).
Proof. unfold do_inhibit. replying. Qed.

Lemma replying_die : replying 1 do_die.
Proof. unfold do_die. replying. Qed.
Hint Resolve replying_inhibit replying_die : replying.

Lemma replying_serve sv pkt : replying 1 (serve sv pkt).
Proof. unfold serve, dispatch. replying. Qed.
Hint Resolve replying_serve : replying.

(** *** The process *)

Lemma replying_release_partition : replying 0 release_partition.
Proof. unfold release_partition. replying. Qed.

Lemma replying_startup sv devlist fssm : replying 0 (startup sv devlist fssm).
Proof. unfold startup. replying. Qed.
Hint Resolve replying_release_partition replying_startup : replying.

(** A batch: one answer for each packet. *)
Lemma replying_drain : forall pkts, replying (length pkts) (drain pkts).
Proof. induction pkts as [| [sv pkt] pkts IH]; cbn [drain length]; replying. Qed.

(** When [m] returns, [P] holds of the result and of the number of replies it sent. *)
Definition sends {A} (P : A -> nat -> Prop) (m : M handler A) : Prop := forall h a h', m h = Ok a h' ->
  exists t, h_trace h' = h_trace h ++ t /\ P a (replies t).

Lemma sends_bind {A B} (P : A -> nat -> Prop) (Q : B -> nat -> Prop) (m : M handler A) (f : A -> M handler B) :
  sends P m -> (forall a n, P a n -> sends (fun b k => Q b (n + k)%nat) (f a)) -> sends Q (bind m f).
Proof.
  intros Hm Hf h b h'. unfold bind. destruct (m h) as [a h1 | |] eqn:E; [| done..]. intros E'.
  destruct (Hm _ _ _ E) as (t1 & T1 & P1), (Hf _ _ P1 _ _ _ E') as (t2 & T2 & P2).
  exists (t1 ++ t2). by rewrite T2, T1, app_assoc, replies_app.
Qed.

Lemma sends_replying {A} n (m : M handler A) : replying n m -> sends (fun _ k => k = n) m.
Proof. intros Hm h a h' E. by destruct (Hm _ _ _ E) as [? _]. Qed.

Lemma sends_step {A B} n (Q : B -> nat -> Prop) (m : M handler A) (f : A -> M handler B) :
  replying n m -> (forall a, sends (fun b k => Q b (n + k)%nat) (f a)) -> sends Q (bind m f).
Proof. intros Hm Hf. eapply sends_bind; [by apply sends_replying |]. intros a k ->. apply Hf. Qed.

Lemma sends_ret {A} (Q : A -> nat -> Prop) a : Q a 0%nat -> sends Q (ret a).
Proof. intros HQ h b h' [= <- <-]. exists []. by rewrite app_nil_r. Qed.

Lemma sends_get {A} (Q : A -> nat -> Prop) (f : handler -> M handler A) : (forall h, sends Q (f h)) -> sends Q (bind get_state f).
Proof. intros Hf h a h'. apply Hf. Qed.

(** [n] packets are the first batches, all of them unless the loop was told to end. *)
Definition batches_served {A} (batches : list (list A)) (quit : bool) (n : nat) : Prop :=
  exists k, n = length (concat (take k batches)) /\ (k <= length batches)%nat /\ (quit = false -> k = length batches).

Lemma sends_packet_loop : forall batches, sends (batches_served batches) (packet_loop batches).
Proof.
  induction batches as [| batch batches IH]; cbn [packet_loop]; apply sends_get; intros h; destruct (h_quit h).
  1-3: apply sends_ret; exists 0%nat; (split_and!; [done | cbn; lia | done]).
  apply (sends_step (length batch)); [apply replying_drain |]. intros _ h1 quit h' E.
  destruct (IH _ _ _ E) as (t & T & k & R & Hk & Hq). exists t. split; [done |]. exists (S k). cbn [take concat length].
  rewrite length_app, R. split_and!; [done | lia |]. intros Hf. by rewrite Hq.
Qed.
End Mode.

#[export] Hint Resolve replying_AllocVec replying_unmount_fs replying_release_partition replying_startup : replying.

(** Whether there is memory for the handler structure, the first thing that it asks for. *)
Definition has_memory (h : handler) : bool := match h_answers h with false :: _ => false | _ => true end.

(** What [exfat_handler_main] sends before it ends with [r], or waits: the answer to the
    startup packet, and one to each packet of the first [k] batches. *)
Definition main_sends (batches : list (list (system_view * packet))) (r : option Z) (n : nat) : Prop :=
  exists k, n = S (length (concat (take k batches))) /\ (k <= length batches)%nat /\
    (r = None -> k = length batches) /\ (r = Some RETURN_FAIL -> k = 0%nat).

Lemma main_sends_nothing batches r : r <> None -> main_sends batches r 1.
Proof. intros Hr. exists 0%nat. split_and!; [done | lia | done | done]. Qed.

Lemma sends_process `{Platform} sv devlist fssm batches : sends (main_sends batches) (handler_process sv devlist fssm batches).
Proof.
  unfold handler_process. apply (sends_step 0); [replying |]. intros dos. destruct (negb dos).
  { apply (sends_step 1); [replying |]. intros _. by apply sends_ret, main_sends_nothing. }
  apply (sends_step 0); [replying |]. intros ok. destruct (negb ok).
  { apply sends_get. intros h1. apply (sends_step 0); [replying |]. intros _. apply (sends_step 1); [replying |].
    intros _. apply (sends_step 0); [replying |]. intros _. by apply sends_ret, main_sends_nothing. }
  apply (sends_step 1); [replying |]. intros _. apply (sends_step 0); [replying |]. intros _.
  apply (sends_step 0); [replying |]. intros _. eapply sends_bind; [apply sends_packet_loop |].
  intros quit n (k & -> & Hk & Hq). assert (HQ : forall r, r <> Some RETURN_FAIL -> (r = None -> quit = false) ->
    main_sends batches r (S (length (concat (take k batches))))) by (intros r Hr Hn; exists k; split_and!; [done | done | auto | done]).
  destruct (negb quit) eqn:Eq; [apply sends_ret; rewrite Nat.add_0_r; apply HQ; [done | by destruct quit] |].
  do 4 (apply (sends_step 0); [replying |]; intros _). apply sends_ret. rewrite Nat.add_0_r. by apply HQ.
Qed.

Lemma main_replies `{Platform} sv devlist fssm batches h r h' :
  exfat_handler_main sv devlist fssm batches h = Ok r h' ->
  exists t, h_trace h' = h_trace h ++ t /\
    if has_memory h then main_sends batches r (replies t) else r = Some RETURN_FAIL /\ t = [].
Proof.
  unfold exfat_handler_main, has_memory, AllocVec, ask, bind. intros E. destruct (h_answers h) as [| [] ans]; cbn in E.
  - by apply (sends_process _ _ _ _ _ _ _ E).
  - by apply (sends_process _ _ _ _ _ _ _ E).
  - injection E as <- <-. exists []. by rewrite app_nil_r.
Qed.
