(* ===== verification/HandlerMount.v ===== *)
(** * HandlerMount: the life of a mount (amiga/handler.c)

    A volume that is inhibited is parked, or unmounted when nothing is open; it is
    mounted again, or attached again, when it is released.  Scanning for partitions,
    formatting and all of this end, and leave the handler with a whole tree and
    consistent tables, or with nothing mounted. *)

From Stdlib Require Import ZArith Lia.
From stdpp Require Import base numbers list gmap.
From S2P Require Import Prelude Bytes Monad Ondisk DevIo State Utf Bitmap Geometry Cluster FileIO Utils ExfatTime Entries EntriesSpec DirTerm NodeTerm NodeTree TreeSpec TreeReset Lookup LookupSpec TreeSafe TreeMove Dir DirSafe Mount MountSafe FuseSpec PartTable Amigaos Uctc Mkfs Format Handler HandlerLocks HandlerSpec.

#[local] Open Scope Z_scope.

(** ** Calls that end *)

Lemma ends_malloc : ends malloc_ok.
Proof. done. Qed.

Lemma ends_pread size off : ends (exfat_pread size off).
Proof. done. Qed.

Lemma ends_pwrite data off : ends (exfat_pwrite data off).
Proof. intros e. unfold wps, exfat_pwrite. by destruct (os_wfail _ _ _). Qed.

Lemma ends_error : ends exfat_error.
Proof. done. Qed.

Lemma ends_fsync : ends exfat_fsync.
Proof. unfold exfat_fsync. ends. apply ends_error. Qed.

#[export] Hint Resolve ends_malloc ends_pread ends_pwrite ends_error ends_fsync : ends.

(** *** Partition tables *)

Lemma ends_load buf off n : ends (load buf off n : M env (list Z)).
Proof. intros e. unfold wps, load. by destruct (_ || _). Qed.
#[export] Hint Resolve ends_load : ends.

Lemma ends_is_exfat_at lba bs : ends (is_exfat_at lba bs : M env bool).
Proof. unfold is_exfat_at, matches_at, read_at, env_device. ends. Qed.
#[export] Hint Resolve ends_is_exfat_at : ends.

Lemma ends_scan_extended_loop bs start max : forall links here out, ends (scan_extended_loop links bs start here out max : M env _).
Proof.
  induction links as [| links IH]; intros here out; cbn [scan_extended_loop]; unfold le16at, le32at, byte_at, read_at, env_device; ends.
Qed.

Lemma ends_zero_words buf : forall n off, ends (zero_words n buf off : M env bool).
Proof. induction n as [| n IH]; intros off; cbn [zero_words]; unfold le32at; ends. Qed.
#[export] Hint Resolve ends_zero_words : ends.

Lemma ends_scan_gpt_loop bs lba size max : forall n i out, ends (scan_gpt_loop n bs lba size i out max : M env _).
Proof.
  induction n as [| n IH]; intros i out; cbn [scan_gpt_loop]; unfold le64at, read_at, env_device; ends.
Qed.
#[export] Hint Resolve ends_scan_extended_loop ends_scan_gpt_loop : ends.

Lemma ends_scan_gpt bs max : ends (scan_gpt bs max : M env _).
Proof. unfold scan_gpt, matches_at, le64at, le32at, AllocVec, read_at, env_device. ends. Qed.

Lemma ends_scan_extended bs start max : ends (scan_extended bs start max : M env _).
Proof. unfold scan_extended, AllocVec, env_device. ends. Qed.
#[export] Hint Resolve ends_scan_gpt ends_scan_extended : ends.

Lemma ends_scan_mbr_loop bs max : forall n i buf out, ends (scan_mbr_loop n bs i buf out max : M env _).
Proof.
  induction n as [| n IH]; intros i buf out; cbn [scan_mbr_loop]; unfold byte_at, le32at, read_at, env_device; ends.
Qed.
#[export] Hint Resolve ends_scan_mbr_loop : ends.

Lemma ends_scan_partitions bs total max : ends (exfat_amiga_scan_partitions bs total max : M env _).
Proof. unfold exfat_amiga_scan_partitions, matches_at, le16at, AllocVec, read_at, env_device. ends. Qed.
#[export] Hint Resolve ends_scan_partitions : ends.

(** *** Formatting *)

Lemma ends_exfat_write data : ends (exfat_write data).
Proof. unfold exfat_write, when. ends. Qed.

Lemma ends_exfat_seek off : ends (exfat_seek off).
Proof. unfold exfat_seek. ends. Qed.
#[export] Hint Resolve ends_exfat_write ends_exfat_seek : ends.

Lemma ends_write_sectors sector : forall n checksum, ends (write_sectors n sector checksum).
Proof. induction n as [| n IH]; intros checksum; cbn [write_sectors]; ends. Qed.
#[export] Hint Resolve ends_write_sectors : ends.

Lemma fat_write_entry_next cluster value s : wps (fat_write_entry cluster value) (fun c _ => c = 0 \/ c = u32 (cluster + 1)) s.
Proof.
  unfold fat_write_entry. eapply wps_step; [apply ends_exfat_write |]. intros ok s1 _. destruct (negb ok); [| apply wps_ret; by right].
  eapply wps_step; [apply (ends_on_part _ ends_error) |]. intros _ s2 _. apply wps_ret. by left.
Qed.

Lemma ends_fat_write_entry cluster value : ends (fat_write_entry cluster value).
Proof. intros s. eapply wps_mono; [apply fat_write_entry_next |]. done. Qed.
#[export] Hint Resolve ends_fat_write_entry : ends.

(** The clusters go up to the last one. *)
Lemma ends_fat_entries_loop last : forall fuel cluster, 0 <= cluster -> last < 2 ^ 32 -> last - cluster <= Z.of_nat fuel ->
  ends (fat_entries_loop fuel cluster last).
Proof.
  induction fuel as [| fuel IH]; intros cluster Hc Hl Hf; cbn [fat_entries_loop]; destruct (Z.ltb_spec cluster last) as [Hlt | Hlt];
    try (by intros s); [lia |].
  assert (E : u32 (cluster + 1) = cluster + 1) by (apply u32_small; unfold in_u; lia). rewrite E.
  intros s. eapply wps_step; [apply fat_write_entry_next |]. rewrite E. intros c s1 [-> | ->]; [by apply wps_ret |].
  destruct (Z.eqb_spec (cluster + 1) 0); [by apply wps_ret |]. apply IH; lia.
Qed.

Section Format.
Context `{Platform} (p : param).

Lemma fat_write_entries_next cluster length s : 0 <= cluster -> wps (fat_write_entries p cluster length) (fun c _ => 0 <= c) s.
Proof.
  intros Hc. unfold fat_write_entries. set (last := u32 (_ - 1)).
  assert (Hl : in_u 32 last) by apply u32_range. unfold in_u in Hl.
  eapply wps_step; [apply ends_fat_entries_loop; lia |]. intros [c |] s1 _; [| by apply wps_ret].
  eapply wps_mono; [apply fat_write_entry_next |]. intros c' s2 [-> | ->]; [done | apply u32_range].
Qed.

Lemma ends_fat_write : ends (fat_write p).
Proof.
  intros s. unfold fat_write. eapply wps_step; [apply fat_write_entry_next |]. intros c s1 H1.
  assert (C1 : 0 <= c) by (destruct H1 as [-> | ->]; [done | apply u32_range]). destruct (c =? 0); [by apply wps_ret |].
  eapply wps_step; [apply fat_write_entry_next |]. intros c2 s2 H2.
  assert (C2 : 0 <= c2) by (destruct H2 as [-> | ->]; [done | apply u32_range]). destruct (c2 =? 0); [by apply wps_ret |].
  eapply wps_step; [by apply fat_write_entries_next |]. intros c3 s3 C3. destruct (c3 =? 0); [by apply wps_ret |].
  eapply wps_step; [by apply fat_write_entries_next |]. intros c4 s4 C4. destruct (c4 =? 0); [by apply wps_ret |].
  eapply wps_step; [by apply fat_write_entries_next |]. intros c5 s5 C5. destruct (c5 =? 0); by apply wps_ret.
Qed.

Lemma ends_object_write o : ends (object_write p o).
Proof.
  destruct o; cbn [object_write]; [unfold vbr_write | apply ends_fat_write | unfold cbm_write | unfold uct_write | unfold rootdir_write]; ends.
Qed.

Lemma ends_create_all : forall pp position, ends (create_all p pp position).
Proof.
  pose proof ends_object_write. induction pp as [| o pp IH]; intros position; cbn [create_all]; ends.
Qed.

(** Every turn erases a block. *)
Lemma ends_erase_loop block size : forall fuel i, 0 < zlen block -> size - i <= Z.of_nat fuel * zlen block ->
  ends (erase_loop fuel block size i).
Proof.
  induction fuel as [| fuel IH]; intros i Hb Hf; cbn [erase_loop]; destruct (Z.ltb_spec i size); try (by intros s); [lia |].
  assert (ends (erase_loop fuel block size (i + zlen block))) by (apply IH; lia). ends.
Qed.

Lemma ends_erase_object block start size : 0 < zlen block -> ends (erase_object block start size).
Proof.
  intros Hb. unfold erase_object. assert (ends (erase_loop (Z.to_nat (DIV_ROUND_UP size (zlen block))) block size 0)); [| ends].
  apply ends_erase_loop; [done |]. set (k := DIV_ROUND_UP size (zlen block)).
  assert (Hk : size <= k * zlen block).
  { unfold k, DIV_ROUND_UP. pose proof (Z.div_mod (size + zlen block - 1) (zlen block) ltac:(lia)).
    pose proof (Z.mod_pos_bound (size + zlen block - 1) (zlen block) Hb). nia. }
  assert (k <= Z.of_nat (Z.to_nat k)) by lia. nia.
Qed.

Lemma ends_erase_all block : 0 < zlen block -> forall pp position, ends (erase_all p pp block position).
Proof.
  intros Hb. pose proof (fun start size => ends_erase_object block start size Hb).
  induction pp as [| o pp IH]; intros position; cbn [erase_all]; ends.
Qed.

Lemma ends_mkfs size : ends (mkfs p size).
Proof.
  pose proof ends_create_all. assert (ends (erase p)) as He.
  { unfold erase. pose proof (ends_erase_all (zrepeat 0 (1024 * 1024)) ltac:(rewrite zlen_zrepeat; lia)). ends. }
  unfold mkfs, check_size, create. ends.
Qed.
End Format.

Lemma ends_amiga_format `{Platform} opens now spec label : ends (exfat_amiga_format opens now spec label).
Proof. pose proof ends_mkfs. unfold exfat_amiga_format. ends. Qed.

(** ** Dropping what is not written *)

Section Discard.
Context `{Platform}.

Lemma assign_clean w p : forest w -> is_Some (w_heap w !! p) -> wpt (assign (Some p) (set_n_is_dirty false)) (fun _ w' => quiet w w') w.
Proof.
  intros Hf [n Hn]. eapply wpt_mono; [by apply (assign_later w p n) |]. intros _ w' [L _]. exact L.
Qed.

Lemma discard_dirty_nodes_quiet f : forall w p l, forest w -> ancestry (w_heap w) p l ->
  (size (w_heap w) < f + length l)%nat -> wpt (discard_dirty_nodes f (Some p)) (fun _ w' => quiet w w') w.
Proof.
  induction f as [| f IH]; intros w p l Hf Ha Hfuel;
    destruct (ancestry_nodup _ _ _ Ha) as (Hnd & Hin & _);
    assert (Hp : is_Some (w_heap w !! p)) by (apply Hin; destruct Ha; left);
    destruct (fo_list _ Hf p Hp) as [k Hk]; pose proof (ancestry_size w p l k Hf Ha Hk) as Hsz; [lia |].
  cbn [discard_dirty_nodes]. set (ch := fix loop (k : nat) (c : option ptr) : M world unit := _).
  assert (Hch : forall k2 k1 j w1, quiet w w1 -> k = k1 ++ k2 -> (length k2 <= j)%nat ->
    wpt (ch j (first_or k2 None)) (fun _ w' => quiet w w') w1).
  { induction k2 as [| q k2 IHk]; intros k1 j w1 L1 -> Hj; [destruct j; by apply wpt_ret |].
    cbn [length] in Hj. destruct j as [| j]; [lia |]. cbn [first_or]. unfold ch. fold ch.
    pose proof (quiet_forest _ _ L1) as Hf1. pose proof (later_ancestry _ _ _ _ _ (qu_later _ _ L1) Ha) as Ha1.
    pose proof (quiet_children _ _ _ _ Hf L1 Hk) as Hk1.
    destruct (ancestry_child w1 p l _ Hf1 Ha1 Hk1 q ltac:(set_solver)) as [_ Haq].
    apply wpt_bind. eapply wpt_mono; [apply (IH w1 q (q :: l)); [done | done |] |].
    { rewrite (quiet_size _ _ L1). cbn [length]. lia. }
    post rc w2 L2. assert (L12 : quiet w w2) by by etrans.
    pose proof (quiet_children _ _ _ _ Hf L12 Hk) as [_ _ Hs]. apply segment_app in Hs as [_ [(n & Hn & _ & _ & Hnext) _]].
    apply wpt_bind, (wpt_deref _ _ _ _ Hn). rewrite Hnext.
    apply (IHk (k1 ++ [q])); [done | by rewrite <- app_assoc | lia]. }
  apply wpt_bind. eapply wpt_mono; [by apply assign_clean |]. post u w1 L1.
  pose proof (quiet_children _ _ _ _ Hf L1 Hk) as [_ (n & Hn & Hc) _].
  apply wpt_bind, (wpt_deref _ _ _ _ Hn). rewrite Hc. by apply (Hch k []); [| | lia].
Qed.

Lemma discard_quiet w : forest w -> wpt (discard_dirty_nodes (tree_fuel w) (w_root w)) (fun _ w' => quiet w w') w.
Proof.
  intros Hf. destruct (fo_root _ Hf) as (r & n & Hr & Hn & Hp & _). rewrite Hr.
  apply (discard_dirty_nodes_quiet _ w r [r]); [done | by eapply ancestry_top | unfold tree_fuel; cbn; lia].
Qed.

(** *** Fields of the volume *)

(** Set fields beside the super block and the up-case table. *)
Lemma set_ef_quiet f w : forest w -> (forall ef, ef_sb (f ef) = ef_sb ef) -> (forall ef, ef_upcase (f ef) = ef_upcase ef) ->
  wpt (on_part (S := world) (on_part (S := vol) (modify f))) (fun _ w' => quiet w w') w.
Proof. intros Hf H1 H2. apply vol_later; [done |]. intros v. apply wpt_on_part, wpt_modify. split; [apply H1 | apply H2]. Qed.

(** Another volume with clusters of the same size. *)
Lemma forest_vol w v : CLUSTER_SIZE (ef_sb (v_ef v)) = CLUSTER_SIZE (ef_sb (w_ef w)) -> forest w -> forest (set_w_vol v w).
Proof.
  intros E Hf. destruct (fo_root _ Hf) as (r & n & ? & ? & ? & ? & ?).
  eapply (grove_forest _ r n); [by apply grove_vol, forest_grove | | done..].
  change (0 < CLUSTER_SIZE (ef_sb (v_ef v))). rewrite E. apply Hf.
Qed.

Definition with_sb (sb : super_block) (w : world) : world :=
  set_w_vol (set_v_ef (set_ef_sb sb (v_ef (w_vol w))) (w_vol w)) w.

Lemma ready_sb sb w : CLUSTER_SIZE sb = CLUSTER_SIZE (ef_sb (w_ef w)) -> ready w -> ready (with_sb sb w).
Proof. intros E [Hf Hu]. split; [by apply forest_vol | exact Hu]. Qed.

(** What a session knows of the volume does not depend on the state in its super block. *)
Lemma live_sb w0 sb d h : CLUSTER_SIZE sb = CLUSTER_SIZE (ef_sb (w_ef (h_world h))) -> live w0 d h ->
  CLUSTER_SIZE sb = CLUSTER_SIZE (ef_sb (w_ef w0)) /\ live (with_sb sb w0) d (set_h_world (with_sb sb (h_world h)) h).
Proof.
  intros E [[[I1 [V1 V2] I3 I4] S2 S3 S4 S5 S6 S7] Sc]. rewrite V1 in E. split; [done |]. split; [| exact Sc].
  constructor; [| exact S2 | exact S3 | exact S4 | exact S5 | exact S6 | exact S7].
  constructor; [| split; [reflexivity | exact V2] | exact I3 | exact I4].
  apply forest_vol; [| exact I1]. change (CLUSTER_SIZE sb = CLUSTER_SIZE (ef_sb (w_ef (h_world h)))). by rewrite V1.
Qed.

(** ** A volume that is served *)

(** The references are those of the locks and files, from some state on. *)
Definition serves (h : handler) : Prop := exists w0, ready w0 /\ live w0 none h.

Lemma serves_forest h : serves h -> forest (h_world h).
Proof. intros (w0 & _ & L). apply L. Qed.

Lemma serves_quiet h w' : serves h -> quiet (h_world h) w' -> serves (set_h_world w' h).
Proof. intros (w0 & R & L) Q. exists w0. split; [done |]. by eapply live_quiet. Qed.

Lemma serves_same h h' : serves h -> h_world h' = h_world h -> h_locks h' = h_locks h -> h_files h' = h_files h ->
  h_nlocks h' = h_nlocks h -> h_nfiles h' = h_nfiles h -> option_map dl_LockList (h_volume h') = option_map dl_LockList (h_volume h) ->
  (h_fresh h <= h_fresh h')%N -> serves h'.
Proof.
  intros (w0 & R & [S Sc]) Ew El Ef En1 En2 Ev Efr. exists w0. split; [done |].
  destruct S as [S1 S2 S3 S4 S5 (v & l & Hv & Hnd & Hc & Hin) S7]. split; [constructor |]; rewrite ?Ew, ?El, ?Ef, ?En1, ?En2; try done.
  - rewrite Hv in Ev. destruct (h_volume h') as [v' |]; [| done]. injection Ev as Ev. exists v', l. by rewrite Ev.
  - intros a Ha. specialize (S7 a Ha). lia.
  - unfold scans_live. by rewrite Ew, El.
Qed.

(** A step that keeps the tree. *)
Lemma serves_ef {A B} (m : M world A) (k : A -> M handler B) Q h : serves h -> wpt m (fun _ w' => quiet (h_world h) w') (h_world h) ->
  (forall a w', serves (set_h_world w' h) -> wps (k a) Q (set_h_world w' h)) -> wps (let! a := on_ef m in k a) Q h.
Proof.
  intros L Hm Hk. apply wps_ef. eapply wps_mono; [apply wps_wpt, Hm |]. cbn beta. intros a w' Q'. by apply Hk, serves_quiet.
Qed.

(** A super block is set. *)
Lemma set_sb_step {B} (g : exfat -> super_block) (k : M handler B) Q h :
  wps k Q (set_h_world (with_sb (g (w_ef (h_world h))) (h_world h)) h) ->
  wps (on_ef (on_part (S := world) (on_part (S := vol) (modify (fun ef => set_ef_sb (g ef) ef))));; k) Q h.
Proof. intros Hk. apply wps_ef, wps_on_part, wps_on_part, wps_modify. exact Hk. Qed.

Lemma wpt_fsync e : wpt State.exfat_fsync (fun _ _ => True) e.
Proof. unfold State.exfat_fsync, wpt, bind. cbn. by destruct (os_fsync_fails e). Qed.

Lemma set_volume_dirty_serves b h : serves h -> wps (set_volume_dirty b) (fun _ h' => serves h' /\ exists w', h' = set_h_world w' h) h.
Proof.
  intros L. unfold set_volume_dirty. apply wps_bind, wps_get. destruct (read_only h).
  { apply wps_ret. split; [done |]. exists (h_world h). by rewrite set_world_id. }
  apply (set_sb_step (fun ef => set_sb_state (if b then Z.lor (sb_volume_state (ef_sb ef)) EXFAT_STATE_MOUNTED
    else Z.ldiff (sb_volume_state (ef_sb ef)) EXFAT_STATE_MOUNTED) (sb_allocated_percent (ef_sb ef)) (ef_sb ef))); cbn beta.
  set (sb' := set_sb_state _ _ _). set (w1 := with_sb sb' (h_world h)). assert (L1 : serves (set_h_world w1 h)).
  { destruct L as (w0 & R & L). destruct (live_sb w0 sb' none h) as [E L1]; [reflexivity | exact L |].
    exists (with_sb sb' w0). split; [by apply ready_sb | exact L1]. }
  clearbody w1. apply wps_bind, wps_get.
  eapply serves_ef; [exact L1 | apply os_later; [by apply serves_forest | intros e; apply wpt_pwrite] |].
  intros ok w2 L2. destruct (negb ok); [apply wps_ret; split; [exact L2 | by exists w2] |].
  eapply serves_ef; [exact L2 | apply os_later; [by apply serves_forest | apply wpt_fsync] |].
  intros rc w3 L3. apply wps_ret. split; [exact L3 | by exists w3].
Qed.

(** *** Parking *)

Lemma wps_bind_ret {S} (m : M S unit) Q s : wps (m;; ret tt) Q s = wps m Q s.
Proof. unfold wps, bind. by destruct (m s) as [[] | |]. Qed.

Lemma serves_discard h : serves h -> wps discard_dirty_state (fun _ h' => serves h' /\ exists w', h' = set_h_world w' h) h.
Proof.
  intros L. unfold discard_dirty_state. apply wps_bind, wps_get.
  destruct (negb _); [apply wps_ret; split; [exact L | exists (h_world h); by rewrite set_world_id] |].
  eapply serves_ef; [exact L | by apply discard_quiet, serves_forest |]. intros _ w1 L1.
  rewrite <- (wps_bind_ret (on_ef _)). eapply serves_ef; [exact L1 | by apply set_ef_quiet; [apply serves_forest | |] |].
  intros _ w2 L2. apply wps_ret. split; [exact L2 | by exists w2].
Qed.

Lemma park_serves h : serves h -> wps park (fun _ h' => serves h' /\ h_mounted h' = h_mounted h /\ h_inhibited h' = h_inhibited h) h.
Proof.
  intros L. unfold park. apply wps_bind, wps_get.
  eapply (wps_step _ _ (fun _ h' => serves h' /\ exists w', h' = set_h_world w' h)).
  - destruct (negb _); [| apply wps_ret; split; [exact L | exists (h_world h); by rewrite set_world_id]].
    eapply serves_ef; [exact L | by apply exfat_flush_nodes_quiet, serves_forest |]. intros rc w1 L1.
    eapply (wps_step _ _ (fun _ h' => serves h' /\ exists w', h' = set_h_world w' h)).
    { destruct (negb _); [apply wps_ret; split; [exact L1 | by exists w1] |]. apply wps_on_part.
      eapply wps_mono; [apply wps_wpt, vol_later; [by apply (serves_forest _ L1) | apply vsteady_flush] |]. cbn beta.
      intros r w2 Q2. split; [by apply (serves_quiet (set_h_world w1 h)) | by exists w2]. }
    cbn beta. intros rc2 h2 [L2 [w2 ->]].
    eapply (wps_step _ _ (fun _ h' => serves h' /\ exists w', h' = set_h_world w' h)).
    { destruct (negb _); [apply wps_ret; split; [exact L2 | by exists w2] |].
      eapply wps_step; [by apply set_volume_dirty_serves |]. cbn beta. intros err h3 [L3 [w3 ->]]. apply wps_ret.
      split; [exact L3 | by exists w3]. }
    cbn beta. intros flushed h3 [L3 [w3 ->]]. destruct flushed; [apply wps_ret; split; [exact L3 | by exists w3] |].
    eapply wps_mono; [by apply serves_discard |]. cbn beta. intros _ h4 [L4 [w4 ->]]. split; [exact L4 | by exists w4].
  - cbn beta. intros _ h1 [L1 [w1 ->]]. apply wps_modify. split; [| done].
    eapply serves_same; [exact L1 | reflexivity.. | | reflexivity]. hs. by destruct (h_volume h).
Qed.

(** ** Calls that only touch the rest of AmigaDOS *)

(** The tree, the tables and, if [vol], the volume, but not what is known of the rest of
    the system. *)
Definition tables (vol : bool) (h : handler) :=
  (w_heap (h_world h), w_root (h_world h), w_fresh (h_world h), w_ef (h_world h), h_locks h, h_files h,
   (h_nlocks h, h_nfiles h), (h_mounted h, h_inhibited h), if vol then h_volume h else None).

(** [m] ends, and it touches none of them. *)
Definition still {A} (vol : bool) (m : M handler A) : Prop := forall h, wps m (fun _ h' => tables vol h' = tables vol h) h.

Section Still.
Context {vol : bool}.
Notation still := (still vol).

Lemma still_ret {A} (a : A) : still (ret a).
Proof. by intros h. Qed.

Lemma still_bind {A B} (m : M handler A) (f : A -> M handler B) : still m -> (forall a, still (f a)) -> still (bind m f).
Proof. intros Hm Hf h. eapply wps_step; [apply Hm |]. intros a h1 E1. eapply wps_mono; [apply Hf |]. intros b h2 E2. congruence. Qed.

Lemma still_get {A} (f : handler -> M handler A) : (forall h, still (f h)) -> still (bind get_state f).
Proof. intros Hf h. apply wps_bind, wps_get, Hf. Qed.

Lemma still_gets {A} (f : handler -> A) : still (gets f).
Proof. by intros h. Qed.

Lemma still_modify f : (forall h, tables vol (f h) = tables vol h) -> still (modify f).
Proof. intros Hf h. apply wps_modify, Hf. Qed.

Lemma still_os {A} (m : M env A) : ends m -> still (on_ef (on_world_os m)).
Proof. intros Hm h. do 3 apply wps_on_part. eapply wps_mono; [apply Hm |]. done. Qed.

Lemma still_ask : still ask.
Proof. intros h. unfold wps, ask. by destruct (h_answers h). Qed.

Lemma still_emit e : still (emit e).
Proof. by intros h. Qed.

End Still.

Create HintDb still.
Hint Resolve still_ret still_gets still_ask still_emit : still.

Ltac still :=
  repeat (cbn beta iota zeta; lazymatch goal with
  | |- still _ (bind get_state _) => apply still_get; intros
  | |- still _ (bind _ _) => apply still_bind; [| intros]
  | |- still _ (on_ef (on_part (on_part _))) => apply still_os; ends
  | |- still _ (on_ef (on_world_os _)) => apply still_os; ends
  | |- still _ (modify _) => by apply still_modify
  | |- still _ (match ?x with _ => _ end) => destruct x
  | |- still _ _ => solve [auto with still]
  end).

Lemma still_AllocVec vol : still vol AllocVec.
Proof. unfold AllocVec. still. Qed.

Lemma still_reply vol a b : still vol (reply a b).
Proof. unfold reply. still. Qed.
Hint Resolve still_AllocVec still_reply : still.

Lemma still_reply_err vol err : still vol (reply_err err).
Proof. unfold reply_err. still. Qed.

Lemma still_add_volume : still false add_volume.
Proof. unfold add_volume. still. Qed.

Lemma still_remove_volume sv : still false (remove_volume sv).
Proof. unfold remove_volume, set_volume. still. Qed.

Lemma still_reattach sv : still false (reattach sv).
Proof. unfold reattach, set_volume. still. Qed.

Lemma still_spec_from_envec vol : still vol spec_from_envec.
Proof. unfold spec_from_envec. still. Qed.

Lemma still_open_spec vol : still vol open_spec.
Proof. unfold open_spec. still. Qed.

Lemma still_publish_name vol name : still vol (publish_name name).
Proof. unfold publish_name. still. Qed.
Hint Resolve still_open_spec still_publish_name : still.

Lemma still_publish_loop vol sv part : forall n attempt, still vol (publish_loop n sv attempt part).
Proof. induction n as [| n IH]; intros attempt; cbn [publish_loop]; still. Qed.
Hint Resolve still_publish_loop : still.

Lemma still_publish_partition vol sv part again : still vol (publish_partition sv part again).
Proof. unfold publish_partition. still. Qed.
Hint Resolve still_publish_partition : still.

Lemma still_publish_all vol sv again : forall parts, still vol (publish_all sv parts again).
Proof. induction parts as [| part parts IH]; cbn [publish_all]; still. Qed.
Hint Resolve still_publish_all : still.

Lemma still_resolve_extent vol sv publish : still vol (resolve_extent sv publish).
Proof. unfold resolve_extent. still. Qed.

Lemma still_activate vol : still vol activate_partitions.
Proof. unfold activate_partitions. still. Qed.

Lemma still_same_volume vol : still vol same_volume.
Proof. unfold same_volume. still. Qed.

Lemma still_info vol : still vol do_info.
Proof. unfold do_info. still. Qed.

Lemma still_format vol sv label : still vol (do_format sv label).
Proof.
  assert (Hd : forall sv spec label, ends (on_device (exfat_amiga_format (sv_opens sv) (sv_now sv) spec label))).
  { intros sv' spec label' e. pose proof (ends_amiga_format (sv_opens sv') (sv_now sv') spec label' (mk_file_state e 0)) as He.
    unfold wps, on_device in *. by destruct (exfat_amiga_format _ _ _ _ _) as [| [] |]. }
  unfold do_format. still; apply still_os, Hd.
Qed.

(** ** Unmounting *)

(** Nothing is mounted and nothing is open. *)
Record unmounted (h : handler) : Prop := {
  un_bare : exists X, bare X (h_world h);
  un_mounted : h_mounted h = false;
  un_locks : h_locks h = ∅;
  un_files : h_files h = ∅;
  un_counts : h_nlocks h = 0 /\ h_nfiles h = 0;
  un_volume : h_volume h = None
}.

(** A volume that is unlisted, whose locks and files are gone. *)
Record idle (h : handler) : Prop := {
  id_forest : forest (h_world h);
  id_mounted : h_mounted h = true;
  id_locks : h_locks h = ∅;
  id_files : h_files h = ∅;
  id_counts : h_nlocks h = 0 /\ h_nfiles h = 0;
  id_volume : h_volume h = None
}.

Lemma bare_same X w w' : w_heap w' = w_heap w -> w_root w' = w_root w -> w_fresh w' = w_fresh w -> bare X w -> bare X w'.
Proof. intros Eh Er Ef [[] Hr D]. split; [| congruence | by rewrite Eh]. split; rewrite ?Eh, ?Ef; done. Qed.

Lemma unmounted_tables h h' : tables true h' = tables true h -> unmounted h -> unmounted h'.
Proof.
  intros [= E1 E2 E3 _ E4 E5 E6 E7 E8 E9 E10] [[X ?] ? ? ? [? ?] ?].
  split; [by exists X; eapply bare_same | congruence.. | split; congruence | congruence].
Qed.

(** The counters are those of the tables, which are smaller than the address space. *)
Definition few (h : handler) : Prop := Z.of_nat (size (h_locks h)) < 2 ^ 32 /\ Z.of_nat (size (h_files h)) < 2 ^ 32.

Lemma serves_idle h : serves h -> few h -> h_mounted h = true -> (h_nlocks h =? 0) && (h_nfiles h =? 0) = true ->
  idle (set_h_volume None h).
Proof.
  intros (w0 & R & [S _]) [F1 F2] Hm [Hl%Z.eqb_eq Hf%Z.eqb_eq]%andb_prop. pose proof (sv_nlocks _ _ _ S) as Nl. pose proof (sv_nfiles _ _ _ S) as Nf.
  rewrite u32_small in Nl by (unfold in_u; lia). rewrite u32_small in Nf by (unfold in_u; lia).
  split; hs; [apply S | done | apply map_size_empty_inv; lia | apply map_size_empty_inv; lia | done | done].
Qed.

Lemma forest_same w w' : w_heap w' = w_heap w -> w_root w' = w_root w -> w_fresh w' = w_fresh w -> w_ef w' = w_ef w ->
  forest w -> forest w'.
Proof. intros Eh Er Ef Ev []. split; rewrite ?Eh, ?Er, ?Ef, ?Ev; done. Qed.

Lemma idle_tables h h' : tables false h' = tables false h -> h_volume h' = None -> idle (set_h_volume None h) -> idle h'.
Proof.
  intros [= E1 E2 E3 E0 E4 E5 E6 E7 E8 E9] Hv [? ? ? ? [? ?] _]. hs.
  split; [by eapply forest_same | congruence.. | split; congruence | done].
Qed.

Lemma idle_world h w' : idle h -> forest w' -> idle (set_h_world w' h).
Proof. by intros [] Hf. Qed.

Lemma unmount_fs_bare h : idle h -> wps unmount_fs (fun _ h' => unmounted h' /\ h_inhibited h' = h_inhibited h) h.
Proof.
  intros [I1 I2 I3 I4 I5 I6]. unfold unmount_fs. apply wps_bind, wps_get. rewrite I2. cbn [negb].
  apply wps_ef. eapply wps_mono; [apply wps_wpt, (exfat_unmount_bare (dom (w_heap (h_world h)))); [done |] |].
  { intros p n Hp []. apply elem_of_dom. by exists n. }
  cbn beta. intros _ w' Hb. apply wps_modify. split; [| done]. split; [by eexists | done..].
Qed.

Lemma same_volume_same h : wps same_volume (fun _ h' => h' = h) h.
Proof.
  unfold same_volume. apply wps_bind, wps_get. destruct (negb _); [by apply wps_ret |]. apply wps_ef.
  apply (wps_mono _ (fun _ w' => w' = h_world h)).
  - do 2 apply wps_on_part. unfold State.exfat_pread. apply wps_gets. by destruct (h_world h) as [[] ? ? ?].
  - cbn beta. intros r w' ->. rewrite set_world_id. by destruct r; apply wps_ret.
Qed.

(** Whether or not the medium is still the one that was mounted. *)
Lemma release_mount_bare h : idle h -> wps release_mount (fun _ h' => unmounted h' /\ h_inhibited h' = h_inhibited h) h.
Proof.
  intros I. pose proof I as [I1 I2 _ _ _ _]. unfold release_mount. apply wps_bind, wps_get. rewrite I2. cbn [negb].
  eapply wps_step; [apply same_volume_same |]. cbn beta. intros same h1 ->. destruct same; [by apply unmount_fs_bare |].
  unfold discard_dirty_state. apply wps_bind. apply wps_bind, wps_get. rewrite I2. cbn [negb].
  apply wps_ef. eapply wps_mono; [by apply wps_wpt, discard_quiet |]. cbn beta. intros _ w1 Q1.
  pose proof (quiet_forest _ _ Q1) as Hf1. rewrite <- (wps_bind_ret (on_ef _)). apply wps_ef.
  eapply wps_mono; [by apply wps_wpt, set_ef_quiet |]. cbn beta. intros _ w2 Q2. pose proof (quiet_forest _ _ Q2) as Hf2.
  apply wps_ret, wps_ef. eapply wps_mono; [by apply wps_wpt, set_ef_quiet |]. cbn beta. intros _ w3 Q3.
  pose proof (quiet_forest _ _ Q3) as Hf3. apply (unmount_fs_bare (set_h_world w3 h)). by apply idle_world.
Qed.

(** *** Mounting again *)

(** A volume that was just mounted, before it is listed. *)
Record fresh_mount (h : handler) : Prop := {
  fm_mounted : exists X, mounted X (h_world h);
  fm_flag : h_mounted h = true;
  fm_locks : h_locks h = ∅;
  fm_files : h_files h = ∅;
  fm_counts : h_nlocks h = 0 /\ h_nfiles h = 0;
  fm_volume : h_volume h = None
}.

(** A volume on which nothing is open yet. *)
Lemma serves_start h v : ready (h_world h) -> h_locks h = ∅ -> h_files h = ∅ -> h_nlocks h = 0 -> h_nfiles h = 0 ->
  h_volume h = Some v -> dl_LockList v = None -> serves h.
Proof.
  intros [Hf Hu] Hl Hfs Nl Nf Hv Hn. exists (h_world h). split; [by split |]. split; [constructor; rewrite ?Hl, ?Hfs |].
  - split; [done | by split | done |]. intros q. cbn. unfold refs_of, none. rewrite !map_fold_empty. lia.
  - intros a l. by rewrite lookup_empty.
  - intros a f. by rewrite lookup_empty.
  - by rewrite map_size_empty.
  - by rewrite map_size_empty.
  - exists v, []. split_and!; [done | apply NoDup_nil_2 | by rewrite Hn |]. intros a. rewrite lookup_empty. split; [by intros ?%elem_of_nil | by intros []].
  - intros a. rewrite !lookup_empty. by intros [[] | []].
  - intros a l q. by rewrite Hl, lookup_empty.
Qed.

(** Once it is listed, it is served. *)
Lemma fresh_mount_serves h h' v : fresh_mount h -> tables false h' = tables false h -> h_volume h' = Some v ->
  dl_LockList v = None -> serves h'.
Proof.
  intros [(X & [M1 M2 _ _]) _ Hl Hf [Nl Nf] _] [= E1 E2 E3 E0 E4 E5 E6 E7 E8 E9] Hv Hn.
  apply (serves_start h' v); [split; [by eapply forest_same | by rewrite E0] | congruence.. | done].
Qed.

Lemma soil_mounted X w : mounted X w -> wpt (on_part (S := world) exfat_soil_super_block) (fun _ w' => mounted X w') w.
Proof.
  intros [Hf Hu Hr K]. apply wpt_on_part.
  apply (wpt_mono _ (fun _ v' => CLUSTER_SIZE (ef_sb (v_ef v')) = CLUSTER_SIZE (ef_sb (w_ef w)) /\ ef_upcase (v_ef v') = ef_upcase (w_ef w))).
  - change (w_ef w) with (v_ef (w_vol w)). change (part w) with (w_vol w). generalize (w_vol w). intros v.
    unfold exfat_soil_super_block. apply wpt_bind, wpt_get. destruct (negb _); [by apply wpt_ret |].
    apply wpt_bind, wpt_modify. cbv zeta. set (v1 := set_v_ef _ v).
    assert (E : CLUSTER_SIZE (ef_sb (v_ef v1)) = CLUSTER_SIZE (ef_sb (v_ef v)) /\ ef_upcase (v_ef v1) = ef_upcase (v_ef v)) by done.
    clearbody v1. apply wpt_bind, wpt_get, wpt_bind, wpt_on_part. eapply wpt_mono; [apply wpt_pwrite |]. intros ok e _.
    destruct (negb ok); [by apply wpt_bind, wpt_on_part, wpt_modify, wpt_ret |].
    apply wpt_on_part. eapply wpt_mono; [apply wpt_fsync |]. intros rc e' _. exact E.
  - intros _ v' [E1 E2]. split; [by apply forest_vol | | exact Hr | exact K]. change (ef_upcase (v_ef v') <> []). by rewrite E2.
Qed.

Lemma still_step {A B} vol (m : M handler A) (k : A -> M handler B) Q h : still vol m ->
  (forall a h', tables vol h' = tables vol h -> wps (k a) Q h') -> wps (bind m k) Q h.
Proof. intros Hm Hk. eapply wps_step; [apply Hm |]. intros a h' E. by apply Hk. Qed.

Lemma tables_inhibited vol h h' : tables vol h' = tables vol h -> h_inhibited h' = h_inhibited h.
Proof. by intros [=]. Qed.

Lemma mount_fs_spec sv h : unmounted h ->
  wps (mount_fs sv) (fun b h' => h_inhibited h' = h_inhibited h /\ if b : bool then fresh_mount h' else unmounted h') h.
Proof.
  intros U. unfold mount_fs. apply (still_step true); [apply still_open_spec |]. intros _ h1 E1.
  pose proof (unmounted_tables _ _ E1 U) as U1. rewrite <- (tables_inhibited _ _ _ E1). apply wps_bind, wps_get, wps_ef.
  destruct U1 as [[X B1] B2 B3 B4 B5 B6].
  eapply wps_mono; [apply wps_wpt, (exfat_mount_spec X); [apply (ba_grove _ _ B1) | apply (ba_old _ _ B1)] |]. cbn beta. intros rc w1 Hw.
  destruct (rc =? 0); cbn [negb]; [| by apply wps_ret; split; [| split; [exists X |..]]].
  apply wps_bind, wps_modify, wps_bind, wps_get. eapply (wps_step _ _ (fun _ h' => h_inhibited h' = h_inhibited h1 /\ fresh_mount h')).
  - destruct (negb _).
    + apply wps_ef. eapply wps_mono; [by apply wps_wpt, (soil_mounted X) |]. cbn beta. intros r w2 Hw2. apply wps_ret. split; [done |]. split; [by exists X | done..].
    + apply wps_ret. split; [done |]. split; [by exists X | done..].
  - cbn beta. intros _ h2 [E2 Hm]. by apply wps_ret.
Qed.

(** *** The handlers *)

(** What serving packets keeps: a volume with its locks and files, or nothing mounted
    while inhibited. *)
Definition consistent (h : handler) : Prop :=
  (h_mounted h = true /\ serves h) \/ (h_inhibited h = true /\ unmounted h).

Lemma remove_volume_spec sv h : wps (remove_volume sv) (fun _ h' => tables false h' = tables false h /\ h_volume h' = None) h.
Proof.
  apply wps_conj; [apply still_remove_volume |]. unfold remove_volume. apply wps_bind, wps_get.
  destruct (h_volume h) eqn:Hv; [| by apply wps_ret].
  eapply still_step; [apply (still_ask (vol := false)) |]. intros locked h1 _.
  eapply (still_step false); [unfold set_volume; destruct locked; still |]. intros _ h2 _.
  eapply (still_step false); [still |]. intros _ h3 _. by apply wps_modify.
Qed.

(** Not a mounted volume that could not be listed. *)
Definition listed (h : handler) : Prop := h_mounted h = true -> h_volume h <> None.

(** The volume is unlisted and given up. *)
Lemma abandon_volume sv h : idle (set_h_volume None h) ->
  wps (remove_volume sv;; release_mount) (fun _ h' => unmounted h' /\ h_inhibited h' = h_inhibited h) h.
Proof.
  intros I. eapply wps_step; [apply remove_volume_spec |]. cbn beta. intros _ h1 [E1 Hv]. pose proof (idle_tables _ _ E1 Hv I) as I1.
  eapply wps_mono; [by apply release_mount_bare |]. cbn beta. intros [] h2 [U2 Hi2]. split; [done |].
  by rewrite Hi2, (tables_inhibited _ _ _ E1).
Qed.

Lemma release_if_idle_consistent sv h : consistent h -> few h -> wps (release_if_idle sv) (fun _ h' => consistent h') h.
Proof.
  intros C F. unfold release_if_idle. apply wps_bind, wps_get.
  destruct (h_inhibited h) eqn:Hi; [| by apply wps_ret]. destruct C as [[Hm L] | [_ U]].
  - rewrite Hm. cbn [andb]. destruct (_ && _) eqn:Hz; [| apply wps_ret; by left].
    eapply wps_mono; [by apply abandon_volume, serves_idle |]. cbn beta. intros _ h' [U' Hi']. right. split; [congruence | done].
  - rewrite (un_mounted _ U). cbn. apply wps_ret. by right.
Qed.

(** A volume is listed, with no locks, or none is. *)
Lemma add_volume_spec h : wps add_volume (fun _ h' => tables false h' = tables false h /\ (h_volume h' = h_volume h \/
  exists v, h_volume h' = Some v /\ dl_LockList v = None)) h.
Proof.
  apply wps_conj; [apply still_add_volume |]. unfold add_volume. apply wps_bind, wps_get.
  assert (Hsame : forall h1 h2, tables true h2 = tables true h1 -> h_volume h2 = h_volume h1) by by intros ? ? [=].
  eapply (still_step true); [apply still_AllocVec |]. intros [a |] h1 E1%Hsame; [| by apply wps_ret; left].
  apply wps_bind, wps_get, wps_bind, wps_modify, wps_bind, wps_modify.
  eapply (still_step true); [apply still_ask |]. intros ok h2 E2%Hsame. destruct (negb ok); [apply wps_modify; left; hs; congruence |].
  apply wps_bind, wps_modify, wps_modify. right. by eexists.
Qed.

Lemma serves_reply a b h : serves h -> wps (reply a b) (fun _ h' => serves h' /\ h_mounted h' = h_mounted h /\ h_inhibited h' = h_inhibited h) h.
Proof. intros L. apply wps_modify. split; [| done]. by eapply serves_same. Qed.

Lemma consistent_same h h' : tables true h' = tables true h -> h_world h' = h_world h -> h_fresh h' = h_fresh h -> consistent h -> consistent h'.
Proof.
  intros E Ew Ef C. pose proof E as [= E1 E2 E3 E4 E5 E6 E7 E8 E9 E10 E11]. destruct C as [[Hm L] | [Hi U]]; [left | right].
  - split; [congruence |]. eapply serves_same; [exact L | done.. | by rewrite E11 | by rewrite Ef].
  - split; [congruence | by eapply unmounted_tables].
Qed.

Lemma consistent_reply a b h : consistent h -> wps (reply a b) (fun _ h' => consistent h') h.
Proof. intros C. by apply wps_modify, (consistent_same h). Qed.

Lemma reattach_serves sv h : serves h -> wps (reattach sv) (fun _ h' => serves h' /\ h_mounted h' = h_mounted h) h.
Proof.
  intros L. unfold reattach. apply wps_bind, wps_get. destruct (h_volume h) as [v |] eqn:Hv; [| by apply wps_ret].
  assert (Hask : forall h, wps ask (fun _ h' => exists ans, h' = set_h_answers ans h) h).
  { intros h1. unfold wps, ask. destruct (h_answers h1) eqn:E; [exists [] | by eexists]. destruct h1. cbn in *. by subst. }
  eapply wps_step; [apply Hask |]. cbn beta. intros locked h1 [ans1 ->]. cbv zeta. apply wps_bind, wps_modify.
  set (h2 := set_h_volume _ _). assert (L2 : serves h2).
  { eapply serves_same; [exact L | reflexivity.. | | reflexivity]. unfold h2. hs. by rewrite Hv. }
  assert (Em : h_mounted h2 = h_mounted h) by done. clearbody h2.
  match goal with |- wps (if ?b then _ else _) _ _ => destruct b end; [by apply wps_ret |].
  eapply wps_step; [apply Hask |]. cbn beta. intros ok h3 [ans3 ->].
  destruct ok; [apply wps_modify | apply wps_ret]; (split; [by eapply serves_same | done]).
Qed.

(** Inhibiting: the volume is parked, or given up when nothing is open. *)
Lemma inhibit_consistent sv h : consistent h -> few h -> h_inhibited h = false ->
  wps ((if (h_nlocks h =? 0) && (h_nfiles h =? 0) then remove_volume sv;; release_mount else park);;
       modify (set_h_inhibited true);; reply_err 0) (fun _ h' => consistent h') h.
Proof.
  intros [[Hm L] | [Hi _]] F Hinh; [| congruence].
  eapply (wps_step _ _ (fun _ h' => unmounted h' \/ (h_mounted h' = true /\ serves h'))).
  - destruct (_ && _) eqn:Hz.
    + eapply wps_mono; [by apply abandon_volume, serves_idle |]. cbn beta. intros _ h' [U _]. by left.
    + eapply wps_mono; [by apply park_serves |]. cbn beta. intros _ h' (L' & Hm' & _). right. split; [congruence | done].
  - cbn beta. intros _ h1 C. apply wps_bind, wps_modify, consistent_reply. destruct C as [[? ? ? ? ? ?] | [Hm1 L1]].
    + right. split; [done | by split].
    + left. split; [done | by eapply serves_same].
Qed.

Lemma still_if_mount sv (found : bool) h : unmounted h ->
  wps (if found then mount_fs sv else ret false) (fun b h' => h_inhibited h' = h_inhibited h /\ if b : bool then fresh_mount h' else unmounted h') h.
Proof. intros U. destruct found; [by apply mount_fs_spec | by apply wps_ret]. Qed.

(** Releasing when nothing is mounted: mount what is there. *)
Lemma remount_consistent sv h : unmounted h -> h_inhibited h = true ->
  wps (spec_from_envec;;
       let! found := resolve_extent sv false in
       let! ok := if found : bool then mount_fs sv else ret false in
       if negb ok then reply DOSFALSE ERROR_NOT_A_DOS_DISK
       else
         add_volume;;
         modify (set_h_inhibited false);;
         reply DOSTRUE 0;;
         activate_partitions) (fun _ h' => listed h' -> consistent h') h.
Proof.
  intros U Hi. apply (still_step true); [apply still_spec_from_envec |]. intros _ h1 E1.
  apply (still_step true); [apply still_resolve_extent |]. intros found h2 E2. rewrite E1 in E2.
  pose proof (unmounted_tables _ _ E2 U) as U2. rewrite <- (tables_inhibited _ _ _ E2) in Hi.
  eapply wps_step; [by apply still_if_mount |]. cbn beta. intros ok h3 [Hi3 Hok]. destruct ok; cbn [negb].
  - eapply wps_step; [apply add_volume_spec |]. cbn beta. intros _ h4 [E4 Hv]. apply wps_bind, wps_modify.
    apply (still_step true); [apply still_reply |]. intros _ h5 E5.
    eapply wps_mono; [apply (still_activate true) |]. cbn beta. intros _ h6 E6 Hl. rewrite E5 in E6. left.
    destruct Hok as [M1 M2 M3 M4 M5 M6]. assert (M : fresh_mount (set_h_inhibited false h3)) by done.
    injection E4 as A1 A2 A3 A4 A5 A6 A7 A8 A9 A10. injection E6 as B1 B2 B3 B4 B5 B6 B7 B8 B9 B10 B11.
    split; [congruence |]. destruct Hv as [Hv | (v & Hv & Hn)]; [destruct Hl; congruence |].
    eapply (fresh_mount_serves _ h6 v M); [unfold tables; hs; congruence | congruence | done].
  - eapply wps_mono; [apply consistent_reply; right; split; [congruence | done] |]. done.
Qed.

(** Releasing a parked volume: it is attached again if it is still there. *)
Lemma resume_consistent sv h : serves h -> h_mounted h = true ->
  wps (let! same := same_volume in
       if negb same then reply DOSFALSE ERROR_OBJECT_IN_USE
       else
         let! err := if negb (read_only h) then set_volume_dirty true else ret 0 in
         (if err =? 0 then reattach sv;; modify (set_h_inhibited false) else ret tt);;
         reply_err err) (fun _ h' => consistent h') h.
Proof.
  intros L Hm. eapply wps_step; [apply same_volume_same |]. cbn beta. intros same h1 ->.
  destruct (negb same); [by apply consistent_reply; left |].
  eapply (wps_step _ _ (fun _ h' => serves h' /\ h_mounted h' = true)).
  { destruct (negb _); [| by apply wps_ret]. eapply wps_mono; [by apply set_volume_dirty_serves |]. cbn beta.
    intros err h1 [L1 [w1 ->]]. by split. }
  cbn beta. intros err h1 [L1 Hm1].
  eapply (wps_step _ _ (fun _ h' => serves h' /\ h_mounted h' = true)).
  { destruct (err =? 0); [| by apply wps_ret]. eapply wps_step; [by apply reattach_serves |]. cbn beta. intros _ h2 [L2 Hm2].
    apply wps_modify. split; [by eapply serves_same | hs; congruence]. }
  cbn beta. intros _ h2 [L2 Hm2]. by apply consistent_reply; left.
Qed.

Lemma do_inhibit_consistent sv on h : consistent h -> few h -> wps (do_inhibit sv on) (fun _ h' => listed h' -> consistent h') h.
Proof.
  intros C F. unfold do_inhibit. cbv zeta. apply wps_bind, wps_get.
  assert (Hweak : forall (m : M handler unit), wps m (fun _ h' => consistent h') h -> wps m (fun _ h' => listed h' -> consistent h') h).
  { intros m Hw. eapply wps_mono; [exact Hw |]. done. }
  destruct (negb (on =? 0)) eqn:Eon, (h_inhibited h) eqn:Hi; cbn [andb negb].
  - by apply Hweak, consistent_reply.
  - by apply Hweak, inhibit_consistent.
  - destruct C as [[Hm L] | [_ U]].
    + rewrite Hm. cbn [negb]. by apply Hweak, resume_consistent.
    + rewrite (un_mounted _ U). cbn [negb]. by apply remount_consistent.
  - by apply Hweak, consistent_reply.
Qed.

(** ** The sizes of the tables *)

Definition no_more (h h' : handler) : Prop :=
  (size (h_locks h') <= size (h_locks h))%nat /\ (size (h_files h') <= size (h_files h))%nat.

(** When [m] returns, the tables have not grown. *)
Definition shrinks {A} (m : M handler A) : Prop := forall h a h', m h = Ok a h' -> no_more h h'.

Lemma shrinks_bind {A B} (m : M handler A) (f : A -> M handler B) : shrinks m -> (forall a, shrinks (f a)) -> shrinks (bind m f).
Proof.
  intros Hm Hf h b h'. unfold bind. destruct (m h) as [a h1 | |] eqn:E; [| done..]. intros E'.
  destruct (Hm _ _ _ E), (Hf _ _ _ _ E'). split; lia.
Qed.

Lemma shrinks_ret {A} (a : A) : shrinks (ret a).
Proof. by intros h b h' [= <- <-]. Qed.

Lemma shrinks_get : shrinks get_state.
Proof. by intros h b h' [= <- <-]. Qed.

Lemma shrinks_modify f : (forall h, no_more h (f h)) -> shrinks (modify f).
Proof. intros Hf h b h' [= <- <-]. apply Hf. Qed.

Lemma shrinks_ef {A} (m : M world A) : shrinks (on_ef m).
Proof. intros h a h'. unfold on_ef, on_part. destruct (m (part h)); [| done..]. by intros [= <- <-]. Qed.

Lemma shrinks_deref_lock lock : shrinks (deref_lock lock).
Proof. destruct lock as [a |]; [| done]. intros h l h'. cbn. destruct (h_locks h !! a); [| done]. by intros [= <- <-]. Qed.

Lemma shrinks_deref_file file : shrinks (deref_file file).
Proof. destruct file as [a |]; [| done]. intros h l h'. cbn. destruct (h_files h !! a); [| done]. by intros [= <- <-]. Qed.

Lemma shrinks_assign_lock lock f : shrinks (assign_lock lock f).
Proof.
  destruct lock as [a |]; [| done]. intros h l h'. unfold assign_lock, bind. cbn. destruct (h_locks h !! a) eqn:E; [| done].
  intros [= _ <-]. split; [| done]. hs. by rewrite map_size_insert, E.
Qed.

Lemma shrinks_diverge {A} : shrinks (diverge : M handler A).
Proof. done. Qed.

Create HintDb shrinks.
Hint Resolve shrinks_ret shrinks_get shrinks_ef shrinks_deref_lock shrinks_deref_file shrinks_assign_lock shrinks_diverge : shrinks.

Lemma size_delete_le {A} (m : gmap addr A) a : (size (delete a m) <= size m)%nat.
Proof. rewrite map_size_delete. destruct (m !! a); cbn; lia. Qed.

Ltac shrinks :=
  repeat (cbn beta iota zeta; lazymatch goal with
  | |- shrinks (bind _ _) => apply shrinks_bind; [| intros]
  | |- shrinks (modify _) => apply shrinks_modify; intros; split; hs; auto using size_delete_le
  | |- shrinks (match ?x with _ => _ end) => destruct x
  | |- shrinks _ => solve [auto with shrinks]
  end).

Lemma shrinks_unlink_lock lock : forall fuel prev cur, shrinks (unlink_lock fuel prev cur lock).
Proof. induction fuel as [| fuel IH]; intros prev cur; cbn [unlink_lock]; unfold set_link, set_volume; shrinks. Qed.
Hint Resolve shrinks_unlink_lock : shrinks.

Lemma shrinks_freelock lock : shrinks (exfat_amiga_freelock lock).
Proof. unfold exfat_amiga_freelock. shrinks. Qed.

Lemma shrinks_reply a b : shrinks (reply a b).
Proof. unfold reply, emit. shrinks. Qed.
Hint Resolve shrinks_freelock shrinks_reply : shrinks.

Lemma shrinks_end file : shrinks (do_end file).
Proof. unfold do_end. shrinks. Qed.

Lemma few_less h h' : few h -> no_more h h' -> few h'.
Proof. intros [? ?] [? ?]. split; lia. Qed.

Lemma wps_shrinks {A} (m : M handler A) Q h : shrinks m -> wps m Q h -> wps m (fun a h' => Q a h' /\ no_more h h') h.
Proof. intros Hm. unfold wps. destruct (m h) as [a h' | [] |] eqn:E; try done. intros HQ. split; [done | by eapply Hm]. Qed.
End Discard.
