(* ===== verification/HandlerSession.v ===== *)
(** * HandlerSession: any sequence of packets (amiga/handler.c)

    A session starts with a volume that was just mounted, or with none, and serves any
    packets that AmigaDOS may send.  As long as neither of the two outcomes that
    [outcome_ok] names has occurred, the tree of nodes is whole, the references of its
    nodes are those of the locks and files that AmigaDOS holds, and the next packet ends
    without the use of a null or freed pointer.  The same conditions, put on the batches
    that a process finds at its port, make the whole process end or go on, and every
    packet is answered. *)

From Stdlib Require Import ZArith Lia.
From stdpp Require Import base numbers list gmap.
From S2P Require Import Prelude Bytes Monad Ondisk DevIo State Utf Bitmap Geometry Cluster FileIO Utils ExfatTime Entries EntriesSpec DirTerm NodeTerm NodeTree TreeSpec TreeReset Lookup LookupSpec TreeSafe TreeMove Dir DirSafe Mount MountSafe FuseSpec PartTable Amigaos Mkfs Format Handler HandlerLocks HandlerSpec HandlerReply HandlerMount.

#[local] Open Scope Z_scope.

Section Session.
Context `{Platform}.

(** What AmigaDOS sends: locks and files are null or were given to it and not taken
    back, and a file is not written beyond the range of a position. *)
Definition packet_ok (h : handler) (pkt : packet) : Prop :=
  match pkt with
  | ACTION_LOCATE_OBJECT base _ | ACTION_FINDINPUT _ base _ | ACTION_FINDOUTPUT _ base _ | ACTION_FINDUPDATE _ base _
  | ACTION_SET_PROTECT base _ _ | ACTION_SET_DATE base _ _ | ACTION_SET_COMMENT base _ _ | ACTION_DELETE_OBJECT base _
  | ACTION_CREATE_DIR base _ => lock_ok h base
  | ACTION_FREE_LOCK lock | ACTION_COPY_DIR lock | ACTION_PARENT lock | ACTION_EXAMINE_OBJECT lock _
  | ACTION_EXAMINE_NEXT lock _ | ACTION_FH_FROM_LOCK _ lock => lock_ok h lock
  | ACTION_SAME_LOCK a b | ACTION_RENAME_OBJECT a _ b _ => lock_ok h a /\ lock_ok h b
  | ACTION_COPY_DIR_FH file | ACTION_PARENT_FH file | ACTION_EXAMINE_FH file _ | ACTION_READ file _ _
  | ACTION_SEEK file _ _ | ACTION_SET_FILE_SIZE file _ _ | ACTION_END file => file_ok h file
  | ACTION_WRITE file _ _ => file_ok h file /\ pos_ok h file
  | _ => True
  end.

(** All outcomes but two, after which the code can use a node that it has freed
    (HandlerLife.v has a session for each): a volume that is mounted again when there is no memory for
    its node in the list, and a refused rename that has freed the node at which a scan
    was to go on. *)
Definition outcome_ok (h : handler) (pkt : packet) (h' : handler) : Prop :=
  match pkt with
  | ACTION_INHIBIT _ => listed h'
  | ACTION_RENAME_OBJECT _ _ _ _ => granted h h' \/ scans_live h'
  | _ => True
  end.

(** A packet for a volume that is served. *)
Lemma medium_step w0 n (m : M handler unit) (R : handler -> Prop) h : ready w0 -> h_mounted h = true -> replying true n m ->
  wps m (fun _ h' => R h' -> live w0 none h') h -> wps m (fun _ h' => R h' -> consistent h') h.
Proof.
  intros Hw Hm Hr. unfold wps. destruct (m h) as [[] h' | [] |] eqn:E; try done. intros L HR. left.
  destruct (Hr _ _ _ E) as [_ K]. injection (K eq_refl) as Km _ _. split; [congruence |]. exists w0. auto.
Qed.

Lemma rename_live w0 h srcbase src dstbase dst : ready w0 -> live w0 none h -> lock_ok h srcbase -> lock_ok h dstbase ->
  wps (do_rename_object srcbase src dstbase dst)
    (fun _ h' => outcome_ok h (ACTION_RENAME_OBJECT srcbase src dstbase dst) h' -> live w0 none h') h.
Proof.
  intros Hw L H1 H2. eapply wps_mono; [by apply rename_object_serving |]. cbn beta. intros _ h' [S G] [Hg | Hs].
  - split; [exact S | by apply G].
  - by split.
Qed.

(** Packets for the medium. *)
Lemma medium_packet w0 sv pkt h : ready w0 -> live w0 none h -> h_mounted h = true -> packet_ok h pkt -> needs_medium pkt = true ->
  wps (dispatch sv pkt) (fun _ h' => outcome_ok h pkt h' -> consistent h') h.
Proof.
  intros Hw L Hm Hp Hn. eapply medium_step; [exact Hw | exact Hm | |].
  - destruct pkt; try done; cbn [dispatch]; auto with replying.
  - destruct pkt; try done; cbn [dispatch packet_ok] in *; destruct_and?; try by apply rename_live.
    all: eapply (wps_mono _ (fun _ h' => live w0 none h')); [| done].
    all: first [by apply locate_object_live | by apply copy_dir_live | by apply lock_from_fh_live | by apply parent_live
      | by apply examine_object_live | by apply examine_next_live | by apply examine_fh_live | by apply open_live
      | by apply fh_from_lock_live | by apply read_live | by apply write_live | by apply seek_live
      | by apply set_file_size_live | by apply set_protect_live | by apply set_date_live | by apply set_comment_live
      | by apply delete_object_live | by apply create_dir_live | by apply rename_disk_live].
Qed.

(** *** The other packets *)

Lemma emit_consistent e h : consistent h -> wps (emit e) (fun _ h' => consistent h') h.
Proof. intros C. by apply wps_modify, (consistent_same h). Qed.

(** A packet that serves a volume, and does nothing when none is mounted. *)
Lemma both_ways n (m : M handler unit) h : consistent h -> (unmounted h -> wps m (fun _ h' => consistent h') h) ->
  replying true n m -> (forall w0, ready w0 -> live w0 none h -> wps m (fun _ h' => live w0 none h') h) ->
  wps m (fun _ h' => consistent h') h.
Proof.
  intros [[Hm (w0 & Hw & L)] | [Hi U]] Hun Hr Hl; [| by apply Hun].
  eapply (wps_mono _ (fun _ h' => True -> consistent h')); [| auto].
  eapply (medium_step w0 n m (fun _ => True)); [done | done | done |]. eapply wps_mono; [by apply Hl |]. done.
Qed.

Lemma no_lock h lock : unmounted h -> lock_ok h lock -> lock = None.
Proof. intros U. destruct lock as [a |]; [| done]. cbn. rewrite (un_locks _ U), lookup_empty. by intros []. Qed.

Lemma no_file h file : unmounted h -> file_ok h file -> file = None.
Proof. intros U. destruct file as [a |]; [| done]. cbn. rewrite (un_files _ U), lookup_empty. by intros []. Qed.

(** A lock or a file is given back, and then the volume if it was the last one. *)
Lemma give_back_packet {A} sv (m : M handler A) (k : M handler unit) h : few h -> shrinks m -> shrinks k ->
  wps (m;; k) (fun _ h' => consistent h') h -> wps (m;; k;; release_if_idle sv) (fun _ h' => consistent h') h.
Proof.
  intros F Hm Hk Hw. assert (Hmk : shrinks (m;; k)) by by apply shrinks_bind.
  pose proof (wps_shrinks _ _ _ Hmk Hw) as Hs. unfold wps, bind in *.
  destruct (m h) as [a h1 | [] |]; try done. destruct (k h1) as [[] h2 | [] |]; try done. destruct Hs as [C2 N2].
  apply release_if_idle_consistent; [done |]. by eapply few_less.
Qed.

Lemma free_lock_packet sv lock h : consistent h -> few h -> lock_ok h lock ->
  wps (exfat_amiga_freelock lock;; reply DOSTRUE 0;; release_if_idle sv) (fun _ h' => consistent h') h.
Proof.
  intros C F Ho. apply give_back_packet; [done | apply shrinks_freelock | apply shrinks_reply |].
  eapply wps_step; [apply (both_ways 0 (exfat_amiga_freelock lock)) |]; [done | | apply replying_freelock | |].
  - intros U. rewrite (no_lock h lock U Ho). by apply wps_ret.
  - intros w0 Hw L. eapply wps_mono; [by apply (freelock_live w0 Hw none) |]. by intros _ h' [].
  - cbn beta. intros _ h1 C1. by apply consistent_reply.
Qed.

Lemma end_packet sv file h : consistent h -> few h -> file_ok h file ->
  wps (do_end file;; release_if_idle sv) (fun _ h' => consistent h') h.
Proof.
  intros C F Ho.
  assert (Hw : wps (do_end file) (fun _ h' => consistent h' /\ no_more h h') h).
  { apply wps_shrinks; [apply shrinks_end |]. apply (both_ways 1); [done | | apply replying_end |].
    - intros U. rewrite (no_file h file U Ho). unfold do_end. apply wps_bind, wps_ret. by apply consistent_reply.
    - intros w0 Hw L. by apply end_live. }
  eapply wps_step; [exact Hw |]. cbn beta. intros _ h1 [C1 N1]. apply release_if_idle_consistent; [done | by eapply few_less].
Qed.

Lemma same_lock_packet a b h : consistent h -> lock_ok h a -> lock_ok h b -> wps (do_same_lock a b) (fun _ h' => consistent h') h.
Proof.
  intros C Ha Hb. apply (both_ways 1); [done | | apply replying_same_lock | intros w0 Hw L; by apply same_lock_live].
  intros U. rewrite (no_lock h a U Ha), (no_lock h b U Hb). unfold do_same_lock. apply wps_bind, wps_gets, wps_bind, wps_gets.
  by apply consistent_reply.
Qed.

Lemma flush_packet h : consistent h -> wps do_flush (fun _ h' => consistent h') h.
Proof.
  intros C. apply (both_ways 1); [done | | apply replying_flush | intros w0 Hw L; by apply flush_packet_live].
  intros U. unfold do_flush. apply wps_bind, wps_get. rewrite (un_mounted _ U), andb_false_r. apply wps_bind, wps_ret. by apply consistent_reply.
Qed.

Lemma format_packet sv label h : consistent h -> wps (do_format sv label) (fun _ h' => consistent h') h.
Proof.
  intros [[Hm L] | [Hi U]].
  - unfold do_format. apply wps_bind, wps_get. rewrite Hm, orb_true_r. destruct (_ && _); by apply consistent_reply; left.
  - eapply wps_mono; [apply (still_format true) |]. cbn beta. intros _ h' E. right. rewrite (tables_inhibited _ _ _ E). split; [done |].
    by eapply unmounted_tables.
Qed.

Lemma info_packet h : consistent h -> wps do_info (fun _ h' => consistent h') h.
Proof.
  intros C. unfold do_info. apply wps_bind, wps_get. eapply wps_step; [by apply emit_consistent |]. cbn beta. intros _ h1 C1.
  by apply consistent_reply.
Qed.

Lemma die_packet h : consistent h -> wps do_die (fun _ h' => consistent h') h.
Proof.
  intros C. unfold do_die. apply wps_bind, wps_get. destruct (_ || _); [by apply consistent_reply |].
  apply wps_bind, wps_modify, consistent_reply. by eapply consistent_same; [..| exact C].
Qed.

(** One packet. *)
Lemma serve_consistent sv pkt h : consistent h -> few h -> packet_ok h pkt ->
  wps (serve sv pkt) (fun _ h' => outcome_ok h pkt h' -> consistent h') h.
Proof.
  intros C F Hp. unfold serve. apply wps_bind, wps_get. destruct (needs_medium pkt) eqn:Hn.
  - rewrite andb_true_r. destruct (h_inhibited h) eqn:Hi.
    + eapply wps_mono; [by apply consistent_reply |]. done.
    + destruct C as [[Hm (w0 & Hw & L)] | [? _]]; [| congruence]. by eapply medium_packet.
  - rewrite andb_false_r. destruct pkt; try done; cbn [dispatch packet_ok] in *; destruct_and?.
    all: try (eapply wps_mono; [by apply do_inhibit_consistent |]; cbn beta; intros _ h' Hl ?; by apply Hl).
    all: eapply (wps_mono _ (fun _ h' => consistent h')); [| done].
    all: first [by apply free_lock_packet | by apply same_lock_packet | by apply end_packet | by apply format_packet
      | by apply info_packet | by apply flush_packet | by apply die_packet | by apply consistent_reply | idtac].
    apply wps_bind, wps_get. by apply emit_consistent.
Qed.

(** ** Sessions *)

(** The states that packets lead to from [h0]. *)
Inductive session (h0 : handler) : handler -> Prop :=
| session_start : session h0 h0
| session_step h sv pkt h' : session h0 h -> few h -> packet_ok h pkt -> serve sv pkt h = Ok tt h' ->
    outcome_ok h pkt h' -> session h0 h'.

Lemma session_consistent h0 h : consistent h0 -> session h0 h -> consistent h.
Proof.
  intros C0. induction 1 as [| h sv pkt h' _ C F Hp E Ho]; [done |].
  pose proof (serve_consistent sv pkt h C F Hp) as Hs. unfold wps in Hs. rewrite E in Hs. auto.
Qed.
(** ** The process *)

(** AmigaDOS keeps its rules for the packets of a batch, and none of them has one of the
    two outcomes. *)
Fixpoint drain_ok (pkts : list (system_view * packet)) (h : handler) : Prop :=
  match pkts with
  | [] => True
  | (sv, pkt) :: pkts =>
      few h /\ packet_ok h pkt /\
      match serve sv pkt h with Ok _ h' => outcome_ok h pkt h' /\ drain_ok pkts h' | _ => True end
  end.

Fixpoint batches_ok (batches : list (list (system_view * packet))) (h : handler) : Prop :=
  match batches with
  | [] => True
  | batch :: batches =>
      if h_quit h then True
      else drain_ok batch h /\ match drain batch h with Ok _ h' => batches_ok batches h' | _ => True end
  end.

Lemma drain_consistent : forall pkts h, consistent h -> drain_ok pkts h -> wps (drain pkts) (fun _ h' => consistent h') h.
Proof.
  induction pkts as [| [sv pkt] pkts IH]; intros h C; cbn [drain drain_ok]; [by intros _; apply wps_ret |].
  intros (F & P & O). pose proof (serve_consistent sv pkt h C F P) as Hs. unfold wps, bind in *.
  destruct (serve sv pkt h) as [[] h1 | [] |]; try done. destruct O as [O D]. by apply IH; [apply Hs |].
Qed.

Lemma packet_loop_consistent : forall batches h, consistent h -> batches_ok batches h ->
  wps (packet_loop batches) (fun _ h' => consistent h') h.
Proof.
  induction batches as [| batch batches IH]; intros h C; cbn [packet_loop batches_ok]; intros B; apply wps_bind, wps_get;
    (destruct (h_quit h); [by apply wps_ret |]); [by apply wps_ret |].
  destruct B as [D B]. pose proof (drain_consistent batch h C D) as Hd. unfold wps, bind in *.
  destruct (drain batch h) as [[] h1 | [] |]; try done. by apply IH.
Qed.

Lemma still_release_partition vol : still vol release_partition.
Proof. unfold release_partition. apply still_get. intros h. destruct (h_claim h); [| apply still_ret]. apply still_bind; [apply still_emit | intros]. by apply still_modify. Qed.

(** The startup message names its device. *)
Definition names_device (fssm : option FileSysStartupMsg) : Prop :=
  match fssm with Some f => is_Some (fssm_Environ f) -> is_Some (fssm_Device f) | None => True end.

Lemma startup_spec sv devlist fssm h : names_device fssm -> unmounted h ->
  wps (startup sv devlist fssm) (fun b h' => if b : bool then fresh_mount h' else unmounted h') h.
Proof.
  intros Hn U. unfold startup. apply wps_bind, wps_modify.
  assert (U0 : unmounted (set_h_devlist devlist h)) by by apply (unmounted_tables h).
  destruct fssm as [f |]; [| by apply wps_ret]. cbn in Hn. destruct (fssm_Environ f) as [de |]; [| by apply wps_ret].
  destruct (Hn ltac:(done)) as [devname ->]. apply wps_bind, wps_modify.
  apply (still_step true); [apply still_spec_from_envec |]. intros _ h1 E1.
  apply (still_step true); [apply still_resolve_extent |]. intros ok h2 E2. rewrite E1 in E2.
  assert (U2 : unmounted h2) by by apply (unmounted_tables (set_h_devlist devlist h)).
  destruct (negb ok); [by apply wps_ret |]. apply wps_bind, wps_modify.
  eapply wps_mono; [by apply mount_fs_spec, (unmounted_tables h2) |]. by intros b h3 [].
Qed.

(** The answer to the startup packet, when it is granted. *)
Definition answer_startup : M handler unit := reply DOSTRUE 0;; add_volume;; activate_partitions.

Lemma answer_startup_consistent h : fresh_mount h -> wps answer_startup (fun _ h' => listed h' -> consistent h') h.
Proof.
  intros M. unfold answer_startup. apply (still_step true); [apply still_reply |]. intros _ h1 E1.
  eapply wps_step; [apply add_volume_spec |]. cbn beta. intros _ h2 [E2 Hv].
  eapply wps_mono; [apply (still_activate true) |]. cbn beta. intros _ h3 E3 Hl. left. pose proof M as [M1 M2 M3 M4 M5 M6].
  injection E1 as A1 A2 A3 A4 A5 A6 A7 A8 A9 A10 A11. injection E2 as B1 B2 B3 B4 B5 B6 B7 B8 B9 B10.
  injection E3 as C1 C2 C3 C4 C5 C6 C7 C8 C9 C10 C11. split; [congruence |].
  destruct Hv as [Hv | (v & Hv & Hn)]; [destruct Hl; congruence |].
  eapply (fresh_mount_serves h h3 v M); [unfold tables; congruence | congruence | done].
Qed.

(** The end of the process, whatever is still open. *)
Lemma shutdown_ends sv h : consistent h ->
  wps (remove_volume sv;; modify (fun h => set_h_devlist (set_dol_Task false (h_devlist h)) h);; unmount_fs;;
       release_partition;; ret (Some RETURN_OK)) (fun _ _ => True) h.
Proof.
  intros C. eapply wps_step; [apply remove_volume_spec |]. cbn beta. intros _ h1 [E1 _]. apply wps_bind, wps_modify.
  eapply (wps_step _ _ (fun _ _ => True)).
  2: { intros _ h2 _. apply (still_step true); [apply still_release_partition |]. intros _ h3 _. by apply wps_ret. }
  injection E1 as A1 A2 A3 A4 A5 A6 A7 A8 A9 A10. unfold unmount_fs. apply wps_bind, wps_get. hs.
  destruct C as [[Hm L] | [_ U]]; [rewrite A9, Hm | by rewrite A9, (un_mounted _ U); apply wps_ret]. cbn [negb].
  apply wps_ef. eapply wps_mono; [apply wps_wpt, (exfat_unmount_bare (dom (w_heap (h_world h1)))) |].
  - by eapply forest_same; [..| apply serves_forest].
  - intros p n Hp []. apply elem_of_dom. by exists n.
  - cbn beta. intros _ w _. by apply wps_modify.
Qed.

(** The startup packet is granted, and the loop starts. *)
Definition opening (sv : system_view) (devlist : DosList) (fssm : option FileSysStartupMsg) : M handler bool :=
  let! dos := ask in
  if negb dos then ret false
  else
    let! ok := startup sv devlist fssm in
    if negb ok then ret false else answer_startup;; ret true.

(** A process that was just started: the handler structure is cleared. *)
Record cleared (h : handler) : Prop := {
  cl_heap : w_heap (h_world h) = ∅;
  cl_root : w_root (h_world h) = None;
  cl_mounted : h_mounted h = false;
  cl_locks : h_locks h = ∅;
  cl_files : h_files h = ∅;
  cl_counts : h_nlocks h = 0 /\ h_nfiles h = 0;
  cl_volume : h_volume h = None
}.

Lemma cleared_unmounted h : cleared h -> unmounted h.
Proof.
  intros [E R ? ? ? ? ?]. split; try done. exists ∅. split; [| done | by rewrite E, dom_empty_L].
  split; rewrite E; intros p; rewrite ?lookup_empty; by try intros []; intros.
Qed.

(** The process was just started, and AmigaDOS and the packets keep to what is asked of
    them: the startup message names a device; if the volume is mounted, there is memory
    for its node in the list; and then the packets are those of [batches_ok]. *)
Definition served_well (sv : system_view) (devlist : DosList) (fssm : option FileSysStartupMsg)
  (batches : list (list (system_view * packet))) (h : handler) : Prop :=
  cleared h /\ names_device fssm /\
  match (AllocVec;; opening sv devlist fssm) h with Ok true h1 => listed h1 /\ batches_ok batches h1 | _ => True end.

Lemma wps_step_eq {A B} (m : M handler A) (f : A -> M handler B) Q R h : wps m Q h ->
  (forall a h', m h = Ok a h' -> Q a h' -> wps (f a) R h') -> wps (bind m f) R h.
Proof. unfold wps, bind. intros Hm Hf. destruct (m h) as [a h' | [] |]; try done. by apply Hf. Qed.

Lemma answer_startup_then {A} (k : M handler A) h :
  (reply DOSTRUE 0;; add_volume;; activate_partitions;; k) h = (answer_startup;; k) h.
Proof.
  unfold answer_startup, bind. destruct (reply DOSTRUE 0 h) as [? h1 | |]; [| done..]. by destruct (add_volume h1).
Qed.

Lemma process_ends sv devlist fssm batches h : unmounted h -> names_device fssm ->
  match opening sv devlist fssm h with Ok true h1 => listed h1 /\ batches_ok batches h1 | _ => True end ->
  wps (handler_process sv devlist fssm batches) (fun _ _ => True) h.
Proof.
  intros U Hn Ho. unfold handler_process. apply (wps_step_eq _ _ _ _ _ (still_ask (vol := true) h)). intros dos h1 E1 Hd.
  unfold opening in Ho. rewrite (bind_ok _ _ _ _ _ E1) in Ho. pose proof (unmounted_tables _ _ Hd U) as U1.
  destruct (negb dos); [apply (still_step true); [apply still_reply |]; intros _ h2 _; by apply wps_ret |].
  apply (wps_step_eq _ _ _ _ _ (startup_spec sv devlist fssm h1 Hn U1)). intros ok h2 E2 Hs.
  rewrite (bind_ok _ _ _ _ _ E2) in Ho. destruct ok; cbn [negb] in *.
  - unfold wps. rewrite answer_startup_then. apply (wps_step_eq _ _ _ _ _ (answer_startup_consistent h2 Hs)).
    intros [] h3 E3 C. rewrite (bind_ok _ _ _ _ _ E3) in Ho. destruct Ho as [Hl Hb].
    eapply wps_step; [by apply packet_loop_consistent, Hb; apply C |]. cbn beta. intros quit h4 C4.
    destruct (negb quit); [by apply wps_ret | by apply shutdown_ends].
  - apply wps_bind, wps_get. rewrite (un_mounted _ Hs). apply wps_bind, wps_ret. apply (still_step true); [apply still_reply |].
    intros _ h3 _. apply (still_step true); [apply still_release_partition |]. intros _ h4 _. by apply wps_ret.
Qed.

Lemma main_ends sv devlist fssm batches h : served_well sv devlist fssm batches h ->
  wps (exfat_handler_main sv devlist fssm batches) (fun _ _ => True) h.
Proof.
  intros (U%cleared_unmounted & Hn & Ho). unfold exfat_handler_main. apply (wps_step_eq _ _ _ _ _ (still_AllocVec true h)). intros mem h1 E Ha.
  rewrite (bind_ok _ _ _ _ _ E) in Ho. destruct mem; [| by apply wps_ret]. apply process_ends; [| done | done].
  by apply (unmounted_tables h).
Qed.
End Session.

(** C5: Serving packets is safe as long as neither of the two outcomes of [outcome_ok] has
    occurred: whatever the medium holds, whichever requests to the device and to AmigaOS
    fail, and in whatever order the packets come, inhibiting, formatting and another
    medium included, at every point the volume is mounted with a whole tree of nodes,
    where the references of each node are those of the locks and open files that AmigaDOS
    holds, or the handler is inhibited with nothing mounted and nothing open; and the
    next packet ends, without the use of a null or freed pointer.  It may stop the
    process with exfat_bug or at an access past an array, and AmigaDOS sends no lock or
    file that it gave back.  The two outcomes are the findings at handler.c:1241, a
    refused rename that has freed the node of a scan, and handler.c:1074, an inhibited
    handler that mounts a volume again and has no memory for its node in the list: what
    is served after them can use a freed node. *)
Theorem handler_session_safe `{Platform} h0 h sv pkt (H0 : consistent h0) (Hs : session h0 h) (Hf : few h)
  (Hp : packet_ok h pkt) :
  consistent h /\ wps (serve sv pkt) (fun _ h' => outcome_ok h pkt h' -> consistent h') h.
Proof. pose proof (session_consistent h0 h H0 Hs) as C. split; [done | by apply serve_consistent]. Qed.

(** C6: Every packet is answered, and none twice.  When [exfat_handler_main] returns, or
    waits for packets, it has answered its startup packet and then sent one reply for
    each packet of the batches that it has served, whatever libexfat, the device and
    AmigaOS answer; it goes to wait only when all of them are served.  The exception is
    the lack of memory for the handler structure: then it returns at once and answers
    nothing.  And it does return: for a process that was just started and is served by
    the rules of AmigaDOS ([served_well]), no request of a batch makes it run for ever
    or use a null or freed pointer; what can stop it is exfat_bug or an access past an
    array. *)
Theorem every_packet_answered `{Platform} sv devlist fssm batches h :
  match exfat_handler_main sv devlist fssm batches h with
  | Ok r h' => exists t, h_trace h' = h_trace h ++ t /\
      if has_memory h then
        exists k, replies t = S (length (concat (take k batches))) /\ (k <= length batches)%nat /\
          (r = None -> k = length batches) /\ (r = Some RETURN_FAIL -> k = 0%nat)
      else r = Some RETURN_FAIL /\ t = []
  | Halt BadPointer _ | Diverge => ~ served_well sv devlist fssm batches h
  | Halt _ _ => True
  end.
Proof.
  pose proof (main_ends sv devlist fssm batches h) as He. unfold wps in He.
  destruct (exfat_handler_main _ _ _ _ _) as [r h' | [] |] eqn:E; try done. by apply (main_replies _ _ _ _ _ _ _ E).
Qed.

#[local] Existing Instance word_le64.

(** A handler with a volume on which nothing is open. *)
Definition demo_handler : handler :=
  mk_handler demo_forest true false false 0 0 (Some (mk_volume 1%N 2%N true None)) None None ∅ ∅ ∅ 3%N
    (mk_doslist None true 0 0 0 0) {| ds_unit := 0; ds_flags := 0; ds_blocksize := 512; ds_maxtransfer := 0; ds_mask := 0;
      ds_firstbyte := 0; ds_length := 16384 |} [] 0 0 (mk_envec 19 128 1 1 0 31 0 0 0) [] 1 None [] [].
Definition demo_view : system_view := mk_view true false 0 0 [1%N] [] None None.

Lemma demo_handler_consistent : consistent demo_handler.
Proof.
  left. split; [done |]. eapply serves_start; [split; [exact demo_forest_ok | done] | done..].
Qed.

(** Two packets: a test for a file system, and the deletion of "A". *)
Lemma handler_session_safe_witness :
  let h := set_h_trace [ReplyPkt (Num DOSTRUE) 0] demo_handler in
  let pkt := ACTION_DELETE_OBJECT None [1; 65] in
  consistent h /\ wps (serve demo_view pkt) (fun _ h' => outcome_ok h pkt h' -> consistent h') h.
Proof.
  apply (handler_session_safe demo_handler); [exact demo_handler_consistent | | by vm_compute | done].
  eapply (session_step _ demo_handler demo_view ACTION_IS_FILESYSTEM); [apply session_start | by vm_compute | done | reflexivity | done].
Defined.
