(* ===== verification/HandlerLife.v ===== *)
(** * HandlerLife: whole lives of the process (amiga/handler.c)

    A small exFAT volume, and processes that mount it: one that is started, serves its
    packets and is told to end; and two sessions with the outcomes that
    [HandlerSession.outcome_ok] leaves out, which end in the use of a freed node. *)

From Stdlib Require Import ZArith Lia.
From stdpp Require Import base numbers list gmap.
From S2P Require Import Prelude Bytes Monad Ondisk DevIo State Geometry Entries LookupSpec Mount MountSpec Amigaos Handler HandlerLocks HandlerReply HandlerMount HandlerSession.

#[local] Open Scope Z_scope.
#[local] Existing Instance word_le64.

(** ** The volume *)

(** Eight clusters of one sector: the bitmap, the up-case table and the root directory
    are in the first three. *)
Definition life_sb : super_block := {|
  sb_jump := [0xeb; 0x76; 0x90]; sb_oem_name := [0x45; 0x58; 0x46; 0x41; 0x54; 0x20; 0x20; 0x20];
  sb___unused1 := zrepeat 0 53;
  sb_sector_start := 0; sb_sector_count := 21; sb_fat_sector_start := 12; sb_fat_sector_count := 1;
  sb_cluster_sector_start := 13; sb_cluster_count := 8; sb_rootdir_cluster := 4;
  sb_volume_serial := 0; sb_version_minor := 0; sb_version_major := 1; sb_volume_state := 0;
  sb_sector_bits := 9; sb_spc_bits := 0; sb_fat_count := 1; sb_drive_no := 0x80;
  sb_allocated_percent := 0; sb___unused2 := zrepeat 0 397; sb_boot_signature := 0xAA55
|}.

(** The sectors that are not zero, evaluated once: the boot record, its checksum, the
    FAT, the table and the directory. *)
Definition life_boot : list Z := Eval vm_compute in super_block_bytes life_sb.
Definition life_checksum : list Z := Eval vm_compute in
  le_bytes 4 (vbr_sum (fun a => if (0 <=? a) && (a <? 512) then znth life_boot a else 0) 512).
Definition life_fat : list Z := Eval vm_compute in flat_map (le_bytes 4) (0xfffffff8 :: zrepeat 0xffffffff 4).
Definition life_upcase : list Z := Eval vm_compute in flat_map (le_bytes 2) demo_upcase.
Definition life_root : list Z := Eval vm_compute in
  entry_bitmap_bytes {| eb_type := EXFAT_ENTRY_BITMAP; eb___unknown1 := zrepeat 0 19; eb_start_cluster := 2; eb_size := 1 |} ++
  entry_upcase_bytes {| eu_type := EXFAT_ENTRY_UPCASE; eu___unknown1 := zrepeat 0 3; eu_checksum := 0;
    eu___unknown2 := zrepeat 0 12; eu_start_cluster := 3; eu_size := 512 |}.

(** The disk: the partition starts at its second sector. *)
Definition life_disk : mem := fun a =>
  match a / 512 - 1 with
  | 0 => znth life_boot (a mod 512)
  | 11 => znth life_checksum (a mod 4)
  | 12 => znth life_fat (a mod 512)
  | 13 => znth [7] (a mod 512)
  | 14 => znth life_upcase (a mod 512)
  | 15 => znth life_root (a mod 512)
  | _ => 0
  end.

(** ** A process *)

(** A disk on which writes of [n] bytes to [off] fail when [bad off n]. *)
Definition life_os (bad : Z -> Z -> bool) : env :=
  mk_env life_disk (os_size demo_os) (os_mode demo_os) (os_rfail demo_os) bad (os_fsync_fails demo_os) (os_clock demo_os)
    (os_ticks demo_os) (os_malloc_fails demo_os) (os_mallocs demo_os) [] 0 0 0.

Definition life_devlist : DosList := mk_doslist None true 0 0 0 0.

(** What a process finds when it starts, and the answers of AmigaDOS to its calls. *)
Definition life_handler (bad : Z -> Z -> bool) (answers : list bool) : handler :=
  mk_handler (mk_world (set_v_os (life_os bad) demo_vol) ∅ None 1%N) false false false 0 0 None None None ∅ ∅ ∅ 3%N
    life_devlist {| ds_unit := 0; ds_flags := 0; ds_blocksize := 0; ds_maxtransfer := 0; ds_mask := 0;
      ds_firstbyte := 0; ds_length := 0 |} [] 0 0 (mk_envec 0 0 0 0 0 0 0 0 0) [] 0 None answers [].

Lemma life_cleared bad answers : cleared (life_handler bad answers).
Proof. by split. Qed.

Definition life_fssm : FileSysStartupMsg := mk_fssm 0 (Some [1; 97]) (Some (mk_envec 19 128 1 1 1 21 0 0 0)) 0.

Definition life (bad : Z -> Z -> bool) (answers : list bool) (batches : list (list packet)) : outcome handler (option Z) :=
  exfat_handler_main demo_view life_devlist (Some life_fssm) (map (map (pair demo_view)) batches) (life_handler bad answers).

(** *** Its whole life *)

Definition never : Z -> Z -> bool := fun _ _ => false.

(** A directory "B" is made, and its lock given back; the process is told to end. *)
Definition life_packets : list (list packet) :=
  [[ACTION_IS_FILESYSTEM; ACTION_CREATE_DIR None [1; 66]; ACTION_FREE_LOCK (Some 6%N)]; [ACTION_DIE]].

Definition replies_of (h : handler) : list effect := List.filter is_reply (h_trace h).

Example whole_life :
  match life never [] life_packets with
  | Ok r h => (r, h_mounted h, replies_of h) = (Some RETURN_OK, false,
      [ReplyPkt (Num DOSTRUE) 0; ReplyPkt (Num DOSTRUE) 0; ReplyPkt (LockPtr 6%N) 0; ReplyPkt (Num DOSTRUE) 0; ReplyPkt (Num DOSTRUE) 0])
  | _ => False
  end.
Proof. by vm_compute. Qed.

Lemma life_served : served_well demo_view life_devlist (Some life_fssm) (map (map (pair demo_view)) life_packets) (life_handler never []).
Proof.
  split; [apply life_cleared |]. split; [by eexists |]. vm_compute. split_and!; try done; by eexists.
Qed.

(** Neither a null or freed pointer, nor a run for ever. *)
Definition comes_to_an_end {A} (o : outcome handler A) : Prop :=
  match o with Halt BadPointer _ | Diverge => False | _ => True end.

(** The theorem of the packets for this life. *)
Lemma every_packet_answered_witness :
  served_well demo_view life_devlist (Some life_fssm) (map (map (pair demo_view)) life_packets) (life_handler never []) /\
  comes_to_an_end (life never [] life_packets).
Proof.
  split; [exact life_served |].
  pose proof (every_packet_answered demo_view life_devlist (Some life_fssm) (map (map (pair demo_view)) life_packets) (life_handler never [])) as Hp.
  unfold life, comes_to_an_end. destruct (exfat_handler_main _ _ _ _ _) as [| [] |]; try exact I; exact (Hp life_served).
Defined.

(** *** The outcomes that are left out *)

Definition life_fib (key : Z) : FileInfoBlock := mk_fib key 0 [] 0 0 0 0 (mk_DateStamp 0 0 0) 0 0 0 [].

(** There is no memory for the node of the volume, the third thing that is asked for.
    The scan of the root by the lock 6 is to go on at "B", which is deleted: the scan
    then uses the freed node. *)
Example unlisted_scan_freed :
  match life never [true; true; false]
    [[ACTION_CREATE_DIR None [1; 66]; ACTION_CREATE_DIR None [1; 67]; ACTION_LOCATE_OBJECT None [0]; ACTION_FREE_LOCK (Some 4%N);
      ACTION_EXAMINE_OBJECT (Some 6%N) (life_fib 0); ACTION_EXAMINE_NEXT (Some 6%N) (life_fib 0);
      ACTION_DELETE_OBJECT None [1; 66]; ACTION_EXAMINE_NEXT (Some 6%N) (life_fib 1)]]
  with Halt BadPointer h => h_mounted h = true /\ h_volume h = None | _ => False end.
Proof. by vm_compute. Qed.

(** A rename of "C" to "B" deletes "B", at which the scan of the root by the lock 9 is to
    go on, and then fails to write the entries of the new name to the free ones at
    7744: the rename is refused, and the scan uses the freed node. *)
Example refused_rename_scan_freed :
  match life (fun off n => (off =? 7744) && (n =? 96)) []
    [[ACTION_CREATE_DIR None (16 :: zrepeat 97 16); ACTION_CREATE_DIR None [1; 66]; ACTION_CREATE_DIR None [1; 67];
      ACTION_LOCATE_OBJECT None [0]; ACTION_FREE_LOCK (Some 6%N); ACTION_FREE_LOCK (Some 7%N); ACTION_FREE_LOCK (Some 8%N);
      ACTION_DELETE_OBJECT None (16 :: zrepeat 97 16);
      ACTION_EXAMINE_OBJECT (Some 9%N) (life_fib 0); ACTION_EXAMINE_NEXT (Some 9%N) (life_fib 0);
      ACTION_RENAME_OBJECT None [1; 67] None [1; 66]; ACTION_EXAMINE_NEXT (Some 9%N) (life_fib 1)]]
  with Halt BadPointer h => h_volume h <> None | _ => False end.
Proof. by vm_compute. Qed.
