(* ===== verification/Control.v ===== *)
(** * Control: the Shell command that controls a volume (amiga/exfatctl.c)

    The command sends packets to the handler and waits for each answer.  Sending a
    packet ([DoPkt]) is here the serving of it by the handler of the device, with no
    packet of another process between the packets of the command.  Its result is the
    first result of the last reply.  What the command prints is left out, except for
    the block of [info]; the arguments that ReadArgs() allocates are freed on every
    path. *)

From Stdlib Require Import ZArith Lia.
From stdpp Require Import base numbers list gmap strings.
From S2P Require Import Prelude Bytes Monad Ondisk DevIo State Utf Bitmap Geometry Cluster FileIO Utils ExfatTime Entries EntriesSpec DirTerm NodeTerm NodeTree TreeSpec TreeReset Lookup LookupSpec TreeSafe TreeMove FlushSpec Dir DirSafe Mount MountSafe FuseSpec PartTable Amigaos Mkfs Format Handler HandlerLocks HandlerSpec HandlerReply HandlerMount HandlerSession MbrScan.

#[local] Open Scope Z_scope.

(** ** Definitions *)

Section Control.
Context `{Platform}.

Definition reply_of (e : effect) : option Z := match e with ReplyPkt (Num z) _ => Some z | _ => None end.
Definition store_of (e : effect) : option InfoData := match e with StoreInfo id => Some id | _ => None end.

(** The result of the packet that was answered last. *)
Definition last_res (t : list effect) : Z := default 0 (last (omap reply_of t)).

(** DoPkt0() and DoPkt1() *)
Definition DoPkt (sv : system_view) (pkt : packet) : M handler Z :=
  serve sv pkt;;
  let! h := get_state in
  ret (last_res (h_trace h)).

(** [memset(&id, 0, sizeof(id))] *)
Definition zero_info : InfoData := mk_info 0 0 0 0 0 0 0 None 0.

Definition exit_code (res : Z) : Z := if negb (res =? 0) then RETURN_OK else RETURN_FAIL.

(** [main]: [args] are the device and the command that ReadArgs() found, [port] tells
    whether DeviceProc() found the handler, and [sv] and [sv'] are what the handler sees
    of the system when it serves the first and the second packet.  With the exit code
    comes the block that [info] prints. *)
Definition exfatctl_main (sv sv' : system_view) (args : option (list Z * list Z)) (port : bool) : M handler (Z * option InfoData) :=
  match args with
  | None => ret (RETURN_ERROR, None)
  | Some (dev, cmd) =>
      if negb port then ret (RETURN_FAIL, None)
      else if bool_decide (cmd = str "flush") then
        let! res := DoPkt sv ACTION_FLUSH in
        ret (exit_code res, None)
      else if bool_decide (cmd = str "die") then
        let! flushed := DoPkt sv ACTION_FLUSH in
        if flushed =? 0 then ret (RETURN_FAIL, None)
        else
          let! res := DoPkt sv' ACTION_DIE in
          ret (exit_code res, None)
      else if bool_decide (cmd = str "inhibit") || bool_decide (cmd = str "uninhibit") then
        let on := if znth cmd 0 =? 105 then DOSTRUE else DOSFALSE in
        let! res := DoPkt sv (ACTION_INHIBIT on) in
        ret (exit_code res, None)
      else if bool_decide (cmd = str "info") then
        let! res := DoPkt sv ACTION_DISK_INFO in
        if res =? 0 then ret (RETURN_FAIL, None)
        else
          let! h := get_state in
          ret (RETURN_OK, Some (default zero_info (last (omap store_of (h_trace h)))))
      else ret (RETURN_ERROR, None)
  end.

(** ** What the commands do *)

Lemma last_res_app t e z : reply_of e = Some z -> last_res (t ++ [e]) = z.
Proof. intros E. unfold last_res. rewrite omap_app. cbn. rewrite E. by rewrite last_snoc. Qed.

(** Everything that libexfat keeps in memory is on the medium. *)
Definition written_back (w : world) : Prop := all_clean w /\ ef_cmap_dirty (w_ef w) = false.

Lemma written_back_heap w w' : w_heap w' = w_heap w -> w_root w' = w_root w -> w_ef w' = w_ef w -> written_back w -> written_back w'.
Proof. intros E1 E2 E3 [A B]. split; [unfold all_clean; by rewrite E1, E2 | by rewrite E3]. Qed.

(** A volume that the handler may write to. *)
Definition active (h : handler) : bool := negb (read_only h) && h_mounted h && negb (h_inhibited h).

Lemma on_ef_inv {A} (m : M world A) h a h' : on_ef m h = Ok a h' -> exists w', m (h_world h) = Ok a w' /\ h' = set_h_world w' h.
Proof. unfold on_ef, on_part. cbn. destruct (m (h_world h)) as [b w' | |]; [| done..]. intros [= <- <-]. eauto. Qed.

Lemma reply_inv a b h x h' : reply a b h = Ok x h' -> last_res (h_trace h') = a /\ h_world h' = h_world h /\ h_quit h' = h_quit h.
Proof. intros [=]. subst. cbn. split; [by apply last_res_app | done]. Qed.

Lemma on_part_inv {A} (m : M vol A) w a w' : on_part m w = Ok a w' -> exists v', m (w_vol w) = Ok a v' /\ w' = set_w_vol v' w.
Proof. unfold on_part. cbn. destruct (m (w_vol w)) as [b v' | |]; [| done..]. intros [= <- <-]. eauto. Qed.

Lemma on_world_os_ef {A} (m : M env A) w a w' : on_world_os m w = Ok a w' ->
  w_heap w' = w_heap w /\ w_root w' = w_root w /\ w_ef w' = w_ef w.
Proof.
  unfold on_world_os. intros (v' & E & ->)%on_part_inv. unfold on_part in E. destruct (m _); [| done..]. injection E as _ <-. done.
Qed.

(** A flush that reports success, where there is something to write. *)
Lemma flush_packet_written h x h' : do_flush h = Ok x h' -> forest (h_world h) -> active h = true ->
  last_res (h_trace h') <> 0 -> written_back (h_world h').
Proof.
  intros E Hf Ha Hr. apply bind_inv in E as (? & ? & [= <- <-] & E). unfold active in Ha. rewrite Ha in E.
  apply bind_inv in E as (err & h3 & E & Er). apply bind_inv in E as (rc & h1 & E1 & E).
  apply on_ef_inv in E1 as (w1 & E1 & ->). pose proof (flush_nodes_all_clean _ Hf) as C1. unfold wpt in C1.
  rewrite E1 in C1. destruct C1 as [_ C1].
  apply bind_inv in E as (rc2 & h2 & E2 & E). apply bind_inv in E as (rc3 & h4 & E3 & E).
  apply reply_inv in Er as (Er & Ew & _). rewrite Er in Hr.
  destruct (Z.eqb_spec rc3 0) as [-> | Hrc3]; [| unfold ret in E; simplify_eq; done]. unfold ret in E; simplify_eq.
  destruct (Z.eqb_spec rc2 0) as [-> | Hrc2]; cbn [negb] in E3; [| unfold ret in E3; simplify_eq].
  destruct (Z.eqb_spec rc 0) as [-> | Hrc]; cbn [negb] in E2; [| unfold ret in E2; simplify_eq].
  apply on_ef_inv in E2 as (w2 & E2 & ->). apply on_ef_inv in E3 as (w3 & E3 & ->). rewrite Ew.
  apply on_part_inv in E2 as (v2 & E2 & ->). apply on_world_os_ef in E3 as (Eh & Er3 & Ee).
  eapply (written_back_heap (set_w_vol v2 w1)); [done.. |]. split; [by apply C1 |]. cbn. by eapply exfat_flush_clean.
Qed.

Lemma DoPkt_flush sv h a h' : DoPkt sv ACTION_FLUSH h = Ok a h' -> do_flush h = Ok tt h' /\ a = last_res (h_trace h').
Proof.
  intros ([] & h1 & E1 & E)%bind_inv. apply bind_inv in E as (? & ? & [= <- <-] & [= <- <-]).
  apply bind_inv in E1 as (? & ? & [= <- <-] & E1). by rewrite andb_false_r in E1.
Qed.

Lemma DoPkt_die sv h a h' : DoPkt sv ACTION_DIE h = Ok a h' -> do_die h = Ok tt h' /\ a = last_res (h_trace h').
Proof.
  intros ([] & h1 & E1 & E)%bind_inv. apply bind_inv in E as (? & ? & [= <- <-] & [= <- <-]).
  apply bind_inv in E1 as (? & ? & [= <- <-] & E1). by rewrite andb_false_r in E1.
Qed.

Lemma wps_DoPkt sv pkt (Q : handler -> Prop) h : wps (serve sv pkt) (fun _ h' => Q h') h -> wps (DoPkt sv pkt) (fun _ h' => Q h') h.
Proof. intros Hs. apply wps_bind. eapply wps_mono; [exact Hs |]. cbn beta. intros _ h' HQ. by apply wps_bind, wps_get, wps_ret. Qed.

(** How the handler answers [do_die]. *)
Lemma die_answer h x h' : do_die h = Ok x h' ->
  h_world h' = h_world h /\ h_nlocks h' = h_nlocks h /\ h_nfiles h' = h_nfiles h /\
  ((last_res (h_trace h') = DOSFALSE /\ h_quit h' = h_quit h) \/
   (last_res (h_trace h') = DOSTRUE /\ h_quit h' = true /\ h_nlocks h = 0 /\ h_nfiles h = 0)).
Proof.
  intros E. apply bind_inv in E as (? & ? & [= <- <-] & E).
  destruct (Z.eqb_spec (h_nlocks h) 0) as [Hl |]; cbn [negb orb] in E;
    [destruct (Z.eqb_spec (h_nfiles h) 0) as [Hn |]; cbn [negb] in E |].
  - apply bind_inv in E as (? & h1 & [= <- <-] & E). pose proof (reply_inv _ _ _ _ _ E) as (Er & Ew & Eq). injection E as _ <-.
    split_and!; [done.. | right]. done.
  - pose proof (reply_inv _ _ _ _ _ E) as (Er & Ew & Eq). injection E as _ <-. split_and!; [done.. | by left].
  - pose proof (reply_inv _ _ _ _ _ E) as (Er & Ew & Eq). injection E as _ <-. split_and!; [done.. | by left].
Qed.
End Control.

(** C12: "exfatctl die" says that the card may be removed only when it may: if its exit
    code is RETURN_OK, the handler will leave its loop, no lock and no file is open, and
    everything that libexfat had in memory, nodes and the bitmap of clusters, was
    written (when there is a volume that may be written to).  Otherwise the handler
    goes on, also when writing failed; and in both cases its tables stay consistent. *)
Theorem exfatctl_die_safe `{Platform} sv sv' dev h (C : consistent h) :
  wps (exfatctl_main sv sv' (Some (dev, str "die")) true) (fun r h' => consistent h' /\
    (r.1 = RETURN_OK -> h_quit h' = true /\ h_nlocks h' = 0 /\ h_nfiles h' = 0 /\
       (active h = true -> written_back (h_world h'))) /\
    (r.1 <> RETURN_OK -> h_quit h' = h_quit h)) h.
Proof.
  change (wps (let! flushed := DoPkt sv ACTION_FLUSH in
    if flushed =? 0 then ret (RETURN_FAIL, None) else let! res := DoPkt sv' ACTION_DIE in ret (exit_code res, None))
    (fun (r : Z * option InfoData) h' => consistent h' /\
    (r.1 = RETURN_OK -> h_quit h' = true /\ h_nlocks h' = 0 /\ h_nfiles h' = 0 /\ (active h = true -> written_back (h_world h'))) /\
    (r.1 <> RETURN_OK -> h_quit h' = h_quit h)) h).
  assert (Hserve : forall sv h, consistent h -> wps (serve sv ACTION_FLUSH) (fun _ h' => consistent h') h /\ wps (serve sv ACTION_DIE) (fun _ h' => consistent h') h).
  { intros sv1 h1 C1. split; apply wps_bind, wps_get; rewrite andb_false_r; [by apply flush_packet | by apply die_packet]. }
  apply wps_bind. eapply wps_mono; [apply wps_fact; [by apply wps_DoPkt, Hserve | intros a h1 E; exact (DoPkt_flush _ _ _ _ E)] |].
  cbn beta. intros flushed h1 [C1 [E1 ->]]. destruct (replying_flush (keep := true) h _ _ E1) as [_ Em].
  assert (Eq : h_quit h1 = h_quit h) by (pose proof (Em eq_refl) as Em'; by injection Em').
  destruct (Z.eqb_spec (last_res (h_trace h1)) 0) as [Hz | Hz]; [by apply wps_ret |].
  apply wps_bind. eapply wps_mono; [apply wps_fact; [by apply wps_DoPkt, Hserve | intros a h2 E; exact (DoPkt_die _ _ _ _ E)] |].
  cbn beta. intros res h2 [C2 [E2 ->]]. apply wps_ret. split; [done |].
  apply die_answer in E2 as (Ew & El & Ef & [[Er Eq2] | (Er & Eq2 & Hl & Hn)]); unfold exit_code; rewrite Er; cbn.
  - split; [done | congruence].
  - split; [| done]. intros _. split_and!; [done | congruence.. |]. intros Ha. rewrite Ew.
    assert (Hf : forest (h_world h)) by (destruct C as [[_ L] | [_ U]]; [by apply serves_forest |];
      unfold active in Ha; rewrite (un_mounted _ U) in Ha; by rewrite andb_false_r in Ha).
    apply (flush_packet_written h tt h1 E1 Hf Ha Hz).
Qed.

#[local] Existing Instance word_le64.

Lemma exfatctl_die_safe_witness :
  wps (exfatctl_main demo_view demo_view (Some (str "EXF0:", str "die")) true) (fun r h' => consistent h' /\
    (r.1 = RETURN_OK -> h_quit h' = true /\ h_nlocks h' = 0 /\ h_nfiles h' = 0 /\
       (active demo_handler = true -> written_back (h_world h'))) /\
    (r.1 <> RETURN_OK -> h_quit h' = h_quit demo_handler)) demo_handler.
Proof. apply exfatctl_die_safe. exact demo_handler_consistent. Defined.
